(* ===== verification/_CoqProject ===== *)
-Q . S2P
Prelude.v
Json.v
StateModel.v
StateSerde.v
StateDiff.v
StateDiffTheory.v
StateDiffSpec.v
StateLoad.v
Guest.v
StatePreflight.v
StatePreflightSpec.v
ApiError.v
UrlPath.v
Transport.v
StateApply.v
StateApplySpec.v
StateBodies.v
Converge.v
Incident.v
GuestPreflight.v
HitlPending.v
Mac.v
HitlCallback.v
AuditLog.v
AuditSpec.v
SortBy.v
SnapTree.v
SnapTreeSpec.v
F64.v
Alerts.v
AlertsSpec.v
Sanitize.v
Gateway.v
HitlOps.v
HitlDaemon.v
HitlDaemonSpec.v
McpTools.v
McpDispatch.v
McpDispatchSpec.v
Ha.v
Hw.v
IsoLibrary.v
AppModel.v
AppUpdate.v
AppSpec.v
AppRunSpec.v
AppCache.v
QueueStoreSpec.v
Patch.v
TuiHitl.v
TuiHitlSpec.v
GuestLookup.v
Batch.v
BatchSpec.v
StateExport.v
StateExportSpec.v
Utf8.v
KnownHosts.v
SshSession.v
SshExec.v
SshTarget.v
SshPool.v
TlsPin.v
Config.v
Secrets.v
Durable.v
Redact.v
ApiClient.v
ApiEndpoints.v
ApiRoutes.v
ApiClientSpec.v
McpHttp.v
McpStdio.v
TokenBootstrap.v
Cli.v
CliFirewall.v
CliStorage.v
CliCluster.v
CliNode.v
CliSpec.v
