(* ===== verification/Prelude.v ===== *)
(** * proxxx: a verification library

    proxxx is a command-line and terminal client for Proxmox VE.  It reads a
    declared cluster state, compares it with the live one, gates the
    difference by risk, sends it through the Proxmox API and records what it
    did; around that sit a kill-switch, human approval over Telegram and a
    tamper-evident audit log.  This library models these parts as functions
    that evaluate, and proves what they promise.

    ** How the program fits together

    [from_toml_str] loads a document into a [ClusterState]; [diff] compares it
    with the exported live state and gives a list of [Change]s;
    [enforce_state_preflight] assesses the changes the run would send and
    refuses the severe ones unless risk is accepted; [apply] dispatches each
    change to a handler that makes API requests; [converge] is the whole
    pipeline with its audit entry.  Every request goes through
    [send_with_retry], which must not execute a mutation twice.  Before a
    mutation leaves, [check_not_frozen_for] consults the kill-switch locks and
    [log_mutation_sent] writes the write-ahead audit row.  A guarded operation
    is stored as a pending request; a signed button press is verified by
    [verify_callback] and counted by [process_callback_at].

    ** Files (program sources are under src/src)

    - [Prelude]: results and the state-and-error monad, byte strings, machine
      integers, sorted keys, record updates, shared lemmas.  [Json]: [serde_json::Value], the
      combinators of derived serialisation, and the interface [Serde] with its
      law [SerdeOk], against which the diff, the gate and apply are written.
    - [StateModel], [StateSerde], [StateLoad]: state/model.rs.  Declarations
      as records, their JSON form and its round trip, loading, validation of
      identities, managed families, profile check.  The TOML reader is a
      parameter.
    - [StateDiff], [StateDiffTheory], [StateDiffSpec]: state/diff.rs (and
      [normalize_csv] of state/export.rs).  One function per family; the
      theory treats the families uniformly through their keyed view.
    - [Guest], [GuestPreflight]: api/types/guest.rs, app/preflight.rs (its
      tiers are in [Guest]) and the gate of cli/common.rs.
      [StatePreflight], [StatePreflightSpec]: state/preflight.rs.
    - [StateApply], [StateApplySpec]: state/apply.rs.  A request is a
      [WriteCall]; the cluster is any function from a request to a step of a
      world.  [StateBodies] reads the update bodies the way the PVE API
      documents them.
    - [Converge]: state/converge.rs, the drift computation of
      cli/reconcile.rs, the prompt of cli/state.rs.
    - [ApiError], [UrlPath], [Transport]: api/error.rs, api/transport.rs and
      the path helpers and retry loop of api/client.rs.
    - [Incident]: incident/mod.rs, the freeze locks on a file map.
    - [HitlPending]: hitl/pending.rs, the SQL table as a
      map from id to row.  [HitlCallback]: hitl/hmac_key.rs, telegram.rs,
      policy.rs and the verification half of daemon.rs.
    - [Mac]: the interface to the HMAC and hexadecimal crates.
    - [AuditLog], [AuditSpec]: audit/mod.rs.
    - [SortBy]: [slice::sort_by] and [str] order.  [SnapTree],
      [SnapTreeSpec]: app/snaptree.rs.
    - [F64], [Alerts], [AlertsSpec]: alerts/*.rs.  [Sanitize]:
      util/sanitize.rs.
    - [Gateway], [HitlOps], [HitlDaemon], [HitlDaemonSpec]: the guest
      operations of the [ProxmoxGateway] trait, the decoding and execution of
      an approved request, and the handler of hitl/daemon.rs.
    - [McpTools], [McpDispatch], [McpDispatchSpec]: mcp/tools.rs and
      mcp/dispatch.rs.
    - [Ha], [Hw], [IsoLibrary]: the files of that name under app/.
    - [AppModel], [AppUpdate] and the specifications
      [AppSpec], [AppRunSpec]: the terminal
      interface's model and reducer, app.rs, app/queue.rs, app/search.rs.
      [AppCache], [QueueStoreSpec]: app/cache.rs and the saving
      of the queue by tui/mod.rs.
    - [Patch]: app/patch.rs and cli/patch.rs.
    - [TuiHitl], [TuiHitlSpec]: the approval gate, the effects and the queue
      runner of tui/mod.rs.
    - [GuestLookup], [Batch], [BatchSpec]: cli/common.rs.
    - [StateExport], [StateExportSpec]: state/export.rs.
    - [Utf8]: lossy decoding and trimming of bytes.  [KnownHosts],
      [SshSession], [SshExec], [SshTarget], [SshPool]:
      ssh/*.rs and the [ssh] part of config/mod.rs; russh is a parameter.
    - [TlsPin]: api/tls_pin.rs.  [Config], [Secrets]:
      config/mod.rs.
    - [Durable]: util/durable.rs, over a disk that crashes.
    - [Redact]: the scrubber of util/panic_hook.rs and the redaction of
      audit/mod.rs.  [ApiClient]: the verbs of api/client.rs with their gates,
      and api/auth.rs; a method is a program over the verbs, and
      [ApiEndpoints] has one for each of the 233 methods of the trait.
      [ApiRoutes]: what a server reads in their paths.  [ApiClientSpec].
    - [McpHttp], [McpStdio]: the two transports of the tools,
      mcp/http_server.rs with [dispatch_rpc] of mcp/dispatch.rs, and
      mcp/server.rs with mcp/notifications.rs.
    - [TokenBootstrap]: cli/token_bootstrap.rs, with the reading of its
      command lines by a shell.
    - [Cli]: the composed methods of api/mod.rs and the helpers of
      cli/common.rs as programs over the client.  [CliFirewall],
      [CliStorage], [CliCluster], [CliNode]: the commands of the files of
      these names under cli/, access.rs with access/pveum.rs in
      [CliCluster], and in [CliNode] monitoring.rs without the metric series,
      the snapshots and guest-agent files of vm.rs, deletion and search of
      cli/mod.rs.  [CliSpec]: the dispatch [execute] of these and the
      classification of every command for [--secure], cli/mod.rs, with the
      theorems.

    ** What the theorems show

    - Diff: replaying the changes of a managed family on the live entries
      gives the declared ones (a storage up to the order of its lists; a
      security group that exists keeps its comment); the diff is empty exactly when in sync; nothing
      unmanaged is touched; one change per identity, in the order apply needs.
    - Loading: exactly which documents load, and that keying a loaded document
      by identity loses no declaration.
    - Gates: the state gate refuses exactly the dangerous plans
      ([severe_plan] is written on the two documents, not on the change list)
      and judges what apply sends; the guest gate refuses exactly the blocked
      operations, whatever its probes answer.
    - Apply: what is sent is what was assessed, dry runs send nothing, the
      first failure stops the run, every change of a diff has a handler, and
      the update bodies reach the declared object.
    - Converge: every change is accounted for, a changed cluster leaves an
      audit entry even when the run is dropped midway, and refused runs touch
      nothing.
    - Transport: the retry loop ends, a mutation is executed at most once, an
      unknown outcome is reported as such; accepted paths hold no dot segment
      and encoding loses nothing.
    - Kill-switch: fail-closed, covers its scope until expiry, separates
      profiles, thaw undoes freeze.
    - Approval: by induction on runs of the store, an approval has its quorum
      of distinct votes in time and a request is approved at most once; only
      presses signed for this chat and approver verify, and the buttons sent
      do verify.
    - Audit: a log the program wrote verifies across rotations and faults,
      but for the two that lose the old key and for loggers that hold a key
      from before a rotation;
      rewriting it needs a MAC collision; a mutation leaves only after its
      record; time stamps are calendar dates.
    - Snapshots: the assembled tree shows every snapshot once, whatever the
      order of the answer, cycles and orphans included.
    - Alerts: an outage is notified, and no channel gets more messages about
      a target than the rule's window allows, plus one for each crash between
      sending and saving, as long as the cache is saved and loaded.
    - Daemon and MCP: an approved request is executed as it was approved, at
      most once, and is closed whatever the cluster answers, unless the
      database refuses the record; a destructive tool is never run by the call
      that asks for it, which only runs the pre-flight's listing of ports in
      the guest, and arguments are typed.
    - Terminal interface: the reducer keeps its invariant and sends nothing
      past its guards without the break-glass key; the queue stays bounded; no
      queued operation is dispatched twice over crashes and late writes; what
      a policy covers runs only after its quorum, reached since the last
      start; a queued operation passes the pre-flight.
    - Patching is serial and stops at the first node that fails while it is
      patched; a node that failed in the plan is passed over.
    - Lookups and batches: "not found" is said only when certain; a batch
      reports each target once, sends only what no policy covers, and stops at
      a pilot that is not a success throughout or a wave with an error row
      (rejected targets do not stop a rolling run).
    - Export: a document written by the export reads back as the cluster it
      was taken from, with nothing left to apply.
    - SSH: a host key once seen is never replaced, also over a restart; a
      command reaches the node it names; the lines of its output are those it
      wrote, however the network cuts them.
    - Configuration: a profile that loads means what it says and inherits no
      secret; a credential (but for the bot token, whose order the code and its
      warning disagree on) is that of the first source that gives one, and an
      error tells none; a fingerprint pins exactly its certificate.
    - Durable writes: over all interleavings, failures and crashes, a file is
      the old one or a complete new one, and a finished write stays.
    - API client: by induction on programs, whatever is run sends a mutation
      only after its own record and nothing but reads under a lock; every
      method reaches the endpoint it means; no credential parameter is
      recorded, before the request or after; the poll for the result of a
      guest command ends with its deadline; a guest is deleted only when just
      seen stopped.
    - MCP transports: a request over HTTP reaches a tool exactly when its
      Host, Origin and token pass; the stdio reader cuts its input into the
      lines it holds, refusing the long ones whole.
    - Token bootstrap: the secret goes to the store and nowhere else (runs
      that differ in the secret alone report, send and record the same, with
      the production store and verifier), a run that succeeds has the secret
      stored, one that fails after the token was made asks for its removal,
      and the shell
      of the node reads nothing but [pveum] calls with the words given.
    - Command line, for the commands of [CliCommand]: whatever the cluster
      answers, a command deletes, stops every guest of a node or revokes a
      role only when [--yes] was given (the deletion of a snapshot has no such
      flag) and never under [--secure]; it makes at most one change, and none
      when it only looks; a raw parameter replaces the typed one of its name.

    Where the code does not do what its comments say, a lemma shows it:
    [ha_resource_update_omits_true_flags], [unreadable_lock_not_listed],
    [rotation_can_lose_the_key], [shifted_fields_undetected],
    [stale_logger_breaks_chain], [host_id_collision], [telegram_file_wins],
    [plus_sign_accepted], [ticket_tail_kept], [repeated_keys_lost],
    [upload_skips_the_guard], [filter_adds_a_pair],
    [rejected_rows_do_not_stop_rolling], [planned_failure_is_passed_over],
    [snapshot_deleted_unconfirmed], [hidden_lock_lets_through],
    [concurrent_first_contact].

    ** Modelling choices

    A Rust [String] is its bytes.  Integers are [N] or [Z] with saturation and
    bounds written out where the code has them.  Fallible code returns
    [Result]; code that also changes a world is [SM], whose errors keep the
    world as it was when the error was raised.  Third-party code is a
    parameter with its documented laws as named hypotheses: the TOML and JSON
    text codecs, HMAC-SHA256 and hexadecimal, the HTTP client, the database
    (whether it takes a statement) and the disk (where a write or rename
    fails); the witnesses instantiate each of them.

    Loops that are not structural carry fuel: [send_loop] takes
    [attempts_bound], one round per attempt and one for a re-authentication,
    and termination within it is a theorem; trimming takes the length of the
    string; [year_loop] takes one round per 365 days, enough because every
    round removes at least that many; [poll_fuel], [wait_fuel] and
    [stop_wait_fuel] are one round per polling interval until the deadline, and
    so is [exec_fuel], proved enough; [scrub_loop] takes the length of its input;
    the snapshot walk takes the number of snapshots; [update_fuel] takes 3,
    the deepest chain of actions the reducer calls itself on; [chunks] takes
    the length of the list, and the decoding and splitting of bytes the length
    of the input; [stdin_reader_loop] and [McpStdio.drain] the length of what
    is left to read, and the polling of the command line is [poll_fuel].

    ** Not modelled

    Terminal drawing, argument parsing by clap, printing, sockets and
    interactive terminals are I/O: the commands return the value they print.
    The console hand-off and web terminal start external programs and relay
    their bytes.  Left out for their size: the client of the backup server
    with its commands and the restore, the reports of the accounting and
    metrics, schedules, fan-out, and the remaining commands of cli/, which
    make their requests through the methods that [ApiEndpoints] has.
    The requests of one client are one after the other: its rate limiter and
    concurrent requests are not modelled, and handshakes with host keys follow
    each other.  Two processes are interleaved at the granularity of their
    transactions; the window between reading the audit key and the append is
    shown by example only. *)

From Stdlib Require Export Ascii.
From stdpp Require Export base list strings gmap sorting pretty.

#[export] Set Default Goal Selector "!".

(** ** Hint databases

    [proxxx] holds the lemmas that close the common side goals of the
    components; [strs] the rewriting rules on strings. *)
Create HintDb proxxx.
Create Rewrite HintDb strs.

(** ** Results and the state-and-error monad

    [Result E A] is Rust's [Result<A, E>].  [SM S E A] is a computation that
    threads a store [S] and may fail: an error keeps the store as it was when
    the error was raised, because a Rust [?] does not undo the calls that were
    made before it. *)
Inductive Result (E A : Type) : Type :=
  | Ok (a : A)
  | Err (e : E).
Arguments Ok {E A} a.
Arguments Err {E A} e.

#[export] Instance Result_ret E : MRet (Result E) := fun A a => Ok a.
#[export] Instance Result_bind E : MBind (Result E) := fun A B k r =>
  match r with Ok a => k a | Err e => Err e end.

Definition is_ok {E A} (r : Result E A) : bool :=
  match r with Ok _ => true | Err _ => false end.

(** [Option::context] / [Option::ok_or]. *)
Definition ok_or {E A} (e : E) (o : option A) : Result E A :=
  match o with Some a => Ok a | None => Err e end.

Definition result_ok {E A} (r : Result E A) : option A :=
  match r with Ok a => Some a | Err _ => None end.

Definition SM (S E A : Type) : Type := S -> Result E A * S.

#[export] Instance SM_ret S E : MRet (SM S E) := fun A a s => (Ok a, s).
#[export] Instance SM_bind S E : MBind (SM S E) := fun A B k m s =>
  match m s with
  | (Ok a, s') => k a s'
  | (Err e, s') => (Err e, s')
  end.

Definition throw {S E A} (e : E) : SM S E A := fun s => (Err e, s).
Definition lift {S E A} (r : Result E A) : SM S E A := fun s => (r, s).
Definition when {S E} (b : bool) (m : SM S E unit) : SM S E unit :=
  if b then m else mret ().

(** A computation ends, with its result and store, in [Q]. *)
Definition wp {S E A} (m : SM S E A) (s : S) (Q : Result E A -> S -> Prop) : Prop := Q (m s).1 (m s).2.
Section wp.
Context {S E : Type}.
Implicit Types s : S.
Lemma wp_ret {A} (a : A) s (Q : Result E A -> S -> Prop) : Q (Ok a) s -> wp (mret a) s Q.
Proof. done. Qed.
Lemma wp_throw {A} (e : E) s (Q : Result E A -> S -> Prop) : Q (Err e) s -> wp (throw e) s Q.
Proof. done. Qed.
Lemma wp_lift {A} (r : Result E A) s (Q : Result E A -> S -> Prop) : Q r s -> wp (lift r) s Q.
Proof. done. Qed.
Lemma wp_bind {A B} (m : SM S E A) (k : A -> SM S E B) s (Q : Result E B -> S -> Prop) :
  wp m s (fun r s' => match r with Ok a => wp (k a) s' Q | Err e => Q (Err e) s' end) -> wp (m ≫= k) s Q.
Proof. unfold wp. cbv [mbind SM_bind]. by destruct (m s) as [[a|e] s']. Qed.
Lemma wp_mono {A} (m : SM S E A) s (P Q : Result E A -> S -> Prop) : wp m s P -> (forall r s', P r s' -> Q r s') -> wp m s Q.
Proof. unfold wp. auto. Qed.
Lemma wp_run {A} (m : SM S E A) s (Q : Result E A -> S -> Prop) r s' : wp m s Q -> m s = (r, s') -> Q r s'.
Proof. unfold wp. intros H Em. by rewrite Em in H. Qed.
End wp.

(** A loop of fallible calls: [for x in l { f(x).await?; }]. *)
Fixpoint for_each {S E A} (f : A -> SM S E unit) (l : list A) : SM S E unit :=
  match l with
  | [] => mret ()
  | x :: l' => f x ;; for_each f l'
  end.

(** ** Byte strings

    A Rust [String] is modelled by its bytes: [str] comparison, searching and
    splitting at an ASCII character are all bytewise. *)
#[global] Arguments String.append !_ _ /.

Definition is_empty (s : string) : bool := bool_decide (s = "").

Fixpoint strip_prefix (p s : string) : option string :=
  match p, s with
  | "", _ => Some s
  | String a p', String b s' => if Ascii.eqb a b then strip_prefix p' s' else None
  | _, _ => None
  end.

Definition starts_with (p s : string) : bool :=
  match strip_prefix p s with Some _ => true | None => false end.

(** [str::split_once]: the parts before and after the first occurrence. *)
Fixpoint split_once (p s : string) : option (string * string) :=
  match strip_prefix p s with
  | Some rest => Some ("", rest)
  | None =>
      match s with
      | "" => None
      | String c s' => prod_map (String c) id <$> split_once p s'
      end
  end.

Definition contains (p s : string) : bool :=
  match split_once p s with Some _ => true | None => false end.

(** [str::split(char)]: never empty, the empty string gives one empty part. *)
Fixpoint split_char (c : Ascii.ascii) (s : string) : list string :=
  match s with
  | "" => [""]
  | String a s' =>
      if Ascii.eqb a c then "" :: split_char c s'
      else match split_char c s' with
           | [] => [String a ""]
           | w :: ws => String a w :: ws
           end
  end.

(** [str::rsplitn(2, c)]: the part after the last separator and the part
    before it. *)
Fixpoint rsplit_once (c : ascii) (s : string) : option (string * string) :=
  match s with
  | "" => None
  | String a s' =>
      match rsplit_once c s' with
      | Some (h, t) => Some (String a h, t)
      | None => if Ascii.eqb a c then Some ("", s') else None
      end
  end.

Fixpoint join (sep : string) (l : list string) : string :=
  match l with
  | [] => ""
  | [x] => x
  | x :: l' => x +:+ sep +:+ join sep l'
  end.

(** [str::trim_start_matches(char)]. *)
Fixpoint trim_start_char (c : Ascii.ascii) (s : string) : string :=
  match s with
  | String a s' => if Ascii.eqb a c then trim_start_char c s' else s
  | "" => ""
  end.

Fixpoint has_char (c : Ascii.ascii) (s : string) : bool :=
  match s with
  | "" => false
  | String a s' => Ascii.eqb a c || has_char c s'
  end.

Definition ascii_lower (a : Ascii.ascii) : Ascii.ascii :=
  let n := Ascii.N_of_ascii a in
  if (65 <=? n)%N && (n <=? 90)%N then Ascii.ascii_of_N (n + 32) else a.

Fixpoint to_ascii_lowercase (s : string) : string :=
  match s with
  | "" => ""
  | String a s' => String (ascii_lower a) (to_ascii_lowercase s')
  end.

Definition eq_ignore_ascii_case (a b : string) : bool :=
  bool_decide (to_ascii_lowercase a = to_ascii_lowercase b).

(** [str::trim] removes the characters with the Unicode property White_Space;
    these are their UTF-8 encodings. *)
Definition byte (n : N) : string := String (ascii_of_N n) "".
Definition white_space : list string :=
  (byte <$> [9; 10; 11; 12; 13; 32]%N)
  ++ ((fun b => byte 194 +:+ byte b) <$> [133; 160]%N)
  ++ [byte 225 +:+ byte 154 +:+ byte 128]
  ++ ((fun b => byte 226 +:+ byte 128 +:+ byte b)
        <$> [128; 129; 130; 131; 132; 133; 134; 135; 136; 137; 138; 168; 169; 175]%N)
  ++ [byte 226 +:+ byte 129 +:+ byte 159; byte 227 +:+ byte 128 +:+ byte 128].

Definition strip_white (s : string) : option string :=
  head (omap (fun w => strip_prefix w s) white_space).

(** [fuel] counts characters; the length of the string is enough. *)
Fixpoint trim_start_fuel (fuel : nat) (s : string) : string :=
  match fuel, strip_white s with
  | S fuel', Some r => trim_start_fuel fuel' r
  | _, _ => s
  end.
Definition trim_start (s : string) : string := trim_start_fuel (String.length s) s.
Fixpoint trim_end (s : string) : string :=
  if is_empty (trim_start s) then ""
  else match s with "" => "" | String a s' => String a (trim_end s') end.
Definition trim (s : string) : string := trim_end (trim_start s).

(** [str::parse::<u64>]: an optional [+], then decimal digits, no overflow. *)
Definition digit_value (a : ascii) : option N :=
  let n := N_of_ascii a in
  if ((48 <=? n) && (n <=? 57))%N then Some (n - 48)%N else None.
Fixpoint parse_digits (max acc : N) (s : string) : option N :=
  match s with
  | "" => Some acc
  | String a s' =>
      d ← digit_value a;
      let acc' := (10 * acc + d)%N in
      if (acc' <=? max)%N then parse_digits max acc' s' else None
  end.
Definition parse_uint (max : N) (s : string) : option N :=
  let s := match strip_prefix "+" s with Some r => r | None => s end in
  if is_empty s then None else parse_digits max 0 s.

(** [format!("{s:?}")]: quotes, backslashes and ASCII control characters are
    escaped; printable text is kept. *)
Definition hex_lower (n : N) : ascii :=
  if (n <? 10)%N then ascii_of_N (48 + n) else ascii_of_N (87 + n).
Definition escape_debug (a : ascii) : string :=
  let n := N_of_ascii a in
  if (n =? 34)%N || (n =? 92)%N then String (ascii_of_N 92) (String a "")
  else if (n =? 0)%N then String (ascii_of_N 92) "0"
  else if (n =? 9)%N then String (ascii_of_N 92) "t"
  else if (n =? 10)%N then String (ascii_of_N 92) "n"
  else if (n =? 13)%N then String (ascii_of_N 92) "r"
  else if (n <? 16)%N then String (ascii_of_N 92) ("u{" +:+ String (hex_lower n) "}")
  else if (n <? 32)%N || (n =? 127)%N
  then String (ascii_of_N 92) ("u{" +:+ String (hex_lower (n / 16)) (String (hex_lower (n mod 16)) "}"))
  else String a "".
Fixpoint escape_debug_str (s : string) : string :=
  match s with "" => "" | String a s' => escape_debug a +:+ escape_debug_str s' end.
Definition debug_str (s : string) : string :=
  String (ascii_of_N 34) (escape_debug_str s +:+ String (ascii_of_N 34) "").

Definition flag01 (b : bool) : string := if b then "1" else "0".

(** ** Machine integers *)
Definition u64_max : N := 18446744073709551615.
Definition u32_max : N := 4294967295.
Definition i64_max : Z := 9223372036854775807.
Definition i64_min : Z := -9223372036854775808.

Definition u64_saturating_add (a b : N) : N := N.min u64_max (a + b).
Definition i64_saturating_add (a b : Z) : Z := Z.max i64_min (Z.min i64_max (a + b)).
Definition i64_saturating_sub (a b : Z) : Z := Z.max i64_min (Z.min i64_max (a - b)).

(** ** Lemmas on strings *)
Lemma strip_prefix_app p s : strip_prefix p (p +:+ s) = Some s.
Proof.
  induction p as [|a p IH]; [done|]. simpl. by rewrite Ascii.eqb_refl.
Qed.

Lemma strip_prefix_Some p s r : strip_prefix p s = Some r -> s = p +:+ r.
Proof.
  revert s. induction p as [|a p IH]; intros s H; [by simplify_eq/=|].
  destruct s as [|b s]; [done|]. simpl in H.
  destruct (Ascii.eqb_spec a b); [subst|done]. by rewrite (IH s).
Qed.

Lemma string_app_nil_r s : s +:+ "" = s.
Proof. induction s; [done|]. simpl. by f_equal. Qed.

Lemma string_app_assoc a b c : a +:+ (b +:+ c) = (a +:+ b) +:+ c.
Proof. induction a; [done|]. simpl. by f_equal. Qed.

Lemma split_once_Some p s a b : split_once p s = Some (a, b) -> s = a +:+ p +:+ b.
Proof.
  revert a b. induction s as [|c s IH]; intros a b H.
  - simpl in H. destruct (strip_prefix p "") eqn:E; simplify_eq.
    by apply strip_prefix_Some in E.
  - simpl in H. destruct (strip_prefix p (String c s)) eqn:E.
    + simplify_eq. by apply strip_prefix_Some in E.
    + destruct (split_once p s) as [[x y]|]; simplify_eq/=.
      by rewrite (IH x b).
Qed.

(** The first occurrence of a one-character separator is where it is put,
    when the text before it does not hold that character. *)
Lemma split_once_char c a b :
  has_char c a = false -> split_once (String c "") (a +:+ String c b) = Some (a, b).
Proof.
  induction a as [|x a IH]; intros H; simpl.
  - by rewrite Ascii.eqb_refl.
  - simpl in H. apply orb_false_iff in H as [H1 H2].
    rewrite Ascii.eqb_sym, H1. by rewrite IH.
Qed.

(** The same for a separator of two characters. *)
Lemma split_once_sep2 c1 c2 a b :
  has_char c1 a = false ->
  split_once (String c1 (String c2 "")) (a +:+ String c1 (String c2 b)) = Some (a, b).
Proof.
  induction a as [|x a IH]; intros H; simpl.
  - by rewrite !Ascii.eqb_refl.
  - simpl in H. apply orb_false_iff in H as [H1 H2]. rewrite IH by done.
    by rewrite Ascii.eqb_sym, H1.
Qed.

Lemma rsplit_once_Some c s h t : rsplit_once c s = Some (h, t) -> s = h +:+ String c t.
Proof.
  revert h t. induction s as [|a s IH]; intros h t H; [done|]. simpl in H.
  destruct (rsplit_once c s) as [[h' t']|].
  - simplify_eq/=. by rewrite (IH h' t).
  - destruct (Ascii.eqb_spec a c); by simplify_eq.
Qed.

Lemma rsplit_once_none c s : has_char c s = false -> rsplit_once c s = None.
Proof.
  induction s as [|a s IH]; [done|]. simpl. intros [-> H]%orb_false_iff. by rewrite IH.
Qed.

Lemma rsplit_once_app c h t : has_char c t = false -> rsplit_once c (h +:+ String c t) = Some (h, t).
Proof.
  intros Ht. induction h as [|a h IH]; simpl.
  - by rewrite rsplit_once_none, Ascii.eqb_refl.
  - by rewrite IH.
Qed.

Lemma has_char_app c a b : has_char c (a +:+ b) = has_char c a || has_char c b.
Proof. induction a; [done|]. simpl. by rewrite IHa, orb_assoc. Qed.

Lemma split_char_nonempty c s : split_char c s <> [].
Proof.
  destruct s; simpl; [done|]. case_match; [done|]. by case_match.
Qed.

Lemma split_char_app c a s :
  has_char c a = false -> split_char c (a +:+ String c s) = a :: split_char c s.
Proof.
  induction a as [|x a IH]; simpl; intros H.
  - by rewrite Ascii.eqb_refl.
  - apply orb_false_iff in H as [H1 H2]. by rewrite H1, IH.
Qed.
Lemma split_char_none c a : has_char c a = false -> split_char c a = [a].
Proof.
  induction a as [|x a IH]; simpl; intros H; [done|].
  apply orb_false_iff in H as [H1 H2]. by rewrite H1, IH.
Qed.

Lemma join_cons sep x y l : join sep (x :: y :: l) = x +:+ sep +:+ join sep (y :: l).
Proof. done. Qed.

Lemma join_cons_ne sep x l : l <> [] -> join sep (x :: l) = x +:+ sep +:+ join sep l.
Proof. by destruct l. Qed.

Lemma join_head_cons sep a w ws : join sep (String a w :: ws) = String a (join sep (w :: ws)).
Proof. by destruct ws. Qed.

(** Splitting at a character and joining with it gives the string back. *)
Lemma join_split_char c s : join (String c "") (split_char c s) = s.
Proof.
  induction s as [|a s IH]; [done|]. simpl.
  destruct (Ascii.eqb_spec a c) as [->|Hne].
  - rewrite join_cons_ne by apply split_char_nonempty. simpl. by rewrite IH.
  - pose proof (split_char_nonempty c s).
    destruct (split_char c s) as [|w ws]; [done|]. by rewrite join_head_cons, IH.
Qed.

Lemma split_char_join c l :
  l <> [] -> Forall (fun x => has_char c x = false) l -> split_char c (join (String c "") l) = l.
Proof.
  intros Hl HF. induction HF as [|x l Hx HF IH]; [done|].
  destruct l as [|y l]; [by apply split_char_none|].
  rewrite join_cons. change (String c "" +:+ join (String c "") (y :: l))
    with (String c (join (String c "") (y :: l))).
  rewrite split_char_app by done. by rewrite IH.
Qed.

Lemma split_char_parts c s : Forall (fun x => has_char c x = false) (split_char c s).
Proof.
  induction s as [|a s IH]; simpl; [by repeat constructor|].
  destruct (Ascii.eqb a c) eqn:E; [by constructor|].
  destruct (split_char c s) as [|w ws]; [by repeat constructor; simpl; rewrite E|].
  apply Forall_cons in IH as [Hw Hws]. constructor; [|done]. simpl. by rewrite E.
Qed.

#[export] Hint Rewrite strip_prefix_app string_app_nil_r join_split_char : strs.

(** ** Positives as text

    A concrete codec for instantiating a serialiser that is a parameter. *)
Fixpoint write_pos (p : positive) : string :=
  match p with xH => "" | xO q => String "0" (write_pos q) | xI q => String "1" (write_pos q) end.
Fixpoint read_pos (s : string) : positive :=
  match s with
  | "" => xH
  | String a s' => if Ascii.eqb a "1" then xI (read_pos s') else xO (read_pos s')
  end.
Lemma read_write_pos p : read_pos (write_pos p) = p.
Proof. induction p; simpl; congruence. Qed.

(** ** Sorted keys

    [keys.sort_unstable()] over the distinct keys of a map: the result does
    not depend on the iteration order of the [HashMap]. *)
Section SortedKeys.
Context {K : Type} (leK : relation K) `{!RelDecision leK}.

Definition sort_unstable (l : list K) : list K := merge_sort leK l.

Lemma elem_of_sort_unstable x l : x ∈ sort_unstable l <-> x ∈ l.
Proof. unfold sort_unstable. by rewrite merge_sort_Permutation. Qed.

Lemma NoDup_sort_unstable l : NoDup l -> NoDup (sort_unstable l).
Proof. unfold sort_unstable. by rewrite merge_sort_Permutation. Qed.

Lemma length_sort_unstable l : length (sort_unstable l) = length l.
Proof. apply Permutation_length, merge_sort_Permutation. Qed.

Lemma sort_unstable_ext `{!PartialOrder leK, !Total leK} l l' :
  l ≡ₚ l' -> sort_unstable l = sort_unstable l'.
Proof.
  intros Hp. apply (Sorted_unique leK).
  - apply (Sorted_merge_sort leK).
  - apply (Sorted_merge_sort leK).
  - unfold sort_unstable. by rewrite !merge_sort_Permutation.
Qed.
End SortedKeys.

(** ** Lengths and binds *)
Lemma string_length_app a b : String.length (a +:+ b) = (String.length a + String.length b)%nat.
Proof. induction a as [|x a IH]; [done|]. simpl. by rewrite IH. Qed.
Lemma bind_Ok {E A B} (r : Result E A) (k : A -> Result E B) b : r ≫= k = Ok b -> exists a, r = Ok a /\ k a = Ok b.
Proof. destruct r; [eauto|done]. Qed.

(** ** Updating one field of a record

    [r <| f := v |>] is Rust's [r.f = v].  A record opts in with a [Fields]
    instance that rebuilds it from its fields; the setter of a field is found by
    abstracting that field in it. *)
Class Fields (R : Type) := remake : R -> R.
Class Setter {R E : Type} (field : R -> E) := set_field : (E -> E) -> R -> R.

Ltac find_setter R field :=
  let inst := constr:(ltac:(typeclasses eauto) : Fields R) in
  let inst := match inst with (?i : _) => i | ?i => i end in
  let name := match inst with ?h _ => h | ?h => h end in
  let body := eval cbv beta delta [name] in inst in
  let abstracted := eval pattern field in body in
  lazymatch abstracted with
  | ?g field =>
      let t := constr:(fun upd r => g (fun r0 => upd (field r0)) r) in
      let t := eval cbv beta in t in exact t
  end.
#[export] Hint Extern 1 (@Setter ?R _ ?field) => find_setter R field : typeclass_instances.

Notation "r <| f := v |>" := (set_field (field := f) (fun _ => v) r)
  (at level 12, left associativity, f at level 10).
