(* ===== verification/Json.v ===== *)
(** * JSON values and the derived serialisation of declarations

    [serde_json::Value] as the state layer uses it, and the combinators that
    say what a [#[derive(Serialize, Deserialize)]] with [#[serde(default,
    deny_unknown_fields)]] does for one field: [ser_*] emits a field or skips
    it, [de_*] reads it or takes its default.  [Serde] is the interface the
    diff, pre-flight and apply layers use; [SerdeOk] is the round trip they
    rely on. *)
From S2P Require Import Prelude.

#[local] Set Warnings "-register-all".

(** The keys of a JSON object are distinct; no function of the state layer
    depends on their order. *)
Inductive Value : Type :=
  | JNull
  | JBool (b : bool)
  | JNumber (z : Z)
  | JString (s : string)
  | JArray (l : list Value)
  | JObject (m : list (string * Value)).

#[export] Instance Value_eq_dec : EqDecision Value.
Proof.
  refine (fix go (x y : Value) : Decision (x = y) :=
    let _ : EqDecision Value := @go in
    match x, y with
    | JNull, JNull => left eq_refl
    | JBool a, JBool b => cast_if (decide (a = b))
    | JNumber a, JNumber b => cast_if (decide (a = b))
    | JString a, JString b => cast_if (decide (a = b))
    | JArray a, JArray b => cast_if (decide (a = b))
    | JObject a, JObject b => cast_if (decide (a = b))
    | _, _ => right _
    end); abstract congruence.
Defined.

(** [Map::get] on the fields of an object. *)
Fixpoint jget (k : string) (m : list (string * Value)) : option Value :=
  match m with
  | [] => None
  | (k', v) :: m' => if bool_decide (k = k') then Some v else jget k m'
  end.

(** [Value::get], [Value::as_bool], [Value::as_str]. *)
Definition vget (k : string) (v : Value) : option Value :=
  match v with JObject m => jget k m | _ => None end.
Definition as_bool (v : Value) : option bool :=
  match v with JBool b => Some b | _ => None end.
Definition as_str (v : Value) : option string :=
  match v with JString s => Some s | _ => None end.

(** ** Serialisation of one field *)
Definition ser_value (k : string) (v : Value) : list (string * Value) := [(k, v)].
Definition ser_str (k s : string) := ser_value k (JString s).
Definition ser_bool (k : string) (b : bool) := ser_value k (JBool b).
(** [skip_serializing_if = "String::is_empty"] *)
Definition ser_str_skip (k s : string) :=
  if is_empty s then [] else ser_value k (JString s).
(** [skip_serializing_if = "is_false"], ["is_true"], ["is_zero_u32"] *)
Definition ser_false_skip (k : string) (b : bool) :=
  if b then ser_value k (JBool true) else [].
Definition ser_true_skip (k : string) (b : bool) :=
  if b then [] else ser_value k (JBool false).
Definition ser_zero_skip (k : string) (n : N) :=
  if (n =? 0)%N then [] else ser_value k (JNumber (Z.of_N n)).
(** [skip_serializing_if = "Option::is_none"] *)
Definition ser_opt_skip {A} (k : string) (f : A -> Value) (o : option A) :=
  match o with Some a => ser_value k (f a) | None => [] end.
(** [skip_serializing_if = "Vec::is_empty"] *)
Definition ser_list_skip {A} (k : string) (f : A -> Value) (l : list A) :=
  match l with [] => [] | _ => ser_value k (JArray (f <$> l)) end.

(** ** Deserialisation of one field *)
Definition de_field {A} (k : string) (dflt : A) (f : Value -> Result string A)
    (m : list (string * Value)) : Result string A :=
  match jget k m with None => Ok dflt | Some v => f v end.

Definition de_as_str (v : Value) : Result string string :=
  match v with JString s => Ok s | _ => Err "invalid type: expected a string" end.
Definition de_as_bool (v : Value) : Result string bool :=
  match v with JBool b => Ok b | _ => Err "invalid type: expected a boolean" end.
Definition de_as_u32 (v : Value) : Result string N :=
  match v with
  | JNumber z =>
      if bool_decide (0 <= z <= Z.of_N u32_max)%Z then Ok (Z.to_N z)
      else Err "invalid value: expected u32"
  | _ => Err "invalid type: expected u32"
  end.
(** An [Option] field accepts [null]. *)
Definition de_as_opt {A} (f : Value -> Result string A) (v : Value) : Result string (option A) :=
  match v with JNull => Ok None | _ => f v ≫= (fun a => Ok (Some a)) end.
Fixpoint de_list {A} (f : Value -> Result string A) (l : list Value) : Result string (list A) :=
  match l with
  | [] => Ok []
  | v :: l' => a ← f v; r ← de_list f l'; Ok (a :: r)
  end.
Definition de_as_list {A} (f : Value -> Result string A) (v : Value) : Result string (list A) :=
  match v with
  | JArray l => de_list f l
  | _ => Err "invalid type: expected a sequence"
  end.

(** [deny_unknown_fields] *)
Definition known_fields (known : list string) (m : list (string * Value)) : bool :=
  forallb (fun kv => bool_decide (kv.1 ∈ known)) m.

Definition de_object {A} (known : list string)
    (f : list (string * Value) -> Result string A) (v : Value) : Result string A :=
  match v with
  | JObject m => if known_fields known m then f m else Err "unknown field"
  | _ => Err "invalid type: expected a map"
  end.

(** ** The interface the other components use *)
Class Serde (A : Type) := {
  to_value : A -> Value;
  from_value : Value -> Result string A;
}.

(** What is written into a [Change] is what apply and pre-flight read back.
    [wf] is the range of the machine integers inside [A]. *)
Class SerdeOk (A : Type) `{Serde A} (wf : A -> Prop) :=
  from_to_value : forall a, wf a -> from_value (to_value a) = Ok a.

(** ** Lemmas: reading back a field written among others *)
Lemma jget_app k m1 m2 :
  jget k (m1 ++ m2) = match jget k m1 with Some v => Some v | None => jget k m2 end.
Proof. induction m1 as [|[k' v] m1 IH]; [done|]. simpl. by case_bool_decide. Qed.

Lemma jget_ser_value_eq k v : jget k (ser_value k v) = Some v.
Proof. simpl. by rewrite bool_decide_eq_true_2. Qed.
Lemma jget_ser_value_ne k k' v : k <> k' -> jget k (ser_value k' v) = None.
Proof. intros. simpl. by rewrite bool_decide_eq_false_2. Qed.

Lemma known_fields_app ks m1 m2 :
  known_fields ks (m1 ++ m2) = known_fields ks m1 && known_fields ks m2.
Proof. apply forallb_app. Qed.

Lemma known_ser_value ks k v : k ∈ ks -> known_fields ks (ser_value k v) = true.
Proof. intros. unfold known_fields. simpl. by rewrite bool_decide_eq_true_2. Qed.

Lemma de_list_ser {A} (f : Value -> Result string A) (g : A -> Value) (l : list A) :
  Forall (fun a => f (g a) = Ok a) l -> de_list f (g <$> l) = Ok l.
Proof.
  induction 1 as [|a l Ha _ IH]; [done|].
  rewrite fmap_cons. cbn [de_list]. rewrite Ha. cbn. by rewrite IH.
Qed.

(** Reading [k] from the text [ser_*] wrote for [k], whatever surrounds it. *)
Lemma de_str_skip k s m :
  jget k m = (if is_empty s then None else Some (JString s)) -> de_field k "" de_as_str m = Ok s.
Proof.
  unfold de_field, is_empty. intros ->. by case_bool_decide; simplify_eq/=.
Qed.
Lemma de_str k s m d : jget k m = Some (JString s) -> de_field k d de_as_str m = Ok s.
Proof. unfold de_field. by intros ->. Qed.
Lemma de_bool k b m d : jget k m = Some (JBool b) -> de_field k d de_as_bool m = Ok b.
Proof. unfold de_field. by intros ->. Qed.
Lemma de_false_skip k b m :
  jget k m = (if b : bool then Some (JBool true) else None) ->
  de_field k false de_as_bool m = Ok b.
Proof. unfold de_field. intros ->. by destruct b. Qed.
Lemma de_true_skip k b m :
  jget k m = (if b : bool then None else Some (JBool false)) ->
  de_field k true de_as_bool m = Ok b.
Proof. unfold de_field. intros ->. by destruct b. Qed.
Lemma de_zero_skip k n m :
  (n <= u32_max)%N ->
  jget k m = (if (n =? 0)%N then None else Some (JNumber (Z.of_N n))) ->
  de_field k 0%N de_as_u32 m = Ok n.
Proof.
  unfold de_field, de_as_u32. intros Hn ->. destruct (N.eqb_spec n 0); [by subst|].
  rewrite bool_decide_eq_true_2 by lia. by rewrite N2Z.id.
Qed.
Lemma de_opt_skip {A} k (f : A -> Value) (g : Value -> Result string A) (o : option A) m :
  (forall a, f a <> JNull /\ g (f a) = Ok a) ->
  jget k m = (match o with Some a => Some (f a) | None => None end) ->
  de_field k None (de_as_opt g) m = Ok o.
Proof.
  unfold de_field, de_as_opt. intros Hf ->. destruct o as [a|]; [|done].
  destruct (Hf a) as [Hn Hg]. rewrite Hg. by destruct (f a).
Qed.
Lemma de_list_skip {A} k (f : A -> Value) (g : Value -> Result string A) (l : list A) m :
  (forall a, a ∈ l -> g (f a) = Ok a) ->
  jget k m = (match l with [] => None | _ => Some (JArray (f <$> l)) end) ->
  de_field k [] (de_as_list g) m = Ok l.
Proof.
  unfold de_field. intros Hf ->. destruct l as [|a l]; [done|].
  apply de_list_ser, Forall_forall. auto.
Qed.

Lemma jget_str_skip k k' s :
  jget k (ser_str_skip k' s)
  = if bool_decide (k = k') then (if is_empty s then None else Some (JString s)) else None.
Proof. unfold ser_str_skip. case_match; simpl; by case_bool_decide. Qed.
Lemma jget_false_skip k k' b :
  jget k (ser_false_skip k' b)
  = if bool_decide (k = k') then (if b then Some (JBool true) else None) else None.
Proof. unfold ser_false_skip. case_match; simpl; by case_bool_decide. Qed.
Lemma jget_true_skip k k' b :
  jget k (ser_true_skip k' b)
  = if bool_decide (k = k') then (if b then None else Some (JBool false)) else None.
Proof. unfold ser_true_skip. case_match; simpl; by case_bool_decide. Qed.
Lemma jget_zero_skip k k' n :
  jget k (ser_zero_skip k' n)
  = if bool_decide (k = k')
    then (if (n =? 0)%N then None else Some (JNumber (Z.of_N n))) else None.
Proof. unfold ser_zero_skip. case_match; simpl; by case_bool_decide. Qed.
Lemma jget_opt_skip {A} k k' (f : A -> Value) o :
  jget k (ser_opt_skip k' f o)
  = if bool_decide (k = k')
    then match o with Some a => Some (f a) | None => None end else None.
Proof. unfold ser_opt_skip. case_match; simpl; by case_bool_decide. Qed.
Lemma jget_list_skip {A} k k' (f : A -> Value) l :
  jget k (ser_list_skip k' f l)
  = if bool_decide (k = k')
    then match l with [] => None | _ => Some (JArray (f <$> l)) end else None.
Proof. unfold ser_list_skip. destruct l; simpl; by case_bool_decide. Qed.
Lemma jget_ser_value k k' v :
  jget k (ser_value k' v) = if bool_decide (k = k') then Some v else None.
Proof. simpl. by case_bool_decide. Qed.

Create Rewrite HintDb json.
#[export] Hint Rewrite jget_app jget_str_skip jget_false_skip jget_true_skip jget_zero_skip
  @jget_opt_skip @jget_list_skip jget_ser_value : json.

(** Decide the key comparisons that remain between literal keys. *)
Ltac json_keys :=
  repeat match goal with
  | |- context [bool_decide (?a = ?b)] =>
      first [ rewrite (bool_decide_eq_true_2 (a = b)) by reflexivity
            | rewrite (bool_decide_eq_false_2 (a = b)) by discriminate ]
  end.

Lemma option_eta {A} (o : option A) : match o with Some v => Some v | None => None end = o.
Proof. by destruct o. Qed.

(** [jget k m] where [m] is a concatenation of [ser_*] fields. *)
Ltac json_get :=
  unfold ser_str, ser_bool; autorewrite with json; json_keys;
  cbv beta iota; rewrite ?option_eta; reflexivity.

Ltac json_known :=
  unfold ser_str, ser_bool; rewrite ?known_fields_app;
  repeat (apply andb_true_intro; split);
  unfold ser_str_skip, ser_false_skip, ser_true_skip, ser_zero_skip, ser_opt_skip,
    ser_list_skip; repeat case_match; try reflexivity;
  apply known_ser_value; set_solver.
