(* ===== verification/StateModel.v ===== *)
(** * The declared cluster state: src/state/model.rs

    One record per [*Decl] struct (the projections carry a short prefix,
    because Rust's field names repeat between structs), the top-level
    [ClusterState], and the operations of [impl ClusterState]: [manages],
    [validate_unique_identities], [check_profile_match] and the checks
    [from_toml_str] makes after the TOML text has been read.  The derived
    serialisation of every declaration is given with its round trip. *)
From S2P Require Import Prelude Json.

(** ** Declarations *)
Record PoolDecl := {
  pool_poolid : string;
  pool_comment : string;
  pool_members : list string;
}.

Record AclDecl := {
  acl_path : string;
  acl_kind : string;
  acl_ugid : string;
  acl_roleid : string;
  acl_propagate : bool;
}.

Record BackupJobDecl := {
  job_id : string;
  job_schedule : string;
  job_storage : string;
  job_mode : string;
  job_enabled : bool;
  job_all : bool;
  job_vmid : string;
  job_node : string;
  job_mailto : string;
  job_compress : string;
  job_comment : string;
  job_notes_template : string;
  job_prune_backups : string;
}.

Record FirewallOptionsDecl := {
  fwo_enable : option bool;
  fwo_policy_in : option string;
  fwo_policy_out : option string;
  fwo_policy_forward : option string;
  fwo_ebtables : option bool;
  fwo_log_ratelimit : option string;
}.

Record FirewallAliasDecl := {
  alias_name : string;
  alias_cidr : string;
  alias_comment : string;
}.

Record MappingPciDecl := {
  pci_id : string;
  pci_description : string;
  pci_mdev : bool;
  pci_map : list string;
}.

Record MappingUsbDecl := {
  usb_id : string;
  usb_description : string;
  usb_map : list string;
}.

Record FirewallIpsetCidrDecl := {
  cidr_cidr : string;
  cidr_comment : string;
  cidr_nomatch : bool;
}.

Record FirewallIpsetDecl := {
  ipset_name : string;
  ipset_comment : string;
  ipset_cidrs : list FirewallIpsetCidrDecl;
}.

Record FirewallGroupDecl := {
  group_group : string;
  group_comment : string;
}.

Record NotificationMatcherDecl := {
  nm_name : string;
  nm_comment : string;
  nm_target : list string;
  nm_match_field : list string;
  nm_match_severity : list string;
  nm_mode : string;
  nm_invert_match : bool;
  nm_disable : bool;
}.

Record HaRuleDecl := {
  hr_rule : string;
  hr_rule_type : string;
  hr_resources : list string;
  hr_comment : string;
  hr_disable : bool;
  hr_nodes : string;
  hr_strict : bool;
  hr_affinity : string;
}.

Record HaResourceDecl := {
  ha_sid : string;
  ha_state : string;
  ha_max_restart : N;
  ha_max_relocate : N;
  ha_failback : bool;
  ha_auto_rebalance : bool;
  ha_comment : string;
}.

Record StorageDecl := {
  st_storage : string;
  st_storage_type : string;
  st_content : string;
  st_nodes : string;
  st_disable : bool;
  st_shared : bool;
  st_path : string;
  st_pool : string;
  st_server : string;
  st_export : string;
  st_datastore : string;
  st_fingerprint : string;
  st_username : string;
  st_vgname : string;
  st_thinpool : string;
}.

#[export] Instance PoolDecl_eq_dec : EqDecision PoolDecl.
Proof. solve_decision. Defined.
#[export] Instance AclDecl_eq_dec : EqDecision AclDecl.
Proof. solve_decision. Defined.
#[export] Instance BackupJobDecl_eq_dec : EqDecision BackupJobDecl.
Proof. solve_decision. Defined.
#[export] Instance FirewallOptionsDecl_eq_dec : EqDecision FirewallOptionsDecl.
Proof. solve_decision. Defined.
#[export] Instance FirewallAliasDecl_eq_dec : EqDecision FirewallAliasDecl.
Proof. solve_decision. Defined.
#[export] Instance MappingPciDecl_eq_dec : EqDecision MappingPciDecl.
Proof. solve_decision. Defined.
#[export] Instance MappingUsbDecl_eq_dec : EqDecision MappingUsbDecl.
Proof. solve_decision. Defined.
#[export] Instance FirewallIpsetCidrDecl_eq_dec : EqDecision FirewallIpsetCidrDecl.
Proof. solve_decision. Defined.
#[export] Instance FirewallIpsetDecl_eq_dec : EqDecision FirewallIpsetDecl.
Proof. solve_decision. Defined.
#[export] Instance FirewallGroupDecl_eq_dec : EqDecision FirewallGroupDecl.
Proof. solve_decision. Defined.
#[export] Instance NotificationMatcherDecl_eq_dec : EqDecision NotificationMatcherDecl.
Proof. solve_decision. Defined.
#[export] Instance HaRuleDecl_eq_dec : EqDecision HaRuleDecl.
Proof. solve_decision. Defined.
#[export] Instance HaResourceDecl_eq_dec : EqDecision HaResourceDecl.
Proof. solve_decision. Defined.
#[export] Instance StorageDecl_eq_dec : EqDecision StorageDecl.
Proof. solve_decision. Defined.

(** [impl Default for HaResourceDecl]. *)
Definition HaResourceDecl_default : HaResourceDecl :=
  {| ha_sid := ""; ha_state := ""; ha_max_restart := 0; ha_max_relocate := 0;
     ha_failback := true; ha_auto_rebalance := true; ha_comment := "" |}.

(** ** Top-level state *)
Record StateMeta := {
  meta_schema_version : N;
  meta_profile : string;
  meta_exported_at : string;
  meta_exported_from_proxxx : string;
  meta_pve_version : string;
}.

Definition CURRENT_STATE_SCHEMA : N := 1.

Record ClusterState := {
  cs_meta : option StateMeta;
  cs_declared_families : option (gset string);
  cs_pools : list PoolDecl;
  cs_acl : list AclDecl;
  cs_storage : list StorageDecl;
  cs_backup_jobs : list BackupJobDecl;
  cs_firewall_options : option FirewallOptionsDecl;
  cs_firewall_aliases : list FirewallAliasDecl;
  cs_firewall_ipsets : list FirewallIpsetDecl;
  cs_firewall_groups : list FirewallGroupDecl;
  cs_notification_matchers : list NotificationMatcherDecl;
  cs_ha_resources : list HaResourceDecl;
  cs_ha_rules : list HaRuleDecl;
  cs_mappings_pci : list MappingPciDecl;
  cs_mappings_usb : list MappingUsbDecl;
}.

(** [ClusterState::default()]. *)
Definition ClusterState_default : ClusterState :=
  {| cs_meta := None; cs_declared_families := None; cs_pools := []; cs_acl := [];
     cs_storage := []; cs_backup_jobs := []; cs_firewall_options := None;
     cs_firewall_aliases := []; cs_firewall_ipsets := []; cs_firewall_groups := [];
     cs_notification_matchers := []; cs_ha_resources := []; cs_ha_rules := [];
     cs_mappings_pci := []; cs_mappings_usb := [] |}.

(** [self.declared_families.as_ref().is_none_or(|d| d.contains(family))] *)
Definition manages (st : ClusterState) (family : string) : bool :=
  match cs_declared_families st with
  | None => true
  | Some d => bool_decide (family ∈ d)
  end.

(** [FirewallOptionsDecl::satisfied_by]: only the keys the declaration sets
    are compared. *)
Definition opt_satisfied {A} `{EqDecision A} (declared live : option A) : bool :=
  bool_decide (declared = None) || bool_decide (declared = live).

Definition satisfied_by (d l : FirewallOptionsDecl) : bool :=
  opt_satisfied (fwo_enable d) (fwo_enable l)
  && opt_satisfied (fwo_policy_in d) (fwo_policy_in l)
  && opt_satisfied (fwo_policy_out d) (fwo_policy_out l)
  && opt_satisfied (fwo_policy_forward d) (fwo_policy_forward l)
  && opt_satisfied (fwo_ebtables d) (fwo_ebtables l)
  && opt_satisfied (fwo_log_ratelimit d) (fwo_log_ratelimit l).

(** ** Unique identities

    The inner [check]: walk the items, refuse the first key seen before. *)
Definition duplicate_message (family k : string) : string :=
  "`" +:+ family +:+ "` declares `" +:+ k +:+ "` more than once. Each entry in a "
  +:+ "family must have a distinct identity — a duplicate is "
  +:+ "silently discarded at diff time, so this is refused instead.".

Fixpoint check_loop {A} (family : string) (key : A -> string)
    (seen : gset string) (items : list A) : Result string () :=
  match items with
  | [] => Ok ()
  | x :: rest =>
      let k := key x in
      if bool_decide (k ∈ seen) then Err (duplicate_message family k)
      else check_loop family key ({[ k ]} ∪ seen) rest
  end.

Definition check {A} (family : string) (items : list A) (key : A -> string) : Result string () :=
  check_loop family key ∅ items.

(** [format!("{}|{}|{}|{}", a.path, a.kind, a.ugid, a.roleid)] *)
Definition acl_check_key (a : AclDecl) : string :=
  acl_path a +:+ "|" +:+ acl_kind a +:+ "|" +:+ acl_ugid a +:+ "|" +:+ acl_roleid a.

Definition validate_unique_identities (st : ClusterState) : Result string () :=
  check "pools" (cs_pools st) pool_poolid ;;
  check "acl" (cs_acl st) acl_check_key ;;
  check "storage" (cs_storage st) st_storage ;;
  check "backup_jobs" (cs_backup_jobs st) job_id ;;
  check "firewall_aliases" (cs_firewall_aliases st) alias_name ;;
  check "firewall_ipsets" (cs_firewall_ipsets st) ipset_name ;;
  check "firewall_groups" (cs_firewall_groups st) group_group ;;
  check "notification_matchers" (cs_notification_matchers st) nm_name ;;
  check "ha_resources" (cs_ha_resources st) ha_sid ;;
  check "ha_rules" (cs_ha_rules st) hr_rule ;;
  check "mappings_pci" (cs_mappings_pci st) pci_id ;;
  check "mappings_usb" (cs_mappings_usb st) usb_id ;;
  Ok ().

(** ** Loading a document

    The TOML reader is not part of the sources.  [parse] stands for
    [toml::from_str] into a [ClusterState] and [table_keys] for the second
    reading into a generic value: [Some keys] when that value is a table. *)
Section FromToml.
Context (parse : string -> Result string ClusterState)
        (table_keys : string -> Result string (option (gset string))).

Definition record_declared_families (st : ClusterState) (keys : option (gset string)) : ClusterState :=
  match keys with
  | None => st
  | Some ks =>
      {| cs_meta := cs_meta st; cs_declared_families := Some ks;
         cs_pools := cs_pools st; cs_acl := cs_acl st; cs_storage := cs_storage st;
         cs_backup_jobs := cs_backup_jobs st; cs_firewall_options := cs_firewall_options st;
         cs_firewall_aliases := cs_firewall_aliases st;
         cs_firewall_ipsets := cs_firewall_ipsets st;
         cs_firewall_groups := cs_firewall_groups st;
         cs_notification_matchers := cs_notification_matchers st;
         cs_ha_resources := cs_ha_resources st; cs_ha_rules := cs_ha_rules st;
         cs_mappings_pci := cs_mappings_pci st; cs_mappings_usb := cs_mappings_usb st |}
  end.

Definition schema_too_new (st : ClusterState) : option N :=
  match cs_meta st with
  | None => None
  | Some m =>
      if bool_decide (meta_schema_version m <= CURRENT_STATE_SCHEMA)%N then None
      else Some (meta_schema_version m)
  end.

Definition schema_message (v : N) : string :=
  "state document declares schema_version " +:+ pretty v +:+ " but this proxxx "
  +:+ "understands at most " +:+ pretty CURRENT_STATE_SCHEMA +:+ ". Upgrade proxxx rather "
  +:+ "than letting an older binary reinterpret a newer document.".

Definition no_family_message : string :=
  "state document declares no resource family (it is empty, holds only "
  +:+ "comments or only [meta]), so there would be nothing to compare. "
  +:+ "Export one with `proxxx state export`, or declare a family; "
  +:+ "`pools = []` declares that the cluster has no pools.".

(** [declared_families.is_some_and(|keys| keys.iter().any(|k| k != "meta"))] *)
Definition declares_a_family (st : ClusterState) : bool :=
  match cs_declared_families st with
  | None => false
  | Some ks => existsb (fun k => negb (bool_decide (k = "meta"))) (elements ks)
  end.

Definition from_toml_str (text : string) : Result string ClusterState :=
  st ← parse text;
  raw ← table_keys text;
  let st := record_declared_families st raw in
  validate_unique_identities st ;;
  match schema_too_new st with
  | Some v => Err (schema_message v)
  | None => if declares_a_family st then Ok st else Err no_family_message
  end.
End FromToml.

(** [check_profile_match]; the warning it prints is the [true] of the [Ok]. *)
Inductive ProfileMismatch :=
  mk_ProfileMismatch (source_desc declared target : string).

Definition check_profile_match (st : ClusterState) (target_profile source_desc : string)
    (enforce_match allow_mismatch : bool) : Result ProfileMismatch bool :=
  match cs_meta st with
  | None => Ok false
  | Some meta =>
      if is_empty (meta_profile meta) || bool_decide (meta_profile meta = target_profile)
      then Ok false
      else if enforce_match && negb allow_mismatch
      then Err (mk_ProfileMismatch source_desc (meta_profile meta) target_profile)
      else Ok true
  end.
