(* ===== verification/StateSerde.v ===== *)
(** * Derived serialisation of the declarations: the serde attributes of
    src/state/model.rs

    [to_value] follows the field order, the renames and the
    [skip_serializing_if] of each struct; [from_value] its defaults and
    [deny_unknown_fields].  Each declaration has a [SerdeOk] instance: what
    the diff layer stores in a [Change] is what the apply layer reads back. *)
From S2P Require Import Prelude Json StateModel.

Definition PoolDecl_to_value (d : PoolDecl) : Value := JObject
  (ser_str "poolid" (pool_poolid d)
   ++ ser_str_skip "comment" (pool_comment d)
   ++ ser_list_skip "members" JString (pool_members d)).

Definition PoolDecl_from_value : Value -> Result string PoolDecl :=
  de_object ["poolid"; "comment"; "members"] (fun m =>
    poolid ← de_field "poolid" "" de_as_str m;
    comment ← de_field "comment" "" de_as_str m;
    members ← de_field "members" [] (de_as_list de_as_str) m;
    Ok {| pool_poolid := poolid; pool_comment := comment; pool_members := members |}).

Definition AclDecl_to_value (d : AclDecl) : Value := JObject
  (ser_str "path" (acl_path d) ++ ser_str "kind" (acl_kind d)
   ++ ser_str "ugid" (acl_ugid d) ++ ser_str "roleid" (acl_roleid d)
   ++ ser_bool "propagate" (acl_propagate d)).

Definition AclDecl_from_value : Value -> Result string AclDecl :=
  de_object ["path"; "kind"; "ugid"; "roleid"; "propagate"] (fun m =>
    path ← de_field "path" "" de_as_str m;
    kind ← de_field "kind" "" de_as_str m;
    ugid ← de_field "ugid" "" de_as_str m;
    roleid ← de_field "roleid" "" de_as_str m;
    propagate ← de_field "propagate" true de_as_bool m;
    Ok {| acl_path := path; acl_kind := kind; acl_ugid := ugid; acl_roleid := roleid;
          acl_propagate := propagate |}).

Definition BackupJobDecl_to_value (d : BackupJobDecl) : Value := JObject
  (ser_str "id" (job_id d) ++ ser_str "schedule" (job_schedule d)
   ++ ser_str "storage" (job_storage d) ++ ser_str_skip "mode" (job_mode d)
   ++ ser_true_skip "enabled" (job_enabled d) ++ ser_false_skip "all" (job_all d)
   ++ ser_str_skip "vmid" (job_vmid d) ++ ser_str_skip "node" (job_node d)
   ++ ser_str_skip "mailto" (job_mailto d) ++ ser_str_skip "compress" (job_compress d)
   ++ ser_str_skip "comment" (job_comment d)
   ++ ser_str_skip "notes_template" (job_notes_template d)
   ++ ser_str_skip "prune_backups" (job_prune_backups d)).

Definition BackupJobDecl_from_value : Value -> Result string BackupJobDecl :=
  de_object ["id"; "schedule"; "storage"; "mode"; "enabled"; "all"; "vmid"; "node"; "mailto";
             "compress"; "comment"; "notes_template"; "prune_backups"] (fun m =>
    id ← de_field "id" "" de_as_str m;
    schedule ← de_field "schedule" "" de_as_str m;
    storage ← de_field "storage" "" de_as_str m;
    mode ← de_field "mode" "" de_as_str m;
    enabled ← de_field "enabled" true de_as_bool m;
    all ← de_field "all" false de_as_bool m;
    vmid ← de_field "vmid" "" de_as_str m;
    node ← de_field "node" "" de_as_str m;
    mailto ← de_field "mailto" "" de_as_str m;
    compress ← de_field "compress" "" de_as_str m;
    comment ← de_field "comment" "" de_as_str m;
    notes_template ← de_field "notes_template" "" de_as_str m;
    prune_backups ← de_field "prune_backups" "" de_as_str m;
    Ok {| job_id := id; job_schedule := schedule; job_storage := storage; job_mode := mode;
          job_enabled := enabled; job_all := all; job_vmid := vmid; job_node := node;
          job_mailto := mailto; job_compress := compress; job_comment := comment;
          job_notes_template := notes_template; job_prune_backups := prune_backups |}).

Definition FirewallOptionsDecl_to_value (d : FirewallOptionsDecl) : Value := JObject
  (ser_opt_skip "enable" JBool (fwo_enable d)
   ++ ser_opt_skip "policy_in" JString (fwo_policy_in d)
   ++ ser_opt_skip "policy_out" JString (fwo_policy_out d)
   ++ ser_opt_skip "policy_forward" JString (fwo_policy_forward d)
   ++ ser_opt_skip "ebtables" JBool (fwo_ebtables d)
   ++ ser_opt_skip "log_ratelimit" JString (fwo_log_ratelimit d)).

Definition FirewallOptionsDecl_from_value : Value -> Result string FirewallOptionsDecl :=
  de_object ["enable"; "policy_in"; "policy_out"; "policy_forward"; "ebtables"; "log_ratelimit"]
    (fun m =>
    enable ← de_field "enable" None (de_as_opt de_as_bool) m;
    policy_in ← de_field "policy_in" None (de_as_opt de_as_str) m;
    policy_out ← de_field "policy_out" None (de_as_opt de_as_str) m;
    policy_forward ← de_field "policy_forward" None (de_as_opt de_as_str) m;
    ebtables ← de_field "ebtables" None (de_as_opt de_as_bool) m;
    log_ratelimit ← de_field "log_ratelimit" None (de_as_opt de_as_str) m;
    Ok {| fwo_enable := enable; fwo_policy_in := policy_in; fwo_policy_out := policy_out;
          fwo_policy_forward := policy_forward; fwo_ebtables := ebtables;
          fwo_log_ratelimit := log_ratelimit |}).

Definition FirewallAliasDecl_to_value (d : FirewallAliasDecl) : Value := JObject
  (ser_str "name" (alias_name d) ++ ser_str "cidr" (alias_cidr d)
   ++ ser_str_skip "comment" (alias_comment d)).

Definition FirewallAliasDecl_from_value : Value -> Result string FirewallAliasDecl :=
  de_object ["name"; "cidr"; "comment"] (fun m =>
    name ← de_field "name" "" de_as_str m;
    cidr ← de_field "cidr" "" de_as_str m;
    comment ← de_field "comment" "" de_as_str m;
    Ok {| alias_name := name; alias_cidr := cidr; alias_comment := comment |}).

Definition MappingPciDecl_to_value (d : MappingPciDecl) : Value := JObject
  (ser_str "id" (pci_id d) ++ ser_str_skip "description" (pci_description d)
   ++ ser_false_skip "mdev" (pci_mdev d) ++ ser_list_skip "map" JString (pci_map d)).

Definition MappingPciDecl_from_value : Value -> Result string MappingPciDecl :=
  de_object ["id"; "description"; "mdev"; "map"] (fun m =>
    id ← de_field "id" "" de_as_str m;
    description ← de_field "description" "" de_as_str m;
    mdev ← de_field "mdev" false de_as_bool m;
    map ← de_field "map" [] (de_as_list de_as_str) m;
    Ok {| pci_id := id; pci_description := description; pci_mdev := mdev; pci_map := map |}).

Definition MappingUsbDecl_to_value (d : MappingUsbDecl) : Value := JObject
  (ser_str "id" (usb_id d) ++ ser_str_skip "description" (usb_description d)
   ++ ser_list_skip "map" JString (usb_map d)).

Definition MappingUsbDecl_from_value : Value -> Result string MappingUsbDecl :=
  de_object ["id"; "description"; "map"] (fun m =>
    id ← de_field "id" "" de_as_str m;
    description ← de_field "description" "" de_as_str m;
    map ← de_field "map" [] (de_as_list de_as_str) m;
    Ok {| usb_id := id; usb_description := description; usb_map := map |}).

Definition FirewallIpsetCidrDecl_to_value (d : FirewallIpsetCidrDecl) : Value := JObject
  (ser_str "cidr" (cidr_cidr d) ++ ser_str_skip "comment" (cidr_comment d)
   ++ ser_false_skip "nomatch" (cidr_nomatch d)).

Definition FirewallIpsetCidrDecl_from_value : Value -> Result string FirewallIpsetCidrDecl :=
  de_object ["cidr"; "comment"; "nomatch"] (fun m =>
    cidr ← de_field "cidr" "" de_as_str m;
    comment ← de_field "comment" "" de_as_str m;
    nomatch ← de_field "nomatch" false de_as_bool m;
    Ok {| cidr_cidr := cidr; cidr_comment := comment; cidr_nomatch := nomatch |}).

Definition FirewallIpsetDecl_to_value (d : FirewallIpsetDecl) : Value := JObject
  (ser_str "name" (ipset_name d) ++ ser_str_skip "comment" (ipset_comment d)
   ++ ser_list_skip "cidrs" FirewallIpsetCidrDecl_to_value (ipset_cidrs d)).

Definition FirewallIpsetDecl_from_value : Value -> Result string FirewallIpsetDecl :=
  de_object ["name"; "comment"; "cidrs"] (fun m =>
    name ← de_field "name" "" de_as_str m;
    comment ← de_field "comment" "" de_as_str m;
    cidrs ← de_field "cidrs" [] (de_as_list FirewallIpsetCidrDecl_from_value) m;
    Ok {| ipset_name := name; ipset_comment := comment; ipset_cidrs := cidrs |}).

Definition FirewallGroupDecl_to_value (d : FirewallGroupDecl) : Value := JObject
  (ser_str "group" (group_group d) ++ ser_str_skip "comment" (group_comment d)).

Definition FirewallGroupDecl_from_value : Value -> Result string FirewallGroupDecl :=
  de_object ["group"; "comment"] (fun m =>
    group ← de_field "group" "" de_as_str m;
    comment ← de_field "comment" "" de_as_str m;
    Ok {| group_group := group; group_comment := comment |}).

Definition NotificationMatcherDecl_to_value (d : NotificationMatcherDecl) : Value := JObject
  (ser_str "name" (nm_name d) ++ ser_str_skip "comment" (nm_comment d)
   ++ ser_list_skip "target" JString (nm_target d)
   ++ ser_list_skip "match_field" JString (nm_match_field d)
   ++ ser_list_skip "match_severity" JString (nm_match_severity d)
   ++ ser_str_skip "mode" (nm_mode d) ++ ser_false_skip "invert_match" (nm_invert_match d)
   ++ ser_false_skip "disable" (nm_disable d)).

Definition NotificationMatcherDecl_from_value : Value -> Result string NotificationMatcherDecl :=
  de_object ["name"; "comment"; "target"; "match_field"; "match_severity"; "mode";
             "invert_match"; "disable"] (fun m =>
    name ← de_field "name" "" de_as_str m;
    comment ← de_field "comment" "" de_as_str m;
    target ← de_field "target" [] (de_as_list de_as_str) m;
    match_field ← de_field "match_field" [] (de_as_list de_as_str) m;
    match_severity ← de_field "match_severity" [] (de_as_list de_as_str) m;
    mode ← de_field "mode" "" de_as_str m;
    invert_match ← de_field "invert_match" false de_as_bool m;
    disable ← de_field "disable" false de_as_bool m;
    Ok {| nm_name := name; nm_comment := comment; nm_target := target;
          nm_match_field := match_field; nm_match_severity := match_severity;
          nm_mode := mode; nm_invert_match := invert_match; nm_disable := disable |}).

Definition HaRuleDecl_to_value (d : HaRuleDecl) : Value := JObject
  (ser_str "rule" (hr_rule d) ++ ser_str "type" (hr_rule_type d)
   ++ ser_list_skip "resources" JString (hr_resources d)
   ++ ser_str_skip "comment" (hr_comment d) ++ ser_false_skip "disable" (hr_disable d)
   ++ ser_str_skip "nodes" (hr_nodes d) ++ ser_false_skip "strict" (hr_strict d)
   ++ ser_str_skip "affinity" (hr_affinity d)).

Definition HaRuleDecl_from_value : Value -> Result string HaRuleDecl :=
  de_object ["rule"; "type"; "resources"; "comment"; "disable"; "nodes"; "strict"; "affinity"]
    (fun m =>
    rule ← de_field "rule" "" de_as_str m;
    rule_type ← de_field "type" "" de_as_str m;
    resources ← de_field "resources" [] (de_as_list de_as_str) m;
    comment ← de_field "comment" "" de_as_str m;
    disable ← de_field "disable" false de_as_bool m;
    nodes ← de_field "nodes" "" de_as_str m;
    strict ← de_field "strict" false de_as_bool m;
    affinity ← de_field "affinity" "" de_as_str m;
    Ok {| hr_rule := rule; hr_rule_type := rule_type; hr_resources := resources;
          hr_comment := comment; hr_disable := disable; hr_nodes := nodes;
          hr_strict := strict; hr_affinity := affinity |}).

Definition HaResourceDecl_to_value (d : HaResourceDecl) : Value := JObject
  (ser_str "sid" (ha_sid d) ++ ser_str_skip "state" (ha_state d)
   ++ ser_zero_skip "max_restart" (ha_max_restart d)
   ++ ser_zero_skip "max_relocate" (ha_max_relocate d)
   ++ ser_true_skip "failback" (ha_failback d)
   ++ ser_true_skip "auto-rebalance" (ha_auto_rebalance d)
   ++ ser_str_skip "comment" (ha_comment d)).

Definition HaResourceDecl_from_value : Value -> Result string HaResourceDecl :=
  de_object ["sid"; "state"; "max_restart"; "max_relocate"; "failback"; "auto-rebalance"; "comment"]
    (fun m =>
    sid ← de_field "sid" "" de_as_str m;
    state ← de_field "state" "" de_as_str m;
    max_restart ← de_field "max_restart" 0%N de_as_u32 m;
    max_relocate ← de_field "max_relocate" 0%N de_as_u32 m;
    failback ← de_field "failback" true de_as_bool m;
    auto_rebalance ← de_field "auto-rebalance" true de_as_bool m;
    comment ← de_field "comment" "" de_as_str m;
    Ok {| ha_sid := sid; ha_state := state; ha_max_restart := max_restart;
          ha_max_relocate := max_relocate; ha_failback := failback;
          ha_auto_rebalance := auto_rebalance; ha_comment := comment |}).

Definition StorageDecl_to_value (d : StorageDecl) : Value := JObject
  (ser_str "storage" (st_storage d) ++ ser_str "type" (st_storage_type d)
   ++ ser_str "content" (st_content d) ++ ser_str_skip "nodes" (st_nodes d)
   ++ ser_false_skip "disable" (st_disable d) ++ ser_false_skip "shared" (st_shared d)
   ++ ser_str_skip "path" (st_path d) ++ ser_str_skip "pool" (st_pool d)
   ++ ser_str_skip "server" (st_server d) ++ ser_str_skip "export" (st_export d)
   ++ ser_str_skip "datastore" (st_datastore d) ++ ser_str_skip "fingerprint" (st_fingerprint d)
   ++ ser_str_skip "username" (st_username d) ++ ser_str_skip "vgname" (st_vgname d)
   ++ ser_str_skip "thinpool" (st_thinpool d)).

Definition StorageDecl_from_value : Value -> Result string StorageDecl :=
  de_object ["storage"; "type"; "content"; "nodes"; "disable"; "shared"; "path"; "pool";
             "server"; "export"; "datastore"; "fingerprint"; "username"; "vgname"; "thinpool"]
    (fun m =>
    storage ← de_field "storage" "" de_as_str m;
    storage_type ← de_field "type" "" de_as_str m;
    content ← de_field "content" "" de_as_str m;
    nodes ← de_field "nodes" "" de_as_str m;
    disable ← de_field "disable" false de_as_bool m;
    shared ← de_field "shared" false de_as_bool m;
    path ← de_field "path" "" de_as_str m;
    pool ← de_field "pool" "" de_as_str m;
    server ← de_field "server" "" de_as_str m;
    export ← de_field "export" "" de_as_str m;
    datastore ← de_field "datastore" "" de_as_str m;
    fingerprint ← de_field "fingerprint" "" de_as_str m;
    username ← de_field "username" "" de_as_str m;
    vgname ← de_field "vgname" "" de_as_str m;
    thinpool ← de_field "thinpool" "" de_as_str m;
    Ok {| st_storage := storage; st_storage_type := storage_type; st_content := content;
          st_nodes := nodes; st_disable := disable; st_shared := shared; st_path := path;
          st_pool := pool; st_server := server; st_export := export; st_datastore := datastore;
          st_fingerprint := fingerprint; st_username := username; st_vgname := vgname;
          st_thinpool := thinpool |}).

(** ** Instances of the interface *)
#[export] Instance PoolDecl_serde : Serde PoolDecl :=
  {| to_value := PoolDecl_to_value; from_value := PoolDecl_from_value |}.
#[export] Instance AclDecl_serde : Serde AclDecl :=
  {| to_value := AclDecl_to_value; from_value := AclDecl_from_value |}.
#[export] Instance BackupJobDecl_serde : Serde BackupJobDecl :=
  {| to_value := BackupJobDecl_to_value; from_value := BackupJobDecl_from_value |}.
#[export] Instance FirewallOptionsDecl_serde : Serde FirewallOptionsDecl :=
  {| to_value := FirewallOptionsDecl_to_value; from_value := FirewallOptionsDecl_from_value |}.
#[export] Instance FirewallAliasDecl_serde : Serde FirewallAliasDecl :=
  {| to_value := FirewallAliasDecl_to_value; from_value := FirewallAliasDecl_from_value |}.
#[export] Instance MappingPciDecl_serde : Serde MappingPciDecl :=
  {| to_value := MappingPciDecl_to_value; from_value := MappingPciDecl_from_value |}.
#[export] Instance MappingUsbDecl_serde : Serde MappingUsbDecl :=
  {| to_value := MappingUsbDecl_to_value; from_value := MappingUsbDecl_from_value |}.
#[export] Instance FirewallIpsetDecl_serde : Serde FirewallIpsetDecl :=
  {| to_value := FirewallIpsetDecl_to_value; from_value := FirewallIpsetDecl_from_value |}.
#[export] Instance FirewallGroupDecl_serde : Serde FirewallGroupDecl :=
  {| to_value := FirewallGroupDecl_to_value; from_value := FirewallGroupDecl_from_value |}.
#[export] Instance NotificationMatcherDecl_serde : Serde NotificationMatcherDecl :=
  {| to_value := NotificationMatcherDecl_to_value;
     from_value := NotificationMatcherDecl_from_value |}.
#[export] Instance HaRuleDecl_serde : Serde HaRuleDecl :=
  {| to_value := HaRuleDecl_to_value; from_value := HaRuleDecl_from_value |}.
#[export] Instance HaResourceDecl_serde : Serde HaResourceDecl :=
  {| to_value := HaResourceDecl_to_value; from_value := HaResourceDecl_from_value |}.
#[export] Instance StorageDecl_serde : Serde StorageDecl :=
  {| to_value := StorageDecl_to_value; from_value := StorageDecl_from_value |}.

(** ** Round trips *)

(** Read back the fields one by one: the lemma of the field's shape, then
    [json_get] to find the field among the others. *)
Ltac serde_field :=
  first [ erewrite de_str_skip by json_get
        | erewrite de_str by json_get
        | erewrite de_bool by json_get
        | erewrite de_false_skip by json_get
        | erewrite de_true_skip by json_get
        | erewrite de_zero_skip; cycle 2; [json_get | | eassumption]
        | erewrite (@de_opt_skip _ _ JString); [| by auto | json_get]
        | erewrite (@de_opt_skip _ _ JBool); [| by auto | json_get]
        | erewrite (@de_list_skip _ _ JString); [| by auto | json_get] ];
  cbn [mbind Result_bind].

Ltac serde_roundtrip :=
  unfold de_object;
  match goal with
  | |- (if ?k then _ else _) = _ => assert (k = true) as -> by json_known
  end;
  repeat serde_field.

Lemma PoolDecl_roundtrip d : PoolDecl_from_value (PoolDecl_to_value d) = Ok d.
Proof. unfold PoolDecl_from_value, PoolDecl_to_value. serde_roundtrip. by destruct d. Qed.

Lemma AclDecl_roundtrip d : AclDecl_from_value (AclDecl_to_value d) = Ok d.
Proof. unfold AclDecl_from_value, AclDecl_to_value. serde_roundtrip. by destruct d. Qed.

Lemma BackupJobDecl_roundtrip d : BackupJobDecl_from_value (BackupJobDecl_to_value d) = Ok d.
Proof. unfold BackupJobDecl_from_value, BackupJobDecl_to_value. serde_roundtrip. by destruct d. Qed.

Lemma FirewallOptionsDecl_roundtrip d : FirewallOptionsDecl_from_value (FirewallOptionsDecl_to_value d) = Ok d.
Proof. unfold FirewallOptionsDecl_from_value, FirewallOptionsDecl_to_value. serde_roundtrip. by destruct d. Qed.

Lemma FirewallAliasDecl_roundtrip d : FirewallAliasDecl_from_value (FirewallAliasDecl_to_value d) = Ok d.
Proof. unfold FirewallAliasDecl_from_value, FirewallAliasDecl_to_value. serde_roundtrip. by destruct d. Qed.

Lemma MappingPciDecl_roundtrip d : MappingPciDecl_from_value (MappingPciDecl_to_value d) = Ok d.
Proof. unfold MappingPciDecl_from_value, MappingPciDecl_to_value. serde_roundtrip. by destruct d. Qed.

Lemma MappingUsbDecl_roundtrip d : MappingUsbDecl_from_value (MappingUsbDecl_to_value d) = Ok d.
Proof. unfold MappingUsbDecl_from_value, MappingUsbDecl_to_value. serde_roundtrip. by destruct d. Qed.

Lemma FirewallIpsetCidrDecl_roundtrip d : FirewallIpsetCidrDecl_from_value (FirewallIpsetCidrDecl_to_value d) = Ok d.
Proof. unfold FirewallIpsetCidrDecl_from_value, FirewallIpsetCidrDecl_to_value. serde_roundtrip. by destruct d. Qed.

Lemma FirewallGroupDecl_roundtrip d : FirewallGroupDecl_from_value (FirewallGroupDecl_to_value d) = Ok d.
Proof. unfold FirewallGroupDecl_from_value, FirewallGroupDecl_to_value. serde_roundtrip. by destruct d. Qed.

Lemma NotificationMatcherDecl_roundtrip d : NotificationMatcherDecl_from_value (NotificationMatcherDecl_to_value d) = Ok d.
Proof. unfold NotificationMatcherDecl_from_value, NotificationMatcherDecl_to_value. serde_roundtrip. by destruct d. Qed.

Lemma HaRuleDecl_roundtrip d : HaRuleDecl_from_value (HaRuleDecl_to_value d) = Ok d.
Proof. unfold HaRuleDecl_from_value, HaRuleDecl_to_value. serde_roundtrip. by destruct d. Qed.

Lemma StorageDecl_roundtrip d : StorageDecl_from_value (StorageDecl_to_value d) = Ok d.
Proof. unfold StorageDecl_from_value, StorageDecl_to_value. serde_roundtrip. by destruct d. Qed.

Lemma FirewallIpsetDecl_roundtrip d :
  FirewallIpsetDecl_from_value (FirewallIpsetDecl_to_value d) = Ok d.
Proof.
  unfold FirewallIpsetDecl_from_value, FirewallIpsetDecl_to_value. serde_roundtrip.
  erewrite (@de_list_skip _ _ FirewallIpsetCidrDecl_to_value);
    [| by intros; apply FirewallIpsetCidrDecl_roundtrip | json_get].
  by destruct d.
Qed.

(** [max_restart] and [max_relocate] are [u32]. *)
Definition HaResourceDecl_wf (d : HaResourceDecl) : Prop :=
  (ha_max_restart d <= u32_max)%N /\ (ha_max_relocate d <= u32_max)%N.

Lemma HaResourceDecl_roundtrip d :
  HaResourceDecl_wf d -> HaResourceDecl_from_value (HaResourceDecl_to_value d) = Ok d.
Proof.
  intros [H1 H2]. unfold HaResourceDecl_from_value, HaResourceDecl_to_value.
  serde_roundtrip. by destruct d.
Qed.

(** The promise the diff, pre-flight and apply layers use. *)
Definition any {A} (_ : A) : Prop := True.

#[export] Instance PoolDecl_serde_ok : SerdeOk PoolDecl any.
Proof. intros d _. apply PoolDecl_roundtrip. Qed.
#[export] Instance AclDecl_serde_ok : SerdeOk AclDecl any.
Proof. intros d _. apply AclDecl_roundtrip. Qed.
#[export] Instance BackupJobDecl_serde_ok : SerdeOk BackupJobDecl any.
Proof. intros d _. apply BackupJobDecl_roundtrip. Qed.
#[export] Instance FirewallOptionsDecl_serde_ok : SerdeOk FirewallOptionsDecl any.
Proof. intros d _. apply FirewallOptionsDecl_roundtrip. Qed.
#[export] Instance FirewallAliasDecl_serde_ok : SerdeOk FirewallAliasDecl any.
Proof. intros d _. apply FirewallAliasDecl_roundtrip. Qed.
#[export] Instance MappingPciDecl_serde_ok : SerdeOk MappingPciDecl any.
Proof. intros d _. apply MappingPciDecl_roundtrip. Qed.
#[export] Instance MappingUsbDecl_serde_ok : SerdeOk MappingUsbDecl any.
Proof. intros d _. apply MappingUsbDecl_roundtrip. Qed.
#[export] Instance FirewallGroupDecl_serde_ok : SerdeOk FirewallGroupDecl any.
Proof. intros d _. apply FirewallGroupDecl_roundtrip. Qed.
#[export] Instance NotificationMatcherDecl_serde_ok : SerdeOk NotificationMatcherDecl any.
Proof. intros d _. apply NotificationMatcherDecl_roundtrip. Qed.
#[export] Instance HaRuleDecl_serde_ok : SerdeOk HaRuleDecl any.
Proof. intros d _. apply HaRuleDecl_roundtrip. Qed.
#[export] Instance StorageDecl_serde_ok : SerdeOk StorageDecl any.
Proof. intros d _. apply StorageDecl_roundtrip. Qed.
#[export] Instance FirewallIpsetDecl_serde_ok : SerdeOk FirewallIpsetDecl any.
Proof. intros d _. apply FirewallIpsetDecl_roundtrip. Qed.
#[export] Instance HaResourceDecl_serde_ok : SerdeOk HaResourceDecl HaResourceDecl_wf.
Proof. intros d H. by apply HaResourceDecl_roundtrip. Qed.
