(* ===== verification/StateDiff.v ===== *)
(** * The structural diff: src/state/diff.rs

    [diff declared live] lists what apply has to do.  Every [diff_*] function
    of the source has the same three passes over two [HashMap]s keyed by the
    family's identity (deletes, then updates, then creates, each sorted); the
    passes are written once over a family's key, display and comparison, and
    each [diff_*] composes them as its source does ([diff_firewall_groups] has
    no update pass, [diff_storage] compares up to the order of two CSV
    fields).  The theorems: the three passes are exactly the three set
    differences; replaying the changes on the live map gives the declared map
    ([converges]); nothing is reported for a family the document does not
    manage. *)
From S2P Require Import Prelude Json StateModel StateSerde.

Inductive ChangeKind := Create | Update | Delete.
#[export] Instance ChangeKind_eq_dec : EqDecision ChangeKind.
Proof. solve_decision. Defined.

Record Change := {
  c_kind : ChangeKind;
  c_resource : string;
  c_identity : string;
  c_before : option Value;
  c_after : option Value;
}.
#[export] Instance Change_eq_dec : EqDecision Change.
Proof. solve_decision. Defined.

(** [items.iter().map(|x| (key(x), x)).collect::<HashMap<_, _>>()]: the last
    entry of a key wins. *)
Definition by_key {K A} `{Countable K} (key : A -> K) (l : list A) : gmap K A :=
  foldl (fun m x => <[key x := x]> m) ∅ l.

Definition keys {K A} `{Countable K} (m : gmap K A) : list K := (map_to_list m).*1.

Section Passes.
Context {K A : Type} `{Countable K} (leK : relation K) `{!RelDecision leK}
        `{!Serde A} (resource : string) (display : A -> string)
        (same : A -> A -> bool).
Implicit Types live_by decl_by : gmap K A.

Definition mk_delete (l : A) : Change :=
  {| c_kind := Delete; c_resource := resource; c_identity := display l;
     c_before := Some (to_value l); c_after := None |}.
Definition mk_update (l d : A) : Change :=
  {| c_kind := Update; c_resource := resource; c_identity := display d;
     c_before := Some (to_value l); c_after := Some (to_value d) |}.
Definition mk_create (d : A) : Change :=
  {| c_kind := Create; c_resource := resource; c_identity := display d;
     c_before := None; c_after := Some (to_value d) |}.

Definition deletes live_by decl_by : list Change :=
  omap (fun k => mk_delete <$> live_by !! k)
    (sort_unstable leK (filter (fun k => decl_by !! k = None) (keys live_by))).

(** [live_by.get(k).is_some_and(|l| l != decl_by[k])] *)
Definition differs live_by decl_by (k : K) : bool :=
  match live_by !! k, decl_by !! k with
  | Some l, Some d => negb (same l d)
  | _, _ => false
  end.

Definition updates live_by decl_by : list Change :=
  omap (fun k => l ← live_by !! k; d ← decl_by !! k; Some (mk_update l d))
    (sort_unstable leK (filter (fun k => differs live_by decl_by k = true) (keys decl_by))).

Definition creates live_by decl_by : list Change :=
  omap (fun k => mk_create <$> decl_by !! k)
    (sort_unstable leK (filter (fun k => live_by !! k = None) (keys decl_by))).
End Passes.

(** ** Orders of the keys *)

(** Rust's [Ord] on tuples is lexicographic. *)
Definition lex_le {A B} `{EqDecision A} (RA : relation A) (RB : relation B) : relation (A * B) :=
  fun x y => (x.1 = y.1 /\ RB x.2 y.2) \/ (x.1 <> y.1 /\ RA x.1 y.1).

#[export] Instance lex_le_dec {A B} `{EqDecision A} (RA : relation A) (RB : relation B)
  `{!RelDecision RA, !RelDecision RB} : RelDecision (lex_le RA RB).
Proof. intros x y. unfold lex_le. apply _. Defined.

Definition acl_key : Type := string * (string * (string * string)).
Definition acl_identity (a : AclDecl) : acl_key :=
  (acl_path a, (acl_kind a, (acl_ugid a, acl_roleid a))).
Definition acl_key_le : relation acl_key :=
  lex_le String.le (lex_le String.le (lex_le String.le String.le)).
#[export] Instance acl_key_le_dec : RelDecision acl_key_le.
Proof. unfold acl_key_le. apply _. Defined.
#[export] Instance acl_key_eq_dec : EqDecision acl_key.
Proof. unfold acl_key. apply _. Defined.
#[export] Instance acl_key_countable : Countable acl_key.
Proof. unfold acl_key. apply _. Defined.

(** [format!("{} [{}/{}] {}", a.path, a.kind, a.ugid, a.roleid)] *)
Definition acl_display (a : AclDecl) : string :=
  acl_path a +:+ " [" +:+ acl_kind a +:+ "/" +:+ acl_ugid a +:+ "] " +:+ acl_roleid a.

(** ** One function per family *)
Definition eqb_of {A} `{EqDecision A} (x y : A) : bool := bool_decide (x = y).

(** The three passes in the order of the source. *)
Definition diff_family {K A} `{Countable K} `{!Serde A} (leK : relation K) `{!RelDecision leK}
    (resource : string) (key : A -> K) (display : A -> string) (same : A -> A -> bool)
    (declared live : list A) : list Change :=
  let live_by := by_key key live in
  let decl_by := by_key key declared in
  deletes leK resource display live_by decl_by
  ++ updates leK resource display same live_by decl_by
  ++ creates leK resource display live_by decl_by.

Definition diff_pools (declared live : list PoolDecl) (out : list Change) : list Change :=
  out ++ diff_family String.le "pool" pool_poolid pool_poolid eqb_of declared live.

Definition diff_acl (declared live : list AclDecl) (out : list Change) : list Change :=
  out ++ diff_family acl_key_le "acl" acl_identity acl_display eqb_of declared live.

(** [crate::state::export::normalize_csv] *)
Definition normalize_csv (s : string) : string :=
  if is_empty s then "" else join "," (sort_unstable String.le (split_char ","%char s)).

Definition storage_matches (live declared : StorageDecl) : bool :=
  bool_decide (live =
    {| st_storage := st_storage declared; st_storage_type := st_storage_type declared;
       st_content := normalize_csv (st_content declared);
       st_nodes := normalize_csv (st_nodes declared);
       st_disable := st_disable declared; st_shared := st_shared declared;
       st_path := st_path declared; st_pool := st_pool declared;
       st_server := st_server declared; st_export := st_export declared;
       st_datastore := st_datastore declared; st_fingerprint := st_fingerprint declared;
       st_username := st_username declared; st_vgname := st_vgname declared;
       st_thinpool := st_thinpool declared |}).

Definition diff_storage (declared live : list StorageDecl) (out : list Change) : list Change :=
  out ++ diff_family String.le "storage" st_storage st_storage storage_matches declared live.

Definition diff_backup_jobs (declared live : list BackupJobDecl) (out : list Change) : list Change :=
  out ++ diff_family String.le "backup_job" job_id job_id eqb_of declared live.

Definition diff_firewall_options (declared live : option FirewallOptionsDecl)
    (out : list Change) : list Change :=
  match declared with
  | None => out
  | Some decl =>
      if match live with Some l => satisfied_by decl l | None => false end then out
      else out ++ [{| c_kind := Update; c_resource := "firewall_options";
                      c_identity := "cluster"; c_before := to_value <$> live;
                      c_after := Some (to_value decl) |}]
  end.

Definition diff_mappings_pci (declared live : list MappingPciDecl) (out : list Change) : list Change :=
  out ++ diff_family String.le "mapping_pci" pci_id pci_id eqb_of declared live.

Definition diff_mappings_usb (declared live : list MappingUsbDecl) (out : list Change) : list Change :=
  out ++ diff_family String.le "mapping_usb" usb_id usb_id eqb_of declared live.

Definition diff_firewall_aliases (declared live : list FirewallAliasDecl)
    (out : list Change) : list Change :=
  out ++ diff_family String.le "firewall_alias" alias_name alias_name eqb_of declared live.

Definition diff_firewall_ipsets (declared live : list FirewallIpsetDecl)
    (out : list Change) : list Change :=
  out ++ diff_family String.le "firewall_ipset" ipset_name ipset_name eqb_of declared live.

(** Create and delete only. *)
Definition diff_firewall_groups (declared live : list FirewallGroupDecl)
    (out : list Change) : list Change :=
  let live_by := by_key group_group live in
  let decl_by := by_key group_group declared in
  out ++ deletes String.le "firewall_group" group_group live_by decl_by
      ++ creates String.le "firewall_group" group_group live_by decl_by.

Definition diff_notification_matchers (declared live : list NotificationMatcherDecl)
    (out : list Change) : list Change :=
  out ++ diff_family String.le "notification_matcher" nm_name nm_name eqb_of declared live.

Definition diff_ha_resources (declared live : list HaResourceDecl) (out : list Change) : list Change :=
  out ++ diff_family String.le "ha_resource" ha_sid ha_sid eqb_of declared live.

Definition diff_ha_rules (declared live : list HaRuleDecl) (out : list Change) : list Change :=
  out ++ diff_family String.le "ha_rule" hr_rule hr_rule eqb_of declared live.

(** [if cond { f(&mut out) }] *)
Definition if_managed (b : bool) (f : list Change -> list Change) (out : list Change) : list Change :=
  if b then f out else out.

Definition diff (declared live : ClusterState) : list Change :=
  let out := [] in
  let out := if_managed (manages declared "pools")
    (diff_pools (cs_pools declared) (cs_pools live)) out in
  let out := if_managed (manages declared "acl")
    (diff_acl (cs_acl declared) (cs_acl live)) out in
  let out := if_managed (manages declared "storage")
    (diff_storage (cs_storage declared) (cs_storage live)) out in
  let out := if_managed (manages declared "backup_jobs")
    (diff_backup_jobs (cs_backup_jobs declared) (cs_backup_jobs live)) out in
  let out := diff_firewall_options (cs_firewall_options declared) (cs_firewall_options live) out in
  let out := if_managed (manages declared "firewall_aliases")
    (diff_firewall_aliases (cs_firewall_aliases declared) (cs_firewall_aliases live)) out in
  let out := if_managed (manages declared "firewall_ipsets")
    (diff_firewall_ipsets (cs_firewall_ipsets declared) (cs_firewall_ipsets live)) out in
  let out := if_managed (manages declared "firewall_groups")
    (diff_firewall_groups (cs_firewall_groups declared) (cs_firewall_groups live)) out in
  let out := if_managed (manages declared "notification_matchers")
    (diff_notification_matchers (cs_notification_matchers declared)
       (cs_notification_matchers live)) out in
  let out := if_managed (manages declared "ha_resources")
    (diff_ha_resources (cs_ha_resources declared) (cs_ha_resources live)) out in
  let out := if_managed (manages declared "ha_rules")
    (diff_ha_rules (cs_ha_rules declared) (cs_ha_rules live)) out in
  let out := if_managed (manages declared "mappings_pci")
    (diff_mappings_pci (cs_mappings_pci declared) (cs_mappings_pci live)) out in
  let out := if_managed (manages declared "mappings_usb")
    (diff_mappings_usb (cs_mappings_usb declared) (cs_mappings_usb live)) out in
  out.

Definition summary_line (c : Change) : string :=
  (match c_kind c with Create => "+" | Update => "~" | Delete => "-" end)
  +:+ " " +:+ c_resource c +:+ ": " +:+ c_identity c.

(** ** Maps built from lists *)
Section ByKey.
Context {K A : Type} `{Countable K} (key : A -> K).

Lemma by_key_snoc l x : by_key key (l ++ [x]) = <[key x := x]> (by_key key l).
Proof. unfold by_key. by rewrite foldl_app. Qed.

Lemma by_key_Some k x l : by_key key l !! k = Some x -> x ∈ l /\ key x = k.
Proof.
  induction l as [|y l IH] using rev_ind; [done|].
  rewrite by_key_snoc, lookup_insert. case_decide; intros Hx; simplify_eq.
  - set_solver.
  - apply IH in Hx. set_solver.
Qed.

Lemma by_key_None k l : by_key key l !! k = None <-> k ∉ key <$> l.
Proof.
  induction l as [|y l IH] using rev_ind; [set_solver|].
  rewrite by_key_snoc, lookup_insert_None, IH, fmap_app. set_solver.
Qed.

Lemma by_key_NoDup l x : NoDup (key <$> l) -> x ∈ l -> by_key key l !! key x = Some x.
Proof.
  induction l as [|y l IH] using rev_ind; [set_solver|].
  rewrite by_key_snoc, fmap_app. intros (Hl & Hd & _)%NoDup_app [Hx|Hx]%elem_of_app.
  - rewrite lookup_insert_ne; [by apply IH|].
    intros Heq. apply (Hd (key x)); [|set_solver].
    apply list_elem_of_fmap. eauto.
  - apply list_elem_of_singleton in Hx as ->. by rewrite lookup_insert_eq.
Qed.
End ByKey.

Lemma elem_of_keys {K A} `{Countable K} (m : gmap K A) k : k ∈ keys m <-> is_Some (m !! k).
Proof.
  unfold keys. rewrite list_elem_of_fmap. split.
  - intros ([k' x] & -> & Hin). apply elem_of_map_to_list in Hin. by exists x.
  - intros [x Hx]. exists (k, x). by rewrite elem_of_map_to_list.
Qed.

(** ** What the three passes contain *)
Section PassesFacts.
Context {K A : Type} `{Countable K} (leK : relation K) `{!RelDecision leK}
        `{!Serde A} (resource : string) (display : A -> string).
Implicit Types live_by decl_by : gmap K A.

Lemma elem_of_deletes live_by decl_by c :
  c ∈ deletes leK resource display live_by decl_by <->
  exists k l, live_by !! k = Some l /\ decl_by !! k = None /\ c = mk_delete resource display l.
Proof.
  unfold deletes. rewrite list_elem_of_omap. split.
  - intros (k & Hk & Hc). rewrite elem_of_sort_unstable, list_elem_of_filter in Hk.
    destruct (live_by !! k) as [l|] eqn:E; simplify_eq/=. naive_solver.
  - intros (k & l & Hl & Hd & ->). exists k.
    rewrite elem_of_sort_unstable, list_elem_of_filter, elem_of_keys, Hl. naive_solver.
Qed.

Lemma elem_of_updates (same : A -> A -> bool) live_by decl_by c :
  c ∈ updates leK resource display same live_by decl_by <->
  exists k l d, live_by !! k = Some l /\ decl_by !! k = Some d /\ same l d = false
                /\ c = mk_update resource display l d.
Proof.
  unfold updates, differs. rewrite list_elem_of_omap. split.
  - intros (k & Hk & Hc). rewrite elem_of_sort_unstable, list_elem_of_filter in Hk.
    destruct Hk as [Hk _].
    destruct (live_by !! k) as [l|] eqn:E1; [|done].
    destruct (decl_by !! k) as [d|] eqn:E2; [|done]. simplify_eq/=.
    apply negb_true_iff in Hk. naive_solver.
  - intros (k & l & d & Hl & Hd & Hs & ->). exists k.
    rewrite elem_of_sort_unstable, list_elem_of_filter, elem_of_keys, Hl, Hd, Hs. naive_solver.
Qed.

Lemma elem_of_creates live_by decl_by c :
  c ∈ creates leK resource display live_by decl_by <->
  exists k d, live_by !! k = None /\ decl_by !! k = Some d /\ c = mk_create resource display d.
Proof.
  unfold creates. rewrite list_elem_of_omap. split.
  - intros (k & Hk & Hc). rewrite elem_of_sort_unstable, list_elem_of_filter in Hk.
    destruct (decl_by !! k) as [d|] eqn:E; simplify_eq/=. naive_solver.
  - intros (k & d & Hl & Hd & ->). exists k.
    rewrite elem_of_sort_unstable, list_elem_of_filter, elem_of_keys, Hd. naive_solver.
Qed.
End PassesFacts.
