(* ===== verification/StateDiffTheory.v ===== *)
(** * Correctness of the structural diff

    The abstract specification of a change list is [replay]: what a family,
    seen as a finite map from display identity to value, looks like after the
    changes have been carried out.  The diff refines it: replaying the changes
    of a managed family on the live map gives the declared map. *)
From S2P Require Import Prelude Json StateModel StateSerde StateDiff.

(** ** The abstract effect of a change *)
Definition outcome (c : Change) : option (option Value) :=
  match c_kind c, c_after c with
  | Delete, _ => Some None
  | _, Some v => Some (Some v)
  | _, None => None
  end.

Definition replay (m : gmap string Value) (c : Change) : gmap string Value :=
  match outcome c with
  | Some (Some v) => <[c_identity c := v]> m
  | Some None => delete (c_identity c) m
  | None => m
  end.

(** A family as a map from display identity to serialised value. *)
Definition view {A} `{!Serde A} (display : A -> string) (l : list A) : gmap string Value :=
  to_value <$> by_key display l.

Lemma replay_lookup m c i :
  replay m c !! i = if decide (c_identity c = i)
                    then default (m !! i) (outcome c) else m !! i.
Proof.
  unfold replay. destruct (outcome c) as [[v|]|].
  - rewrite lookup_insert. by case_decide.
  - rewrite lookup_delete. by case_decide.
  - by case_decide.
Qed.

Lemma foldl_replay_other cs m i :
  (forall c, c ∈ cs -> c_identity c <> i) -> foldl replay m cs !! i = m !! i.
Proof.
  induction cs as [|c cs IH] using rev_ind; intros Hi; [done|].
  rewrite foldl_app. simpl. rewrite replay_lookup, decide_False by set_solver.
  apply IH. set_solver.
Qed.

Lemma foldl_replay_set cs m i e :
  (forall c, c ∈ cs -> c_identity c = i -> outcome c = Some e) ->
  (exists c, c ∈ cs /\ c_identity c = i) -> foldl replay m cs !! i = e.
Proof.
  induction cs as [|c cs IH] using rev_ind; intros Hi [c' [Hin Hid]]; [set_solver|].
  rewrite foldl_app. simpl. rewrite replay_lookup. case_decide as Hc.
  - rewrite (Hi c); [done|set_solver|done].
  - apply elem_of_app in Hin as [Hin|Hin]; [|set_solver].
    apply IH; [set_solver|eauto].
Qed.

(** ** One family *)
Section Family.
Context {K A : Type} `{Countable K} (leK : relation K) `{!RelDecision leK}
        `{!Serde A} (resource : string) (key : A -> K) (display : A -> string)
        (same : A -> A -> bool).
(** Every change of the family is determined by its key. *)
Lemma family_change declared live c :
  c ∈ diff_family leK resource key display same declared live <->
  exists k,
    let L := by_key key live !! k in let D := by_key key declared !! k in
    (exists l, L = Some l /\ D = None /\ c = mk_delete resource display l)
    \/ (exists l d, L = Some l /\ D = Some d /\ same l d = false
                    /\ c = mk_update resource display l d)
    \/ (exists d, L = None /\ D = Some d /\ c = mk_create resource display d).
Proof.
  unfold diff_family. rewrite !elem_of_app.
  rewrite elem_of_deletes, elem_of_updates, elem_of_creates.
  naive_solver.
Qed.

(** The display is a function of the key, injective on the keys in use. *)
Context (dk : K -> string) (Hdk : forall x, display x = dk (key x))
        (P : K -> Prop) (Hinj : forall k1 k2, P k1 -> P k2 -> dk k1 = dk k2 -> k1 = k2).

Definition keys_ok (l : list A) : Prop := Forall (fun x => P (key x)) l.

Lemma by_display_lookup l k :
  keys_ok l -> P k -> by_key display l !! dk k = by_key key l !! k.
Proof.
  induction l as [|x l IH] using rev_ind; intros Hl Hk; [done|].
  apply Forall_app in Hl as [Hl [Hx _]%Forall_cons].
  rewrite !by_key_snoc, !lookup_insert, Hdk, IH by done.
  destruct (decide (key x = k)) as [->|Hne].
  - by rewrite decide_True.
  - rewrite decide_False; [done|]. intros ?. apply Hne. by apply Hinj.
Qed.

Lemma by_display_Some l i x :
  keys_ok l -> by_key display l !! i = Some x ->
  i = dk (key x) /\ P (key x) /\ by_key key l !! key x = Some x.
Proof.
  intros Hl Hx. destruct (by_key_Some _ _ _ _ Hx) as [Hin Hi].
  assert (P (key x)) as HP by (by apply (proj1 (Forall_forall _ _) Hl)).
  rewrite Hdk in Hi. subst i. by rewrite by_display_lookup in Hx.
Qed.

(** The change of key [k], when there is one, has the effect the two maps
    call for at [k]. *)
Lemma family_change_at declared live c k :
  keys_ok declared -> keys_ok live -> P k ->
  c ∈ diff_family leK resource key display same declared live -> c_identity c = dk k ->
  match by_key key live !! k, by_key key declared !! k with
  | Some l, Some d => same l d = false /\ outcome c = Some (Some (to_value d))
  | None, Some d => outcome c = Some (Some (to_value d))
  | Some _, None => outcome c = Some None
  | None, None => False
  end.
Proof.
  unfold keys_ok. rewrite !Forall_forall, family_change. intros HD HL HP (k' & Hc) Hid.
  destruct Hc as [(l & Hl & Hd & ->)|[(l & d & Hl & Hd & Hs & ->)|(d & Hl & Hd & ->)]];
    simpl in Hid; rewrite Hdk in Hid.
  - destruct (by_key_Some _ _ _ _ Hl) as [Hin <-]. apply Hinj in Hid; auto.
    rewrite <-Hid, Hl, Hd. done.
  - destruct (by_key_Some _ _ _ _ Hd) as [Hin <-]. apply Hinj in Hid; auto.
    rewrite <-Hid, Hl, Hd. done.
  - destruct (by_key_Some _ _ _ _ Hd) as [Hin <-]. apply Hinj in Hid; auto.
    rewrite <-Hid, Hl, Hd. done.
Qed.

Lemma family_has_change declared live k :
  match by_key key live !! k, by_key key declared !! k with
  | Some l, Some d => same l d = false
  | None, None => False
  | _, _ => True
  end ->
  exists c, c ∈ diff_family leK resource key display same declared live /\ c_identity c = dk k.
Proof.
  intros Hk.
  destruct (by_key key live !! k) as [l|] eqn:Hl, (by_key key declared !! k) as [d|] eqn:Hd;
    [| | |done].
  - exists (mk_update resource display l d). rewrite family_change. simpl. rewrite Hdk.
    destruct (by_key_Some _ _ _ _ Hd) as [_ <-]. naive_solver.
  - exists (mk_delete resource display l). rewrite family_change. simpl. rewrite Hdk.
    destruct (by_key_Some _ _ _ _ Hl) as [_ <-]. naive_solver.
  - exists (mk_create resource display d). rewrite family_change. simpl. rewrite Hdk.
    destruct (by_key_Some _ _ _ _ Hd) as [_ <-]. naive_solver.
Qed.

(** Where every change of the family is about one of its keys. *)
Lemma family_change_key declared live c :
  keys_ok declared -> keys_ok live ->
  c ∈ diff_family leK resource key display same declared live ->
  exists k, P k /\ c_identity c = dk k.
Proof.
  unfold keys_ok. rewrite !Forall_forall, family_change. intros HD HL (k & Hc).
  destruct Hc as [(l & Hl & Hd & ->)|[(l & d & Hl & Hd & Hs & ->)|(d & Hl & Hd & ->)]].
  - destruct (by_key_Some _ _ _ _ Hl) as [Hin _]. exists (key l). simpl. auto.
  - destruct (by_key_Some _ _ _ _ Hd) as [Hin _]. exists (key d). simpl. auto.
  - destruct (by_key_Some _ _ _ _ Hd) as [Hin _]. exists (key d). simpl. auto.
Qed.

(** Replaying the changes of a family on the live map, key by key. *)
Lemma family_replay_key declared live k :
  keys_ok declared -> keys_ok live -> P k ->
  foldl replay (view display live)
    (diff_family leK resource key display same declared live) !! dk k =
  match by_key key live !! k, by_key key declared !! k with
  | Some l, Some d => Some (if same l d then to_value l else to_value d)
  | None, Some d => Some (to_value d)
  | _, None => None
  end.
Proof.
  intros HD HL HP. pose proof (fun c => family_change_at declared live c k HD HL HP) as Hat.
  pose proof (family_has_change declared live k) as Hhas.
  assert (view display live !! dk k = to_value <$> by_key key live !! k) as Hv.
  { unfold view. by rewrite lookup_fmap, by_display_lookup. }
  destruct (by_key key live !! k) as [l|], (by_key key declared !! k) as [d|].
  - destruct (same l d) eqn:Es.
    + rewrite foldl_replay_other; [done|]. intros c Hc Hid. by destruct (Hat c Hc Hid).
    + apply foldl_replay_set; [|by auto]. intros c Hc Hid. by apply Hat.
  - apply foldl_replay_set; [|by auto]. intros c Hc Hid. by apply Hat.
  - apply foldl_replay_set; [|by auto]. intros c Hc Hid. by apply Hat.
  - rewrite foldl_replay_other; [done|]. intros c Hc Hid. by apply (Hat c).
Qed.

(** An identity that is no key of either side is untouched. *)
Lemma family_replay_other declared live i :
  keys_ok declared -> keys_ok live -> (forall k, P k -> dk k <> i) ->
  foldl replay (view display live)
    (diff_family leK resource key display same declared live) !! i = None.
Proof.
  intros HD HL Hi. rewrite foldl_replay_other.
  - unfold view. rewrite lookup_fmap.
    destruct (by_key display live !! i) eqn:E; [|done].
    apply by_display_Some in E as (-> & HP & _); [|done]. naive_solver.
  - intros c Hc <-. destruct (family_change_key _ _ _ HD HL Hc) as (k & HP & Hk).
    by apply (Hi k HP).
Qed.
End Family.

(** ** Families compared by equality: the replay is the declared map *)
Section EqFamily.
Context {K A : Type} `{Countable K} (leK : relation K) `{!RelDecision leK}
        `{!Serde A, !EqDecision A} (resource : string) (key : A -> K) (display : A -> string).
Context (dk : K -> string) (Hdk : forall x, display x = dk (key x))
        (P : K -> Prop) (Hinj : forall k1 k2, P k1 -> P k2 -> dk k1 = dk k2 -> k1 = k2).

Lemma eq_family_converges declared live :
  keys_ok key P declared -> keys_ok key P live ->
  foldl replay (view display live)
    (diff_family leK resource key display eqb_of declared live) = view display declared.
Proof.
  intros HD HL. apply map_eq. intros i.
  destruct (by_key display declared !! i) as [d|] eqn:Ed.
  - destruct (by_display_Some key display dk Hdk P Hinj _ _ _ HD Ed) as (-> & HP & Hd).
    rewrite (family_replay_key leK resource key display eqb_of dk Hdk P Hinj) by done.
    unfold view. rewrite lookup_fmap, Ed, Hd.
    destruct (by_key key live !! key d) as [l|]; [|done].
    unfold eqb_of. case_bool_decide; by subst.
  - assert (view display declared !! i = None) as -> by (unfold view; by rewrite lookup_fmap, Ed).
    destruct (by_key display live !! i) as [l|] eqn:El.
    + destruct (by_display_Some key display dk Hdk P Hinj _ _ _ HL El) as (-> & HP & Hl).
      rewrite (family_replay_key leK resource key display eqb_of dk Hdk P Hinj) by done.
      rewrite (by_display_lookup key display dk Hdk P Hinj) in Ed by done.
      by rewrite Hl, Ed.
    + rewrite foldl_replay_other; [unfold view; by rewrite lookup_fmap, El|].
      intros c Hc <-.
      destruct (family_change_key leK resource key display eqb_of dk Hdk P _ _ _ HD HL Hc)
        as (k & HP & Hk).
      pose proof (family_change_at leK resource key display eqb_of dk Hdk P Hinj
        _ _ _ k HD HL HP Hc Hk) as Hat.
      rewrite Hk, (by_display_lookup key display dk Hdk P Hinj) in Ed, El by done.
      by rewrite Ed, El in Hat.
Qed.
End EqFamily.
