(* ===== verification/StateDiffSpec.v ===== *)
(** * The diff of a whole document

    The families of a [ClusterState] as one enumeration, each with the name
    of its changes, the document key that manages it and its view as a finite
    map; the list [diff] returns, cut family by family; and the theorems about
    [diff declared live] that follow from the ones about a single family. *)
From S2P Require Import Prelude Json StateModel StateSerde StateDiff StateDiffTheory.

(** The families keyed by an identity ([firewall_options] is a singleton). *)
Inductive family :=
  | Pools | Acl | Storage | BackupJobs | FirewallAliases | FirewallIpsets | FirewallGroups
  | NotificationMatchers | HaResources | HaRules | MappingsPci | MappingsUsb.
#[export] Instance family_eq_dec : EqDecision family.
Proof. solve_decision. Defined.

(** The [resource] string of a family's changes. *)
Definition resource_of (f : family) : string :=
  match f with
  | Pools => "pool" | Acl => "acl" | Storage => "storage" | BackupJobs => "backup_job"
  | FirewallAliases => "firewall_alias" | FirewallIpsets => "firewall_ipset"
  | FirewallGroups => "firewall_group" | NotificationMatchers => "notification_matcher"
  | HaResources => "ha_resource" | HaRules => "ha_rule"
  | MappingsPci => "mapping_pci" | MappingsUsb => "mapping_usb"
  end.

(** The key of the document that declares it. *)
Definition section_of (f : family) : string :=
  match f with
  | Pools => "pools" | Acl => "acl" | Storage => "storage" | BackupJobs => "backup_jobs"
  | FirewallAliases => "firewall_aliases" | FirewallIpsets => "firewall_ipsets"
  | FirewallGroups => "firewall_groups" | NotificationMatchers => "notification_matchers"
  | HaResources => "ha_resources" | HaRules => "ha_rules"
  | MappingsPci => "mappings_pci" | MappingsUsb => "mappings_usb"
  end.

(** The entries of a family, by display identity. *)
Definition entries (f : family) (s : ClusterState) : gmap string Value :=
  match f with
  | Pools => view pool_poolid (cs_pools s)
  | Acl => view acl_display (cs_acl s)
  | Storage => view st_storage (cs_storage s)
  | BackupJobs => view job_id (cs_backup_jobs s)
  | FirewallAliases => view alias_name (cs_firewall_aliases s)
  | FirewallIpsets => view ipset_name (cs_firewall_ipsets s)
  | FirewallGroups => view group_group (cs_firewall_groups s)
  | NotificationMatchers => view nm_name (cs_notification_matchers s)
  | HaResources => view ha_sid (cs_ha_resources s)
  | HaRules => view hr_rule (cs_ha_rules s)
  | MappingsPci => view pci_id (cs_mappings_pci s)
  | MappingsUsb => view usb_id (cs_mappings_usb s)
  end.

(** The changes of a family when the document manages it. *)
Definition changes_of (f : family) (d l : ClusterState) : list Change :=
  match f with
  | Pools => diff_pools (cs_pools d) (cs_pools l) []
  | Acl => diff_acl (cs_acl d) (cs_acl l) []
  | Storage => diff_storage (cs_storage d) (cs_storage l) []
  | BackupJobs => diff_backup_jobs (cs_backup_jobs d) (cs_backup_jobs l) []
  | FirewallAliases => diff_firewall_aliases (cs_firewall_aliases d) (cs_firewall_aliases l) []
  | FirewallIpsets => diff_firewall_ipsets (cs_firewall_ipsets d) (cs_firewall_ipsets l) []
  | FirewallGroups => diff_firewall_groups (cs_firewall_groups d) (cs_firewall_groups l) []
  | NotificationMatchers =>
      diff_notification_matchers (cs_notification_matchers d) (cs_notification_matchers l) []
  | HaResources => diff_ha_resources (cs_ha_resources d) (cs_ha_resources l) []
  | HaRules => diff_ha_rules (cs_ha_rules d) (cs_ha_rules l) []
  | MappingsPci => diff_mappings_pci (cs_mappings_pci d) (cs_mappings_pci l) []
  | MappingsUsb => diff_mappings_usb (cs_mappings_usb d) (cs_mappings_usb l) []
  end.

Definition block (f : family) (d l : ClusterState) : list Change :=
  if manages d (section_of f) then changes_of f d l else [].

(** The order of the blocks in [diff]; the singleton comes after the first four. *)
Definition before_options : list family := [Pools; Acl; Storage; BackupJobs].
Definition after_options : list family :=
  [FirewallAliases; FirewallIpsets; FirewallGroups; NotificationMatchers;
   HaResources; HaRules; MappingsPci; MappingsUsb].

Definition of_resource (r : string) (cs : list Change) : list Change :=
  filter (fun c => c_resource c = r) cs.

(** The identities of a document tell its entries apart in their display
    form: an ACL path has no ['['], its kind no ['/'], its subject no [']']
    (the characters [acl_display] puts between them). *)
Definition acl_key_ok (k : acl_key) : Prop :=
  has_char "[" k.1 = false /\ has_char "/" k.2.1 = false /\ has_char "]" k.2.2.1 = false.
#[export] Instance acl_key_ok_dec k : Decision (acl_key_ok k).
Proof. unfold acl_key_ok. apply _. Defined.

Definition acl_ok (s : ClusterState) : Prop :=
  Forall (fun a => acl_key_ok (acl_identity a)) (cs_acl s).

(** ** [diff] is the concatenation of its blocks *)
Lemma if_managed_app b f out :
  (forall o, f o = o ++ f []) -> if_managed b f out = out ++ (if b then f [] else []).
Proof. intros Hf. destruct b; simpl; [apply Hf|by rewrite app_nil_r]. Qed.

Lemma diff_options_app d l out :
  diff_firewall_options d l out = out ++ diff_firewall_options d l [].
Proof.
  unfold diff_firewall_options. destruct d; [|by rewrite app_nil_r].
  by case_match; rewrite ?app_nil_r.
Qed.

Lemma diff_blocks d l :
  diff d l = (before_options ≫= fun f => block f d l)
             ++ diff_firewall_options (cs_firewall_options d) (cs_firewall_options l) []
             ++ (after_options ≫= fun f => block f d l).
Proof.
  unfold diff. cbv zeta.
  repeat (rewrite if_managed_app by done). rewrite diff_options_app.
  unfold block. simpl. rewrite <-!app_assoc, app_nil_r. done.
Qed.

Lemma family_resource {K A} `{Countable K} (leK : relation K) `{!RelDecision leK} `{!Serde A}
    r key (display : A -> string) same declared live :
  Forall (fun c => c_resource c = r) (diff_family leK r key display same declared live).
Proof.
  apply Forall_forall. intros c. rewrite family_change.
  intros (k & [(? & ? & ? & ->)|[(? & ? & ? & ? & ? & ->)|(? & ? & ? & ->)]]); done.
Qed.

Lemma changes_resource f d l : Forall (fun c => c_resource c = resource_of f) (changes_of f d l).
Proof.
  destruct f; try apply family_resource.
  simpl. unfold diff_firewall_groups. rewrite app_nil_l. apply Forall_app.
  split; apply Forall_forall; intros c.
  - rewrite elem_of_deletes. by intros (? & ? & _ & _ & ->).
  - rewrite elem_of_creates. by intros (? & ? & _ & _ & ->).
Qed.

Lemma options_resource d l :
  Forall (fun c => c_resource c = "firewall_options") (diff_firewall_options d l []).
Proof. unfold diff_firewall_options. destruct d; [|done]. case_match; [done|]. by repeat constructor. Qed.

Lemma of_resource_all r cs : Forall (fun c => c_resource c = r) cs -> of_resource r cs = cs.
Proof.
  induction 1 as [|c cs Hc _ IH]; [done|].
  unfold of_resource. rewrite filter_cons_True by done. f_equal. apply IH.
Qed.
Lemma of_resource_none r r' cs :
  r' <> r -> Forall (fun c => c_resource c = r') cs -> of_resource r cs = [].
Proof.
  intros Hr. induction 1 as [|c cs Hc _ IH]; [done|].
  unfold of_resource. by rewrite filter_cons_False by congruence.
Qed.

Lemma block_resource f d l : Forall (fun c => c_resource c = resource_of f) (block f d l).
Proof. unfold block. case_match; [apply changes_resource|done]. Qed.

Lemma resource_of_inj f g : resource_of f = resource_of g -> f = g.
Proof. by destruct f, g. Qed.

Lemma of_resource_app r a b : of_resource r (a ++ b) = of_resource r a ++ of_resource r b.
Proof. apply filter_app. Qed.

Lemma of_resource_block f g d l :
  of_resource (resource_of f) (block g d l) = if bool_decide (f = g) then block g d l else [].
Proof.
  case_bool_decide as Hfg.
  - subst. apply of_resource_all, block_resource.
  - apply (of_resource_none _ (resource_of g)); [|apply block_resource].
    intros ?%resource_of_inj. by subst.
Qed.

Lemma of_resource_options f d l :
  of_resource (resource_of f) (diff_firewall_options d l []) = [].
Proof. apply (of_resource_none _ "firewall_options"); [by destruct f|apply options_resource]. Qed.

(** The changes of a family in the whole diff are its block. *)
Lemma of_resource_diff f d l : of_resource (resource_of f) (diff d l) = block f d l.
Proof.
  rewrite diff_blocks. unfold before_options, after_options. simpl.
  rewrite !of_resource_app, of_resource_options, !of_resource_block.
  by destruct f; simpl; rewrite ?app_nil_r.
Qed.

(** ** The display of an ACL entry *)
Definition acl_key_display (k : acl_key) : string :=
  k.1 +:+ " [" +:+ k.2.1 +:+ "/" +:+ k.2.2.1 +:+ "] " +:+ k.2.2.2.

(** Reading the display back, as far as the separators allow. *)
Definition acl_parse_display (s : string) : option acl_key :=
  '(p, r) ← split_once " [" s; '(kind, r) ← split_once "/" r;
  '(ugid, role) ← split_once "] " r; Some (p, (kind, (ugid, role))).

Lemma split_once_two c1 c2 a b :
  has_char c2 a = false -> c1 <> c2 ->
  split_once (String c1 (String c2 "")) (a +:+ String c1 (String c2 b)) = Some (a, b).
Proof.
  induction a as [|x a IH]; intros H Hne; simpl.
  - by rewrite !Ascii.eqb_refl.
  - simpl in H. apply orb_false_iff in H as [H1 H2]. rewrite IH by done.
    destruct (Ascii.eqb_spec c1 x); [|done]. subst.
    destruct a as [|y a]; simpl.
    + destruct (Ascii.eqb_spec c2 x); [congruence|done].
    + simpl in H2. apply orb_false_iff in H2 as [H2 _].
      by rewrite Ascii.eqb_sym, H2.
Qed.

Lemma acl_parse_display_ok k : acl_key_ok k -> acl_parse_display (acl_key_display k) = Some k.
Proof.
  destruct k as (p & kind & ugid & role). intros (Hp & Hk & Hu). simpl in *.
  unfold acl_parse_display, acl_key_display. simpl.
  rewrite split_once_two by done. simpl.
  rewrite split_once_char by done. simpl.
  by rewrite split_once_sep2 by done.
Qed.

Lemma acl_key_display_inj k1 k2 :
  acl_key_ok k1 -> acl_key_ok k2 -> acl_key_display k1 = acl_key_display k2 -> k1 = k2.
Proof.
  intros H1 H2 Heq. apply (f_equal acl_parse_display) in Heq.
  rewrite !acl_parse_display_ok in Heq by done. by simplify_eq.
Qed.

(** ** CSV fields up to the order of their parts *)
Lemma normalize_csv_idem s : normalize_csv (normalize_csv s) = normalize_csv s.
Proof.
  unfold normalize_csv at 2 3. unfold is_empty at 1 2. case_bool_decide as Hs; [done|].
  set (l := sort_unstable String.le (split_char ","%char s)).
  unfold normalize_csv, is_empty. case_bool_decide as Hj; [by rewrite Hj|].
  assert (l <> []) as Hl.
  { intros Hn. apply (f_equal length) in Hn. unfold l in Hn. rewrite length_sort_unstable in Hn.
    by apply (split_char_nonempty ","%char s), length_zero_iff_nil. }
  rewrite split_char_join; [|done|].
  - f_equal. unfold l. apply (sort_unstable_ext String.le), merge_sort_Permutation.
  - apply Forall_forall. intros x. unfold l. rewrite elem_of_sort_unstable.
    revert x. apply Forall_forall, split_char_parts.
Qed.

(** A storage declaration with its two CSV fields in normal form. *)
Definition storage_normal (d : StorageDecl) : StorageDecl :=
  {| st_storage := st_storage d; st_storage_type := st_storage_type d;
     st_content := normalize_csv (st_content d); st_nodes := normalize_csv (st_nodes d);
     st_disable := st_disable d; st_shared := st_shared d; st_path := st_path d;
     st_pool := st_pool d; st_server := st_server d; st_export := st_export d;
     st_datastore := st_datastore d; st_fingerprint := st_fingerprint d;
     st_username := st_username d; st_vgname := st_vgname d; st_thinpool := st_thinpool d |}.

Lemma storage_matches_spec l d : storage_matches l d = true <-> l = storage_normal d.
Proof. unfold storage_matches. by rewrite bool_decide_eq_true. Qed.

Lemma storage_normal_idem d : storage_normal (storage_normal d) = storage_normal d.
Proof. unfold storage_normal. simpl. by rewrite !normalize_csv_idem. Qed.

(** What a stored storage value says, up to that normal form. *)
Definition storage_meaning (v : Value) : option StorageDecl :=
  storage_normal <$> result_ok (from_value v).

Lemma storage_meaning_to_value d : storage_meaning (to_value d) = Some (storage_normal d).
Proof. unfold storage_meaning. by rewrite from_to_value. Qed.

(** ** Convergence, family by family *)
Lemma id_family_converges {A} `{!Serde A, !EqDecision A} r (key : A -> string) declared live :
  foldl replay (view key live) (diff_family String.le r key key eqb_of declared live)
  = view key declared.
Proof.
  apply (eq_family_converges String.le r key key id (fun _ => eq_refl) (fun _ => True));
    [done| |]; by apply Forall_forall.
Qed.

Lemma acl_family_converges d l :
  acl_ok d -> acl_ok l ->
  foldl replay (view acl_display (cs_acl l)) (diff_acl (cs_acl d) (cs_acl l) [])
  = view acl_display (cs_acl d).
Proof.
  apply (eq_family_converges acl_key_le "acl" acl_identity acl_display acl_key_display
           (fun _ => eq_refl) acl_key_ok).
  apply acl_key_display_inj.
Qed.

(** for storage the entries reached are the declared ones up to the order
    of the parts of the [content] and [nodes] lists, which is what the
    comparison ignores. *)
Lemma diff_storage_converges d l i :
  manages d "storage" = true ->
  foldl replay (entries Storage l) (of_resource "storage" (diff d l)) !! i ≫= storage_meaning
  = storage_normal <$> by_key st_storage (cs_storage d) !! i.
Proof.
  intros Hm. rewrite (of_resource_diff Storage). unfold block. simpl. rewrite Hm.
  unfold diff_storage. rewrite app_nil_l.
  pose proof (family_replay_key String.le "storage" st_storage st_storage storage_matches id
    (fun _ => eq_refl) (fun _ => True) (fun _ _ _ _ Heq => Heq) (cs_storage d) (cs_storage l) i)
    as Hk. unfold id in Hk. rewrite Hk; [|by apply Forall_forall..|done].
  destruct (by_key st_storage (cs_storage l) !! i) as [x|],
    (by_key st_storage (cs_storage d) !! i) as [y|]; simpl; [|done|by rewrite storage_meaning_to_value|done].
  destruct (storage_matches x y) eqn:E; rewrite storage_meaning_to_value; [|done].
  apply storage_matches_spec in E as ->. by rewrite storage_normal_idem.
Qed.

(** Security groups are created and deleted but never updated: the comparison
    takes two declarations of one group as equal. *)
Lemma groups_as_family declared live :
  diff_firewall_groups declared live []
  = diff_family String.le "firewall_group" group_group group_group (fun _ _ => true) declared live.
Proof.
  unfold diff_firewall_groups, diff_family. rewrite app_nil_l. f_equal.
  replace (updates _ _ _ _ _ _) with (@nil Change); [done|].
  symmetry. apply elem_of_nil_inv. intros c (k & l & d & _ & _ & Hs & _)%elem_of_updates. done.
Qed.

Lemma diff_groups_converges d l i :
  manages d "firewall_groups" = true ->
  foldl replay (entries FirewallGroups l) (of_resource "firewall_group" (diff d l)) !! i
  = v ← entries FirewallGroups d !! i; Some (default v (entries FirewallGroups l !! i)).
Proof.
  intros Hm. rewrite (of_resource_diff FirewallGroups). unfold block. simpl. rewrite Hm, groups_as_family.
  pose proof (family_replay_key String.le "firewall_group" group_group group_group (fun _ _ => true) id
    (fun _ => eq_refl) (fun _ => True) (fun _ _ _ _ Heq => Heq) (cs_firewall_groups d) (cs_firewall_groups l) i)
    as Hk. unfold id in Hk. rewrite Hk; [|by apply Forall_forall..|done]. unfold view. rewrite !lookup_fmap.
  by destruct (by_key group_group (cs_firewall_groups l) !! i), (by_key group_group (cs_firewall_groups d) !! i).
Qed.

(** What carrying out the changes of a family has to reach: the declared
    entries, with two exceptions that the comparison makes.  The [content] and
    [nodes] lists of a storage are compared as sets of parts; and a security
    group that exists keeps its live value. *)
Definition converged (f : family) (d l : ClusterState) (m : gmap string Value) : Prop :=
  match f with
  | Storage => forall i, m !! i ≫= storage_meaning = storage_normal <$> by_key st_storage (cs_storage d) !! i
  | FirewallGroups => forall i, m !! i = v ← entries f d !! i; Some (default v (entries f l !! i))
  | _ => m = entries f d
  end.

(** C1: carrying out the changes [diff] reports for a managed family, in
    their order, turns the live entries of that family into the declared ones:
    nothing missing, nothing left over, every value the declared value.  This
    holds exactly for ten of the twelve keyed families; a storage is reached up
    to the order of its [content] and [nodes] parts, and of the security groups
    the set is reached while a group that exists keeps its comment, because
    no update of a group is ever reported.  For the access list the display
    form must tell the entries apart ([acl_ok]). *)
Theorem diff_converges f d l :
  manages d (section_of f) = true -> (f = Acl -> acl_ok d /\ acl_ok l) ->
  converged f d l (foldl replay (entries f l) (of_resource (resource_of f) (diff d l))).
Proof.
  intros Hm Ha. destruct f; try (intros i; by apply diff_storage_converges); try (intros i; by apply diff_groups_converges);
    unfold converged; rewrite of_resource_diff; unfold block; rewrite Hm; try apply id_family_converges.
  by apply acl_family_converges; apply Ha.
Qed.

(** ** When there is nothing to do *)

(** [same] on every key that either side has. *)
Definition same_entries {K A} `{Countable K} (key : A -> K) (same : A -> A -> bool)
    (declared live : list A) : Prop :=
  forall k, match by_key key live !! k, by_key key declared !! k with
            | Some l, Some d => same l d = true
            | None, None => True
            | _, _ => False
            end.

Lemma family_nil {K A} `{Countable K} (leK : relation K) `{!RelDecision leK} `{!Serde A}
    r key (display : A -> string) same declared live :
  diff_family leK r key display same declared live = [] <-> same_entries key same declared live.
Proof.
  split.
  - intros Hnil k.
    assert (forall c, c ∉ diff_family leK r key display same declared live) as Hno.
    { rewrite Hnil. intros c. apply not_elem_of_nil. }
    setoid_rewrite family_change in Hno.
    destruct (by_key key live !! k) as [l|] eqn:El, (by_key key declared !! k) as [d|] eqn:Ed;
      [|exfalso; eapply Hno; exists k; rewrite El, Ed; naive_solver..|done].
    destruct (same l d) eqn:Es; [done|].
    exfalso; eapply Hno; exists k; rewrite El, Ed; naive_solver.
  - intros Hs. destruct (diff_family _ _ _ _ _ _ _) as [|c cs] eqn:E; [done|exfalso].
    assert (c ∈ diff_family leK r key display same declared live) as Hc
      by (rewrite E; set_solver).
    apply family_change in Hc as (k & Hk). specialize (Hs k). simpl in Hk.
    destruct Hk as [(l & Hl & Hd & _)|[(l & d & Hl & Hd & Hsm & _)|(d & Hl & Hd & _)]];
      rewrite Hl, Hd in Hs; congruence.
Qed.

Lemma same_entries_eq {K A} `{Countable K} `{!EqDecision A} (key : A -> K) declared live :
  same_entries key eqb_of declared live <-> by_key key live = by_key key declared.
Proof.
  unfold same_entries, eqb_of. rewrite map_eq_iff. apply forall_proper. intros k.
  destruct (by_key key live !! k), (by_key key declared !! k);
    rewrite ?bool_decide_eq_true; naive_solver.
Qed.

(** The specification of "in sync", in terms of what the documents hold. *)
Definition in_sync (f : family) (d l : ClusterState) : Prop :=
  match f with
  | Pools => by_key pool_poolid (cs_pools l) = by_key pool_poolid (cs_pools d)
  | Acl => by_key acl_identity (cs_acl l) = by_key acl_identity (cs_acl d)
  | Storage => by_key st_storage (cs_storage l)
               = storage_normal <$> by_key st_storage (cs_storage d)
  | BackupJobs => by_key job_id (cs_backup_jobs l) = by_key job_id (cs_backup_jobs d)
  | FirewallAliases =>
      by_key alias_name (cs_firewall_aliases l) = by_key alias_name (cs_firewall_aliases d)
  | FirewallIpsets =>
      by_key ipset_name (cs_firewall_ipsets l) = by_key ipset_name (cs_firewall_ipsets d)
  | FirewallGroups =>
      forall g, g ∈ group_group <$> cs_firewall_groups l <-> g ∈ group_group <$> cs_firewall_groups d
  | NotificationMatchers =>
      by_key nm_name (cs_notification_matchers l) = by_key nm_name (cs_notification_matchers d)
  | HaResources => by_key ha_sid (cs_ha_resources l) = by_key ha_sid (cs_ha_resources d)
  | HaRules => by_key hr_rule (cs_ha_rules l) = by_key hr_rule (cs_ha_rules d)
  | MappingsPci => by_key pci_id (cs_mappings_pci l) = by_key pci_id (cs_mappings_pci d)
  | MappingsUsb => by_key usb_id (cs_mappings_usb l) = by_key usb_id (cs_mappings_usb d)
  end.

(** Only the options the document sets have to hold on the live cluster. *)
Definition options_in_sync (d l : ClusterState) : Prop :=
  forall o, cs_firewall_options d = Some o ->
  exists o', cs_firewall_options l = Some o' /\ satisfied_by o o' = true.

Lemma storage_same_entries declared live :
  same_entries st_storage storage_matches declared live <->
  by_key st_storage live = storage_normal <$> by_key st_storage declared.
Proof.
  unfold same_entries. rewrite map_eq_iff. apply forall_proper. intros k.
  rewrite lookup_fmap.
  destruct (by_key st_storage live !! k), (by_key st_storage declared !! k);
    rewrite ?storage_matches_spec; naive_solver.
Qed.

(** Presence alone: the security groups. *)
Lemma groups_nil declared live :
  diff_firewall_groups declared live [] = [] <->
  forall g, g ∈ group_group <$> live <-> g ∈ group_group <$> declared.
Proof.
  unfold diff_firewall_groups. rewrite app_nil_l. split.
  - intros [Hd Hc]%app_eq_nil g. split; intros Hin; apply dec_stable; intros Hno;
      apply by_key_None in Hno.
    + destruct (by_key group_group live !! g) eqn:E; [|by apply by_key_None in E].
      eapply (not_elem_of_nil (mk_delete "firewall_group" group_group _)).
      rewrite <-Hd. apply elem_of_deletes. eauto.
    + destruct (by_key group_group declared !! g) eqn:E; [|by apply by_key_None in E].
      eapply (not_elem_of_nil (mk_create "firewall_group" group_group _)).
      rewrite <-Hc. apply elem_of_creates. eauto.
  - intros Hg.
    destruct (_ ++ _) as [|c cs] eqn:E; [done|exfalso].
    assert (c ∈ c :: cs) as Hc by set_solver.
    rewrite <-E, elem_of_app, elem_of_deletes, elem_of_creates in Hc.
    setoid_rewrite by_key_None in Hc.
    destruct Hc as [(k & x & [Hin <-]%by_key_Some & Hno & _)|(k & x & Hno & [Hin <-]%by_key_Some & _)];
      apply Hno, Hg, list_elem_of_fmap; eauto.
Qed.

Lemma changes_nil f d l : changes_of f d l = [] <-> in_sync f d l.
Proof.
  destruct f; simpl; unfold diff_pools, diff_acl, diff_storage, diff_backup_jobs,
    diff_firewall_aliases, diff_firewall_ipsets, diff_notification_matchers,
    diff_ha_resources, diff_ha_rules, diff_mappings_pci, diff_mappings_usb;
    rewrite ?app_nil_l, ?family_nil, ?same_entries_eq; try done.
  - apply storage_same_entries.
  - apply groups_nil.
Qed.

Lemma options_nil d l :
  diff_firewall_options (cs_firewall_options d) (cs_firewall_options l) [] = []
  <-> options_in_sync d l.
Proof.
  unfold diff_firewall_options, options_in_sync.
  destruct (cs_firewall_options d) as [o|]; [|naive_solver].
  destruct (cs_firewall_options l) as [o'|]; simpl.
  - destruct (satisfied_by o o') eqn:E; split; intros H; try done.
    + intros ? [= <-]. eauto.
    + destruct (H o eq_refl) as (? & [= <-] & ?). congruence.
  - split; [done|]. intros H. by destruct (H o eq_refl) as (? & ? & ?).
Qed.

Lemma diff_nil d l :
  diff d l = [] <-> (forall f, block f d l = []) /\
    diff_firewall_options (cs_firewall_options d) (cs_firewall_options l) [] = [].
Proof.
  rewrite diff_blocks. unfold before_options, after_options. simpl. rewrite !app_nil. split.
  - intros H. split; [|tauto]. intros f. destruct f; tauto.
  - intros [H ?]. repeat split; auto.
Qed.

(** the diff is empty exactly when every family the document manages
    is in sync and the live cluster satisfies the declared firewall options;
    so "no changes" is never reported over a difference, and never withheld
    when there is none. *)
Lemma diff_empty_iff_in_sync d l :
  diff d l = [] <->
  (forall f, manages d (section_of f) = true -> in_sync f d l) /\ options_in_sync d l.
Proof.
  rewrite diff_nil, options_nil. apply and_iff_compat_r, forall_proper. intros f.
  unfold block. rewrite <-changes_nil. destruct (manages d (section_of f)); naive_solver.
Qed.

(** a family whose key is absent from the document is left alone: the
    diff holds no change of that family, however many live entries it has. *)
Lemma diff_unmanaged f d l :
  manages d (section_of f) = false -> of_resource (resource_of f) (diff d l) = [].
Proof. intros Hm. rewrite of_resource_diff. unfold block. by rewrite Hm. Qed.

(** ** The order of the changes *)
Definition phase (k : ChangeKind) : nat :=
  match k with Delete => 0 | Update => 1 | Create => 2 end.
Definition phase_le (a b : Change) : Prop := phase (c_kind a) <= phase (c_kind b).

Lemma phases_sorted (ds us cs : list Change) :
  Forall (fun c => c_kind c = Delete) ds -> Forall (fun c => c_kind c = Update) us ->
  Forall (fun c => c_kind c = Create) cs -> StronglySorted phase_le (ds ++ us ++ cs).
Proof.
  intros Hd Hu Hc. assert (StronglySorted phase_le cs) as Hcs.
  { induction Hc as [|c cs Hc HF IH]; constructor; [done|].
    eapply Forall_impl; [exact HF|]. intros c' Hc'. unfold phase_le. rewrite Hc, Hc'. done. }
  assert (StronglySorted phase_le (us ++ cs)) as Hus.
  { induction Hu as [|c us Hu HF IH]; [done|]. simpl. constructor; [done|]. apply Forall_app.
    split; (eapply Forall_impl; [eassumption|]); intros c' Hc'; unfold phase_le;
      rewrite Hu, Hc'; simpl; lia. }
  induction Hd as [|c ds Hd HF IH]; [done|]. simpl. constructor; [done|]. apply Forall_forall.
  intros c' _. unfold phase_le. rewrite Hd. simpl. lia.
Qed.

Section Kinds.
Context {K A : Type} `{Countable K} (leK : relation K) `{!RelDecision leK}
        `{!Serde A} (r : string) (display : A -> string) (lm dm : gmap K A).
Lemma deletes_kind : Forall (fun c => c_kind c = Delete) (deletes leK r display lm dm).
Proof. apply Forall_forall. intros c. rewrite elem_of_deletes. by intros (? & ? & _ & _ & ->). Qed.
Lemma updates_kind same : Forall (fun c => c_kind c = Update) (updates leK r display same lm dm).
Proof.
  apply Forall_forall. intros c. rewrite elem_of_updates. by intros (? & ? & ? & _ & _ & _ & ->).
Qed.
Lemma creates_kind : Forall (fun c => c_kind c = Create) (creates leK r display lm dm).
Proof. apply Forall_forall. intros c. rewrite elem_of_creates. by intros (? & ? & _ & _ & ->). Qed.
End Kinds.

Lemma family_sorted {K A} `{Countable K} (leK : relation K) `{!RelDecision leK} `{!Serde A}
    r key (display : A -> string) same declared live :
  StronglySorted phase_le (diff_family leK r key display same declared live).
Proof. apply phases_sorted; [apply deletes_kind|apply updates_kind|apply creates_kind]. Qed.

Lemma changes_sorted f d l : StronglySorted phase_le (changes_of f d l).
Proof.
  destruct f; try apply family_sorted.
  simpl. unfold diff_firewall_groups. rewrite app_nil_l.
  apply (phases_sorted _ [] _); [apply deletes_kind|constructor|apply creates_kind].
Qed.

(** within a family deletions come before updates and updates before
    creations, and the HA resources all come before the HA rules that refer to
    them. *)
Lemma diff_order d l :
  (forall f, StronglySorted phase_le (of_resource (resource_of f) (diff d l))) /\
  exists before after, diff d l = before ++ after
    /\ of_resource "ha_rule" before = [] /\ of_resource "ha_resource" after = [].
Proof.
  split.
  - intros f. rewrite of_resource_diff. unfold block. case_match; [apply changes_sorted|constructor].
  - exists ((before_options ≫= fun f => block f d l)
            ++ diff_firewall_options (cs_firewall_options d) (cs_firewall_options l) []
            ++ ([FirewallAliases; FirewallIpsets; FirewallGroups; NotificationMatchers;
                 HaResources] ≫= fun f => block f d l)),
      ([HaRules; MappingsPci; MappingsUsb] ≫= fun f => block f d l).
    split; [rewrite diff_blocks; unfold after_options; simpl;
            by rewrite ?app_nil_r, <-!app_assoc|].
    unfold before_options. simpl.
    rewrite !of_resource_app, (of_resource_options HaRules).
    rewrite !(of_resource_block HaRules), !(of_resource_block HaResources). done.
Qed.

(** ** One change per identity *)
Section Unique.
Context {K A : Type} `{Countable K} (leK : relation K) `{!RelDecision leK}
        `{!Serde A} (r : string) (key : A -> K) (display : A -> string) (same : A -> A -> bool)
        (dk : K -> string) (Hdk : forall x, display x = dk (key x))
        (P : K -> Prop) (Hinj : forall k1 k2, P k1 -> P k2 -> dk k1 = dk k2 -> k1 = k2).

Lemma NoDup_keys (m : gmap K A) : NoDup (keys m).
Proof. apply NoDup_fst_map_to_list. Qed.

(** The keys a pass visits; the identities it emits are their displays. *)
Lemma pass_identities (l : list K) (g : K -> option Change) :
  (forall k, k ∈ l -> exists c, g k = Some c /\ c_identity c = dk k) ->
  c_identity <$> omap g l = dk <$> l.
Proof.
  induction l as [|k l IH]; intros Hg; [done|].
  destruct (Hg k) as (c & Hc & Hid); [set_solver|]. simpl. rewrite Hc. simpl.
  rewrite Hid. f_equal. apply IH. set_solver.
Qed.

Lemma family_identities declared live :
  let lm := by_key key live in let dm := by_key key declared in
  c_identity <$> diff_family leK r key display same declared live =
  dk <$> (sort_unstable leK (filter (fun k => dm !! k = None) (keys lm))
          ++ sort_unstable leK (filter (fun k => differs same lm dm k = true) (keys dm))
          ++ sort_unstable leK (filter (fun k => lm !! k = None) (keys dm))).
Proof.
  intros lm dm. unfold diff_family, deletes, updates, creates. rewrite !fmap_app.
  repeat f_equal; apply pass_identities; intros k;
    rewrite elem_of_sort_unstable, list_elem_of_filter, elem_of_keys.
  - intros [_ [x Hx]]. fold lm. rewrite Hx. eexists; split; [done|]. simpl.
    apply by_key_Some in Hx as [_ <-]. auto.
  - fold lm dm. unfold differs. intros [Hdf [x Hx]]. rewrite Hx in *.
    destruct (lm !! k); [|done]. eexists; split; [done|]. simpl.
    apply by_key_Some in Hx as [_ <-]. auto.
  - fold dm. intros [_ [x Hx]]. rewrite Hx. eexists; split; [done|]. simpl.
    apply by_key_Some in Hx as [_ <-]. auto.
Qed.

Lemma family_NoDup declared live :
  keys_ok key P declared -> keys_ok key P live ->
  NoDup (c_identity <$> diff_family leK r key display same declared live).
Proof.
  intros HD HL. rewrite family_identities.
  set (lm := by_key key live). set (dm := by_key key declared).
  assert (forall (s : list A) k, keys_ok key P s -> is_Some (by_key key s !! k) -> P k) as HP.
  { intros s k Hs [x [Hx <-]%by_key_Some]. by apply (proj1 (Forall_forall _ _) Hs). }
  apply NoDup_fmap_2_strong.
  - intros k1 k2. rewrite !elem_of_app, !elem_of_sort_unstable, !list_elem_of_filter, !elem_of_keys.
    intros H1 H2. apply Hinj; naive_solver.
  - rewrite !NoDup_app. repeat split; try apply NoDup_sort_unstable, NoDup_filter, NoDup_keys.
    + intros k. rewrite elem_of_app, !elem_of_sort_unstable, !list_elem_of_filter, !elem_of_keys.
      intros [Hn [x Hx]] [[_ [y Hy]]|[Hn' _]]; congruence.
    + intros k. rewrite !elem_of_sort_unstable, !list_elem_of_filter. unfold differs.
      intros [Hn _] [Hn' _]. by rewrite Hn' in Hn.
Qed.
End Unique.

Lemma id_family_NoDup {A} `{!Serde A} r (key : A -> string) same declared live :
  NoDup (c_identity <$> diff_family String.le r key key same declared live).
Proof.
  apply (family_NoDup String.le r key key same id (fun _ => eq_refl) (fun _ => True));
    [done| |]; by apply Forall_forall.
Qed.

Lemma changes_NoDup f d l :
  acl_ok d -> acl_ok l -> NoDup (c_identity <$> changes_of f d l).
Proof.
  intros Hd Hl. destruct f; try apply id_family_NoDup.
  - apply (family_NoDup acl_key_le "acl" acl_identity acl_display eqb_of acl_key_display
      (fun _ => eq_refl) acl_key_ok acl_key_display_inj); done.
  - simpl. rewrite groups_as_family. apply id_family_NoDup.
Qed.

Lemma NoDup_by_resource cs :
  (forall r, NoDup (c_identity <$> of_resource r cs)) ->
  NoDup ((fun c => (c_resource c, c_identity c)) <$> cs).
Proof.
  induction cs as [|c cs IH]; intros Hr; [constructor|]. simpl. constructor.
  - intros (c' & Heq & Hin)%list_elem_of_fmap. simplify_eq.
    specialize (Hr (c_resource c)). unfold of_resource in Hr.
    rewrite filter_cons_True in Hr by done. simpl in Hr. apply NoDup_cons in Hr as [Hno _].
    apply Hno, list_elem_of_fmap. exists c'. by rewrite list_elem_of_filter.
  - apply IH. intros r. specialize (Hr r). unfold of_resource in *.
    destruct (decide (c_resource c = r)).
    + rewrite filter_cons_True in Hr by done. simpl in Hr. by apply NoDup_cons in Hr as [_ ?].
    + by rewrite filter_cons_False in Hr by done.
Qed.

Lemma diff_resources d l c :
  c ∈ diff d l -> (exists f, c_resource c = resource_of f) \/ c_resource c = "firewall_options".
Proof.
  rewrite diff_blocks, !elem_of_app, !list_elem_of_bind.
  intros [(f & Hc & _)|[Hc|(f & Hc & _)]].
  - left. exists f. by eapply (proj1 (Forall_forall _ _) (block_resource f d l)).
  - right. by eapply (proj1 (Forall_forall _ _) (options_resource _ _)).
  - left. exists f. by eapply (proj1 (Forall_forall _ _) (block_resource f d l)).
Qed.

Lemma block_no_options f d l : of_resource "firewall_options" (block f d l) = [].
Proof. apply (of_resource_none _ (resource_of f)); [by destruct f|apply block_resource]. Qed.

Lemma of_resource_diff_options d l :
  of_resource "firewall_options" (diff d l)
  = diff_firewall_options (cs_firewall_options d) (cs_firewall_options l) [].
Proof.
  rewrite diff_blocks. unfold before_options, after_options. simpl. rewrite !of_resource_app.
  rewrite (of_resource_all _ _ (options_resource _ _)).
  rewrite !block_no_options. cbn [app]. by rewrite ?app_nil_r.
Qed.

(** no resource is changed twice: the (family, identity) pairs of the
    diff are distinct. *)
Lemma diff_one_change_per_identity d l :
  acl_ok d -> acl_ok l -> NoDup ((fun c => (c_resource c, c_identity c)) <$> diff d l).
Proof.
  intros Hd Hl. apply NoDup_by_resource. intros r.
  destruct (of_resource r (diff d l)) as [|c cs] eqn:E; [constructor|].
  assert (c ∈ of_resource r (diff d l)) as [Hr Hin]%list_elem_of_filter by (rewrite E; set_solver).
  apply diff_resources in Hin as [[f Hf]|Ho]; rewrite <-E.
  - rewrite <-Hr, Hf, of_resource_diff. unfold block.
    case_match; [by apply changes_NoDup|constructor].
  - rewrite <-Hr, Ho, of_resource_diff_options. unfold diff_firewall_options.
    destruct (cs_firewall_options d); [|constructor]. case_match; [constructor|].
    apply NoDup_singleton.
Qed.

(** ** Witnesses *)
Definition sample_acl (path ugid role : string) : AclDecl :=
  {| acl_path := path; acl_kind := "user"; acl_ugid := ugid; acl_roleid := role;
     acl_propagate := true |}.
Definition sample_storage (content : string) : StorageDecl :=
  {| st_storage := "local"; st_storage_type := "dir"; st_content := content; st_nodes := "";
     st_disable := false; st_shared := false; st_path := "/var/lib/vz"; st_pool := "";
     st_server := ""; st_export := ""; st_datastore := ""; st_fingerprint := "";
     st_username := ""; st_vgname := ""; st_thinpool := "" |}.
Definition sample_state (families : option (gset string)) (pools : list PoolDecl)
    (acl : list AclDecl) (storage : list StorageDecl) : ClusterState :=
  {| cs_meta := None; cs_declared_families := families; cs_pools := pools; cs_acl := acl;
     cs_storage := storage; cs_backup_jobs := []; cs_firewall_options := None;
     cs_firewall_aliases := []; cs_firewall_ipsets := []; cs_firewall_groups := [];
     cs_notification_matchers := []; cs_ha_resources := []; cs_ha_rules := [];
     cs_mappings_pci := []; cs_mappings_usb := [] |}.
Definition sample_declared : ClusterState :=
  sample_state (Some {[ "acl"; "storage" ]}) []
    [sample_acl "/vms/100" "alice@pve" "PVEVMUser"; sample_acl "/" "root@pam" "Administrator"]
    [sample_storage "vztmpl,iso"].
Definition sample_live : ClusterState :=
  sample_state None
    [{| pool_poolid := "prod"; pool_comment := ""; pool_members := ["vm:100"] |}]
    [sample_acl "/" "root@pam" "Administrator"; sample_acl "/vms" "bob@pve" "PVEAdmin"]
    [sample_storage "iso,vztmpl"].

Lemma sample_acl_ok : acl_ok sample_declared /\ acl_ok sample_live.
Proof. split; repeat constructor. Qed.

Lemma diff_converges_witness :
  length (diff sample_declared sample_live) = 2 /\
  foldl replay (entries Acl sample_live) (of_resource "acl" (diff sample_declared sample_live))
  = entries Acl sample_declared.
Proof.
  split; [vm_compute; reflexivity|].
  apply (diff_converges Acl sample_declared sample_live); [vm_compute; reflexivity|intros _; apply sample_acl_ok].
Defined.

Lemma diff_storage_converges_witness :
  foldl replay (entries Storage sample_live)
    (of_resource "storage" (diff sample_declared sample_live)) !! "local" ≫= storage_meaning
  = Some (sample_storage "iso,vztmpl").
Proof.
  etransitivity; [apply diff_storage_converges|]; vm_compute; reflexivity.
Defined.

Lemma diff_unmanaged_witness :
  cs_pools sample_live <> [] /\
  of_resource "pool" (diff sample_declared sample_live) = [].
Proof.
  split; [discriminate|]. apply (diff_unmanaged Pools). vm_compute; reflexivity.
Defined.

Lemma diff_one_change_per_identity_witness :
  NoDup ((fun c => (c_resource c, c_identity c)) <$> diff sample_declared sample_live).
Proof. apply diff_one_change_per_identity; apply sample_acl_ok. Defined.
