(* ===== verification/StateLoad.v ===== *)
(** * Loading a state document: what a document that loads satisfies

    The checks [from_toml_str] makes after the text has been read, and why
    [validate_unique_identities] is needed: the diff keys every family by
    identity, so a second entry of an identity would be lost. *)
From S2P Require Import Prelude Json StateModel StateSerde StateDiff StateDiffTheory.
From S2P Require Import StateDiffSpec.

(** ** The walk over one family *)
Lemma check_loop_ok {A} fam (key : A -> string) seen items :
  check_loop fam key seen items = Ok () <->
  NoDup (key <$> items) /\ (forall x, x ∈ items -> key x ∉ seen).
Proof.
  revert seen. induction items as [|x items IH]; intros seen; simpl.
  { split; [|done]. split; [constructor|set_solver]. }
  case_bool_decide as Hx.
  - split; [done|]. intros [_ H]. exfalso. apply (H x); [set_solver|done].
  - rewrite IH, NoDup_cons. split.
    + intros [Hnd Hno]. split_and!; [|done|set_solver].
      intros (y & Hy & Hin)%list_elem_of_fmap. apply (Hno y Hin). set_solver.
    + intros [[Hx' Hnd] Hno]. split; [done|]. intros y Hy [Heq|Hs]%elem_of_union; [|set_solver].
      apply Hx', list_elem_of_fmap. set_solver.
Qed.

Lemma check_ok {A} fam (items : list A) key :
  check fam items key = Ok () <-> NoDup (key <$> items).
Proof. unfold check. rewrite check_loop_ok. set_solver. Qed.

Lemma check_dec {A} fam (items : list A) key (k : () -> Result string ()) :
  (check fam items key ≫= k) = Ok () <-> NoDup (key <$> items) /\ k () = Ok ().
Proof.
  rewrite <-(check_ok fam). destruct (check fam items key) as [[]|]; simpl; naive_solver.
Qed.

(** Every family has distinct identities (as the source renders them). *)
Definition unique_identities (s : ClusterState) : Prop :=
  NoDup (pool_poolid <$> cs_pools s) /\ NoDup (acl_check_key <$> cs_acl s)
  /\ NoDup (st_storage <$> cs_storage s) /\ NoDup (job_id <$> cs_backup_jobs s)
  /\ NoDup (alias_name <$> cs_firewall_aliases s) /\ NoDup (ipset_name <$> cs_firewall_ipsets s)
  /\ NoDup (group_group <$> cs_firewall_groups s)
  /\ NoDup (nm_name <$> cs_notification_matchers s) /\ NoDup (ha_sid <$> cs_ha_resources s)
  /\ NoDup (hr_rule <$> cs_ha_rules s) /\ NoDup (pci_id <$> cs_mappings_pci s)
  /\ NoDup (usb_id <$> cs_mappings_usb s).

Lemma validate_ok s : validate_unique_identities s = Ok () <-> unique_identities s.
Proof.
  unfold validate_unique_identities, unique_identities. rewrite !check_dec. tauto.
Qed.

(** ** What loads *)
Lemma declares_a_family_spec s :
  declares_a_family s = true <->
  exists ks k, cs_declared_families s = Some ks /\ k ∈ ks /\ k <> "meta".
Proof.
  unfold declares_a_family. destruct (cs_declared_families s) as [ks|]; [|naive_solver].
  rewrite existsb_exists. setoid_rewrite negb_true_iff. setoid_rewrite bool_decide_eq_false.
  setoid_rewrite <-list_elem_of_In. set_solver.
Qed.

Lemma unique_record s ks :
  unique_identities (record_declared_families s ks) <-> unique_identities s.
Proof. by destruct ks. Qed.

Lemma schema_record s ks : schema_too_new (record_declared_families s ks) = schema_too_new s.
Proof. by destruct ks. Qed.

Lemma schema_ok s :
  schema_too_new s = None <->
  forall m, cs_meta s = Some m -> (meta_schema_version m <= CURRENT_STATE_SCHEMA)%N.
Proof.
  unfold schema_too_new. destruct (cs_meta s) as [m|]; [|naive_solver].
  case_bool_decide; naive_solver.
Qed.

(** [#[serde(skip)]] on [declared_families]: reading a document never fills it. *)
Definition skips_provenance (parse : string -> Result string ClusterState) : Prop :=
  forall text st, parse text = Ok st -> cs_declared_families st = None.

(** What the checks after the two readings accept. *)
Lemma from_toml_str_checks parse table_keys text st0 ks :
  parse text = Ok st0 -> table_keys text = Ok (Some ks) ->
  from_toml_str parse table_keys text = Ok (record_declared_families st0 (Some ks)) <->
  unique_identities st0 /\ schema_too_new st0 = None /\ exists k, k ∈ ks /\ k <> "meta".
Proof.
  intros Hp Ht. unfold from_toml_str. rewrite Hp. simpl. rewrite Ht. simpl.
  rewrite <-(unique_record st0 (Some ks)), <-validate_ok, <-(schema_record st0 (Some ks)).
  assert ((exists k, k ∈ ks /\ k <> "meta") <->
          declares_a_family (record_declared_families st0 (Some ks)) = true) as ->.
  { rewrite declares_a_family_spec. split; [intros (k & ?); by exists ks, k|].
    intros (ks' & k & [= <-] & ?). eauto. }
  destruct (validate_unique_identities _) as [[]|]; simpl; [|split; intros; [done|]; by destruct_and!].
  destruct (schema_too_new _); [split; intros; [done|]; by destruct_and!|].
  destruct (declares_a_family _); split; intros; try done; by destruct_and!.
Qed.

Lemma from_toml_str_inv parse table_keys text st :
  skips_provenance parse -> from_toml_str parse table_keys text = Ok st ->
  exists st0 ks, parse text = Ok st0 /\ table_keys text = Ok (Some ks)
    /\ st = record_declared_families st0 (Some ks).
Proof.
  intros Hskip. unfold from_toml_str.
  destruct (parse text) as [st0|e] eqn:Hp; simpl; [|done].
  destruct (table_keys text) as [ks|e] eqn:Ht; simpl; [|done].
  destruct (validate_unique_identities _) as [[]|]; simpl; [|done].
  destruct (schema_too_new _); [done|].
  destruct (declares_a_family _) eqn:Ed; [|done]. intros [= <-].
  destruct ks as [ks|]; [by exists st0, ks|].
  apply declares_a_family_spec in Ed as (ks & _ & Hf & _). simpl in Hf.
  by rewrite (Hskip _ _ Hp) in Hf.
Qed.

(** a document loads exactly when both readings of its text succeed, the
    second as a table whose keys become the managed families (one of them not
    [meta]), every family has distinct identities and the schema is not newer
    than this program's; and what loads is the document read, unaltered. *)
Lemma from_toml_str_ok parse table_keys text st :
  skips_provenance parse ->
  from_toml_str parse table_keys text = Ok st <->
  exists st0 ks, parse text = Ok st0 /\ table_keys text = Ok (Some ks)
    /\ unique_identities st0
    /\ (forall m, cs_meta st0 = Some m -> (meta_schema_version m <= CURRENT_STATE_SCHEMA)%N)
    /\ (exists k, k ∈ ks /\ k <> "meta")
    /\ st = record_declared_families st0 (Some ks).
Proof.
  intros Hskip. split.
  - intros Hst. destruct (from_toml_str_inv _ _ _ _ Hskip Hst) as (st0 & ks & Hp & Ht & ->).
    apply (from_toml_str_checks _ _ _ _ _ Hp Ht) in Hst as (Hu & Hs & Hk).
    exists st0, ks. by rewrite <-schema_ok.
  - intros (st0 & ks & Hp & Ht & Hu & Hs & Hk & ->). rewrite <-schema_ok in Hs.
    by apply (from_toml_str_checks _ _ _ _ _ Hp Ht).
Qed.

(** ** Why identities have to be distinct *)
Lemma size_by_key {K A} `{Countable K} (key : A -> K) (l : list A) :
  NoDup (key <$> l) -> size (by_key key l) = length l.
Proof.
  induction l as [|x l IH] using rev_ind; intros Hnd; [apply map_size_empty|].
  rewrite fmap_app in Hnd. apply NoDup_app in Hnd as (Hl & Hx & _).
  rewrite by_key_snoc, map_size_insert_None, IH, length_app by (done || apply by_key_None; set_solver).
  simpl. lia.
Qed.

Lemma size_view {A} `{!Serde A} (display : A -> string) (l : list A) :
  NoDup (display <$> l) -> size (view display l) = length l.
Proof. intros. unfold view. rewrite map_size_fmap. by apply size_by_key. Qed.

Lemma acl_identity_NoDup l : NoDup (acl_check_key <$> l) -> NoDup (acl_identity <$> l).
Proof.
  intros Hnd.
  apply (NoDup_fmap_1 (fun k : acl_key => k.1 +:+ "|" +:+ k.2.1 +:+ "|" +:+ k.2.2.1 +:+ "|" +:+ k.2.2.2)).
  by rewrite <-list_fmap_compose.
Qed.

Lemma acl_display_NoDup l :
  Forall (fun a => acl_key_ok (acl_identity a)) l ->
  NoDup (acl_check_key <$> l) -> NoDup (acl_display <$> l).
Proof.
  intros Hok Hnd. rewrite Forall_forall in Hok.
  apply acl_identity_NoDup in Hnd.
  change (NoDup ((acl_key_display ∘ acl_identity) <$> l)). rewrite list_fmap_compose.
  apply NoDup_fmap_2_strong; [|done].
  intros ? ? (a & -> & Ha)%list_elem_of_fmap (b & -> & Hb)%list_elem_of_fmap.
  apply acl_key_display_inj; auto.
Qed.

Definition declared_count (f : family) (s : ClusterState) : nat :=
  match f with
  | Pools => length (cs_pools s) | Acl => length (cs_acl s) | Storage => length (cs_storage s)
  | BackupJobs => length (cs_backup_jobs s) | FirewallAliases => length (cs_firewall_aliases s)
  | FirewallIpsets => length (cs_firewall_ipsets s)
  | FirewallGroups => length (cs_firewall_groups s)
  | NotificationMatchers => length (cs_notification_matchers s)
  | HaResources => length (cs_ha_resources s) | HaRules => length (cs_ha_rules s)
  | MappingsPci => length (cs_mappings_pci s) | MappingsUsb => length (cs_mappings_usb s)
  end.

(** in a document that passes the check no declaration is lost when the
    diff keys its families by identity: every family has as many entries as it
    has declarations. *)
Lemma validated_no_declaration_lost s f :
  validate_unique_identities s = Ok () -> acl_ok s ->
  size (entries f s) = declared_count f s.
Proof.
  rewrite validate_ok. unfold unique_identities. intros Hu Hacl. destruct_and! Hu.
  destruct f; apply size_view; try done. by apply acl_display_NoDup.
Qed.

(** ** Witnesses *)
Lemma from_toml_str_ok_witness :
  from_toml_str (fun _ => Ok sample_live) (fun _ => Ok (Some {[ "acl"; "meta" ]})) "doc"
  = Ok (record_declared_families sample_live (Some {[ "acl"; "meta" ]})).
Proof.
  apply from_toml_str_ok.
  - intros ? ? [= <-]. reflexivity.
  - exists sample_live, {[ "acl"; "meta" ]}. split_and!; try reflexivity.
    + apply validate_ok. vm_compute. reflexivity.
    + discriminate.
    + exists "acl". split; [set_solver|discriminate].
Defined.

Lemma validated_no_declaration_lost_witness : size (entries Acl sample_declared) = 2.
Proof.
  apply (validated_no_declaration_lost sample_declared Acl); [vm_compute; reflexivity|].
  apply sample_acl_ok.
Defined.
