(* ===== verification/Guest.v ===== *)
(** * Guests: src/api/types/guest.rs

    The fields of a guest the program's checks read.  The CPU load is a float
    no modelled function reads and is left out. *)

From S2P Require Import Prelude.

Inductive GuestType := Qemu | Lxc.
#[export] Instance GuestType_eq_dec : EqDecision GuestType.
Proof. solve_decision. Defined.
Definition GuestType_as_str (t : GuestType) : string := match t with Qemu => "qemu" | Lxc => "lxc" end.

Inductive GuestStatus := Running | Stopped | Paused | Suspended | Unknown.
#[export] Instance GuestStatus_eq_dec : EqDecision GuestStatus.
Proof. solve_decision. Defined.

Record Guest := {
  g_vmid : N;
  g_name : string;
  g_status : GuestStatus;
  g_guest_type : GuestType;
  g_node : string;
  g_cpus : N;
  g_mem : N;
  g_maxmem : N;
  g_disk : N;
  g_maxdisk : N;
  g_uptime : N;
  g_tags : string;
  g_lock : string;
  g_hastate : string;
  g_template : bool;
  g_netin : N;
  g_netout : N;
}.

Definition is_ha_managed (g : Guest) : bool := negb (is_empty (g_hastate g)).
Definition is_locked (g : Guest) : bool := negb (is_empty (g_lock g)).
Definition tag_list (g : Guest) : list string :=
  if is_empty (g_tags g) then [] else split_char ";" (g_tags g).
Definition has_tag (g : Guest) (tag : string) : bool := bool_decide (tag ∈ tag_list g).

(** * Severity of a pre-flight risk: src/app/preflight.rs

    The tier shared by the guest pre-flight and the state pre-flight, with its
    derived order, and the typed refusal both of them return. *)
Inductive RiskLevel := Notice | Warning | Severe.
#[export] Instance RiskLevel_eq_dec : EqDecision RiskLevel.
Proof. solve_decision. Defined.

(** [#[derive(PartialOrd, Ord)]]: the order of the variants. *)
Definition level_rank (l : RiskLevel) : nat :=
  match l with Notice => 0 | Warning => 1 | Severe => 2 end.

Definition level_max (a b : RiskLevel) : RiskLevel :=
  if level_rank a <=? level_rank b then b else a.

Definition RiskLevel_as_str (l : RiskLevel) : string :=
  match l with Notice => "NOTICE" | Warning => "WARN" | Severe => "SEVERE" end.

(** [levels.max().unwrap_or(RiskLevel::Notice)] *)
Definition max_of (ls : list RiskLevel) : RiskLevel := foldr level_max Notice ls.

Inductive PreflightRefusal := mk_PreflightRefusal.
Definition PreflightRefusal_EXIT_CODE : Z := 6.

Lemma max_of_severe ls : max_of ls = Severe <-> Severe ∈ ls.
Proof.
  induction ls as [|l ls IH]; simpl; [set_solver|].
  rewrite elem_of_cons, <-IH. unfold level_max.
  destruct l, (max_of ls); simpl; naive_solver.
Qed.

(** The maximum is an upper bound, and is reached. *)
Lemma max_of_le ls l : l ∈ ls -> level_rank l <= level_rank (max_of ls).
Proof.
  induction ls as [|l' ls IH]; simpl; [set_solver|].
  intros [->|Hl]%elem_of_cons; unfold level_max; destruct (Nat.leb_spec (level_rank l') (level_rank (max_of ls)));
    try lia; specialize (IH Hl); lia.
Qed.

#[export] Hint Resolve max_of_le : proxxx.
