(* ===== verification/StatePreflight.v ===== *)
(** * Risk gates of a state apply: src/state/preflight.rs

    [assess] grades the changes a run would send, [enforce_state_preflight]
    refuses the run when one of them is severe and risk is not accepted.  The
    text printed to standard error is the first component of its result. *)
From S2P Require Import Prelude Json StateModel StateSerde StateDiff Guest.

Inductive StateRisk :=
  | PoolDeleteNonEmpty (poolid : string) (member_count : nat)
  | AclDeleteRootRole (path ugid role : string)
  | AclDeleteAuditor (path ugid role : string)
  | StorageDeleteShared (storage : string)
  | StoragePropertyChange (storage what : string)
  | AclPropagateFlip (path ugid : string) (new_value : bool)
  | BackupJobDelete (id : string)
  | FirewallDisabled
  | FirewallPolicyLoosened (direction : string)
  | FirewallAliasDelete (name : string)
  | FirewallIpsetDelete (name : string)
  | FirewallGroupDelete (group : string)
  | MappingPciDelete (id : string)
  | MappingUsbDelete (id : string)
  | NotificationMatcherDelete (name : string)
  | HaRuleDelete (rule : string)
  | HaRuleStrictChange (rule : string)
  | HaResourceDelete (sid : string)
  | HaResourceStateChange (sid before after : string)
  | BulkChangeCount (n : nat).

Definition level (r : StateRisk) : RiskLevel :=
  match r with
  | PoolDeleteNonEmpty _ _ | AclDeleteRootRole _ _ _ | StorageDeleteShared _
  | FirewallDisabled | FirewallGroupDelete _ | MappingPciDelete _ | MappingUsbDelete _
  | HaRuleStrictChange _ | HaResourceDelete _ => Severe
  | StoragePropertyChange _ _ | AclPropagateFlip _ _ _ | AclDeleteAuditor _ _ _
  | BackupJobDelete _ | FirewallPolicyLoosened _ | FirewallAliasDelete _
  | FirewallIpsetDelete _ | NotificationMatcherDelete _ | HaRuleDelete _
  | HaResourceStateChange _ _ _ => Warning
  | BulkChangeCount n =>
      if 50 <=? n then Severe else if 10 <=? n then Warning else Notice
  end.

Definition show_bool (b : bool) : string := if b then "true" else "false".

Definition describe (r : StateRisk) : string :=
  match r with
  | PoolDeleteNonEmpty poolid member_count =>
      "delete pool `" +:+ poolid +:+ "` — still has " +:+ pretty member_count
      +:+ " members (PVE will refuse with an opaque 500)"
  | AclDeleteRootRole path ugid role =>
      "delete ACL grant on `" +:+ path +:+ "` for `" +:+ ugid +:+ "` (role `" +:+ role
      +:+ "`) — LOCK-OUT RISK if this was the last admin grant"
  | AclDeleteAuditor path ugid role =>
      "delete ACL grant on `" +:+ path +:+ "` for `" +:+ ugid +:+ "` (role `" +:+ role
      +:+ "`) — you'll lose visibility from this principal"
  | StorageDeleteShared storage =>
      "delete shared storage `" +:+ storage +:+ "` — live guests likely depend on it"
  | StoragePropertyChange storage what =>
      "update storage `" +:+ storage +:+ "` — changing `" +:+ what
      +:+ "` may break running guests that rely on the current value"
  | AclPropagateFlip path ugid new_value =>
      "ACL grant on `" +:+ path +:+ "` for `" +:+ ugid +:+ "`: propagate → "
      +:+ show_bool new_value +:+ " — cascades to every descendant path"
  | BackupJobDelete id =>
      "delete backup job `" +:+ id
      +:+ "` — the guests it covered will silently stop being backed up"
  | FirewallDisabled =>
      "disable the cluster firewall (enable → false) — ALL enforcement stops cluster-wide"
  | FirewallPolicyLoosened direction =>
      "loosen firewall " +:+ direction +:+ " default policy to ACCEPT — "
      +:+ "every unmatched packet in that direction now passes"
  | FirewallAliasDelete name =>
      "delete firewall alias `" +:+ name +:+ "` — rules referencing `+" +:+ name
      +:+ "` will break"
  | FirewallIpsetDelete name =>
      "delete firewall IP set `" +:+ name +:+ "` — rules referencing `+" +:+ name
      +:+ "` will break"
  | FirewallGroupDelete group =>
      "delete security group `" +:+ group +:+ "` — drops its rules (unrecoverable here) "
      +:+ "and breaks rules that reference it"
  | MappingPciDelete id =>
      "delete PCI passthrough mapping `" +:+ id +:+ "` — any guest with `hostpciN: mapping="
      +:+ id +:+ "` loses its device on next start and hard-fails migration; "
      +:+ "proxxx cannot see which guests reference it"
  | MappingUsbDelete id =>
      "delete USB passthrough mapping `" +:+ id +:+ "` — any guest with `usbN: mapping="
      +:+ id +:+ "` loses its device; proxxx cannot see which guests reference it"
  | NotificationMatcherDelete name =>
      "delete notification matcher `" +:+ name
      +:+ "` — events it matched will silently stop being routed"
  | HaRuleDelete rule =>
      "delete HA rule `" +:+ rule +:+ "` — constrained resources revert to global HA defaults "
      +:+ "(no node preference, no affinity)"
  | HaRuleStrictChange rule =>
      "node-affinity rule `" +:+ rule +:+ "` `strict` flag changed — CRM may force-migrate "
      +:+ "every constrained guest within seconds"
  | HaResourceDelete sid =>
      "delete HA resource `" +:+ sid +:+ "` — CRM stops restarting/relocating it; PVE's "
      +:+ "purge=1 default also auto-removes the SID from referencing rules (deleting rules "
      +:+ "that had only this resource)"
  | HaResourceStateChange sid before after =>
      "HA resource `" +:+ sid +:+ "` state changed `" +:+ before +:+ "` → `" +:+ after
      +:+ "` — CRM enforcement posture shifts (a move to disabled/ignored stops enforcement; "
      +:+ "a move to stopped keeps the guest stopped)"
  | BulkChangeCount n =>
      pretty n +:+ " changes in one apply — attention cost proportional"
  end.

Definition ROOT_LIKE_ROLES : list string := ["Administrator"; "PVEAdmin"; "Root"].
Definition AUDITOR_LIKE_ROLES : list string := ["PVEAuditor"; "Auditor"].
Definition role_in (roles : list string) (role : string) : bool :=
  existsb (fun r => eq_ignore_ascii_case r role) roles.

(** The four parts of an ACL identity, as the two lookups take it apart. *)
Definition parse_acl_identity (identity : string) : option acl_key :=
  '(path, rest) ← split_once " " identity;
  let rest := trim_start_char "[" rest in
  '(kind_ugid, role) ← split_once "] " rest;
  '(kind, ugid) ← split_once "/" kind_ugid;
  Some (path, (kind, (ugid, role))).

(** [iter().find(p)] *)
Definition find {A} (p : A -> bool) (l : list A) : option A := head (filter (fun x => p x = true) l).

Definition find_acl_by_identity (identity : string) (acls : list AclDecl) : option AclDecl :=
  k ← parse_acl_identity identity;
  find (fun a => bool_decide (acl_identity a = k)) acls.

Definition find_acl_by_identity_in (identity : string) (value : option Value) : option AclDecl :=
  v ← value;
  acl ← result_ok (from_value v);
  k ← parse_acl_identity identity;
  if bool_decide (acl_identity acl = k) then Some acl else None.

(** [change.before.as_ref().and_then(|v| serde_json::from_value(v.clone()).ok())] *)
Definition decode_opt {A} `{!Serde A} (v : option Value) : option A :=
  v ≫= fun v => result_ok (from_value v).

(** [matches!(s, "disabled" | "ignored" | "stopped")] *)
Definition not_enforced (s : string) : bool :=
  bool_decide (s ∈ ["disabled"; "ignored"; "stopped"]).

Definition assess_pool_delete (c : Change) (live : ClusterState) : list StateRisk :=
  match find (fun p => bool_decide (pool_poolid p = c_identity c)) (cs_pools live) with
  | Some pool =>
      match pool_members pool with
      | [] => []
      | ms => [PoolDeleteNonEmpty (pool_poolid pool) (length ms)]
      end
  | None => []
  end.

Definition assess_acl_delete (c : Change) (live : ClusterState) : list StateRisk :=
  match find_acl_by_identity (c_identity c) (cs_acl live) with
  | Some acl =>
      if role_in ROOT_LIKE_ROLES (acl_roleid acl)
      then [AclDeleteRootRole (acl_path acl) (acl_ugid acl) (acl_roleid acl)]
      else if role_in AUDITOR_LIKE_ROLES (acl_roleid acl)
      then [AclDeleteAuditor (acl_path acl) (acl_ugid acl) (acl_roleid acl)]
      else []
  | None => []
  end.

Definition assess_acl_update (c : Change) (live : ClusterState) : list StateRisk :=
  match find_acl_by_identity_in (c_identity c) (c_after c),
        find_acl_by_identity (c_identity c) (cs_acl live) with
  | Some declared, Some current =>
      if bool_decide (acl_propagate declared = acl_propagate current) then []
      else [AclPropagateFlip (acl_path current) (acl_ugid current) (acl_propagate declared)]
  | _, _ => []
  end.

Definition assess_storage_delete (c : Change) (live : ClusterState) : list StateRisk :=
  match find (fun s => bool_decide (st_storage s = c_identity c)) (cs_storage live) with
  | Some s => if st_shared s then [StorageDeleteShared (st_storage s)] else []
  | None => []
  end.

Definition assess_storage_update (c : Change) : list StateRisk :=
  match c_before c, c_after c with
  | Some before, Some after =>
      omap (fun field =>
              if bool_decide (vget field before = vget field after) then None
              else Some (StoragePropertyChange (c_identity c) field))
        ["content"; "path"; "server"; "shared"]
  | _, _ => []
  end.

Definition assess_options_update (c : Change) : list StateRisk :=
  match c_before c, c_after c with
  | Some before, Some after =>
      let was_on := vget "enable" before ≫= as_bool in
      let now_off := vget "enable" after ≫= as_bool in
      (if bool_decide (was_on = Some true) && bool_decide (now_off = Some false)
       then [FirewallDisabled] else [])
      ++ omap (fun direction =>
                let before_v := vget direction before ≫= as_str in
                let after_v := vget direction after ≫= as_str in
                if bool_decide (after_v = Some "ACCEPT") && negb (bool_decide (before_v = Some "ACCEPT"))
                then Some (FirewallPolicyLoosened direction) else None)
           ["policy_in"; "policy_out"]
  | _, _ => []
  end.

Definition assess_ha_rule_update (c : Change) : list StateRisk :=
  match decode_opt (A := HaRuleDecl) (c_before c), decode_opt (A := HaRuleDecl) (c_after c) with
  | Some b, Some a =>
      if bool_decide (hr_rule_type a = "node-affinity")
         && negb (bool_decide (hr_strict b = hr_strict a))
      then [HaRuleStrictChange (c_identity c)] else []
  | _, _ => []
  end.

Definition assess_ha_resource_update (c : Change) : list StateRisk :=
  match decode_opt (A := HaResourceDecl) (c_before c),
        decode_opt (A := HaResourceDecl) (c_after c) with
  | Some b, Some a =>
      if not_enforced (ha_state a) && negb (not_enforced (ha_state b))
      then [HaResourceStateChange (c_identity c) (ha_state b) (ha_state a)] else []
  | _, _ => []
  end.

(** The [match (change.kind, change.resource)]: the branches are tried in order. *)
Definition assess_one (c : Change) (live : ClusterState) : list StateRisk :=
  let res r := bool_decide (c_resource c = r) in
  match c_kind c with
  | Delete =>
      if res "pool" then assess_pool_delete c live
      else if res "acl" then assess_acl_delete c live
      else if res "storage" then assess_storage_delete c live
      else if res "backup_job" then [BackupJobDelete (c_identity c)]
      else if res "firewall_alias" then [FirewallAliasDelete (c_identity c)]
      else if res "firewall_ipset" then [FirewallIpsetDelete (c_identity c)]
      else if res "firewall_group" then [FirewallGroupDelete (c_identity c)]
      else if res "mapping_pci" then [MappingPciDelete (c_identity c)]
      else if res "mapping_usb" then [MappingUsbDelete (c_identity c)]
      else if res "notification_matcher" then [NotificationMatcherDelete (c_identity c)]
      else if res "ha_rule" then [HaRuleDelete (c_identity c)]
      else if res "ha_resource" then [HaResourceDelete (c_identity c)]
      else []
  | Update =>
      if res "acl" then assess_acl_update c live
      else if res "storage" then assess_storage_update c
      else if res "firewall_options" then assess_options_update c
      else if res "ha_rule" then assess_ha_rule_update c
      else if res "ha_resource" then assess_ha_resource_update c
      else []
  | Create => []
  end.

Definition assess (changes : list Change) (live : ClusterState) : list StateRisk :=
  (if 10 <=? length changes then [BulkChangeCount (length changes)] else [])
  ++ (changes ≫= fun c => assess_one c live).

Definition dispatched_by_apply (c : Change) (prune : bool) : bool :=
  prune || negb (bool_decide (c_kind c = Delete)).

Definition dispatched (changes : list Change) (prune : bool) : list Change :=
  filter (fun c => dispatched_by_apply c prune = true) changes.

(** [{:7}] *)
Fixpoint pad_right (n : nat) (s : string) : string :=
  match n, s with
  | 0, _ => s
  | S n', String a s' => String a (pad_right n' s')
  | S n', "" => String " " (pad_right n' "")
  end.

Definition preflight_lines (n : nat) (risks : list StateRisk) : list string :=
  ("STATE PRE-FLIGHT (" +:+ pretty n +:+ " change" +:+ (if n =? 1 then "" else "s") +:+ "):")
  :: ((fun r => "  [" +:+ pad_right 7 (RiskLevel_as_str (level r)) +:+ "] " +:+ describe r) <$> risks).

Definition override_line : string :=
  "  --allow-risk passed; overriding SEVERE risk(s) and proceeding.".

Definition enforce_state_preflight (changes : list Change) (live : ClusterState)
    (force prune : bool) : list string * Result PreflightRefusal () :=
  let sent := dispatched changes prune in
  let risks := assess sent live in
  match risks with
  | [] => ([], Ok ())
  | _ =>
      let lines := preflight_lines (length sent) risks in
      let max := max_of (level <$> risks) in
      if bool_decide (max = Severe) && negb force then (lines, Err mk_PreflightRefusal)
      else if bool_decide (max = Severe) && force then (lines ++ [override_line], Ok ())
      else (lines, Ok ())
  end.

(** ** The gate *)
Lemma enforce_refuses changes live force prune :
  (enforce_state_preflight changes live force prune).2 = Err mk_PreflightRefusal <->
  force = false /\ exists r, r ∈ assess (dispatched changes prune) live /\ level r = Severe.
Proof.
  unfold enforce_state_preflight.
  assert ((exists r, r ∈ assess (dispatched changes prune) live /\ level r = Severe) <->
          max_of (level <$> assess (dispatched changes prune) live) = Severe) as ->.
  { rewrite max_of_severe, list_elem_of_fmap. naive_solver. }
  destruct (assess _ _) as [|r rs]; [simpl; naive_solver|].
  case_bool_decide; destruct force; simpl; naive_solver.
Qed.

(** A severe change among those sent refuses the run. *)
Lemma severe_change_refuses changes live prune c :
  c ∈ changes -> dispatched_by_apply c prune = true ->
  Severe ∈ level <$> assess_one c live ->
  (enforce_state_preflight changes live false prune).2 = Err mk_PreflightRefusal.
Proof.
  intros Hc Hd (r & Hr & Hin)%list_elem_of_fmap. apply enforce_refuses. split; [done|].
  exists r. split; [|done]. unfold assess. apply elem_of_app. right.
  apply list_elem_of_bind. exists c. split; [done|]. by apply list_elem_of_filter.
Qed.

(** ** The identity of an ACL entry, read back *)
Definition acl_subject_ok (a : AclDecl) : Prop :=
  has_char " " (acl_path a) = false /\ has_char "[" (acl_kind a) = false
  /\ has_char "/" (acl_kind a) = false /\ has_char "]" (acl_kind a) = false
  /\ acl_kind a <> "" /\ has_char "]" (acl_ugid a) = false.
#[export] Instance acl_subject_ok_dec a : Decision (acl_subject_ok a).
Proof. unfold acl_subject_ok. apply _. Defined.

Lemma trim_start_char_none c s t :
  has_char c s = false -> s <> "" -> trim_start_char c (s +:+ t) = s +:+ t.
Proof. destruct s as [|a s]; [done|]. simpl. by intros [-> _]%orb_false_iff _. Qed.

Lemma parse_acl_display a :
  acl_subject_ok a -> parse_acl_identity (acl_display a) = Some (acl_identity a).
Proof.
  intros (Hp & Hk1 & Hk2 & Hk3 & Hk4 & Hu). unfold parse_acl_identity, acl_display.
  change (" [" +:+ ?x) with (String " " (String "[" x)).
  rewrite split_once_char by done. cbn -[split_once trim_start_char String.append].
  cbn [trim_start_char Ascii.eqb Bool.eqb].
  rewrite trim_start_char_none by done.
  rewrite string_app_assoc, string_app_assoc.
  change ("] " +:+ ?x) with (String "]" (String " " x)).
  rewrite split_once_sep2.
  - cbn -[split_once String.append]. rewrite <-string_app_assoc.
    change ("/" +:+ ?x) with (String "/" x). by rewrite split_once_char.
  - rewrite !has_char_app, Hk3, Hu. done.
Qed.

(** ** [find] by a unique key *)
Lemma find_unique {A K} `{EqDecision K} (key : A -> K) (l : list A) x :
  NoDup (key <$> l) -> x ∈ l -> find (fun y => bool_decide (key y = key x)) l = Some x.
Proof.
  unfold find. induction l as [|y l IH]; [set_solver|]. rewrite fmap_cons.
  intros [Hy Hnd]%NoDup_cons [->|Hin]%elem_of_cons.
  - by rewrite filter_cons_True by (by apply bool_decide_eq_true).
  - rewrite filter_cons_False; [by apply IH|]. rewrite bool_decide_eq_true. intros Heq.
    apply Hy. rewrite Heq. apply list_elem_of_fmap. eauto.
Qed.
