(* ===== verification/StatePreflightSpec.v ===== *)
(** * What the risk gate guarantees of a plan

    [severe_plan declared live] says, in terms of the two documents alone,
    which plans are dangerous; the gate refuses every one of them unless risk
    is accepted. *)
From S2P Require Import Prelude Json StateModel StateSerde StateDiff StateDiffTheory.
From S2P Require Import StateDiffSpec StateLoad Guest StatePreflight.

Definition removed {A K} `{EqDecision K} (key : A -> K) (x : A) (declared live : list A) : Prop :=
  x ∈ live /\ key x ∉ key <$> declared.

(** The plans that must not run unattended.  The first seven remove an entry
    the live cluster has and the document lacks, so they need [prune]. *)
Inductive severe_plan (d l : ClusterState) : bool -> Prop :=
  | sp_pool p : manages d "pools" = true ->
      removed pool_poolid p (cs_pools d) (cs_pools l) -> pool_members p <> [] ->
      severe_plan d l true
  | sp_acl a : manages d "acl" = true ->
      removed acl_identity a (cs_acl d) (cs_acl l) -> role_in ROOT_LIKE_ROLES (acl_roleid a) = true ->
      severe_plan d l true
  | sp_storage s : manages d "storage" = true ->
      removed st_storage s (cs_storage d) (cs_storage l) -> st_shared s = true ->
      severe_plan d l true
  | sp_group g : manages d "firewall_groups" = true ->
      removed group_group g (cs_firewall_groups d) (cs_firewall_groups l) -> severe_plan d l true
  | sp_pci m : manages d "mappings_pci" = true ->
      removed pci_id m (cs_mappings_pci d) (cs_mappings_pci l) -> severe_plan d l true
  | sp_usb m : manages d "mappings_usb" = true ->
      removed usb_id m (cs_mappings_usb d) (cs_mappings_usb l) -> severe_plan d l true
  | sp_ha r : manages d "ha_resources" = true ->
      removed ha_sid r (cs_ha_resources d) (cs_ha_resources l) -> severe_plan d l true
  | sp_firewall_off o o' prune :
      cs_firewall_options d = Some o -> cs_firewall_options l = Some o' ->
      fwo_enable o = Some false -> fwo_enable o' = Some true -> severe_plan d l prune
  | sp_strict r r' prune : manages d "ha_rules" = true ->
      r ∈ cs_ha_rules d -> r' ∈ cs_ha_rules l -> hr_rule r = hr_rule r' ->
      hr_rule_type r = "node-affinity" -> hr_strict r <> hr_strict r' -> severe_plan d l prune
  | sp_bulk prune : 50 <= length (dispatched (diff d l) prune) -> severe_plan d l prune.

(** The two documents can be compared: distinct identities, and ACL subjects
    whose display can be read back. *)
Definition comparable (d l : ClusterState) : Prop :=
  unique_identities d /\ unique_identities l
  /\ Forall acl_subject_ok (cs_acl d) /\ Forall acl_subject_ok (cs_acl l).

(** ** A change of a managed family is in the diff *)
Lemma elem_of_diff f d l c :
  manages d (section_of f) = true -> c ∈ changes_of f d l -> c ∈ diff d l.
Proof.
  intros Hm Hc. assert (c ∈ of_resource (resource_of f) (diff d l)) as Hin.
  { rewrite of_resource_diff. unfold block. by rewrite Hm. }
  by apply list_elem_of_filter in Hin as [_ ?].
Qed.

Lemma removed_delete {A} `{!Serde A} r (key : A -> string) same x declared live :
  NoDup (key <$> live) -> removed key x declared live ->
  mk_delete r key x ∈ diff_family String.le r key key same declared live.
Proof.
  intros Hnd [Hx Hno]. apply family_change. exists (key x). left. exists x.
  by rewrite by_key_NoDup, by_key_None.
Qed.

Lemma removed_acl a declared live :
  NoDup (acl_check_key <$> live) -> removed acl_identity a declared live ->
  mk_delete "acl" acl_display a ∈ diff_acl declared live [].
Proof.
  intros Hnd%acl_identity_NoDup [Hx Hno]. unfold diff_acl. rewrite app_nil_l.
  apply family_change. exists (acl_identity a). left. exists a.
  by rewrite by_key_NoDup, by_key_None.
Qed.

(** ** Each dangerous removal is graded severe *)

(** Go to the branch of [assess_one] of a change whose kind and resource are known. *)
Ltac assess_branch :=
  unfold assess_one; cbn [c_kind c_resource mk_delete mk_update]; cbv zeta beta;
  json_keys; cbv iota.

Lemma pool_removal_severe p l :
  NoDup (pool_poolid <$> cs_pools l) -> p ∈ cs_pools l -> pool_members p <> [] ->
  Severe ∈ level <$> assess_one (mk_delete "pool" pool_poolid p) l.
Proof.
  intros Hnd Hp Hm. assess_branch. unfold assess_pool_delete. cbn [c_identity mk_delete].
  rewrite (find_unique pool_poolid) by done. destruct (pool_members p); [done|]. set_solver.
Qed.

Lemma acl_removal_severe a l :
  NoDup (acl_identity <$> cs_acl l) -> acl_subject_ok a -> a ∈ cs_acl l ->
  role_in ROOT_LIKE_ROLES (acl_roleid a) = true ->
  Severe ∈ level <$> assess_one (mk_delete "acl" acl_display a) l.
Proof.
  intros Hnd Hok Ha Hr. assess_branch. unfold assess_acl_delete, find_acl_by_identity.
  cbn [c_identity mk_delete]. rewrite parse_acl_display by done. cbn [mbind option_bind].
  rewrite (find_unique acl_identity) by done. rewrite Hr. set_solver.
Qed.

Lemma storage_removal_severe s l :
  NoDup (st_storage <$> cs_storage l) -> s ∈ cs_storage l -> st_shared s = true ->
  Severe ∈ level <$> assess_one (mk_delete "storage" st_storage s) l.
Proof.
  intros Hnd Hs Hsh. assess_branch. unfold assess_storage_delete.
  cbn [c_identity mk_delete]. rewrite (find_unique st_storage) by done. rewrite Hsh. set_solver.
Qed.

Lemma firewall_off_severe o o' l c :
  fwo_enable o = Some false -> fwo_enable o' = Some true ->
  c_kind c = Update -> c_resource c = "firewall_options" ->
  c_before c = Some (to_value o') -> c_after c = Some (to_value o) ->
  Severe ∈ level <$> assess_one c l.
Proof.
  intros Ho Ho' Hk Hr Hb Ha. unfold assess_one. rewrite Hk, Hr. cbv zeta. json_keys. cbv iota.
  unfold assess_options_update. rewrite Hb, Ha. cbn. rewrite Ho, Ho'. cbn. set_solver.
Qed.

Lemma strict_flip_severe r r' l :
  hr_rule_type r = "node-affinity" -> hr_strict r <> hr_strict r' ->
  Severe ∈ level <$> assess_one (mk_update "ha_rule" hr_rule r' r) l.
Proof.
  intros Ht Hs. assess_branch. unfold assess_ha_rule_update, decode_opt.
  cbn [c_before c_after mk_update mbind option_bind]. rewrite !from_to_value by done.
  cbn [result_ok]. rewrite Ht. rewrite bool_decide_eq_true_2 by done.
  rewrite bool_decide_eq_false_2 by done. simpl. set_solver.
Qed.

Lemma bulk_severe cs l : 50 <= length cs -> exists r, r ∈ assess cs l /\ level r = Severe.
Proof.
  intros Hn. exists (BulkChangeCount (length cs)). split.
  - unfold assess. destruct (Nat.leb_spec 10 (length cs)); [set_solver|lia].
  - unfold level. destruct (Nat.leb_spec 50 (length cs)); [done|lia].
Qed.

Lemma firewall_off_in_diff d l o o' :
  cs_firewall_options d = Some o -> cs_firewall_options l = Some o' ->
  fwo_enable o = Some false -> fwo_enable o' = Some true ->
  exists c, c ∈ diff d l /\ c_kind c = Update /\ c_resource c = "firewall_options"
    /\ c_before c = Some (to_value o') /\ c_after c = Some (to_value o).
Proof.
  intros Hd Hl Ho Ho'.
  exists {| c_kind := Update; c_resource := "firewall_options"; c_identity := "cluster";
            c_before := Some (to_value o'); c_after := Some (to_value o) |}.
  split_and!; [|done..].
  rewrite diff_blocks, !elem_of_app. right. left.
  unfold diff_firewall_options. rewrite Hd, Hl.
  assert (satisfied_by o o' = false) as ->; [|set_solver].
  unfold satisfied_by, opt_satisfied. by rewrite Ho, Ho'.
Qed.

Lemma strict_flip_in_diff d l r r' :
  manages d "ha_rules" = true -> NoDup (hr_rule <$> cs_ha_rules d) ->
  NoDup (hr_rule <$> cs_ha_rules l) -> r ∈ cs_ha_rules d -> r' ∈ cs_ha_rules l ->
  hr_rule r = hr_rule r' -> hr_strict r <> hr_strict r' ->
  mk_update "ha_rule" hr_rule r' r ∈ diff d l.
Proof.
  intros Hm Hd Hl Hr Hr' Hid Hs. apply (elem_of_diff HaRules); [done|].
  apply family_change. exists (hr_rule r). right. left. exists r', r.
  split_and!; [rewrite Hid; by apply by_key_NoDup|by apply by_key_NoDup| |done].
  unfold eqb_of. apply bool_decide_eq_false. intros ->. done.
Qed.

(** A removal is sent when pruning, and only then. *)
Lemma delete_refuses {A} `{!Serde A} f d l r (display : A -> string) x :
  manages d (section_of f) = true -> mk_delete r display x ∈ changes_of f d l ->
  Severe ∈ level <$> assess_one (mk_delete r display x) l ->
  (enforce_state_preflight (diff d l) l false true).2 = Err mk_PreflightRefusal.
Proof.
  intros Hm Hc Hs. eapply severe_change_refuses; [by eapply elem_of_diff|done|done].
Qed.

Lemma severe_plan_refused d l prune :
  comparable d l -> severe_plan d l prune ->
  (enforce_state_preflight (diff d l) l false prune).2 = Err mk_PreflightRefusal.
Proof.
  intros (Hud & Hul & Hsd & Hsl). unfold unique_identities in Hud, Hul. destruct_and! Hud.
  destruct_and! Hul. intros Hp.
  destruct Hp as [p Hm Hr Hmem|a Hm Hr Hrole|s Hm Hr Hsh|g Hm Hr|m Hm Hr|m Hm Hr|r Hm Hr
    |o o' prune Hd Hl Ho Ho'|r r' prune Hm Hr Hr' Hid Ht Hs|prune Hn].
  - apply (delete_refuses Pools _ _ "pool" pool_poolid p); [done|by apply removed_delete|].
    apply pool_removal_severe; [done|apply Hr|done].
  - apply (delete_refuses Acl _ _ "acl" acl_display a); [done|by apply removed_acl|].
    apply acl_removal_severe; [by apply acl_identity_NoDup| |apply Hr|done].
    eapply (proj1 (Forall_forall _ _) Hsl), Hr.
  - apply (delete_refuses Storage _ _ "storage" st_storage s); [done|by apply removed_delete|].
    apply storage_removal_severe; [done|apply Hr|done].
  - apply (delete_refuses FirewallGroups _ _ "firewall_group" group_group g); [done| |].
    { simpl. rewrite groups_as_family. by apply removed_delete. }
    set_solver.
  - apply (delete_refuses MappingsPci _ _ "mapping_pci" pci_id m); [done|by apply removed_delete|set_solver].
  - apply (delete_refuses MappingsUsb _ _ "mapping_usb" usb_id m); [done|by apply removed_delete|set_solver].
  - apply (delete_refuses HaResources _ _ "ha_resource" ha_sid r); [done|by apply removed_delete|set_solver].
  - destruct (firewall_off_in_diff _ _ _ _ Hd Hl Ho Ho') as (c & Hc & Hk & Hres & Hb & Ha).
    eapply severe_change_refuses; [done| |by eapply firewall_off_severe].
    unfold dispatched_by_apply. rewrite Hk. apply orb_true_r.
  - eapply severe_change_refuses; [by eapply (strict_flip_in_diff _ _ r r')| |by apply strict_flip_severe].
    unfold dispatched_by_apply. simpl. apply orb_true_r.
  - apply enforce_refuses. split; [done|]. by apply bulk_severe.
Qed.

(** ** The converse: what the gate refuses is one of those *)

(** A change found in the diff under a family's resource belongs to that family's block. *)
Lemma diff_change_of f d l c :
  c ∈ diff d l -> c_resource c = resource_of f ->
  manages d (section_of f) = true /\ c ∈ changes_of f d l.
Proof.
  intros Hc Hr. assert (c ∈ block f d l) as Hb.
  { rewrite <-of_resource_diff. by apply list_elem_of_filter. }
  unfold block in Hb. destruct (manages d (section_of f)); [done|]. set_solver.
Qed.

Lemma family_delete_inv {K A} `{Countable K} (leK : relation K) `{!RelDecision leK} `{!Serde A}
    r (key : A -> K) display same declared live c :
  c ∈ diff_family leK r key display same declared live -> c_kind c = Delete ->
  exists x, removed key x declared live /\ c = mk_delete r display x.
Proof.
  rewrite family_change. intros (k & Hc) Hk.
  destruct Hc as [(x & Hx & Hd & ->)|[(? & ? & _ & _ & _ & ->)|(? & _ & _ & ->)]]; [|done..].
  exists x. split; [|done]. apply by_key_Some in Hx as [Hin <-]. split; [done|].
  by apply by_key_None.
Qed.

Lemma family_update_inv {K A} `{Countable K} (leK : relation K) `{!RelDecision leK} `{!Serde A}
    r (key : A -> K) display same declared live c :
  c ∈ diff_family leK r key display same declared live -> c_kind c = Update ->
  exists x y, x ∈ declared /\ y ∈ live /\ key x = key y /\ c = mk_update r display y x.
Proof.
  rewrite family_change. intros (k & Hc) Hk.
  destruct Hc as [(? & _ & _ & ->)|[(y & x & Hy & Hx & _ & ->)|(? & _ & _ & ->)]]; [done| |done].
  apply by_key_Some in Hx as [Hx <-]. apply by_key_Some in Hy as [Hy Heq]. eauto 10.
Qed.

Ltac refute_severe := intros; exfalso; set_solver.

(** The removals the gate grades severe are exactly those of [severe_plan]. *)
Lemma severe_delete d l c :
  comparable d l -> c ∈ diff d l -> c_kind c = Delete ->
  Severe ∈ level <$> assess_one c l -> severe_plan d l true.
Proof.
  intros (Hud & Hul & Hsd & Hsl) Hc Hk. unfold unique_identities in Hul. destruct_and! Hul.
  destruct (diff_resources _ _ _ Hc) as [[f Hf]|Hf].
  2: { unfold assess_one. rewrite Hk, Hf. cbv zeta. json_keys. refute_severe. }
  destruct (diff_change_of f _ _ _ Hc Hf) as [Hm Hin].
  destruct f; simpl in Hin; try rewrite groups_as_family in Hin;
    apply family_delete_inv in Hin as (x & Hx & ->); try done; assess_branch; simpl;
    try (refute_severe).
  - unfold assess_pool_delete. cbn [c_identity mk_delete].
    rewrite (find_unique pool_poolid) by (done || apply Hx).
    intros. eapply sp_pool; [done|done|]. destruct (pool_members x); set_solver.
  - unfold assess_acl_delete, find_acl_by_identity. cbn [c_identity mk_delete].
    rewrite parse_acl_display by (eapply (proj1 (Forall_forall _ _) Hsl), Hx).
    cbn [mbind option_bind].
    rewrite (find_unique acl_identity); [|by apply acl_identity_NoDup|apply Hx].
    destruct (role_in ROOT_LIKE_ROLES (acl_roleid x)) eqn:Er; [by econstructor|].
    case_match; refute_severe.
  - unfold assess_storage_delete. cbn [c_identity mk_delete].
    rewrite (find_unique st_storage) by (done || apply Hx).
    destruct (st_shared x) eqn:Es; [by econstructor|refute_severe].
  - intros. by eapply sp_group.
  - intros. by eapply sp_ha.
  - intros. by eapply sp_pci.
  - intros. by eapply sp_usb.
Qed.

Lemma options_change_inv d l c :
  c ∈ diff d l -> c_resource c = "firewall_options" ->
  exists o, cs_firewall_options d = Some o /\ c_kind c = Update
    /\ c_before c = to_value <$> cs_firewall_options l /\ c_after c = Some (to_value o).
Proof.
  intros Hc Hr. assert (c ∈ of_resource "firewall_options" (diff d l)) as Hin
    by (by apply list_elem_of_filter).
  rewrite of_resource_diff_options in Hin. unfold diff_firewall_options in Hin.
  destruct (cs_firewall_options d) as [o|]; [|set_solver]. exists o.
  case_match; [set_solver|]. apply list_elem_of_singleton in Hin. by subst.
Qed.

(** What the "enable" field of written options reads as. *)
Lemma options_enable o : vget "enable" (to_value o) ≫= as_bool = fwo_enable o.
Proof.
  destruct o as [en pin pout pfw eb lr]. destruct en as [b|]; [by destruct b|].
  by destruct pin, pout, pfw, eb, lr.
Qed.

Lemma options_update_severe c o o' :
  c_before c = Some (to_value o') -> c_after c = Some (to_value o) ->
  Severe ∈ level <$> assess_options_update c ->
  fwo_enable o = Some false /\ fwo_enable o' = Some true.
Proof.
  intros Hb Ha. unfold assess_options_update. rewrite Hb, Ha. cbv zeta.
  rewrite !options_enable, fmap_app, elem_of_app. intros [Hs|Hs].
  - destruct (bool_decide (fwo_enable o' = Some true)) eqn:E1;
      destruct (bool_decide (fwo_enable o = Some false)) eqn:E2; simpl in Hs; try set_solver.
    apply bool_decide_eq_true in E1, E2. done.
  - exfalso. apply list_elem_of_fmap in Hs as (r & Hr & Hin).
    apply list_elem_of_omap in Hin as (dir & _ & Hd). case_match; by simplify_eq.
Qed.

Lemma update_not_severe c l :
  c_kind c = Update -> c_resource c <> "firewall_options" -> c_resource c <> "ha_rule" ->
  Severe ∉ level <$> assess_one c l.
Proof.
  intros Hk H1 H2. unfold assess_one. rewrite Hk. cbv zeta.
  rewrite (bool_decide_eq_false_2 _ H1), (bool_decide_eq_false_2 _ H2).
  repeat case_bool_decide; try set_solver.
  - unfold assess_acl_update. repeat case_match; set_solver.
  - unfold assess_storage_update. destruct (c_before c), (c_after c); try set_solver.
    intros (r & Hr & Hin)%list_elem_of_fmap.
    apply list_elem_of_omap in Hin as (f & _ & Hf). case_match; by simplify_eq.
  - unfold assess_ha_resource_update. repeat case_match; set_solver.
Qed.

Lemma severe_update d l c prune :
  comparable d l -> c ∈ diff d l -> c_kind c = Update ->
  Severe ∈ level <$> assess_one c l -> severe_plan d l prune.
Proof.
  intros _ Hc Hk Hs.
  destruct (decide (c_resource c = "firewall_options")) as [Ho|Ho].
  - destruct (options_change_inv _ _ _ Hc Ho) as (o & Hd & _ & Hb & Ha).
    unfold assess_one in Hs. rewrite Hk, Ho in Hs. cbv zeta in Hs. revert Hs. json_keys. intros Hs.
    destruct (cs_firewall_options l) as [o'|] eqn:Hl; simpl in Hb.
    + destruct (options_update_severe _ _ _ Hb Ha Hs). by eapply sp_firewall_off.
    + unfold assess_options_update in Hs. rewrite Hb in Hs. set_solver.
  - destruct (decide (c_resource c = "ha_rule")) as [Hr|Hr];
      [|by destruct (update_not_severe c l Hk Ho Hr Hs)].
    destruct (diff_change_of HaRules _ _ _ Hc Hr) as [Hm Hin].
    apply family_update_inv in Hin as (x & y & Hx & Hy & Hid & ->); [|done].
    revert Hs. assess_branch. unfold assess_ha_rule_update, decode_opt.
    cbn [c_before c_after mk_update mbind option_bind]. rewrite !from_to_value by done.
    cbn [result_ok]. case_bool_decide as Ht; [|set_solver].
    case_bool_decide as Hst; simpl; [set_solver|]. intros _.
    by eapply (sp_strict _ _ x y).
Qed.

(** C2: on comparable documents the gate refuses exactly the dangerous plans,
    and only when risk is not accepted.  Dangerous are: removing a pool that
    still has members, an administrator grant, a shared storage, a security
    group, a device mapping or an HA resource; switching the firewall off;
    flipping [strict] on a node-affinity rule; sending fifty changes at once.
    Everything below that tier is printed and goes ahead. *)
Theorem preflight_refuses_iff d l force prune :
  comparable d l ->
  (enforce_state_preflight (diff d l) l force prune).2 = Err mk_PreflightRefusal <->
  force = false /\ severe_plan d l prune.
Proof.
  intros Hcmp. split; [|by intros [-> ?]; apply severe_plan_refused].
  intros [-> (r & Hr & Hl)]%enforce_refuses. split; [done|].
  apply elem_of_app in Hr as [Hb|Hr].
  - apply sp_bulk. destruct (10 <=? _); [|set_solver].
    apply list_elem_of_singleton in Hb as ->. unfold level in Hl.
    destruct (Nat.leb_spec 50 (length (dispatched (diff d l) prune))); [done|].
    by destruct (10 <=? _).
  - apply list_elem_of_bind in Hr as (c & Hr & Hc). apply list_elem_of_filter in Hc as [Hd Hc].
    assert (Severe ∈ level <$> assess_one c l) as Hs by (apply list_elem_of_fmap; eauto).
    unfold dispatched_by_apply in Hd. destruct (c_kind c) eqn:Hk.
    + unfold assess_one in Hs. rewrite Hk in Hs. set_solver.
    + by eapply severe_update.
    + destruct prune; [by eapply severe_delete|done].
Qed.

(** Without pruning, the deletions in a change list have no part in the
    decision or in the text printed: the run is judged as if they were not
    there. *)
Lemma preflight_ignores_unpruned_deletes changes live force :
  enforce_state_preflight changes live force false
  = enforce_state_preflight (filter (fun c => c_kind c <> Delete) changes) live force true.
Proof.
  unfold enforce_state_preflight.
  assert (dispatched changes false
          = dispatched (filter (fun c => c_kind c <> Delete) changes) true) as ->; [|done].
  unfold dispatched, dispatched_by_apply. simpl.
  rewrite list_filter_filter. apply list_filter_iff. intros c.
  rewrite negb_true_iff, bool_decide_eq_false. tauto.
Qed.

Definition lockout_declared : ClusterState :=
  sample_state (Some {[ "acl" ]}) [] [sample_acl "/vms/100" "alice@pve" "PVEVMUser"] [].

Lemma preflight_refuses_iff_witness :
  (enforce_state_preflight (diff lockout_declared sample_live) sample_live false true).2
  = Err mk_PreflightRefusal.
Proof.
  apply preflight_refuses_iff.
  - split_and!; [apply validate_ok; vm_compute; reflexivity..|repeat constructor; discriminate|
      repeat constructor; discriminate].
  - split; [reflexivity|]. apply (sp_acl _ _ (sample_acl "/" "root@pam" "Administrator")).
    + vm_compute. reflexivity.
    + split; [set_solver|]. apply (bool_decide_unpack _). vm_compute. exact I.
    + vm_compute. reflexivity.
Defined.
