(* ===== verification/ApiError.v ===== *)
(** * API failures: src/api/error.rs, and the retry classifiers of
      src/api/transport.rs

    [ApiError] is the typed failure every layer downcasts to; [AnyErr] is what
    is left of an [anyhow::Error]: its message chain and the [ApiError] a
    downcast finds in it. *)
From S2P Require Import Prelude.

Inductive ApiError :=
  | Unauthorized (msg : string)
  | Forbidden (msg : string)
  | NotFound (msg : string)
  | RateLimited (msg : string)
  | PayloadTooLarge (msg : string)
  | StorageHang (msg : string)
  | Transport (msg : string)
  | Parse (path source : string)
  | Other (path : string) (status : N) (body : string).

(** ** Idempotency *)
Inductive RequestIdempotency := Idempotent | Mutation.
#[export] Instance RequestIdempotency_eq_dec : EqDecision RequestIdempotency.
Proof. solve_decision. Defined.

Definition is_mutation (i : RequestIdempotency) : bool :=
  match i with Mutation => true | Idempotent => false end.

(** HTTP methods by name. *)
Definition for_method (method : string) : RequestIdempotency :=
  if bool_decide (method = "GET") || bool_decide (method = "HEAD") then Idempotent else Mutation.

Definition is_retryable_status (s : N) : bool :=
  bool_decide (s ∈ [503; 429; 502; 504]%N).

Definition should_retry_status (i : RequestIdempotency) (status : N) (has_retry_after : bool) : bool :=
  match i with
  | Idempotent => is_retryable_status status
  | Mutation =>
      if (status =? 429)%N then true
      else if (status =? 503)%N then has_retry_after
      else false
  end.

Definition should_retry_error_flags (i : RequestIdempotency)
    (is_connect is_timeout is_tls_or_cert : bool) : bool :=
  if is_tls_or_cert then false
  else match i with
       | Idempotent => is_timeout || is_connect
       | Mutation => is_connect && negb is_timeout
       end.

Inductive RetryOutcome :=
  | HttpStatus (status : N) (has_retry_after : bool)
  | TransportError (is_connect is_timeout is_tls_or_cert : bool).

Definition should_retry (i : RequestIdempotency) (outcome : RetryOutcome) : bool :=
  match outcome with
  | HttpStatus status ra => should_retry_status i status ra
  | TransportError c t tls => should_retry_error_flags i c t tls
  end.

Definition should_retry_for_method (method : string) (outcome : RetryOutcome) : bool :=
  should_retry (for_method method) outcome.

(** ** Building an [ApiError]

    [show_status] is the [Display] of the HTTP library's status code. *)
Section FromStatus.
Context (show_status : N -> string).

Definition from_status (status : N) (path body : string) : ApiError :=
  if (status =? 401)%N then Unauthorized (path +:+ ": " +:+ body)
  else if (status =? 403)%N then Forbidden (path +:+ ": " +:+ body)
  else if (status =? 404)%N then NotFound (path +:+ ": " +:+ body)
  else if bool_decide (status ∈ [429; 502; 503; 504]%N)
  then RateLimited (path +:+ " " +:+ show_status status +:+ ": " +:+ body)
  else if bool_decide (status ∈ [594; 595; 596; 599]%N)
  then StorageHang (path +:+ " (" +:+ show_status status +:+ ")")
  else Other path status body.

Definition mutation_warning : string :=
  " (mutation was not retried; PVE may still have executed it — check `proxxx tasks` or the PVE task log before retrying)".

Definition from_status_with_idempotency (status : N) (path body : string)
    (i : RequestIdempotency) : ApiError :=
  if is_mutation i && ((502 <=? status)%N && (status <=? 504)%N)
  then RateLimited (path +:+ " " +:+ show_status status +:+ ": " +:+ body +:+ mutation_warning)
  else from_status status path body.
End FromStatus.

(** [format_error_chain]: the texts of the causes, outermost first. *)
Definition ends_with (p s : string) : bool :=
  bool_decide (String.length p <= String.length s)
  && bool_decide (String.substring (String.length s - String.length p) (String.length p) s = p).

Definition format_error_chain (outer : string) (causes : list string) : string :=
  foldl (fun chain cause =>
           if negb (is_empty cause) && negb (ends_with cause chain)
           then chain +:+ ": " +:+ cause else chain) outer causes.

Definition from_transport (context outer : string) (causes : list string) : ApiError :=
  Transport (context +:+ ": " +:+ format_error_chain outer causes).

Definition timeout_warning : string :=
  " (mutation was not retried after timeout; PVE may still have executed it — check `proxxx tasks` or the PVE task log before retrying)".

Definition from_transport_with_idempotency (context outer : string) (causes : list string)
    (is_timeout : bool) (i : RequestIdempotency) : ApiError :=
  if is_mutation i && is_timeout
  then Transport (context +:+ ": " +:+ format_error_chain outer causes +:+ timeout_warning)
  else from_transport context outer causes.

(** ** What an [ApiError] says *)
Definition exit_code (e : ApiError) : Z :=
  match e with
  | Unauthorized _ | Forbidden _ => 4
  | NotFound _ => 5
  | RateLimited _ | StorageHang _ => 7
  | Parse _ _ | Transport _ | PayloadTooLarge _ | Other _ _ _ => 1
  end.

Definition is_storage_hang (e : ApiError) : bool :=
  match e with StorageHang _ => true | _ => false end.
Definition is_unauthorized (e : ApiError) : bool :=
  match e with Unauthorized _ => true | _ => false end.
Definition is_not_found (e : ApiError) : bool :=
  match e with NotFound _ => true | _ => false end.

Definition may_have_executed : string := "may still have executed".

Definition actionable_hint (e : ApiError) : string :=
  match e with
  | Unauthorized _ =>
      "credentials rejected — re-run `proxxx init --interactive` to rotate the token, "
      +:+ "or verify $PROXXX_TOKEN_SECRET matches the live secret in PVE "
      +:+ "(`pveum user token list <user>`)"
  | Forbidden msg =>
      if contains "user != root@pam" msg
      then "PVE reserves this endpoint to the root@pam user itself: every API token "
           +:+ "is refused, root@pam's included, whatever the ACL grants; use a profile "
           +:+ "that logs in as root@pam with a password"
      else "token is valid but lacks the privilege for this op — inspect the ACL with "
           +:+ "`proxxx access acl` and grant the needed role on the affected path; "
           +:+ "`proxxx perms <user> --node <node>` shows effective rights"
  | NotFound _ =>
      "the resource doesn't exist on the cluster — it may have been deleted, "
      +:+ "renamed, or the vmid/storage/node name is wrong (try `proxxx ls guests` / "
      +:+ "`proxxx ls nodes` to enumerate)"
  | RateLimited msg =>
      if contains may_have_executed msg
      then "mutating request failed with 502/503/504 — proxxx did not retry to avoid "
           +:+ "duplicate execution; PVE may still have executed the mutation, so check "
           +:+ "`proxxx tasks` or the PVE task log before retrying"
      else "PVE returned 429/502/503/504 after proxxx's retry budget was exhausted — "
           +:+ "the cluster is overloaded; back off 30 s and retry, or check pveproxy "
           +:+ "load on the affected node"
  | StorageHang _ =>
      "PVE emitted a 59x status — a node's upstream service is hung, typically "
      +:+ "pvestatd or an NFS-backed storage; `proxxx ls nodes` shows which one is "
      +:+ "stale (uptime / last-seen vs the others)"
  | Transport msg =>
      if contains may_have_executed msg
      then "mutating request timed out after being sent — proxxx did not retry to avoid "
           +:+ "duplicate execution; PVE may still have executed the mutation, so check "
           +:+ "`proxxx tasks` or the PVE task log before retrying"
      else "network or TLS failure reaching the PVE URL — verify connectivity "
           +:+ "(`curl --cacert ... <url>/api2/json/version`), check that `verify_tls` "
           +:+ "in your profile matches the cluster's cert posture, and confirm DNS"
  | Parse _ _ =>
      "proxxx couldn't parse a PVE response as the expected JSON shape — likely "
      +:+ "schema drift between proxxx and your PVE version; re-run with "
      +:+ "`RUST_LOG=proxxx=debug` to log the failing request and file a bug with "
      +:+ "the `proxxx pve-version` output"
  | PayloadTooLarge _ =>
      "PVE response exceeded proxxx's 32 MiB cap — proxxx refuses to parse "
      +:+ "partial JSON; this typically means a node is emitting garbage (broken "
      +:+ "upstream, hostile proxy, or a runaway log endpoint)"
  | Other _ _ body =>
      if contains "does not exist" body
      then "PVE says the object does not exist — it may have been deleted or renamed, "
           +:+ "or the vmid/snapshot/storage name is wrong (`proxxx ls guests` and "
           +:+ "`proxxx ls storage` enumerate guests and storage)"
      else "PVE refused the request; the error above carries its HTTP status and "
           +:+ "PVE's own message. Check the pveproxy and pvedaemon journal on the "
           +:+ "affected node (`journalctl -u pveproxy -u pvedaemon`) for context"
  end.

(** [thiserror]'s [Display] of each variant. *)
Definition display (e : ApiError) : string :=
  match e with
  | Unauthorized m => "Proxmox rejected our credentials (HTTP 401 Unauthorized): " +:+ m
  | Forbidden m => "Proxmox refused (insufficient privileges): " +:+ m
  | NotFound m => "Proxmox resource not found: " +:+ m
  | RateLimited m => "Proxmox transient failure after retries: " +:+ m
  | PayloadTooLarge m => "response body exceeds size limit: " +:+ m
  | StorageHang m => "Proxmox storage/upstream hang (595) on " +:+ m
  | Transport m => "transport error: " +:+ m
  | Parse path source => "response parse error from " +:+ path +:+ ": " +:+ source
  | Other path status body =>
      "Proxmox " +:+ pretty status +:+ " from " +:+ path +:+ ": " +:+ body
  end.

(** ** [anyhow::Error] *)
Record AnyErr := {
  err_chain : list string;
  err_api : option ApiError;
}.

(** [anyhow::anyhow!] / [bail!], [.into()] and [.context()]. *)
Definition bail (msg : string) : AnyErr := {| err_chain := [msg]; err_api := None |}.
Definition of_api (e : ApiError) : AnyErr := {| err_chain := [display e]; err_api := Some e |}.
Definition context (c : string) (e : AnyErr) : AnyErr :=
  {| err_chain := c :: err_chain e; err_api := err_api e |}.

(** [format!("{e:#}")] *)
Definition show_err (e : AnyErr) : string := join ": " (err_chain e).

(** [extract_hint] *)
Definition extract_hint (e : AnyErr) : option string := actionable_hint <$> err_api e.

(** ** Facts *)
Lemma strip_prefix_app_r p s t r : strip_prefix p s = Some r -> strip_prefix p (s +:+ t) = Some (r +:+ t).
Proof. intros ->%strip_prefix_Some. rewrite <-string_app_assoc. apply strip_prefix_app. Qed.

Lemma contains_app_l p s t : contains p t = true -> contains p (s +:+ t) = true.
Proof.
  unfold contains. induction s as [|a s IH]; [done|]. intros Ht. simpl.
  destruct (strip_prefix p (String a (s +:+ t))); [done|]. apply IH in Ht. by destruct (split_once p (s +:+ t)).
Qed.

Lemma contains_app_r p s t : contains p s = true -> contains p (s +:+ t) = true.
Proof.
  unfold contains. induction s as [|a s IH]; intros Hs.
  - simpl in Hs. destruct (strip_prefix p "") eqn:E; [|done].
    apply (strip_prefix_app_r _ _ t) in E. simpl in E. destruct t; simpl in *; by rewrite E.
  - simpl in *. destruct (strip_prefix p (String a s)) eqn:E.
    + apply (strip_prefix_app_r _ _ t) in E. simpl in E. by rewrite E.
    + destruct (strip_prefix p (String a (s +:+ t))); [done|]. destruct (split_once p s); [|done].
      specialize (IH eq_refl). by destruct (split_once p (s +:+ t)).
Qed.

Lemma mutation_warning_contains : contains may_have_executed mutation_warning = true.
Proof. vm_compute. reflexivity. Qed.
Lemma timeout_warning_contains : contains may_have_executed timeout_warning = true.
Proof. vm_compute. reflexivity. Qed.

(** a mutation whose outcome is unknown (502, 503 or 504, or a timeout
    after it was sent) is always reported as one PVE may have executed,
    whatever path and body come with it, and a gateway failure exits with 7. *)
Lemma ambiguous_mutation_warned show_status status path body context outer causes :
  (502 <= status <= 504)%N ->
  (exists msg, from_status_with_idempotency show_status status path body Mutation = RateLimited msg
     /\ contains may_have_executed msg = true)
  /\ exit_code (from_status_with_idempotency show_status status path body Mutation) = 7%Z
  /\ exists msg, from_transport_with_idempotency context outer causes true Mutation = Transport msg
     /\ contains may_have_executed msg = true.
Proof.
  intros Hs. unfold from_status_with_idempotency, from_transport_with_idempotency.
  destruct (N.leb_spec 502 status); [|lia]. destruct (N.leb_spec status 504); [|lia].
  cbn [is_mutation andb]. split_and!.
  - eexists. split; [done|]. do 4 apply contains_app_l. apply contains_app_l, mutation_warning_contains.
  - done.
  - eexists. split; [done|]. do 3 apply contains_app_l. apply timeout_warning_contains.
Qed.

Lemma ambiguous_mutation_warned_witness :
  exit_code (from_status_with_idempotency (fun _ => "502 Bad Gateway") 502 "/nodes" "" Mutation) = 7%Z.
Proof.
  apply (ambiguous_mutation_warned (fun _ => "502 Bad Gateway") 502 "/nodes" "" "" "" []). lia.
Defined.
