(* ===== verification/UrlPath.v ===== *)
(** * Request paths: src/api/client.rs

    Percent-encoding of the values put into a path ([urlenc_segment]) or a
    query ([urlenc]), and the guard every request passes
    ([reject_path_traversal]).  The encoders are checked against a reference
    decoder, the guard against the dot-segments a URL parser resolves. *)
From S2P Require Import Prelude ApiError.

(** ** Encoders *)
Definition hex_digit (n : N) : ascii :=
  if (n <? 10)%N then ascii_of_N (48 + n) else ascii_of_N (55 + n).

(** [format!("%{b:02X}")] *)
Definition percent_byte (b : ascii) : string :=
  String "%" (String (hex_digit (N_of_ascii b / 16)) (String (hex_digit (N_of_ascii b mod 16)) "")).

Definition is_alnum (b : ascii) : bool :=
  let n := N_of_ascii b in
  ((65 <=? n) && (n <=? 90) || (97 <=? n) && (n <=? 122) || (48 <=? n) && (n <=? 57))%N.

Definition is_unreserved (b : ascii) : bool :=
  is_alnum b || bool_decide (b ∈ ["-"; "_"; "."; "~"]%char).

Definition is_segment_char (b : ascii) : bool :=
  is_alnum b || bool_decide (b ∈ ["-"; "_"; "."; "~"; ":"; "@"; "!"; "$"; "&"; "'"; "("; ")";
                                  "*"; "+"; ","; ";"; "="]%char).

Fixpoint encode_with (keep : ascii -> bool) (s : string) : string :=
  match s with
  | "" => ""
  | String b s' => (if keep b then String b "" else percent_byte b) +:+ encode_with keep s'
  end.

Definition urlenc_segment (s : string) : string := encode_with is_segment_char s.
Definition urlenc (s : string) : string := encode_with is_unreserved s.

(** [append_query] *)
Fixpoint query_pairs (first : bool) (query : list (string * string)) : string :=
  match query with
  | [] => ""
  | (k, v) :: q =>
      (if first then "" else "&") +:+ k +:+ "=" +:+ urlenc v +:+ query_pairs false q
  end.
Definition append_query (path : string) (query : list (string * string)) : string :=
  match query with [] => path | _ => path +:+ "?" +:+ query_pairs true query end.

(** ** The traversal guard *)

(** [str::replace] for a non-empty pattern: leftmost, non-overlapping. *)
Fixpoint replace_from (p to : string) (skip : nat) (s : string) : string :=
  match s with
  | "" => ""
  | String c s' =>
      match skip with
      | S k => replace_from p to k s'
      | 0 => if starts_with p s then to +:+ replace_from p to (String.length p - 1) s'
             else String c (replace_from p to 0 s')
      end
  end.
Definition replace (p to s : string) : string := replace_from p to 0 s.

(** [str::split] with a set of characters. *)
Fixpoint split_set (sep : ascii -> bool) (s : string) : list string :=
  match s with
  | "" => [""]
  | String a s' =>
      if sep a then "" :: split_set sep s'
      else match split_set sep s' with
           | [] => [String a ""]
           | w :: ws => String a w :: ws
           end
  end.

Definition traversal_sep (a : ascii) : bool := bool_decide (a ∈ ["/"; "?"; "&"; "="]%char).

Definition normalised_path (path : string) : string :=
  replace "%2f" "/" (replace "%2e" "." (to_ascii_lowercase path)).

Definition suspicious (path : string) : bool :=
  existsb (fun seg => bool_decide (seg = "..") || bool_decide (seg = "."))
    (split_set traversal_sep (normalised_path path)).

Definition reject_path_traversal (path : string) : Result AnyErr () :=
  if suspicious path
  then Err (bail ("refusing request path containing a relative segment: " +:+ debug_str path
                  +:+ " — a path component was built from an unencoded caller-supplied value"))
  else Ok ().

(** ** Reference definitions *)

(** RFC 3986 percent-decoding; a [%] without two hexadecimal digits stands for itself. *)
Definition hex_value (a : ascii) : option N :=
  let n := N_of_ascii a in
  if ((48 <=? n) && (n <=? 57))%N then Some (n - 48)%N
  else if ((65 <=? n) && (n <=? 70))%N then Some (n - 55)%N
  else if ((97 <=? n) && (n <=? 102))%N then Some (n - 87)%N
  else None.

Fixpoint percent_decode (s : string) : string :=
  match s with
  | "" => ""
  | String a s1 =>
      match s1 with
      | String h (String l s2) =>
          match (if Ascii.eqb a "%" then hex_value h else None), hex_value l with
          | Some x, Some y => String (ascii_of_N (16 * x + y)) (percent_decode s2)
          | _, _ => String a (percent_decode s1)
          end
      | _ => String a (percent_decode s1)
      end
  end.

(** The segments a URL parser resolves away (WHATWG URL, single- and
    double-dot path segments, letter case ignored). *)
Definition dot_segment (seg : string) : Prop :=
  to_ascii_lowercase seg
  ∈ ["."; "%2e"; ".."; ".%2e"; "%2e."; "%2e%2e"].

(** ** The encoders lose nothing and end no segment *)
Lemma hex_value_digit n : (n < 16)%N -> hex_value (hex_digit n) = Some n.
Proof.
  intros Hn. assert (n ∈ [0;1;2;3;4;5;6;7;8;9;10;11;12;13;14;15]%N) as Hin.
  { rewrite !elem_of_cons. lia. }
  repeat (apply elem_of_cons in Hin as [->|Hin]; [reflexivity|]). set_solver.
Qed.

Lemma percent_decode_byte b s :
  percent_decode (percent_byte b +:+ s) = String b (percent_decode s).
Proof.
  pose proof (N_ascii_bounded b) as Hb. unfold percent_byte. cbn [String.append percent_decode].
  rewrite Ascii.eqb_refl, !hex_value_digit.
  - f_equal. rewrite <-N.div_mod by done. apply ascii_N_embedding.
  - apply N.mod_lt. done.
  - apply N.Div0.div_lt_upper_bound. lia.
Qed.

Lemma percent_decode_keep a s :
  a <> "%"%char -> percent_decode (String a s) = String a (percent_decode s).
Proof.
  intros Ha. simpl. destruct s as [|h [|l s]]; try done.
  destruct (Ascii.eqb_spec a "%"); done.
Qed.

Lemma percent_decode_encode keep s :
  keep "%"%char = false -> percent_decode (encode_with keep s) = s.
Proof.
  intros Hk. induction s as [|b s IH]; [done|]. cbn [encode_with].
  destruct (keep b) eqn:Hb.
  - cbn [String.append]. rewrite percent_decode_keep, IH; [done|]. intros ->. congruence.
  - by rewrite percent_decode_byte, IH.
Qed.

Lemma hex_digit_range n c :
  (n < 16)%N -> is_alnum c = false -> Ascii.eqb (hex_digit n) c = false.
Proof.
  intros Hn Hc. assert (n ∈ [0;1;2;3;4;5;6;7;8;9;10;11;12;13;14;15]%N) as Hin.
  { rewrite !elem_of_cons. lia. }
  destruct (Ascii.eqb_spec (hex_digit n) c) as [<-|]; [exfalso|done].
  repeat (apply elem_of_cons in Hin as [->|Hin]; [vm_compute in Hc; discriminate|]). set_solver.
Qed.

Lemma encode_has_no keep c s :
  keep c = false -> is_alnum c = false -> c <> "%"%char ->
  has_char c (encode_with keep s) = false.
Proof.
  intros Hk Ha Hp. induction s as [|b s IH]; [done|]. cbn [encode_with].
  rewrite has_char_app, IH, orb_false_r. destruct (keep b) eqn:Hb;
    unfold percent_byte; cbn [has_char].
  - rewrite orb_false_r. destruct (Ascii.eqb_spec b c); [congruence|done].
  - pose proof (N_ascii_bounded b). rewrite !hex_digit_range; [|apply N.mod_lt; done|done|
      apply N.Div0.div_lt_upper_bound; lia|done].
    destruct (Ascii.eqb_spec "%" c); [congruence|done].
Qed.

(** percent-encoding a value for a path segment or a query value loses
    nothing (decoding gives the value back, so distinct values give distinct
    paths), and the encoded text holds no character that ends a segment. *)
Lemma urlenc_roundtrip s :
  percent_decode (urlenc_segment s) = s /\ percent_decode (urlenc s) = s
  /\ Forall (fun c => has_char c (urlenc_segment s) = false) ["/"; "?"; "#"]%char
  /\ Forall (fun c => has_char c (urlenc s) = false) ["/"; "?"; "#"; "&"; "="; "+"]%char.
Proof.
  split_and!; [by apply percent_decode_encode..| |];
    repeat constructor; by apply encode_has_no.
Qed.

(** ** The guard *)
Lemma to_ascii_lowercase_app a b :
  to_ascii_lowercase (a +:+ b) = to_ascii_lowercase a +:+ to_ascii_lowercase b.
Proof. induction a; [done|]. simpl. by f_equal. Qed.

Lemma starts_with_boundary p a c b :
  has_char c p = false -> starts_with p (a +:+ String c b) = starts_with p a.
Proof.
  unfold starts_with. revert a. induction p as [|x p IH]; intros a Hp.
  - destruct a; done.
  - simpl in Hp. apply orb_false_iff in Hp as [Hx Hp]. destruct a as [|y a]; simpl.
    + by rewrite Hx.
    + destruct (Ascii.eqb x y); [by apply IH|done].
Qed.

Lemma starts_with_length p a : starts_with p a = true -> String.length p <= String.length a.
Proof.
  unfold starts_with. destruct (strip_prefix p a) as [r|] eqn:E; [|done]. intros _.
  apply strip_prefix_Some in E as ->. clear. induction p; simpl; lia.
Qed.

(** A replacement does not reach across a character the pattern lacks. *)
Lemma replace_from_boundary p to c b a skip :
  p <> "" -> has_char c p = false -> skip <= String.length a ->
  replace_from p to skip (a +:+ String c b)
  = replace_from p to skip a +:+ String c (replace_from p to 0 b).
Proof.
  intros Hne Hp. revert skip. induction a as [|x a IH]; intros skip Hs.
  - simpl in Hs. assert (skip = 0) as -> by lia. cbn [String.append replace_from].
    assert (starts_with p (String c b) = false) as ->; [|done].
    etransitivity; [apply (starts_with_boundary p "" c b Hp)|]. by destruct p.
  - cbn [String.append replace_from]. destruct skip as [|k].
    + change (String x (a +:+ String c b)) with (String x a +:+ String c b).
      rewrite starts_with_boundary by done.
      destruct (starts_with p (String x a)) eqn:E.
      * apply starts_with_length in E. simpl in E.
        rewrite IH by lia. apply string_app_assoc.
      * rewrite IH by lia. done.
    + apply IH. simpl in Hs. lia.
Qed.

Lemma replace_boundary p to c a b :
  p <> "" -> has_char c p = false ->
  replace p to (a +:+ String c b) = replace p to a +:+ String c (replace p to b).
Proof. intros. apply replace_from_boundary; [done|done|lia]. Qed.

Lemma normalised_boundary a b :
  normalised_path (a +:+ String "/" b) = normalised_path a +:+ String "/" (normalised_path b).
Proof.
  unfold normalised_path. rewrite to_ascii_lowercase_app.
  change (to_ascii_lowercase (String "/" b)) with (String "/" (to_ascii_lowercase b)).
  by rewrite !replace_boundary.
Qed.

Lemma split_set_nonempty sep s : split_set sep s <> [].
Proof. destruct s; simpl; [done|]. case_match; [done|]. by case_match. Qed.

Lemma split_set_app sep a c b :
  sep c = true -> split_set sep (a +:+ String c b) = split_set sep a ++ split_set sep b.
Proof.
  intros Hc. induction a as [|x a IH]; simpl; [by rewrite Hc|].
  rewrite IH. destruct (sep x); [done|].
  pose proof (split_set_nonempty sep a). by destruct (split_set sep a).
Qed.

Lemma suspicious_app a b : suspicious (a +:+ String "/" b) = suspicious a || suspicious b.
Proof.
  unfold suspicious. rewrite normalised_boundary, split_set_app by done. apply existsb_app.
Qed.

Lemma split_char_cases c s :
  has_char c s = false \/ exists a b, s = a +:+ String c b /\ has_char c a = false.
Proof.
  induction s as [|x s IH]; [by left|]. simpl. destruct (Ascii.eqb_spec x c) as [->|].
  - right. by exists "", s.
  - destruct IH as [IH|(a & b & -> & Ha)]; [by left|]. right. exists (String x a), b.
    split; [done|]. simpl. destruct (Ascii.eqb_spec x c); done.
Qed.

Lemma existsb_segments (P : string -> bool) n s :
  String.length s <= n ->
  (forall a b, P (a +:+ String "/" b) = P a || P b) ->
  existsb P (split_char "/" s) = P s.
Proof.
  intros Hn HP. revert s Hn. induction n as [|n IH]; intros s Hn.
  { destruct s; simpl in *; [by rewrite orb_false_r|lia]. }
  destruct (split_char_cases "/" s) as [Hs|(a & b & -> & Ha)].
  - rewrite split_char_none by done. simpl. apply orb_false_r.
  - rewrite split_char_app by done. simpl. rewrite HP, IH; [done|].
    assert (String.length (a +:+ String "/" b) = String.length a + S (String.length b)) as Hl.
    { clear. induction a; simpl; lia. }
    lia.
Qed.

(** a request path that passes the guard holds no segment a URL parser
    would resolve as [.] or [..], however the dots and letters are written; so
    the request reaches the endpoint its path names. *)
Lemma accepted_path_has_no_dot_segment path :
  reject_path_traversal path = Ok () ->
  Forall (fun seg => ~ dot_segment seg) (split_char "/" path).
Proof.
  unfold reject_path_traversal. destruct (suspicious path) eqn:Hs; [done|]. intros _.
  rewrite <-(existsb_segments suspicious (String.length path)) in Hs by (lia || apply suspicious_app).
  apply Forall_forall. intros seg Hseg Hdot. apply list_elem_of_In in Hseg.
  assert (suspicious seg = true) as Hsus.
  { unfold suspicious, normalised_path. unfold dot_segment in Hdot.
    repeat (apply elem_of_cons in Hdot as [->|Hdot]; [reflexivity|]). set_solver. }
  rewrite <-not_true_iff_false in Hs. apply Hs, existsb_exists. eauto.
Qed.

(** The guard is needed and sufficient for encoded values: a value that names
    a dot-segment is refused, an ordinary one passes. *)
Lemma accepted_path_has_no_dot_segment_witness :
  reject_path_traversal ("/nodes/" +:+ urlenc_segment ".." +:+ "/qemu") <> Ok () /\
  Forall (fun seg => ~ dot_segment seg) (split_char "/" ("/nodes/" +:+ urlenc_segment "pve 1" +:+ "/qemu")).
Proof.
  split; [vm_compute; discriminate|].
  apply accepted_path_has_no_dot_segment. vm_compute. reflexivity.
Defined.
