(* ===== verification/Transport.v ===== *)
(** * Sending a request: src/api/transport.rs and [PxClient::send_with_retry]
      of src/api/client.rs

    The retry loop over an unknown network: the world [W] is threaded through
    [ensure_auth], [force_reauth] and one network attempt, all three
    parameters; what the loop does with each answer is the code's.  [trace]
    is the list of answers received, [sleeps] the delays taken. *)
From S2P Require Import Prelude ApiError UrlPath.

Definition RETRY_MAX_ATTEMPTS : N := 4.
Definition RETRY_BASE_DELAY_MS : N := 100.

(** What the client reads of a transport error and of a response, whose body comes in chunks. *)
Record ReqwestError := {
  re_connect : bool;
  re_timeout : bool;
  re_rustls : bool;
  re_text : string;
  re_causes : list string;
}.
Record Body := {
  body_length : option N;
  body_encoding : option string;
  body_chunks : list (ReqwestError + string);
}.
Record Response := {
  resp_status : N;
  resp_retry_after : option string;
  resp_body : Body;
}.

(** [re_rustls] is the walk of the cause chain by downcast; the text is the fallback. *)
Definition is_tls_or_cert_error (e : ReqwestError) : bool :=
  re_rustls e ||
  (let chain := to_ascii_lowercase (format_error_chain (re_text e) (re_causes e)) in
   contains "certificate" chain || contains "pin mismatch" chain
   || contains "unknownissuer" chain || contains "badsignature" chain
   || contains "handshakefailure" chain || contains "invalid peer certificate" chain).

Definition should_retry_response (i : RequestIdempotency) (r : Response) : bool :=
  should_retry_status i (resp_status r)
    (match resp_retry_after r with Some _ => true | None => false end).

Definition should_retry_reqwest_error (i : RequestIdempotency) (e : ReqwestError) : bool :=
  should_retry_error_flags i (re_connect e) (re_timeout e) (is_tls_or_cert_error e).

(** [HeaderValue::to_str]: visible ASCII and tabs only. *)
Fixpoint visible_ascii (s : string) : bool :=
  match s with
  | "" => true
  | String a s' =>
      let n := N_of_ascii a in
      ((n =? 9)%N || ((32 <=? n) && (n <=? 126))%N) && visible_ascii s'
  end.
Definition retry_after_secs (r : Response) : option N :=
  h ← resp_retry_after r;
  if visible_ascii h then parse_uint u64_max (trim h) else None.

(** Milliseconds; [nanos] is the clock the jitter comes from. *)
Definition backoff_delay (attempt : N) (retry_after : option N) (nanos : N) : N :=
  match retry_after with
  | Some s => 1000 * N.min s 30
  | None =>
      let base := N.min u64_max (RETRY_BASE_DELAY_MS * 2 ^ N.min (attempt - 1) 8) in
      base + nanos mod (base / 4 + 1)
  end%N.

#[global] Arguments backoff_delay : simpl never.

Section SendWithRetry.
Context {W : Type} (ensure_auth force_reauth : SM W AnyErr ())
        (send : W -> (ReqwestError + Response) * W) (subsec_nanos : W -> N)
        (max_attempts : N) (i : RequestIdempotency) (path : string).

Record Run := {
  run_result : Result AnyErr Response;
  run_world : W;
  run_trace : list (ReqwestError + Response);
  run_sleeps : list N;
}.

Definition request_failed (e : ReqwestError) : AnyErr :=
  of_api (from_transport_with_idempotency ("request to " +:+ path +:+ " failed")
            (re_text e) (re_causes e) (re_timeout e) i).

Fixpoint send_loop (fuel : nat) (attempt : N) (auth_retry_done : bool) (w : W)
    (trace : list (ReqwestError + Response)) (sleeps : list N) : option Run :=
  match fuel with
  | 0 => None
  | S fuel' =>
      let attempt := (attempt + 1)%N in
      match ensure_auth w with
      | (Err e, w) => Some {| run_result := Err e; run_world := w; run_trace := trace; run_sleeps := sleeps |}
      | (Ok _, w) =>
          let '(result, w) := send w in
          let trace := trace ++ [result] in
          let stop r w := Some {| run_result := r; run_world := w; run_trace := trace; run_sleeps := sleeps |} in
          match result with
          | inr resp =>
              if (resp_status resp =? 401)%N && negb auth_retry_done && (1 <? max_attempts)%N
              then match force_reauth w with
                   | (Err _, w) => stop (Ok resp) w
                   | (Ok _, w) => send_loop fuel' attempt true w trace sleeps
                   end
              else if should_retry_response i resp && (attempt <? max_attempts)%N
              then send_loop fuel' attempt auth_retry_done w trace
                     (sleeps ++ [backoff_delay attempt (retry_after_secs resp) (subsec_nanos w)])
              else stop (Ok resp) w
          | inl e =>
              if should_retry_reqwest_error i e && (attempt <? max_attempts)%N
              then send_loop fuel' attempt auth_retry_done w trace
                     (sleeps ++ [backoff_delay attempt None (subsec_nanos w)])
              else stop (Err (request_failed e)) w
          end
      end
  end.

(** [fuel] bounds the passes of the loop; [attempts_bound] is always enough. *)
Definition send_with_retry (fuel : nat) (w : W) : option Run :=
  match reject_path_traversal path with
  | Err e => Some {| run_result := Err e; run_world := w; run_trace := []; run_sleeps := [] |}
  | Ok _ => send_loop fuel 0 false w [] []
  end.

Definition attempts_bound : nat := Nat.max 1 (N.to_nat max_attempts) + 1.

(** ** Termination and bounds *)
Definition attempts_left (attempt : N) (done : bool) : nat :=
  Nat.max 1 (N.to_nat max_attempts - N.to_nat attempt) + (if done then 0 else 1).

Lemma backoff_delay_bound attempt ra nanos : (backoff_delay attempt ra nanos <= 32000)%N.
Proof.
  unfold backoff_delay, RETRY_BASE_DELAY_MS. destruct ra as [s|]; [lia|].
  set (e := N.min (attempt - 1) 8).
  assert (2 ^ e <= 256)%N as He.
  { change 256%N with (2 ^ 8)%N. apply N.pow_le_mono_r; [done|]. unfold e. lia. }
  generalize dependent (2 ^ e)%N. intros pow He.
  set (base := N.min u64_max (100 * pow)).
  assert (base <= 25600)%N as Hb by (unfold base; transitivity (100 * pow)%N; [apply N.le_min_r|lia]).
  assert (base / 4 <= 6400)%N as Hq.
  { change 6400%N with (25600 / 4)%N. by apply N.Div0.div_le_mono. }
  clearbody base. generalize dependent (base / 4)%N. intros q Hq.
  assert (nanos mod (q + 1) < q + 1)%N as Hm by (apply N.mod_lt; lia).
  generalize dependent (nanos mod (q + 1))%N. intros r Hr. lia.
Qed.

Lemma send_loop_terminates fuel attempt adone w tr sl :
  attempts_left attempt adone <= fuel -> Forall (fun d => d <= 32000)%N sl ->
  exists r, send_loop fuel attempt adone w tr sl = Some r
    /\ length (run_trace r) <= length tr + attempts_left attempt adone
    /\ Forall (fun d => d <= 32000)%N (run_sleeps r).
Proof.
  revert attempt adone w tr sl. induction fuel as [|fuel IH]; intros attempt adone w tr sl Hf Hsl.
  { unfold attempts_left in Hf. lia. }
  simpl. destruct (ensure_auth w) as [[u|e] w1]; [|eexists; split; [done|]; simpl; split; [lia|done]].
  destruct (send w1) as [result w2].
  assert (length (tr ++ [result]) = S (length tr)) as Hlen by (rewrite length_app; simpl; lia).
  assert (1 <= attempts_left attempt adone) as H1 by (unfold attempts_left; lia).
  assert (forall sl' done' w', Forall (fun d => d <= 32000)%N sl' ->
    S (attempts_left (attempt + 1) done') <= attempts_left attempt adone ->
    exists r, send_loop fuel (attempt + 1) done' w' (tr ++ [result]) sl' = Some r
      /\ length (run_trace r) <= length tr + attempts_left attempt adone
      /\ Forall (fun d => d <= 32000)%N (run_sleeps r)) as Hnext.
  { intros sl' done' w' Hsl' Hle.
    destruct (IH (attempt + 1)%N done' w' (tr ++ [result]) sl') as (r & Hr & Hlr & Hs); [lia|done|].
    exists r. split; [done|]. split; [lia|done]. }
  assert (forall a nanos, Forall (fun d => d <= 32000)%N (sl ++ [backoff_delay (attempt + 1) a nanos])) as Hsl'.
  { intros a nanos. apply Forall_app. split; [done|]. repeat constructor. apply backoff_delay_bound. }
  destruct result as [e|resp].
  - destruct (should_retry_reqwest_error i e); destruct (N.ltb_spec (attempt + 1) max_attempts); simpl;
      [apply Hnext; [apply Hsl'|unfold attempts_left; lia]|eexists; split; [done|]; simpl; split; [lia|done]..].
  - destruct (_ && negb adone && _)%bool eqn:Ha.
    + destruct adone; [by rewrite andb_false_r in Ha|].
      destruct (force_reauth w2) as [[u'|e] w3];
        [apply Hnext; [done|unfold attempts_left; lia]|eexists; split; [done|]; simpl; split; [lia|done]].
    + destruct (should_retry_response i resp); destruct (N.ltb_spec (attempt + 1) max_attempts); simpl;
        [apply Hnext; [apply Hsl'|unfold attempts_left; lia]|eexists; split; [done|]; simpl; split; [lia|done]..].
Qed.

(** ** Which answers are retried *)

(** The answers that show the request was not processed: refused before
    processing (401, 429, 503 with a [Retry-After] header), or no connection
    was made. *)
Definition not_processed (o : ReqwestError + Response) : bool :=
  match o with
  | inr r => (resp_status r =? 401)%N || (resp_status r =? 429)%N
             || ((resp_status r =? 503)%N
                 && match resp_retry_after r with Some _ => true | None => false end)
  | inl e => re_connect e && negb (re_timeout e)
  end.

Lemma mutation_retry_response r :
  should_retry_response Mutation r = true -> not_processed (inr r) = true.
Proof.
  unfold should_retry_response, should_retry_status. simpl.
  destruct (resp_status r =? 429)%N; [by rewrite orb_true_r|].
  destruct (resp_status r =? 503)%N; [|done]. intros ->. by rewrite orb_true_r.
Qed.

Lemma mutation_retry_error e :
  should_retry_reqwest_error Mutation e = true -> not_processed (inl e) = true.
Proof.
  unfold should_retry_reqwest_error, should_retry_error_flags. by destruct (is_tls_or_cert_error e).
Qed.

(** Every answer but the last was one the loop may retry. *)
Lemma send_loop_retried fuel attempt adone w tr sl r :
  i = Mutation ->
  send_loop fuel attempt adone w tr sl = Some r ->
  Forall (fun o => not_processed o = true) tr ->
  exists before last, run_trace r = before ++ last
    /\ Forall (fun o => not_processed o = true) before /\ length last <= 1.
Proof.
  intros Hi. revert attempt adone w tr sl.
  induction fuel as [|fuel IH]; intros attempt adone w tr sl Hr Htr; [done|]. simpl in Hr.
  destruct (ensure_auth w) as [[u|e] w1].
  2: { simplify_eq/=. exists tr, []. rewrite app_nil_r. split_and!; [done|done|simpl; lia]. }
  destruct (send w1) as [result w2].
  assert (forall res w', Some {| run_result := res; run_world := w'; run_trace := tr ++ [result];
                                 run_sleeps := sl |} = Some r ->
    exists before last, run_trace r = before ++ last
      /\ Forall (fun o => not_processed o = true) before /\ length last <= 1) as Hstop.
  { intros res w' [= <-]. exists tr, [result]. split_and!; [done|done|simpl; lia]. }
  assert (not_processed result = true ->
          Forall (fun o => not_processed o = true) (tr ++ [result])) as Hnext.
  { intros. apply Forall_app. split; [done|]. by repeat constructor. }
  destruct result as [e|resp].
  - destruct (should_retry_reqwest_error i e && _) eqn:Hre; [|by eapply Hstop].
    apply andb_true_iff in Hre as [Hre _]. rewrite Hi in Hre.
    eapply IH; [done|]. by apply Hnext, mutation_retry_error.
  - destruct (_ && negb adone && _)%bool eqn:Ha.
    + destruct (force_reauth w2) as [[u'|e] w3]; [|by eapply Hstop].
      eapply IH; [done|]. apply Hnext. simpl.
      apply andb_true_iff in Ha as [[-> _]%andb_true_iff _]. done.
    + destruct (should_retry_response i resp && _) eqn:Hre; [|by eapply Hstop].
      apply andb_true_iff in Hre as [Hre _]. rewrite Hi in Hre.
      eapply IH; [done|]. by apply Hnext, mutation_retry_response.
Qed.
End SendWithRetry.

(** the retry loop always ends, after at most one request per attempt and
    one more for a re-authentication, and never sleeps longer than 32 seconds
    between two of them. *)
Lemma send_with_retry_terminates {W} (ensure_auth force_reauth : SM W AnyErr ()) send nanos
    max_attempts i path w :
  exists r, send_with_retry ensure_auth force_reauth send nanos max_attempts i path
              (attempts_bound max_attempts) w = Some r
    /\ length (run_trace r) <= attempts_bound max_attempts
    /\ Forall (fun d => d <= 32000)%N (run_sleeps r).
Proof.
  unfold send_with_retry. destruct (reject_path_traversal path).
  - destruct (send_loop_terminates ensure_auth force_reauth send nanos max_attempts i path
                (attempts_bound max_attempts) 0 false w [] []) as (r & Hr & Hl & Hs).
    + unfold attempts_left, attempts_bound. simpl. lia.
    + constructor.
    + exists r. split; [done|]. split; [|done].
      unfold attempts_left, attempts_bound in *. simpl in Hl. lia.
  - eexists. split; [done|]. simpl. split; [lia|constructor].
Qed.

(** C35: a mutation is executed at most once, whatever the network does:
    among the requests sent for one [POST], [PUT] or [DELETE], at most one can
    have been processed, given that PVE does not process a request it answers
    with 401, 429 or 503 plus [Retry-After], nor one whose connection was
    never made. *)
Theorem mutation_executed_at_most_once {W} (ensure_auth force_reauth : SM W AnyErr ()) send nanos
    max_attempts path fuel w r (processed : ReqwestError + Response -> bool) :
  (forall o, not_processed o = true -> processed o = false) ->
  send_with_retry ensure_auth force_reauth send nanos max_attempts Mutation path fuel w = Some r ->
  length (filter (fun o => processed o = true) (run_trace r)) <= 1.
Proof.
  intros Hp. unfold send_with_retry. destruct (reject_path_traversal path).
  2: { intros [= <-]. simpl. lia. }
  intros Hr.
  destruct (send_loop_retried ensure_auth force_reauth send nanos max_attempts Mutation path
              fuel 0 false w [] [] r eq_refl Hr) as (before & last & -> & Hb & Hl); [constructor|].
  rewrite filter_app, length_app.
  assert (filter (fun o => processed o = true) before = []) as ->.
  { induction Hb as [|o before Ho _ IH]; [done|].
    rewrite filter_cons_False; [done|]. by rewrite Hp. }
  simpl. pose proof (length_filter (fun o => processed o = true) last). lia.
Qed.

(** ** Reading the body *)
Definition MAX_RESPONSE_BYTES : N := 32 * 1024 * 1024.
Definition bytes_len (s : string) : N := N.of_nat (String.length s).

Section Body.
(** The gzip decoder of flate2, run to the end. *)
Context (gunzip : string -> Result string string) (path : string).

Definition gunzip_bounded (compressed : string) : Result AnyErr string :=
  match gunzip compressed with
  | Err e => Err (bail ("decompressing the gzip response from " +:+ path +:+ ": " +:+ e))
  | Ok out =>
      if (MAX_RESPONSE_BYTES <? bytes_len out)%N
      then Err (bail ("response from " +:+ path +:+ " exceeded " +:+ pretty MAX_RESPONSE_BYTES +:+ " bytes after decompression"))
      else Ok out
  end.
Fixpoint read_chunks (buf : string) (chunks : list (ReqwestError + string)) : Result AnyErr string :=
  match chunks with
  | [] => Ok buf
  | inl e :: _ => Err (of_api (from_transport ("reading response chunk from " +:+ path) (re_text e) (re_causes e)))
  | inr chunk :: rest =>
      if (MAX_RESPONSE_BYTES <? bytes_len buf + bytes_len chunk)%N
      then Err (bail ("response from " +:+ path +:+ " exceeded " +:+ pretty MAX_RESPONSE_BYTES +:+ " bytes mid-stream"))
      else read_chunks (buf +:+ chunk) rest
  end.
Definition is_gzip (b : Body) : bool :=
  match body_encoding b with
  | Some v => visible_ascii v && eq_ignore_ascii_case (trim v) "gzip"
  | None => false
  end.
Definition read_bounded_body (b : Body) : Result AnyErr string :=
  let read :=
    buf ← read_chunks "" (body_chunks b);
    if is_gzip b then gunzip_bounded buf else Ok buf in
  match body_length b with
  | Some declared =>
      if (MAX_RESPONSE_BYTES <? declared)%N
      then Err (bail ("response from " +:+ path +:+ " declares " +:+ pretty declared +:+ " bytes, exceeds "
                      +:+ pretty MAX_RESPONSE_BYTES +:+ " limit"))
      else read
  | None => read
  end.

(** Whatever the server sends, no more than the limit is kept. *)
Lemma read_chunks_bounded buf chunks text :
  (bytes_len buf <= MAX_RESPONSE_BYTES)%N -> read_chunks buf chunks = Ok text -> (bytes_len text <= MAX_RESPONSE_BYTES)%N.
Proof.
  revert buf. induction chunks as [|[e|chunk] rest IH]; intros buf Hb; cbn [read_chunks]; [by intros [= <-]|done|].
  destruct (N.ltb_spec MAX_RESPONSE_BYTES (bytes_len buf + bytes_len chunk)); [done|]. apply IH.
  unfold bytes_len in *. rewrite string_length_app. lia.
Qed.
Lemma read_bounded_body_bounded b text : read_bounded_body b = Ok text -> (bytes_len text <= MAX_RESPONSE_BYTES)%N.
Proof.
  assert (H : (buf ← read_chunks "" (body_chunks b); if is_gzip b then gunzip_bounded buf else Ok buf) = Ok text ->
    (bytes_len text <= MAX_RESPONSE_BYTES)%N).
  { intros (buf & Hb & H)%bind_Ok. destruct (is_gzip b).
    - unfold gunzip_bounded in H. destruct (gunzip buf) as [out|]; [|done].
      destruct (N.ltb_spec MAX_RESPONSE_BYTES (bytes_len out)); [done|]. by injection H as <-.
    - injection H as <-. apply (read_chunks_bounded "" (body_chunks b)); [|done]. vm_compute. discriminate. }
  unfold read_bounded_body. destruct (body_length b) as [d|]; [|done]. by destruct (MAX_RESPONSE_BYTES <? d)%N.
Qed.
End Body.
Definition no_body : Body := {| body_length := None; body_encoding := None; body_chunks := [] |}.

(** The server of the witness: answers 503 with [Retry-After], then accepts. *)
Definition busy_then_ok (n : nat) : (ReqwestError + Response) * nat :=
  match n with
  | 0 => (inr {| resp_status := 503; resp_retry_after := Some "1"; resp_body := no_body |}, 1)
  | S _ => (inr {| resp_status := 200; resp_retry_after := None; resp_body := no_body |}, S n)
  end.

Lemma mutation_executed_at_most_once_witness :
  exists r, send_with_retry (mret ()) (mret ()) busy_then_ok (fun _ => 0%N) RETRY_MAX_ATTEMPTS
              Mutation "/nodes/pve/qemu" 5 0 = Some r
    /\ length (run_trace r) = 2
    /\ length (filter (fun o => negb (not_processed o) = true) (run_trace r)) <= 1.
Proof.
  eexists. split; [vm_compute; reflexivity|]. split; [reflexivity|].
  eapply (mutation_executed_at_most_once (mret ()) (mret ()) busy_then_ok (fun _ => 0%N)
            RETRY_MAX_ATTEMPTS "/nodes/pve/qemu" 5 0 _ (fun o => negb (not_processed o))).
  - intros o ->. reflexivity.
  - vm_compute. reflexivity.
Defined.
