(* ===== verification/StateApply.v ===== *)
(** * Applying changes to a cluster: src/state/apply.rs

    [WriteCall] has one constructor per write method of the trait
    [StateWriteView]; a client is a function that performs a call on a world
    [W] and may fail.  Every [apply_*] function issues the calls of its source
    in the same order, stopping at the first error ([?]).  The two read
    methods of the trait are not used by this module. *)
From S2P Require Import Prelude Json StateModel StateSerde StateDiff ApiError.

Definition Params : Type := list (string * string).

Inductive WriteCall :=
  | create_pool_view (params : Params)
  | update_pool_view (poolid : string) (params : Params)
  | delete_pool_view (poolid : string)
  | modify_acl_view (path roles : string) (users groups tokens : option string)
      (propagate delete : bool)
  | create_cluster_storage_view (params : Params)
  | update_cluster_storage_view (storage : string) (params : Params)
  | delete_cluster_storage_view (storage : string)
  | create_backup_job_view (params : Params)
  | update_backup_job_view (id : string) (params : Params)
  | delete_backup_job_view (id : string)
  | update_cluster_firewall_options_view (params : Params)
  | create_cluster_firewall_alias_view (params : Params)
  | update_cluster_firewall_alias_view (name : string) (params : Params)
  | delete_cluster_firewall_alias_view (name : string)
  | create_cluster_firewall_ipset_view (params : Params)
  | delete_cluster_firewall_ipset_view (name : string)
  | add_cluster_firewall_ipset_cidr_view (name : string) (params : Params)
  | remove_cluster_firewall_ipset_cidr_view (name cidr : string)
  | create_cluster_firewall_group_view (params : Params)
  | delete_cluster_firewall_group_view (group : string)
  | create_notification_matcher_view (params : Params)
  | update_notification_matcher_view (name : string) (params : Params)
  | delete_notification_matcher_view (name : string)
  | create_ha_rule_view (params : Params)
  | update_ha_rule_view (rule : string) (params : Params)
  | delete_ha_rule_view (rule : string)
  | create_ha_resource_view (params : Params)
  | update_ha_resource_view (sid : string) (params : Params)
  | delete_ha_resource_view (sid : string)
  | create_mapping_pci_view (params : Params)
  | update_mapping_pci_view (id : string) (params : Params)
  | delete_mapping_pci_view (id : string)
  | create_mapping_usb_view (params : Params)
  | update_mapping_usb_view (id : string) (params : Params)
  | delete_mapping_usb_view (id : string).

Record ApplyOptions := {
  opt_dry_run : bool;
  opt_prune : bool;
  opt_continue_on_error : bool;
}.

Inductive SkipReason := DryRun | PrunePolicy | AbortedByPrior.

Inductive ApplyResult :=
  | Applied
  | Skipped (reason : SkipReason)
  | Failed (error : string).

Record ApplyOutcome := {
  out_change : Change;
  out_result : ApplyResult;
}.

(** ** Parameters *)

(** [push_optional] as an expression: the pairs it appends. *)
Definition opt_param (key value : string) : Params :=
  if is_empty value then [] else [(key, value)].
Definition push_optional (params : Params) (key value : string) : Params :=
  params ++ opt_param key value.

Definition split_pool_members (members : list string) : string * string :=
  let vm m := match strip_prefix "qemu/" m with
              | Some id => Some id
              | None => strip_prefix "lxc/" m
              end in
  let vms := omap vm members in
  let storage := omap (fun m => match vm m with
                                | Some _ => None
                                | None => strip_prefix "storage/" m
                                end) members in
  (join "," vms, join "," storage).

Definition members_diff (a b : list string) : list string :=
  filter (fun m => m ∉ b) a.

(** The [vms] and [storage] parameters of a member list. *)
Definition member_params (members : list string) : Params :=
  let '(vms_csv, storage_csv) := split_pool_members members in
  opt_param "vms" vms_csv ++ opt_param "storage" storage_csv.

Definition pool_create_params (d : PoolDecl) : Params :=
  ("poolid", pool_poolid d) :: opt_param "comment" (pool_comment d).

Definition storage_create_params (d : StorageDecl) : Params :=
  [("storage", st_storage d); ("type", st_storage_type d)]
  ++ opt_param "content" (st_content d) ++ opt_param "nodes" (st_nodes d)
  ++ (if st_disable d then [("disable", "1")] else [])
  ++ (if st_shared d then [("shared", "1")] else [])
  ++ opt_param "path" (st_path d) ++ opt_param "pool" (st_pool d)
  ++ opt_param "server" (st_server d) ++ opt_param "export" (st_export d)
  ++ opt_param "datastore" (st_datastore d) ++ opt_param "fingerprint" (st_fingerprint d)
  ++ opt_param "username" (st_username d) ++ opt_param "vgname" (st_vgname d)
  ++ opt_param "thinpool" (st_thinpool d).

Definition immutable_fields (b a : StorageDecl) : list string :=
  (filter (fun x : string * (string * string) => x.2.1 <> x.2.2)
     [("type", (st_storage_type b, st_storage_type a)); ("path", (st_path b, st_path a));
      ("export", (st_export b, st_export a)); ("datastore", (st_datastore b, st_datastore a));
      ("vgname", (st_vgname b, st_vgname a)); ("thinpool", (st_thinpool b, st_thinpool a))]).*1.

(** One pass of the two loops: the pairs pushed and the fields to delete. *)
Definition text_field (name b a : string) (is_csv : bool) : Params * list string :=
  let same := if is_csv then bool_decide (normalize_csv b = normalize_csv a) else bool_decide (b = a) in
  if same then ([], [])
  else if is_empty a then ([], [name]) else ([(name, a)], []).
Definition flag_field (name : string) (b a : bool) : Params * list string :=
  if bool_decide (b = a) then ([], [])
  else if a then ([(name, "1")], []) else ([], [name]).

Definition storage_update_params (b a : StorageDecl) : Result AnyErr (option Params) :=
  let immutable := immutable_fields b a in
  match immutable with
  | _ :: _ =>
      Err (bail ("storage `" +:+ st_storage a +:+ "`: " +:+ join ", " immutable
                 +:+ " cannot be changed in place (PVE fixes it when the storage is created); "
                 +:+ "recreate the storage to change it"))
  | [] =>
      let fields :=
        [text_field "content" (st_content b) (st_content a) true;
         text_field "nodes" (st_nodes b) (st_nodes a) true;
         text_field "pool" (st_pool b) (st_pool a) false;
         text_field "server" (st_server b) (st_server a) false;
         text_field "fingerprint" (st_fingerprint b) (st_fingerprint a) false;
         text_field "username" (st_username b) (st_username a) false;
         flag_field "disable" (st_disable b) (st_disable a);
         flag_field "shared" (st_shared b) (st_shared a)] in
      let params := fields ≫= fst in
      let delete := fields ≫= snd in
      let params := params ++ match delete with [] => [] | _ => [("delete", join "," delete)] end in
      Ok (match params with [] => None | _ => Some params end)
  end.

Definition backup_job_params (d : BackupJobDecl) (include_id : bool) : Params :=
  (if include_id then [("id", job_id d)] else [])
  ++ opt_param "schedule" (job_schedule d) ++ opt_param "storage" (job_storage d)
  ++ opt_param "mode" (job_mode d) ++ [("enabled", flag01 (job_enabled d))]
  ++ (if job_all d then [("all", "1")] else opt_param "vmid" (job_vmid d))
  ++ opt_param "node" (job_node d) ++ opt_param "mailto" (job_mailto d)
  ++ opt_param "compress" (job_compress d) ++ opt_param "comment" (job_comment d)
  ++ opt_param "notes-template" (job_notes_template d)
  ++ opt_param "prune-backups" (job_prune_backups d).

Definition given {A} (key : string) (f : A -> string) (v : option A) : Params :=
  match v with Some x => [(key, f x)] | None => [] end.
Definition fw_options_params (d : FirewallOptionsDecl) : Params :=
  given "enable" flag01 (fwo_enable d) ++ given "ebtables" flag01 (fwo_ebtables d)
  ++ given "policy_in" id (fwo_policy_in d) ++ given "policy_out" id (fwo_policy_out d)
  ++ given "policy_forward" id (fwo_policy_forward d)
  ++ given "log_ratelimit" id (fwo_log_ratelimit d).

Definition fw_alias_params (d : FirewallAliasDecl) (include_name : bool) : Params :=
  (if include_name then [("name", alias_name d)] else [])
  ++ [("cidr", alias_cidr d)] ++ opt_param "comment" (alias_comment d).

Definition repeated (key : string) (values : list string) : Params := (fun v => (key, v)) <$> values.

Definition mapping_pci_params (d : MappingPciDecl) (include_id : bool) : Params :=
  (if include_id then [("id", pci_id d)] else [])
  ++ [("description", pci_description d); ("mdev", flag01 (pci_mdev d))]
  ++ repeated "map" (pci_map d).
Definition mapping_usb_params (d : MappingUsbDecl) (include_id : bool) : Params :=
  (if include_id then [("id", usb_id d)] else [])
  ++ [("description", usb_description d)] ++ repeated "map" (usb_map d).

Definition fw_cidr_params (c : FirewallIpsetCidrDecl) : Params :=
  [("cidr", cidr_cidr c)] ++ opt_param "comment" (cidr_comment c)
  ++ (if cidr_nomatch c then [("nomatch", "1")] else []).
Definition ipset_params (d : FirewallIpsetDecl) : Params :=
  [("name", ipset_name d)] ++ opt_param "comment" (ipset_comment d).
Definition fw_group_params (d : FirewallGroupDecl) : Params :=
  [("group", group_group d)] ++ opt_param "comment" (group_comment d).

Definition notif_matcher_params (d : NotificationMatcherDecl) (include_name : bool) : Params :=
  (if include_name then [("name", nm_name d)] else [])
  ++ opt_param "comment" (nm_comment d)
  ++ repeated "target" (nm_target d) ++ repeated "match-field" (nm_match_field d)
  ++ repeated "match-severity" (nm_match_severity d) ++ opt_param "mode" (nm_mode d)
  ++ [("invert-match", flag01 (nm_invert_match d)); ("disable", flag01 (nm_disable d))].

(** [if cond { del.push(key) }], then [("delete", key)] for each. *)
Definition cleared (key : string) (b : bool) : Params := if b then [("delete", key)] else [].
Definition is_nil {A} (l : list A) : bool := match l with [] => true | _ => false end.

Definition notif_matcher_update_params (d : NotificationMatcherDecl) : Params :=
  notif_matcher_params d false
  ++ cleared "comment" (is_empty (nm_comment d)) ++ cleared "target" (is_nil (nm_target d))
  ++ cleared "match-field" (is_nil (nm_match_field d))
  ++ cleared "match-severity" (is_nil (nm_match_severity d))
  ++ cleared "mode" (is_empty (nm_mode d)).

Definition is_node_affinity (d : HaRuleDecl) : bool := bool_decide (hr_rule_type d = "node-affinity").
Definition is_resource_affinity (d : HaRuleDecl) : bool :=
  bool_decide (hr_rule_type d = "resource-affinity").

Definition ha_rule_params (d : HaRuleDecl) (include_rule_id : bool) : Params :=
  [("type", hr_rule_type d)]
  ++ (if include_rule_id then [("rule", hr_rule d)] else [])
  ++ (if is_nil (hr_resources d) then [] else [("resources", join "," (hr_resources d))])
  ++ opt_param "comment" (hr_comment d) ++ [("disable", flag01 (hr_disable d))]
  ++ (if is_node_affinity d
      then opt_param "nodes" (hr_nodes d) ++ [("strict", flag01 (hr_strict d))] else [])
  ++ (if is_resource_affinity d then opt_param "affinity" (hr_affinity d) else []).

Definition ha_rule_update_params (d : HaRuleDecl) : Params :=
  ha_rule_params d false
  ++ cleared "comment" (is_empty (hr_comment d)) ++ cleared "resources" (is_nil (hr_resources d))
  ++ cleared "nodes" (is_node_affinity d && is_empty (hr_nodes d))
  ++ cleared "affinity" (is_resource_affinity d && is_empty (hr_affinity d)).

Definition resource_type (sid : string) : string :=
  match split_once ":" sid with Some (k, _) => k | None => "" end.

Definition ha_resource_params (d : HaResourceDecl) (include_sid : bool) : Params :=
  [("type", resource_type (ha_sid d))]
  ++ (if include_sid then [("sid", ha_sid d)] else [])
  ++ opt_param "state" (ha_state d)
  ++ (if (0 <? ha_max_restart d)%N then [("max_restart", pretty (ha_max_restart d))] else [])
  ++ (if (0 <? ha_max_relocate d)%N then [("max_relocate", pretty (ha_max_relocate d))] else [])
  ++ (if ha_failback d then [] else [("failback", "0")])
  ++ (if ha_auto_rebalance d then [] else [("auto-rebalance", "0")])
  ++ opt_param "comment" (ha_comment d).

Definition ha_resource_update_params (d : HaResourceDecl) : Params :=
  ha_resource_params d false
  ++ cleared "state" (is_empty (ha_state d)) ++ cleared "comment" (is_empty (ha_comment d))
  ++ cleared "max_restart" (ha_max_restart d =? 0)%N
  ++ cleared "max_relocate" (ha_max_relocate d =? 0)%N.

(** ** Decoding a change *)

(** [v.context(missing)?] then [serde_json::from_value(..).context(ctx)?] *)
Definition decode_with {A} `{!Serde A} (missing ctx : string) (v : option Value) : Result AnyErr A :=
  match v with
  | None => Err (bail missing)
  | Some v => match from_value v with Ok a => Ok a | Err e => Err (context ctx (bail e)) end
  end.

Definition decode {A} `{!Serde A} (v : option Value) (what : string) : Result AnyErr A :=
  decode_with (what +:+ ": missing value") ("decoding " +:+ what) v.

(** The contexts of the pool, ACL, storage and backup-job functions. *)
Definition decode_side {A} `{!Serde A} (resource op type side : string) (v : option Value)
    : Result AnyErr A :=
  decode_with (resource +:+ " " +:+ op +:+ " change missing `" +:+ side +:+ "` value")
    ("decoding " +:+ type +:+ " from change." +:+ side) v.

(** ** One function per change shape *)
Section Apply.
Context {W : Type} (client : WriteCall -> SM W AnyErr ()).
Implicit Types (change : Change).

Definition apply_pool_create change : SM W AnyErr () :=
  d ← lift (decode_side (A := PoolDecl) "pool" "create" "PoolDecl" "after" (c_after change));
  client (create_pool_view (pool_create_params d)) ;;
  match member_params (pool_members d) with
  | [] => mret ()
  | ps => client (update_pool_view (pool_poolid d) ps)
  end.

Definition apply_pool_update change : SM W AnyErr () :=
  b ← lift (decode_side (A := PoolDecl) "pool" "update" "PoolDecl" "before" (c_before change));
  a ← lift (decode_side (A := PoolDecl) "pool" "update" "PoolDecl" "after" (c_after change));
  when (negb (bool_decide (pool_comment b = pool_comment a)))
    (client (update_pool_view (pool_poolid a) [("comment", pool_comment a)])) ;;
  let to_remove := members_diff (pool_members b) (pool_members a) in
  let to_add := members_diff (pool_members a) (pool_members b) in
  when (negb (is_nil to_remove))
    (client (update_pool_view (pool_poolid a) (("delete", "1") :: member_params to_remove))) ;;
  when (negb (is_nil to_add))
    (client (update_pool_view (pool_poolid a) (member_params to_add))).

Definition apply_pool_delete change : SM W AnyErr () :=
  d ← lift (decode_side (A := PoolDecl) "pool" "delete" "PoolDecl" "before" (c_before change));
  when (negb (is_nil (pool_members d)))
    (client (update_pool_view (pool_poolid d) (("delete", "1") :: member_params (pool_members d)))) ;;
  client (delete_pool_view (pool_poolid d)).

Definition modify_acl_for_decl (d : AclDecl) (delete : bool) : SM W AnyErr () :=
  let go users groups tokens :=
    client (modify_acl_view (acl_path d) (acl_roleid d) users groups tokens
              (acl_propagate d) delete) in
  if bool_decide (acl_kind d = "user") then go (Some (acl_ugid d)) None None
  else if bool_decide (acl_kind d = "group") then go None (Some (acl_ugid d)) None
  else if bool_decide (acl_kind d = "token") then go None None (Some (acl_ugid d))
  else throw (bail ("ACL kind '" +:+ acl_kind d
                    +:+ "' not supported by `modify_acl` — expected user / group / token")).

Definition apply_acl_create change : SM W AnyErr () :=
  d ← lift (decode_side "acl" "create" "AclDecl" "after" (c_after change));
  modify_acl_for_decl d false.
Definition apply_acl_delete change : SM W AnyErr () :=
  d ← lift (decode_side "acl" "delete" "AclDecl" "before" (c_before change));
  modify_acl_for_decl d true.
Definition apply_acl_update change : SM W AnyErr () :=
  b ← lift (decode_side "acl" "update" "AclDecl" "before" (c_before change));
  a ← lift (decode_side "acl" "update" "AclDecl" "after" (c_after change));
  modify_acl_for_decl b true ;;
  modify_acl_for_decl a false.

Definition apply_storage_create change : SM W AnyErr () :=
  d ← lift (decode_side (A := StorageDecl) "storage" "create" "StorageDecl" "after" (c_after change));
  client (create_cluster_storage_view (storage_create_params d)).
Definition apply_storage_update change : SM W AnyErr () :=
  b ← lift (decode_side (A := StorageDecl) "storage" "update" "StorageDecl" "before" (c_before change));
  a ← lift (decode_side (A := StorageDecl) "storage" "update" "StorageDecl" "after" (c_after change));
  ps ← lift (storage_update_params b a);
  match ps with
  | None => mret ()
  | Some params => client (update_cluster_storage_view (st_storage a) params)
  end.
Definition apply_storage_delete change : SM W AnyErr () :=
  d ← lift (decode_side (A := StorageDecl) "storage" "delete" "StorageDecl" "before" (c_before change));
  client (delete_cluster_storage_view (st_storage d)).

Definition apply_backupjob_create change : SM W AnyErr () :=
  d ← lift (decode_side (A := BackupJobDecl) "backup_job" "create" "BackupJobDecl" "after" (c_after change));
  client (create_backup_job_view (backup_job_params d true)).
Definition apply_backupjob_update change : SM W AnyErr () :=
  a ← lift (decode_side (A := BackupJobDecl) "backup_job" "update" "BackupJobDecl" "after" (c_after change));
  client (update_backup_job_view (job_id a) (backup_job_params a false)).
Definition apply_backupjob_delete change : SM W AnyErr () :=
  d ← lift (decode_side (A := BackupJobDecl) "backup_job" "delete" "BackupJobDecl" "before" (c_before change));
  client (delete_backup_job_view (job_id d)).

Definition apply_fw_options_update change : SM W AnyErr () :=
  a ← lift (decode (A := FirewallOptionsDecl) (c_after change) "firewall options");
  match fw_options_params a with
  | [] => mret ()
  | params => client (update_cluster_firewall_options_view params)
  end.

Definition apply_fw_alias_create change : SM W AnyErr () :=
  d ← lift (decode (A := FirewallAliasDecl) (c_after change) "firewall alias");
  client (create_cluster_firewall_alias_view (fw_alias_params d true)).
Definition apply_fw_alias_update change : SM W AnyErr () :=
  a ← lift (decode (A := FirewallAliasDecl) (c_after change) "firewall alias");
  client (update_cluster_firewall_alias_view (alias_name a) (fw_alias_params a false)).
Definition apply_fw_alias_delete change : SM W AnyErr () :=
  d ← lift (decode (A := FirewallAliasDecl) (c_before change) "firewall alias");
  client (delete_cluster_firewall_alias_view (alias_name d)).

Definition apply_mapping_pci_create change : SM W AnyErr () :=
  d ← lift (decode (A := MappingPciDecl) (c_after change) "PCI mapping");
  client (create_mapping_pci_view (mapping_pci_params d true)).
Definition apply_mapping_pci_update change : SM W AnyErr () :=
  a ← lift (decode (A := MappingPciDecl) (c_after change) "PCI mapping");
  client (update_mapping_pci_view (pci_id a) (mapping_pci_params a false)).
Definition apply_mapping_pci_delete change : SM W AnyErr () :=
  d ← lift (decode (A := MappingPciDecl) (c_before change) "PCI mapping");
  client (delete_mapping_pci_view (pci_id d)).
Definition apply_mapping_usb_create change : SM W AnyErr () :=
  d ← lift (decode (A := MappingUsbDecl) (c_after change) "USB mapping");
  client (create_mapping_usb_view (mapping_usb_params d true)).
Definition apply_mapping_usb_update change : SM W AnyErr () :=
  a ← lift (decode (A := MappingUsbDecl) (c_after change) "USB mapping");
  client (update_mapping_usb_view (usb_id a) (mapping_usb_params a false)).
Definition apply_mapping_usb_delete change : SM W AnyErr () :=
  d ← lift (decode (A := MappingUsbDecl) (c_before change) "USB mapping");
  client (delete_mapping_usb_view (usb_id d)).

Definition add_cidr (name : string) (c : FirewallIpsetCidrDecl) : SM W AnyErr () :=
  client (add_cluster_firewall_ipset_cidr_view name (fw_cidr_params c)).
Definition remove_cidr (name : string) (c : FirewallIpsetCidrDecl) : SM W AnyErr () :=
  client (remove_cluster_firewall_ipset_cidr_view name (cidr_cidr c)).

Definition apply_fw_ipset_create change : SM W AnyErr () :=
  d ← lift (decode (A := FirewallIpsetDecl) (c_after change) "firewall ipset");
  client (create_cluster_firewall_ipset_view (ipset_params d)) ;;
  for_each (add_cidr (ipset_name d)) (ipset_cidrs d).
Definition apply_fw_ipset_delete change : SM W AnyErr () :=
  d ← lift (decode (A := FirewallIpsetDecl) (c_before change) "firewall ipset");
  for_each (remove_cidr (ipset_name d)) (ipset_cidrs d) ;;
  client (delete_cluster_firewall_ipset_view (ipset_name d)).

(** [match m.get(x.cidr) { Some(y) if *y == x => {}, _ => f(x) }] *)
Definition unless_same (other : gmap string FirewallIpsetCidrDecl)
    (f : FirewallIpsetCidrDecl -> SM W AnyErr ()) (x : FirewallIpsetCidrDecl) : SM W AnyErr () :=
  when (negb (bool_decide (other !! cidr_cidr x = Some x))) (f x).

Definition apply_fw_ipset_update change : SM W AnyErr () :=
  b ← lift (decode (A := FirewallIpsetDecl) (c_before change) "firewall ipset");
  a ← lift (decode (A := FirewallIpsetDecl) (c_after change) "firewall ipset");
  if negb (bool_decide (ipset_comment b = ipset_comment a))
  then
    for_each (remove_cidr (ipset_name b)) (ipset_cidrs b) ;;
    client (delete_cluster_firewall_ipset_view (ipset_name b)) ;;
    client (create_cluster_firewall_ipset_view (ipset_params a)) ;;
    for_each (add_cidr (ipset_name a)) (ipset_cidrs a)
  else
    let before_by := by_key cidr_cidr (ipset_cidrs b) in
    let after_by := by_key cidr_cidr (ipset_cidrs a) in
    for_each (unless_same after_by (remove_cidr (ipset_name b))) (ipset_cidrs b) ;;
    for_each (unless_same before_by (add_cidr (ipset_name a))) (ipset_cidrs a).

Definition apply_fw_group_create change : SM W AnyErr () :=
  d ← lift (decode (A := FirewallGroupDecl) (c_after change) "firewall group");
  client (create_cluster_firewall_group_view (fw_group_params d)).
Definition apply_fw_group_delete change : SM W AnyErr () :=
  d ← lift (decode (A := FirewallGroupDecl) (c_before change) "firewall group");
  client (delete_cluster_firewall_group_view (group_group d)).

Definition apply_notif_matcher_create change : SM W AnyErr () :=
  d ← lift (decode (A := NotificationMatcherDecl) (c_after change) "notification matcher");
  client (create_notification_matcher_view (notif_matcher_params d true)).
Definition apply_notif_matcher_update change : SM W AnyErr () :=
  a ← lift (decode (A := NotificationMatcherDecl) (c_after change) "notification matcher");
  client (update_notification_matcher_view (nm_name a) (notif_matcher_update_params a)).
Definition apply_notif_matcher_delete change : SM W AnyErr () :=
  d ← lift (decode (A := NotificationMatcherDecl) (c_before change) "notification matcher");
  client (delete_notification_matcher_view (nm_name d)).

Definition apply_ha_rule_create change : SM W AnyErr () :=
  d ← lift (decode (A := HaRuleDecl) (c_after change) "HA rule");
  if is_empty (hr_rule_type d)
  then throw (bail ("HA rule '" +:+ hr_rule d
                    +:+ "' missing `type` — must be 'node-affinity' or 'resource-affinity'"))
  else client (create_ha_rule_view (ha_rule_params d true)).

(** The guard against a change of [type]. *)
Definition rule_type_guard (before : option Value) (a : HaRuleDecl) : Result AnyErr () :=
  match before with
  | None => Ok ()
  | Some _ =>
      b ← decode (A := HaRuleDecl) before "HA rule (before)";
      if negb (is_empty (hr_rule_type b)) && negb (is_empty (hr_rule_type a))
         && negb (bool_decide (hr_rule_type b = hr_rule_type a))
      then Err (bail ("HA rule '" +:+ hr_rule a +:+ "' type change (" +:+ hr_rule_type b +:+ " -> "
                      +:+ hr_rule_type a +:+ ") is not supported by PVE — "
                      +:+ "delete + re-create the rule with the new type"))
      else Ok ()
  end.

Definition apply_ha_rule_update change : SM W AnyErr () :=
  a ← lift (decode (A := HaRuleDecl) (c_after change) "HA rule");
  lift (rule_type_guard (c_before change) a) ;;
  client (update_ha_rule_view (hr_rule a) (ha_rule_update_params a)).

(** An error that downcasts to [ApiError::NotFound] counts as success. *)
Definition tolerate_not_found (m : SM W AnyErr ()) : SM W AnyErr () := fun w =>
  match m w with
  | (Err e, w') =>
      match err_api e with Some (NotFound _) => (Ok (), w') | _ => (Err e, w') end
  | r => r
  end.

Definition apply_ha_rule_delete change : SM W AnyErr () :=
  d ← lift (decode (A := HaRuleDecl) (c_before change) "HA rule");
  tolerate_not_found (client (delete_ha_rule_view (hr_rule d))).

Definition apply_ha_resource_create change : SM W AnyErr () :=
  d ← lift (decode (A := HaResourceDecl) (c_after change) "HA resource");
  if is_empty (ha_sid d) || negb (has_char ":" (ha_sid d))
  then throw (bail ("HA resource missing or malformed `sid` — expected `vm:<vmid>` or `ct:<vmid>`, got "
                    +:+ debug_str (ha_sid d)))
  else client (create_ha_resource_view (ha_resource_params d true)).
Definition apply_ha_resource_update change : SM W AnyErr () :=
  a ← lift (decode (A := HaResourceDecl) (c_after change) "HA resource");
  client (update_ha_resource_view (ha_sid a) (ha_resource_update_params a)).
Definition apply_ha_resource_delete change : SM W AnyErr () :=
  d ← lift (decode (A := HaResourceDecl) (c_before change) "HA resource");
  tolerate_not_found (client (delete_ha_resource_view (ha_sid d))).

(** ** Dispatch *)
Definition unhandled change : AnyErr :=
  bail ("unhandled change shape: resource=" +:+ c_resource change +:+ " kind="
        +:+ match c_kind change with Create => "Create" | Update => "Update" | Delete => "Delete" end).

Definition by_kind (create update delete : Change -> SM W AnyErr ()) change : SM W AnyErr () :=
  match c_kind change with
  | Create => create change | Update => update change | Delete => delete change
  end.
Definition no_handler change : SM W AnyErr () := throw (unhandled change).

(** The match on [(change.resource, change.kind)]. *)
Definition dispatch change : SM W AnyErr () :=
  let res r := bool_decide (c_resource change = r) in
  if res "pool" then by_kind apply_pool_create apply_pool_update apply_pool_delete change
  else if res "acl" then by_kind apply_acl_create apply_acl_update apply_acl_delete change
  else if res "storage"
  then by_kind apply_storage_create apply_storage_update apply_storage_delete change
  else if res "backup_job"
  then by_kind apply_backupjob_create apply_backupjob_update apply_backupjob_delete change
  else if res "firewall_options" then by_kind no_handler apply_fw_options_update no_handler change
  else if res "firewall_alias"
  then by_kind apply_fw_alias_create apply_fw_alias_update apply_fw_alias_delete change
  else if res "mapping_pci"
  then by_kind apply_mapping_pci_create apply_mapping_pci_update apply_mapping_pci_delete change
  else if res "mapping_usb"
  then by_kind apply_mapping_usb_create apply_mapping_usb_update apply_mapping_usb_delete change
  else if res "firewall_ipset"
  then by_kind apply_fw_ipset_create apply_fw_ipset_update apply_fw_ipset_delete change
  else if res "firewall_group"
  then by_kind apply_fw_group_create no_handler apply_fw_group_delete change
  else if res "notification_matcher"
  then by_kind apply_notif_matcher_create apply_notif_matcher_update apply_notif_matcher_delete change
  else if res "ha_rule" then by_kind apply_ha_rule_create apply_ha_rule_update apply_ha_rule_delete change
  else if res "ha_resource"
  then by_kind apply_ha_resource_create apply_ha_resource_update apply_ha_resource_delete change
  else no_handler change.

Definition apply_one change (w : W) : ApplyResult * W :=
  match dispatch change w with
  | (Ok _, w') => (Applied, w')
  | (Err e, w') => (Failed (show_err e), w')
  end.

Definition is_failed (r : ApplyResult) : bool := match r with Failed _ => true | _ => false end.

(** The loop of [apply]: [aborted] is its flag. *)
Fixpoint apply_loop (opts : ApplyOptions) (aborted : bool) (changes : list Change) (w : W)
    : list ApplyOutcome * W :=
  match changes with
  | [] => ([], w)
  | change :: rest =>
      let skip reason aborted :=
        let '(out, w') := apply_loop opts aborted rest w in
        ({| out_change := change; out_result := Skipped reason |} :: out, w') in
      if aborted then skip AbortedByPrior true
      else if opt_dry_run opts then skip DryRun false
      else if bool_decide (c_kind change = Delete) && negb (opt_prune opts) then skip PrunePolicy false
      else
        let '(result, w1) := apply_one change w in
        let aborted := is_failed result && negb (opt_continue_on_error opts) in
        let '(out, w') := apply_loop opts aborted rest w1 in
        ({| out_change := change; out_result := result |} :: out, w')
  end.

Definition apply (changes : list Change) (opts : ApplyOptions) (w : W) : list ApplyOutcome * W :=
  apply_loop opts false changes w.
End Apply.
