(* ===== verification/StateApplySpec.v ===== *)
(** * What an apply does

    The loop (what is sent, in which order, what happens after a failure), the
    dispatch (every change [diff] produces has a handler and decodes), and the
    request bodies (what each says, against a reference reading of it). *)
From S2P Require Import Prelude Json StateModel StateSerde StateDiff StateDiffTheory.
From S2P Require Import StateDiffSpec StateLoad Guest StatePreflight StatePreflightSpec ApiError.
From S2P Require Import StateApply.

(** ** The loop *)
Section Loop.
Context {W : Type} (client : WriteCall -> SM W AnyErr ()).

(** One pass of the loop, with its three reasons to skip put together. *)
Definition sends (opts : ApplyOptions) (ab : bool) (c : Change) : bool :=
  negb ab && negb (opt_dry_run opts) && dispatched_by_apply c (opt_prune opts).
Definition pass (opts : ApplyOptions) (ab : bool) (c : Change) (w : W) : ApplyResult * W :=
  if sends opts ab c then apply_one client c w
  else (Skipped (if ab then AbortedByPrior else if opt_dry_run opts then DryRun else PrunePolicy), w).

Lemma apply_loop_cons opts ab c cs w :
  apply_loop client opts ab (c :: cs) w =
  let '(r, w1) := pass opts ab c w in
  let ab' := ab || is_failed r && negb (opt_continue_on_error opts) in
  let '(out, w') := apply_loop client opts ab' cs w1 in
  ({| out_change := c; out_result := r |} :: out, w').
Proof.
  simpl. unfold pass, sends, dispatched_by_apply. destruct ab; [done|].
  destruct (opt_dry_run opts); [done|]. simpl.
  destruct (opt_prune opts), (bool_decide (c_kind c = Delete)); simpl; try done;
    by destruct (apply_one client c w).
Qed.

Lemma pass_not_aborted opts c w : (pass opts false c w).1 <> Skipped AbortedByPrior.
Proof.
  unfold pass. destruct (sends opts false c); [|by destruct (opt_dry_run opts)].
  unfold apply_one. by destruct (dispatch client c w) as [[]].
Qed.

Lemma apply_loop_changes opts ab cs w : out_change <$> (apply_loop client opts ab cs w).1 = cs.
Proof.
  revert ab w. induction cs as [|c cs IH]; intros ab w; [done|].
  rewrite apply_loop_cons. destruct (pass opts ab c w) as [r w1]. cbv zeta.
  match goal with |- context [apply_loop client opts ?a cs w1] => specialize (IH a w1) end.
  destruct (apply_loop _ _ _ cs w1) as [out w']. simpl in *. by f_equal.
Qed.

(** Once aborted, nothing is sent. *)
Lemma apply_loop_aborted opts cs w :
  apply_loop client opts true cs w
  = ((fun c => {| out_change := c; out_result := Skipped AbortedByPrior |}) <$> cs, w).
Proof. induction cs as [|c cs IH]; [done|]. simpl. by rewrite IH. Qed.

Lemma apply_loop_dry_run opts cs w :
  opt_dry_run opts = true ->
  apply_loop client opts false cs w
  = ((fun c => {| out_change := c; out_result := Skipped DryRun |}) <$> cs, w).
Proof. intros Hd. induction cs as [|c cs IH]; [done|]. simpl. by rewrite Hd, IH. Qed.

(** Deletions that are not pruned are reported and otherwise have no effect. *)
Lemma apply_loop_dispatched opts ab cs w :
  let sent o := dispatched_by_apply (out_change o) (opt_prune opts) in
  (filter (fun o => sent o = true) (apply_loop client opts ab cs w).1,
   (apply_loop client opts ab cs w).2)
  = apply_loop client opts ab (dispatched cs (opt_prune opts)) w
  /\ Forall (fun o => sent o = false -> exists why, out_result o = Skipped why)
       (apply_loop client opts ab cs w).1.
Proof.
  intros sent. revert ab w. induction cs as [|c cs IH]; intros ab w; [by split|].
  destruct (dispatched_by_apply c (opt_prune opts)) eqn:Hc.
  - assert (dispatched (c :: cs) (opt_prune opts) = c :: dispatched cs (opt_prune opts)) as ->
      by (unfold dispatched; by rewrite filter_cons_True).
    rewrite !apply_loop_cons. destruct (pass opts ab c w) as [r w1]. cbv zeta.
    match goal with |- context [apply_loop client opts ?a cs w1] =>
      destruct (IH a w1) as [IH1 IH2]; rewrite <-IH1;
      destruct (apply_loop client opts a cs w1) as [out w'] end.
    simpl in *. rewrite filter_cons_True by done. split; [done|].
    constructor; [|done]. unfold sent. simpl. congruence.
  - assert (dispatched (c :: cs) (opt_prune opts) = dispatched cs (opt_prune opts)) as ->
      by (unfold dispatched; by rewrite filter_cons_False by congruence).
    rewrite apply_loop_cons. unfold pass, sends. rewrite Hc, andb_false_r.
    cbn [is_failed andb]. rewrite orb_false_r. destruct (IH ab w) as [IH1 IH2]. rewrite <-IH1.
    destruct (apply_loop client opts ab cs w) as [out w'].
    simpl in *. rewrite filter_cons_False by (unfold sent; simpl; congruence). split; [done|].
    constructor; [|done]. simpl. eauto.
Qed.

Lemma apply_loop_continue opts cs w :
  opt_continue_on_error opts = true ->
  Forall (fun o => out_result o <> Skipped AbortedByPrior) (apply_loop client opts false cs w).1.
Proof.
  intros Hco. revert w. induction cs as [|c cs IH]; intros w; [constructor|].
  rewrite apply_loop_cons, Hco. pose proof (pass_not_aborted opts c w) as Hp.
  destruct (pass opts false c w) as [r w1]. cbv zeta. cbn [negb orb]. rewrite andb_false_r.
  specialize (IH w1). destruct (apply_loop client opts false cs w1) as [out w']. by constructor.
Qed.

Lemma apply_loop_fail_fast opts cs w i o :
  opt_continue_on_error opts = false ->
  (apply_loop client opts false cs w).1 !! i = Some o -> is_failed (out_result o) = true ->
  (apply_loop client opts false cs w).2 = (apply_loop client opts false (take (S i) cs) w).2
  /\ drop (S i) (apply_loop client opts false cs w).1
     = (fun c => {| out_change := c; out_result := Skipped AbortedByPrior |}) <$> drop (S i) cs.
Proof.
  intros Hco. revert w i. induction cs as [|c cs IH]; intros w i; [done|].
  cbn [take]. rewrite !apply_loop_cons. destruct (pass opts false c w) as [r w1]. cbv zeta.
  rewrite Hco. cbn [negb orb]. rewrite andb_true_r. destruct (is_failed r) eqn:Hf.
  - rewrite !apply_loop_aborted. cbn [fst snd]. destruct i as [|i]; [done|].
    simpl. intros Hi Ho. apply list_lookup_fmap_Some in Hi as (c' & -> & Hi). done.
  - destruct i as [|i].
    + destruct (apply_loop client opts false cs w1). simpl. intros [= <-]. simpl. congruence.
    + specialize (IH w1 i).
      destruct (apply_loop client opts false cs w1) as [out w'],
        (apply_loop client opts false (take (S i) cs) w1) as [out2 w2]. simpl in *. apply IH.
Qed.
End Loop.

(** C3: every change is reported once, in its order, and without [prune] the
    deletions are skipped and nothing else: what is sent, the results and the
    cluster left behind are those of the list without them, which is the list
    the risk gate judged. *)
Theorem apply_sends_what_was_assessed {W} (client : WriteCall -> SM W AnyErr ()) cs opts w :
  out_change <$> (apply client cs opts w).1 = cs /\
  let sent o := dispatched_by_apply (out_change o) (opt_prune opts) in
  (filter (fun o => sent o = true) (apply client cs opts w).1, (apply client cs opts w).2)
  = apply client (dispatched cs (opt_prune opts)) opts w
  /\ Forall (fun o => sent o = false -> exists why, out_result o = Skipped why)
       (apply client cs opts w).1.
Proof. split; [apply apply_loop_changes|apply apply_loop_dispatched]. Qed.

(** a dry run makes no call: the cluster is the one it started with and
    every change is reported as skipped for that reason. *)
Lemma apply_dry_run {W} (client : WriteCall -> SM W AnyErr ()) cs opts w :
  opt_dry_run opts = true ->
  apply client cs opts w = ((fun c => {| out_change := c; out_result := Skipped DryRun |}) <$> cs, w).
Proof. apply apply_loop_dry_run. Qed.

(** the first failure ends the run unless it is told to continue: every
    later change is reported as aborted and the cluster is the one left by the
    changes up to the failing one; told to continue, no change is aborted. *)
Lemma apply_fail_fast {W} (client : WriteCall -> SM W AnyErr ()) cs opts w :
  (opt_continue_on_error opts = false -> forall i o,
     (apply client cs opts w).1 !! i = Some o -> is_failed (out_result o) = true ->
     (apply client cs opts w).2 = (apply client (take (S i) cs) opts w).2
     /\ drop (S i) (apply client cs opts w).1
        = (fun c => {| out_change := c; out_result := Skipped AbortedByPrior |}) <$> drop (S i) cs)
  /\ (opt_continue_on_error opts = true ->
      Forall (fun o => out_result o <> Skipped AbortedByPrior) (apply client cs opts w).1).
Proof.
  split; [intros Hco i o; by apply apply_loop_fail_fast|apply apply_loop_continue].
Qed.

(** ** Every change of a diff has a handler that can read it *)

(** A client that performs every call. *)
Definition accepting {W} (client : WriteCall -> SM W AnyErr ()) : Prop :=
  forall c w, exists w', client c w = (Ok (), w').

Definition succeeds {W} (m : SM W AnyErr ()) : Prop := forall w, exists w', m w = (Ok (), w').

Section Succeeds.
Context {W : Type}.
Implicit Types (m : SM W AnyErr ()).

Lemma succeeds_ret : succeeds (mret () : SM W AnyErr ()).
Proof. intros w. by exists w. Qed.
Lemma succeeds_bind m (k : () -> SM W AnyErr ()) : succeeds m -> succeeds (k ()) -> succeeds (m ≫= k).
Proof.
  intros Hm Hk w. destruct (Hm w) as [w1 H1]. destruct (Hk w1) as [w2 H2].
  exists w2. unfold mbind, SM_bind. by rewrite H1.
Qed.
Lemma succeeds_lift {A} (r : Result AnyErr A) a (k : A -> SM W AnyErr ()) :
  r = Ok a -> succeeds (k a) -> succeeds (lift r ≫= k).
Proof. intros -> Hk w. destruct (Hk w) as [w' H]. by exists w'. Qed.
Lemma succeeds_when b m : succeeds m -> succeeds (when b m).
Proof. destruct b; [done|]. intros. apply succeeds_ret. Qed.
Lemma succeeds_for_each {A} (f : A -> SM W AnyErr ()) l :
  (forall x, succeeds (f x)) -> succeeds (for_each f l).
Proof. intros Hf. induction l; simpl; [apply succeeds_ret|]. by apply succeeds_bind. Qed.
Lemma succeeds_tolerate m : succeeds m -> succeeds (tolerate_not_found m).
Proof. intros Hm w. destruct (Hm w) as [w' H]. exists w'. unfold tolerate_not_found. by rewrite H. Qed.
Lemma succeeds_client (client : WriteCall -> SM W AnyErr ()) c : accepting client -> succeeds (client c).
Proof. intros Hc. exact (Hc c). Qed.
End Succeeds.
#[export] Hint Resolve succeeds_ret succeeds_bind succeeds_when succeeds_for_each succeeds_tolerate
  succeeds_client : proxxx.

Lemma decode_with_ok {A} `{SerdeOk A wf} missing ctx a :
  wf a -> decode_with missing ctx (Some (to_value a)) = Ok a.
Proof. intros Hwf. unfold decode_with. by rewrite from_to_value. Qed.

(** What [diff] puts in a change of a family. *)
Lemma family_shape {K A} `{Countable K} (leK : relation K) `{!RelDecision leK} `{!Serde A}
    r (key : A -> K) display same declared live c :
  c ∈ diff_family leK r key display same declared live ->
  (exists x, x ∈ live /\ c = mk_delete r display x)
  \/ (exists y x, y ∈ live /\ x ∈ declared /\ key x = key y /\ c = mk_update r display y x)
  \/ (exists x, x ∈ declared /\ c = mk_create r display x).
Proof.
  rewrite family_change. intros (k & Hc).
  destruct Hc as [(x & Hx & _ & ->)|[(y & x & Hy & Hx & _ & ->)|(x & _ & Hx & ->)]].
  - left. apply by_key_Some in Hx as [Hx _]. eauto.
  - right. left. apply by_key_Some in Hx as [Hx <-]. apply by_key_Some in Hy as [Hy Heq]. eauto 10.
  - right. right. apply by_key_Some in Hx as [Hx _]. eauto.
Qed.

(** What apply refuses on its own account, before any call. *)
Record applicable (d l : ClusterState) : Prop := {
  ap_acl_kinds : Forall (fun a => acl_kind a ∈ ["user"; "group"; "token"]) (cs_acl d ++ cs_acl l);
  ap_storage : forall x y, x ∈ cs_storage d -> y ∈ cs_storage l -> st_storage x = st_storage y ->
    immutable_fields y x = [];
  ap_rule_type : Forall (fun r => hr_rule_type r <> "") (cs_ha_rules d);
  ap_rule_type_kept : forall x y, x ∈ cs_ha_rules d -> y ∈ cs_ha_rules l -> hr_rule x = hr_rule y ->
    hr_rule_type x = hr_rule_type y;
  ap_sid : Forall (fun r => has_char ":" (ha_sid r) = true) (cs_ha_resources d);
  ap_u32 : Forall HaResourceDecl_wf (cs_ha_resources d ++ cs_ha_resources l);
}.

Lemma modify_acl_succeeds {W} (client : WriteCall -> SM W AnyErr ()) a del :
  accepting client -> acl_kind a ∈ ["user"; "group"; "token"] ->
  succeeds (modify_acl_for_decl client a del).
Proof.
  intros Hc Hk. unfold modify_acl_for_decl.
  repeat (apply elem_of_cons in Hk as [->|Hk]; [json_keys; apply succeeds_client, Hc|]). set_solver.
Qed.

(** Enter the handler of a change whose resource and kind are known. *)
Ltac dispatch_branch :=
  unfold dispatch; cbn [c_resource mk_delete mk_update mk_create]; cbv zeta beta; json_keys;
  cbv iota; unfold by_kind; cbn [c_kind mk_delete mk_update mk_create].
Ltac read_change :=
  cbn [c_before c_after mk_delete mk_update mk_create]; unfold decode_side, decode;
  repeat (eapply succeeds_lift; [apply decode_with_ok; done|]).

Section Handlers.
Context {W : Type} (client : WriteCall -> SM W AnyErr ()) (Hc : accepting client).

Ltac run_handler :=
  dispatch_branch;
  unfold apply_pool_create, apply_pool_update, apply_pool_delete, apply_storage_create,
    apply_storage_delete, apply_backupjob_create, apply_backupjob_update, apply_backupjob_delete,
    apply_fw_alias_create, apply_fw_alias_update, apply_fw_alias_delete,
    apply_fw_ipset_create, apply_fw_ipset_update, apply_fw_ipset_delete,
    apply_fw_group_create, apply_fw_group_delete, apply_notif_matcher_create,
    apply_notif_matcher_update, apply_notif_matcher_delete, apply_mapping_pci_create,
    apply_mapping_pci_update, apply_mapping_pci_delete, apply_mapping_usb_create,
    apply_mapping_usb_update, apply_mapping_usb_delete, apply_ha_rule_delete,
    apply_ha_resource_update, apply_ha_resource_delete;
  read_change; repeat case_match; unfold unless_same, add_cidr, remove_cidr;
  repeat first [apply succeeds_client, Hc | apply succeeds_ret | apply succeeds_tolerate
               | apply succeeds_when | apply succeeds_for_each; intros ?
               | apply succeeds_bind].

(** The families whose handlers only decode and call. *)
Lemma plain_handlers f d l c :
  f ∈ [Pools; BackupJobs; FirewallAliases; FirewallIpsets; NotificationMatchers;
       MappingsPci; MappingsUsb] ->
  c ∈ changes_of f d l -> succeeds (dispatch client c).
Proof.
  intros Hf Hin. destruct f; simpl in Hin; try set_solver;
    apply family_shape in Hin as [(x & _ & ->)|[(y & x & _ & _ & _ & ->)|(x & _ & ->)]];
    run_handler.
Qed.

Lemma group_handlers d l c : c ∈ changes_of FirewallGroups d l -> succeeds (dispatch client c).
Proof.
  simpl. unfold diff_firewall_groups. rewrite app_nil_l, elem_of_app, elem_of_deletes, elem_of_creates.
  intros [(k & x & _ & _ & ->)|(k & x & _ & _ & ->)]; run_handler.
Qed.

Lemma acl_handlers d l c : applicable d l -> c ∈ changes_of Acl d l -> succeeds (dispatch client c).
Proof.
  intros [Hk _ _ _ _ _] Hin. apply Forall_app in Hk as [Hkd Hkl].
  rewrite Forall_forall in Hkd, Hkl.
  apply family_shape in Hin as [(x & Hx & ->)|[(y & x & Hy & Hx & _ & ->)|(x & Hx & ->)]];
    dispatch_branch; unfold apply_acl_create, apply_acl_update, apply_acl_delete; read_change;
    repeat apply succeeds_bind; apply modify_acl_succeeds; auto.
Qed.

Lemma storage_handlers d l c :
  applicable d l -> c ∈ changes_of Storage d l -> succeeds (dispatch client c).
Proof.
  intros [_ Hst _ _ _ _] Hin.
  apply family_shape in Hin as [(x & Hx & ->)|[(y & x & Hy & Hx & Hid & ->)|(x & Hx & ->)]];
    [run_handler| |run_handler].
  dispatch_branch. unfold apply_storage_update. read_change.
  eapply succeeds_lift; [unfold storage_update_params; by rewrite (Hst x y)|].
  case_match; auto with proxxx.
Qed.

Lemma ha_rule_handlers d l c :
  applicable d l -> c ∈ changes_of HaRules d l -> succeeds (dispatch client c).
Proof.
  intros [_ _ Ht Hkept _ _] Hin. rewrite Forall_forall in Ht.
  apply family_shape in Hin as [(x & Hx & ->)|[(y & x & Hy & Hx & Hid & ->)|(x & Hx & ->)]];
    [run_handler| |].
  - dispatch_branch. unfold apply_ha_rule_update. read_change.
    eapply succeeds_lift; [|apply succeeds_client, Hc].
    unfold rule_type_guard. cbn [c_before mk_update]. unfold decode. rewrite decode_with_ok by done.
    cbn. rewrite (Hkept x y) by done. rewrite (bool_decide_eq_true_2 (_ = _)) by done.
    by rewrite !andb_false_r.
  - dispatch_branch. unfold apply_ha_rule_create. read_change.
    unfold is_empty. rewrite bool_decide_eq_false_2 by auto. apply succeeds_client, Hc.
Qed.

Lemma ha_resource_handlers d l c :
  applicable d l -> c ∈ changes_of HaResources d l -> succeeds (dispatch client c).
Proof.
  intros [_ _ _ _ Hsid Hu] Hin. apply Forall_app in Hu as [Hud Hul].
  rewrite Forall_forall in Hsid, Hud, Hul.
  apply family_shape in Hin as [(x & Hx & ->)|[(y & x & Hy & Hx & Hid & ->)|(x & Hx & ->)]];
    dispatch_branch; unfold apply_ha_resource_create, apply_ha_resource_update,
      apply_ha_resource_delete, decode; cbn [c_before c_after mk_delete mk_update mk_create];
    (eapply succeeds_lift; [apply decode_with_ok; auto|]);
    [apply succeeds_tolerate; apply succeeds_client, Hc|apply succeeds_client, Hc|].
  specialize (Hsid _ Hx). rewrite Hsid. unfold is_empty.
  case_bool_decide as He; [by rewrite He in Hsid|]. apply succeeds_client, Hc.
Qed.

Lemma options_handler d l c :
  c ∈ diff d l -> c_resource c = "firewall_options" -> succeeds (dispatch client c).
Proof.
  intros Hin Hr. destruct (options_change_inv _ _ _ Hin Hr) as (o & _ & Hk & _ & Ha).
  unfold dispatch. rewrite Hr. cbv zeta beta. json_keys. cbv iota. unfold by_kind. rewrite Hk.
  unfold apply_fw_options_update, decode. rewrite Ha.
  eapply succeeds_lift; [by apply decode_with_ok|]. case_match; auto with proxxx.
Qed.

Lemma diff_handlers d l c : applicable d l -> c ∈ diff d l -> succeeds (dispatch client c).
Proof.
  intros Hap Hin. destruct (diff_resources _ _ _ Hin) as [[f Hf]|Hf]; [|by eapply options_handler].
  destruct (diff_change_of f _ _ _ Hin Hf) as [_ Hch].
  destruct f; try (eapply plain_handlers; [|exact Hch]; set_solver).
  - by eapply acl_handlers.
  - by eapply storage_handlers.
  - by eapply group_handlers.
  - by eapply ha_resource_handlers.
  - by eapply ha_rule_handlers.
Qed.
End Handlers.

(** every change a diff can hold has a handler that reads it back and, on
    a cluster that accepts every request, applies it: no change of a diff is
    unhandled or undecodable.  [applicable] lists what apply refuses itself
    (unknown ACL kinds, an immutable storage property, an HA rule without or
    with another type, a malformed HA resource id). *)
Lemma diff_changes_are_applied {W} (client : WriteCall -> SM W AnyErr ()) d l opts w :
  accepting client -> applicable d l -> opt_dry_run opts = false -> opt_prune opts = true ->
  Forall (fun o => out_result o = Applied) (apply client (diff d l) opts w).1.
Proof.
  intros Hc Hap Hdry Hpr. unfold apply.
  assert (forall cs w', (forall c, c ∈ cs -> c ∈ diff d l) ->
    Forall (fun o => out_result o = Applied) (apply_loop client opts false cs w').1) as Hall; [|by apply Hall].
  induction cs as [|c cs IH]; intros w' Hsub; [constructor|].
  rewrite apply_loop_cons. unfold pass, sends, dispatched_by_apply. rewrite Hdry, Hpr.
  cbn [negb andb orb]. unfold apply_one.
  destruct (diff_handlers client Hc d l c Hap (Hsub c ltac:(set_solver)) w') as [w1 ->].
  cbn [is_failed andb]. specialize (IH w1 ltac:(set_solver)).
  destruct (apply_loop client opts false cs w1) as [out w2]. by constructor.
Qed.

(** ** Witnesses *)
Definition count_calls (c : WriteCall) : SM nat AnyErr () := fun n => (Ok (), S n).
Definition refuse_first (c : WriteCall) : SM nat AnyErr () := fun n =>
  (if n =? 0 then Err (bail "500") else Ok (), S n).
Definition all_opts (dry cont : bool) : ApplyOptions :=
  {| opt_dry_run := dry; opt_prune := true; opt_continue_on_error := cont |}.

Lemma apply_dry_run_witness :
  (apply count_calls (diff sample_declared sample_live) (all_opts true false) 0).2 = 0.
Proof.
  rewrite (apply_dry_run count_calls (diff sample_declared sample_live) (all_opts true false) 0);
    reflexivity.
Defined.

Lemma apply_fail_fast_witness :
  (apply refuse_first (diff sample_declared sample_live) (all_opts false false) 0).2 = 1.
Proof.
  destruct (apply_fail_fast refuse_first (diff sample_declared sample_live) (all_opts false false) 0)
    as [H _].
  destruct (H eq_refl 0 (hd {| out_change := mk_delete "acl" acl_display (sample_acl "" "" "");
                                out_result := Applied |}
     (apply refuse_first (diff sample_declared sample_live) (all_opts false false) 0).1)) as [-> _];
    [vm_compute; reflexivity..|].
  vm_compute. reflexivity.
Defined.

Lemma diff_changes_are_applied_witness :
  length (apply count_calls (diff sample_declared sample_live) (all_opts false false) 0).1 = 2 /\
  Forall (fun o => out_result o = Applied)
    (apply count_calls (diff sample_declared sample_live) (all_opts false false) 0).1.
Proof.
  split; [vm_compute; reflexivity|].
  apply diff_changes_are_applied; [by intros c w; exists (S w)| |reflexivity|reflexivity].
  constructor; try (repeat constructor; set_solver).
Defined.
