(* ===== verification/StateBodies.v ===== *)
(** * What the request bodies say

    A reference reading of a form body: the value given for a field, else
    nothing for a field named in [delete], else the value the cluster has.
    Against it: the body of a storage update turns the live definition into
    the declared one, the member updates of a pool describe exactly the
    difference, and the HA-resource body that cannot express one difference. *)

From S2P Require Import Prelude.
From S2P Require Import Json.
From S2P Require Import StateModel.
From S2P Require Import StateSerde.
From S2P Require Import StateDiff.
From S2P Require Import StateDiffTheory.
From S2P Require Import StateDiffSpec.
From S2P Require Import ApiError.
From S2P Require Import StateApply.

(** ** Reading a body *)
Fixpoint assoc (k : string) (ps : Params) : option string :=
  match ps with
  | [] => None
  | (k', v) :: ps' => if bool_decide (k = k') then Some v else assoc k ps'
  end.

(** [delete] is one CSV parameter in the storage API. *)
Definition deleted (k : string) (ps : Params) : bool :=
  match assoc "delete" ps with
  | None => false
  | Some csv => bool_decide (k ∈ split_char "," csv)
  end.

Definition read_text (ps : Params) (k old : string) : string :=
  match assoc k ps with Some v => v | None => if deleted k ps then "" else old end.
Definition read_flag (ps : Params) (k : string) (old : bool) : bool :=
  match assoc k ps with
  | Some v => bool_decide (v = "1")
  | None => if deleted k ps then false else old
  end.

(** The storage definition a [PUT /storage/{storage}] body leads to. *)
Definition put_storage (b : StorageDecl) (ps : Params) : StorageDecl :=
  {| st_storage := st_storage b; st_storage_type := st_storage_type b;
     st_content := read_text ps "content" (st_content b);
     st_nodes := read_text ps "nodes" (st_nodes b);
     st_disable := read_flag ps "disable" (st_disable b);
     st_shared := read_flag ps "shared" (st_shared b);
     st_path := st_path b; st_pool := read_text ps "pool" (st_pool b);
     st_server := read_text ps "server" (st_server b); st_export := st_export b;
     st_datastore := st_datastore b;
     st_fingerprint := read_text ps "fingerprint" (st_fingerprint b);
     st_username := read_text ps "username" (st_username b);
     st_vgname := st_vgname b; st_thinpool := st_thinpool b |}.

(** ** Reading one field of a body built from fields *)
Lemma assoc_app k ps qs :
  assoc k (ps ++ qs) = match assoc k ps with Some v => Some v | None => assoc k qs end.
Proof. induction ps as [|[k' v] ps IH]; [done|]. simpl. by case_bool_decide. Qed.

(** A field of a body: it only ever names [k]. *)
Definition field_of (k : string) (f : Params * list string) : Prop :=
  (forall k', k' <> k -> assoc k' f.1 = None) /\ (forall x, x ∈ f.2 -> x = k).

Lemma text_field_of k b a csv : field_of k (text_field k b a csv).
Proof.
  unfold text_field. cbv zeta. split; intros k' Hk; revert Hk; repeat case_match; try set_solver;
    intros Hk; simpl; by rewrite bool_decide_eq_false_2.
Qed.
Lemma flag_field_of k b a : field_of k (flag_field k b a).
Proof.
  unfold flag_field. split; intros k' Hk; revert Hk; repeat case_match; try set_solver;
    intros Hk; simpl; by rewrite bool_decide_eq_false_2.
Qed.

Lemma fields_other (fs : list (string * (Params * list string))) k :
  Forall (fun kf => field_of kf.1 kf.2) fs -> k ∉ fs.*1 ->
  assoc k (fs.*2 ≫= fst) = None /\ k ∉ fs.*2 ≫= snd.
Proof.
  induction 1 as [|[k' f] fs [Hf1 Hf2] _ IH]; csimpl; [set_solver|]. intros Hk.
  destruct IH as [IH1 IH2]; [set_solver|]. rewrite assoc_app, Hf1 by set_solver. split; [done|].
  rewrite not_elem_of_app. split; [|done]. intros Hin%Hf2. simpl in Hin. set_solver.
Qed.

(** Reading a field of a body made of fields with distinct names. *)
Lemma fields_lookup (fs : list (string * (Params * list string))) k f :
  NoDup fs.*1 -> Forall (fun kf => field_of kf.1 kf.2) fs -> (k, f) ∈ fs ->
  assoc k (fs.*2 ≫= fst) = assoc k f.1 /\ (k ∈ fs.*2 ≫= snd <-> k ∈ f.2).
Proof.
  induction fs as [|[k' f'] fs IH]; [set_solver|]. csimpl.
  intros [Hk Hnd]%NoDup_cons [[Hf1 Hf2] Hfs]%Forall_cons [Heq|Hin]%elem_of_cons.
  - simplify_eq. destruct (fields_other fs k' Hfs Hk) as [H1 H2].
    rewrite assoc_app, H1, elem_of_app. split; [by case_match|tauto].
  - assert (k <> k') as Hne by (intros ->; apply Hk, list_elem_of_fmap; by exists (k', f)).
    destruct (IH Hnd Hfs Hin) as [H1 H2].
    rewrite assoc_app, Hf1, H1, elem_of_app by done. split; [done|]. rewrite H2.
    split; [|tauto]. intros [Hx%Hf2|]; [by simpl in Hx|done].
Qed.

(** The field tables of [storage_update_params], with their names. *)
Definition storage_fields (b a : StorageDecl) : list (string * (Params * list string)) :=
  [("content", text_field "content" (st_content b) (st_content a) true);
   ("nodes", text_field "nodes" (st_nodes b) (st_nodes a) true);
   ("pool", text_field "pool" (st_pool b) (st_pool a) false);
   ("server", text_field "server" (st_server b) (st_server a) false);
   ("fingerprint", text_field "fingerprint" (st_fingerprint b) (st_fingerprint a) false);
   ("username", text_field "username" (st_username b) (st_username a) false);
   ("disable", flag_field "disable" (st_disable b) (st_disable a));
   ("shared", flag_field "shared" (st_shared b) (st_shared a))].

Lemma storage_fields_ok b a :
  NoDup (storage_fields b a).*1 /\ Forall (fun kf => field_of kf.1 kf.2) (storage_fields b a).
Proof.
  split; [apply (bool_decide_unpack _); vm_compute; exact I|].
  repeat constructor; (apply text_field_of || apply flag_field_of).
Qed.

Definition storage_body (b a : StorageDecl) : Params :=
  let delete := (storage_fields b a).*2 ≫= snd in
  ((storage_fields b a).*2 ≫= fst)
  ++ match delete with [] => [] | _ => [("delete", join "," delete)] end.

Lemma storage_update_params_body b a :
  immutable_fields b a = [] ->
  storage_update_params b a
  = Ok (match storage_body b a with [] => None | _ => Some (storage_body b a) end).
Proof. intros Him. unfold storage_update_params. by rewrite Him. Qed.

Lemma storage_delete_names b a x :
  x ∈ (storage_fields b a).*2 ≫= snd -> x ∈ (storage_fields b a).*1.
Proof.
  intros Hx. apply dec_stable. intros Hno.
  by apply (fields_other _ _ (proj2 (storage_fields_ok b a))) in Hno as [_ Hno].
Qed.

Lemma deleted_body b a k :
  deleted k (storage_body b a) = bool_decide (k ∈ (storage_fields b a).*2 ≫= snd).
Proof.
  unfold deleted, storage_body. cbv zeta. rewrite assoc_app.
  destruct (fields_other (storage_fields b a) "delete") as [-> _];
    [apply storage_fields_ok|apply (bool_decide_unpack _); vm_compute; exact I|].
  pose proof (storage_delete_names b a) as Hn.
  destruct ((storage_fields b a).*2 ≫= snd) as [|x xs]; [by rewrite bool_decide_eq_false_2 by set_solver|].
  cbn [assoc]. rewrite (bool_decide_eq_true_2 ("delete" = "delete")) by done.
  rewrite split_char_join; [done|done|]. apply Forall_forall. intros y Hy%Hn.
  unfold storage_fields in Hy. simpl in Hy.
  repeat (apply elem_of_cons in Hy as [->|Hy]; [reflexivity|]). set_solver.
Qed.

Lemma assoc_body b a k :
  k <> "delete" -> assoc k (storage_body b a) = assoc k ((storage_fields b a).*2 ≫= fst).
Proof.
  intros Hk. unfold storage_body. cbv zeta. rewrite assoc_app.
  destruct (assoc k ((storage_fields b a).*2 ≫= fst)); [done|].
  case_match; [done|]. simpl. by rewrite bool_decide_eq_false_2.
Qed.

Lemma read_text_body b a k old new csv :
  k <> "delete" -> (k, text_field k old new csv) ∈ storage_fields b a ->
  if csv : bool then normalize_csv (read_text (storage_body b a) k old) = normalize_csv new
  else read_text (storage_body b a) k old = new.
Proof.
  intros Hk Hin. unfold read_text. rewrite assoc_body, deleted_body by done.
  destruct (storage_fields_ok b a) as [Hnd Hfs].
  destruct (fields_lookup _ _ _ Hnd Hfs Hin) as [-> Hdel].
  rewrite (bool_decide_ext _ _ Hdel). unfold text_field, is_empty. cbv zeta.
  destruct csv; repeat case_bool_decide; subst; simpl in *;
    repeat (rewrite bool_decide_eq_true_2 by done); try done; set_solver.
Qed.

Lemma read_flag_body b a k old new :
  k <> "delete" -> (k, flag_field k old new) ∈ storage_fields b a ->
  read_flag (storage_body b a) k old = new.
Proof.
  intros Hk Hin. unfold read_flag. rewrite assoc_body, deleted_body by done.
  destruct (storage_fields_ok b a) as [Hnd Hfs].
  destruct (fields_lookup _ _ _ Hnd Hfs Hin) as [-> Hdel].
  rewrite (bool_decide_ext _ _ Hdel). unfold flag_field.
  destruct old, new; simpl; rewrite ?(bool_decide_eq_true_2 (k = k)) by done; try done.
  by rewrite bool_decide_eq_true_2 by set_solver.
Qed.

Lemma immutable_fields_nil b a :
  immutable_fields b a = [] <->
  st_storage_type b = st_storage_type a /\ st_path b = st_path a /\ st_export b = st_export a
  /\ st_datastore b = st_datastore a /\ st_vgname b = st_vgname a /\ st_thinpool b = st_thinpool a.
Proof.
  unfold immutable_fields. rewrite !filter_cons. simpl.
  repeat case_decide; simpl; naive_solver.
Qed.

Lemma put_storage_body b a :
  st_storage b = st_storage a -> immutable_fields b a = [] ->
  storage_normal (put_storage b (storage_body b a)) = storage_normal a.
Proof.
  intros Hid Him. unfold storage_normal, put_storage. cbn -[storage_body].
  rewrite (read_text_body b a "content" _ (st_content a) true) by (done || set_solver).
  rewrite (read_text_body b a "nodes" _ (st_nodes a) true) by (done || set_solver).
  rewrite (read_text_body b a "pool" _ (st_pool a) false) by (done || set_solver).
  rewrite (read_text_body b a "server" _ (st_server a) false) by (done || set_solver).
  rewrite (read_text_body b a "fingerprint" _ (st_fingerprint a) false) by (done || set_solver).
  rewrite (read_text_body b a "username" _ (st_username a) false) by (done || set_solver).
  rewrite (read_flag_body b a "disable" _ (st_disable a)) by (done || set_solver).
  rewrite (read_flag_body b a "shared" _ (st_shared a)) by (done || set_solver).
  apply immutable_fields_nil in Him. destruct_and! Him. congruence.
Qed.

Definition immutable_same (b a : StorageDecl) : Prop :=
  st_storage_type b = st_storage_type a /\ st_path b = st_path a /\ st_export b = st_export a
  /\ st_datastore b = st_datastore a /\ st_vgname b = st_vgname a /\ st_thinpool b = st_thinpool a.

Lemma put_storage_nil b : put_storage b [] = b.
Proof. by destruct b. Qed.

(** the update of a storage is refused exactly when a property fixed at
    creation differs; otherwise the body sent, read as PVE documents it,
    turns the live definition into the declared one (up to the order of the
    CSV lists), and no body at all means there is nothing to change. *)
Lemma storage_update_reaches_declared b a :
  st_storage b = st_storage a ->
  match storage_update_params b a with
  | Err _ => ~ immutable_same b a
  | Ok body => immutable_same b a
               /\ storage_normal (put_storage b (default [] body)) = storage_normal a
  end.
Proof.
  intros Hid. destruct (decide (immutable_fields b a = [])) as [Him|Him].
  - rewrite storage_update_params_body by done. split; [by apply immutable_fields_nil|].
    rewrite <-(put_storage_body b a) by done. by destruct (storage_body b a).
  - assert (~ immutable_same b a) as Hno by (by intros ?%immutable_fields_nil).
    unfold storage_update_params. by destruct (immutable_fields b a).
Qed.

Lemma storage_update_reaches_declared_witness :
  immutable_same (sample_storage "iso") (sample_storage "iso,vztmpl") /\
  storage_normal (put_storage (sample_storage "iso") [("content", "iso,vztmpl")])
  = storage_normal (sample_storage "iso,vztmpl").
Proof.
  apply (storage_update_reaches_declared (sample_storage "iso") (sample_storage "iso,vztmpl")).
  reflexivity.
Defined.

(** ** The member updates of a pool: src/state/apply.rs

    [apply_pool_update] turns the members of a pool into the declared ones
    with one removal and one addition; the calls are read against what
    [PUT /pools/{id}] does with them. *)
(** ** Pool membership *)

(** The calls a run makes on a client that accepts them all. *)
Definition recorder (c : WriteCall) : SM (list WriteCall) AnyErr () := fun tr => (Ok (), tr ++ [c]).

(** A member on the wire: whether it is a guest, and its id or storage name. *)
Definition wire (m : string) : option (bool * string) :=
  match strip_prefix "qemu/" m with
  | Some id => Some (true, id)
  | None =>
      match strip_prefix "lxc/" m with
      | Some id => Some (true, id)
      | None => (fun name => (false, name)) <$> strip_prefix "storage/" m
      end
  end.
Definition wires (ms : list string) : gset (bool * string) := list_to_set (omap wire ms).

(** Reading a [PUT /pools/{id}] body: [delete] removes the members named,
    otherwise they are added; [comment] leaves the members alone. *)
Definition csv_ids (guest : bool) (v : option string) : list (bool * string) :=
  match v with Some csv => pair guest <$> split_char "," csv | None => [] end.
Definition put_pool (s : gset (bool * string)) (ps : Params) : gset (bool * string) :=
  let ids := list_to_set (csv_ids true (assoc "vms" ps) ++ csv_ids false (assoc "storage" ps)) in
  if bool_decide (assoc "delete" ps = Some "1") then s ∖ ids else s ∪ ids.
Definition put_pool_call (s : gset (bool * string)) (c : WriteCall) : gset (bool * string) :=
  match c with update_pool_view _ ps => put_pool s ps | _ => s end.

(** A member list as PVE gives it: a known prefix, an id that is not empty and
    has no comma. *)
Definition member_ok (m : string) : Prop :=
  exists g id, wire m = Some (g, id) /\ id <> "" /\ has_char "," id = false.

Definition guest_ids (g : bool) (ms : list string) : list string :=
  omap (fun m => match wire m with Some (g', id) => if Bool.eqb g g' then Some id else None | None => None end) ms.

Lemma omap_pointwise {A B} (f g : A -> option B) (l : list A) : (forall x, f x = g x) -> omap f l = omap g l.
Proof. intros Hfg. induction l as [|x l IH]; [done|]. csimpl. by rewrite Hfg, IH. Qed.

Lemma split_pool_members_ids ms :
  split_pool_members ms = (join "," (guest_ids true ms), join "," (guest_ids false ms)).
Proof.
  unfold split_pool_members, guest_ids. cbv zeta.
  apply pair_equal_spec; split; apply (f_equal (join ",")), omap_pointwise; intros m; unfold wire;
    (destruct (strip_prefix "qemu/" m); [done|]; destruct (strip_prefix "lxc/" m); [done|];
     by destruct (strip_prefix "storage/" m)).
Qed.

Lemma join_nonempty l : l <> [] -> Forall (fun x => x <> "") l -> join "," l <> "".
Proof.
  intros Hl HF. destruct HF as [|x l Hx HF]; [done|]. destruct l; [done|].
  rewrite join_cons. by destruct x.
Qed.

(** The CSV parameter of a list of ids is there exactly when the list is not
    empty, and reads back as the list. *)
Lemma csv_ids_param g key ids :
  Forall (fun x => x <> "" /\ has_char "," x = false) ids ->
  csv_ids g (assoc key (opt_param key (join "," ids))) = pair g <$> ids.
Proof.
  intros Hids. unfold opt_param, is_empty. destruct ids as [|x ids]; [done|].
  assert (Forall (fun y => y <> "") (x :: ids)) as Hne by (eapply Forall_impl; [exact Hids|]; by intros y []).
  assert (Forall (fun y => has_char "," y = false) (x :: ids)) as Hc by (eapply Forall_impl; [exact Hids|]; by intros y []).
  rewrite bool_decide_eq_false_2 by (by apply join_nonempty).
  cbn [assoc]. rewrite bool_decide_eq_true_2 by done. unfold csv_ids. by rewrite split_char_join.
Qed.

Lemma guest_ids_ok g ms :
  Forall member_ok ms -> Forall (fun x => x <> "" /\ has_char "," x = false) (guest_ids g ms).
Proof.
  induction 1 as [|m ms (g' & id & Hw & Hid) _ IH]; [constructor|]. unfold guest_ids. simpl.
  rewrite Hw. destruct (Bool.eqb g g'); [by constructor|done].
Qed.

Lemma elem_of_guest_ids g ms id : id ∈ guest_ids g ms <-> (g, id) ∈ omap wire ms.
Proof.
  unfold guest_ids. rewrite !list_elem_of_omap. apply exist_proper. intros m.
  destruct (wire m) as [[g' id']|]; [|naive_solver].
  destruct g, g'; simpl; naive_solver.
Qed.

Lemma opt_param_other key key' v : key <> key' -> assoc key (opt_param key' v) = None.
Proof. intros. unfold opt_param. case_match; [done|]. simpl. by rewrite bool_decide_eq_false_2. Qed.

Lemma member_params_ids ms :
  Forall member_ok ms ->
  list_to_set (csv_ids true (assoc "vms" (member_params ms))
               ++ csv_ids false (assoc "storage" (member_params ms))) = wires ms.
Proof.
  intros Hms. unfold member_params. rewrite split_pool_members_ids, !assoc_app.
  rewrite (opt_param_other "storage" "vms"), (opt_param_other "vms" "storage") by done.
  rewrite option_eta. rewrite !csv_ids_param by (by apply guest_ids_ok).
  apply set_eq. intros [g id]. unfold wires. rewrite !elem_of_list_to_set, elem_of_app, !list_elem_of_fmap.
  rewrite <-elem_of_guest_ids. destruct g; naive_solver.
Qed.

(** The two updates of [apply_pool_update], as a set computation. *)
Lemma put_pool_remove s ms :
  Forall member_ok ms -> put_pool s (("delete", "1") :: member_params ms) = s ∖ wires ms.
Proof.
  intros Hms. unfold put_pool. cbn [assoc]. json_keys. cbv iota. json_keys. cbv zeta.
  by rewrite member_params_ids.
Qed.

Lemma member_params_delete ms : assoc "delete" (member_params ms) = None.
Proof.
  unfold member_params. rewrite split_pool_members_ids, assoc_app.
  by rewrite !opt_param_other.
Qed.

Lemma put_pool_add s ms : Forall member_ok ms -> put_pool s (member_params ms) = s ∪ wires ms.
Proof.
  intros Hms. unfold put_pool. rewrite member_params_delete, member_params_ids by done.
  by rewrite bool_decide_eq_false_2.
Qed.

(** Guest ids are unique in a cluster: two members with one wire id are one member. *)
Definition wire_unique (ms : list string) : Prop :=
  forall m m', m ∈ ms -> m' ∈ ms -> wire m = wire m' -> m = m'.

Lemma wires_diff b a :
  Forall member_ok (b ++ a) -> wire_unique (b ++ a) ->
  wires b ∖ wires (members_diff b a) ∪ wires (members_diff a b) = wires a.
Proof.
  intros Hok Hu. apply set_eq. intros gi. unfold wires, members_diff.
  rewrite elem_of_union, elem_of_difference, !elem_of_list_to_set, !list_elem_of_omap.
  setoid_rewrite list_elem_of_filter. split.
  - intros [[(m & Hm & Hw) Hno]|(m & [_ Hm] & Hw)]; [|eauto].
    exists m. split; [|done]. apply dec_stable. intros Hma. apply Hno. eauto.
  - intros (m & Hm & Hw). destruct (decide (m ∈ b)) as [Hb|Hb]; [left|right; eauto].
    split; [eauto|]. intros (m' & [Hno Hm'] & Hw').
    assert (m' = m) as ->; [|done]. apply Hu; [set_solver|set_solver|congruence].
Qed.

Lemma members_diff_ok b a : Forall member_ok (b ++ a) -> Forall member_ok (members_diff b a).
Proof.
  rewrite !Forall_forall. intros Hok m [_ Hm]%list_elem_of_filter. apply Hok. set_solver.
Qed.

Definition pool_update (b a : PoolDecl) : Change := mk_update "pool" pool_poolid b a.

(** The calls of an update: the comment, then what to remove, then what to add. *)
Definition pool_update_calls (b a : PoolDecl) : list WriteCall :=
  (if bool_decide (pool_comment b = pool_comment a) then []
   else [update_pool_view (pool_poolid a) [("comment", pool_comment a)]])
  ++ match members_diff (pool_members b) (pool_members a) with
     | [] => []
     | ms => [update_pool_view (pool_poolid a) (("delete", "1") :: member_params ms)]
     end
  ++ match members_diff (pool_members a) (pool_members b) with
     | [] => []
     | ms => [update_pool_view (pool_poolid a) (member_params ms)]
     end.

Lemma apply_pool_update_calls b a tr :
  apply_pool_update recorder (pool_update b a) tr = (Ok (), tr ++ pool_update_calls b a).
Proof.
  unfold apply_pool_update, pool_update, decode_side, decode_with, pool_update_calls.
  cbn [c_before c_after mk_update]. rewrite !from_to_value by done.
  unfold mbind, SM_bind, lift, when, recorder.
  case_bool_decide; destruct (members_diff (pool_members b) (pool_members a)),
    (members_diff (pool_members a) (pool_members b)); simpl;
    by rewrite ?app_nil_r, <-?app_assoc.
Qed.

(** updating a pool leaves it with exactly the declared members: read as
    [PUT /pools/{id}] documents them, the calls made turn the live member set
    into the declared one. *)
Lemma pool_update_reaches_members b a :
  Forall member_ok (pool_members b ++ pool_members a) ->
  wire_unique (pool_members b ++ pool_members a) ->
  exists calls, apply_pool_update recorder (pool_update b a) [] = (Ok (), calls)
    /\ foldl put_pool_call (wires (pool_members b)) calls = wires (pool_members a).
Proof.
  intros Hok Hu. exists (pool_update_calls b a). split; [apply apply_pool_update_calls|].
  rewrite <-(wires_diff (pool_members b) (pool_members a)) by done.
  pose proof (members_diff_ok _ _ Hok) as Hr.
  assert (Forall member_ok (members_diff (pool_members a) (pool_members b))) as Ha.
  { apply members_diff_ok. rewrite Forall_app in *. tauto. }
  unfold pool_update_calls. rewrite !foldl_app.
  assert (forall s, foldl put_pool_call s
    (if bool_decide (pool_comment b = pool_comment a) then []
     else [update_pool_view (pool_poolid a) [("comment", pool_comment a)]]) = s) as ->.
  { intros s. case_bool_decide; [done|]. cbn. unfold put_pool. cbn. set_solver. }
  destruct (members_diff (pool_members b) (pool_members a)) as [|x xs];
    destruct (members_diff (pool_members a) (pool_members b)) as [|y ys];
    cbn [foldl put_pool_call]; rewrite ?put_pool_remove, ?put_pool_add by done; set_solver.
Qed.

Lemma pool_update_reaches_members_witness :
  exists calls,
    apply_pool_update recorder
      (pool_update {| pool_poolid := "p"; pool_comment := ""; pool_members := ["qemu/100"; "lxc/200"] |}
                   {| pool_poolid := "p"; pool_comment := "x"; pool_members := ["lxc/200"; "storage/nfs"] |}) []
      = (Ok (), calls)
    /\ foldl put_pool_call (wires ["qemu/100"; "lxc/200"]) calls = wires ["lxc/200"; "storage/nfs"].
Proof.
  apply (pool_update_reaches_members
    {| pool_poolid := "p"; pool_comment := ""; pool_members := ["qemu/100"; "lxc/200"] |}
    {| pool_poolid := "p"; pool_comment := "x"; pool_members := ["lxc/200"; "storage/nfs"] |}).
  - repeat constructor; eexists _, _; (split; [reflexivity|split; [discriminate|reflexivity]]).
  - intros m m' Hm Hm'. simpl in Hm, Hm'.
    repeat (apply elem_of_cons in Hm as [->|Hm]); try (by apply not_elem_of_nil in Hm);
      repeat (apply elem_of_cons in Hm' as [->|Hm']); try (by apply not_elem_of_nil in Hm');
      vm_compute; congruence.
Defined.

(** ** Update bodies with repeated keys: src/state/apply.rs

    Notification matchers, HA rules and HA resources are updated with a form
    body whose list fields are repeated keys and whose cleared fields are
    repeated [delete] keys.  PVE keeps the old value of a field the body does
    not mention, so a body has to mention every field that may differ. *)
Definition values (k : string) (ps : Params) : list string :=
  omap (fun kv => if bool_decide (kv.1 = k) then Some kv.2 else None) ps.

(** The value of a field after the update, given the old one. *)
Definition put_list (ps : Params) (k : string) (old : list string) : list string :=
  match values k ps with
  | [] => if bool_decide (k ∈ values "delete" ps) then [] else old
  | vs => vs
  end.
Definition put_text (ps : Params) (k old : string) : string :=
  match values k ps with
  | [] => if bool_decide (k ∈ values "delete" ps) then "" else old
  | v :: _ => v
  end.
Definition put_flag (ps : Params) (k : string) (old : bool) : bool :=
  match values k ps with
  | [] => if bool_decide (k ∈ values "delete" ps) then false else old
  | v :: _ => bool_decide (v = "1")
  end.

Definition put_matcher (old : NotificationMatcherDecl) (ps : Params) : NotificationMatcherDecl :=
  {| nm_name := nm_name old; nm_comment := put_text ps "comment" (nm_comment old);
     nm_target := put_list ps "target" (nm_target old);
     nm_match_field := put_list ps "match-field" (nm_match_field old);
     nm_match_severity := put_list ps "match-severity" (nm_match_severity old);
     nm_mode := put_text ps "mode" (nm_mode old);
     nm_invert_match := put_flag ps "invert-match" (nm_invert_match old);
     nm_disable := put_flag ps "disable" (nm_disable old) |}.

(** ** Reading the pieces of a body *)
Lemma values_app k ps qs : values k (ps ++ qs) = values k ps ++ values k qs.
Proof. apply omap_app. Qed.
Lemma values_opt_param k k' v :
  values k (opt_param k' v) = if bool_decide (k' = k) then (if is_empty v then [] else [v]) else [].
Proof. unfold opt_param, values. destruct (is_empty v); simpl; by case_bool_decide. Qed.
Lemma values_repeated k k' vs :
  values k (repeated k' vs) = if bool_decide (k' = k) then vs else [].
Proof.
  unfold values, repeated. induction vs as [|v vs IH]; csimpl; [by case_bool_decide|].
  rewrite IH. by case_bool_decide.
Qed.
Lemma values_cleared k k' b :
  values k (cleared k' b) = if bool_decide ("delete" = k) then (if b then [k'] else []) else [].
Proof. unfold cleared, values. destruct b; simpl; by case_bool_decide. Qed.
Lemma values_cons k k' v ps :
  values k ((k', v) :: ps) = (if bool_decide (k' = k) then [v] else []) ++ values k ps.
Proof. unfold values. csimpl. by case_bool_decide. Qed.
Lemma values_nil k : values k [] = [].
Proof. done. Qed.

Lemma values_if k (b : bool) ps qs :
  values k (if b then ps else qs) = if b then values k ps else values k qs.
Proof. by destruct b. Qed.
Lemma if_nil (b : bool) : (if b then [] else []) = ([] : list string).
Proof. by destruct b. Qed.

Create Rewrite HintDb body.
#[export] Hint Rewrite values_app values_opt_param values_repeated values_cleared values_cons
  values_nil values_if : body.

Ltac read_body :=
  autorewrite with body; json_keys; cbv iota;
  repeat (rewrite app_nil_l || rewrite app_nil_r || rewrite if_nil).

Lemma elem_of_if_singleton (b : bool) (k k' : string) :
  k ∈ (if b then [k'] else []) <-> b = true /\ k = k'.
Proof. destruct b; set_solver. Qed.

(** The [delete] keys of a matcher update. *)
Lemma matcher_deletes d k :
  k ∈ values "delete" (notif_matcher_update_params d) <->
  (nm_comment d = "" /\ k = "comment") \/ (nm_target d = [] /\ k = "target")
  \/ (nm_match_field d = [] /\ k = "match-field")
  \/ (nm_match_severity d = [] /\ k = "match-severity") \/ (nm_mode d = "" /\ k = "mode").
Proof.
  unfold notif_matcher_update_params, notif_matcher_params. read_body.
  rewrite !elem_of_app, !elem_of_if_singleton. unfold is_empty, is_nil.
  rewrite !bool_decide_eq_true.
  destruct (nm_target d), (nm_match_field d), (nm_match_severity d); naive_solver.
Qed.

Lemma flag01_spec b : bool_decide (flag01 b = "1") = b.
Proof. by destruct b. Qed.

(** A field is overwritten when it is given, or empty and deleted. *)
Lemma put_text_ok ps k old v :
  values k ps = (if is_empty v then [] else [v]) -> (v = "" -> k ∈ values "delete" ps) ->
  put_text ps k old = v.
Proof.
  intros Hv Hd. unfold put_text. rewrite Hv. unfold is_empty. case_bool_decide as He; [|done].
  by rewrite bool_decide_eq_true_2 by auto.
Qed.
Lemma put_list_ok ps k old vs :
  values k ps = vs -> (vs = [] -> k ∈ values "delete" ps) -> put_list ps k old = vs.
Proof.
  intros Hv Hd. unfold put_list. rewrite Hv. destruct vs; [|done].
  by rewrite bool_decide_eq_true_2 by auto.
Qed.
Lemma put_flag_ok ps k old b : values k ps = [flag01 b] -> put_flag ps k old = b.
Proof. intros Hv. unfold put_flag. rewrite Hv. apply flag01_spec. Qed.

Ltac read_field := unfold notif_matcher_update_params, notif_matcher_params,
  ha_rule_update_params, ha_rule_params; read_body; try reflexivity.

(** the update of a notification matcher overwrites every field: whatever
    matcher the cluster holds under that name, the body sent turns it into the
    declared one, cleared fields included. *)
Lemma matcher_update_overwrites old d :
  nm_name old = nm_name d -> put_matcher old (notif_matcher_update_params d) = d.
Proof.
  intros Hn. unfold put_matcher. rewrite Hn.
  rewrite (put_text_ok _ "comment" _ (nm_comment d)); [|read_field|rewrite matcher_deletes; auto].
  rewrite (put_list_ok _ "target" _ (nm_target d)); [|read_field|rewrite matcher_deletes; auto].
  rewrite (put_list_ok _ "match-field" _ (nm_match_field d)); [|read_field|rewrite matcher_deletes; auto].
  rewrite (put_list_ok _ "match-severity" _ (nm_match_severity d)); [|read_field|rewrite matcher_deletes; auto 7].
  rewrite (put_text_ok _ "mode" _ (nm_mode d)); [|read_field|rewrite matcher_deletes; auto 7].
  rewrite (put_flag_ok _ "invert-match" _ (nm_invert_match d)) by read_field.
  rewrite (put_flag_ok _ "disable" _ (nm_disable d)) by read_field.
  by destruct d.
Qed.

Definition sample_matcher (target : list string) (mode : string) : NotificationMatcherDecl :=
  {| nm_name := "default"; nm_comment := ""; nm_target := target; nm_match_field := [];
     nm_match_severity := ["error"]; nm_mode := mode; nm_invert_match := false; nm_disable := false |}.

Lemma matcher_update_overwrites_witness :
  put_matcher (sample_matcher ["mail"] "any") (notif_matcher_update_params (sample_matcher [] ""))
  = sample_matcher [] "".
Proof. apply matcher_update_overwrites. reflexivity. Defined.

(** ** HA rules *)
Definition put_rule (old : HaRuleDecl) (ps : Params) : HaRuleDecl :=
  {| hr_rule := hr_rule old; hr_rule_type := hr_rule_type old;
     hr_resources := match values "resources" ps with
                     | [] => if bool_decide ("resources" ∈ values "delete" ps) then [] else hr_resources old
                     | v :: _ => split_char "," v
                     end;
     hr_comment := put_text ps "comment" (hr_comment old);
     hr_disable := put_flag ps "disable" (hr_disable old);
     hr_nodes := put_text ps "nodes" (hr_nodes old);
     hr_strict := put_flag ps "strict" (hr_strict old);
     hr_affinity := put_text ps "affinity" (hr_affinity old) |}.

Lemma rule_deletes d k :
  k ∈ values "delete" (ha_rule_update_params d) <->
  (hr_comment d = "" /\ k = "comment") \/ (hr_resources d = [] /\ k = "resources")
  \/ ((hr_rule_type d = "node-affinity" /\ hr_nodes d = "") /\ k = "nodes")
  \/ ((hr_rule_type d = "resource-affinity" /\ hr_affinity d = "") /\ k = "affinity").
Proof.
  unfold ha_rule_update_params, ha_rule_params.
  read_body. rewrite !elem_of_app, !elem_of_if_singleton.
  assert (is_nil (hr_resources d) = true <-> hr_resources d = []) as -> by (by destruct (hr_resources d)).
  unfold is_node_affinity, is_resource_affinity, is_empty. rewrite !andb_true_iff, !bool_decide_eq_true.
  set_solver.
Qed.

(** A rule as PVE gives it: one of the two types, without the fields of the other. *)
Definition rule_wf (d : HaRuleDecl) : Prop :=
  Forall (fun r => has_char "," r = false) (hr_resources d) /\
  ((hr_rule_type d = "node-affinity" /\ hr_affinity d = "")
   \/ (hr_rule_type d = "resource-affinity" /\ hr_nodes d = "" /\ hr_strict d = false)).

Lemma rule_resources d :
  values "resources" (ha_rule_update_params d)
  = if is_nil (hr_resources d) then [] else [join "," (hr_resources d)].
Proof.
  unfold ha_rule_update_params, ha_rule_params. by read_body.
Qed.

Lemma rule_common d :
  values "comment" (ha_rule_update_params d) = (if is_empty (hr_comment d) then [] else [hr_comment d])
  /\ values "disable" (ha_rule_update_params d) = [flag01 (hr_disable d)].
Proof.
  unfold ha_rule_update_params, ha_rule_params. by read_body.
Qed.

Lemma rule_typed d :
  values "nodes" (ha_rule_update_params d)
    = (if is_node_affinity d then if is_empty (hr_nodes d) then [] else [hr_nodes d] else [])
  /\ values "strict" (ha_rule_update_params d)
     = (if is_node_affinity d then [flag01 (hr_strict d)] else [])
  /\ values "affinity" (ha_rule_update_params d)
     = (if is_resource_affinity d then if is_empty (hr_affinity d) then [] else [hr_affinity d] else []).
Proof.
  unfold ha_rule_update_params, ha_rule_params. by read_body.
Qed.

Lemma HaRuleDecl_ext x y :
  hr_rule x = hr_rule y -> hr_rule_type x = hr_rule_type y -> hr_resources x = hr_resources y ->
  hr_comment x = hr_comment y -> hr_disable x = hr_disable y -> hr_nodes x = hr_nodes y ->
  hr_strict x = hr_strict y -> hr_affinity x = hr_affinity y -> x = y.
Proof. destruct x, y. simpl. intros. by subst. Qed.

Lemma affinity_of_type d :
  (hr_rule_type d = "node-affinity" -> is_node_affinity d = true /\ is_resource_affinity d = false)
  /\ (hr_rule_type d = "resource-affinity" -> is_node_affinity d = false /\ is_resource_affinity d = true).
Proof. unfold is_node_affinity, is_resource_affinity. by split; intros ->. Qed.

Lemma put_rule_resources d old :
  Forall (fun r => has_char "," r = false) (hr_resources d) ->
  hr_resources (put_rule old (ha_rule_update_params d)) = hr_resources d.
Proof.
  intros Hr. unfold put_rule. cbn [hr_resources]. rewrite rule_resources. pose proof (rule_deletes d "resources") as Hd.
  destruct (hr_resources d) as [|x xs] eqn:E; cbn [is_nil].
  - rewrite bool_decide_eq_true_2; [done|]. apply Hd. auto.
  - by apply split_char_join.
Qed.

(** the update of an HA rule overwrites every field of its type: whatever
    rule of that type the cluster holds under that name, the body sent turns
    it into the declared one, cleared fields included. *)
Lemma rule_update_overwrites old d :
  rule_wf old -> rule_wf d -> hr_rule old = hr_rule d -> hr_rule_type old = hr_rule_type d ->
  put_rule old (ha_rule_update_params d) = d.
Proof.
  intros Hwo [Hr Hw] Hn Ht. pose proof (put_rule_resources d old Hr) as Hres.
  destruct (rule_common d) as [Hc Hdis], (rule_typed d) as (Hnodes & Hst & Haff).
  assert (hr_comment (put_rule old (ha_rule_update_params d)) = hr_comment d) as H1.
  { apply put_text_ok; [done|]. rewrite rule_deletes. auto. }
  assert (hr_disable (put_rule old (ha_rule_update_params d)) = hr_disable d) as H2 by (by apply put_flag_ok).
  assert (hr_nodes (put_rule old (ha_rule_update_params d)) = hr_nodes d
    /\ hr_strict (put_rule old (ha_rule_update_params d)) = hr_strict d
    /\ hr_affinity (put_rule old (ha_rule_update_params d)) = hr_affinity d) as (H3 & H4 & H5).
  { destruct Hwo as [_ [[Hto Hao]|(Hto & Hno & Hso)]], Hw as [[Htd Had]|(Htd & Hnd & Hsd)];
      try congruence; destruct (affinity_of_type d) as [Hnode Hresa].
    - destruct (Hnode Htd) as [En Er]. rewrite En in Hnodes, Hst. rewrite Er in Haff. split_and!; [apply put_text_ok; [done|]; rewrite rule_deletes; auto 7|by apply put_flag_ok|].
      unfold put_rule. cbn [hr_affinity]. unfold put_text. rewrite Haff, bool_decide_eq_false_2; [congruence|].
      rewrite rule_deletes, Htd. naive_solver.
    - destruct (Hresa Htd) as [En Er]. rewrite En in Hnodes, Hst. rewrite Er in Haff.
      unfold put_rule. cbn [hr_nodes hr_strict hr_affinity]. unfold put_text at 1, put_flag.
      rewrite Hnodes, Hst.
      rewrite !bool_decide_eq_false_2 by (rewrite rule_deletes, Htd; naive_solver).
      split_and!; [congruence|congruence|]. apply put_text_ok; [done|]. rewrite rule_deletes; auto 7. }
  by apply HaRuleDecl_ext.
Qed.

Definition sample_rule (nodes : string) (strict : bool) : HaRuleDecl :=
  {| hr_rule := "r1"; hr_rule_type := "node-affinity"; hr_resources := ["vm:100"; "vm:101"];
     hr_comment := ""; hr_disable := false; hr_nodes := nodes; hr_strict := strict; hr_affinity := "" |}.

Lemma rule_update_overwrites_witness :
  put_rule (sample_rule "pve1" true) (ha_rule_update_params (sample_rule "" false)) = sample_rule "" false.
Proof.
  apply rule_update_overwrites; try reflexivity;
    (split; [repeat constructor|left; split; reflexivity]).
Defined.

(** ** HA resources: one direction of two flags is never sent *)

(** A declaration that turns [failback] or [auto-rebalance] back on cannot be
    told apart from one that leaves the flag alone: the update body neither
    sets nor deletes it, so PVE keeps the old value and the next diff reports
    the same update again. *)
Lemma ha_resource_update_omits_true_flags d :
  (ha_failback d = true -> values "failback" (ha_resource_update_params d) = []) /\
  (ha_auto_rebalance d = true -> values "auto-rebalance" (ha_resource_update_params d) = []) /\
  "failback" ∉ values "delete" (ha_resource_update_params d) /\
  "auto-rebalance" ∉ values "delete" (ha_resource_update_params d).
Proof.
  unfold ha_resource_update_params, ha_resource_params. read_body.
  split_and!; [by intros ->|by intros ->|..];
    rewrite ?not_elem_of_app, ?elem_of_if_singleton; naive_solver.
Qed.
