(* ===== verification/Converge.v ===== *)
(** * Converging a cluster: src/state/converge.rs, with the drift computation
      of src/cli/reconcile.rs and the prompt of src/cli/state.rs

    detect, gate, apply, audit.  A run works on a pair of a cluster world [W]
    and an audit store [A]; writing an audit entry is a parameter
    ([audit_log]), best-effort as in the source.  A run that is dropped while
    it waits for a call ends in one of the intermediate worlds, and its guard
    writes an entry of its own. *)
From S2P Require Import Prelude Json StateModel StateSerde StateDiff StateDiffTheory.
From S2P Require Import StateDiffSpec StateLoad Guest StatePreflight StatePreflightSpec ApiError.
From S2P Require Import StateApply StateApplySpec.

(** ** Reports *)
Record ConvergeReport := {
  cr_outcomes : list ApplyOutcome;
  cr_total_changes : nat;
  cr_applied : nat;
  cr_failed : nat;
  cr_skipped : nat;
}.

Definition in_sync_report : ConvergeReport :=
  {| cr_outcomes := []; cr_total_changes := 0; cr_applied := 0; cr_failed := 0; cr_skipped := 0 |}.

Definition tally (acc : nat * nat * nat) (o : ApplyOutcome) : nat * nat * nat :=
  let '(applied, failed, skipped) := acc in
  match out_result o with
  | Applied => (S applied, failed, skipped)
  | Failed _ => (applied, S failed, skipped)
  | Skipped _ => (applied, failed, S skipped)
  end.

Definition from_outcomes (outcomes : list ApplyOutcome) : ConvergeReport :=
  let '(applied, failed, skipped) := foldl tally (0, 0, 0) outcomes in
  {| cr_outcomes := outcomes; cr_total_changes := length outcomes;
     cr_applied := applied; cr_failed := failed; cr_skipped := skipped |}.

Definition any_failed (r : ConvergeReport) : bool := 0 <? cr_failed r.
Definition report_dispatched (r : ConvergeReport) : bool := (0 <? cr_applied r) || (0 <? cr_failed r).
Definition report_exit_code (r : ConvergeReport) : Z := if any_failed r then 2 else 0.
Definition audit_result (r : ConvergeReport) : string :=
  "applied " +:+ pretty (cr_applied r) +:+ " / failed " +:+ pretty (cr_failed r)
  +:+ " / skipped " +:+ pretty (cr_skipped r).

(** ** Drift summary *)
Record FamilyDrift := { fd_create : nat; fd_update : nat; fd_delete : nat }.

Definition count_kind (k : ChangeKind) (d : FamilyDrift) : FamilyDrift :=
  match k with
  | Create => {| fd_create := S (fd_create d); fd_update := fd_update d; fd_delete := fd_delete d |}
  | Update => {| fd_create := fd_create d; fd_update := S (fd_update d); fd_delete := fd_delete d |}
  | Delete => {| fd_create := fd_create d; fd_update := fd_update d; fd_delete := S (fd_delete d) |}
  end.
Definition no_drift : FamilyDrift := {| fd_create := 0; fd_update := 0; fd_delete := 0 |}.

Definition by_family (changes : list Change) : gmap string FamilyDrift :=
  foldl (fun m c => <[c_resource c := count_kind (c_kind c) (default no_drift (m !! c_resource c))]> m)
    ∅ changes.

(** A [BTreeMap] is iterated in the order of its keys. *)
Definition families_in_order (m : gmap string FamilyDrift) : list (string * FamilyDrift) :=
  omap (fun k => pair k <$> m !! k) (sort_unstable String.le (keys m)).

Definition family_line (fd : string * FamilyDrift) : string :=
  let '(fam, d) := fd in
  let part n what := if 0 <? n then [pretty n +:+ what] else [] in
  fam +:+ ": " +:+ join ", " (part (fd_create d) " create" ++ part (fd_update d) " update"
                              ++ part (fd_delete d) " delete").

Definition drift_summary (changes : list Change) : string :=
  match changes with
  | [] => "in sync"
  | _ =>
      let families := families_in_order (by_family changes) in
      pretty (length changes) +:+ " change(s) across " +:+ pretty (length families) +:+ " famil"
      +:+ (if length families =? 1 then "y" else "ies") +:+ " — " +:+ join "; " (family_line <$> families)
  end.

Definition family_counts (changes : list Change) : list (string * nat) :=
  (fun '(fam, d) => (fam, fd_create d + fd_update d + fd_delete d))
  <$> families_in_order (by_family changes).

(** ** Audit entries *)
Record AuditEntry := {
  ae_action : string;
  ae_user : string;
  ae_profile : string;
  ae_source : string;
  ae_summary : string;
  ae_total : nat;
  ae_result : string;
}.

Inductive ConvergeError :=
  | Refused (r : PreflightRefusal)
  | Mismatch (m : ProfileMismatch)
  | Failure (e : AnyErr).

Section Converge.
Context {W A : Type} (client : WriteCall -> SM W AnyErr ()) (audit_log : AuditEntry -> A -> A).

Definition write_apply_audit (action user profile source summary : string) (report : ConvergeReport)
    (a : A) : A :=
  audit_log {| ae_action := action; ae_user := user; ae_profile := profile; ae_source := source;
               ae_summary := summary; ae_total := cr_total_changes report;
               ae_result := audit_result report |} a.

(** [Drop for InterruptedRunGuard] *)
Definition interrupted_drop (armed : bool) (action user profile source summary : string) (total : nat)
    (a : A) : A :=
  if armed then
    audit_log {| ae_action := action +:+ "_interrupted"; ae_user := user; ae_profile := profile;
                 ae_source := source; ae_summary := summary; ae_total := total;
                 ae_result := "INTERRUPTED" |} a
  else a.

Definition apply_and_audit (profile source : string) (changes : list Change) (opts : ApplyOptions)
    (audit_user action : string) (s : W * A) : ConvergeReport * (W * A) :=
  match changes with
  | [] => (in_sync_report, s)
  | _ =>
      let summary := drift_summary changes in
      let '(outcomes, w') := apply client changes opts s.1 in
      let report := from_outcomes outcomes in
      let a' := if negb (opt_dry_run opts) && report_dispatched report
                then write_apply_audit action audit_user profile source summary report s.2
                else s.2 in
      (report, (w', a'))
  end.

(** [enforce_state_preflight(..)?] then [apply_and_audit]. *)
Definition converge_with_changes (profile source : string) (changes : list Change)
    (live : ClusterState) (opts : ApplyOptions) (force : bool) (audit_user : string)
    : SM (W * A) ConvergeError ConvergeReport := fun s =>
  match (enforce_state_preflight changes live force (opt_prune opts)).2 with
  | Err e => (Err (Refused e), s)
  | Ok _ =>
      let '(report, s') := apply_and_audit profile source changes opts audit_user "reconcile_converge" s in
      (Ok report, s')
  end.

(** ** Detecting drift

    Reading the source text and exporting the live state are parameters. *)
Context (load_desired : W -> Result AnyErr string)
        (export_state : SM W AnyErr ClusterState)
        (parse : string -> Result string ClusterState)
        (table_keys : string -> Result string (option (gset string))).

Definition compute_drift_checked (profile source : string) (enforce_profile_match allow_profile_mismatch : bool)
    : SM W ConvergeError (list Change * ClusterState) := fun w =>
  match load_desired w with
  | Err e => (Err (Failure e), w)
  | Ok text =>
      match from_toml_str parse table_keys text with
      | Err e => (Err (Failure (context ("parsing desired state from `" +:+ source
                   +:+ "` — is it the output of `proxxx state export`?") (bail e))), w)
      | Ok declared =>
          match check_profile_match declared profile source enforce_profile_match allow_profile_mismatch with
          | Err m => (Err (Mismatch m), w)
          | Ok _ =>
              match export_state w with
              | (Err e, w') => (Err (Failure e), w')
              | (Ok live, w') => (Ok (diff declared live, live), w')
              end
          end
      end
  end.

Definition converge_with_mismatch_policy (profile source : string) (opts : ApplyOptions)
    (force allow_profile_mismatch : bool) (audit_user : string)
    : SM (W * A) ConvergeError ConvergeReport := fun s =>
  match compute_drift_checked profile source true allow_profile_mismatch s.1 with
  | (Err e, w') => (Err e, (w', s.2))
  | (Ok (changes, live), w') =>
      converge_with_changes profile source changes live opts force audit_user (w', s.2)
  end.

Definition converge (profile source : string) (opts : ApplyOptions) (force : bool) (audit_user : string)
    : SM (W * A) ConvergeError ConvergeReport :=
  converge_with_mismatch_policy profile source opts force false audit_user.

(** ** The interactive prompt

    Standard input as the lines it still holds; [None] is a read error and the
    end of the list is the end of the input. *)
Definition approves (line : option string) : bool :=
  match line with
  | Some l => bool_decide (to_ascii_lowercase (trim l) ∈ ["y"; "yes"])
  | None => false
  end.

Fixpoint interactive_hitl_filter (changes : list Change) (live : ClusterState) (prune : bool)
    (stdin : list (option string)) : list Change :=
  match changes with
  | [] => []
  | c :: rest =>
      if negb (dispatched_by_apply c prune) then c :: interactive_hitl_filter rest live prune stdin
      else if negb (bool_decide (max_of (level <$> assess [c] live) = Severe))
      then c :: interactive_hitl_filter rest live prune stdin
      else match stdin with
           | [] => interactive_hitl_filter rest live prune []
           | line :: stdin' =>
               if approves line then c :: interactive_hitl_filter rest live prune stdin'
               else interactive_hitl_filter rest live prune stdin'
           end
  end.

(** ** All the ways a run can end

    [watched] notes the world after each call; a future is dropped while it
    waits for one of them. *)
Definition watched (c : WriteCall) : SM (W * list W) AnyErr () := fun '(w, ws) =>
  let '(r, w') := client c w in (r, (w', ws ++ [w'])).

(** The worlds a run passes through, the first one included. *)
Definition worlds (changes : list Change) (opts : ApplyOptions) (w : W) : list W :=
  w :: (apply watched changes opts (w, [])).2.2.

Inductive run_ends (profile source user action : string) (changes : list Change)
    (opts : ApplyOptions) (s : W * A) : W * A -> Prop :=
  | run_completes :
      run_ends profile source user action changes opts s
        (apply_and_audit profile source changes opts user action s).2
  | run_dropped w' :
      changes <> [] -> w' ∈ worlds changes opts s.1 ->
      run_ends profile source user action changes opts s
        (w', interrupted_drop (negb (opt_dry_run opts)) action user profile source
               (drift_summary changes) (length changes) s.2).
End Converge.


(** ** Reports count every outcome once *)
Definition count_results (p : ApplyResult -> bool) (outs : list ApplyOutcome) : nat :=
  length (filter (fun o => p (out_result o) = true) outs).
Definition is_applied (r : ApplyResult) : bool := match r with Applied => true | _ => false end.
Definition is_skipped (r : ApplyResult) : bool := match r with Skipped _ => true | _ => false end.

Lemma count_results_cons p o outs :
  count_results p (o :: outs) = (if p (out_result o) then 1 else 0) + count_results p outs.
Proof. unfold count_results. rewrite filter_cons. by destruct (p (out_result o)). Qed.

Lemma tally_spec outs a f k :
  foldl tally (a, f, k) outs =
  (a + count_results is_applied outs, f + count_results is_failed outs, k + count_results is_skipped outs).
Proof.
  revert a f k. induction outs as [|o outs IH]; intros a f k.
  - unfold count_results. simpl. by rewrite !Nat.add_0_r.
  - cbn [foldl]. rewrite !count_results_cons. unfold tally at 2.
    destruct (out_result o); simpl; rewrite IH;
      (apply pair_equal_spec; split; [apply pair_equal_spec; split|]; lia).
Qed.

Lemma from_outcomes_spec outs :
  from_outcomes outs =
  {| cr_outcomes := outs; cr_total_changes := length outs;
     cr_applied := count_results is_applied outs; cr_failed := count_results is_failed outs;
     cr_skipped := count_results is_skipped outs |}.
Proof. unfold from_outcomes. by rewrite tally_spec. Qed.

Lemma results_partition outs :
  count_results is_applied outs + count_results is_failed outs + count_results is_skipped outs
  = length outs.
Proof.
  induction outs as [|o outs IH]; [done|]. rewrite !count_results_cons. simpl.
  destruct (out_result o); simpl; lia.
Qed.

Lemma count_results_pos p outs :
  (0 <? count_results p outs) = true <-> exists o, o ∈ outs /\ p (out_result o) = true.
Proof.
  unfold count_results. rewrite Nat.ltb_lt. split.
  - destruct (filter _ outs) as [|o l] eqn:E; simpl; [lia|]. intros _. exists o.
    assert (o ∈ o :: l) as Ho by set_solver. rewrite <-E in Ho.
    apply list_elem_of_filter in Ho. tauto.
  - intros (o & Ho & Hp). destruct (filter _ outs) as [|o' l] eqn:E; simpl; [|lia].
    assert (o ∈ filter (fun o => p (out_result o) = true) outs) as Hin by (by apply list_elem_of_filter).
    rewrite E in Hin. set_solver.
Qed.

Lemma apply_and_audit_report {W A} (client : WriteCall -> SM W AnyErr ())
    (audit_log : AuditEntry -> A -> A) profile source changes opts user action s :
  (apply_and_audit client audit_log profile source changes opts user action s).1
  = from_outcomes (apply client changes opts s.1).1
  /\ (apply_and_audit client audit_log profile source changes opts user action s).2.1
     = (apply client changes opts s.1).2.
Proof.
  unfold apply_and_audit. destruct changes as [|c cs]; [by rewrite from_outcomes_spec|].
  by destruct (apply client (c :: cs) opts s.1) as [outs w'].
Qed.

(** the report of a run accounts for every change exactly once, in order,
    its exit code is 2 when a change failed and 0 otherwise, and a dry run
    reports every change as skipped. *)
Lemma converge_report_accounts {W A} (client : WriteCall -> SM W AnyErr ())
    (audit_log : AuditEntry -> A -> A) profile source changes opts user action s :
  let r := (apply_and_audit client audit_log profile source changes opts user action s).1 in
  out_change <$> cr_outcomes r = changes
  /\ cr_applied r + cr_failed r + cr_skipped r = length changes
  /\ cr_total_changes r = length changes
  /\ (report_exit_code r = 2%Z <-> exists o, o ∈ cr_outcomes r /\ is_failed (out_result o) = true)
  /\ (report_exit_code r = 0%Z <-> forall o, o ∈ cr_outcomes r -> is_failed (out_result o) = false)
  /\ (opt_dry_run opts = true -> cr_skipped r = length changes).
Proof.
  intros r. unfold r. destruct (apply_and_audit_report client audit_log profile source changes opts user action s)
    as [-> _]. clear r.
  pose proof (apply_loop_changes client opts false changes s.1) as Hcs.
  assert (length (apply client changes opts s.1).1 = length changes) as Hlen
    by (rewrite <-Hcs at 2; by rewrite length_fmap).
  rewrite from_outcomes_spec. cbn [cr_outcomes cr_applied cr_failed cr_skipped cr_total_changes].
  unfold report_exit_code, any_failed. cbn [cr_failed].
  pose proof (count_results_pos is_failed (apply client changes opts s.1).1) as Hpos.
  split_and!; [done|by rewrite results_partition|done| | |].
  - rewrite <-Hpos. by destruct (0 <? _).
  - destruct (0 <? _); split; try done.
    + intros Hall. destruct Hpos as [(o & Ho & Hf) _]; [done|]. by rewrite Hall in Hf.
    + intros _ o Ho. apply not_true_iff_false. intros Hf. destruct Hpos as [_ Hpos].
      assert (false = true) by (apply Hpos; eauto). done.
  - intros Hd. unfold apply. rewrite apply_loop_dry_run by done. simpl.
    clear. induction changes as [|c cs IH]; [done|]. rewrite fmap_cons, count_results_cons. simpl. by rewrite IH.
Qed.

(** ** A run that touched the cluster leaves a record *)
Lemma apply_loop_all_skipped {W} (client : WriteCall -> SM W AnyErr ()) opts ab cs w :
  Forall (fun o => is_skipped (out_result o) = true) (apply_loop client opts ab cs w).1 ->
  (apply_loop client opts ab cs w).2 = w.
Proof.
  revert ab w. induction cs as [|c cs IH]; intros ab w; [done|].
  rewrite apply_loop_cons. unfold pass. destruct (sends opts ab c).
  - unfold apply_one. destruct (dispatch client c w) as [[u|e] w1]; cbv zeta;
      destruct (apply_loop client opts _ cs w1) as [out w']; simpl; intros [H _]%Forall_cons; done.
  - cbv zeta. match goal with |- context [apply_loop client opts ?a cs w] => specialize (IH a w) end.
    destruct (apply_loop client opts _ cs w) as [out w']. simpl in *. intros [_ H]%Forall_cons. auto.
Qed.

Lemma not_dispatched_unchanged {W} (client : WriteCall -> SM W AnyErr ()) cs opts w :
  report_dispatched (from_outcomes (apply client cs opts w).1) = false -> (apply client cs opts w).2 = w.
Proof.
  rewrite from_outcomes_spec. unfold report_dispatched. cbn [cr_applied cr_failed].
  intros [Ha Hf]%orb_false_iff. apply apply_loop_all_skipped, Forall_forall. intros o Ho.
  assert (is_applied (out_result o) <> true) as H1.
  { intros Hp. rewrite (proj2 (count_results_pos is_applied _)) in Ha; [done|]. eauto. }
  assert (is_failed (out_result o) <> true) as H2.
  { intros Hp. rewrite (proj2 (count_results_pos is_failed _)) in Hf; [done|]. eauto. }
  by destruct (out_result o).
Qed.

Lemma worlds_dry_run {W} (client : WriteCall -> SM W AnyErr ()) cs opts w w' :
  opt_dry_run opts = true -> w' ∈ worlds client cs opts w -> w' = w.
Proof.
  intros Hd. unfold worlds, apply. rewrite apply_loop_dry_run by done. set_solver.
Qed.

(** a run that changed the cluster leaves exactly one audit entry, whether
    it ran to its end or was dropped in the middle of a call, and the entry
    names the run, its source and what it set out to change; a dry run changes
    neither the cluster nor the audit store. *)
Lemma changed_cluster_is_recorded {W A} (client : WriteCall -> SM W AnyErr ())
    (audit_log : AuditEntry -> A -> A) profile source user action changes opts s s' :
  run_ends client audit_log profile source user action changes opts s s' ->
  (s'.1 <> s.1 -> exists e, s'.2 = audit_log e s.2
     /\ (ae_action e = action \/ ae_action e = action +:+ "_interrupted")
     /\ ae_user e = user /\ ae_profile e = profile /\ ae_source e = source
     /\ ae_summary e = drift_summary changes /\ ae_total e = length changes)
  /\ (opt_dry_run opts = true -> s' = s).
Proof.
  intros [|w' Hne Hw'].
  - pose proof (apply_and_audit_report client audit_log profile source changes opts user action s) as [_ Hw].
    pose proof (not_dispatched_unchanged client changes opts s.1) as Hnd.
    pose proof (apply_loop_changes client opts false changes s.1) as Hcs.
    pose proof (apply_loop_dry_run client opts changes s.1) as Hdry.
    split.
    + rewrite Hw. unfold apply_and_audit. destruct changes as [|c cs]; [done|].
      destruct (opt_dry_run opts) eqn:Hd; [unfold apply; by rewrite Hdry|].
      destruct (report_dispatched _) eqn:Hr; [|by rewrite Hnd]. intros _.
      unfold apply in *. destruct (apply_loop client opts false (c :: cs) s.1) as [outs w'].
      cbn [fst snd negb andb] in *. rewrite Hr. eexists. split; [done|]. cbn.
      rewrite from_outcomes_spec. cbn [cr_total_changes]. split_and!; auto.
      change (length outs = length (c :: cs)). rewrite <-Hcs. by rewrite length_fmap.
    + intros Hd. destruct s as [w a]. unfold apply_and_audit, apply. destruct changes as [|c cs]; [done|].
      rewrite Hdry, Hd by done. done.
  - split.
    + cbn [fst snd]. unfold interrupted_drop. destruct (opt_dry_run opts) eqn:Hd; cbn [negb].
      * intros Hch. by apply (worlds_dry_run _ _ _ _ _ Hd) in Hw'.
      * intros _. eexists. split; [done|]. cbn. split_and!; auto.
    + intros Hd. rewrite Hd. cbn. rewrite (worlds_dry_run _ _ _ _ _ Hd Hw'). by destruct s.
Qed.

(** ** Refusals leave the cluster alone *)

(** converging towards a document made for another profile is refused
    before anything is asked of the cluster, unless that was allowed: neither
    the cluster nor the audit store changes. *)
Lemma converge_wrong_profile_untouched {W A} (client : WriteCall -> SM W AnyErr ())
    (audit_log : AuditEntry -> A -> A) load_desired export_state parse table_keys
    profile source opts force user s text declared meta :
  load_desired s.1 = Ok text -> from_toml_str parse table_keys text = Ok declared ->
  cs_meta declared = Some meta -> meta_profile meta <> "" -> meta_profile meta <> profile ->
  converge client audit_log load_desired export_state parse table_keys profile source opts force user s
  = (Err (Mismatch (mk_ProfileMismatch source (meta_profile meta) profile)), s).
Proof.
  intros Hload Hparse Hm Hne Hdiff.
  unfold converge, converge_with_mismatch_policy, compute_drift_checked.
  rewrite Hload, Hparse. unfold check_profile_match, is_empty. rewrite Hm.
  rewrite !bool_decide_eq_false_2 by done. by destruct s.
Qed.

(** an unattended converge ([force = false]) whose plan is dangerous sends
    nothing: the whole batch is refused, the cluster is the one the export
    left and the audit store is as it was. *)
Lemma converge_severe_untouched {W A} (client : WriteCall -> SM W AnyErr ())
    (audit_log : AuditEntry -> A -> A) load_desired export_state parse table_keys
    profile source opts allow user s text declared live w' :
  load_desired s.1 = Ok text -> from_toml_str parse table_keys text = Ok declared ->
  is_ok (check_profile_match declared profile source true allow) = true ->
  export_state s.1 = (Ok live, w') -> comparable declared live ->
  severe_plan declared live (opt_prune opts) ->
  converge_with_mismatch_policy client audit_log load_desired export_state parse table_keys
    profile source opts false allow user s
  = (Err (Refused mk_PreflightRefusal), (w', s.2)).
Proof.
  intros Hload Hparse Hprof Hexp Hcmp Hsev.
  unfold converge_with_mismatch_policy, compute_drift_checked. rewrite Hload, Hparse.
  destruct (check_profile_match declared profile source true allow); [|done].
  rewrite Hexp. unfold converge_with_changes. by rewrite severe_plan_refused.
Qed.

(** ** The prompt *)
Lemma interactive_sublist changes live prune stdin :
  sublist (interactive_hitl_filter changes live prune stdin) changes.
Proof.
  revert stdin. induction changes as [|c cs IH]; intros stdin; [constructor|].
  cbn [interactive_hitl_filter]. repeat case_match; (apply sublist_skip || apply sublist_cons); apply IH.
Qed.

(** interactive approval never adds or reorders a change, and silence is
    no consent: with no answer left on the input, what remains holds no change
    of severe risk that the run would send. *)
Lemma interactive_silence_is_refusal changes live prune :
  sublist (interactive_hitl_filter changes live prune []) changes /\
  Forall (fun c => dispatched_by_apply c prune = true -> Severe ∉ level <$> assess_one c live)
    (interactive_hitl_filter changes live prune []).
Proof.
  split; [apply interactive_sublist|].
  induction changes as [|c cs IH]; [constructor|]. cbn [interactive_hitl_filter].
  destruct (dispatched_by_apply c prune) eqn:Hd; cbn [negb].
  - case_bool_decide as Hs; cbn [negb]; [done|]. constructor; [|done]. intros _ Hin.
    apply Hs, max_of_severe. unfold assess. simpl. by rewrite app_nil_r.
  - constructor; [by rewrite Hd|done].
Qed.

(** ** Witnesses *)
Definition demo_client (c : WriteCall) : SM nat AnyErr () := fun n => (Ok (), S n).
Definition demo_opts (dry prune : bool) : ApplyOptions :=
  {| opt_dry_run := dry; opt_prune := prune; opt_continue_on_error := false |}.
Definition demo_meta : StateMeta :=
  {| meta_schema_version := 1; meta_profile := "prod"; meta_exported_at := "";
     meta_exported_from_proxxx := ""; meta_pve_version := "" |}.
Definition demo_doc : ClusterState :=
  {| cs_meta := Some demo_meta;
     cs_declared_families := None; cs_pools := [];
     cs_acl := [sample_acl "/vms/100" "alice@pve" "PVEVMUser"]; cs_storage := [];
     cs_backup_jobs := []; cs_firewall_options := None; cs_firewall_aliases := [];
     cs_firewall_ipsets := []; cs_firewall_groups := []; cs_notification_matchers := [];
     cs_ha_resources := []; cs_ha_rules := []; cs_mappings_pci := []; cs_mappings_usb := [] |}.
Definition demo_keys (_ : string) : Result string (option (gset string)) := Ok (Some {[ "meta"; "acl" ]}).
Definition demo_loaded : ClusterState := record_declared_families demo_doc (Some {[ "meta"; "acl" ]}).

Lemma changed_cluster_is_recorded_witness :
  exists e : AuditEntry,
    (apply_and_audit demo_client (fun e log => log ++ [e]) "prod" "state.toml"
       (diff demo_loaded sample_live) (demo_opts false true) "root@pam" "state_apply" (0, [])).2.2 = [e].
Proof.
  edestruct (changed_cluster_is_recorded demo_client (fun e log => log ++ [e]) "prod" "state.toml"
    "root@pam" "state_apply" (diff demo_loaded sample_live) (demo_opts false true) (0, [])) as [H _].
  { apply run_completes. }
  destruct H as (e & -> & _); [vm_compute; discriminate|]. by exists e.
Defined.

Lemma converge_wrong_profile_untouched_witness :
  converge demo_client (fun e log => log ++ [e]) (fun _ => Ok "doc") (lift (Ok sample_live))
    (fun _ => Ok demo_doc) demo_keys "staging" "state.toml" (demo_opts false true) true "root@pam" (0, [])
  = (Err (Mismatch (mk_ProfileMismatch "state.toml" "prod" "staging")), (0, [])).
Proof.
  eapply (converge_wrong_profile_untouched demo_client (fun e log => log ++ [e]) (fun _ => Ok "doc")
    (lift (Ok sample_live)) (fun _ => Ok demo_doc) demo_keys "staging" "state.toml" (demo_opts false true)
    true "root@pam" (0, []) "doc" demo_loaded demo_meta); try reflexivity; try discriminate.
Defined.

Lemma converge_severe_untouched_witness :
  converge_with_mismatch_policy demo_client (fun e log => log ++ [e]) (fun _ => Ok "doc")
    (lift (Ok sample_live)) (fun _ => Ok demo_doc) demo_keys "prod" "state.toml" (demo_opts false true)
    false false "root@pam" (0, [])
  = (Err (Refused mk_PreflightRefusal), (0, [])).
Proof.
  eapply (converge_severe_untouched demo_client (fun e log => log ++ [e]) (fun _ => Ok "doc")
    (lift (Ok sample_live)) (fun _ => Ok demo_doc) demo_keys "prod" "state.toml" (demo_opts false true)
    false "root@pam" (0, []) "doc" demo_loaded sample_live 0); try reflexivity.
  - split_and!; [apply validate_ok; vm_compute; reflexivity..|repeat constructor; discriminate|
      repeat constructor; discriminate].
  - apply (sp_acl _ _ (sample_acl "/" "root@pam" "Administrator")).
    + vm_compute. reflexivity.
    + split; [set_solver|]. apply (bool_decide_unpack _). vm_compute. exact I.
    + vm_compute. reflexivity.
Defined.
