(* ===== verification/Incident.v ===== *)
(** * The incident kill-switch: src/incident/mod.rs

    Freeze locks on a file system [Fs], a finite map from path to file.  The
    TOML reader and writer are parameters; the clock, the operator's identity
    and whether the disk takes a write are arguments.  A lock that exists and
    cannot be read counts as a freeze. *)
From S2P Require Import Prelude ApiError.

Record FreezeState := {
  fz_reason : string;
  fz_operator : string;
  fz_frozen_at : N;
  fz_ttl_secs : option N;
  fz_profile : option string;
}.
#[export] Instance FreezeState_eq_dec : EqDecision FreezeState.
Proof. solve_decision. Defined.

Definition is_active_at (s : FreezeState) (now : N) : bool :=
  match fz_ttl_secs s with
  | Some ttl => (now <? u64_saturating_add (fz_frozen_at s) ttl)%N
  | None => true
  end.

Record FreezeRefusal := {
  fr_reason : string;
  fr_frozen_at : N;
  fr_scope : string;
}.
Definition FreezeRefusal_EXIT_CODE : Z := 8.

(** ** Paths *)

(** One character of a name: a byte sequence of UTF-8 folds to one [_]. *)
Definition is_continuation (a : ascii) : bool :=
  let n := N_of_ascii a in ((128 <=? n) && (n <=? 191))%N.
Definition is_lock_char (a : ascii) : bool :=
  let n := N_of_ascii a in
  ((65 <=? n) && (n <=? 90) || (97 <=? n) && (n <=? 122) || (48 <=? n) && (n <=? 57)
   || (n =? 45) || (n =? 95))%N.
Fixpoint sanitize_chars (s : string) : string :=
  match s with
  | "" => ""
  | String a s' =>
      if is_lock_char a then String a (sanitize_chars s')
      else if is_continuation a then sanitize_chars s'
      else String "_" (sanitize_chars s')
  end.
Definition sanitize_profile (name : string) : string :=
  let s := sanitize_chars name in if is_empty s then "_" else s.

Definition scope_label (profile : option string) : string :=
  match profile with None => "the fleet" | Some p => "profile '" +:+ p +:+ "'" end.

(** The directory of the locks and the path of the global one, as
    [freeze_locations] resolves them from the environment. *)
Record Locations := { loc_dir : string; loc_global : string }.

Definition freeze_path_for (loc : Locations) (profile : option string) : string :=
  match profile with
  | None => loc_global loc
  | Some name => loc_dir loc +:+ "/freeze." +:+ sanitize_profile name +:+ ".lock"
  end.

Definition lock_paths_for (loc : Locations) (profile : option string) : string * option string :=
  (freeze_path_for loc None, (fun n => freeze_path_for loc (Some n)) <$> profile).

(** The parts of the operator label. *)
Definition compose_operator_id (resolved claimed : option string) (uid : N) (host : string) : string :=
  (match resolved, claimed with
   | Some r, Some c =>
       if bool_decide (r = c) then r
       else r +:+ "(uid:" +:+ pretty uid +:+ ";claimed:" +:+ c +:+ ")"
   | Some r, None => r
   | None, Some c => "uid:" +:+ pretty uid +:+ "(claimed:" +:+ c +:+ ")"
   | None, None => "uid:" +:+ pretty uid
   end) +:+ "@" +:+ host.

(** ** Files *)
(** A file that is [Hidden] is there, but asking for it fails (a directory on
    its way that may not be searched): [Path::exists] says [false]. *)
Inductive File :=
  | Readable (text : string)
  | Unreadable (error : string)
  | Hidden.
Notation Fs := (gmap string File).

Section Locks.
Context (to_toml : FreezeState -> string) (from_toml : string -> Result string FreezeState).

(** [path.exists()] *)
Definition path_exists (fs : Fs) (path : string) : bool :=
  match fs !! path with None | Some Hidden => false | Some _ => true end.
Definition current_state_at (fs : Fs) (now : N) (path : string) : Result AnyErr (option FreezeState) :=
  match fs !! path with
  | None | Some Hidden => Ok None
  | Some (Unreadable e) => Err (context ("reading freeze lock at " +:+ path) (bail e))
  | Some (Readable content) =>
      match from_toml content with
      | Err e => Err (context ("parsing freeze lock at " +:+ path) (bail e))
      | Ok state => Ok (if is_active_at state now then Some state else None)
      end
  end.

Definition unreadable_reason (path : string) (e : AnyErr) : string :=
  "the freeze lock at " +:+ path +:+ " could not be read or parsed, so proxxx cannot "
  +:+ "tell whether a freeze is active. Run `proxxx incident thaw` to clear "
  +:+ "it deliberately, or repair the file. Underlying error: "
  +:+ match err_chain e with m :: _ => m | [] => "" end.

Definition check_not_frozen_at (fs : Fs) (now : N) (path : string) : Result FreezeRefusal () :=
  match current_state_at fs now path with
  | Ok (Some state) =>
      Err {| fr_reason := fz_reason state; fr_frozen_at := fz_frozen_at state;
             fr_scope := scope_label (fz_profile state) |}
  | Ok None => Ok ()
  | Err e =>
      Err {| fr_reason := unreadable_reason path e; fr_frozen_at := 0;
             fr_scope := "the fleet (lock unreadable)" |}
  end.

Definition check_not_frozen_paths (fs : Fs) (now : N) (global : string) (profile : option string)
    : Result FreezeRefusal () :=
  check_not_frozen_at fs now global ;;
  match profile with Some p => check_not_frozen_at fs now p | None => Ok () end.

Definition check_not_frozen_for (fs : Fs) (now : N) (loc : Locations) (profile : option string)
    : Result FreezeRefusal () :=
  let '(global, prof) := lock_paths_for loc profile in
  check_not_frozen_paths fs now global prof.

(** [write_atomic]: the file is replaced as a whole, or not at all.  The
    rename is followed by a sync of the directory, which can fail with the new
    file in place. *)
Inductive WriteDisk := Written | NotWritten (e : string) | Unsynced (e : string).
Definition write_atomic (disk : WriteDisk) (path text : string) (fs : Fs) : Result AnyErr () * Fs :=
  match disk with
  | Written => (Ok (), <[path := Readable text]> fs)
  | NotWritten e => (Err (context ("writing freeze lock " +:+ path) (bail e)), fs)
  | Unsynced e => (Err (context ("writing freeze lock " +:+ path) (bail e)), <[path := Readable text]> fs)
  end.

Definition write_freeze_at (disk : WriteDisk) (operator : string) (now : N) (path : string)
    (profile : option string) (reason : string) (ttl_secs : option N) : SM Fs AnyErr FreezeState :=
  fun fs =>
    if is_empty (trim reason)
    then (Err (bail "freeze reason is required (operator + reviewers need it later)"), fs)
    else
      let state := {| fz_reason := reason; fz_operator := operator; fz_frozen_at := now;
                      fz_ttl_secs := ttl_secs; fz_profile := profile |} in
      match write_atomic disk path (to_toml state) fs with
      | (Err e, fs') => (Err e, fs')
      | (Ok _, fs') => (Ok state, fs')
      end.

Definition freeze_for (disk : WriteDisk) (operator : string) (now : N) (loc : Locations)
    (profile : option string) (reason : string) (ttl_secs : option N) : SM Fs AnyErr FreezeState :=
  write_freeze_at disk operator now (freeze_path_for loc profile) profile reason ttl_secs.

Definition thaw_at (disk : Result string ()) (now : N) (path : string) : SM Fs AnyErr (option FreezeState) :=
  fun fs =>
    if negb (path_exists fs path) then (Ok None, fs)
    else
        let prior := match current_state_at fs now path with Ok o => o | Err _ => None end in
        match disk with
        | Err e => (Err (context ("removing freeze lock at " +:+ path) (bail e)), fs)
        | Ok _ => (Ok prior, delete path fs)
        end.

Definition thaw_for (disk : Result string ()) (now : N) (loc : Locations) (profile : option string)
    : SM Fs AnyErr (option FreezeState) :=
  thaw_at disk now (freeze_path_for loc profile).

(** [Option<String>] orders [None] first. *)
Definition profile_le : relation FreezeState := fun a b =>
  match fz_profile a, fz_profile b with
  | None, _ => True
  | Some _, None => False
  | Some p, Some q => String.le p q
  end.
#[export] Instance profile_le_dec : RelDecision profile_le.
Proof. intros a b. unfold profile_le. repeat case_match; apply _. Defined.

(** The entries of the lock directory, as (file name, path). *)
Definition list_active_in (fs : Fs) (now : N) (entries : list (string * string)) : list FreezeState :=
  merge_sort profile_le
    (omap (fun '(name, path) =>
             if starts_with "freeze." name && ends_with ".lock" name
             then match current_state_at fs now path with Ok (Some s) => Some s | _ => None end
             else None) entries).

(** ** When a lock lets a mutation through *)
Definition lets_through (fs : Fs) (now : N) (path : string) : Prop :=
  path_exists fs path = false \/
  exists text s, fs !! path = Some (Readable text) /\ from_toml text = Ok s /\ is_active_at s now = false.

Lemma check_at_ok fs now path :
  check_not_frozen_at fs now path = Ok () <-> lets_through fs now path.
Proof.
  unfold check_not_frozen_at, current_state_at, lets_through, path_exists.
  destruct (fs !! path) as [[text|e|]|].
  - destruct (from_toml text) as [s|e] eqn:E.
    + destruct (is_active_at s now) eqn:Ea; split; try done.
      * intros [?|(? & ? & ? & ? & ?)]; congruence.
      * intros _. right. by exists text, s.
    + split; [done|]. intros [?|(? & ? & ? & ? & ?)]; congruence.
  - split; [done|]. intros [?|(? & ? & ? & ? & ?)]; congruence.
  - split; [by left|done].
  - split; [by left|done].
Qed.

Lemma check_at_err fs now path :
  ~ lets_through fs now path -> exists r, check_not_frozen_at fs now path = Err r.
Proof.
  rewrite <-check_at_ok. destruct (check_not_frozen_at fs now path) as [[]|r]; [done|eauto].
Qed.

Lemma check_for_ok fs now loc profile :
  check_not_frozen_for fs now loc profile = Ok () <->
  lets_through fs now (loc_global loc)
  /\ (forall n, profile = Some n -> lets_through fs now (freeze_path_for loc (Some n))).
Proof.
  unfold check_not_frozen_for, lock_paths_for, check_not_frozen_paths. cbn [freeze_path_for].
  rewrite <-check_at_ok. setoid_rewrite <-check_at_ok.
  destruct (check_not_frozen_at fs now (loc_global loc)) as [[]|r]; simpl; [|by split; [|intros []]].
  destruct profile as [n|]; simpl.
  - split; [intros H; split; [done|]; by intros ? [= <-]|]. intros [_ H]. by apply H.
  - split; [|done]. intros _. by split.
Qed.

Lemma write_freeze_inv disk op now path profile reason ttl fs s fs' :
  write_freeze_at disk op now path profile reason ttl fs = (Ok s, fs') ->
  fs' = <[path := Readable (to_toml s)]> fs /\ fz_frozen_at s = now /\ fz_ttl_secs s = ttl
  /\ fz_profile s = profile /\ fz_reason s = reason.
Proof.
  unfold write_freeze_at, write_atomic. destruct (is_empty (trim reason)); [done|].
  destruct disk; [|done..]. intros [= <- <-]. done.
Qed.

Context (Hround : forall s, from_toml (to_toml s) = Ok s).

(** A lock just written holds until its time is up. *)
Lemma written_lock_holds fs path s now :
  is_active_at s now = true -> ~ lets_through (<[path := Readable (to_toml s)]> fs) now path.
Proof.
  intros Ha [Hn|(text & s' & Ht & Hp & Hf)].
  - unfold path_exists in Hn. by rewrite lookup_insert_eq in Hn.
  - rewrite lookup_insert_eq in Ht. simplify_eq. rewrite Hround in Hp. simplify_eq. congruence.
Qed.
End Locks.

(** The scope of a freeze: the fleet, or one profile. *)
Definition covers (scope profile : option string) : Prop :=
  scope = None \/ scope = profile.

Definition before_expiry (now frozen_at : N) (ttl : option N) : Prop :=
  match ttl with Some t => now < u64_saturating_add frozen_at t | None => True end%N.

Lemma is_active_before_expiry s now :
  is_active_at s now = true <-> before_expiry now (fz_frozen_at s) (fz_ttl_secs s).
Proof.
  unfold is_active_at, before_expiry. destruct (fz_ttl_secs s); [|done]. apply N.ltb_lt.
Qed.

(** the kill-switch is fail-closed: a mutation of a profile goes through
    exactly when neither the global lock nor the profile's own is there as far
    as [Path::exists] tells, or the one that is there can be read and has
    expired.  A lock that cannot be read or parsed refuses; one behind a
    directory that may not be searched counts as absent. *)
Lemma freeze_check_fail_closed from_toml fs now loc profile :
  check_not_frozen_for from_toml fs now loc profile = Ok () <->
  lets_through from_toml fs now (loc_global loc)
  /\ (forall n, profile = Some n -> lets_through from_toml fs now (freeze_path_for loc (Some n))).
Proof. apply check_for_ok. Qed.

(** once a freeze has been written, every mutation in its scope is refused
    until its time is up, whatever else is on the disk; a freeze of the fleet
    covers every profile, and a time to live that overflows never expires
    early. *)
Lemma freeze_blocks_scope to_toml from_toml disk op t0 loc scope reason ttl fs s fs' now profile :
  (forall s, from_toml (to_toml s) = Ok s) ->
  freeze_for to_toml disk op t0 loc scope reason ttl fs = (Ok s, fs') ->
  covers scope profile -> before_expiry now t0 ttl ->
  exists r, check_not_frozen_for from_toml fs' now loc profile = Err r.
Proof.
  intros Hr Hf Hc Hb. apply write_freeze_inv in Hf as (-> & Hat & Httl & _).
  assert (~ lets_through from_toml (<[freeze_path_for loc scope := Readable (to_toml s)]> fs) now
            (freeze_path_for loc scope)) as Hno.
  { apply written_lock_holds; [done|]. apply is_active_before_expiry. by rewrite Hat, Httl. }
  destruct (check_not_frozen_for from_toml _ now loc profile) as [[]|r] eqn:E; [exfalso|eauto].
  apply check_for_ok in E as [Hg Hp]. destruct Hc as [-> | ->]; [done|].
  destruct profile as [n|]; [by apply Hno, (Hp n)|by apply Hno].
Qed.

(** A lock of one scope is not the lock of another: the global path is no
    profile's, and two profiles share a lock only when their names fold to the
    same stem. *)
Definition scopes_apart (loc : Locations) (scope profile : option string) : Prop :=
  freeze_path_for loc scope <> loc_global loc /\
  forall n, profile = Some n -> freeze_path_for loc (Some n) <> freeze_path_for loc scope.

Lemma lets_through_other from_toml (fs fs' : Fs) now path :
  fs !! path = fs' !! path -> lets_through from_toml fs now path <-> lets_through from_toml fs' now path.
Proof. unfold lets_through, path_exists. by intros ->. Qed.

(** a freeze or thaw of one profile leaves the others as they were: for a
    profile whose name folds to another lock file, the check gives the same
    answer before and after. *)
Lemma freeze_isolates_profiles to_toml from_toml disk rm op now loc n reason ttl (fs : Fs) s fs' fs'' profile prior t :
  scopes_apart loc (Some n) profile ->
  freeze_for to_toml disk op now loc (Some n) reason ttl fs = (Ok s, fs') ->
  thaw_for from_toml rm now loc (Some n) fs' = (Ok prior, fs'') ->
  (check_not_frozen_for from_toml fs' t loc profile = Ok () <-> check_not_frozen_for from_toml fs t loc profile = Ok ())
  /\ (check_not_frozen_for from_toml fs'' t loc profile = Ok () <-> check_not_frozen_for from_toml fs t loc profile = Ok ()).
Proof.
  intros [Hg Hp] Hf Ht. apply write_freeze_inv in Hf as [-> _].
  assert (fs'' = delete (freeze_path_for loc (Some n)) fs) as ->.
  { unfold thaw_for, thaw_at, path_exists in Ht. rewrite lookup_insert_eq in Ht. cbn [negb] in Ht. destruct rm; [|done].
    simplify_eq. by rewrite delete_insert_eq. }
  rewrite !check_for_ok. split.
  - rewrite (lets_through_other _ _ fs) by (by rewrite lookup_insert_ne).
    apply and_iff_compat_l, forall_proper. intros m. split; intros H Hm; pose proof (Hp m Hm);
      specialize (H Hm); revert H; apply lets_through_other; by rewrite lookup_insert_ne.
  - rewrite (lets_through_other _ _ fs) by (by rewrite lookup_delete_ne).
    apply and_iff_compat_l, forall_proper. intros m. split; intros H Hm; pose proof (Hp m Hm);
      specialize (H Hm); revert H; apply lets_through_other; by rewrite lookup_delete_ne.
Qed.

(** thawing what was frozen gives the freeze back and lifts it: the lock
    is gone, and thawing again does nothing. *)
Lemma thaw_lifts_freeze to_toml from_toml op t0 loc scope reason ttl (fs : Fs) s fs' now :
  (forall s, from_toml (to_toml s) = Ok s) ->
  freeze_for to_toml Written op t0 loc scope reason ttl fs = (Ok s, fs') ->
  thaw_for from_toml (Ok ()) now loc scope fs'
  = (Ok (if is_active_at s now then Some s else None), delete (freeze_path_for loc scope) fs)
  /\ thaw_for from_toml (Ok ()) now loc scope (delete (freeze_path_for loc scope) fs)
     = (Ok None, delete (freeze_path_for loc scope) fs).
Proof.
  intros Hr Hf. apply write_freeze_inv in Hf as [-> _]. unfold thaw_for, thaw_at, path_exists.
  rewrite lookup_insert_eq, lookup_delete_eq. cbn [negb]. rewrite delete_insert_eq. split; [|done].
  unfold current_state_at. rewrite lookup_insert_eq, Hr. done.
Qed.

(** A lock that cannot be read refuses every mutation and is missing from the
    list of active freezes. *)
Lemma unreadable_lock_not_listed from_toml now loc profile e :
  let fs : Fs := {[ loc_global loc := Unreadable e ]} in
  (exists r, check_not_frozen_for from_toml fs now loc profile = Err r) /\
  list_active_in from_toml fs now [("freeze.lock", loc_global loc)] = [].
Proof.
  intros fs. split.
  - unfold check_not_frozen_for, lock_paths_for, check_not_frozen_paths, check_not_frozen_at,
      current_state_at, fs. cbn [freeze_path_for]. rewrite lookup_singleton_eq. simpl. eauto.
  - unfold list_active_in, current_state_at, fs. simpl. by rewrite lookup_singleton_eq.
Qed.

(** ** Witnesses *)

(** A codec for the witnesses: a state numbered, the number written in binary. *)
Definition fields_of (s : FreezeState) : string * string * N * option N * option string :=
  (fz_reason s, fz_operator s, fz_frozen_at s, fz_ttl_secs s, fz_profile s).
Definition of_fields (x : string * string * N * option N * option string) : FreezeState :=
  let '(r, o, f, t, p) := x in
  {| fz_reason := r; fz_operator := o; fz_frozen_at := f; fz_ttl_secs := t; fz_profile := p |}.
Definition demo_to_toml (s : FreezeState) : string := write_pos (encode (fields_of s)).
Definition demo_from_toml (t : string) : Result string FreezeState :=
  match decode (read_pos t) with Some x => Ok (of_fields x) | None => Err "not a lock" end.

Lemma demo_codec s : demo_from_toml (demo_to_toml s) = Ok s.
Proof.
  unfold demo_from_toml, demo_to_toml.
  rewrite read_write_pos, decode_encode. by destruct s.
Qed.

Definition demo_loc : Locations := {| loc_dir := "/d"; loc_global := "/d/freeze.lock" |}.

Lemma freeze_blocks_scope_witness :
  exists s fs', freeze_for demo_to_toml Written "root@pve" 1000 demo_loc None "breach" (Some 60%N) ∅ = (Ok s, fs')
    /\ exists r, check_not_frozen_for demo_from_toml fs' 1059 demo_loc (Some "prod") = Err r.
Proof.
  eexists _, _. split; [reflexivity|].
  eapply (freeze_blocks_scope demo_to_toml demo_from_toml Written "root@pve" 1000 demo_loc None "breach" (Some 60%N) ∅).
  - apply demo_codec.
  - reflexivity.
  - by left.
  - vm_compute. reflexivity.
Defined.

Lemma freeze_isolates_profiles_witness :
  exists s fs' prior fs'',
    freeze_for demo_to_toml Written "root@pve" 1000 demo_loc (Some "prod") "breach" None ∅ = (Ok s, fs')
    /\ thaw_for demo_from_toml (Ok ()) 1001 demo_loc (Some "prod") fs' = (Ok prior, fs'')
    /\ (check_not_frozen_for demo_from_toml fs' 1001 demo_loc (Some "lab") = Ok ()
        <-> check_not_frozen_for demo_from_toml ∅ 1001 demo_loc (Some "lab") = Ok ())
    /\ (check_not_frozen_for demo_from_toml fs'' 1001 demo_loc (Some "lab") = Ok ()
        <-> check_not_frozen_for demo_from_toml ∅ 1001 demo_loc (Some "lab") = Ok ()).
Proof.
  eexists _, _, _, _. split; [reflexivity|]. split; [vm_compute; reflexivity|].
  eapply (freeze_isolates_profiles demo_to_toml demo_from_toml Written (Ok ()) "root@pve" 1000 demo_loc "prod" "breach" None ∅).
  - split; [discriminate|]. intros n [= <-]. discriminate.
  - reflexivity.
  - vm_compute. reflexivity.
Defined.

Definition demo_freeze : FreezeState :=
  {| fz_reason := "breach"; fz_operator := "root@pve"; fz_frozen_at := 1000; fz_ttl_secs := None; fz_profile := None |}.

Lemma thaw_lifts_freeze_witness :
  exists fs', freeze_for demo_to_toml Written "root@pve" 1000 demo_loc None "breach" None ∅ = (Ok demo_freeze, fs')
    /\ thaw_for demo_from_toml (Ok ()) 2000 demo_loc None fs'
       = (Ok (if is_active_at demo_freeze 2000 then Some demo_freeze else None), delete (freeze_path_for demo_loc None) ∅)
    /\ thaw_for demo_from_toml (Ok ()) 2000 demo_loc None (delete (freeze_path_for demo_loc None) ∅)
       = (Ok None, delete (freeze_path_for demo_loc None) ∅).
Proof.
  eexists. split; [reflexivity|].
  eapply (thaw_lifts_freeze demo_to_toml demo_from_toml "root@pve" 1000 demo_loc None "breach" None ∅ demo_freeze _ 2000).
  - apply demo_codec.
  - reflexivity.
Defined.

(** A lock that is there but cannot be asked for does not hold. *)
Example hidden_lock_lets_through :
  check_not_frozen_at (fun _ => Err "not read") {["/d/freeze.lock" := Hidden]} 0 "/d/freeze.lock" = Ok ().
Proof. reflexivity. Qed.
