(* ===== verification/GuestPreflight.v ===== *)
(** * Pre-flight of one guest operation: src/app/preflight.rs, with the gate of
      src/cli/common.rs

    [assess] reads the guest alone; [assess_deep_with] adds what the cluster
    and the backup server answer.  These answers only inform and are a record
    [Probes]: every read is made at most once per assessment and changes
    nothing. *)
From S2P Require Import Prelude ApiError Guest.

Inductive Op := OpDelete | OpStop | OpRestart | OpMigrate | OpMoveDisk | OpResizeDisk.
Definition Op_as_str (op : Op) : string :=
  match op with
  | OpDelete => "delete"
  | OpStop => "stop"
  | OpRestart => "restart"
  | OpMigrate => "migrate"
  | OpMoveDisk => "move-disk"
  | OpResizeDisk => "resize-disk"
  end.

Inductive Risk :=
  | Locked (reason : string)
  | HaManaged (state : string)
  | RunningNow (uptime_secs : N)
  | LongUptime (days : N)
  | TaggedProd (tag : string)
  | ActiveNetTraffic (avg_bps : N)
  | ListeningOnService (port : N) (name : string)
  | DeepCheckSkipped (reason : string)
  | HasManySnapshots (count : N)
  | BackupAgeWarning (age_hours : N)
  | NoBackupFound.

Definition format_uptime (secs : N) : string :=
  let d := (secs / 86400)%N in
  let h := ((secs mod 86400) / 3600)%N in
  let m := ((secs mod 3600) / 60)%N in
  let s := (secs mod 60)%N in
  if (0 <? d)%N then pretty d +:+ "d " +:+ pretty h +:+ "h"
  else if (0 <? h)%N then pretty h +:+ "h " +:+ pretty m +:+ "m"
  else pretty m +:+ "m " +:+ pretty s +:+ "s".

Definition describe (r : Risk) : string :=
  match r with
  | Locked reason => "guest holds a sticky PVE lock: '" +:+ reason +:+ "' — destructive op will collide"
  | HaManaged state =>
      "HA-managed (CRM state '" +:+ state +:+ "') — direct ops bypass the CRM and will be undone within 5–30s; route through /cluster/ha/resources instead"
  | RunningNow secs => "guest is running (uptime " +:+ format_uptime secs +:+ ")"
  | LongUptime days => "long uptime (" +:+ pretty days +:+ "d) — likely a production workhorse"
  | TaggedProd tag => "tagged '" +:+ tag +:+ "' in PVE inventory"
  | ActiveNetTraffic bps =>
      "active network traffic (" +:+ pretty (bps / 1024)%N +:+ " KB/s avg since boot) — likely serving production workload"
  | ListeningOnService port name =>
      "guest is listening on TCP " +:+ pretty port +:+ " (" +:+ name +:+ ") — likely a production service"
  | DeepCheckSkipped reason =>
      "deep risk check skipped — " +:+ reason +:+ " (cheap risks above are still authoritative)"
  | HasManySnapshots count =>
      pretty count +:+ " snapshots on this guest — destroy wipes them all, and long snapshot chains slow QCOW2/ZFS reads"
  | BackupAgeWarning age =>
      if (age <? 48)%N then "most recent backup is " +:+ pretty age +:+ "h old — recent state will be lost"
      else "most recent backup is " +:+ pretty (age / 24)%N +:+ "d old (" +:+ pretty age
           +:+ "h) — destroying the guest loses everything since"
  | NoBackupFound =>
      "no backup found on any backup-content storage of this node — destroying the guest is irreversible"
  end.

Definition MANY_SNAPSHOTS_THRESHOLD : N := 5.
Definition BACKUP_STALE_HOURS : N := 24.
Definition LONG_UPTIME_DAYS : N := 14.
Definition ACTIVE_NET_THRESHOLD_BPS : N := 1024.
Definition PROD_TAG_NEEDLES : list string := ["prod"; "production"; "prd"; "critical"; "live"].

Definition well_known_port (port : N) : option string :=
  match port with
  | 22 => Some "ssh"
  | 25 | 465 | 587 => Some "smtp"
  | 53 => Some "dns"
  | 80 | 8080 => Some "http"
  | 443 | 8443 => Some "https"
  | 3306 => Some "mysql"
  | 5432 => Some "postgres"
  | 6379 => Some "redis"
  | 27017 => Some "mongodb"
  | 3000 => Some "node-app"
  | 5000 => Some "flask"
  | 8000 | 9000 => Some "app-server"
  | 9090 => Some "prometheus"
  | 9200 => Some "elasticsearch"
  | _ => None
  end%N.

(** ** Listening ports *)

(** [str::lines]: a final newline opens no line, and a carriage return before
    a newline goes. *)
Definition newline : ascii := ascii_of_N 10.
Fixpoint strip_cr (s : string) : string :=
  match s with
  | "" => ""
  | String a s' => if Ascii.eqb a (ascii_of_N 13) && is_empty s' then "" else String a (strip_cr s')
  end.
Definition lines (s : string) : list string :=
  let parts := split_char newline s in
  (strip_cr <$> removelast parts) ++ match last parts with None | Some "" => [] | Some p => [p] end.

(** [str::split_ascii_whitespace] *)
Definition is_ascii_whitespace (a : ascii) : bool :=
  let n := N_of_ascii a in ((n =? 32) || (n =? 9) || (n =? 10) || (n =? 12) || (n =? 13))%N.
Fixpoint tokens_from (word : string) (s : string) : list string :=
  match s with
  | "" => if is_empty word then [] else [word]
  | String a s' =>
      if is_ascii_whitespace a then (if is_empty word then [] else [word]) ++ tokens_from "" s'
      else tokens_from (word +:+ String a "") s'
  end.
Definition split_ascii_whitespace (s : string) : list string := tokens_from "" s.

Definition token_port (tok : string) : option N :=
  match rsplit_once ":" tok with
  | None => None
  | Some (_, port_str) =>
      match parse_uint 65535 port_str with
      | Some p => if (0 <? p)%N then Some p else None
      | None => None
      end
  end.
Definition line_ports (line : string) : list N :=
  let trimmed := trim line in
  if is_empty trimmed || starts_with "Active" trimmed || starts_with "Proto" trimmed || starts_with "State" trimmed
  then []
  else omap token_port (split_ascii_whitespace trimmed).
(** A [BTreeSet]: sorted and without duplicates. *)
Definition parse_listening_ports (output : string) : list N :=
  sort_unstable N.le (elements (list_to_set (lines output ≫= line_ports) : gset N)).

(** ** The cheap assessment *)

(** [str::to_lowercase] on the tags.  Outside ASCII two characters lower into
    ASCII letters, U+212A (k) and U+0130 (an i with a combining dot); neither
    can complete one of the needles, so ASCII letters decide the match. *)
Definition prod_tag (tags : string) : option string :=
  let tags_lower := to_ascii_lowercase tags in
  head (filter (fun needle => needle ∈ (trim <$> split_char ";" tags_lower)) PROD_TAG_NEEDLES).

Definition assess (op : Op) (guest : Guest) : list (Risk * RiskLevel) :=
  let is_running := bool_decide (g_status guest = Running) in
  let uptime_days := N.min (g_uptime guest / 86400) u32_max in
  (if is_empty (g_lock guest) then [] else [(Locked (g_lock guest), Severe)])
  ++ (if is_ha_managed guest
      then [(HaManaged (g_hastate guest),
             match op with OpStop | OpDelete => Severe | _ => Warning end)]
      else [])
  ++ (if is_running
      then [(RunningNow (g_uptime guest), match op with OpDelete => Severe | _ => Warning end)]
      else [])
  ++ (if (LONG_UPTIME_DAYS <=? uptime_days)%N then [(LongUptime uptime_days, Notice)] else [])
  ++ (match prod_tag (g_tags guest) with Some tag => [(TaggedProd tag, Warning)] | None => [] end)
  ++ (if is_running && (0 <? g_uptime guest)%N
      then
        let total := u64_saturating_add (g_netin guest) (g_netout guest) in
        let avg_bps := (total / g_uptime guest)%N in
        if (ACTIVE_NET_THRESHOLD_BPS <? avg_bps)%N then [(ActiveNetTraffic avg_bps, Warning)] else []
      else []).

Definition max_level (risks : list (Risk * RiskLevel)) : RiskLevel := max_of (snd <$> risks).
Definition render_risks (risks : list (Risk * RiskLevel)) : string :=
  join (String newline "") ((fun rl => "[" +:+ RiskLevel_as_str rl.2 +:+ "] " +:+ describe rl.1) <$> risks).

(** ** Deep assessment *)
Record StorageContent := { sc_vmid : option N; sc_ctime : N }.
Record Probes := {
  (** names of the snapshots of the guest *)
  p_snapshots : Result AnyErr (list string);
  (** storages of the node with their content lists, and the backups on each *)
  p_storages : Result AnyErr (list (string * string));
  p_content : string -> Result AnyErr (list StorageContent);
  (** datastores and the backup times of the guest on each, when PBS is configured *)
  p_pbs : option (Result AnyErr (list string) * (string -> Result AnyErr (list N)));
  (** exit code and output of the listening-port command *)
  p_exec : Result AnyErr (Z * string);
  p_now : N;
}.

(** [format!("{e}")] of an [anyhow::Error]: its outermost message. *)
Definition show_outer (e : AnyErr) : string := default "" (head (err_chain e)).

Definition age_hours (now newest : N) : option N :=
  if (newest =? 0)%N then None else Some (N.min ((now - newest) / 3600) u32_max).

Definition find_recent_pbs_backup (pr : Probes) : Result AnyErr (option N) :=
  match p_pbs pr with
  | None => Ok None
  | Some (stores, times) =>
      stores ← stores;
      let found := stores ≫= fun st => match times st with Ok l => l | Err _ => [] end in
      Ok (age_hours (p_now pr) (foldl (fun newest t => if (newest <? t)%N then t else newest) 0%N found))
  end.

Definition combine_backup_age (a b : option N) : option N :=
  match a, b with
  | Some x, Some y => Some (N.min x y)
  | Some x, None | None, Some x => Some x
  | None, None => None
  end.

Definition find_recent_backup (pr : Probes) (vmid : N) : Result AnyErr (option N) :=
  storages ← p_storages pr;
  let backup_storages :=
    (filter (fun s : string * string => "backup" ∈ (trim <$> split_char "," s.2)) storages).*1 in
  let entries := backup_storages ≫= fun st => match p_content pr st with Ok l => l | Err _ => [] end in
  Ok (age_hours (p_now pr)
        (foldl (fun newest e => if bool_decide (sc_vmid e = Some vmid) && (newest <? sc_ctime e)%N
                                then sc_ctime e else newest) 0%N entries)).

Definition snapshot_risks (pr : Probes) : list (Risk * RiskLevel) :=
  match p_snapshots pr with
  | Err _ => []
  | Ok snaps =>
      let count := N.min (N.of_nat (length (filter (fun n => n <> "current") snaps))) u32_max in
      if (MANY_SNAPSHOTS_THRESHOLD <? count)%N then [(HasManySnapshots count, Warning)] else []
  end.

Definition stale (age : N) : list (Risk * RiskLevel) :=
  if (BACKUP_STALE_HOURS <? age)%N then [(BackupAgeWarning age, Warning)] else [].
Definition skipped (reason : string) : list (Risk * RiskLevel) := [(DeepCheckSkipped reason, Notice)].
Definition backup_risks (pve pbs : Result AnyErr (option N)) : list (Risk * RiskLevel) :=
  match pve, pbs with
  | Ok p, Ok b =>
      match combine_backup_age p b with
      | Some age => stale age
      | None => [(NoBackupFound, Notice)]
      end
  | Ok (Some age), Err e | Err e, Ok (Some age) =>
      stale age ++ skipped ("one backup source failed: " +:+ show_outer e)
  | Ok None, Err e | Err e, Ok None => skipped ("backup-recency probe failed: " +:+ show_outer e)
  | Err e1, Err _ => skipped ("backup-recency probe failed (both PVE+PBS): " +:+ show_outer e1)
  end.

(** The command is run in a running QEMU guest only. *)
Definition asks_agent (guest : Guest) : bool := bool_decide (g_status guest = Running) && bool_decide (g_guest_type guest = Qemu).
Definition LISTEN_COMMAND : string := "ss -H -tln 2>/dev/null || netstat -tln 2>/dev/null".
Definition with_exec (r : Result AnyErr (Z * string)) (pr : Probes) : Probes :=
  {| p_snapshots := p_snapshots pr; p_storages := p_storages pr; p_content := p_content pr; p_pbs := p_pbs pr;
     p_exec := r; p_now := p_now pr |}.
Definition port_risks (guest : Guest) (pr : Probes) : list (Risk * RiskLevel) :=
  if negb (bool_decide (g_status guest = Running)) then []
  else match g_guest_type guest with
  | Lxc => skipped "LXC has no QGA — listening-port probe unavailable; use SSH inside the container if you need it"
  | Qemu =>
      match p_exec pr with
      | Err e => skipped ("QGA exec failed: " +:+ default "QGA call failed" (head (lines (show_outer e))))
      | Ok (exit_code, stdout) =>
          if negb (bool_decide (exit_code = 0%Z)) || is_empty stdout
          then skipped ("QGA exec returned exit=" +:+ pretty exit_code +:+ " stdout_bytes="
                        +:+ pretty (String.length stdout) +:+ " — `ss` and `netstat` both failed")
          else omap (fun port => (fun name => (ListeningOnService port name, Warning)) <$> well_known_port port)
                 (parse_listening_ports stdout)
      end
  end.

Definition assess_deep_with (pr : Probes) (op : Op) (guest : Guest) : list (Risk * RiskLevel) :=
  assess op guest
  ++ (match op with
      | OpDelete => snapshot_risks pr ++ backup_risks (find_recent_backup pr (g_vmid guest)) (find_recent_pbs_backup pr)
      | _ => []
      end)
  ++ port_risks guest pr.

(** ** The gate *)
Definition preflight_risks (pr : Probes) (op : Op) (guest : Guest) (note : option string) : list (Risk * RiskLevel) :=
  assess_deep_with pr op guest ++ match note with Some reason => skipped reason | None => [] end.

(** The lines printed and the decision. *)
Definition enforce_preflight_with_notes (pr : Probes) (op : Op) (guest : Guest) (force : bool)
    (note : option string) : list string * Result PreflightRefusal unit :=
  match preflight_risks pr op guest note with
  | [] => ([], Ok ())
  | risks =>
      let lines :=
        ("PRE-FLIGHT for " +:+ Op_as_str op +:+ " vmid=" +:+ pretty (g_vmid guest) +:+ " (" +:+ g_name guest
         +:+ "@" +:+ g_node guest +:+ "):")
        :: ((fun rl => "  [" +:+ RiskLevel_as_str rl.2 +:+ "] " +:+ describe rl.1) <$> risks) in
      let max := max_level risks in
      if bool_decide (max = Severe) && negb force then (lines, Err mk_PreflightRefusal)
      else if bool_decide (max = Severe) && force
      then (lines ++ ["  --allow-risk passed; overriding SEVERE risk(s) and proceeding."], Ok ())
      else (lines, Ok ())
  end.

(** ** What blocks an operation *)

(** The guest is locked, or HA would undo the operation, or a running guest
    would be deleted. *)
Definition blocked (op : Op) (g : Guest) : Prop :=
  g_lock g <> "" \/ (g_hastate g <> "" /\ (op = OpStop \/ op = OpDelete))
  \/ (g_status g = Running /\ op = OpDelete).

Definition advisory (rs : list (Risk * RiskLevel)) : Prop := Severe ∉ rs.*2.

Lemma advisory_app a b : advisory (a ++ b) <-> advisory a /\ advisory b.
Proof. unfold advisory. rewrite fmap_app, elem_of_app. tauto. Qed.

Lemma advisory_nil : advisory [].
Proof. apply not_elem_of_nil. Qed.

Lemma advisory_one r l : l <> Severe -> advisory [(r, l)].
Proof. intros H. unfold advisory. simpl. set_solver. Qed.

#[local] Hint Resolve advisory_nil advisory_one : proxxx.
#[local] Hint Extern 4 (_ <> Severe) => discriminate : proxxx.

Lemma assess_severe op g : Severe ∈ (assess op g).*2 <-> blocked op g.
Proof.
  unfold assess, blocked, is_ha_managed, is_empty. rewrite !fmap_app, !elem_of_app.
  destruct (decide (g_lock g = "")) as [Hl|Hl].
  2: { rewrite bool_decide_false by done. split; [by left|]. intros _. left. simpl. set_solver. }
  rewrite (bool_decide_true _ Hl).
  assert (forall b : bool, Severe ∉ (if b then [(LongUptime (N.min (g_uptime g / 86400) u32_max), Notice)] else []).*2) as H1.
  { intros []; simpl; set_solver. }
  assert (Severe ∉ (match prod_tag (g_tags g) with Some tag => [(TaggedProd tag, Warning)] | None => [] end).*2) as H2.
  { destruct (prod_tag _); simpl; set_solver. }
  assert (forall (b c : bool) n, Severe ∉ (if b then if c then [(ActiveNetTraffic n, Warning)] else [] else []).*2) as H3.
  { intros [] [] n; simpl; set_solver. }
  specialize (H1 (LONG_UPTIME_DAYS <=? N.min (g_uptime g / 86400) u32_max)%N).
  specialize (H3 (bool_decide (g_status g = Running) && (0 <? g_uptime g)%N)
    (ACTIVE_NET_THRESHOLD_BPS <? u64_saturating_add (g_netin g) (g_netout g) / g_uptime g)%N
    (u64_saturating_add (g_netin g) (g_netout g) / g_uptime g)%N).
  cbv zeta.
  destruct (decide (g_hastate g = "")) as [Hh|Hh]; [rewrite (bool_decide_true _ Hh)|rewrite (bool_decide_false _ Hh)];
    (destruct (decide (g_status g = Running)) as [Hr|Hr];
     [rewrite (bool_decide_true _ Hr) in *|rewrite (bool_decide_false _ Hr) in *]); destruct op; simpl negb; cbn iota;
    simpl (_ <$> [_]); simpl (_ <$> []); set_solver.
Qed.

Lemma stale_advisory age : advisory (stale age).
Proof. unfold stale. destruct (_ <? _)%N; auto with proxxx. Qed.
Lemma skipped_advisory reason : advisory (skipped reason).
Proof. unfold skipped. auto with proxxx. Qed.
#[local] Hint Resolve stale_advisory skipped_advisory : proxxx.

Lemma backup_risks_advisory a b : advisory (backup_risks a b).
Proof.
  unfold backup_risks. destruct a as [[x|]|e], b as [[y|]|e']; simpl; auto with proxxx;
    apply advisory_app; auto with proxxx.
Qed.

Lemma snapshot_risks_advisory pr : advisory (snapshot_risks pr).
Proof. unfold snapshot_risks. destruct (p_snapshots pr); [|auto with proxxx]. destruct (_ <? _)%N; auto with proxxx. Qed.

Lemma port_risks_advisory g pr : advisory (port_risks g pr).
Proof.
  unfold port_risks. destruct (negb _); [auto with proxxx|]. destruct (g_guest_type g); [|auto with proxxx].
  destruct (p_exec pr) as [[code out]|e]; [|auto with proxxx]. destruct (_ || _); [auto with proxxx|].
  unfold advisory. intros (x & Hx & Hin)%list_elem_of_fmap. apply list_elem_of_omap in Hin as (p & _ & Hp).
  destruct (well_known_port p); simplify_eq/=.
Qed.

Lemma preflight_risks_severe pr op g note : Severe ∈ (preflight_risks pr op g note).*2 <-> blocked op g.
Proof.
  rewrite <-assess_severe. unfold preflight_risks, assess_deep_with. rewrite <-!app_assoc, fmap_app, elem_of_app.
  split; [|by left]. intros [?|H]; [done|]. exfalso. revert H.
  change (Severe ∉ ?l) with (advisory l).
  match goal with |- _ ∈ (?l).*2 -> _ => change (advisory l) end.
  rewrite !advisory_app. split_and!.
  - destruct op; auto with proxxx. apply advisory_app. auto using snapshot_risks_advisory, backup_risks_advisory.
  - apply port_risks_advisory.
  - destruct note; auto with proxxx.
Qed.

(** the gate on a guest operation refuses exactly when risk is not accepted
    and the guest is locked, or HA manages it and the operation stops or
    deletes it, or it is running and the operation deletes it; whatever the
    probes of snapshots, backups and ports answer or fail with, they only
    inform.  Nothing is refused without a line printed. *)
Lemma guest_gate_refuses_iff pr op g force note :
  ((enforce_preflight_with_notes pr op g force note).2 = Err mk_PreflightRefusal <-> force = false /\ blocked op g)
  /\ ((enforce_preflight_with_notes pr op g force note).1 = [] <-> preflight_risks pr op g note = []).
Proof.
  rewrite <-(preflight_risks_severe pr op g note). unfold enforce_preflight_with_notes, max_level.
  destruct (preflight_risks pr op g note) as [|r rs].
  - simpl. split; [|done]. split; [done|]. intros [_ H]. by apply elem_of_nil in H.
  - rewrite <-max_of_severe. split; [|by destruct (bool_decide _), force].
    case_bool_decide; destruct force; simpl; naive_solver.
Qed.
