(* ===== verification/HitlPending.v ===== *)
(** * The approval store: src/hitl/pending.rs

    The table [hitl_pending_requests] as a finite map from request id to row,
    the row with its SQL columns as they are stored, and the operations of
    [PendingStore] as functions on the table.  Each operation runs under the
    connection's mutex, [process_callback_at] in one immediate transaction,
    so a run of the daemon and of the senders is a sequence of them; [disk]
    says whether the database took the statement, and a refused one leaves
    the table as it was.  The JSON text of the approvers and of the
    parameters is [serde_json]'s and a parameter. *)
From S2P Require Import Prelude Json ApiError Guest.

Definition DEFAULT_HITL_TTL_SECS : Z := 120.
Definition RETENTION_SECS : Z := 7 * 24 * 60 * 60.

Definition guest_type_to_str (gt : GuestType) : string :=
  match gt with Qemu => "qemu" | Lxc => "lxc" end.
Definition str_to_guest_type (s : string) : Result AnyErr GuestType :=
  if bool_decide (s = "qemu") then Ok Qemu
  else if bool_decide (s = "lxc") then Ok Lxc
  else Err (bail ("unknown guest_type in HITL store: " +:+ s)).

(** ** The status of a request *)
Inductive RequestStatus :=
  | StPending | StApproved | StDenied | StExpired | StExecuted | StFailed.
#[export] Instance RequestStatus_eq_dec : EqDecision RequestStatus.
Proof. solve_decision. Defined.

Definition RequestStatus_as_str (s : RequestStatus) : string :=
  match s with
  | StPending => "pending"
  | StApproved => "approved"
  | StDenied => "denied"
  | StExpired => "expired"
  | StExecuted => "executed"
  | StFailed => "failed"
  end.

Definition RequestStatus_parse (s : string) : Result AnyErr RequestStatus :=
  if bool_decide (s = "pending") then Ok StPending
  else if bool_decide (s = "approved") then Ok StApproved
  else if bool_decide (s = "denied") then Ok StDenied
  else if bool_decide (s = "expired") then Ok StExpired
  else if bool_decide (s = "executed") then Ok StExecuted
  else if bool_decide (s = "failed") then Ok StFailed
  else Err (bail ("unknown HITL request status in store: " +:+ s)).

Record PendingRequest := {
  pr_id : string;
  pr_action : string;
  pr_vmid : option N;
  pr_node : option string;
  pr_guest_type : option GuestType;
  pr_params_json : string;
  pr_require : N;
  pr_issued_at : Z;
  pr_expires_at : Z;
  pr_status : RequestStatus;
  pr_approvers : list Z;
  pr_upid : option string;
  pr_error : option string;
}.

Record NewPendingRequest := {
  np_action : string;
  np_vmid : option N;
  np_node : option string;
  np_guest_type : option GuestType;
  np_params : Value;
  np_require : N;
  np_ttl_secs : Z;
}.

Definition NewPendingRequest_new (action : string) (vmid : option N) (require : N) : NewPendingRequest :=
  {| np_action := action; np_vmid := vmid; np_node := None; np_guest_type := None;
     np_params := JObject []; np_require := N.max require 1; np_ttl_secs := DEFAULT_HITL_TTL_SECS |}.

Inductive CallbackDecision := Approve | Deny.
#[export] Instance CallbackDecision_eq_dec : EqDecision CallbackDecision.
Proof. solve_decision. Defined.

Inductive StoreOutcome :=
  | UnknownRequest
  | Expired (request : PendingRequest)
  | AlreadyHandled (request : PendingRequest)
  | Denied (request : PendingRequest)
  | AwaitingApprovals (request : PendingRequest) (have need : nat) (duplicate : bool)
  | Approved (request : PendingRequest).

(** ** The table *)
Record Row := {
  row_action : string;
  row_vmid : option Z;
  row_node : option string;
  row_guest_type : option string;
  row_params_json : string;
  row_require : Z;
  row_issued_at : Z;
  row_expires_at : Z;
  row_status : string;
  row_approvers_json : string;
  row_upid : option string;
  row_error : option string;
}.
Notation Table := (gmap string Row).

Definition row_with (status approvers_json : string) (upid error : option string) (r : Row) : Row :=
  {| row_action := row_action r; row_vmid := row_vmid r; row_node := row_node r;
     row_guest_type := row_guest_type r; row_params_json := row_params_json r;
     row_require := row_require r; row_issued_at := row_issued_at r;
     row_expires_at := row_expires_at r; row_status := status;
     row_approvers_json := approvers_json; row_upid := upid; row_error := error |}.
(** [UPDATE .. SET status = ..], [SET approvers_json = ..], and both. *)
Definition set_status (s : string) (r : Row) : Row :=
  row_with s (row_approvers_json r) (row_upid r) (row_error r) r.
Definition set_approvers (a : string) (r : Row) : Row :=
  row_with (row_status r) a (row_upid r) (row_error r) r.
Definition with_status (s : RequestStatus) (p : PendingRequest) : PendingRequest :=
  {| pr_id := pr_id p; pr_action := pr_action p; pr_vmid := pr_vmid p; pr_node := pr_node p;
     pr_guest_type := pr_guest_type p; pr_params_json := pr_params_json p;
     pr_require := pr_require p; pr_issued_at := pr_issued_at p; pr_expires_at := pr_expires_at p;
     pr_status := s; pr_approvers := pr_approvers p; pr_upid := pr_upid p; pr_error := pr_error p |}.
Definition with_approvers (l : list Z) (p : PendingRequest) : PendingRequest :=
  {| pr_id := pr_id p; pr_action := pr_action p; pr_vmid := pr_vmid p; pr_node := pr_node p;
     pr_guest_type := pr_guest_type p; pr_params_json := pr_params_json p;
     pr_require := pr_require p; pr_issued_at := pr_issued_at p; pr_expires_at := pr_expires_at p;
     pr_status := pr_status p; pr_approvers := l; pr_upid := pr_upid p; pr_error := pr_error p |}.

(** What the store uses of [serde_json]: a list of ids and a JSON value
    written as text, and a list of ids read back. *)
Class JsonText := {
  ids_to_text : list Z -> string;
  ids_of_text : string -> option (list Z);
  value_to_text : Value -> string;
}.
Class JsonTextOk `{JsonText} : Prop := {
  ids_round_trip l : ids_of_text (ids_to_text l) = Some l;
  ids_empty : ids_of_text "[]" = Some [];
}.

Section Store.
Context `{!JsonText}.

(** [u32::try_from(v).ok()] and [u8::try_from(v).unwrap_or(1).max(1)]. *)
Definition vmid_of_sql (v : Z) : option N :=
  if bool_decide (0 <= v <= Z.of_N u32_max)%Z then Some (Z.to_N v) else None.
Definition require_of_sql (v : Z) : N :=
  N.max (if bool_decide (0 <= v <= 255)%Z then Z.to_N v else 1) 1.

Definition row_to_pending_request (id : string) (row : Row) : Result AnyErr PendingRequest :=
  guest_type ← match row_guest_type row with
               | None => Ok None
               | Some s => gt ← str_to_guest_type s; Ok (Some gt)
               end;
  status ← RequestStatus_parse (row_status row);
  approvers ← ok_or (bail "invalid approvers") (ids_of_text (row_approvers_json row));
  Ok {| pr_id := id; pr_action := row_action row;
        pr_vmid := row_vmid row ≫= vmid_of_sql; pr_node := row_node row;
        pr_guest_type := guest_type; pr_params_json := row_params_json row;
        pr_require := require_of_sql (row_require row); pr_issued_at := row_issued_at row;
        pr_expires_at := row_expires_at row; pr_status := status; pr_approvers := approvers;
        pr_upid := row_upid row; pr_error := row_error row |}.

(** The retention sweep of [open_at_with_now]. *)
Definition prunable (cutoff : Z) (row : Row) : bool :=
  bool_decide (row_status row ∈ ["denied"; "expired"; "executed"; "failed"])
  && bool_decide (row_issued_at row < cutoff)%Z.
Definition open_at_with_now (disk : Result AnyErr unit) (now_secs : Z) (tbl : Table) : Result AnyErr unit * Table :=
  let cutoff := i64_saturating_sub now_secs RETENTION_SECS in
  match disk with
  | Err e => (Err (context "prune expired terminal HITL rows older than 7 days" e), tbl)
  | Ok _ => (Ok (), filter (fun kv => prunable cutoff kv.2 = false) tbl)
  end.

(** [id] is what [generate_request_id] drew.  The primary key refuses an id
    that is in the table. *)
Definition insert_at (disk : Result AnyErr unit) (id : string) (req : NewPendingRequest) (now_secs : Z) (tbl : Table)
  : Result AnyErr PendingRequest * Table :=
  let require := N.max (np_require req) 1 in
  let expires_at := i64_saturating_add now_secs (np_ttl_secs req) in
  let params_json := value_to_text (np_params req) in
  let row := {| row_action := np_action req; row_vmid := Z.of_N <$> np_vmid req;
                row_node := np_node req; row_guest_type := guest_type_to_str <$> np_guest_type req;
                row_params_json := params_json; row_require := Z.of_N require;
                row_issued_at := now_secs; row_expires_at := expires_at;
                row_status := "pending"; row_approvers_json := "[]";
                row_upid := None; row_error := None |} in
  let failed e := (Err (context "insert row into hitl_pending_requests" e), tbl) in
  match disk, tbl !! id with
  | Err e, _ => failed e
  | Ok _, Some _ => failed (bail "UNIQUE constraint failed: hitl_pending_requests.id")
  | Ok _, None =>
      (Ok {| pr_id := id; pr_action := np_action req; pr_vmid := np_vmid req; pr_node := np_node req;
             pr_guest_type := np_guest_type req; pr_params_json := params_json; pr_require := require;
             pr_issued_at := now_secs; pr_expires_at := expires_at; pr_status := StPending;
             pr_approvers := []; pr_upid := None; pr_error := None |},
       <[id := row]> tbl)
  end.

Definition get (id : string) (tbl : Table) : Result AnyErr (option PendingRequest) :=
  match tbl !! id with
  | None => Ok None
  | Some row => p ← row_to_pending_request id row; Ok (Some p)
  end.

Definition process_callback_at (disk : Result AnyErr unit) (id : string) (decision : CallbackDecision)
    (approver_id now_secs : Z) (tbl : Table) : Result AnyErr StoreOutcome * Table :=
  match disk with
  | Err e => (Err e, tbl)
  | Ok _ =>
      match get id tbl with
      | Err e => (Err e, tbl)
      | Ok None => (Ok UnknownRequest, tbl)
      | Ok (Some req) =>
          if bool_decide (pr_status req = StExpired) then (Ok (Expired req), tbl)
          else if bool_decide (pr_status req = StPending) && bool_decide (pr_expires_at req <= now_secs)%Z
          then (Ok (Expired (with_status StExpired req)), alter (set_status "expired") id tbl)
          else if negb (bool_decide (pr_status req = StPending)) then (Ok (AlreadyHandled req), tbl)
          else if bool_decide (decision = Deny)
          then (Ok (Denied (with_status StDenied req)), alter (set_status "denied") id tbl)
          else
            let duplicate := bool_decide (approver_id ∈ pr_approvers req) in
            let approvers := if duplicate then pr_approvers req else pr_approvers req ++ [approver_id] in
            let req := with_approvers approvers req in
            let have := length approvers in
            let need := N.to_nat (N.max (pr_require req) 1) in
            let approvers_json := ids_to_text approvers in
            if bool_decide (need <= have)
            then (Ok (Approved (with_status StApproved req)),
                  alter (fun r => set_status "approved" (set_approvers approvers_json r)) id tbl)
            else (Ok (AwaitingApprovals req have need duplicate), alter (set_approvers approvers_json) id tbl)
      end
  end.

Definition mark_executed (disk : Result AnyErr unit) (id upid : string) (tbl : Table) : Result AnyErr unit * Table :=
  match disk with
  | Err e => (Err e, tbl)
  | Ok _ => (Ok (), alter (fun r => row_with "executed" (row_approvers_json r) (Some upid) None r) id tbl)
  end.

Definition mark_failed (disk : Result AnyErr unit) (id error_msg : string) (tbl : Table) : Result AnyErr unit * Table :=
  match disk with
  | Err e => (Err e, tbl)
  | Ok _ => (Ok (), alter (fun r => row_with "failed" (row_approvers_json r) (row_upid r) (Some error_msg) r) id tbl)
  end.

Definition consumed_count (tbl : Table) : nat :=
  size (filter (fun kv : string * Row => row_status kv.2 ∈ ["approved"; "executed"; "failed"]) tbl).
Definition total_count (tbl : Table) : nat := size tbl.

(** ** Runs *)
Inductive Event :=
  | EvOpen (now : Z)
  | EvInsert (id : string) (req : NewPendingRequest) (now : Z)
  | EvCallback (id : string) (decision : CallbackDecision) (approver now : Z)
  | EvExecuted (id upid : string)
  | EvFailed (id error_msg : string).

Inductive Output :=
  | OutInserted (request : PendingRequest)
  | OutCallback (outcome : StoreOutcome)
  | OutDone
  | OutError (e : AnyErr).

Definition output {A} (f : A -> Output) (r : Result AnyErr A * Table) : Output * Table :=
  (match r.1 with Ok a => f a | Err e => OutError e end, r.2).

(** One call of the store, with what the disk answered. *)
Definition step (de : Result AnyErr unit * Event) (tbl : Table) : Output * Table :=
  let '(disk, ev) := de in
  match ev with
  | EvOpen now => output (fun _ => OutDone) (open_at_with_now disk now tbl)
  | EvInsert id req now => output OutInserted (insert_at disk id req now tbl)
  | EvCallback id d a now => output OutCallback (process_callback_at disk id d a now tbl)
  | EvExecuted id upid => output (fun _ => OutDone) (mark_executed disk id upid tbl)
  | EvFailed id msg => output (fun _ => OutDone) (mark_failed disk id msg tbl)
  end.

Inductive run : list (Result AnyErr unit * Event) -> list Output -> Table -> Prop :=
  | run_empty : run [] [] ∅
  | run_snoc evs outs tbl de out tbl' :
      run evs outs tbl -> step de tbl = (out, tbl') -> run (evs ++ [de]) (outs ++ [out]) tbl'.
End Store.

(** * What the approval store promises

    Over every sequence of calls the store can see, from an empty database:
    an approval carries enough distinct votes, each cast in time, and a
    request is approved at most once, whatever is replayed. *)

Lemma RequestStatus_parse_as_str s : RequestStatus_parse (RequestStatus_as_str s) = Ok s.
Proof. by destruct s. Qed.

Lemma RequestStatus_parse_inv t s : RequestStatus_parse t = Ok s -> t = RequestStatus_as_str s.
Proof. unfold RequestStatus_parse. intros H. repeat case_bool_decide; simplify_eq; done. Qed.

(** A vote: an approval of [id] by [a], cast before [expiry]. *)
Definition voted (evs : list (Result AnyErr unit * Event)) (id : string) (a expiry : Z) : Prop :=
  exists disk t, (disk, EvCallback id Approve a t) ∈ evs /\ (t < expiry)%Z.

(** How many requests were inserted, and how many times one was approved. *)
Definition is_inserted (id : string) (o : Output) : bool :=
  match o with OutInserted p => bool_decide (pr_id p = id) | _ => false end.
Definition is_approved (id : string) (o : Output) : bool :=
  match o with OutCallback (Approved p) => bool_decide (pr_id p = id) | _ => false end.
Definition count (f : Output -> bool) (outs : list Output) : nat := length (filter f outs).

Lemma count_snoc f outs o : count f (outs ++ [o]) = count f outs + (if f o then 1 else 0).
Proof.
  unfold count. rewrite filter_app, length_app. f_equal. rewrite filter_cons, filter_nil.
  case_decide; by destruct (f o).
Qed.

Section Spec.
Context {J : JsonText} {JOk : JsonTextOk}.

Lemma read_row_with id row p s a l u e :
  row_to_pending_request id row = Ok p -> ids_of_text a = Some l ->
  exists p', row_to_pending_request id (row_with (RequestStatus_as_str s) a u e row) = Ok p'
    /\ pr_approvers p' = l /\ pr_expires_at p' = pr_expires_at p /\ pr_status p' = s.
Proof.
  unfold row_to_pending_request. cbn [row_with row_guest_type row_status row_approvers_json].
  intros H Ha. rewrite RequestStatus_parse_as_str, Ha.
  destruct (match row_guest_type row with None => _ | Some _ => _ end); [|done].
  destruct (RequestStatus_parse (row_status row)); [|done].
  destruct (ids_of_text (row_approvers_json row)); [|done]. csimpl in H. simplify_eq. by eexists.
Qed.

Lemma read_row_inv id row p :
  row_to_pending_request id row = Ok p ->
  pr_id p = id /\ row_status row = RequestStatus_as_str (pr_status p)
  /\ ids_of_text (row_approvers_json row) = Some (pr_approvers p)
  /\ pr_expires_at p = row_expires_at row /\ pr_require p = require_of_sql (row_require row).
Proof.
  unfold row_to_pending_request.
  destruct (match row_guest_type row with None => _ | Some _ => _ end); [|done].
  destruct (RequestStatus_parse (row_status row)) eqn:E; [|done].
  destruct (ids_of_text (row_approvers_json row)); [|done]. csimpl. intros [= <-].
  by apply RequestStatus_parse_inv in E.
Qed.

(** ** The invariant: every row can be read, its approvers are distinct and
    each of them voted in time *)
Definition row_inv (evs : list (Result AnyErr unit * Event)) (id : string) (row : Row) : Prop :=
  exists p, row_to_pending_request id row = Ok p
    /\ NoDup (pr_approvers p)
    /\ forall a, a ∈ pr_approvers p -> voted evs id a (pr_expires_at p).

Lemma voted_snoc evs de id a x : voted evs id a x -> voted (evs ++ [de]) id a x.
Proof. intros (d & t & ? & ?). exists d, t. split; [set_solver|done]. Qed.

Lemma row_inv_snoc evs de id row : row_inv evs id row -> row_inv (evs ++ [de]) id row.
Proof. intros (p & ? & ? & Hv). exists p. eauto using voted_snoc. Qed.

Lemma row_inv_update evs id row s a u e :
  row_inv evs id row -> a = row_approvers_json row -> row_inv evs id (row_with (RequestStatus_as_str s) a u e row).
Proof.
  intros (p & Hp & Hnd & Hv) ->. pose proof (read_row_inv _ _ _ Hp) as (_ & _ & Hl & _).
  destruct (read_row_with _ _ _ s _ _ u e Hp Hl) as (p' & Hp' & Ha & Hx & _).
  exists p'. rewrite Ha, Hx. done.
Qed.

Lemma alter_inv evs de id f (tbl : Table) :
  map_Forall (row_inv evs) tbl ->
  (forall row, tbl !! id = Some row -> row_inv (evs ++ [de]) id (f row)) ->
  map_Forall (row_inv (evs ++ [de])) (alter f id tbl).
Proof.
  intros Ht Hf k row. destruct (decide (k = id)) as [->|Hk].
  - rewrite lookup_alter_eq. intros (r & Hr & ->)%fmap_Some. auto.
  - rewrite lookup_alter_ne by done. intros Hr. apply row_inv_snoc. by apply Ht.
Qed.

(** The vote of [a] at [now] added to the approvers of a readable row. *)
Definition approvers_with (a : Z) (l : list Z) : list Z := if bool_decide (a ∈ l) then l else l ++ [a].

Lemma approvers_with_inv evs disk id a now row p :
  row_inv evs id row -> row_to_pending_request id row = Ok p -> (now < pr_expires_at p)%Z ->
  NoDup (approvers_with a (pr_approvers p)) /\
  forall b, b ∈ approvers_with a (pr_approvers p) ->
    voted (evs ++ [(disk, EvCallback id Approve a now)]) id b (pr_expires_at p).
Proof.
  intros (p' & Hp' & Hnd & Hv) Hp Ht. rewrite Hp in Hp'. injection Hp' as <-. unfold approvers_with. case_bool_decide as Ha.
  - split; [done|]. intros b Hb. by apply voted_snoc, Hv.
  - split; [apply NoDup_app; split_and!; [done|set_solver|apply NoDup_singleton]|].
    intros b [Hb | ->%list_elem_of_singleton]%elem_of_app; [eauto using voted_snoc|].
    exists disk, now. split; [set_solver|done].
Qed.

Lemma process_callback_cases disk id d a now tbl r tbl' :
  process_callback_at disk id d a now tbl = (r, tbl') ->
  (tbl' = tbl /\ forall p, r <> Ok (Approved p)) \/
  (exists row p, disk = Ok () /\ tbl !! id = Some row /\ row_to_pending_request id row = Ok p /\ pr_status p = StPending /\
    ((exists s, s <> StPending /\ tbl' = alter (set_status (RequestStatus_as_str s)) id tbl /\ forall q, r <> Ok (Approved q)) \/
     (d = Approve /\ (now < pr_expires_at p)%Z /\
      let l := approvers_with a (pr_approvers p) in
      let need := N.to_nat (N.max (pr_require p) 1) in
      if bool_decide (need <= length l)
      then r = Ok (Approved (with_status StApproved (with_approvers l p)))
           /\ tbl' = alter (fun r => set_status "approved" (set_approvers (ids_to_text l) r)) id tbl
      else tbl' = alter (set_approvers (ids_to_text l)) id tbl /\ forall q, r <> Ok (Approved q)))).
Proof.
  unfold process_callback_at, get. destruct disk as [[]|e]; [|intros [= <- <-]; by left].
  destruct (tbl !! id) as [row|] eqn:Hr; [|intros [= <- <-]; by left].
  destruct (row_to_pending_request id row) as [p|e] eqn:Hp; csimpl; [|intros [= <- <-]; by left].
  case_bool_decide as H1; [intros [= <- <-]; by left|].
  case_bool_decide as H2; [|csimpl; intros [= <- <-]; by left].
  case_bool_decide as H3; csimpl; intros H.
  - simplify_eq. right. exists row, p. repeat split; [done..|]. left. by exists StExpired.
  - right. exists row, p. split_and!; [done..|]. destruct d; simpl in H.
    + right. split; [done|]. split; [lia|]. unfold approvers_with in *.
      case_bool_decide; case_bool_decide; by simplify_eq.
    + simplify_eq. left. by exists StDenied.
Qed.

Lemma insert_at_inv disk id req now tbl r tbl' :
  insert_at disk id req now tbl = (r, tbl') ->
  (tbl' = tbl /\ exists e, r = Err e) \/
  (tbl !! id = None /\ exists row p, r = Ok p /\ tbl' = <[id := row]> tbl /\ pr_id p = id /\
     exists q, row_to_pending_request id row = Ok q /\ pr_approvers q = [] /\ pr_status q = StPending).
Proof.
  unfold insert_at. destruct disk; [|intros [= <- <-]; eauto].
  destruct (tbl !! id); intros [= <- <-]; [eauto|]. right. split; [done|]. eexists _, _.
  split_and!; [done..|]. unfold row_to_pending_request. csimpl. rewrite ids_empty.
  destruct (np_guest_type req) as [[]|]; by eexists.
Qed.

(** [mark_executed] and [mark_failed] rewrite one row and leave the pending
    state. *)
Definition finishes (id : string) (tbl tbl' : Table) : Prop :=
  tbl' = tbl \/ exists s f, s <> StPending /\ tbl' = alter f id tbl /\
    forall row, exists u e, f row = row_with (RequestStatus_as_str s) (row_approvers_json row) u e row.

Lemma mark_executed_finishes disk id upid tbl : finishes id tbl (mark_executed disk id upid tbl).2.
Proof. destruct disk; [|by left]. right. exists StExecuted. eexists. split_and!; [done..|]. intros row. by eexists _, _. Qed.
Lemma mark_failed_finishes disk id msg tbl : finishes id tbl (mark_failed disk id msg tbl).2.
Proof. destruct disk; [|by left]. right. exists StFailed. eexists. split_and!; [done..|]. intros row. by eexists _, _. Qed.

Lemma finishes_inv evs de id tbl tbl' :
  finishes id tbl tbl' -> map_Forall (row_inv evs) tbl -> map_Forall (row_inv (evs ++ [de])) tbl'.
Proof.
  intros [-> | (s & f & _ & -> & Hf)] Ht.
  - intros k row Hk. by apply row_inv_snoc, Ht.
  - apply alter_inv; [done|]. intros row Hr. destruct (Hf row) as (u & e & ->).
    apply row_inv_snoc. apply row_inv_update; [by apply Ht|done].
Qed.

Lemma callback_inv evs disk id d a now tbl r tbl' :
  process_callback_at disk id d a now tbl = (r, tbl') -> map_Forall (row_inv evs) tbl ->
  map_Forall (row_inv (evs ++ [(disk, EvCallback id d a now)])) tbl'.
Proof.
  intros [[-> _] | (row & p & -> & Hr & Hp & Hs & Hc)]%process_callback_cases Ht.
  { intros k row Hk. by apply row_inv_snoc, Ht. }
  destruct Hc as [(s & _ & -> & _) | (-> & Hnow & Hc)].
  { apply alter_inv; [done|]. intros row' Hr'. apply row_inv_snoc, row_inv_update; [by apply Ht|done]. }
  cbv zeta in Hc. set (l := approvers_with a (pr_approvers p)) in *.
  destruct (approvers_with_inv evs (Ok ()) id a now row p (Ht _ _ Hr) Hp Hnow) as [Hnd Hv].
  assert (forall s, row_inv (evs ++ [(Ok (), EvCallback id Approve a now)]) id
            (row_with (RequestStatus_as_str s) (ids_to_text l) (row_upid row) (row_error row) row)) as Hrow.
  { intros s. destruct (read_row_with id row p s _ l (row_upid row) (row_error row) Hp (ids_round_trip l))
      as (p' & Hp' & Ha & Hx & _). exists p'. by rewrite Ha, Hx. }
  case_bool_decide; destruct Hc as [? ?]; subst; (apply alter_inv; [done|]); intros row' Hr'; simplify_eq.
  - apply (Hrow StApproved).
  - apply read_row_inv in Hp as (_ & Hst & _). unfold set_approvers. rewrite Hst. apply Hrow.
Qed.

Lemma step_inv evs de tbl out tbl' :
  step de tbl = (out, tbl') -> map_Forall (row_inv evs) tbl -> map_Forall (row_inv (evs ++ [de])) tbl'.
Proof.
  destruct de as [disk ev]. unfold step, output. destruct ev as [now|id req now|id d a now|id u|id m]; intros [= _ <-] Ht.
  - intros k row Hk. apply row_inv_snoc, Ht. unfold open_at_with_now in Hk. destruct disk; simpl in Hk; [|done].
    by apply map_lookup_filter_Some in Hk as [? _].
  - destruct (insert_at disk id req now tbl) as [r t] eqn:E.
    apply insert_at_inv in E as [[-> _] | (_ & row & p & _ & -> & _ & q & Hq & Ha & _)]; simpl.
    + intros k row Hk. by apply row_inv_snoc, Ht.
    + apply map_Forall_insert_2; [|intros k r' Hk; by apply row_inv_snoc, Ht].
      exists q. rewrite Ha. split_and!; [done|constructor|set_solver].
  - destruct (process_callback_at disk id d a now tbl) as [r t] eqn:E. by eapply callback_inv.
  - eapply finishes_inv; [apply mark_executed_finishes|done].
  - eapply finishes_inv; [apply mark_failed_finishes|done].
Qed.

Lemma run_inv evs outs tbl : run evs outs tbl -> map_Forall (row_inv evs) tbl.
Proof. induction 1; [apply map_Forall_empty|eauto using step_inv]. Qed.

(** ** Approvals are counted against insertions *)
Definition pending_here (id : string) (tbl : Table) : nat :=
  match tbl !! id with
  | Some row => if bool_decide (row_status row = "pending") then 1 else 0
  | None => 0
  end.

Lemma pending_here_alter id k f (tbl : Table) :
  (forall row, tbl !! k = Some row -> row_status (f row) = "pending" -> row_status row = "pending") ->
  pending_here id (alter f k tbl) <= pending_here id tbl.
Proof.
  intros Hf. unfold pending_here. destruct (decide (id = k)) as [->|Hk].
  - rewrite lookup_alter_eq. destruct (tbl !! k) as [row|]; simpl; [|done].
    specialize (Hf row eq_refl). repeat case_bool_decide; naive_solver lia.
  - by rewrite lookup_alter_ne.
Qed.

Lemma as_str_pending s : RequestStatus_as_str s = "pending" -> s = StPending.
Proof. by destruct s. Qed.

Lemma finishes_pending id k tbl tbl' : finishes k tbl tbl' -> pending_here id tbl' <= pending_here id tbl.
Proof.
  intros [-> | (s & f & Hs & -> & Hf)]; [done|]. apply pending_here_alter. intros row _.
  destruct (Hf row) as (u & e & ->). simpl. by intros ?%as_str_pending.
Qed.

Lemma callback_pending id k disk d a now tbl r tbl' :
  process_callback_at disk k d a now tbl = (r, tbl') ->
  (if is_approved id (output OutCallback (r, tbl')).1 then 1 else 0) + pending_here id tbl' <= pending_here id tbl.
Proof.
  intros [[-> Hr] | (row & p & _ & Hk & Hp & Hs & Hc)]%process_callback_cases.
  { destruct r as [[]|]; try done. by edestruct Hr. }
  destruct Hc as [(s & Hs' & -> & Hr) | (_ & _ & Hc)].
  { destruct r as [[]|]; (try by edestruct Hr); simpl; apply pending_here_alter; intros ? _ ?%as_str_pending; done. }
  apply read_row_inv in Hp as (Hid & Hst & _). rewrite Hs in Hst.
  cbv zeta in Hc. case_bool_decide; destruct Hc as [Hr1 Hr2]; subst.
  - simpl. case_bool_decide as Hi.
    + subst id. unfold pending_here. rewrite lookup_alter_eq, Hk. simpl. by rewrite Hst.
    + unfold pending_here. by rewrite lookup_alter_ne.
  - destruct r as [[]|]; (try by edestruct Hr2); simpl; apply pending_here_alter; done.
Qed.

Lemma step_pending id de tbl out tbl' :
  step de tbl = (out, tbl') ->
  (if is_approved id out then 1 else 0) + pending_here id tbl'
  <= (if is_inserted id out then 1 else 0) + pending_here id tbl.
Proof.
  destruct de as [disk ev]. unfold step, output. destruct ev as [now|k req now|k d a now|k u|k m].
  - intros [= <- <-]. unfold open_at_with_now. destruct disk; simpl; [|done].
    unfold pending_here. destruct (tbl !! id) as [row|] eqn:E.
    + rewrite map_lookup_filter, E. simpl. case_guard; simpl; lia.
    + by rewrite map_lookup_filter, E.
  - destruct (insert_at disk k req now tbl) as [r t] eqn:E. intros [= <- <-].
    apply insert_at_inv in E as [[-> [e ->]] | (Hn & row & p & -> & -> & Hid & _)]; simpl; [done|].
    case_bool_decide as Hi; unfold pending_here.
    + subst id. rewrite Hid, lookup_insert_eq. case_bool_decide; lia.
    + by rewrite lookup_insert_ne by congruence.
  - destruct (process_callback_at disk k d a now tbl) as [r t] eqn:E. intros [= <- <-].
    etrans; [apply (callback_pending id _ _ _ _ _ _ _ _ E)|lia].
  - intros [= <- <-]. pose proof (finishes_pending id k _ _ (mark_executed_finishes disk k u tbl)).
    destruct (mark_executed disk k u tbl) as [[]]; simpl in *; lia.
  - intros [= <- <-]. pose proof (finishes_pending id k _ _ (mark_failed_finishes disk k m tbl)).
    destruct (mark_failed disk k m tbl) as [[]]; simpl in *; lia.
Qed.

Lemma run_pending id evs outs tbl :
  run evs outs tbl ->
  count (is_approved id) outs + pending_here id tbl <= count (is_inserted id) outs.
Proof.
  induction 1 as [|evs outs tbl de out tbl' Hrun IH Hstep].
  - unfold count, pending_here. simpl. rewrite lookup_empty. lia.
  - rewrite !count_snoc. pose proof (step_pending id _ _ _ _ Hstep). lia.
Qed.

(** ** Claims *)

(** C22: an approval needs its quorum.  In every run of the store, when a
    callback is answered [Approved], the request carries at least as many
    distinct approvers as it requires, never fewer than one, and every one of
    them pressed Approve on this request before it expired, in this run. *)
Theorem approved_has_quorum evs outs tbl disk id d a now p tbl' :
  run evs outs tbl ->
  process_callback_at disk id d a now tbl = (Ok (Approved p), tbl') ->
  pr_id p = id /\ pr_status p = StApproved /\ NoDup (pr_approvers p)
  /\ N.to_nat (N.max (pr_require p) 1) <= length (pr_approvers p)
  /\ (forall b, b ∈ pr_approvers p ->
        voted (evs ++ [(disk, EvCallback id d a now)]) id b (pr_expires_at p))
  /\ a ∈ pr_approvers p /\ d = Approve /\ (now < pr_expires_at p)%Z.
Proof.
  intros Hrun%run_inv [[_ H] | (row & q & -> & Hr & Hq & _ & Hc)]%process_callback_cases; [by edestruct H|].
  destruct Hc as [(s & _ & _ & H) | (-> & Hnow & Hc)]; [by edestruct H|].
  destruct (approvers_with_inv evs (Ok ()) id a now row q (Hrun _ _ Hr) Hq Hnow) as [Hnd Hv].
  apply read_row_inv in Hq as (Hid & _). cbv zeta in Hc.
  case_bool_decide; destruct Hc as [Hc Hne]; [|by edestruct Hne].
  injection Hc as ->. simpl. split_and!; try done.
  unfold approvers_with. case_bool_decide; set_solver.
Qed.

(** one approval executes one request: over every run, whatever callbacks
    are replayed, interleaved or repeated across restarts, a request id is
    answered [Approved] at most as often as it was inserted. *)
Lemma approved_at_most_once evs outs tbl id :
  run evs outs tbl -> count (is_approved id) outs <= count (is_inserted id) outs.
Proof. intros H%(run_pending id). lia. Qed.
End Spec.

(** ** Witnesses *)

(** A textual form of a list of ids for the witnesses: the number of its
    encoding in binary. *)
Definition demo_ids_of_text (s : string) : option (list Z) :=
  if bool_decide (s = "[]") then Some [] else decode (read_pos s).
#[local] Instance demo_text : JsonText :=
  {| ids_to_text l := write_pos (encode l); ids_of_text := demo_ids_of_text; value_to_text _ := "{}" |}.
#[local] Instance demo_text_ok : JsonTextOk.
Proof.
  split; [|done]. intros l. simpl. unfold demo_ids_of_text.
  rewrite bool_decide_false.
  - by rewrite read_write_pos, decode_encode.
  - by destruct (encode l).
Qed.

(** Two approvers of a request that needs two, the first one twice. *)
Definition demo_events : list (Result AnyErr unit * Event) :=
  [(Ok (), EvOpen 0); (Ok (), EvInsert "7f" (NewPendingRequest_new "stop" (Some 100%N) 2) 1000);
   (Ok (), EvCallback "7f" Approve 11 1010); (Ok (), EvCallback "7f" Approve 11 1011)].
Definition demo_step (st : list Output * Table) (de : Result AnyErr unit * Event) : list Output * Table :=
  let '(o, t) := step de st.2 in (st.1 ++ [o], t).
Definition demo_run (evs : list (Result AnyErr unit * Event)) : list Output * Table := foldl demo_step ([], ∅) evs.

Lemma demo_run_ok evs : run evs (demo_run evs).1 (demo_run evs).2.
Proof.
  unfold demo_run. induction evs as [|de evs IH] using rev_ind; [constructor|].
  rewrite foldl_snoc. destruct (foldl demo_step ([], ∅) evs) as [outs tbl]. simpl in *.
  unfold demo_step. simpl. destruct (step de tbl) as [o t] eqn:E. by econstructor.
Qed.

Lemma approved_has_quorum_witness :
  exists p tbl', process_callback_at (Ok ()) "7f" Approve 12 1020 (demo_run demo_events).2 = (Ok (Approved p), tbl')
    /\ 2 <= length (pr_approvers p).
Proof.
  eexists _, _. split; [vm_compute; reflexivity|].
  edestruct (approved_has_quorum demo_events (demo_run demo_events).1 (demo_run demo_events).2 (Ok ()) "7f" Approve 12 1020) as (_ & _ & _ & H & _);
    [apply demo_run_ok|vm_compute; reflexivity|exact H].
Defined.

Lemma approved_at_most_once_witness :
  count (is_approved "7f") (demo_run (demo_events ++ [(Ok (), EvCallback "7f" Approve 12 1020)])).1 = 1
  /\ count (is_approved "7f") (demo_run (demo_events ++ [(Ok (), EvCallback "7f" Approve 12 1020)])).1
     <= count (is_inserted "7f") (demo_run (demo_events ++ [(Ok (), EvCallback "7f" Approve 12 1020)])).1.
Proof.
  split; [vm_compute; reflexivity|].
  eapply approved_at_most_once. apply demo_run_ok.
Defined.
