(* ===== verification/Mac.v ===== *)
(** * Keyed MACs and hexadecimal text

    HMAC-SHA256 and the hexadecimal codec come from the crates [hmac], [sha2]
    and [hex]: they are the class [Mac], a parameter of the approval buttons
    and of the audit log, and [MacOk] states what these crates document.
    [demo_mac] is a concrete instance. *)
From S2P Require Import Prelude.

Definition is_ascii_hexdigit (a : ascii) : bool :=
  let n := N_of_ascii a in
  ((48 <=? n) && (n <=? 57) || (65 <=? n) && (n <=? 70) || (97 <=? n) && (n <=? 102))%N.
Fixpoint all_chars (f : ascii -> bool) (s : string) : bool :=
  match s with "" => true | String a s' => f a && all_chars f s' end.


Lemma all_chars_has_char f c s : f c = false -> all_chars f s = true -> has_char c s = false.
Proof.
  intros Hc. induction s as [|a s IH]; [done|]. simpl. intros [Ha Hs]%andb_true_iff.
  destruct (Ascii.eqb_spec a c); [congruence|]. by apply IH.
Qed.

(** [mac key payload] is the tag of HMAC-SHA256, [None] for a key it refuses;
    [verify_truncated_left] compares a left part of it. *)
Class Mac := {
  mac : list ascii -> string -> option (list ascii);
  verify_truncated_left : list ascii -> string -> list ascii -> bool;
  hex_encode : list ascii -> string;
  hex_decode : string -> option (list ascii);
}.
Class MacOk `{Mac} : Prop := {
  mac_some k p : is_Some (mac k p);
  mac_length k p t : mac k p = Some t -> length t = 32;
  truncated_left k p t n : mac k p = Some t -> 0 < n <= 32 -> verify_truncated_left k p (take n t) = true;
  hex_length b : String.length (hex_encode b) = 2 * length b;
  hex_digits b : all_chars is_ascii_hexdigit (hex_encode b) = true;
  hex_round_trip b : hex_decode (hex_encode b) = Some b;
}.

(** In place of the MAC, the first characters of the key and the payload. *)
Definition demo_unhex (a : ascii) : N := let n := N_of_ascii a in if (n <? 58)%N then n - 48 else n - 87.
Definition demo_hex (n : N) : ascii := hex_lower (n mod 16).
Fixpoint demo_encode (l : list ascii) : string :=
  match l with
  | [] => ""
  | b :: l' => String (demo_hex (N_of_ascii b / 16)) (String (demo_hex (N_of_ascii b)) (demo_encode l'))
  end.
Fixpoint demo_decode (s : string) : list ascii :=
  match s with
  | String a (String b s') => ascii_of_N (16 * demo_unhex a + demo_unhex b) :: demo_decode s'
  | _ => []
  end.
Fixpoint bytes_of (s : string) : list ascii := match s with "" => [] | String a s' => a :: bytes_of s' end.
Definition demo_mac_of (k : list ascii) (p : string) : list ascii :=
  take 32 (k ++ bytes_of p ++ replicate 32 "0"%char).
Definition demo_mac : Mac :=
  {| mac k p := Some (demo_mac_of k p);
     verify_truncated_left k p t := bool_decide (t = take (length t) (demo_mac_of k p));
     hex_encode := demo_encode; hex_decode s := Some (demo_decode s) |}.

Lemma demo_byte b :
  is_ascii_hexdigit (demo_hex (N_of_ascii b / 16)) = true /\ is_ascii_hexdigit (demo_hex (N_of_ascii b)) = true
  /\ ascii_of_N (16 * demo_unhex (demo_hex (N_of_ascii b / 16)) + demo_unhex (demo_hex (N_of_ascii b))) = b.
Proof. by destruct b as [[] [] [] [] [] [] [] []]. Qed.

Lemma demo_mac_ok : @MacOk demo_mac.
Proof.
  assert (forall k p, length (demo_mac_of k p) = 32) as Hl.
  { intros k p. unfold demo_mac_of. rewrite length_take, !length_app, length_replicate. lia. }
  split; simpl.
  - by eexists.
  - intros k p t [= <-]. apply Hl.
  - intros k p t n [= <-] Hn. apply bool_decide_eq_true. rewrite length_take, Hl. f_equal. lia.
  - intros b. induction b; simpl; lia.
  - intros b. induction b as [|x b IH]; simpl; [done|]. destruct (demo_byte x) as (-> & -> & _). done.
  - intros b. f_equal. induction b as [|x b IH]; simpl; [done|]. destruct (demo_byte x) as (_ & _ & ->). by rewrite IH.
Qed.
