(* ===== verification/HitlCallback.v ===== *)
(** * Approval buttons: src/hitl/hmac_key.rs, telegram.rs, daemon.rs, policy.rs

    How a button is signed ([build_approval_keyboard]), how a press is
    verified ([verify_callback]) and which operations need one
    ([check_policies]).  HMAC-SHA256 and the hexadecimal codec are crates and
    the parameter [Mac]. *)
From S2P Require Import Prelude ApiError Mac HitlPending.

Definition TAG_RAW_BYTES : nat := 8.
Definition TAG_HEX_CHARS : nat := 16.

Definition is_id_char (a : ascii) : bool :=
  let n := N_of_ascii a in
  ((48 <=? n) && (n <=? 57) || (65 <=? n) && (n <=? 90) || (97 <=? n) && (n <=? 122)
   || (n =? 95) || (n =? 45))%N.

(** ** Policies *)
Record Policy := {
  po_action : string;
  po_target : string;
  po_channel : string;
  po_require : N;
}.

(** [str::trim_start_matches(&str)]; the length bounds the repetitions. *)
Fixpoint trim_start_matches_fuel (fuel : nat) (p s : string) : string :=
  match fuel, strip_prefix p s with
  | S fuel', Some r => trim_start_matches_fuel fuel' p r
  | _, _ => s
  end.
Definition trim_start_matches (p s : string) : string := trim_start_matches_fuel (String.length s) p s.

Definition policy_matches (action target : string) (tags : list string) (p : Policy) : bool :=
  let action_match := bool_decide (po_action p = "*") || bool_decide (po_action p = action) in
  let target_match := bool_decide (po_target p = "*") || bool_decide (po_target p = target)
    || (starts_with "tag:" (po_target p) && bool_decide (trim_start_matches "tag:" (po_target p) ∈ tags)) in
  action_match && target_match.

Definition check_policies (policies : list Policy) (action target : string) (tags : list string) : option Policy :=
  head (filter (policy_matches action target tags) policies).

(** ** Telegram's messages, as far as a callback is concerned *)
Record Chat := { chat_id : Z }.
Record Message := { msg_chat : option Chat; msg_message_id : Z }.
Record User := { user_id : Z; user_username : option string; user_first_name : string }.
Record CallbackQuery := {
  cb_id : string;
  cb_from : User;
  cb_message : option Message;
  cb_data : option string;
}.
Record TelegramGateway := {
  gw_chat_id : string;
  gw_hmac_key : list ascii;
  gw_allowed_approvers : list Z;
}.

Record ParsedCallback := { pc_decision : CallbackDecision; pc_txn_id : string }.
Record VerifiedCallback := {
  vc_decision : CallbackDecision;
  vc_txn_id : string;
  vc_raw_data : string;
  vc_approver_id : Z;
}.
Inductive CallbackRejection :=
  | MissingData
  | Unsigned (data : string)
  | InvalidSignature (data : string)
  | MissingChat
  | WrongChat (chat_id : Z)
  | NoApproversConfigured (user_id : Z)
  | UnauthorizedApprover (user_id : Z)
  | LegacyFormat (data : string)
  | InvalidPayload (data : string).
Inductive PayloadParseError := LegacyPayload | Invalid.

Definition parse_callback_payload (payload : string) : Result PayloadParseError ParsedCallback :=
  match split_once ":" payload with
  | None => Err Invalid
  | Some (decision_str, id_str) =>
      decision ← (if bool_decide (decision_str = "approve") then Ok Approve
                  else if bool_decide (decision_str = "deny") then Ok Deny
                  else Err Invalid);
      if is_empty id_str then Err Invalid
      else if has_char ":" id_str then Err LegacyPayload
      else if bool_decide (64 < String.length id_str) || negb (all_chars is_id_char id_str) then Err Invalid
      else Ok {| pc_decision := decision; pc_txn_id := id_str |}
  end.

Section Signed.
Context {M : Mac}.

Definition sign (key : list ascii) (payload : string) : string :=
  match mac key payload with
  | None => ""
  | Some bytes => hex_encode (take TAG_RAW_BYTES bytes)
  end.

Definition verify (key : list ascii) (payload tag_hex : string) : bool :=
  if negb (bool_decide (String.length tag_hex = TAG_HEX_CHARS)) then false
  else match hex_decode tag_hex with
       | None => false
       | Some expected =>
           if negb (bool_decide (length expected = TAG_RAW_BYTES)) then false
           else match mac key payload with
                | None => false
                | Some full =>
                    verify_truncated_left key payload expected
                    && bool_decide (expected = take TAG_RAW_BYTES full)
                end
       end.

(** The [callback_data] of the two buttons. *)
Definition build_approval_keyboard (gw : TelegramGateway) (txn_id : string) : string * string :=
  let approve_payload := "approve:" +:+ txn_id in
  let approve_tag := sign (gw_hmac_key gw) approve_payload in
  let deny_payload := "deny:" +:+ txn_id in
  let deny_tag := sign (gw_hmac_key gw) deny_payload in
  (approve_payload +:+ ":" +:+ approve_tag, deny_payload +:+ ":" +:+ deny_tag).

Definition verify_callback (gw : TelegramGateway) (cb : CallbackQuery) : Result CallbackRejection VerifiedCallback :=
  match cb_data cb with
  | None => Err MissingData
  | Some data =>
      match rsplit_once ":" data with
      | None => Err (Unsigned data)
      | Some (head_payload, tail_tag) =>
          if negb (bool_decide (String.length tail_tag = 16)) || negb (all_chars is_ascii_hexdigit tail_tag)
          then Err (Unsigned data)
          else if negb (verify (gw_hmac_key gw) head_payload tail_tag) then Err (InvalidSignature data)
          else match cb_message cb ≫= msg_chat with
               | None => Err MissingChat
               | Some chat =>
                   if negb (bool_decide (gw_chat_id gw = pretty (chat_id chat)))
                   then Err (WrongChat (chat_id chat))
                   else if bool_decide (gw_allowed_approvers gw = [])
                   then Err (NoApproversConfigured (user_id (cb_from cb)))
                   else if negb (bool_decide (user_id (cb_from cb) ∈ gw_allowed_approvers gw))
                   then Err (UnauthorizedApprover (user_id (cb_from cb)))
                   else match parse_callback_payload head_payload with
                        | Ok p => Ok {| vc_decision := pc_decision p; vc_txn_id := pc_txn_id p;
                                        vc_raw_data := data; vc_approver_id := user_id (cb_from cb) |}
                        | Err LegacyPayload => Err (LegacyFormat data)
                        | Err Invalid => Err (InvalidPayload data)
                        end
               end
      end
  end.

(** ** Lemmas *)
(** The payload a decision and an id are written as, and which ids it takes. *)
Definition decision_str (d : CallbackDecision) : string :=
  match d with Approve => "approve" | Deny => "deny" end.
Definition valid_id (id : string) : Prop :=
  0 < String.length id <= 64 /\ all_chars is_id_char id = true.

Lemma parse_callback_payload_iff payload p :
  parse_callback_payload payload = Ok p <->
  payload = decision_str (pc_decision p) +:+ ":" +:+ pc_txn_id p /\ valid_id (pc_txn_id p).
Proof.
  unfold parse_callback_payload, valid_id. split.
  - destruct (split_once ":" payload) as [[d i]|] eqn:E; [|done]. apply split_once_Some in E as ->.
    unfold is_empty. intros H. repeat case_bool_decide; simplify_eq/=; destruct (has_char ":" i); try done;
      destruct (all_chars is_id_char i) eqn:Ea; simplify_eq/=; (split; [done|]); rewrite Ea;
      destruct i; simpl in *; naive_solver lia.
  - destruct p as [d i]. simpl. intros [-> [Hl Ha]].
    pose proof (all_chars_has_char is_id_char ":" i eq_refl Ha) as Hc.
    assert (is_empty i = false) as He by (unfold is_empty; destruct i; [simpl in Hl; lia|done]).
    rewrite split_once_char by (by destruct d). rewrite He, Hc, Ha, bool_decide_false by lia. by destruct d.
Qed.

Lemma verify_sound key payload tag :
  verify key payload tag = true ->
  exists full, mac key payload = Some full /\ hex_decode tag = Some (take TAG_RAW_BYTES full).
Proof.
  unfold verify. intros H. repeat case_match; try done.
  apply andb_true_iff in H as [_ H%bool_decide_eq_true]. subst. eauto.
Qed.

(** no press is taken that the daemon did not sign for this chat and this
    approver: a verified callback carries a payload [approve:id] or [deny:id]
    whose tag is the keyed MAC of that payload, comes from the configured
    chat and from a listed approver (an empty list takes nobody), and the
    decision, the id and the approver it reports are the ones pressed. *)
Lemma verified_callback_is_authentic gw cb v :
  verify_callback gw cb = Ok v ->
  exists tag full m chat,
    cb_data cb = Some (decision_str (vc_decision v) +:+ ":" +:+ vc_txn_id v +:+ ":" +:+ tag)
    /\ mac (gw_hmac_key gw) (decision_str (vc_decision v) +:+ ":" +:+ vc_txn_id v) = Some full
    /\ hex_decode tag = Some (take TAG_RAW_BYTES full)
    /\ cb_message cb = Some m /\ msg_chat m = Some chat /\ gw_chat_id gw = pretty (chat_id chat)
    /\ vc_approver_id v = user_id (cb_from cb) /\ vc_approver_id v ∈ gw_allowed_approvers gw
    /\ valid_id (vc_txn_id v).
Proof.
  unfold verify_callback. destruct (cb_data cb) as [data|]; [|done].
  destruct (rsplit_once ":" data) as [[h t]|] eqn:Es; [|done]. apply rsplit_once_Some in Es as ->.
  destruct (negb _ || _); [done|]. destruct (verify (gw_hmac_key gw) h t) eqn:Ev; [|done]. simpl.
  destruct (cb_message cb) as [m|]; csimpl; [|done]. destruct (msg_chat m) as [chat|] eqn:Em; [|done].
  case_bool_decide as Hchat; [|done]. simpl. case_bool_decide; [done|]. case_bool_decide as Hu; [|done]. simpl.
  destruct (parse_callback_payload h) as [p|[]] eqn:Ep; [|done..]. intros [= <-]. simpl.
  apply parse_callback_payload_iff in Ep as [-> Hid]. apply verify_sound in Ev as (full & Hm & Hx).
  exists t, full, m, chat. split_and!; try done. by rewrite <-!string_app_assoc.
Qed.

Context {MOk : MacOk}.

Lemma sign_verify key payload :
  verify key payload (sign key payload) = true
  /\ String.length (sign key payload) = 16 /\ all_chars is_ascii_hexdigit (sign key payload) = true.
Proof.
  destruct (mac_some key payload) as [t Hm]. pose proof (mac_length _ _ _ Hm) as Hl. unfold sign, verify. rewrite Hm, hex_length, hex_round_trip.
  rewrite length_take, hex_digits, Hl. change (8 `min` 32) with 8. split_and!; [|done..].
  rewrite !bool_decide_true by done. cbn [negb]. unfold TAG_RAW_BYTES. by rewrite (truncated_left _ _ _ 8 Hm) by lia.
Qed.

(** the buttons the daemon sends are the presses it takes: for every id of
    the accepted form, pressing either button of the keyboard built for it,
    in the configured chat and by a listed approver, verifies as that decision
    on that id. *)
Lemma keyboard_round_trip gw txn_id d cb m chat :
  valid_id txn_id ->
  cb_data cb = Some (match d with
                     | Approve => (build_approval_keyboard gw txn_id).1
                     | Deny => (build_approval_keyboard gw txn_id).2
                     end) ->
  cb_message cb = Some m -> msg_chat m = Some chat -> gw_chat_id gw = pretty (chat_id chat) ->
  user_id (cb_from cb) ∈ gw_allowed_approvers gw ->
  exists raw, verify_callback gw cb =
    Ok {| vc_decision := d; vc_txn_id := txn_id; vc_raw_data := raw; vc_approver_id := user_id (cb_from cb) |}.
Proof.
  intros Hid Hd Hmsg Hchat Hgw Hu.
  destruct (sign_verify (gw_hmac_key gw) (decision_str d +:+ ":" +:+ txn_id)) as (Hv & Hl & Hx).
  pose proof (all_chars_has_char is_ascii_hexdigit ":" _ eq_refl Hx) as Hc.
  set (payload := decision_str d +:+ ":" +:+ txn_id) in *.
  assert (cb_data cb = Some (payload +:+ String ":" (sign (gw_hmac_key gw) payload))) as Hdata
    by (rewrite Hd; by destruct d).
  unfold verify_callback. rewrite Hdata, rsplit_once_app, Hl, Hx, Hv, Hmsg by done. csimpl. rewrite Hchat.
  rewrite bool_decide_true by done. simpl.
  rewrite bool_decide_false by (intros He; rewrite He in Hu; by apply not_elem_of_nil in Hu).
  rewrite bool_decide_true by done. simpl.
  rewrite (proj2 (parse_callback_payload_iff payload {| pc_decision := d; pc_txn_id := txn_id |})) by done.
  by eexists.
Qed.
End Signed.

(** ** Witnesses *)
#[local] Existing Instance demo_mac.
#[local] Existing Instance demo_mac_ok.

Definition demo_gateway : TelegramGateway :=
  {| gw_chat_id := "-42"; gw_hmac_key := ["k"%char]; gw_allowed_approvers := [11%Z; 12%Z] |}.
Definition demo_press (data : string) : CallbackQuery :=
  {| cb_id := "1"; cb_from := {| user_id := 12; user_username := None; user_first_name := "Ann" |};
     cb_message := Some {| msg_chat := Some {| chat_id := -42 |}; msg_message_id := 5 |}; cb_data := Some data |}.

Lemma verified_callback_is_authentic_witness :
  exists v, verify_callback demo_gateway (demo_press (build_approval_keyboard demo_gateway "7f").1) = Ok v
    /\ vc_approver_id v ∈ gw_allowed_approvers demo_gateway.
Proof.
  eexists. split; [vm_compute; reflexivity|].
  edestruct (verified_callback_is_authentic demo_gateway (demo_press (build_approval_keyboard demo_gateway "7f").1))
    as (tag & full & m & chat & _ & _ & _ & _ & _ & _ & _ & H & _); [vm_compute; reflexivity|exact H].
Defined.

Lemma keyboard_round_trip_witness :
  exists raw, verify_callback demo_gateway (demo_press (build_approval_keyboard demo_gateway "7f").2) =
    Ok {| vc_decision := Deny; vc_txn_id := "7f"; vc_raw_data := raw; vc_approver_id := 12 |}.
Proof.
  eapply (keyboard_round_trip demo_gateway "7f" Deny
           (demo_press (build_approval_keyboard demo_gateway "7f").2)); try reflexivity.
  - split; [simpl; lia|reflexivity].
  - simpl. set_solver.
Defined.
