(* ===== verification/AuditLog.v ===== *)
(** * The audit log: src/audit/mod.rs

    The table [audit_log] as the list of its rows in the order of their ids
    (the key is AUTOINCREMENT, rows are only appended and relabelled), the
    signing keys on disk by key id (["primary"] is [audit.key], any other id
    the retired key archived as [audit.key.<id>]) and the process-wide cached
    logger.  An append and a rotation each run in one immediate transaction;
    [disk] says whether the database took an append, [RotateFault] where a
    rotation fails. *)
From S2P Require Import Prelude ApiError Mac.

(** ** Rows and keys *)
Record RawAuditRow := {
  ar_ts : string;
  ar_action : string;
  ar_user : string;
  ar_vmid : option Z;
  ar_node : option string;
  ar_params_json : option string;
  ar_result : string;
  ar_chain_hmac : string;
  ar_chain_version : Z;
  ar_key_id : string;
}.
Notation Db := (list RawAuditRow).

Definition CHAIN_V2 : Z := 2.
Definition PRIMARY_KEY_ID : string := "primary".

Record KeyFile := { kf_mode : N; kf_bytes : list ascii }.
Notation KeyDir := (gmap string KeyFile).

(** The custody check ([mode & 0o077]) and the length check. *)
Definition read_existing_key (kd : KeyDir) (id : string) : Result AnyErr (list ascii) :=
  match kd !! id with
  | None => Err (bail "open audit key")
  | Some f =>
      if negb (N.land (kf_mode f) 63 =? 0)%N then Err (bail "audit key has unsafe permissions")
      else if negb (length (kf_bytes f) =? 32) then Err (bail "audit key is malformed, expected 32 bytes")
      else Ok (kf_bytes f)
  end.

(** [load_or_create_key] never creates here: the file was checked to exist. *)
Definition load_existing_key (kd : KeyDir) (id : string) : Result AnyErr (list ascii) :=
  match kd !! id with
  | None => Err (bail ("audit key `" +:+ id +:+ "` is not present"))
  | Some _ => read_existing_key kd id
  end.

(** A key file made by the program: mode 0600. *)
Definition private_key (bytes : list ascii) : KeyFile := {| kf_mode := 384; kf_bytes := bytes |}.

(** [fresh] is what [getrandom] filled the new key with. *)
Definition create_key_once (kd : KeyDir) (fresh : list ascii) : Result AnyErr (list ascii) * KeyDir :=
  match kd !! PRIMARY_KEY_ID with
  | None => (Ok fresh, <[PRIMARY_KEY_ID := private_key fresh]> kd)
  | Some _ => (read_existing_key kd PRIMARY_KEY_ID, kd)
  end.

Definition first_use_key (db : Db) (kd : KeyDir) (fresh : list ascii) : Result AnyErr (list ascii) * KeyDir :=
  let existing_primary_rows := length (filter (fun r => ar_key_id r = PRIMARY_KEY_ID) db) in
  if existing_primary_rows =? 0 then create_key_once kd fresh
  else match kd !! PRIMARY_KEY_ID with
       | Some _ => (read_existing_key kd PRIMARY_KEY_ID, kd)
       | None => (Err (bail "audit key was missing while the log already contains rows signed with `primary`"), kd)
       end.

(** The key a logger opened on [db] signs with. *)
Definition open_at (db : Db) (kd : KeyDir) (fresh : list ascii) : Result AnyErr (list ascii) * KeyDir :=
  match kd !! PRIMARY_KEY_ID with
  | Some _ => (read_existing_key kd PRIMARY_KEY_ID, kd)
  | None => first_use_key db kd fresh
  end.

(** ** Time stamps *)
Definition is_leap (y : N) : bool := ((y mod 4 =? 0) && negb (y mod 100 =? 0) || (y mod 400 =? 0))%N.
Definition year_days (y : N) : N := if is_leap y then 366 else 365.
Definition months (y : N) : list N :=
  if is_leap y then [31; 29; 31; 30; 31; 30; 31; 31; 30; 31; 30; 31]%N
  else [31; 28; 31; 30; 31; 30; 31; 31; 30; 31; 30; 31]%N.

(** The loop over years; every round takes at least 365 days, so as many
    rounds as there are days is enough. *)
Fixpoint year_loop (fuel : nat) (y days : N) : N * N :=
  match fuel with
  | O => (y, days)
  | S fuel' => if (days <? year_days y)%N then (y, days) else year_loop fuel' (y + 1) (days - year_days y)
  end.
Fixpoint month_loop (ms : list N) (mo days : N) : N * N :=
  match ms with
  | [] => (mo, days)
  | dm :: ms' => if (days <? dm)%N then (mo, days) else month_loop ms' (mo + 1) (days - dm)
  end.
Definition days_to_ymd (days : N) : N * N * N :=
  let '(y, days) := year_loop (N.to_nat (days / 365) + 1) 1970 days in
  let '(mo, days) := month_loop (months y) 1 days in
  (y, mo, days + 1)%N.

Definition unix_to_ymdhms (secs : N) : N * N * N * N * N * N :=
  let s := (secs mod 60)%N in
  let m := ((secs / 60) mod 60)%N in
  let h := ((secs / 3600) mod 24)%N in
  let '(y, mo, d) := days_to_ymd (secs / 86400) in
  (y, mo, d, h, m, s).

(** [{:0w}] for the widths the time stamp uses. *)
Fixpoint zeros (n : nat) : string := match n with O => "" | S n' => String "0" (zeros n') end.
Definition pad0 (w : nat) (n : N) : string := let s := pretty n in zeros (w - String.length s) +:+ s.
Definition chrono_now (secs : N) : string :=
  let '(y, mo, d, h, m, s) := unix_to_ymdhms secs in
  pad0 4 y +:+ "-" +:+ pad0 2 mo +:+ "-" +:+ pad0 2 d +:+ "T" +:+ pad0 2 h +:+ ":" +:+ pad0 2 m
  +:+ ":" +:+ pad0 2 s +:+ "Z".

(** ** The node and guest a path names *)
Definition path_pair (acc : option string * option N) (p : string * string) : option string * option N :=
  let '(a, b) := p in
  if bool_decide (a = "nodes") then (Some b, acc.2)
  else if bool_decide (a = "qemu" \/ a = "lxc") then
    match parse_uint u32_max b with Some v => (acc.1, Some v) | None => acc end
  else acc.
Definition parse_pve_path (path : string) : option string * option N :=
  let clean := default path (head (split_char "?" path)) in
  let segments := filter (fun s => is_empty s = false) (split_char "/" clean) in
  foldl path_pair (None, None) (zip segments (tail segments)).

Section Chain.
Context {M : Mac}.

(** ** The chain *)
Definition hmac_hex (key : list ascii) (message : string) : string :=
  match mac key message with None => "" | Some t => hex_encode t end.

Definition message_v1 (prev ts action vmid result : string) : string :=
  prev +:+ "|" +:+ ts +:+ "|" +:+ action +:+ "|" +:+ vmid +:+ "|" +:+ result.
Definition compute_hmac (key : list ascii) (prev ts action vmid result : string) : string :=
  hmac_hex key (message_v1 prev ts action vmid result).

Definition message_v2 (prev ts action user vmid node params_json result : string) : string :=
  "v2" +:+ "|" +:+ prev +:+ "|" +:+ ts +:+ "|" +:+ action +:+ "|" +:+ user +:+ "|" +:+ vmid +:+ "|"
  +:+ node +:+ "|" +:+ params_json +:+ "|" +:+ result.
Definition compute_hmac_v2 (key : list ascii) (prev ts action user vmid node params_json result : string) : string :=
  hmac_hex key (message_v2 prev ts action user vmid node params_json result).

Definition text_or_empty (o : option string) : string := default "" o.
Definition vmid_str (v : option Z) : string := text_or_empty (pretty <$> v).

Definition verify_raw_row (row : RawAuditRow) (prev : string) (key : list ascii) : bool :=
  let expected :=
    if bool_decide (ar_chain_version row = CHAIN_V2)
    then compute_hmac_v2 key prev (ar_ts row) (ar_action row) (ar_user row) (vmid_str (ar_vmid row))
           (text_or_empty (ar_node row)) (text_or_empty (ar_params_json row)) (ar_result row)
    else compute_hmac key prev (ar_ts row) (ar_action row) (vmid_str (ar_vmid row)) (ar_result row) in
  bool_decide (expected = ar_chain_hmac row).

Definition last_chain_hmac_on (db : Db) : string :=
  match last db with Some r => ar_chain_hmac r | None => "" end.

(** [AuditLogger::log] of a logger that signs with [key]. *)
Definition log (disk : Result AnyErr unit) (key : list ascii) (secs : N) (action user : string) (vmid : option N)
    (node params_json : option string) (result : string) (db : Db) : Result AnyErr unit * Db :=
  match disk with
  | Err e => (Err e, db)
  | Ok _ =>
      let prev_hmac := last_chain_hmac_on db in
      let ts := chrono_now secs in
      let chain_hmac := compute_hmac_v2 key prev_hmac ts action user (text_or_empty (pretty <$> vmid))
                          (text_or_empty node) (text_or_empty params_json) result in
      (Ok (), db ++ [{| ar_ts := ts; ar_action := action; ar_user := user; ar_vmid := Z.of_N <$> vmid;
                        ar_node := node; ar_params_json := params_json; ar_result := result;
                        ar_chain_hmac := chain_hmac; ar_chain_version := CHAIN_V2;
                        ar_key_id := PRIMARY_KEY_ID |}])
  end.

(** The key a row is checked with.  [verify] keeps the retired keys it has
    read in a map for the length of the walk; they do not change meanwhile. *)
Definition key_for (kd : KeyDir) (key : list ascii) (id : string) : option (list ascii) :=
  if bool_decide (id = PRIMARY_KEY_ID) then Some key else result_ok (load_existing_key kd id).
Definition row_ok (kd : KeyDir) (key : list ascii) (prev : string) (row : RawAuditRow) : bool :=
  match key_for kd key (ar_key_id row) with Some k => verify_raw_row row prev k | None => false end.

Fixpoint verify_from (kd : KeyDir) (key : list ascii) (prev : string) (rows : Db) (ok fail : nat) : nat * nat :=
  match rows with
  | [] => (ok, fail)
  | row :: rows' =>
      if row_ok kd key prev row then verify_from kd key (ar_chain_hmac row) rows' (S ok) fail
      else verify_from kd key (ar_chain_hmac row) rows' ok (S fail)
  end.
Definition verify (kd : KeyDir) (key : list ascii) (db : Db) : nat * nat := verify_from kd key "" db 0 0.

Definition integrity_error : AnyErr :=
  bail "audit chain integrity check failed (1 tampered or unverifiable row(s))".
Definition verify_tail (kd : KeyDir) (key : list ascii) (db : Db) : Result AnyErr unit :=
  match reverse db with
  | [] => Ok ()
  | row :: before =>
      let prev := match before with r :: _ => ar_chain_hmac r | [] => "" end in
      if row_ok kd key prev row then Ok () else Err integrity_error
  end.

(** ** Rotation *)
Inductive RotateFault :=
  | NoFault
  | DbLocked
  | RetiredNotCreated
  | RetiredPartial (written : list ascii)
  | RelabelFails
  | RandomFails
  | ReplaceFails (renamed : bool)
  | CommitFails (restored : bool)
  | SyncFails.

Definition relabel (key_id : string) (row : RawAuditRow) : RawAuditRow :=
  if bool_decide (ar_key_id row = PRIMARY_KEY_ID) then
    {| ar_ts := ar_ts row; ar_action := ar_action row; ar_user := ar_user row; ar_vmid := ar_vmid row;
       ar_node := ar_node row; ar_params_json := ar_params_json row; ar_result := ar_result row;
       ar_chain_hmac := ar_chain_hmac row; ar_chain_version := ar_chain_version row; ar_key_id := key_id |}
  else row.

(** [secs] is the clock, [fresh] the new key.  [replace_primary_key] renames
    and then syncs the directory, so it can fail with the new key in place:
    [ReplaceFails true].  [CommitFails restored] says whether the previous
    primary could be written back. *)
Definition rotate_key_at (fault : RotateFault) (secs : N) (fresh : list ascii) (db : Db) (kd : KeyDir)
  : Result AnyErr string * (Db * KeyDir) :=
  match load_existing_key kd PRIMARY_KEY_ID with
  | Err e => (Err e, (db, kd))
  | Ok old_key =>
      let key_id := "retired-" +:+ pretty secs in
      match kd !! key_id with
      | Some _ => (Err (bail "a retired key already exists"), (db, kd))
      | None =>
          let with_retired := <[key_id := private_key old_key]> kd in
          let replaced := <[PRIMARY_KEY_ID := private_key fresh]> with_retired in
          match fault with
          | DbLocked => (Err (bail "begin key-rotation transaction"), (db, kd))
          | RetiredNotCreated => (Err (bail "create key file"), (db, kd))
          | RetiredPartial written => (Err (bail "write key file"), (db, <[key_id := private_key written]> kd))
          | RelabelFails => (Err (bail "relabel audit rows with the retired key id"), (db, delete key_id with_retired))
          | RandomFails => (Err (bail "getrandom"), (db, delete key_id with_retired))
          | ReplaceFails renamed =>
              (Err (bail "replace primary key"), (db, delete key_id (if renamed then replaced else with_retired)))
          | CommitFails true =>
              (Err (bail "commit key-rotation transaction"),
               (db, delete key_id (<[PRIMARY_KEY_ID := private_key old_key]> replaced)))
          | CommitFails false =>
              (Err (bail "and restoring the previous primary key failed"), (db, delete key_id replaced))
          | SyncFails => (Err (bail "sync"), (relabel key_id <$> db, replaced))
          | NoFault => (Ok key_id, (relabel key_id <$> db, replaced))
          end
      end
  end.

(** ** The cached logger and the write-ahead record *)
Record CachedAuditLogger := { ca_key : list ascii; ca_initial_fail_count : nat }.
Record AuditWorld := {
  aw_db : option Db;
  aw_keys : KeyDir;
  aw_cache : option CachedAuditLogger;
}.
Record AuditWriteRefusal := { wr_action : string; wr_reason : string }.
Definition AuditWriteRefusal_EXIT_CODE : Z := 8.

(** The prefix of [with_cached_logger_at]: the logger it hands to its caller,
    opened anew when the key or the file was replaced. *)
Definition cached_logger (fresh : list ascii) (w : AuditWorld) : Result AnyErr CachedAuditLogger * AuditWorld :=
  let open_new :=
    let db := default [] (aw_db w) in
    match open_at db (aw_keys w) fresh with
    | (Err e, kd) => (Err e, {| aw_db := Some db; aw_keys := kd; aw_cache := None |})
    | (Ok key, kd) =>
        let c := {| ca_key := key; ca_initial_fail_count := (verify kd key db).2 |} in
        (Ok c, {| aw_db := Some db; aw_keys := kd; aw_cache := Some c |})
    end in
  match aw_cache w with
  | None => open_new
  | Some c =>
      match load_existing_key (aw_keys w) PRIMARY_KEY_ID with
      | Err e => (Err e, {| aw_db := aw_db w; aw_keys := aw_keys w; aw_cache := None |})
      | Ok disk_key =>
          if bool_decide (disk_key <> ca_key c) || bool_decide (aw_db w = None) then open_new else (Ok c, w)
      end
  end.

Definition with_db (db : Db) (w : AuditWorld) : AuditWorld :=
  {| aw_db := Some db; aw_keys := aw_keys w; aw_cache := aw_cache w |}.

Definition log_mutation_sent (disk : Result AnyErr unit) (fresh : list ascii) (secs : N) (action user : string)
    (vmid : option N) (node : option string) (params_json : string) (w : AuditWorld)
  : Result AuditWriteRefusal unit * AuditWorld :=
  let refuse e w := (Err {| wr_action := action; wr_reason := show_err e |}, w) in
  match cached_logger fresh w with
  | (Err e, w1) => refuse e w1
  | (Ok c, w1) =>
      let db := default [] (aw_db w1) in
      if 0 <? ca_initial_fail_count c
      then refuse (bail ("audit chain integrity check failed (" +:+ pretty (ca_initial_fail_count c)
                         +:+ " tampered or unverifiable row(s))")) w1
      else match verify_tail (aw_keys w1) (ca_key c) db with
           | Err e => refuse e w1
           | Ok _ =>
               match log disk (ca_key c) secs action user vmid node (Some params_json) "sent" db with
               | (Err e, db') => refuse e (with_db db' w1)
               | (Ok _, db') => (Ok (), with_db db' w1)
               end
           end
  end.

(** [record_outcome] is best-effort: its failure is logged and dropped. *)
Definition record_outcome (disk : Result AnyErr unit) (fresh : list ascii) (secs : N) (action user : string)
    (vmid : option N) (node : option string) (params_json outcome : string) (w : AuditWorld) : AuditWorld :=
  match cached_logger fresh w with
  | (Err _, w1) => w1
  | (Ok c, w1) =>
      with_db (log disk (ca_key c) secs action user vmid node (Some params_json) outcome (default [] (aw_db w1))).2 w1
  end.
End Chain.
