(* ===== verification/AuditSpec.v ===== *)
(** * What the audit log promises

    A log written and rotated by the program verifies; rewriting a verified
    log without changing its last tag needs a collision of the MAC; a
    mutation goes out only after its write-ahead row is in the log.  Also
    three ways the log can lose its evidence, as lemmas. *)

From S2P Require Import Prelude.
From S2P Require Import ApiError.
From S2P Require Import Mac.
From S2P Require Import AuditLog.

(** ** The time stamps of the audit log: [days_to_ymd] of src/audit/mod.rs

    The date computed from a day count is the calendar date of that day: it
    is a valid date and counting the days before it gives the day count
    back. *)
Definition sum_days (l : list N) : N := foldr N.add 0%N l.
(** The days of the years from 1970 up to [y], and of the months of [y] before [mo]. *)
Definition days_before_year (y : N) : N :=
  sum_days ((fun k => year_days (1970 + N.of_nat k)) <$> seq 0 (N.to_nat (y - 1970))).
Definition days_before_month (y mo : N) : N := sum_days (take (N.to_nat (mo - 1)) (months y)).
Definition valid_date (y mo d : N) : Prop :=
  (1970 <= y)%N /\ (1 <= mo <= 12)%N /\
  exists dm, months y !! N.to_nat (mo - 1) = Some dm /\ (1 <= d <= dm)%N.

Lemma year_days_months y : sum_days (months y) = year_days y.
Proof. unfold year_days, months. by destruct (is_leap y). Qed.

Lemma year_days_bounds y : (365 <= year_days y <= 366)%N.
Proof. unfold year_days. destruct (is_leap y); lia. Qed.

Lemma sum_days_app l1 l2 : sum_days (l1 ++ l2) = (sum_days l1 + sum_days l2)%N.
Proof. unfold sum_days. induction l1; simpl; lia. Qed.

Lemma days_before_next_year y : (1970 <= y)%N -> days_before_year (y + 1) = (days_before_year y + year_days y)%N.
Proof.
  intros Hy. unfold days_before_year. replace (N.to_nat (y + 1 - 1970)) with (N.to_nat (y - 1970) + 1) by lia.
  rewrite seq_app, fmap_app, sum_days_app. simpl. f_equal. rewrite N.add_0_r. f_equal. lia.
Qed.

(** The loop over years, with enough rounds, stops in the year of the day. *)
Lemma year_loop_spec fuel y days y' days' :
  (1970 <= y)%N -> (days < 365 * N.of_nat fuel)%N -> year_loop fuel y days = (y', days') ->
  (1970 <= y')%N /\ (days' < year_days y')%N /\ (days_before_year y' + days' = days_before_year y + days)%N.
Proof.
  revert y days. induction fuel as [|fuel IH]; intros y days Hy Hf H; simpl in *; [lia|].
  destruct (N.ltb_spec days (year_days y)); [by simplify_eq|].
  pose proof (year_days_bounds y). pose proof (days_before_next_year y Hy).
  apply IH in H; lia.
Qed.

Lemma month_loop_spec ms mo days mo' days' :
  (days < sum_days ms)%N -> month_loop ms mo days = (mo', days') ->
  (mo <= mo')%N /\ (exists dm, ms !! N.to_nat (mo' - mo) = Some dm /\ (days' < dm)%N)
  /\ (sum_days (take (N.to_nat (mo' - mo)) ms) + days' = days)%N.
Proof.
  revert mo days. induction ms as [|dm ms IH]; intros mo days Hd H; simpl in *; [lia|].
  destruct (N.ltb_spec days dm) as [Hlt|Hge].
  - simplify_eq. rewrite N.sub_diag. simpl. split_and!; [lia|eauto|lia].
  - apply IH in H as (Hmo & (x & Hx & Hlt) & Hsum); [|lia].
    replace (N.to_nat (mo' - mo)) with (S (N.to_nat (mo' - (mo + 1)))) by lia. simpl.
    split_and!; [lia|eauto|lia].
Qed.

(** the date of a time stamp is right: for every day count since 1970, the
    year, month and day computed are a valid date, leap years included, and
    the days before that date are exactly the count. *)
Lemma days_to_ymd_correct days y mo d :
  days_to_ymd days = (y, mo, d) ->
  valid_date y mo d /\ (days_before_year y + days_before_month y mo + (d - 1) = days)%N.
Proof.
  unfold days_to_ymd. destruct (year_loop _ 1970 days) as [y1 d1] eqn:Hy.
  apply year_loop_spec in Hy as (Hy1 & Hd1 & Hsum);
    [|lia|pose proof (N.div_mod days 365); pose proof (N.mod_lt days 365); lia].
  change (days_before_year 1970) with 0%N in Hsum. rewrite <-year_days_months in Hd1.
  destruct (month_loop (months y1) 1 d1) as [m1 d2] eqn:Hm. intros [= -> -> <-].
  apply month_loop_spec in Hm as (Hmo & (dm & Hdm & Hlt) & Hs); [|done].
  unfold valid_date, days_before_month. split; [|lia].
  assert (N.to_nat (mo - 1) < 12).
  { apply lookup_lt_Some in Hdm. unfold months in Hdm. destruct (is_leap y); simpl in Hdm; lia. }
  split_and!; [done|lia|lia|]. exists dm. split; [done|lia].
Qed.

Lemma days_to_ymd_correct_witness :
  days_to_ymd 19782 = (2024, 2, 29)%N /\ valid_date 2024 2 29.
Proof. split; [reflexivity|]. apply (days_to_ymd_correct 19782 2024 2 29). reflexivity. Defined.

(** A record is separated by [|]; these are the texts that hold none. *)
Definition no_bar (s : string) : Prop := has_char "|" s = false.

Lemma bar_inj a b x y : no_bar a -> no_bar b -> a +:+ "|" +:+ x = b +:+ "|" +:+ y -> a = b /\ x = y.
Proof.
  intros Ha Hb H. simpl in H. pose proof (split_once_char "|" a x Ha) as H1.
  rewrite H, split_once_char in H1 by done. by simplify_eq.
Qed.

Lemma pretty_Z_of_N (n : N) : pretty (Z.of_N n) = pretty n.
Proof. by destruct n. Qed.

Section Spec.
Context {M : Mac} {MOk : MacOk}.

(** ** The chain as a predicate *)
Fixpoint chain_ok (kd : KeyDir) (key : list ascii) (prev : string) (rows : Db) : Prop :=
  match rows with
  | [] => True
  | row :: rows' => row_ok kd key prev row = true /\ chain_ok kd key (ar_chain_hmac row) rows'
  end.

Lemma verify_from_count kd key prev rows ok fail :
  (verify_from kd key prev rows ok fail).1 + (verify_from kd key prev rows ok fail).2 = ok + fail + length rows
  /\ fail <= (verify_from kd key prev rows ok fail).2.
Proof.
  revert prev ok fail. induction rows as [|row rows IH]; intros prev ok fail; simpl; [lia|].
  destruct (row_ok kd key prev row).
  - destruct (IH (ar_chain_hmac row) (S ok) fail). lia.
  - destruct (IH (ar_chain_hmac row) ok (S fail)). lia.
Qed.

Lemma verify_from_no_fail kd key prev rows ok fail :
  (verify_from kd key prev rows ok fail).2 = fail <-> chain_ok kd key prev rows.
Proof.
  revert prev ok fail. induction rows as [|row rows IH]; intros prev ok fail; simpl; [done|].
  destruct (row_ok kd key prev row); [rewrite IH; naive_solver|].
  destruct (verify_from_count kd key (ar_chain_hmac row) rows ok (S fail)). naive_solver lia.
Qed.

(** Verification without a failure counts every row. *)
Lemma verify_chain kd key db : verify kd key db = (length db, 0) <-> chain_ok kd key "" db.
Proof.
  unfold verify. rewrite <-(verify_from_no_fail kd key "" db 0 0).
  destruct (verify_from_count kd key "" db 0 0) as [Hc _].
  destruct (verify_from kd key "" db 0 0) as [a b]. simpl in *. split; [by intros [= _ ->]|].
  intros ->. f_equal. lia.
Qed.

Definition last_hmac_from (prev : string) (rows : Db) : string :=
  match last rows with Some r => ar_chain_hmac r | None => prev end.

Lemma last_hmac_cons prev row rows : last_hmac_from prev (row :: rows) = last_hmac_from (ar_chain_hmac row) rows.
Proof. unfold last_hmac_from. rewrite last_cons. by destruct (last rows). Qed.

Lemma chain_ok_app kd key prev l1 l2 :
  chain_ok kd key prev (l1 ++ l2) <-> chain_ok kd key prev l1 /\ chain_ok kd key (last_hmac_from prev l1) l2.
Proof.
  revert prev. induction l1 as [|row l1 IH]; intros prev; simpl; [naive_solver|].
  rewrite IH, last_hmac_cons. naive_solver.
Qed.

Lemma verify_tail_snoc kd key db row :
  verify_tail kd key (db ++ [row]) = if row_ok kd key (last_hmac_from "" db) row then Ok () else Err integrity_error.
Proof.
  unfold verify_tail, last_hmac_from. rewrite reverse_snoc. rewrite <-head_reverse. by destruct (reverse db).
Qed.

Lemma verify_tail_of_chain kd key db : chain_ok kd key "" db -> verify_tail kd key db = Ok ().
Proof.
  destruct db as [|row db _] using rev_ind; [done|]. rewrite chain_ok_app, verify_tail_snoc.
  simpl. by intros [_ [-> _]].
Qed.

(** ** Appending *)
Lemma log_row_ok kd key secs action user vmid node params result db db' :
  log (Ok ()) key secs action user vmid node params result db = (Ok (), db') ->
  exists row, db' = db ++ [row] /\ row_ok kd key (last_hmac_from "" db) row = true
    /\ ar_action row = action /\ ar_user row = user /\ ar_vmid row = Z.of_N <$> vmid /\ ar_node row = node
    /\ ar_params_json row = params /\ ar_result row = result /\ ar_key_id row = PRIMARY_KEY_ID
    /\ ar_ts row = chrono_now secs /\ ar_chain_version row = CHAIN_V2.
Proof.
  intros [= <-]. eexists. split_and!; try done. unfold row_ok, key_for. simpl.
  unfold verify_raw_row. simpl. apply bool_decide_eq_true.
  unfold last_chain_hmac_on, last_hmac_from. f_equal. unfold vmid_str, text_or_empty.
  destruct vmid; simpl; [|done]. by rewrite pretty_Z_of_N.
Qed.

Lemma log_cases disk key secs action user vmid node params result db :
  (exists e, log disk key secs action user vmid node params result db = (Err e, db)) \/
  (exists db', disk = Ok () /\ log disk key secs action user vmid node params result db = (Ok (), db')).
Proof. destruct disk as [[]|e]; simpl; eauto. Qed.

(** ** Rotating *)
Lemma read_private_key (kd : KeyDir) id bytes :
  kd !! id = Some (private_key bytes) -> length bytes = 32 -> load_existing_key kd id = Ok bytes.
Proof. intros H Hl. unfold load_existing_key, read_existing_key. rewrite H. simpl. by rewrite Hl. Qed.

Lemma load_read (kd : KeyDir) id key : load_existing_key kd id = Ok key <-> read_existing_key kd id = Ok key.
Proof. unfold load_existing_key, read_existing_key. by destruct (kd !! id). Qed.

Lemma load_length (kd : KeyDir) id key : load_existing_key kd id = Ok key -> length key = 32.
Proof.
  unfold load_existing_key, read_existing_key. destruct (kd !! id); [|done].
  destruct (negb _); [done|]. destruct (Nat.eqb_spec (length (kf_bytes k)) 32); [|done]. by intros [= <-].
Qed.

(** Every key a row of the old directory is checked with is found again. *)
Definition keys_kept (kd kd' : KeyDir) : Prop :=
  forall id key, id <> PRIMARY_KEY_ID -> load_existing_key kd id = Ok key -> load_existing_key kd' id = Ok key.

Lemma keys_kept_lookup (kd kd' : KeyDir) :
  (forall id, id <> PRIMARY_KEY_ID -> is_Some (kd !! id) -> kd' !! id = kd !! id) -> keys_kept kd kd'.
Proof.
  intros Hk id key Hid. unfold load_existing_key, read_existing_key.
  destruct (kd !! id) as [f|] eqn:E; [|done]. rewrite Hk, E by eauto. done.
Qed.

Lemma chain_ok_kept kd kd' key prev rows :
  keys_kept kd kd' -> chain_ok kd key prev rows -> chain_ok kd' key prev rows.
Proof.
  intros Hk. revert prev. induction rows as [|row rows IH]; intros prev; [done|]. simpl. intros [H1 H2].
  split; [|by apply IH]. revert H1. unfold row_ok, key_for. case_bool_decide as Hid; [done|].
  destruct (load_existing_key kd (ar_key_id row)) as [k|] eqn:E; simpl; [|done]. by rewrite (Hk _ _ Hid E).
Qed.

Lemma relabel_same_hmac key_id row : ar_chain_hmac (relabel key_id row) = ar_chain_hmac row.
Proof. unfold relabel. by case_bool_decide. Qed.

Lemma chain_ok_relabel kd kd' key key' key_id prev rows :
  keys_kept kd kd' -> key_id <> PRIMARY_KEY_ID -> load_existing_key kd' key_id = Ok key ->
  chain_ok kd key prev rows -> chain_ok kd' key' prev (relabel key_id <$> rows).
Proof.
  intros Hk Hid Hl. revert prev. induction rows as [|row rows IH]; intros prev; [done|]. simpl.
  rewrite relabel_same_hmac. intros [H1 H2]. split; [|by apply IH].
  revert H1. unfold row_ok, key_for, relabel.
  case_bool_decide as Hp; simpl.
  - rewrite bool_decide_false, Hl by done. done.
  - rewrite bool_decide_false by done.
    destruct (load_existing_key kd (ar_key_id row)) as [k|] eqn:E; simpl; [|done]. by rewrite (Hk _ _ Hp E).
Qed.

Lemma retired_id_ne (secs : N) : "retired-" +:+ pretty secs <> PRIMARY_KEY_ID.
Proof. done. Qed.

(** The faults after which the signing key is still on disk. *)
Definition key_survives (fault : RotateFault) : Prop :=
  fault <> ReplaceFails true /\ fault <> CommitFails false.

Lemma rotate_chain fault secs fresh db kd key r db' kd' :
  length fresh = 32 -> key_survives fault -> load_existing_key kd PRIMARY_KEY_ID = Ok key ->
  chain_ok kd key "" db -> rotate_key_at fault secs fresh db kd = (r, (db', kd')) ->
  exists key', load_existing_key kd' PRIMARY_KEY_ID = Ok key' /\ chain_ok kd' key' "" db' /\ length db' = length db.
Proof.
  intros Hf [Hs1 Hs2] Hl Hc. unfold rotate_key_at. rewrite Hl. pose proof (load_length _ _ _ Hl) as Hlen.
  set (id := "retired-" +:+ pretty secs). assert (id <> PRIMARY_KEY_ID) as Hne by apply retired_id_ne.
  clearbody id. destruct (kd !! id) as [f|] eqn:Hid; [intros [= <- <- <-]; eauto|].
  assert (delete id (<[id := private_key key]> kd) = kd) as Hdel by (by rewrite delete_insert_id).
  assert (exists key', load_existing_key (<[PRIMARY_KEY_ID := private_key fresh]> (<[id := private_key key]> kd)) PRIMARY_KEY_ID = Ok key'
    /\ chain_ok (<[PRIMARY_KEY_ID := private_key fresh]> (<[id := private_key key]> kd)) key' "" (relabel id <$> db)
    /\ length (relabel id <$> db) = length db) as Hdone.
  { exists fresh. split_and!; [|apply (chain_ok_relabel kd _ key)|by rewrite length_fmap]; try done.
    - apply read_private_key; [by rewrite lookup_insert_eq|done].
    - apply keys_kept_lookup. intros k Hk [x Hx]. rewrite !lookup_insert_ne; [done|congruence|done].
    - apply read_private_key; [by rewrite lookup_insert_ne, lookup_insert_eq|done]. }
  destruct fault as [| | |w| | |[]|[]|]; try done; intros [= <- <- <-]; rewrite ?Hdel; eauto.
  - exists key. split_and!; [|apply (chain_ok_kept kd)|]; try done.
    + unfold load_existing_key, read_existing_key in *. by rewrite lookup_insert_ne.
    + apply keys_kept_lookup. intros k Hk [x Hx]. by rewrite lookup_insert_ne by congruence.
  - exists key. rewrite insert_insert_eq, insert_insert_ne, delete_insert_id
      by (done || by rewrite lookup_insert_ne).
    split_and!; [|apply (chain_ok_kept kd)|]; try done.
    + apply read_private_key; [by rewrite lookup_insert_eq|done].
    + apply keys_kept_lookup. intros k Hk [x Hx]. by rewrite lookup_insert_ne.
Qed.

(** ** Runs of appends and rotations *)
Inductive audit_run : Db -> KeyDir -> Prop :=
  | run_first_use kd key kd' fresh :
      length fresh = 32 -> open_at [] kd fresh = (Ok key, kd') -> audit_run [] kd'
  | run_log db kd key disk secs action user vmid node params result r db' :
      audit_run db kd -> load_existing_key kd PRIMARY_KEY_ID = Ok key ->
      log disk key secs action user vmid node params result db = (r, db') -> audit_run db' kd
  | run_rotate db kd fault secs fresh r db' kd' :
      audit_run db kd -> length fresh = 32 -> key_survives fault ->
      rotate_key_at fault secs fresh db kd = (r, (db', kd')) -> audit_run db' kd'.

Lemma audit_run_inv db kd :
  audit_run db kd -> exists key, load_existing_key kd PRIMARY_KEY_ID = Ok key /\ chain_ok kd key "" db.
Proof.
  induction 1 as [kd key kd' fresh Hf Ho|db kd key disk secs action user vmid node params result r db' _ IH Hk Hlog
                 |db kd fault secs fresh r db' kd' _ IH Hf Hs Hr].
  - exists key. split; [|done]. revert Ho. unfold open_at, first_use_key, create_key_once. simpl.
    destruct (kd !! PRIMARY_KEY_ID) eqn:E; [intros [= H <-]; by apply load_read|].
    intros [= <- <-]. apply read_private_key; [by rewrite lookup_insert_eq|done].
  - destruct IH as (key' & Hk' & Hc). rewrite Hk in Hk'. injection Hk' as <-. exists key. split; [done|].
    destruct (log_cases disk key secs action user vmid node params result db) as [[e He]|(d & -> & Hd)];
      rewrite ?He, ?Hd in Hlog; simplify_eq; [done|].
    apply (log_row_ok kd) in Hd as (row & -> & Hrow & _). apply chain_ok_app. simpl. auto.
  - destruct IH as (key & Hk & Hc).
    destruct (rotate_chain _ _ _ _ _ _ _ _ _ Hf Hs Hk Hc Hr) as (key' & ? & ? & _). eauto.
Qed.

(** ** Tampering *)

(** The bytes a row's tag is computed over, after the tag [prev]. *)
Definition row_message (prev : string) (row : RawAuditRow) : string :=
  if bool_decide (ar_chain_version row = CHAIN_V2)
  then message_v2 prev (ar_ts row) (ar_action row) (ar_user row) (vmid_str (ar_vmid row))
         (text_or_empty (ar_node row)) (text_or_empty (ar_params_json row)) (ar_result row)
  else message_v1 prev (ar_ts row) (ar_action row) (vmid_str (ar_vmid row)) (ar_result row).

Lemma row_ok_message kd key prev row :
  row_ok kd key prev row = true ->
  exists k, key_for kd key (ar_key_id row) = Some k /\ ar_chain_hmac row = hmac_hex k (row_message prev row).
Proof.
  unfold row_ok. destruct (key_for kd key (ar_key_id row)) as [k|]; [|done].
  unfold verify_raw_row, row_message, compute_hmac_v2, compute_hmac. intros H%bool_decide_eq_true. exists k.
  split; [done|]. rewrite <-H. by case_bool_decide.
Qed.

Lemma hmac_hex_inj k m k' m' : hmac_hex k m = hmac_hex k' m' -> mac k m = mac k' m'.
Proof.
  intros H. unfold hmac_hex in H. destruct (mac_some k m) as [t Ht], (mac_some k' m') as [t' Ht']. rewrite Ht, Ht' in *.
  apply (f_equal hex_decode) in H. rewrite !hex_round_trip in H. by simplify_eq.
Qed.

(** The two logs hold a collision at row [i]: their rows there were signed
    over different inputs of the MAC, and the tags are the same. *)
Definition collision_at (kd : KeyDir) (key : list ascii) (db db' : Db) (i : nat) : Prop :=
  exists row row' k k',
    db !! i = Some row /\ db' !! i = Some row'
    /\ key_for kd key (ar_key_id row) = Some k /\ key_for kd key (ar_key_id row') = Some k'
    /\ (k, row_message (last_chain_hmac_on (take i db)) row)
       <> (k', row_message (last_chain_hmac_on (take i db')) row')
    /\ mac k (row_message (last_chain_hmac_on (take i db)) row)
       = mac k' (row_message (last_chain_hmac_on (take i db')) row').

Lemma collision_at_app kd key db db' l l' i :
  collision_at kd key db db' i -> collision_at kd key (db ++ l) (db' ++ l') i.
Proof.
  intros (row & row' & k & k' & Hr & Hr' & H). exists row, row', k, k'.
  pose proof (lookup_lt_Some _ _ _ Hr). pose proof (lookup_lt_Some _ _ _ Hr').
  rewrite !lookup_app_l, !take_app_le by lia. done.
Qed.

Lemma hmac_hex_digits k m : all_chars is_ascii_hexdigit (hmac_hex k m) = true.
Proof. unfold hmac_hex. destruct (mac k m); [apply hex_digits|done]. Qed.

(** A tag holds no separator, so the previous tag is read back from the
    message, and the two formats never meet. *)
Lemma row_message_prev prev prev' row row' :
  all_chars is_ascii_hexdigit prev = true -> all_chars is_ascii_hexdigit prev' = true ->
  row_message prev row = row_message prev' row' ->
  prev = prev' /\ (ar_chain_version row = CHAIN_V2 <-> ar_chain_version row' = CHAIN_V2).
Proof.
  intros H1 H2. pose proof (all_chars_has_char _ "|" _ eq_refl H1) as B1.
  pose proof (all_chars_has_char _ "|" _ eq_refl H2) as B2. unfold row_message.
  case_bool_decide as V; case_bool_decide as V'; intros H.
  - apply bar_inj in H as [_ H]; [|done..]. apply bar_inj in H as [-> _]; [|done..]. done.
  - apply bar_inj in H as [<- _]; done.
  - apply bar_inj in H as [-> _]; done.
  - apply bar_inj in H as [-> _]; done.
Qed.

(** What two rows that keep their tag have in common: the key and the signed
    bytes, and every signed field as soon as none of them holds a [|]. *)
Definition no_bars (row : RawAuditRow) : Prop :=
  no_bar (ar_ts row) /\ no_bar (ar_action row) /\ no_bar (ar_user row)
  /\ no_bar (text_or_empty (ar_node row)) /\ no_bar (text_or_empty (ar_params_json row)).
Definition same_fields (row row' : RawAuditRow) : Prop :=
  ar_ts row = ar_ts row' /\ ar_action row = ar_action row' /\ ar_user row = ar_user row'
  /\ vmid_str (ar_vmid row) = vmid_str (ar_vmid row') /\ text_or_empty (ar_node row) = text_or_empty (ar_node row')
  /\ text_or_empty (ar_params_json row) = text_or_empty (ar_params_json row') /\ ar_result row = ar_result row'.
Definition same_record (kd : KeyDir) (key : list ascii) (row row' : RawAuditRow) : Prop :=
  key_for kd key (ar_key_id row) = key_for kd key (ar_key_id row')
  /\ ar_chain_hmac row = ar_chain_hmac row'
  /\ (exists prev, row_message prev row = row_message prev row')
  /\ (ar_chain_version row = CHAIN_V2 -> ar_chain_version row' = CHAIN_V2
      /\ (no_bars row -> no_bars row' -> same_fields row row')).

Lemma vmid_no_bar v : no_bar (vmid_str v).
Proof.
  assert (forall n s, no_bar s -> no_bar (pretty_N_go n s)) as Hgo.
  { intros n. induction (N.lt_wf_0 n) as [n _ IH]. intros s Hs. destruct (decide (n = 0%N)) as [->|Hn].
    - by rewrite pretty_N_go_0.
    - rewrite pretty_N_go_step by lia. apply IH; [apply N.div_lt; lia|]. unfold no_bar. simpl.
      rewrite Hs, orb_false_r. unfold pretty_N_char. by repeat case_match. }
  assert (forall n : N, no_bar (pretty n)) as HN.
  { intros n. unfold pretty, pretty_N. case_decide; [done|]. by apply Hgo. }
  unfold vmid_str, text_or_empty. destruct v as [[|n|n]|]; simpl; try done; apply (HN (Npos n)).
Qed.

Lemma message_v2_fields prev row row' :
  ar_chain_version row = CHAIN_V2 -> ar_chain_version row' = CHAIN_V2 -> no_bar prev ->
  row_message prev row = row_message prev row' -> no_bars row -> no_bars row' -> same_fields row row'.
Proof.
  intros V V' Hp. unfold row_message. rewrite V, V', !bool_decide_true by done.
  intros H (B1 & B2 & B3 & B4 & B5) (C1 & C2 & C3 & C4 & C5). unfold message_v2 in H.
  pose proof (vmid_no_bar (ar_vmid row)). pose proof (vmid_no_bar (ar_vmid row')).
  do 2 (apply bar_inj in H as [_ H]; [|done..]). unfold same_fields.
  do 6 (apply bar_inj in H as [-> H]; [|done..]). by rewrite H.
Qed.

Lemma last_tag_hex kd key l :
  chain_ok kd key "" l -> all_chars is_ascii_hexdigit (last_chain_hmac_on l) = true.
Proof.
  destruct l as [|r l _] using rev_ind; [done|]. rewrite chain_ok_app. intros [_ [Hr _]].
  unfold last_chain_hmac_on. rewrite last_snoc. apply row_ok_message in Hr as (? & _ & ->). apply hmac_hex_digits.
Qed.

Lemma chain_rewrite kd key rows rows' :
  chain_ok kd key "" rows -> chain_ok kd key "" rows' -> length rows = length rows' ->
  last_chain_hmac_on rows = last_chain_hmac_on rows' ->
  Forall2 (same_record kd key) rows rows' \/ exists i, collision_at kd key rows rows' i.
Proof.
  revert rows'. induction rows as [|row rows IH] using rev_ind; intros rows' Hc Hc' Hlen Hlast.
  - destruct rows'; [|done]. by left.
  - destruct rows' as [|row' rows' _] using rev_ind; [rewrite length_app in Hlen; simpl in Hlen; lia|].
    rewrite !length_app in Hlen. simpl in Hlen. rewrite chain_ok_app in Hc, Hc'.
    destruct Hc as [Hc [Hrow _]], Hc' as [Hc' [Hrow' _]].
    unfold last_chain_hmac_on in Hlast. rewrite !last_snoc in Hlast.
    destruct (row_ok_message _ _ _ _ Hrow) as (k & Hk & Hm), (row_ok_message _ _ _ _ Hrow') as (k' & Hk' & Hm').
    change (last_hmac_from "" rows) with (last_chain_hmac_on rows) in *.
    change (last_hmac_from "" rows') with (last_chain_hmac_on rows') in *.
    pose proof Hlast as Hmac. rewrite Hm, Hm' in Hmac. apply hmac_hex_inj in Hmac.
    destruct (decide ((k, row_message (last_chain_hmac_on rows) row)
                      = (k', row_message (last_chain_hmac_on rows') row'))) as [Heq|Hne].
    + injection Heq as -> Hmsg.
      pose proof (last_tag_hex _ _ _ Hc) as X1. pose proof (last_tag_hex _ _ _ Hc') as X2.
      destruct (row_message_prev _ _ _ _ X1 X2 Hmsg) as [Hprev Hv].
      destruct (IH rows' Hc Hc') as [HF|[i Hi]]; [lia|done| |right; exists i; by apply collision_at_app].
      left. apply Forall2_app; [done|]. constructor; [|constructor]. rewrite Hprev in Hmsg.
      split_and!; [congruence|done|eauto|]. intros V. split; [by apply Hv|].
      apply (message_v2_fields (last_chain_hmac_on rows')); try done; [by apply Hv|].
      exact (all_chars_has_char _ "|" _ eq_refl X2).
    + right. exists (length rows), row, row', k, k'. assert (length rows = length rows') as Hl by lia.
      rewrite lookup_app_r, Nat.sub_diag, take_app_length by lia. rewrite Hl, lookup_app_r, Nat.sub_diag, take_app_length by lia.
      done.
Qed.

(** ** Claims *)

(** C39: a log the program wrote verifies.  Take any sequence, from first use,
    of appends by loggers that sign with the key on disk, including appends the
    database refused, and of key rotations, complete or failed at any step but
    the two at which the old key is lost (the replacement of the key file
    failing after its rename went through, and the commit and the restore
    failing both: [key_survives], [rotation_can_lose_the_key]): then the full
    walk counts every row as good and none as bad, and the tail check passes.
    An append by a logger that still holds the key from before a rotation is not
    such a step either ([stale_logger_breaks_chain]). *)
Theorem audit_run_verifies db kd :
  audit_run db kd ->
  exists key, load_existing_key kd PRIMARY_KEY_ID = Ok key
    /\ verify kd key db = (length db, 0) /\ verify_tail kd key db = Ok ().
Proof.
  intros (key & Hk & Hc)%audit_run_inv. exists key. split_and!; [done| |].
  - by apply verify_chain.
  - by apply verify_tail_of_chain.
Qed.

(** C24: the log is tamper-evident.  Take a log that verifies and rewrite any
    of its rows so that it still verifies, has as many rows and ends in the
    same tag: then either some row shows a collision of the MAC (the two logs
    signed different bytes there, or with different keys, and have the same
    tag), or row by row the key and the signed bytes are what they were; for
    rows of the current format whose fields hold no separator that means the
    same time, action, user, guest, node, parameters and result. *)
Theorem tampering_needs_collision kd key db db' :
  verify kd key db = (length db, 0) -> verify kd key db' = (length db', 0) ->
  length db = length db' -> last_chain_hmac_on db = last_chain_hmac_on db' ->
  Forall2 (same_record kd key) db db' \/ exists i, collision_at kd key db db' i.
Proof. rewrite !verify_chain. apply chain_rewrite. Qed.

Lemma cached_logger_db fresh w :
  default [] (aw_db (cached_logger fresh w).2) = default [] (aw_db w).
Proof.
  unfold cached_logger. destruct (open_at _ _ fresh) as [[key|e] kd];
    destruct (aw_cache w) as [c|]; simpl; try done;
    destruct (load_existing_key _ _); simpl; try done; destruct (_ || _); simpl; done.
Qed.

(** no mutation leaves without its record.  [log_mutation_sent] succeeds
    only by appending exactly one row to the log, with the result [sent] and
    the caller's action, user, guest, node and parameters, after a tail that
    verified; the new tail verifies.  When it refuses, the log is as it was. *)
Lemma write_ahead_or_refuse disk fresh secs action user vmid node params w r w' :
  log_mutation_sent disk fresh secs action user vmid node params w = (r, w') ->
  match r with
  | Err refusal => wr_action refusal = action /\ default [] (aw_db w') = default [] (aw_db w)
  | Ok _ => exists c row,
      (cached_logger fresh w).1 = Ok c /\ ca_initial_fail_count c = 0
      /\ verify_tail (aw_keys w') (ca_key c) (default [] (aw_db w)) = Ok ()
      /\ aw_db w' = Some (default [] (aw_db w) ++ [row])
      /\ verify_tail (aw_keys w') (ca_key c) (default [] (aw_db w) ++ [row]) = Ok ()
      /\ ar_action row = action /\ ar_user row = user /\ ar_vmid row = Z.of_N <$> vmid /\ ar_node row = node
      /\ ar_params_json row = Some params /\ ar_result row = "sent"
  end.
Proof.
  unfold log_mutation_sent. pose proof (cached_logger_db fresh w) as Hdb.
  destruct (cached_logger fresh w) as [[c|e] w1]; simpl in Hdb; [|intros [= <- <-]; done].
  rewrite Hdb. destruct (Nat.ltb_spec 0 (ca_initial_fail_count c)) as [Hn|Hn]; [intros [= <- <-]; done|].
  destruct (verify_tail (aw_keys w1) (ca_key c) (default [] (aw_db w))) as [[]|e] eqn:Ht; [|intros [= <- <-]; done].
  destruct (log_cases disk (ca_key c) secs action user vmid node (Some params) "sent" (default [] (aw_db w)))
    as [[e He]|(d & -> & Hd)]; rewrite ?He, ?Hd; intros [= <- <-]; [done|].
  apply (log_row_ok (aw_keys w1)) in Hd as (row & -> & Hrow & ? & ? & ? & ? & ? & ? & _).
  exists c, row. simpl. rewrite verify_tail_snoc, Hrow. split_and!; try done. lia.
Qed.

(** ** Where the evidence is lost *)

(** A rotation whose rename went through and whose directory sync failed
    deletes the archived copy of the old key with the new one in place; so
    does a commit that fails and cannot restore the primary.  Every row of
    the log was signed with the key that is gone. *)
Lemma rotation_can_lose_the_key fault secs fresh db kd key :
  fault = ReplaceFails true \/ fault = CommitFails false ->
  load_existing_key kd PRIMARY_KEY_ID = Ok key -> kd !! ("retired-" +:+ pretty secs) = None ->
  exists e, rotate_key_at fault secs fresh db kd = (Err e, (db, <[PRIMARY_KEY_ID := private_key fresh]> kd)).
Proof.
  intros Hf Hl Hn. unfold rotate_key_at. rewrite Hl. pose proof (retired_id_ne secs) as Hne.
  cbv zeta. set (id := "retired-" +:+ pretty secs) in *. clearbody id. rewrite Hn.
  destruct Hf as [-> | ->]; eexists; by rewrite delete_insert_ne, delete_insert_id.
Qed.

(** Moving a separator between the parameters and the result of a row changes
    what the row says and not its tag. *)
Definition shift_params (a b : string) (row : RawAuditRow) : RawAuditRow :=
  {| ar_ts := ar_ts row; ar_action := ar_action row; ar_user := ar_user row; ar_vmid := ar_vmid row;
     ar_node := ar_node row; ar_params_json := Some a; ar_result := b +:+ "|" +:+ ar_result row;
     ar_chain_hmac := ar_chain_hmac row; ar_chain_version := ar_chain_version row; ar_key_id := ar_key_id row |}.

Lemma shifted_fields_undetected kd key db1 row db2 a b :
  ar_chain_version row = CHAIN_V2 -> ar_params_json row = Some (a +:+ "|" +:+ b) ->
  verify kd key (db1 ++ shift_params a b row :: db2) = verify kd key (db1 ++ row :: db2).
Proof.
  intros V Hp. unfold verify. generalize 0 at 1 3. generalize 0. generalize "".
  assert (forall prev, row_ok kd key prev (shift_params a b row) = row_ok kd key prev row) as Hr.
  { intros prev. unfold row_ok, verify_raw_row. simpl. rewrite V, Hp, bool_decide_true by done.
    unfold compute_hmac_v2, message_v2, text_or_empty. simpl. by rewrite <-!string_app_assoc. }
  induction db1 as [|r db1 IH]; intros prev fail ok; simpl.
  - by rewrite Hr.
  - by rewrite !IH.
Qed.
End Spec.

(** ** Witnesses *)
#[local] Existing Instance demo_mac.
#[local] Existing Instance demo_mac_ok.

Definition demo_key (c : ascii) : list ascii := replicate 32 c.
Definition demo_append (key : list ascii) (result : string) (db : Db) : Db :=
  (log (Ok ()) key 1700000000 "POST /nodes/pve1/qemu/100/status/stop" "root" (Some 100%N) (Some "pve1") (Some "{}")
     result db).2.
Definition demo_kd : KeyDir := {[PRIMARY_KEY_ID := private_key (demo_key "a")]}.
Definition demo_db : Db := demo_append (demo_key "a") "ok 200" (demo_append (demo_key "a") "sent" []).
Definition demo_rotated : Db * KeyDir := (rotate_key_at NoFault 1700000001 (demo_key "b") demo_db demo_kd).2.

Lemma demo_append_run key result db kd :
  audit_run db kd -> load_existing_key kd PRIMARY_KEY_ID = Ok key -> audit_run (demo_append key result db) kd.
Proof. intros Hr Hk. eapply run_log; [exact Hr|exact Hk|]. unfold demo_append. apply surjective_pairing. Qed.

Lemma demo_audit_run : audit_run (demo_append (demo_key "b") "sent" demo_rotated.1) demo_rotated.2.
Proof.
  apply demo_append_run; [|vm_compute; reflexivity].
  apply (run_rotate demo_db demo_kd NoFault 1700000001 (demo_key "b") (Ok "retired-1700000001"));
    [|reflexivity|split; discriminate|vm_compute; reflexivity].
  apply demo_append_run; [|vm_compute; reflexivity]. apply demo_append_run; [|vm_compute; reflexivity].
  apply (run_first_use demo_kd (demo_key "a") demo_kd (demo_key "c")); vm_compute; reflexivity.
Qed.

Lemma audit_run_verifies_witness :
  exists key, load_existing_key demo_rotated.2 PRIMARY_KEY_ID = Ok key
    /\ verify demo_rotated.2 key (demo_append (demo_key "b") "sent" demo_rotated.1) = (3, 0)
    /\ verify_tail demo_rotated.2 key (demo_append (demo_key "b") "sent" demo_rotated.1) = Ok ().
Proof. apply (audit_run_verifies (demo_append (demo_key "b") "sent" demo_rotated.1) demo_rotated.2), demo_audit_run. Defined.

Lemma tampering_needs_collision_witness :
  verify demo_kd (demo_key "a") demo_db = (2, 0)
  /\ (Forall2 (same_record demo_kd (demo_key "a")) demo_db demo_db
      \/ exists i, collision_at demo_kd (demo_key "a") demo_db demo_db i).
Proof.
  split; [vm_compute; reflexivity|].
  apply (tampering_needs_collision demo_kd (demo_key "a") demo_db demo_db); vm_compute; reflexivity.
Defined.

Lemma write_ahead_or_refuse_witness :
  let w := {| aw_db := Some demo_db; aw_keys := demo_kd; aw_cache := None |} in
  exists w', log_mutation_sent (Ok ()) (demo_key "c") 1700000002 "DELETE /x" "root" None None "{}" w = (Ok (), w')
    /\ exists row, aw_db w' = Some (demo_db ++ [row]) /\ ar_result row = "sent".
Proof.
  intros w. eexists. split; [vm_compute; reflexivity|].
  edestruct (write_ahead_or_refuse (Ok ()) (demo_key "c") 1700000002 "DELETE /x" "root" None None "{}" w (Ok ()))
    as (c & row & _ & _ & _ & H & _ & _ & _ & _ & _ & _ & Hr); [vm_compute; reflexivity|].
  exists row. split; [exact H|exact Hr].
Defined.

(** A logger that read the key before another process rotated it and appends
    afterwards leaves a row signed with the retired key and labelled with the
    new one: the walk counts it as bad. *)
Lemma stale_logger_breaks_chain :
  verify demo_rotated.2 (demo_key "b") (demo_append (demo_key "a") "sent" demo_rotated.1) = (2, 1).
Proof. vm_compute. reflexivity. Qed.
