(* ===== verification/SortBy.v ===== *)
(** * Comparators and the stable sort of [slice::sort_by]

    A Rust comparator is a function to [comparison] ([std::cmp::Ordering]);
    [then_cmp] is [Ordering::then], [cmp_on] compares by a key.  [Cmp] is the
    contract [sort_by] asks of its closure (a total preorder); the instances
    derive it for the closures the components use.  [sort_by] is stable; on
    elements that no two comparators confuse its result does not depend on the
    order of its input ([sort_by_unique]). *)

From S2P Require Import Prelude.

Class Cmp {A} (cmp : A -> A -> comparison) : Prop := {
  cmp_opp x y : cmp y x = CompOpp (cmp x y);
  cmp_eq_l x y z : cmp x y = Eq -> cmp x z = cmp y z;
  cmp_lt_trans x y z : cmp x y = Lt -> cmp y z = Lt -> cmp x z = Lt;
}.

Definition then_cmp (a b : comparison) : comparison :=
  match a with Eq => b | _ => a end.

Definition cmp_on {A B} (f : A -> B) (cmp : B -> B -> comparison) (x y : A) : comparison :=
  cmp (f x) (f y).

(** [false] is below [true], as [bool]'s [Ord] has it. *)
Definition bool_compare (a b : bool) : comparison :=
  match a, b with false, true => Lt | true, false => Gt | _, _ => Eq end.

(** [slice::sort_by]: equal elements keep their order. *)
Fixpoint sort_insert {A} (cmp : A -> A -> comparison) (x : A) (l : list A) : list A :=
  match l with
  | [] => [x]
  | y :: l' => match cmp x y with Gt => y :: sort_insert cmp x l' | _ => x :: l end
  end.
Fixpoint sort_by {A} (cmp : A -> A -> comparison) (l : list A) : list A :=
  match l with
  | [] => []
  | x :: l' => sort_insert cmp x (sort_by cmp l')
  end.

Definition cmp_le {A} (cmp : A -> A -> comparison) (x y : A) : Prop := cmp x y <> Gt.

Section cmp_laws.
Context {A : Type} (cmp : A -> A -> comparison) {C : Cmp cmp}.

Lemma cmp_refl x : cmp x x = Eq.
Proof. pose proof (cmp_opp (cmp := cmp) x x) as H. by destruct (cmp x x). Qed.

Lemma cmp_eq_sym x y : cmp x y = Eq -> cmp y x = Eq.
Proof. intros H. by rewrite (cmp_opp (cmp := cmp) x y), H. Qed.

Lemma cmp_eq_r x y z : cmp x y = Eq -> cmp z x = cmp z y.
Proof.
  intros H. rewrite (cmp_opp (cmp := cmp) x z), (cmp_opp (cmp := cmp) y z). f_equal. by apply cmp_eq_l.
Qed.

Lemma cmp_le_trans x y z : cmp_le cmp x y -> cmp_le cmp y z -> cmp_le cmp x z.
Proof.
  unfold cmp_le. intros H1 H2. destruct (cmp x y) eqn:E1; [|destruct (cmp y z) eqn:E2|]; try done.
  - by rewrite (cmp_eq_l (cmp := cmp) x y z).
  - by rewrite <- (cmp_eq_r y z x), E1.
  - by rewrite (cmp_lt_trans (cmp := cmp) x y z).
Qed.

Lemma cmp_gt_le x y : cmp x y = Gt -> cmp_le cmp y x.
Proof. unfold cmp_le. intros H. by rewrite (cmp_opp (cmp := cmp) x y), H. Qed.

Lemma cmp_le_antisym x y : cmp_le cmp x y -> cmp_le cmp y x -> cmp x y = Eq.
Proof. unfold cmp_le. rewrite (cmp_opp (cmp := cmp) x y). by destruct (cmp x y). Qed.

Lemma sort_insert_Permutation x l : sort_insert cmp x l ≡ₚ x :: l.
Proof.
  induction l as [|y l IH]; simpl; [done|]. case_match; [done|done|].
  rewrite IH. by apply Permutation_swap.
Qed.

Lemma sort_by_Permutation l : sort_by cmp l ≡ₚ l.
Proof.
  induction l as [|x l IH]; simpl; [done|]. by rewrite sort_insert_Permutation, IH.
Qed.

Lemma sort_insert_sorted x l :
  StronglySorted (cmp_le cmp) l -> StronglySorted (cmp_le cmp) (sort_insert cmp x l).
Proof.
  induction l as [|y l IH]; simpl; intros Hl; [by repeat constructor|].
  apply StronglySorted_cons in Hl as [Hy Hl].
  assert (cmp x y <> Gt -> StronglySorted (cmp_le cmp) (x :: y :: l)) as Hle.
  { intros Hxy. apply StronglySorted_cons. split; [|by apply StronglySorted_cons].
    constructor; [done|]. eapply Forall_impl; [exact Hy|]. intros z. by apply cmp_le_trans. }
  destruct (cmp x y) eqn:E; [by apply Hle|by apply Hle|].
  apply StronglySorted_cons. split; [|by apply IH].
  rewrite sort_insert_Permutation. constructor; [by apply cmp_gt_le|done].
Qed.

Lemma sort_by_sorted l : StronglySorted (cmp_le cmp) (sort_by cmp l).
Proof. induction l; simpl; [constructor|]. by apply sort_insert_sorted. Qed.

(** A list already in order is left as it is (and so is its tie order). *)
Lemma sort_by_id l : StronglySorted (cmp_le cmp) l -> sort_by cmp l = l.
Proof.
  induction l as [|x l IH]; simpl; [done|]. intros [Hx Hl]%StronglySorted_cons.
  rewrite IH by done. destruct Hx as [|y l' Hy]; [done|]. simpl.
  unfold cmp_le in Hy. by destruct (cmp x y).
Qed.

Lemma sorted_unique_on l l' :
  (forall x y, x ∈ l -> y ∈ l' -> cmp x y = Eq -> x = y) ->
  StronglySorted (cmp_le cmp) l -> StronglySorted (cmp_le cmp) l' -> l ≡ₚ l' -> l = l'.
Proof.
  intros Hinj Hl Hl' Hp. apply (StronglySorted_unique_strong (cmp_le cmp)); try done.
  intros x y Hx Hy H1 H2. apply Hinj; [done..|]. by apply cmp_le_antisym.
Qed.

Lemma sort_by_unique l l' :
  (forall x y, x ∈ l -> y ∈ l -> cmp x y = Eq -> x = y) -> l ≡ₚ l' -> sort_by cmp l = sort_by cmp l'.
Proof.
  intros Hinj Hp. apply sorted_unique_on; [|by apply sort_by_sorted..|].
  - intros x y. rewrite !sort_by_Permutation, <- Hp. apply Hinj.
  - by rewrite !sort_by_Permutation.
Qed.

Lemma elem_of_sort_by x l : x ∈ sort_by cmp l <-> x ∈ l.
Proof. by rewrite sort_by_Permutation. Qed.

End cmp_laws.

#[export] Instance cmp_on_Cmp {A B} (f : A -> B) cmp : Cmp cmp -> Cmp (cmp_on f cmp).
Proof.
  intros C. split; unfold cmp_on; intros *.
  - apply cmp_opp.
  - apply cmp_eq_l.
  - apply cmp_lt_trans.
Qed.

#[export] Instance then_cmp_Cmp {A} (c1 c2 : A -> A -> comparison) :
  Cmp c1 -> Cmp c2 -> Cmp (fun x y => then_cmp (c1 x y) (c2 x y)).
Proof.
  intros C1 C2. split; intros x y; [|intros z..].
  - rewrite (cmp_opp (cmp := c1) x y), (cmp_opp (cmp := c2) x y). by destruct (c1 x y).
  - destruct (c1 x y) eqn:E; simpl; try done. intros E2.
    by rewrite (cmp_eq_l (cmp := c1) x y z E), (cmp_eq_l (cmp := c2) x y z E2).
  - destruct (c1 x y) eqn:E1; simpl; try done.
    + rewrite (cmp_eq_l (cmp := c1) x y z E1). intros E2.
      destruct (c1 y z); simpl; try done. by apply cmp_lt_trans.
    + intros _. destruct (c1 y z) eqn:E2; simpl; try done; intros _.
      * by rewrite <- (cmp_eq_r c1 y z x E2), E1.
      * by rewrite (cmp_lt_trans (cmp := c1) x y z E1 E2).
Qed.

#[export] Instance N_compare_Cmp : Cmp N.compare.
Proof.
  split; intros x y; [|intros z..].
  - apply N.compare_antisym.
  - by intros ->%N.compare_eq_iff.
  - rewrite !N.compare_lt_iff. apply N.lt_trans.
Qed.

#[export] Instance Z_compare_Cmp : Cmp Z.compare.
Proof.
  split; intros x y; [|intros z..].
  - apply Z.compare_antisym.
  - by intros ->%Z.compare_eq_iff.
  - rewrite !Z.compare_lt_iff. apply Z.lt_trans.
Qed.

#[export] Instance bool_compare_Cmp : Cmp bool_compare.
Proof. split; [intros [] []|intros [] [] []|intros [] [] []]; done. Qed.

Lemma ascii_compare_Cmp : Cmp Ascii.compare.
Proof. unfold Ascii.compare. apply (cmp_on_Cmp N_of_ascii N.compare). apply N_compare_Cmp. Qed.

#[export] Instance string_compare_Cmp : Cmp String.compare.
Proof.
  pose proof ascii_compare_Cmp as CA.
  split; intros x y; [|intros z..].
  - apply String.compare_antisym.
  - by intros ->%String.compare_eq_iff.
  - revert y z. induction x as [|a x IH]; intros [|b y] [|c z]; simpl; try done.
    destruct (Ascii.compare a b) eqn:E1; try done.
    + apply Ascii.compare_eq_iff in E1 as ->.
      destruct (Ascii.compare b c); try done. by apply IH.
    + destruct (Ascii.compare b c) eqn:E2; try done; intros _ _.
      * apply Ascii.compare_eq_iff in E2 as <-. by rewrite E1.
      * by rewrite (cmp_lt_trans (cmp := Ascii.compare) a b c E1 E2).
Qed.

Lemma then_cmp_eq a b : then_cmp a b = Eq <-> a = Eq /\ b = Eq.
Proof. destruct a; naive_solver. Qed.

(** [Iterator::min_by] / the first element of the sorted list: a least one. *)
Lemma sort_by_head {A} cmp `{!Cmp cmp} (l : list A) x :
  head (sort_by cmp l) = Some x -> x ∈ l /\ forall y, y ∈ l -> cmp_le cmp x y.
Proof.
  intros H. pose proof (sort_by_sorted cmp l) as Hs.
  pose proof (sort_by_Permutation cmp l) as Hp.
  destruct (sort_by cmp l) as [|x' l'] eqn:E; simplify_eq/=.
  apply StronglySorted_cons in Hs as [Hx _]. rewrite <- Hp. split; [by left|].
  intros y Hy. rewrite <- Hp in Hy.
  apply elem_of_cons in Hy as [->|Hy]; [|rewrite Forall_forall in Hx; by apply Hx].
  unfold cmp_le. by rewrite cmp_refl.
Qed.
