(* ===== verification/SnapTree.v ===== *)
(** * The snapshot tree: app/snaptree.rs

    Proxmox returns a flat list of snapshots; [assemble] turns it into a forest
    plus a list of orphans, and [diff_between] reads the lineage of two
    snapshots from it.  The order in which a [HashMap] yields its values is a
    parameter ([values]): the theorems hold for every order.

    The depth-first loop of [build_node] carries fuel: one round per push, and
    every snapshot is pushed at most once ([dfs_terminates], for any
    [children_of], cyclic ones included).  The walk of [ancestors] takes one
    round per node of the tree; [assembled_lineage] shows that it reaches a root.
    The theorems are in [SnapTreeSpec]. *)

From S2P Require Import Prelude.
From S2P Require Import SortBy.

(** [Snapshot] of api/types/guest.rs. *)
Record Snapshot := mkSnapshot {
  name : string;
  parent : string;
  description : string;
  snaptime : N;
  vmstate : N;
}.
#[export] Instance Snapshot_eq_dec : EqDecision Snapshot.
Proof. solve_decision. Defined.

Definition is_current (s : Snapshot) : bool := bool_decide (name s = "current").

Inductive TreeNode := Node (snap : Snapshot) (children : list TreeNode).
Definition snap (t : TreeNode) : Snapshot := let '(Node s _) := t in s.
Definition children (t : TreeNode) : list TreeNode := let '(Node _ cs) := t in cs.

Record Tree := mkTree { roots : list TreeNode; orphans : list Snapshot }.

Fixpoint count (t : TreeNode) : nat :=
  let '(Node _ cs) := t in 1 + sum_list (map count cs).

Definition total_count (t : Tree) : nat :=
  sum_list (map count (roots t)) + length (orphans t).

Fixpoint find_in (node : TreeNode) (n : string) : option TreeNode :=
  let '(Node s cs) := node in
  if bool_decide (name s = n) then Some node
  else (fix go (l : list TreeNode) : option TreeNode :=
          match l with
          | [] => None
          | c :: l' => match find_in c n with Some x => Some x | None => go l' end
          end) cs.

Fixpoint find_roots (l : list TreeNode) (n : string) : option TreeNode :=
  match l with
  | [] => None
  | r :: l' => match find_in r n with Some x => Some x | None => find_roots l' n end
  end.
Definition find (t : Tree) (n : string) : option TreeNode := find_roots (roots t) n.

(** ** Assembly *)

(** The closures given to [sort_by]. *)
Definition cmp_all (a b : Snapshot) : comparison :=
  then_cmp (N.compare (snaptime a) (snaptime b))
  (then_cmp (String.compare (name a) (name b))
  (then_cmp (String.compare (parent a) (parent b))
  (then_cmp (N.compare (vmstate a) (vmstate b))
            (String.compare (description a) (description b))))).
Definition cmp_time_name (a b : Snapshot) : comparison :=
  then_cmp (N.compare (snaptime a) (snaptime b)) (String.compare (name a) (name b)).
Definition cmp_siblings (a b : Snapshot) : comparison :=
  match is_current a, is_current b with
  | true, false => Gt
  | false, true => Lt
  | _, _ => cmp_time_name a b
  end.
Definition cmp_name (a b : Snapshot) : comparison := String.compare (name a) (name b).

(** [by_name.entry(name).or_insert(s)] over the sorted input. *)
Definition or_insert (m : gmap string Snapshot) (s : Snapshot) : gmap string Snapshot :=
  match m !! name s with Some _ => m | None => <[name s := s]> m end.
Definition index_by_name (snaps : list Snapshot) : gmap string Snapshot :=
  foldl or_insert ∅ (sort_by cmp_all snaps).

(** The three accumulators of the classifying loop. *)
Record Partition := mkPartition {
  children_of : gmap string (list Snapshot);
  p_orphans : list Snapshot;
  p_roots : list Snapshot;
}.
Definition push_child (m : gmap string (list Snapshot)) (s : Snapshot) : gmap string (list Snapshot) :=
  <[parent s := default [] (m !! parent s) ++ [s]]> m.
Definition classify (by_name : gmap string Snapshot) (p : Partition) (s : Snapshot) : Partition :=
  if is_empty (parent s) then mkPartition (children_of p) (p_orphans p) (p_roots p ++ [s])
  else if bool_decide (parent s = name s)
  then mkPartition (children_of p) (p_orphans p ++ [s]) (p_roots p)
  else if bool_decide (is_Some (by_name !! parent s))
  then mkPartition (push_child (children_of p) s) (p_orphans p) (p_roots p)
  else mkPartition (children_of p) (p_orphans p ++ [s]) (p_roots p).
Definition partition (by_name : gmap string Snapshot) (snaps : list Snapshot) : Partition :=
  foldl (classify by_name) (mkPartition ∅ [] []) snaps.

(** Phase 1 of [build_node].  The stack's top is the head of the list. *)
Definition push_unvisited (visited : gset string) (stack cs : list Snapshot) : list Snapshot :=
  foldl (fun st c => if bool_decide (name c ∈ visited) then st else c :: st) stack cs.
Fixpoint dfs (fuel : nat) (ch : gmap string (list Snapshot)) (stack : list Snapshot)
    (visited : gset string) (order : list Snapshot) : option (list Snapshot * gset string) :=
  match stack with
  | [] => Some (order, visited)
  | s :: stack' =>
      match fuel with
      | 0 => None
      | S fuel' =>
          if bool_decide (name s ∈ visited) then dfs fuel' ch stack' visited order
          else
            let visited' := {[name s]} ∪ visited in
            let stack'' := match ch !! name s with
                           | Some cs => push_unvisited visited' stack' cs
                           | None => stack'
                           end in
            dfs fuel' ch stack'' visited' (order ++ [s])
      end
  end.

(** Phase 2: [filter_map(|c| materialized.remove(&c.name))], then the insert. *)
Fixpoint take_children (cs : list Snapshot) (m : gmap string TreeNode)
    : list TreeNode * gmap string TreeNode :=
  match cs with
  | [] => ([], m)
  | c :: cs' =>
      match m !! name c with
      | Some t => let '(ts, m') := take_children cs' (delete (name c) m) in (t :: ts, m')
      | None => take_children cs' m
      end
  end.
Definition cmp_nodes (a b : TreeNode) : comparison := cmp_siblings (snap a) (snap b).
Definition materialize_step (ch : gmap string (list Snapshot)) (s : Snapshot)
    (m : gmap string TreeNode) : gmap string TreeNode :=
  let '(ts, m') := take_children (default [] (ch !! name s)) m in
  <[name s := Node s (sort_by cmp_nodes ts)]> m'.
Definition materialize (ch : gmap string (list Snapshot)) (order : list Snapshot)
    : gmap string TreeNode :=
  foldr (materialize_step ch) ∅ order.

Definition dfs_fuel (ch : gmap string (list Snapshot)) : nat :=
  S (sum_list_with (fun kv => length kv.2) (map_to_list ch)).

Definition build_node (root : Snapshot) (ch : gmap string (list Snapshot)) (visited : gset string)
    : option (TreeNode * gset string) :=
  '(order, visited') ← dfs (dfs_fuel ch) ch [root] visited [];
  let materialized := materialize ch order in
  Some (default (Node (mkSnapshot (name root) "" "" 0 0) []) (materialized !! name root), visited').

(** [roots.into_iter().map(|s| build_node(s, &children_of, &mut visited))]. *)
Fixpoint build_roots (rs : list Snapshot) (ch : gmap string (list Snapshot)) (visited : gset string)
    : option (list TreeNode * gset string) :=
  match rs with
  | [] => Some ([], visited)
  | r :: rs' =>
      '(t, v) ← build_node r ch visited;
      '(ts, v') ← build_roots rs' ch v;
      Some (t :: ts, v')
  end.

Section assemble.
(** [HashMap::values], in the order the map happens to yield them. *)
Context (values : gmap string Snapshot -> list Snapshot).

Definition assemble (snaps : list Snapshot) : option Tree :=
  let by_name := index_by_name snaps in
  let snaps' := sort_by cmp_time_name (values by_name) in
  let p := partition by_name snaps' in
  let rs := sort_by cmp_siblings (p_roots p) in
  '(root_nodes, visited) ← build_roots rs (children_of p) ∅;
  let orphan_names : gset string := list_to_set (name <$> p_orphans p) in
  let cycle_members :=
    sort_by cmp_name
      (filter (fun s => name s ∉ visited /\ name s ∉ orphan_names) (values by_name)) in
  Some (mkTree root_nodes (p_orphans p ++ cycle_members)).
End assemble.

(** ** Lineage and diff *)
Fixpoint collect_into (node : TreeNode) (m : gmap string TreeNode) : gmap string TreeNode :=
  let '(Node s cs) := node in
  fold_left (fun m c => collect_into c m) cs (<[name s := node]> m).
Definition collect (t : Tree) : gmap string TreeNode :=
  fold_left (fun m r => collect_into r m) (roots t) ∅.

(** The walk up from [cursor]; gives what it pushes. *)
Fixpoint climb (fuel : nat) (by_name : gmap string TreeNode) (cursor : string) : list string :=
  match fuel with
  | 0 => []
  | S fuel' =>
      match by_name !! cursor with
      | None => []
      | Some node =>
          let p := parent (snap node) in
          if is_empty p then [] else p :: climb fuel' by_name p
      end
  end.
Definition ancestors (t : Tree) (n : string) : option (list string) :=
  let by_name := collect t in
  if bool_decide (is_Some (by_name !! n)) then Some (n :: climb (size by_name) by_name n) else None.

Record DiffSummary := mkDiffSummary {
  common_ancestor : string;
  forward_path : list string;
  reverse_path : list string;
  time_delta_secs : N;
}.

Fixpoint take_while {A} (f : A -> bool) (l : list A) : list A :=
  match l with
  | [] => []
  | x :: l' => if f x then x :: take_while f l' else []
  end.
Definition abs_diff (a b : N) : N := if (a <? b)%N then b - a else a - b.

Definition diff_between (t : Tree) (from to : string) : option DiffSummary :=
  from_chain ← ancestors t from;
  to_chain ← ancestors t to;
  let common := default "" (List.find (fun n => bool_decide (n ∈ to_chain)) from_chain) in
  let before_common := take_while (fun n => bool_decide (n <> common)) in
  Some (mkDiffSummary common
          (filter (fun n => n <> from) (before_common from_chain))
          (filter (fun n => n <> to) (before_common to_chain))
          (abs_diff (from_option (fun n => snaptime (snap n)) 0%N (find t from))
                    (from_option (fun n => snaptime (snap n)) 0%N (find t to)))).

(** ** The unit tests of the source *)
Definition map_values (m : gmap string Snapshot) : list Snapshot := (map_to_list m).*2.
Definition test_snap (n p : string) (t : N) : Snapshot := mkSnapshot n p "" t 0.

Definition branching : list Snapshot :=
  [test_snap "root" "" 100; test_snap "A" "root" 200; test_snap "B" "A" 300;
   test_snap "C" "A" 250; test_snap "current" "B" 0; test_snap "lost" "gone" 10;
   test_snap "X" "Y" 1; test_snap "Y" "X" 2].

Example assemble_branching :
  assemble map_values branching =
  Some (mkTree
    [Node (test_snap "root" "" 100)
       [Node (test_snap "A" "root" 200)
          [Node (test_snap "C" "A" 250) [];
           Node (test_snap "B" "A" 300) [Node (test_snap "current" "B" 0) []]]]]
    [test_snap "lost" "gone" 10; test_snap "X" "Y" 1; test_snap "Y" "X" 2]).
Proof. vm_compute. reflexivity. Qed.

Example diff_between_siblings :
  (assemble map_values branching ≫= fun t => diff_between t "current" "C")
  = Some (mkDiffSummary "A" ["B"] [] 250).
Proof. vm_compute. reflexivity. Qed.
