(* ===== verification/SnapTreeSpec.v ===== *)
(** * Correctness of the snapshot tree

    [SnapTree] against what a snapshot forest should be: [lineage] is the path
    from a snapshot to a root along parent links, written on the list of
    snapshots alone. *)

From S2P Require Import Prelude.
From S2P Require Import SortBy.
From S2P Require Import SnapTree.

(** ** Comparators *)
#[export] Instance cmp_all_Cmp : Cmp cmp_all.
Proof.
  apply (then_cmp_Cmp (cmp_on snaptime N.compare)); [apply _|].
  apply (then_cmp_Cmp (cmp_on name String.compare)); [apply _|].
  apply (then_cmp_Cmp (cmp_on parent String.compare)); [apply _|].
  apply (then_cmp_Cmp (cmp_on vmstate N.compare) (cmp_on description String.compare)); apply _.
Qed.
#[export] Instance cmp_time_name_Cmp : Cmp cmp_time_name.
Proof. apply (then_cmp_Cmp (cmp_on snaptime N.compare) (cmp_on name String.compare)); apply _. Qed.
#[export] Instance cmp_name_Cmp : Cmp cmp_name.
Proof. apply (cmp_on_Cmp name); apply _. Qed.

(** [current] last, then time and name: the same order written with [then]. *)
Lemma cmp_siblings_then a b :
  cmp_siblings a b = then_cmp (cmp_on is_current bool_compare a b) (cmp_time_name a b).
Proof. unfold cmp_siblings, cmp_on. by destruct (is_current a), (is_current b). Qed.

Lemma Cmp_ext {A} (c c' : A -> A -> comparison) :
  (forall x y, c x y = c' x y) -> Cmp c' -> Cmp c.
Proof.
  intros E C. split; intros *; rewrite !E.
  - apply cmp_opp.
  - apply cmp_eq_l.
  - apply cmp_lt_trans.
Qed.
#[export] Instance cmp_siblings_Cmp : Cmp cmp_siblings.
Proof. eapply Cmp_ext; [apply cmp_siblings_then|]. apply then_cmp_Cmp; apply _. Qed.
#[export] Instance cmp_nodes_Cmp : Cmp cmp_nodes.
Proof. apply (cmp_on_Cmp snap cmp_siblings); apply _. Qed.

Lemma cmp_time_name_eq a b : cmp_time_name a b = Eq -> name a = name b.
Proof. unfold cmp_time_name. rewrite then_cmp_eq. intros [_ H]. by apply String.compare_eq_iff. Qed.
Lemma cmp_siblings_eq a b : cmp_siblings a b = Eq -> name a = name b.
Proof. rewrite cmp_siblings_then, then_cmp_eq. intros [_ H]. by apply cmp_time_name_eq. Qed.
Lemma cmp_all_eq a b : cmp_all a b = Eq -> a = b.
Proof.
  unfold cmp_all. rewrite !then_cmp_eq, !N.compare_eq_iff.
  intros (H1 & H2%String.compare_eq_iff & H3%String.compare_eq_iff & H4 & H5%String.compare_eq_iff).
  destruct a, b; simpl in *; congruence.
Qed.

(** ** Sorting commutes with a key *)
Lemma sort_insert_fmap {A B} (f : A -> B) cmp x l :
  f <$> sort_insert (cmp_on f cmp) x l = sort_insert cmp (f x) (f <$> l).
Proof.
  induction l as [|y l IH]; [done|]. simpl. unfold cmp_on at 1. case_match; csimpl; by rewrite ?IH.
Qed.
Lemma sort_by_fmap {A B} (f : A -> B) cmp l :
  f <$> sort_by (cmp_on f cmp) l = sort_by cmp (f <$> l).
Proof. induction l as [|x l IH]; [done|]. simpl. by rewrite sort_insert_fmap, IH. Qed.

(** ** Unique names *)
Definition unique_names (l : list Snapshot) : Prop := NoDup (name <$> l).

Lemma unique_names_inj l a b : unique_names l -> a ∈ l -> b ∈ l -> name a = name b -> a = b.
Proof.
  intros Hn (i & Hi)%list_elem_of_lookup (j & Hj)%list_elem_of_lookup E.
  assert (i = j) as ->; [|congruence].
  eapply NoDup_lookup; [exact Hn|..]; rewrite list_lookup_fmap; [by rewrite Hi|].
  rewrite Hj. simpl. by rewrite E.
Qed.
Lemma unique_names_NoDup l : unique_names l -> NoDup l.
Proof. apply NoDup_fmap_1. Qed.

Lemma unique_names_cons s l : unique_names (s :: l) <-> name s ∉ name <$> l /\ unique_names l.
Proof. unfold unique_names. csimpl. apply NoDup_cons. Qed.

#[export] Instance unique_names_proper : Proper ((≡ₚ) ==> iff) unique_names.
Proof. intros l l' E. unfold unique_names. by rewrite E. Qed.

(** ** The index *)
Lemma index_fold_lookup l m n :
  foldl or_insert m l !! n =
  match m !! n with Some s => Some s | None => head (filter (fun s => name s = n) l) end.
Proof.
  revert m. induction l as [|x l IH]; intros m; simpl; [by destruct (m !! n)|].
  rewrite IH, filter_cons. unfold or_insert. destruct (decide (name x = n)) as [<-|Hne].
  - destruct (m !! name x) eqn:E; [by rewrite E|]. by rewrite lookup_insert_eq.
  - destruct (m !! name x); [done|]. by rewrite lookup_insert_ne.
Qed.

Lemma head_filter_sorted {A} (R : relation A) (P : A -> Prop) `{!forall x, Decision (P x)} l x :
  Reflexive R -> StronglySorted R l -> head (filter P l) = Some x ->
  x ∈ l /\ P x /\ forall y, y ∈ l -> P y -> R x y.
Proof.
  intros HR Hs. induction Hs as [|y l Hs IH Hy]; [done|].
  rewrite filter_cons. rewrite Forall_forall in Hy. case_decide as HP; simpl.
  - intros [= ->]. split; [by left|]. split; [done|]. set_solver.
  - intros (H1 & H2 & H3)%IH. set_solver.
Qed.

(** The kept snapshot of a name is the least of the ones that bear it. *)
Definition representative (snaps : list Snapshot) (s : Snapshot) : Prop :=
  s ∈ snaps /\ forall s', s' ∈ snaps -> name s' = name s -> cmp_le cmp_all s s'.

Lemma index_by_name_Some snaps n s :
  index_by_name snaps !! n = Some s <-> name s = n /\ representative snaps s.
Proof.
  unfold index_by_name. rewrite index_fold_lookup, lookup_empty.
  assert (Reflexive (cmp_le cmp_all)) as Hrefl.
  { intros x. unfold cmp_le. by rewrite cmp_refl by apply _. }
  split.
  - intros (H1 & H2 & H3)%(head_filter_sorted (cmp_le cmp_all)); [|done|by apply sort_by_sorted; apply _].
    split; [done|]. split; [by rewrite elem_of_sort_by in H1|].
    intros s' Hs' E. apply H3; [by rewrite elem_of_sort_by|congruence].
  - intros (<- & Hin & Hmin).
    destruct (head (filter _ _)) as [s'|] eqn:E.
    + apply (head_filter_sorted (cmp_le cmp_all)) in E as (H1 & H2 & H3);
        [|done|by apply sort_by_sorted; apply _].
      rewrite elem_of_sort_by in H1. f_equal. apply cmp_all_eq.
      apply cmp_le_antisym; [apply _| |by apply Hmin].
      apply H3; [by rewrite elem_of_sort_by|done].
    + assert (s ∈ filter (fun s0 => name s0 = name s) (sort_by cmp_all snaps)) as Hf.
      { apply list_elem_of_filter. split; [done|]. by rewrite elem_of_sort_by. }
      destruct (filter _ _); [by apply elem_of_nil in Hf|done].
Qed.

Lemma index_by_name_Permutation snaps snaps' :
  snaps ≡ₚ snaps' -> index_by_name snaps = index_by_name snaps'.
Proof.
  intros E. unfold index_by_name. f_equal. apply sort_by_unique; [apply _| |done].
  intros x y _ _. apply cmp_all_eq.
Qed.

Lemma index_by_name_keys snaps n : is_Some (index_by_name snaps !! n) <-> n ∈ name <$> snaps.
Proof.
  split.
  - intros [s (<- & Hs & _)%index_by_name_Some]. by apply list_elem_of_fmap_2.
  - intros (s & -> & Hs)%list_elem_of_fmap. unfold index_by_name.
    rewrite index_fold_lookup, lookup_empty.
    assert (s ∈ filter (fun s0 => name s0 = name s) (sort_by cmp_all snaps)) as Hf.
    { apply list_elem_of_filter. split; [done|]. by rewrite elem_of_sort_by. }
    destruct (filter _ _); [by apply elem_of_nil in Hf|done].
Qed.

(** ** The classifying loop is three filters *)
Section partition.
Context (by_name : gmap string Snapshot).

Definition orphaned (s : Snapshot) : Prop :=
  parent s <> "" /\ (parent s = name s \/ by_name !! parent s = None).
Definition child_of (p : string) (s : Snapshot) : Prop :=
  parent s = p /\ p <> "" /\ name s <> p /\ is_Some (by_name !! p).
#[export] Instance orphaned_dec s : Decision (orphaned s).
Proof. unfold orphaned. apply _. Defined.
#[export] Instance child_of_dec p s : Decision (child_of p s).
Proof. unfold child_of. apply _. Defined.

Lemma partition_snoc l s : partition by_name (l ++ [s]) = classify by_name (partition by_name l) s.
Proof. unfold partition. by rewrite foldl_app. Qed.

Ltac classify_cases :=
  rewrite partition_snoc, filter_app, filter_cons, filter_nil; unfold classify, is_empty;
  repeat case_bool_decide; simpl.

Lemma partition_roots l : p_roots (partition by_name l) = filter (fun s => parent s = "") l.
Proof.
  induction l as [|s l IH] using rev_ind; [done|].
  classify_cases; rewrite IH; case_decide; try done; by rewrite app_nil_r.
Qed.

Lemma partition_orphans l : p_orphans (partition by_name l) = filter orphaned l.
Proof.
  induction l as [|s l IH] using rev_ind; [done|].
  classify_cases; rewrite IH; case_decide as Ho; try (by rewrite app_nil_r); try done;
    unfold orphaned in Ho; exfalso.
  - by destruct Ho.
  - by apply Ho; auto.
  - destruct Ho as [_ [?|Hn]]; [done|]. rewrite Hn in *. by eapply is_Some_None.
  - apply Ho. split; [done|]. right. by apply eq_None_not_Some.
Qed.

Lemma partition_children l p :
  default [] (children_of (partition by_name l) !! p) = filter (child_of p) l.
Proof.
  induction l as [|s l IH] using rev_ind; [done|].
  classify_cases; case_decide as Hc; unfold child_of in Hc; try (rewrite IH, app_nil_r; done);
    try (exfalso; naive_solver congruence).
  - unfold push_child. destruct Hc as (<- & _). rewrite lookup_insert_eq. simpl. by rewrite IH.
  - unfold push_child. rewrite app_nil_r, <- IH. rewrite lookup_insert_ne; [done|].
    intros <-. apply Hc. naive_solver.
Qed.
End partition.

(** ** The depth-first loop ends

    The measure is the stack and what the unexpanded names could still push. *)
Definition pending_pushes (ch : gmap string (list Snapshot)) (visited : gset string) : nat :=
  sum_list_with (fun kv => length kv.2) (map_to_list (filter (fun kv => kv.1 ∉ visited) ch)).

Lemma pending_pushes_visit ch visited n :
  n ∉ visited ->
  pending_pushes ch visited =
  length (default [] (ch !! n)) + pending_pushes ch ({[n]} ∪ visited).
Proof.
  intros Hn. unfold pending_pushes.
  assert (filter (fun kv => kv.1 ∉ {[n]} ∪ visited) ch
          = delete n (filter (fun kv : string * list Snapshot => kv.1 ∉ visited) ch)) as ->.
  { apply map_eq. intros k. destruct (decide (k = n)) as [->|Hk].
    - rewrite lookup_delete_eq. apply map_lookup_filter_None. right. set_solver.
    - rewrite lookup_delete_ne by done. apply option_eq. intros l.
      rewrite !map_lookup_filter_Some. set_solver. }
  set (m := filter _ ch). destruct (ch !! n) as [cs|] eqn:E; simpl.
  - assert (m !! n = Some cs) as Hm by (by apply map_lookup_filter_Some).
    by rewrite <- (map_to_list_delete m n cs Hm).
  - assert (m !! n = None) as Hm by (apply map_lookup_filter_None; by left).
    by rewrite delete_id.
Qed.

Lemma push_unvisited_length visited st cs :
  length (push_unvisited visited st cs) <= length st + length cs.
Proof.
  unfold push_unvisited. revert st. induction cs as [|c cs IH]; intros st; simpl; [lia|].
  case_bool_decide; rewrite IH; simpl; lia.
Qed.

Lemma dfs_terminates fuel ch stack visited order :
  length stack + pending_pushes ch visited <= fuel ->
  is_Some (dfs fuel ch stack visited order).
Proof.
  revert stack visited order. induction fuel as [|fuel IH]; intros [|s stack] visited order H;
    simpl in *; [by eexists|lia|by eexists|].
  case_bool_decide as Hv; [apply IH; lia|]. apply IH.
  rewrite (pending_pushes_visit ch visited (name s) Hv) in H.
  destruct (ch !! name s) as [cs|]; simpl in H; [|lia].
  pose proof (push_unvisited_length ({[name s]} ∪ visited) stack cs). lia.
Qed.

Lemma pending_pushes_le ch visited : S (pending_pushes ch visited) <= dfs_fuel ch.
Proof.
  unfold dfs_fuel, pending_pushes. apply le_n_S.
  assert (map_to_list (filter (fun kv : string * list Snapshot => kv.1 ∉ visited) ch)
          ⊆+ map_to_list ch) as (k & ->)%submseteq_Permutation.
  { apply map_to_list_submseteq, map_filter_subseteq. }
  rewrite sum_list_with_app. lia.
Qed.

(** In a list without repetition what follows an occurrence of [s] in one
    splitting follows it in every splitting. *)
Lemma parent_before_child {A} (order : list A) s c l1 l2 k1 k2 :
  NoDup order -> order = l1 ++ s :: l2 -> order = k1 ++ c :: k2 -> s ∈ k1 -> c ∈ l2.
Proof.
  intros Hn -> E (a & b & ->)%list_elem_of_split. rewrite <- app_assoc in E. simpl in E.
  assert (l1 = a /\ l2 = b ++ c :: k2) as [_ ->]; [|set_solver].
  revert a E Hn. induction l1 as [|x l1 IH]; intros [|y a] E Hn; simplify_eq/=; try done.
  - apply NoDup_cons in Hn as [Hn _]. set_solver.
  - apply NoDup_cons in Hn as [Hn _]. set_solver.
  - apply NoDup_cons in Hn as [_ Hn]. destruct (IH a) as [-> ->]; done.
Qed.

(** ** Lineage

    [lineage all s l]: [l] names the snapshots on the way from [s] up to one
    without a parent. *)
Inductive lineage (all : list Snapshot) : Snapshot -> list string -> Prop :=
  | lineage_root s : s ∈ all -> parent s = "" -> lineage all s [name s]
  | lineage_step s p l :
      s ∈ all -> parent s <> "" -> name p = parent s -> lineage all p l ->
      lineage all s (name s :: l).
Definition rooted (all : list Snapshot) (s : Snapshot) : Prop := exists l, lineage all s l.

Section lineage.
Context (all : list Snapshot) (Huniq : unique_names all).

Lemma lineage_mem s l : lineage all s l -> s ∈ all.
Proof. by destruct 1. Qed.

Lemma lineage_functional s l l' : lineage all s l -> lineage all s l' -> l = l'.
Proof.
  intros H. revert l'. induction H as [s Hs Hp|s p l Hs Hp E H IH]; intros l' H'.
  - destruct H'; [done|by rewrite Hp in *].
  - destruct H' as [|s p' l' ? ? E' H']; [done|]. f_equal. apply IH.
    assert (p' = p) as ->; [|done].
    apply (unique_names_inj all); eauto using lineage_mem. congruence.
Qed.

(** The tail of a lineage is the lineage of the one it starts at. *)
Lemma lineage_split s l n :
  lineage all s l -> n ∈ l -> exists p l1 l2, name p = n /\ lineage all p l2 /\ l = l1 ++ l2.
Proof.
  induction 1 as [s Hs Hp|s p l Hs Hp E H IH].
  - intros ->%list_elem_of_singleton. exists s, [], [name s]. split_and!; [done|by constructor|done].
  - rewrite elem_of_cons. intros [->|Hn].
    + exists s, [], (name s :: l). split_and!; [done|by econstructor|done].
    + destruct (IH Hn) as (q & l1 & l2 & ? & ? & ->). by exists q, (name s :: l1), l2.
Qed.

Lemma lineage_fresh s p l :
  s ∈ all -> parent s <> "" -> name p = parent s -> lineage all p l -> name s ∉ l.
Proof.
  intros Hs Hp E H Hn. destruct (lineage_split _ _ _ H Hn) as (q & l1 & l2 & Eq & Hq & ->).
  assert (q = s) as -> by (apply (unique_names_inj all); eauto using lineage_mem).
  assert (lineage all s (name s :: (l1 ++ l2))) as Hs' by (by econstructor).
  pose proof (lineage_functional _ _ _ Hq Hs') as E'. apply (f_equal length) in E'.
  simpl in E'. rewrite length_app in E'. lia.
Qed.

Lemma lineage_NoDup s l : lineage all s l -> NoDup l.
Proof.
  induction 1 as [s Hs Hp|s p l Hs Hp E H IH]; [apply NoDup_singleton|].
  constructor; [by eapply lineage_fresh|done].
Qed.

Lemma lineage_names s l n : lineage all s l -> n ∈ l -> n ∈ name <$> all.
Proof.
  intros H Hn. destruct (lineage_split _ _ _ H Hn) as (q & ? & ? & <- & Hq & _).
  apply list_elem_of_fmap_2. eauto using lineage_mem.
Qed.

Lemma lineage_length s l : lineage all s l -> length l <= length all.
Proof.
  intros H. rewrite <- (length_fmap name all). apply submseteq_length, NoDup_submseteq.
  - by eapply lineage_NoDup.
  - intros n. by eapply lineage_names.
Qed.
End lineage.

(** ** Children *)
Section forest.
Context (by_name : gmap string Snapshot) (all : list Snapshot) (ch : gmap string (list Snapshot)).
Context (Huniq : unique_names all).
Context (Hindex : forall n s, by_name !! n = Some s <-> s ∈ all /\ name s = n).
Context (Hch : forall n, default [] (ch !! n) = filter (child_of by_name n) all).

Definition kids (n : string) : list Snapshot := default [] (ch !! n).

Lemma elem_of_kids n c :
  c ∈ kids n <-> c ∈ all /\ parent c = n /\ n <> "" /\ name c <> n /\ exists p, p ∈ all /\ name p = n.
Proof.
  unfold kids. rewrite Hch, list_elem_of_filter. unfold child_of, is_Some.
  setoid_rewrite Hindex. naive_solver.
Qed.

Lemma kids_unique n : unique_names (kids n).
Proof. unfold kids. rewrite Hch. eapply sublist_NoDup; [exact Huniq|]. apply fmap_sublist, sublist_filter. Qed.

Lemma kids_parent p q c : p ∈ all -> q ∈ all -> c ∈ kids (name p) -> c ∈ kids (name q) -> p = q.
Proof.
  rewrite !elem_of_kids. intros Hp Hq (_ & E & _) (_ & E' & _).
  apply (unique_names_inj all); congruence.
Qed.

Lemma rooted_cases s :
  rooted all s <-> s ∈ all /\ (parent s = "" \/ exists p, s ∈ kids (name p) /\ rooted all p).
Proof.
  split.
  - intros (l & H). split; [by eapply lineage_mem|].
    destruct H as [s Hs Hp|s p l Hs Hp E H]; [by left|right].
    exists p. split; [|by exists l]. rewrite elem_of_kids.
    split_and!; [done|done|congruence| |eauto using lineage_mem].
    intros En. eapply lineage_fresh; [done|exact Hs|done|exact E|exact H|].
    rewrite En. by inv H; left.
  - intros (Hs & [Hp|(p & Hk & l & H)]); [exists [name s]; by constructor|].
    apply elem_of_kids in Hk as (_ & E & ? & _). exists (name s :: l).
    econstructor; [done|congruence|done|done].
Qed.

(** ** Phase 1: what the depth-first loop collects *)

(** Every collected snapshot but the root comes after its parent. *)
Definition parents_first (root : Snapshot) (order : list Snapshot) : Prop :=
  forall l1 s l2, order = l1 ++ s :: l2 -> s = root \/ exists p, p ∈ l1 /\ s ∈ kids (name p).

Record dfs_inv (root : Snapshot) (v0 : gset string) (stack : list Snapshot)
    (visited : gset string) (order : list Snapshot) : Prop := {
  inv_visited : visited = v0 ∪ list_to_set (name <$> order);
  inv_unique : unique_names order;
  inv_fresh : forall s, s ∈ order -> name s ∉ v0;
  inv_order_all : forall s, s ∈ order -> s ∈ all;
  inv_stack : forall s, s ∈ stack -> s ∈ all /\ (s = root \/ exists p, p ∈ order /\ s ∈ kids (name p));
  inv_parents : parents_first root order;
  inv_children : forall s c, s ∈ order -> c ∈ kids (name s) -> c ∈ stack \/ c ∈ order;
  inv_root : root ∈ stack \/ root ∈ order;
}.

Lemma elem_of_push_unvisited visited st cs c :
  c ∈ push_unvisited visited st cs <-> c ∈ st \/ c ∈ cs /\ name c ∉ visited.
Proof.
  unfold push_unvisited. revert st. induction cs as [|d cs IH]; intros st; simpl.
  - set_solver.
  - rewrite IH. case_bool_decide; set_solver.
Qed.

Lemma parents_first_snoc root order s :
  parents_first root order -> s = root \/ (exists p, p ∈ order /\ s ∈ kids (name p)) ->
  parents_first root (order ++ [s]).
Proof.
  intros Hp Hs l1 x l2 E.
  destruct l2 as [|y l2 _] using rev_ind.
  - apply app_inj_tail in E as [-> ->]. done.
  - rewrite app_comm_cons, app_assoc in E. apply app_inj_tail in E as [-> ->]. by eapply Hp.
Qed.

(** The names visited before the walk from a new root are closed upwards, so
    no descendant of the root is among them. *)
Definition up_closed (v : gset string) : Prop :=
  forall p c, p ∈ all -> c ∈ kids (name p) -> name c ∈ v -> name p ∈ v.

(** A popped name that was visited is in the order already. *)
Lemma dfs_inv_skip root v0 s stack visited order :
  dfs_inv root v0 (s :: stack) visited order -> name s ∉ v0 -> name s ∈ visited ->
  dfs_inv root v0 stack visited order.
Proof.
  intros [H1 H2 H3 H4 H5 H6 H7 H8] Hs0 Hv.
  assert (s ∈ order) as Hso.
  { rewrite H1 in Hv. apply elem_of_union in Hv as [Hv|Hv]; [done|].
    apply elem_of_list_to_set, list_elem_of_fmap in Hv as (x & En & Hx).
    assert (s = x) as ->; [|done]. apply (unique_names_inj all); auto. apply H5. by left. }
  split; try done.
  - set_solver.
  - intros x c Hx Hc. destruct (H7 x c Hx Hc) as [[->|?]%elem_of_cons|?]; auto.
  - destruct H8 as [[->|?]%elem_of_cons|?]; auto.
Qed.

(** A child seen twice was collected before. *)
Lemma dfs_child_collected root v0 stack visited order s c :
  up_closed v0 -> dfs_inv root v0 stack visited order -> s ∈ all -> name s ∉ v0 ->
  c ∈ kids (name s) -> name c ∈ {[name s]} ∪ visited -> c ∈ order.
Proof.
  intros Hup Hinv Hs Hs0 Hc Hcv. pose proof Hc as (Hca & _ & _ & Hne & _)%elem_of_kids.
  apply elem_of_union in Hcv as [Hcv%elem_of_singleton|Hcv]; [done|].
  rewrite (inv_visited _ _ _ _ _ Hinv) in Hcv. apply elem_of_union in Hcv as [Hcv|Hcv].
  { exfalso. by apply Hs0, (Hup s c). }
  apply elem_of_list_to_set, list_elem_of_fmap in Hcv as (y & En & Hy).
  assert (c = y) as ->; [|done]. apply (unique_names_inj all); try done.
  by eapply inv_order_all.
Qed.

Lemma dfs_inv_visit root v0 s stack stack' visited order :
  up_closed v0 -> dfs_inv root v0 (s :: stack) visited order -> name s ∉ v0 -> name s ∉ visited ->
  (forall c, c ∈ stack' <-> c ∈ stack \/ c ∈ kids (name s) /\ name c ∉ {[name s]} ∪ visited) ->
  dfs_inv root v0 stack' ({[name s]} ∪ visited) (order ++ [s]).
Proof.
  intros Hup Hinv Hs0 Hv Hel. pose proof Hinv as [H1 H2 H3 H4 H5 H6 H7 H8].
  assert (s ∈ all) as Hs by (by apply H5; left).
  split.
  - rewrite H1, fmap_app, list_to_set_app_L. simpl. set_solver.
  - unfold unique_names. rewrite fmap_app. apply NoDup_app.
    split; [done|]. split; [|apply NoDup_singleton].
    intros n Hn Hn'%list_elem_of_singleton. subst n. apply Hv. rewrite H1. set_solver.
  - set_solver.
  - set_solver.
  - intros c [Hc|[Hc _]]%Hel.
    + destruct (H5 c) as (? & [?|(p & ? & ?)]); [by right|auto|].
      split; [done|right]. exists p. set_solver.
    + split; [by apply elem_of_kids in Hc as (? & _)|right]. exists s. set_solver.
  - apply parents_first_snoc; [done|]. apply (H5 s). by left.
  - intros x c Hx Hc. rewrite Hel, elem_of_app, list_elem_of_singleton.
    apply elem_of_app in Hx as [Hx|Hx%list_elem_of_singleton].
    + destruct (H7 x c Hx Hc) as [[->|?]%elem_of_cons|?]; auto.
    + subst x. destruct (decide (name c ∈ {[name s]} ∪ visited)); [|auto].
      right. left. by eapply dfs_child_collected.
  - destruct H8 as [[->|?]%elem_of_cons|?]; rewrite Hel; set_solver.
Qed.

Lemma dfs_sound fuel root v0 stack visited order order' visited' :
  up_closed v0 ->
  dfs_inv root v0 stack visited order ->
  (forall s, s ∈ stack -> name s ∉ v0) ->
  dfs fuel ch stack visited order = Some (order', visited') ->
  dfs_inv root v0 [] visited' order'.
Proof.
  intros Hup. revert stack visited order.
  induction fuel as [|fuel IH]; intros [|s stack] visited order Hinv Hst E; simplify_eq/=; try done.
  assert (s ∈ all) as Hs by (by apply (inv_stack _ _ _ _ _ Hinv); left).
  assert (name s ∉ v0) as Hs0 by (apply Hst; by left).
  case_bool_decide as Hv.
  - apply (IH stack visited order); [by eapply dfs_inv_skip|set_solver|exact E].
  - set (st := match ch !! name s with Some cs => _ | None => _ end) in E.
    assert (forall c, c ∈ st <-> c ∈ stack \/ c ∈ kids (name s) /\ name c ∉ {[name s]} ∪ visited) as Hel.
    { intros c. unfold st, kids. destruct (ch !! name s); simpl; [apply elem_of_push_unvisited|set_solver]. }
    apply (IH _ _ _ ltac:(by eapply dfs_inv_visit)); [|exact E].
    intros c [Hc|[Hc _]]%Hel; [apply Hst; by right|]. intros Hc0. by apply Hs0, (Hup s c).
Qed.

Lemma dfs_inv_init root v0 : root ∈ all -> dfs_inv root v0 [root] v0 [].
Proof.
  intros Hr. split; try (by intros ? ?%elem_of_nil).
  - set_solver.
  - constructor.
  - intros s Hs%list_elem_of_singleton. subst s. auto.
  - intros l1 s l2 E. by destruct l1.
  - by intros s c Hs%elem_of_nil.
  - left. by left.
Qed.

(** ** Phase 2: materialisation *)
Fixpoint nodes (t : TreeNode) : list TreeNode :=
  let '(Node _ cs) := t in t :: flat_map nodes cs.
Definition forest (m : gmap string TreeNode) : list TreeNode := flat_map nodes (map_to_list m).*2.

Lemma flat_map_Permutation {A B} (f : A -> list B) l l' : l ≡ₚ l' -> flat_map f l ≡ₚ flat_map f l'.
Proof.
  induction 1; simpl; [done|by f_equiv| |by etrans].
  rewrite !app_assoc. f_equiv. apply Permutation_app_comm.
Qed.

Lemma forest_delete m n t : m !! n = Some t -> forest m ≡ₚ nodes t ++ forest (delete n m).
Proof.
  intros H. unfold forest.
  rewrite (flat_map_Permutation nodes _ ((n, t) :: map_to_list (delete n m)).*2); [done|].
  by rewrite map_to_list_delete.
Qed.

Lemma take_children_spec cs m ts m' :
  unique_names cs ->
  (forall c, c ∈ cs -> exists t, m !! name c = Some t /\ snap t = c) ->
  take_children cs m = (ts, m') ->
  snap <$> ts = cs /\ forest m ≡ₚ flat_map nodes ts ++ forest m' /\
  (forall n, m' !! n = if decide (n ∈ name <$> cs) then None else m !! n) /\
  (forall t, t ∈ ts -> exists n, m !! n = Some t).
Proof.
  revert m ts m'. induction cs as [|c cs IH]; intros m ts m' Hu Hall E.
  { simpl in E. injection E as <- <-. by repeat (split; [done|]); intros ? ?%elem_of_nil. }
  apply unique_names_cons in Hu as [Hc Hu]. destruct (Hall c ltac:(by left)) as (t & Ht & Hsnap).
  simpl in E. rewrite Ht in E.
  destruct (take_children cs (delete (name c) m)) as [ts' m''] eqn:E'. injection E as <- <-.
  edestruct (IH (delete (name c) m) ts' m'' Hu) as (H1 & H2 & H3 & H4); [|exact E'|].
  { intros d Hd. destruct (Hall d ltac:(by right)) as (u & Hu' & ?). exists u. split; [|done].
    rewrite lookup_delete_ne; [done|]. intros Ed. apply Hc. rewrite Ed. by apply list_elem_of_fmap_2. }
  split_and!.
  - csimpl. by rewrite Hsnap, H1.
  - simpl. by rewrite (forest_delete m (name c) t Ht), H2, app_assoc.
  - intros n. rewrite H3. csimpl. destruct (decide (n = name c)) as [->|Hn].
    + rewrite decide_False by done. rewrite decide_True by (by left). apply lookup_delete_eq.
    + rewrite lookup_delete_ne by done. apply decide_ext. rewrite elem_of_cons. naive_solver.
  - intros u [->|Hu']%elem_of_cons; [by exists (name c)|].
    destruct (H4 u Hu') as (n & Hn). exists n. by apply lookup_delete_Some in Hn as [_ ?].
Qed.

(** A node is complete when its children are all the snapshots below it. *)
Definition complete (t : TreeNode) : Prop :=
  snap <$> children t = sort_by cmp_siblings (kids (name (snap t))).

(** After the tail [l] of the order: a tree per snapshot of [l] whose parent
    is still to come. *)
Record mat_inv (l : list Snapshot) (m : gmap string TreeNode) : Prop := {
  mat_perm : snap <$> forest m ≡ₚ l;
  mat_name : forall n t, m !! n = Some t -> name (snap t) = n;
  mat_key : forall s, s ∈ l -> (forall p, p ∈ l -> s ∉ kids (name p)) ->
            exists t, m !! name s = Some t /\ snap t = s;
  mat_top : forall n t p, m !! n = Some t -> p ∈ l -> snap t ∉ kids (name p);
  mat_complete : forall t, t ∈ forest m -> complete t;
}.

Lemma forest_root m n t : m !! n = Some t -> t ∈ forest m.
Proof.
  intros H. rewrite (forest_delete _ _ _ H). apply elem_of_app. left. destruct t. by left.
Qed.

Lemma forest_insert m n t : m !! n = None -> forest (<[n := t]> m) ≡ₚ nodes t ++ forest m.
Proof.
  intros H. rewrite (forest_delete _ n t) by apply lookup_insert_eq.
  by rewrite delete_insert_id.
Qed.

Lemma kids_irrefl s : s ∉ kids (name s).
Proof. by intros (_ & _ & _ & ? & _)%elem_of_kids. Qed.

Lemma mat_mem l m n t : mat_inv l m -> m !! n = Some t -> snap t ∈ l.
Proof.
  intros H Ht. rewrite <- (mat_perm _ _ H). apply list_elem_of_fmap_2. by eapply forest_root.
Qed.

Section step.
Context (s : Snapshot) (l : list Snapshot) (m : gmap string TreeNode).
Context (Hl : forall x, x ∈ s :: l -> x ∈ all) (Hu : unique_names (s :: l)).
Context (Hkids : forall c, c ∈ kids (name s) -> c ∈ l).
Context (Hfirst : forall p, p ∈ l -> s ∉ kids (name p)).
Context (Hm : mat_inv l m).

Lemma step_fresh x : x ∈ l -> name x <> name s.
Proof.
  intros Hx E. apply unique_names_cons in Hu as [Hn _]. apply Hn. rewrite <- E.
  by apply list_elem_of_fmap_2.
Qed.

Lemma step_kids_present c : c ∈ kids (name s) -> exists t, m !! name c = Some t /\ snap t = c.
Proof.
  intros Hc. apply (mat_key _ _ Hm); [by apply Hkids|]. intros p Hp Hc'.
  assert (p = s) as -> by (apply (kids_parent p s c); try done; apply Hl; set_solver).
  by apply (step_fresh s).
Qed.

Lemma mat_inv_step : mat_inv (s :: l) (materialize_step ch s m).
Proof.
  unfold materialize_step. fold (kids (name s)).
  destruct (take_children (kids (name s)) m) as [ts m'] eqn:E.
  destruct (take_children_spec _ _ _ _ (kids_unique _) step_kids_present E) as (Hts & Hf & Hm' & Hin).
  set (N := Node s (sort_by cmp_nodes ts)).
  assert (forall n t, m' !! n = Some t -> m !! n = Some t /\ n ∉ name <$> kids (name s)) as Hsub.
  { intros n t. rewrite Hm'. by case_decide. }
  assert (m' !! name s = None) as Hnone.
  { destruct (m' !! name s) as [t|] eqn:Et; [|done]. apply Hsub in Et as [Et _].
    exfalso. apply (step_fresh (snap t)); [by eapply mat_mem|]. by eapply mat_name. }
  assert (forest (<[name s := N]> m') ≡ₚ N :: forest m) as Hforest.
  { rewrite forest_insert by done. simpl. f_equiv. rewrite Hf. f_equiv.
    apply flat_map_Permutation, sort_by_Permutation. }
  split.
  - rewrite Hforest. csimpl. f_equiv. apply (mat_perm _ _ Hm).
  - intros n t [[<- <-]|[_ [Ht _]%Hsub]]%lookup_insert_Some; [done|]. by eapply mat_name.
  - intros x Hx Hp. destruct (decide (x = s)) as [->|Hne].
    { exists N. by rewrite lookup_insert_eq. }
    assert (x ∈ l) as Hxl by (by apply elem_of_cons in Hx as [?|?]).
    destruct (mat_key _ _ Hm x Hxl) as (t & Ht & Hst); [intros p Hpl; apply Hp; by right|].
    exists t. split; [|done]. pose proof (step_fresh x Hxl).
    rewrite lookup_insert_ne by done. rewrite Hm', decide_False; [done|].
    intros (c & En & Hc)%list_elem_of_fmap. apply (Hp s); [by left|].
    assert (x = c) as ->; [|done]. apply (unique_names_inj all); auto.
    apply Hl. right. auto.
  - intros n t p [[<- <-]|[_ [Ht Hn]%Hsub]]%lookup_insert_Some Hp; simpl.
    + apply elem_of_cons in Hp as [->|Hp]; [apply kids_irrefl|auto].
    + apply elem_of_cons in Hp as [->|Hp]; [|by eapply mat_top].
      intros Hk. apply Hn. rewrite <- (mat_name _ _ Hm n t Ht). by apply list_elem_of_fmap_2.
  - intros t. rewrite Hforest. intros [->|Ht]%elem_of_cons; [|by eapply mat_complete].
    unfold complete. simpl. rewrite <- Hts. apply (sort_by_fmap snap cmp_siblings).
Qed.
End step.

(** The whole order: the root's tree holds every collected snapshot. *)
Lemma materialize_inv root v0 visited order l1 l2 :
  dfs_inv root v0 [] visited order -> parent root = "" -> order = l1 ++ l2 ->
  mat_inv l2 (materialize ch l2).
Proof.
  intros Hinv Hroot. revert l1. induction l2 as [|s l2 IH]; intros l1 E.
  { split; try done; by intros ? ?%elem_of_nil. }
  assert (unique_names (l1 ++ s :: l2)) as Hu by (rewrite <- E; by eapply inv_unique).
  assert (forall x, x ∈ l1 ++ s :: l2 -> x ∈ all) as Hall by (rewrite <- E; by eapply inv_order_all).
  assert (s ∈ order) as Hs by (rewrite E; apply elem_of_app; right; by left).
  assert (forall a b, a ∈ l1 -> b ∈ s :: l2 -> a <> b) as Hdisj.
  { intros a b Ha Hb ->. apply unique_names_NoDup, NoDup_app in Hu as (_ & Hd & _). by apply (Hd b). }
  assert (unique_names (s :: l2)) as Hu2.
  { unfold unique_names in *. rewrite fmap_app in Hu. by apply NoDup_app in Hu as (_ & _ & ?). }
  apply mat_inv_step; [intros x Hx; apply Hall, elem_of_app; by right|done| | |].
  - intros c Hc. destruct (inv_children _ _ _ _ _ Hinv s c Hs Hc) as [?%elem_of_nil|Hco]; [done|].
    destruct (list_elem_of_split _ _ Hco) as (k1 & k2 & Ek).
    destruct (inv_parents _ _ _ _ _ Hinv _ _ _ Ek) as [->|(p & Hp & Hcp)].
    { apply elem_of_kids in Hc as (_ & ? & ? & _). congruence. }
    assert (p = s) as ->.
    { apply (kids_parent p s c); try done; eapply inv_order_all; try done.
      rewrite Ek. apply elem_of_app. by left. }
    apply (parent_before_child order s c l1 l2 k1 k2); [|done..].
    apply unique_names_NoDup. by eapply inv_unique.
  - intros p Hp Hk. destruct (inv_parents _ _ _ _ _ Hinv _ _ _ E) as [->|(q & Hq & Hkq)].
    { apply elem_of_kids in Hk as (_ & ? & ? & _). congruence. }
    apply (Hdisj q p); [done|by right|].
    apply (kids_parent q p s); try done; apply Hall, elem_of_app; [by left|right; by right].
  - apply (IH (l1 ++ [s])). by rewrite <- app_assoc.
Qed.

(** ** The trees of all roots *)

(** What building the trees [ts] on top of the visited names [v] gives. *)
Record grown (v : gset string) (ts : list TreeNode) (v' : gset string) : Prop := {
  g_visited : v' = v ∪ list_to_set (name <$> (snap <$> flat_map nodes ts));
  g_unique : unique_names (snap <$> flat_map nodes ts);
  g_fresh : forall s, s ∈ snap <$> flat_map nodes ts -> name s ∉ v;
  g_rooted : forall s, s ∈ snap <$> flat_map nodes ts -> rooted all s;
  g_parent : forall s, s ∈ snap <$> flat_map nodes ts ->
             (parent s = "" /\ s ∈ snap <$> ts) \/
             exists p, p ∈ snap <$> flat_map nodes ts /\ s ∈ kids (name p);
  g_closed : forall s c, s ∈ snap <$> flat_map nodes ts -> c ∈ kids (name s) ->
             c ∈ snap <$> flat_map nodes ts;
  g_complete : forall u, u ∈ flat_map nodes ts -> complete u;
}.

Lemma rooted_mem s : rooted all s -> s ∈ all.
Proof. intros (l & H). by eapply lineage_mem. Qed.

Lemma grown_up_closed v ts v' : up_closed v -> grown v ts v' -> up_closed v'.
Proof.
  intros Hup G p c Hp Hc. rewrite (g_visited _ _ _ G), !elem_of_union, !elem_of_list_to_set.
  intros [Hv|Hn]; [left; by eapply Hup|right].
  apply list_elem_of_fmap in Hn as (x & En & Hx).
  assert (c = x) as <-.
  { apply (unique_names_inj all); [done| | |done].
    - by apply elem_of_kids in Hc as (? & _).
    - by apply rooted_mem, (g_rooted _ _ _ G). }
  destruct (g_parent _ _ _ G c Hx) as [[E _]|(q & Hq & Hcq)].
  { apply elem_of_kids in Hc as (_ & ? & ? & _). congruence. }
  assert (p = q) as ->; [|by apply list_elem_of_fmap_2].
  apply (kids_parent p q c); try done. by apply rooted_mem, (g_rooted _ _ _ G).
Qed.

Lemma parents_first_rooted root order l1 l2 :
  root ∈ all -> parent root = "" -> (forall s, s ∈ order -> s ∈ all) ->
  parents_first root order -> order = l1 ++ l2 -> forall s, s ∈ l1 -> rooted all s.
Proof.
  intros Hr Hp Hall Hpf. revert l2. induction l1 as [|x l1 IH] using rev_ind; intros l2 E s Hs;
    [by apply elem_of_nil in Hs|].
  rewrite <- app_assoc in E. apply elem_of_app in Hs as [Hs|Hs%list_elem_of_singleton];
    [by eapply IH|subst s].
  apply rooted_cases. split; [apply Hall; rewrite E; apply elem_of_app; right; by left|].
  destruct (Hpf _ _ _ E) as [->|(p & Hpl & Hk)]; [by left|right].
  exists p. split; [done|]. by eapply IH.
Qed.

Lemma build_node_spec root v0 :
  root ∈ all -> parent root = "" -> up_closed v0 -> name root ∉ v0 ->
  exists t v', build_node root ch v0 = Some (t, v') /\ snap t = root /\ grown v0 [t] v'.
Proof.
  intros Hr Hp Hup Hfresh. unfold build_node.
  destruct (dfs_terminates (dfs_fuel ch) ch [root] v0 []) as [[order v'] E].
  { apply pending_pushes_le. }
  assert (dfs_inv root v0 [] v' order) as Hinv.
  { eapply dfs_sound; [done|by apply dfs_inv_init| |exact E].
    intros s Hs%list_elem_of_singleton. by subst s. }
  assert (mat_inv order (materialize ch order)) as Hm by (by apply (materialize_inv root v0 v' order [] order)).
  rewrite E. simpl. pose proof Hinv as [H1 H2 H3 H4 _ H6 H7 H8].
  assert (root ∈ order) as Hro by (destruct H8 as [?%elem_of_nil|?]; done).
  assert (forall p, root ∉ kids (name p)) as Hnk.
  { intros p (_ & ? & ? & _)%elem_of_kids. congruence. }
  destruct (mat_key _ _ Hm root Hro) as (t & Ht & Hst); [auto|].
  assert (materialize ch order = {[name root := t]}) as Esing.
  { apply map_eq. intros n. destruct (decide (n = name root)) as [->|Hn].
    - by rewrite Ht, lookup_singleton_eq.
    - rewrite lookup_singleton_ne by done. apply eq_None_not_Some. intros [u Hu].
      pose proof (mat_mem _ _ _ _ Hm Hu) as Huo.
      destruct (list_elem_of_split _ _ Huo) as (k1 & k2 & Ek).
      destruct (H6 _ _ _ Ek) as [Er|(p & Hpk & Hk)].
      + apply Hn. by rewrite <- (mat_name _ _ Hm n u Hu), Er.
      + apply (mat_top _ _ Hm n u p Hu); [|done]. rewrite Ek. apply elem_of_app. by left. }
  assert (forest (materialize ch order) = flat_map nodes [t]) as Ef.
  { unfold forest. rewrite Esing, map_to_list_singleton. done. }
  pose proof (mat_perm _ _ Hm) as Hperm. rewrite Ef in Hperm.
  exists t, v'. rewrite Ht. split_and!; [done|done|]. split.
  - rewrite H1. by rewrite Hperm.
  - by rewrite Hperm.
  - intros s. rewrite Hperm. auto.
  - intros s. rewrite Hperm. eapply (parents_first_rooted root order order []); try done.
    by rewrite app_nil_r.
  - intros s. rewrite Hperm. intros Hs. destruct (list_elem_of_split _ _ Hs) as (k1 & k2 & Ek).
    destruct (H6 _ _ _ Ek) as [->|(p & Hpk & Hk)]; [left|right].
    + split; [done|]. csimpl. rewrite Hst. by left.
    + exists p. split; [|done]. rewrite Hperm, Ek. apply elem_of_app. by left.
  - intros s c. rewrite !Hperm. intros Hs Hc. by destruct (H7 s c Hs Hc) as [?%elem_of_nil|?].
  - rewrite <- Ef. apply (mat_complete _ _ Hm).
Qed.

Lemma grown_nil v : grown v [] v.
Proof. split; try (by intros ? ?%elem_of_nil); [set_solver|constructor|by intros ? ? ?%elem_of_nil]. Qed.

Lemma grown_app v ts1 v1 ts2 v2 :
  grown v ts1 v1 -> grown v1 ts2 v2 -> grown v (ts1 ++ ts2) v2.
Proof.
  intros [A1 A2 A3 A4 A5 A6 A7] [B1 B2 B3 B4 B5 B6 B7].
  split; rewrite ?flat_map_app, ?fmap_app.
  - rewrite B1, A1, list_to_set_app_L. by rewrite union_assoc_L.
  - unfold unique_names. rewrite fmap_app. apply NoDup_app. split_and!; [done| |done].
    intros n Hn (s & -> & Hs)%list_elem_of_fmap. apply (B3 s Hs). rewrite A1.
    apply elem_of_union. right. by apply elem_of_list_to_set.
  - intros s [?|Hs]%elem_of_app; [auto|]. intros Hv. apply (B3 s Hs). rewrite A1. by apply elem_of_union_l.
  - intros s [?|?]%elem_of_app; auto.
  - intros s. rewrite !elem_of_app. intros [Hs|Hs].
    + destruct (A5 s Hs) as [[? ?]|(p & ? & ?)]; [auto|].
      right. exists p. rewrite elem_of_app. auto.
    + destruct (B5 s Hs) as [[? ?]|(p & ? & ?)]; [auto|].
      right. exists p. rewrite elem_of_app. auto.
  - intros s c. rewrite !elem_of_app. intros [Hs|Hs] Hc; eauto.
  - intros u [?|?]%elem_of_app; auto.
Qed.

Lemma build_roots_spec rs v :
  (forall r, r ∈ rs -> r ∈ all /\ parent r = "" /\ name r ∉ v) -> unique_names rs -> up_closed v ->
  exists ts v', build_roots rs ch v = Some (ts, v') /\ snap <$> ts = rs /\ grown v ts v'.
Proof.
  revert v. induction rs as [|r rs IH]; intros v Hrs Hu Hup.
  { exists [], v. split_and!; [done|done|apply grown_nil]. }
  apply unique_names_cons in Hu as [Hn Hu].
  destruct (Hrs r ltac:(by left)) as (Hr & Hp & Hv).
  destruct (build_node_spec r v Hr Hp Hup Hv) as (t & v1 & E1 & Hst & G1).
  destruct (IH v1) as (ts & v2 & E2 & Hts & G2); [|done|by eapply grown_up_closed|].
  - intros r' Hr'. destruct (Hrs r' ltac:(by right)) as (Hra & Hp' & Hv'). split_and!; [done..|].
    rewrite (g_visited _ _ _ G1). intros [?|Hin]%elem_of_union; [done|].
    apply elem_of_list_to_set, list_elem_of_fmap in Hin as (x & En & Hx).
    assert (r' = x) as <-.
    { apply (unique_names_inj all); try done. by apply rooted_mem, (g_rooted _ _ _ G1). }
    destruct (g_parent _ _ _ G1 r' Hx) as [[_ Hin]|(p & _ & Hk)].
    + apply Hn. csimpl in Hin. apply list_elem_of_singleton in Hin. rewrite Hst in Hin. subst r'.
      by apply list_elem_of_fmap_2.
    + apply elem_of_kids in Hk as (_ & ? & ? & _). congruence.
  - exists (t :: ts), v2. split_and!; [simpl; rewrite E1; simpl; by rewrite E2| |].
    + csimpl. by rewrite Hst, Hts.
    + by apply (grown_app v [t] v1).
Qed.

Lemma grown_covers v ts v' s :
  grown v ts v' -> (forall r, r ∈ all -> parent r = "" -> r ∈ snap <$> ts) ->
  rooted all s -> s ∈ snap <$> flat_map nodes ts.
Proof.
  intros G Hr (l & H). induction H as [s Hs Hp|s p l Hs Hp E H IH].
  - destruct (list_elem_of_fmap snap ts s) as [(t & -> & Ht) _]; [by apply Hr|].
    apply list_elem_of_fmap_2. apply list_elem_of_In, in_flat_map. exists t.
    split; [by apply list_elem_of_In|]. destruct t. by left.
  - apply (g_closed _ _ _ G p); [done|].
    destruct (rooted_cases s) as [(_ & [?|(q & Hq & _)]) _]; [by exists (name s :: l); econstructor|done|].
    pose proof Hq as (_ & Eq & _)%elem_of_kids. congruence.
Qed.
End forest.

(** ** The snapshot tree: theorems about [assemble] and [diff_between]

    Stated for every order in which the hash maps may yield their values
    ([values], with [hash_order] saying that each value comes once). *)
Definition hash_order (values : gmap string Snapshot -> list Snapshot) : Prop :=
  forall m, values m ≡ₚ (map_to_list m).*2.

Lemma map_values_hash_order : hash_order map_values.
Proof. by intros m. Qed.

(** Everything a tree shows. *)
Definition all_nodes (t : Tree) : list TreeNode := flat_map nodes (roots t).
Definition tree_snaps (t : Tree) : list Snapshot := snap <$> all_nodes t.
Definition all_snaps (t : Tree) : list Snapshot := tree_snaps t ++ orphans t.

(** ** Induction over nested children *)
Section TreeNode_ind.
Context (P : TreeNode -> Prop) (HP : forall s cs, Forall P cs -> P (Node s cs)).
Lemma TreeNode_nested_ind t : P t.
Proof.
  revert t. fix IH 1. intros [s cs]. apply HP. induction cs as [|c cs IHcs]; constructor; [apply IH|exact IHcs].
Qed.
End TreeNode_ind.

Lemma count_nodes t : count t = length (nodes t).
Proof.
  induction t as [s cs IH] using TreeNode_nested_ind. simpl. f_equal.
  induction IH as [|c cs Hc _ IH]; simpl; [done|]. by rewrite length_app, Hc, IH.
Qed.

Lemma total_count_all_snaps t : total_count t = length (all_snaps t).
Proof.
  unfold total_count, all_snaps, tree_snaps, all_nodes. rewrite length_app, length_fmap. f_equal.
  induction (roots t) as [|r l IH]; simpl; [done|]. by rewrite length_app, count_nodes, IH.
Qed.

Definition has_name (n : string) (u : TreeNode) : bool := bool_decide (name (snap u) = n).

Lemma find_app {A} (f : A -> bool) l1 l2 :
  List.find f (l1 ++ l2) = match List.find f l1 with Some x => Some x | None => List.find f l2 end.
Proof. induction l1 as [|x l1 IH]; simpl; [done|]. by destruct (f x). Qed.

Lemma find_in_nodes t n : find_in t n = List.find (has_name n) (nodes t).
Proof.
  induction t as [s cs IH] using TreeNode_nested_ind. simpl. unfold has_name at 1. simpl.
  case_bool_decide; [done|]. induction IH as [|c cs Hc _ IH]; simpl; [done|].
  rewrite find_app, <- Hc. destruct (find_in c n); [done|]. apply IH.
Qed.

Lemma find_all_nodes t n : find t n = List.find (has_name n) (all_nodes t).
Proof.
  unfold find, all_nodes. induction (roots t) as [|r l IH]; simpl; [done|].
  rewrite find_app, <- find_in_nodes. by destruct (find_in r n).
Qed.

Definition insert_node (m : gmap string TreeNode) (u : TreeNode) : gmap string TreeNode :=
  <[name (snap u) := u]> m.
Lemma collect_into_nodes t m : collect_into t m = foldl insert_node m (nodes t).
Proof.
  revert m. induction t as [s cs IH] using TreeNode_nested_ind. intros m. simpl.
  unfold insert_node at 2. simpl. generalize (<[name s := Node s cs]> m). intros m'.
  revert m'. induction IH as [|c cs Hc _ IH]; intros m'; simpl; [done|].
  by rewrite foldl_app, <- Hc, IH.
Qed.

Lemma collect_nodes t : collect t = foldl insert_node ∅ (all_nodes t).
Proof.
  unfold collect, all_nodes. generalize (∅ : gmap string TreeNode).
  induction (roots t) as [|r l IH]; intros m; simpl; [done|].
  by rewrite foldl_app, <- collect_into_nodes, IH.
Qed.

Lemma foldl_insert_lookup l m n u :
  unique_names (snap <$> l) ->
  foldl insert_node m l !! n = Some u <->
  (u ∈ l /\ name (snap u) = n) \/ (n ∉ name <$> (snap <$> l) /\ m !! n = Some u).
Proof.
  revert m. induction l as [|x l IH]; intros m Hu; [simpl; set_solver|].
  apply unique_names_cons in Hu as [Hx Hu]. simpl. rewrite IH by done. unfold insert_node.
  rewrite lookup_insert_Some. csimpl. rewrite elem_of_cons, not_elem_of_cons.
  destruct (decide (name (snap x) = n)) as [<-|]; naive_solver.
Qed.

Lemma collect_lookup t n u :
  unique_names (tree_snaps t) ->
  collect t !! n = Some u <-> u ∈ all_nodes t /\ name (snap u) = n.
Proof.
  intros Hu. rewrite collect_nodes, foldl_insert_lookup by done. rewrite lookup_empty. naive_solver.
Qed.

Lemma find_lookup t n u :
  unique_names (tree_snaps t) -> u ∈ all_nodes t -> name (snap u) = n -> find t n = Some u.
Proof.
  intros Hu Hin Hn. rewrite find_all_nodes. unfold tree_snaps in Hu.
  revert Hu Hin. generalize (all_nodes t). induction l as [|x l IH]; intros Hu Hin; [by apply elem_of_nil in Hin|].
  apply unique_names_cons in Hu as [Hx Hu]. simpl. unfold has_name at 1. case_bool_decide as E.
  - apply elem_of_cons in Hin as [->|Hin]; [done|]. exfalso. apply Hx. rewrite E, <- Hn.
    by do 2 apply list_elem_of_fmap_2.
  - apply IH; [done|]. by apply elem_of_cons in Hin as [->|?].
Qed.

(** ** Assembly *)
Section assemble.
Context (values : gmap string Snapshot -> list Snapshot) (Hvalues : hash_order values).
Context (snaps : list Snapshot).
Local Notation idx := (index_by_name snaps).
Local Notation sorted := (sort_by cmp_time_name (values idx)).
Local Notation part := (partition idx sorted).

Lemma elem_of_values s : s ∈ values idx <-> representative snaps s.
Proof.
  rewrite (Hvalues idx), list_elem_of_fmap. split.
  - intros ([n s'] & -> & (_ & H)%elem_of_map_to_list%index_by_name_Some). done.
  - intros H. exists (name s, s). split; [done|]. by apply elem_of_map_to_list, index_by_name_Some.
Qed.

Lemma values_unique : unique_names (values idx).
Proof.
  rewrite (Hvalues idx). unfold unique_names. rewrite <- list_fmap_compose.
  rewrite (list_fmap_ext (name ∘ snd) fst); [apply NoDup_fst_map_to_list|].
  intros i [n s] H%list_elem_of_lookup_2%elem_of_map_to_list%index_by_name_Some. by destruct H.
Qed.

Lemma sorted_unique : unique_names sorted.
Proof. rewrite sort_by_Permutation. apply values_unique. Qed.

Lemma sorted_index n s : idx !! n = Some s <-> s ∈ sorted /\ name s = n.
Proof. rewrite elem_of_sort_by, elem_of_values, index_by_name_Some. naive_solver. Qed.

Lemma sorted_kids n : default [] (children_of part !! n) = filter (child_of idx n) sorted.
Proof. apply partition_children. Qed.

Lemma kept_same_rooted s :
  s ∈ p_orphans part -> ~ rooted sorted s.
Proof.
  rewrite partition_orphans, list_elem_of_filter. intros [[Hp Ho] Hs] Hr.
  apply (rooted_cases idx sorted (children_of part) sorted_unique sorted_index sorted_kids)
    in Hr as (_ & [?|(p & Hk & _)]); [done|].
  apply (elem_of_kids idx sorted (children_of part) sorted_index sorted_kids)
    in Hk as (_ & E & _ & Hne & (q & Hq & Eq)).
  destruct Ho as [E'|Hnone]; [congruence|].
  assert (idx !! parent s = Some q) as Hq' by (apply sorted_index; split; congruence). congruence.
Qed.

Lemma sorted_same_name s x : s ∈ sorted -> x ∈ sorted -> name s = name x -> s = x.
Proof. apply unique_names_inj, sorted_unique. Qed.

Lemma elem_of_part_roots r : r ∈ sort_by cmp_siblings (p_roots part) <-> r ∈ sorted /\ parent r = "".
Proof. rewrite elem_of_sort_by, partition_roots, list_elem_of_filter. naive_solver. Qed.

Lemma part_orphans_sorted s : s ∈ p_orphans part -> s ∈ sorted.
Proof. rewrite partition_orphans. by intros [_ ?]%list_elem_of_filter. Qed.

Definition orphan_names : gset string := list_to_set (name <$> p_orphans part).
Definition cycle_members (v : gset string) : list Snapshot :=
  sort_by cmp_name (filter (fun s => name s ∉ v /\ name s ∉ orphan_names) (values idx)).

Lemma elem_of_orphan_names s : s ∈ sorted -> name s ∈ orphan_names <-> s ∈ p_orphans part.
Proof.
  intros Hs. unfold orphan_names. rewrite elem_of_list_to_set. split; [|apply list_elem_of_fmap_2].
  intros (x & En & Hx)%list_elem_of_fmap.
  by rewrite (sorted_same_name s x Hs (part_orphans_sorted x Hx) En).
Qed.

Section grown.
Context (ts : list TreeNode) (v : gset string).
Context (Hts : snap <$> ts = sort_by cmp_siblings (p_roots part)).
Context (G : grown sorted (children_of part) ∅ ts v).

Lemma grown_tree s : s ∈ snap <$> flat_map nodes ts <-> rooted sorted s.
Proof.
  split; [apply (g_rooted _ _ _ _ _ G)|].
  apply (grown_covers idx sorted (children_of part) sorted_unique sorted_index sorted_kids ∅ ts v s G).
  intros r Hr Hp. rewrite Hts. by apply elem_of_part_roots.
Qed.

Lemma grown_visited s : s ∈ sorted -> name s ∈ v <-> rooted sorted s.
Proof.
  intros Hs. rewrite (g_visited _ _ _ _ _ G), <- grown_tree. split.
  - intros [?|Hn]%elem_of_union; [set_solver|].
    apply elem_of_list_to_set, list_elem_of_fmap in Hn as (x & En & Hx).
    assert (x ∈ sorted) as Hxs by (by eapply rooted_mem, grown_tree).
    by rewrite (sorted_same_name s x Hs Hxs En).
  - intros H. apply elem_of_union_r, elem_of_list_to_set. by apply list_elem_of_fmap_2.
Qed.

Lemma elem_of_cycle_members s :
  s ∈ cycle_members v <-> s ∈ sorted /\ ~ rooted sorted s /\ s ∉ p_orphans part.
Proof.
  unfold cycle_members. rewrite elem_of_sort_by, list_elem_of_filter.
  assert (s ∈ values idx <-> s ∈ sorted) as -> by (by rewrite elem_of_sort_by).
  split.
  - intros [[H1 H2] Hs]. by rewrite <- grown_visited, <- elem_of_orphan_names.
  - intros (Hs & H1 & H2). by rewrite grown_visited, elem_of_orphan_names.
Qed.

Lemma grown_orphans s : s ∈ p_orphans part ++ cycle_members v <-> s ∈ sorted /\ ~ rooted sorted s.
Proof.
  rewrite elem_of_app, elem_of_cycle_members. split.
  - intros [Ho|(? & ? & _)]; [|done]. split; [by apply part_orphans_sorted|by apply kept_same_rooted].
  - intros [Hs Hr]. destruct (decide (s ∈ p_orphans part)); auto.
Qed.

Lemma orphans_NoDup : NoDup (p_orphans part ++ cycle_members v).
Proof.
  apply NoDup_app. split_and!.
  - rewrite partition_orphans. apply NoDup_filter, unique_names_NoDup, sorted_unique.
  - intros s Hs (_ & _ & ?)%elem_of_cycle_members. done.
  - unfold cycle_members. rewrite sort_by_Permutation. apply NoDup_filter, unique_names_NoDup, values_unique.
Qed.

Lemma grown_all_unique :
  unique_names ((snap <$> flat_map nodes ts) ++ p_orphans part ++ cycle_members v).
Proof.
  apply NoDup_fmap_2_strong.
  - intros x y Hx Hy. apply sorted_same_name;
      [apply elem_of_app in Hx as [H|H]|apply elem_of_app in Hy as [H|H]];
      try (by eapply rooted_mem, grown_tree); by apply grown_orphans.
  - apply NoDup_app. split_and!; [apply unique_names_NoDup, (g_unique _ _ _ _ _ G)| |apply orphans_NoDup].
    intros s Hs%grown_tree Ho%grown_orphans. by destruct Ho.
Qed.
End grown.

(** The facts about an assembled tree that the theorems are read off. *)
Record assembled (t : Tree) : Prop := {
  a_roots : snap <$> roots t = sort_by cmp_siblings (p_roots part);
  a_complete : forall u, u ∈ all_nodes t -> complete (children_of part) u;
  a_tree : forall s, s ∈ tree_snaps t <-> rooted sorted s;
  a_orphans : forall s, s ∈ orphans t <-> s ∈ sorted /\ ~ rooted sorted s;
  a_unique : unique_names (all_snaps t);
}.

Lemma assemble_assembled : exists t, assemble values snaps = Some t /\ assembled t.
Proof.
  unfold assemble. cbv zeta.
  destruct (build_roots_spec idx sorted (children_of part) sorted_unique sorted_index sorted_kids
              (sort_by cmp_siblings (p_roots part)) ∅) as (ts & v & E & Hts & G).
  - intros r [? ?]%elem_of_part_roots. split_and!; [done|done|set_solver].
  - rewrite sort_by_Permutation, partition_roots.
    eapply sublist_NoDup; [apply sorted_unique|]. apply fmap_sublist, sublist_filter.
  - intros p c _ _ H. set_solver.
  - rewrite E. eexists. split; [reflexivity|]. split; simpl; [done|..].
    + apply (g_complete _ _ _ _ _ G).
    + by apply (grown_tree ts v).
    + by apply (grown_orphans ts v).
    + by apply (grown_all_unique ts v).
Qed.
End assemble.

Lemma lineage_ext all all' s l :
  (forall x, x ∈ all -> x ∈ all') -> lineage all s l -> lineage all' s l.
Proof. intros H. induction 1; econstructor; eauto. Qed.

Section assembled.
Context (values : gmap string Snapshot -> list Snapshot) (Hvalues : hash_order values).
Context (snaps : list Snapshot) (t : Tree) (Ht : assembled values snaps t).
Local Notation idx := (index_by_name snaps).
Local Notation sorted := (sort_by cmp_time_name (values idx)).
Local Notation part := (partition idx sorted).

Lemma elem_of_sorted s : s ∈ sorted <-> representative snaps s.
Proof. rewrite elem_of_sort_by. by apply elem_of_values. Qed.

Lemma elem_of_all_snaps s : s ∈ all_snaps t <-> representative snaps s.
Proof.
  unfold all_snaps. rewrite elem_of_app, <- elem_of_sorted, (a_orphans _ _ _ Ht). split.
  - intros [Hr%(a_tree _ _ _ Ht)|[? _]]; [by eapply rooted_mem|done].
  - intros Hs. destruct (decide (s ∈ tree_snaps t)) as [|Hn]; [by left|].
    right. by rewrite <- (a_tree _ _ _ Ht).
Qed.

Lemma all_snaps_sorted s : s ∈ all_snaps t <-> s ∈ sorted.
Proof. by rewrite elem_of_all_snaps, elem_of_sorted. Qed.

Lemma rooted_all_snaps s : rooted (all_snaps t) s <-> rooted sorted s.
Proof.
  split; intros (l & H); exists l; (eapply lineage_ext; [|exact H]); intros x; by rewrite all_snaps_sorted.
Qed.

Lemma elem_of_roots r : r ∈ snap <$> roots t <-> r ∈ all_snaps t /\ parent r = "".
Proof. by rewrite (a_roots _ _ _ Ht), elem_of_part_roots, all_snaps_sorted. Qed.

Lemma elem_of_children u c :
  u ∈ all_nodes t ->
  c ∈ snap <$> children u <-> c ∈ all_snaps t /\ parent c = name (snap u) /\ parent c <> "".
Proof.
  intros Hu. rewrite (a_complete _ _ _ Ht u Hu), elem_of_sort_by, all_snaps_sorted.
  rewrite (elem_of_kids idx sorted (children_of part) (sorted_index values Hvalues snaps) (sorted_kids values snaps)).
  assert (snap u ∈ tree_snaps t) as Hr%(a_tree _ _ _ Ht) by (by apply list_elem_of_fmap_2).
  pose proof (rooted_mem _ _ Hr) as Hus.
  split; [intros (? & ? & ? & _); split_and!; [done|done|congruence]|].
  intros (Hc & E & Hne). split_and!; [done|done|congruence| |by exists (snap u)].
  intros En. assert (c = snap u) as -> by (by eapply sorted_same_name).
  apply (rooted_cases idx sorted (children_of part) (sorted_unique values Hvalues snaps)
           (sorted_index values Hvalues snaps) (sorted_kids values snaps))
    in Hr as (_ & [?|(p & Hk & _)]); [done|].
  apply (elem_of_kids idx sorted (children_of part) (sorted_index values Hvalues snaps)
           (sorted_kids values snaps)) in Hk as (_ & ? & _ & ? & _).
  congruence.
Qed.

Lemma tree_unique : unique_names (tree_snaps t).
Proof.
  pose proof (a_unique _ _ _ Ht) as H. unfold unique_names, all_snaps in *.
  rewrite fmap_app in H. by apply NoDup_app in H as (? & _).
Qed.

(** The names above a snapshot of the tree are all in the tree. *)
Lemma lineage_tree s l : lineage sorted s l -> lineage (tree_snaps t) s l.
Proof.
  intros H. induction H as [s Hs Hp|s p l Hs Hp E H IH].
  - constructor; [|done]. apply (a_tree _ _ _ Ht). exists [name s]. by constructor.
  - econstructor; try done. apply (a_tree _ _ _ Ht). exists (name s :: l). by econstructor.
Qed.

Lemma climb_lineage s l fuel :
  lineage (tree_snaps t) s l -> length l <= fuel ->
  name s :: climb fuel (collect t) (name s) = l.
Proof.
  intros H. revert fuel. induction H as [s Hs Hp|s p l Hs Hp E H IH]; intros fuel Hf;
    (destruct fuel as [|fuel]; [simpl in Hf; lia|]).
  all: pose proof Hs as (u & Es & Hu)%list_elem_of_fmap.
  all: assert (collect t !! name s = Some u) as Hc
      by (apply collect_lookup; [apply tree_unique|]; split; [done|by rewrite Es]).
  all: cbn [climb]; rewrite Hc, <- Es; unfold is_empty.
  - by rewrite Hp, bool_decide_true.
  - rewrite bool_decide_false by done. rewrite <- E. f_equal. apply IH. simpl in Hf. lia.
Qed.

Lemma collect_size : size (collect t) = length (tree_snaps t).
Proof.
  rewrite <- size_dom, <- (length_fmap name), <- (size_list_to_set (C := gset string)) by apply tree_unique.
  f_equal. apply set_eq. intros n. rewrite elem_of_dom, elem_of_list_to_set. split.
  - intros [u (Hu & <-)%collect_lookup]; [|apply tree_unique]. by do 2 apply list_elem_of_fmap_2.
  - intros (s & -> & (u & -> & Hu)%list_elem_of_fmap)%list_elem_of_fmap. exists u.
    apply collect_lookup; [apply tree_unique|done].
Qed.

(** [ancestors] gives the whole lineage: its fuel is enough. *)
Lemma assembled_lineage s l : lineage sorted s l -> ancestors t (name s) = Some l.
Proof.
  intros H%lineage_tree. unfold ancestors.
  pose proof (lineage_mem _ _ _ H) as (u & Es & Hu)%list_elem_of_fmap.
  rewrite bool_decide_true.
  - f_equal. apply climb_lineage; [done|]. rewrite collect_size. eapply lineage_length; [apply tree_unique|done].
  - exists u. apply collect_lookup; [apply tree_unique|]. split; [done|by rewrite Es].
Qed.

Lemma ancestors_None n : ancestors t n = None <-> n ∉ name <$> tree_snaps t.
Proof.
  unfold ancestors. case_bool_decide as H; split; try done.
  - intros Hn. exfalso. apply Hn. destruct H as [u (Hu & <-)%collect_lookup]; [|apply tree_unique].
    by do 2 apply list_elem_of_fmap_2.
  - intros _ (s & -> & (u & -> & Hu)%list_elem_of_fmap)%list_elem_of_fmap. apply H. exists u.
    apply collect_lookup; [apply tree_unique|done].
Qed.
End assembled.

(** ** The claims *)

(** Whatever list Proxmox returns (duplicate names, missing parents and
    parent cycles included) and in whatever order the hash maps iterate, [assemble]
    ends, shows every distinct name exactly once, as a tree node or as an orphan, and
    keeps for each name the least of its entries. *)
Lemma assemble_shows_each_name_once values snaps :
  hash_order values ->
  exists t, assemble values snaps = Some t /\
    unique_names (all_snaps t) /\
    (forall n, n ∈ name <$> all_snaps t <-> n ∈ name <$> snaps) /\
    (forall s, s ∈ all_snaps t <-> representative snaps s) /\
    total_count t = size (list_to_set (name <$> snaps) : gset string).
Proof.
  intros Hv. destruct (assemble_assembled values Hv snaps) as (t & E & Ht).
  assert (Hn : forall n, n ∈ name <$> all_snaps t <-> n ∈ name <$> snaps).
  { intros n. rewrite <- (index_by_name_keys snaps), list_elem_of_fmap. split.
    - intros (s & -> & Hs). apply (elem_of_all_snaps values Hv snaps t Ht) in Hs.
      exists s. by apply index_by_name_Some.
    - intros [s (<- & Hs)%index_by_name_Some]. exists s. split; [done|]. by apply (elem_of_all_snaps values Hv snaps t Ht). }
  exists t. split_and!; [done|apply (a_unique _ _ _ Ht)|done|apply (elem_of_all_snaps values Hv snaps t Ht)|].
  rewrite total_count_all_snaps, <- (length_fmap name),
    <- (size_list_to_set (C := gset string)) by apply (a_unique _ _ _ Ht).
  f_equal. apply set_eq. intros n. by rewrite !elem_of_list_to_set.
Qed.

Lemma assemble_shows_each_name_once_witness :
  exists t, assemble map_values (test_snap "b" "" 9 :: branching ++ branching) = Some t /\ total_count t = 9.
Proof.
  destruct (assemble_shows_each_name_once map_values (test_snap "b" "" 9 :: branching ++ branching)
              map_values_hash_order) as (t & E & _ & _ & _ & Hc).
  exists t. split; [exact E|]. rewrite Hc. vm_compute. reflexivity.
Defined.

(** The forest [assemble] builds is the one the parent links describe: the
    roots are the snapshots without a parent; the children of a node are exactly
    the snapshots that name it as parent, oldest first and [current] last; and a snapshot
    is an orphan exactly when following parent links from it never reaches a root. *)
Lemma assemble_follows_parent_links values snaps :
  hash_order values ->
  exists t, assemble values snaps = Some t /\
    (forall s, s ∈ snap <$> roots t <-> s ∈ all_snaps t /\ parent s = "") /\
    (forall u, u ∈ all_nodes t ->
       StronglySorted (cmp_le cmp_siblings) (snap <$> children u) /\
       forall c, c ∈ snap <$> children u <->
                 c ∈ all_snaps t /\ parent c = name (snap u) /\ parent c <> "") /\
    (forall s, s ∈ orphans t <-> s ∈ all_snaps t /\ ~ exists l, lineage (all_snaps t) s l).
Proof.
  intros Hv. destruct (assemble_assembled values Hv snaps) as (t & E & Ht).
  exists t. split_and!; [done|apply (elem_of_roots values Hv snaps t Ht)| |].
  - intros u Hu. split; [|intros c; by apply (elem_of_children values Hv snaps t Ht)].
    rewrite (a_complete _ _ _ Ht u Hu). apply sort_by_sorted, _.
  - intros s. change (exists l, lineage (all_snaps t) s l) with (rooted (all_snaps t) s).
    rewrite (rooted_all_snaps values Hv snaps t Ht), (all_snaps_sorted values Hv snaps t Ht).
    apply (a_orphans _ _ _ Ht).
Qed.

Lemma assemble_follows_parent_links_witness :
  exists t, assemble map_values branching = Some t /\
    test_snap "X" "Y" 1 ∈ all_snaps t /\ ~ exists l, lineage (all_snaps t) (test_snap "X" "Y" 1) l.
Proof.
  destruct (assemble_follows_parent_links map_values branching map_values_hash_order)
    as (t & E & _ & _ & H).
  exists t. split; [exact E|]. apply H. rewrite assemble_branching in E. injection E as <-.
  right. left.
Defined.

(** The tree depends neither on the order in which Proxmox lists the
    snapshots nor on the iteration order of the hash maps. *)
Lemma assemble_order_independent values values' snaps snaps' :
  hash_order values -> hash_order values' -> snaps ≡ₚ snaps' ->
  assemble values snaps = assemble values' snaps'.
Proof.
  intros Hv Hv' Hp. unfold assemble. rewrite (index_by_name_Permutation _ _ Hp).
  set (m := index_by_name snaps').
  assert (values m ≡ₚ values' m) as Hm by (by rewrite (Hv m), (Hv' m)).
  pose proof (values_unique values Hv snaps') as Hu. fold m in Hu.
  rewrite (sort_by_unique cmp_time_name (values m) (values' m)); [|intros x y Hx Hy E|done].
  - destruct (build_roots _ _ _) as [[ts v]|]; simpl; [|done]. do 3 f_equal.
    apply sort_by_unique; [apply _| |by rewrite Hm].
    intros x y [_ Hx]%list_elem_of_filter [_ Hy]%list_elem_of_filter E%String.compare_eq_iff.
    by apply (unique_names_inj (values m)).
  - apply (unique_names_inj (values m)); [done..|]. by apply cmp_time_name_eq.
Qed.

Lemma assemble_order_independent_witness :
  assemble map_values (reverse branching) = assemble (fun m => reverse (map_values m)) branching.
Proof.
  apply (assemble_order_independent map_values (fun m => reverse (map_values m))).
  - exact map_values_hash_order.
  - intros m. apply reverse_Permutation.
  - apply reverse_Permutation.
Defined.

(** ** Lineage differences *)
Lemma find_first {A} (f : A -> bool) l c :
  List.find f l = Some c -> exists l1 l2, l = l1 ++ c :: l2 /\ f c = true /\ forall x, x ∈ l1 -> f x = false.
Proof.
  induction l as [|x l IH]; [done|]. simpl. destruct (f x) eqn:E.
  - intros [= ->]. exists [], l. split_and!; [done..|]. by intros ? ?%elem_of_nil.
  - intros (l1 & l2 & -> & ? & H)%IH. exists (x :: l1), l2. split_and!; [done..|].
    intros y [->|?]%elem_of_cons; auto.
Qed.

Lemma take_while_app {A} (f : A -> bool) l1 c l2 :
  (forall x, x ∈ l1 -> f x = true) -> f c = false -> take_while f (l1 ++ c :: l2) = l1.
Proof.
  intros H Hc. induction l1 as [|x l1 IH]; simpl; [by rewrite Hc|].
  rewrite H by (by left). f_equal. apply IH. intros y Hy. apply H. by right.
Qed.

Lemma take_while_all {A} (f : A -> bool) l : (forall x, x ∈ l -> f x = true) -> take_while f l = l.
Proof.
  intros H. induction l as [|x l IH]; simpl; [done|]. rewrite H by (by left).
  f_equal. apply IH. intros y Hy. apply H. by right.
Qed.

(** Dropping the starting name from the front of a lineage. *)
Lemma filter_ne_head {A} `{!EqDecision A} (x : A) l k :
  NoDup (l ++ k) -> head (l ++ k) = Some x -> filter (fun n => n <> x) l = tail l.
Proof.
  destruct l as [|y l]; [done|]. simpl. intros [Hn _]%NoDup_cons [= ->].
  rewrite filter_cons, decide_False by auto.
  assert (x ∉ l) as Hl by (intros ?; apply Hn, elem_of_app; by left). clear Hn.
  induction l as [|z l IH]; [done|]. rewrite not_elem_of_cons in Hl. destruct Hl as [? Hl].
  rewrite filter_cons, decide_True by auto. simpl. f_equal. by apply IH.
Qed.

Section lineages.
Context (all : list Snapshot) (Huniq : unique_names all).

Lemma lineage_head s l : lineage all s l -> head l = Some (name s).
Proof. by destruct 1. Qed.

(** Two lineages through the same name agree from there on. *)
Lemma lineage_common s s' l1 l2 k1 k2 n :
  lineage all s (l1 ++ n :: l2) -> lineage all s' (k1 ++ n :: k2) -> l2 = k2.
Proof.
  assert (forall s l1 l2, lineage all s (l1 ++ n :: l2) -> exists p, name p = n /\ lineage all p (n :: l2)) as H.
  { clear s s' l1 l2 k1 k2. intros s l1 l2 Hl.
    destruct (lineage_split all s (l1 ++ n :: l2) n Hl) as (p & a & b & Ep & Hp & Eab).
    { apply elem_of_app. right. by left. }
    exists p. split; [done|]. pose proof (lineage_head _ _ Hp) as Hh.
    destruct b as [|x b]; [done|]. simpl in Hh. injection Hh as ->. rewrite Ep in *.
    pose proof (lineage_NoDup all Huniq _ _ Hl) as Hnd.
    assert (l1 = a /\ l2 = b) as [_ ->]; [|done].
    revert a Eab Hnd. clear -Ep. induction l1 as [|y l1 IH]; intros [|z a] E Hn; simplify_eq/=; try done.
    - apply NoDup_cons in Hn as [Hn _]. set_solver.
    - apply NoDup_cons in Hn as [Hn _]. set_solver.
    - apply NoDup_cons in Hn as [_ Hn]. by destruct (IH a) as [-> ->]. }
  intros (p & Ep & Hp)%H (q & Eq & Hq)%H.
  assert (p = q) as -> by (apply (unique_names_inj all); eauto using lineage_mem; congruence).
  pose proof (lineage_functional all Huniq _ _ _ Hp Hq). by simplify_eq.
Qed.
End lineages.

(** What a difference between the snapshots with lineages [la] and [lb] says:
    the lineages part at [common_ancestor] and the two paths are what lies
    strictly between; or they never meet. *)
Definition diff_describes (la lb : list string) (d : DiffSummary) : Prop :=
  (exists pa pb rest,
     la = pa ++ common_ancestor d :: rest /\ lb = pb ++ common_ancestor d :: rest /\
     (forall n, n ∈ pa -> n ∉ lb) /\ (forall n, n ∈ pb -> n ∉ la) /\
     forward_path d = tail pa /\ reverse_path d = tail pb)
  \/ (common_ancestor d = "" /\ (forall n, n ∈ la -> n ∉ lb) /\
      forward_path d = tail la /\ reverse_path d = tail lb).

Lemma diff_of_lineages all a b la lb dt :
  unique_names all -> "" ∉ name <$> all -> lineage all a la -> lineage all b lb ->
  let common := default "" (List.find (fun n => bool_decide (n ∈ lb)) la) in
  let before_common := take_while (fun n => bool_decide (n <> common)) in
  diff_describes la lb
    (mkDiffSummary common (filter (fun n => n <> name a) (before_common la))
       (filter (fun n => n <> name b) (before_common lb)) dt).
Proof.
  intros Hu Hne Ha Hb. cbv zeta.
  pose proof (lineage_NoDup all Hu _ _ Ha) as Na. pose proof (lineage_NoDup all Hu _ _ Hb) as Nb.
  pose proof (lineage_head all _ _ Ha) as Ea. pose proof (lineage_head all _ _ Hb) as Eb.
  destruct (List.find _ la) as [c|] eqn:E; simpl.
  - left. apply find_first in E as (pa & rest & -> & Hc%bool_decide_eq_true & Hpa).
    destruct (list_elem_of_split _ _ Hc) as (pb & rest' & ->).
    assert (rest = rest') as <- by (by eapply lineage_common).
    assert (forall n, n ∈ pa -> n ∉ pb ++ c :: rest) as Hpa'.
    { intros n Hn%Hpa. by apply bool_decide_eq_false in Hn. }
    assert (forall l, NoDup (l ++ c :: rest) ->
              take_while (fun n => bool_decide (n <> c)) (l ++ c :: rest) = l) as Htw.
    { intros l Hn. apply take_while_app; [|by apply bool_decide_eq_false; auto].
      intros x Hx. apply bool_decide_eq_true. intros ->. apply NoDup_app in Hn as (_ & Hn & _).
      apply (Hn c Hx). by left. }
    exists pa, pb, rest. split_and!; [done..| |simpl|simpl].
    + intros n Hn [?|Hn']%elem_of_app; [by eapply Hpa'; [|apply elem_of_app; left]|].
      by apply NoDup_app in Nb as (_ & Nb & _); apply (Nb n).
    + rewrite Htw by done. by eapply filter_ne_head.
    + rewrite Htw by done. by eapply filter_ne_head.
  - right. assert (forall s l, lineage all s l ->
              take_while (fun n => bool_decide (n <> "")) l = l) as Htw.
    { intros s l Hl. apply take_while_all. intros x Hx. apply bool_decide_eq_true. intros ->.
      apply Hne. by eapply lineage_names. }
    simpl. rewrite (Htw _ _ Ha), (Htw _ _ Hb). split_and!; [done| | |].
    + intros n Hn%list_elem_of_In. pose proof (List.find_none _ _ E n Hn) as Hb'.
      by apply bool_decide_eq_false in Hb'.
    + apply (filter_ne_head _ la []); by rewrite app_nil_r.
    + apply (filter_ne_head _ lb []); by rewrite app_nil_r.
Qed.

Definition abs_distance (a b : N) : N := N.max a b - N.min a b.

(** On an assembled tree, [diff_between] answers for every two snapshots of
    the tree, walks both lineages to their roots, names their closest common ancestor (or
    says there is none), lists on each side exactly the snapshots strictly between,
    and gives the distance of their times; it answers nothing only for a name that
    is not in the tree. *)
Lemma diff_between_lineages values snaps t :
  hash_order values -> "" ∉ name <$> snaps -> assemble values snaps = Some t ->
  (forall a b, a ∈ tree_snaps t -> b ∈ tree_snaps t ->
     exists la lb d,
       lineage (tree_snaps t) a la /\ lineage (tree_snaps t) b lb /\
       diff_between t (name a) (name b) = Some d /\ diff_describes la lb d /\
       time_delta_secs d = abs_distance (snaptime a) (snaptime b)) /\
  (forall n m, diff_between t n m = None <-> n ∉ name <$> tree_snaps t \/ m ∉ name <$> tree_snaps t).
Proof.
  intros Hv Hne E. destruct (assemble_assembled values Hv snaps) as (t' & E' & Ht).
  rewrite E in E'. injection E' as <-.
  pose proof (tree_unique values snaps t Ht) as Hu. split.
  - intros a b Ha Hb.
    pose proof Ha as (la & Hla)%(a_tree _ _ _ Ht). pose proof Hb as (lb & Hlb)%(a_tree _ _ _ Ht).
    pose proof (lineage_tree values snaps t Ht _ _ Hla) as Ta.
    pose proof (lineage_tree values snaps t Ht _ _ Hlb) as Tb.
    exists la, lb. unfold diff_between.
    rewrite (assembled_lineage values snaps t Ht _ _ Hla), (assembled_lineage values snaps t Ht _ _ Hlb).
    simpl. eexists. split_and!; [done|done|reflexivity| |].
    + apply (diff_of_lineages (tree_snaps t)); try done.
      intros (s & En & Hs)%list_elem_of_fmap. apply Hne. rewrite En. apply list_elem_of_fmap_2.
      apply (elem_of_all_snaps values Hv snaps t Ht). unfold all_snaps. apply elem_of_app. by left.
    + apply list_elem_of_fmap in Ha as (u & -> & Hua). apply list_elem_of_fmap in Hb as (w & -> & Hwb).
      cbn [time_delta_secs]. rewrite (find_lookup t _ u Hu Hua eq_refl), (find_lookup t _ w Hu Hwb eq_refl).
      simpl. unfold abs_diff, abs_distance. destruct (N.ltb_spec (snaptime (snap u)) (snaptime (snap w))); lia.
  - intros n m. unfold diff_between. rewrite <- !(ancestors_None values snaps t Ht).
    destruct (ancestors t n); simpl; [|naive_solver]. destruct (ancestors t m); simpl; naive_solver.
Qed.

Lemma diff_between_lineages_witness :
  exists t d, assemble map_values branching = Some t /\
    diff_between t "current" "C" = Some d /\ common_ancestor d = "A" /\
    diff_between t "current" "lost" = None.
Proof.
  destruct (assemble map_values branching) as [t|] eqn:E; [|by vm_compute in E].
  destruct (diff_between_lineages map_values branching t map_values_hash_order ltac:(by apply (bool_decide_unpack _); vm_compute) E)
    as [H1 H2].
  rewrite assemble_branching in E. injection E as <-.
  destruct (H1 (test_snap "current" "B" 0) (test_snap "C" "A" 250)) as (la & lb & d & _ & _ & Hd & _).
  - by apply (bool_decide_unpack _); vm_compute.
  - by apply (bool_decide_unpack _); vm_compute.
  - eexists _, d. split_and!; [reflexivity|exact Hd| |].
    + vm_compute in Hd. by injection Hd as <-.
    + apply H2. right. by apply (bool_decide_unpack _); vm_compute.
Defined.
