(* ===== verification/F64.v ===== *)
(** * IEEE-754 doubles

    Rust's [f64] as the specification floats of the Standard Library at
    precision 53 and exponent 1024: every operation the components use is
    computed exactly as the hardware rounds it, so that comparisons with
    thresholds come out as in the program. *)

From Stdlib Require Import SpecFloat.
From S2P Require Import Prelude.

Definition f64 : Type := spec_float.
Definition f64_prec : Z := 53.
Definition f64_emax : Z := 1024.

(** [n as f64]: rounded to nearest, ties to even. *)
Definition f64_of_Z (z : Z) : f64 := binary_normalize f64_prec f64_emax z 0 false.
Definition f64_of_N (n : N) : f64 := f64_of_Z (Z.of_N n).

Definition f64_add : f64 -> f64 -> f64 := SFadd f64_prec f64_emax.
Definition f64_sub : f64 -> f64 -> f64 := SFsub f64_prec f64_emax.
Definition f64_mul : f64 -> f64 -> f64 := SFmul f64_prec f64_emax.
Definition f64_div : f64 -> f64 -> f64 := SFdiv f64_prec f64_emax.
Definition f64_sqrt : f64 -> f64 := SFsqrt f64_prec f64_emax.

Definition f64_ltb (a b : f64) : bool := SFltb a b.
Definition f64_leb (a b : f64) : bool := SFleb a b.
Definition f64_eqb (a b : f64) : bool := SFeqb a b.

(** [f64::total_cmp] is not used by the program; [partial_cmp] is. *)
Definition f64_partial_cmp (a b : f64) : option comparison := SFcompare a b.

Definition f64_is_nan (x : f64) : bool := match x with S754_nan => true | _ => false end.
Definition f64_is_finite (x : f64) : bool :=
  match x with S754_zero _ | S754_finite _ _ _ => true | _ => false end.

(** The integer part of the magnitude [m * 2^e]. *)
Definition trunc_mag (m : positive) (e : Z) : Z := Z.shiftl (Zpos m) e.
(** The magnitude rounded to an integer, halves away from zero. *)
Definition round_mag (m : positive) (e : Z) : Z :=
  if (0 <=? e)%Z then Z.shiftl (Zpos m) e
  else (Z.shiftl (Zpos m) (e + 1) + 1) / 2.

Definition with_sign (s : bool) (z : Z) : Z := if s then - z else z.

(** [f64::round] *)
Definition f64_round (x : f64) : f64 :=
  match x with
  | S754_finite s m e =>
      if (0 <=? e)%Z then x
      else binary_normalize f64_prec f64_emax (with_sign s (round_mag m e)) 0 s
  | _ => x
  end.

(** [x as u64] and [x as i64]: truncation, saturation, NaN gives zero. *)
Definition f64_to_u64 (x : f64) : N :=
  match x with
  | S754_finite false m e => N.min u64_max (Z.to_N (trunc_mag m e))
  | S754_infinity false => u64_max
  | _ => 0
  end.
Definition f64_to_i64 (x : f64) : Z :=
  match x with
  | S754_finite s m e => Z.max i64_min (Z.min i64_max (with_sign s (trunc_mag m e)))
  | S754_infinity s => if s then i64_min else i64_max
  | _ => 0
  end.

Example f64_third : f64_to_u64 (f64_round (f64_mul (f64_div (f64_of_N 1) (f64_of_N 3)) (f64_of_N 100))) = 33%N.
Proof. reflexivity. Qed.
Example f64_half_up : f64_to_u64 (f64_round (f64_div (f64_of_N 179) (f64_of_N 2))) = 90%N.
Proof. reflexivity. Qed.
Example f64_neg_half : f64_to_i64 (f64_round (f64_div (f64_of_Z (-5)) (f64_of_N 2))) = (-3)%Z.
Proof. reflexivity. Qed.
