(* ===== verification/Alerts.v ===== *)
(** * Alerting: alerts/types.rs, engine.rs, dedup.rs, notifier.rs and the
      daemon of cli/monitoring.rs

    [evaluate] compares a cluster snapshot with the rules and keeps, per node,
    since when it is offline; [DedupCache] suppresses repetitions; [tick] is
    one round of [alerts watch], the cache being written to disk at its end
    and read back when the daemon restarts.  The order in which a [HashMap]
    yields its entries is a parameter.  Theorems are in [AlertsSpec]. *)

From S2P Require Import Prelude.
From S2P Require Import Json.
From S2P Require Import ApiError.
From S2P Require Import F64.

(** ** alerts/types.rs *)
Inductive Severity := SevInfo | SevWarning | SevCritical.

Definition severity_parse (s : string) : Severity :=
  let s := to_ascii_lowercase s in
  if bool_decide (s ∈ ["info"; "informational"]) then SevInfo
  else if bool_decide (s ∈ ["critical"; "crit"; "fatal"]) then SevCritical
  else SevWarning.

Definition icon (s : Severity) : string :=
  match s with SevInfo => "ℹ️" | SevWarning => "⚠️" | SevCritical => "🚨" end.

(** [rename_all = "lowercase"] *)
Definition ser_severity (s : Severity) : Value :=
  JString match s with SevInfo => "info" | SevWarning => "warning" | SevCritical => "critical" end.

Record AlertEvent := mkAlertEvent {
  ev_rule : string;
  ev_severity : Severity;
  ev_target : string;
  ev_summary : string;
  ev_detail : Value;
  ev_at : N;
}.

Definition render_text (e : AlertEvent) : string :=
  icon (ev_severity e) +:+ " [" +:+ ev_rule e +:+ "] " +:+ ev_target e +:+ " — " +:+ ev_summary e.

(** ** The wire types the engine reads *)
Inductive NodeStatus := Online | Offline | Unknown.
#[export] Instance NodeStatus_eq_dec : EqDecision NodeStatus.
Proof. solve_decision. Defined.

Record Node := mkNode {
  node : string;
  status : NodeStatus;
  cpu : f64;
  maxcpu : N;
  mem : N;
  maxmem : N;
  disk : N;
  maxdisk : N;
  uptime : N;
}.

Record StoragePool := mkStoragePool {
  sp_storage : string;
  sp_node : string;
  sp_type : string;
  sp_used : N;
  sp_avail : N;
  sp_total : N;
  sp_active : bool;
  sp_content : string;
  sp_shared : bool;
}.

Record ReplicationStatus := mkReplicationStatus {
  rs_id : string;
  rs_last_sync : N;
  rs_duration : f64;
  rs_error : string;
  rs_fail_count : N;
  rs_source : string;
  rs_target : string;
}.

(** [AlertRuleConfig] of config/mod.rs. *)
Record AlertRuleConfig := mkAlertRuleConfig {
  ar_name : string;
  ar_when : string;
  ar_for_secs : N;
  ar_threshold_percent : N;
  ar_storage : string;
  ar_severity : string;
  ar_route : list string;
  ar_dedup_secs : N;
}.

(** ** alerts/engine.rs *)
Notation EngineState := (gmap string N).

Record ClusterSnapshot := mkClusterSnapshot {
  nodes : list Node;
  storage : list StoragePool;
  replication : list ReplicationStatus;
}.

(** One node of the "offline since" update. *)
Definition note_status (now : N) (st : EngineState) (n : Node) : EngineState :=
  match status n with
  | Offline | Unknown =>
      match st !! node n with Some _ => st | None => <[node n := now]> st end
  | Online => delete (node n) st
  end.
Definition update_offline_since (snap : ClusterSnapshot) (prev : EngineState) (now : N) : EngineState :=
  foldl (note_status now) prev (nodes snap).

Definition node_offline_events (rule : AlertRuleConfig) (snap : ClusterSnapshot)
    (st : EngineState) (now : N) : list AlertEvent :=
  omap (fun n =>
    match st !! node n with
    | None => None
    | Some since =>
        let elapsed := (now - since)%N in
        if (ar_for_secs rule <=? elapsed)%N then
          Some (mkAlertEvent (ar_name rule) (severity_parse (ar_severity rule))
                  ("node:" +:+ node n)
                  ("node " +:+ node n +:+ " offline for " +:+ pretty elapsed +:+ "s")
                  (JObject [("node", JString (node n)); ("elapsed_secs", JNumber (Z.of_N elapsed));
                            ("threshold_secs", JNumber (Z.of_N (ar_for_secs rule)))])
                  now)
        else None
    end) (nodes snap).

(** [((used as f64 / total as f64) * 100.0).round() as u64] *)
Definition used_pct (used total : N) : N :=
  f64_to_u64 (f64_round (f64_mul (f64_div (f64_of_N used) (f64_of_N total)) (f64_of_N 100))).

Definition storage_above_events (rule : AlertRuleConfig) (snap : ClusterSnapshot) (now : N)
    : list AlertEvent :=
  omap (fun s =>
    if negb (is_empty (ar_storage rule)) && negb (bool_decide (sp_storage s = ar_storage rule)) then None
    else if (sp_total s =? 0)%N then None
    else
      let pct := used_pct (sp_used s) (sp_total s) in
      if (ar_threshold_percent rule <=? pct)%N then
        Some (mkAlertEvent (ar_name rule) (severity_parse (ar_severity rule))
                ("storage:" +:+ sp_storage s)
                ("storage " +:+ sp_storage s +:+ " at " +:+ pretty pct +:+ "% (threshold "
                   +:+ pretty (ar_threshold_percent rule) +:+ ")")
                (JObject [("storage", JString (sp_storage s)); ("used_pct", JNumber (Z.of_N pct));
                          ("threshold_pct", JNumber (Z.of_N (ar_threshold_percent rule)));
                          ("used_bytes", JNumber (Z.of_N (sp_used s)));
                          ("total_bytes", JNumber (Z.of_N (sp_total s)))])
                now)
      else None) (storage snap).

Definition replication_failing_events (rule : AlertRuleConfig) (snap : ClusterSnapshot) (now : N)
    : list AlertEvent :=
  omap (fun r =>
    let failing := (0 <? rs_fail_count r)%N || negb (is_empty (rs_error r)) in
    if failing then
      Some (mkAlertEvent (ar_name rule) (severity_parse (ar_severity rule))
              ("replication:" +:+ rs_id r)
              ("replication " +:+ rs_id r +:+ " failing: "
                 +:+ (if is_empty (rs_error r) then "—" else rs_error r)
                 +:+ " (fail_count " +:+ pretty (rs_fail_count r) +:+ ")")
              (JObject [("id", JString (rs_id r)); ("fail_count", JNumber (Z.of_N (rs_fail_count r)));
                        ("error", JString (rs_error r)); ("source", JString (rs_source r));
                        ("target", JString (rs_target r))])
              now)
    else None) (replication snap).

Definition rule_events (rule : AlertRuleConfig) (snap : ClusterSnapshot) (st : EngineState) (now : N)
    : list AlertEvent :=
  if bool_decide (ar_when rule = "node_offline") then node_offline_events rule snap st now
  else if bool_decide (ar_when rule = "storage_above") then storage_above_events rule snap now
  else if bool_decide (ar_when rule = "replication_failing") then replication_failing_events rule snap now
  else [].

Definition evaluate (rules : list AlertRuleConfig) (snap : ClusterSnapshot) (prev : EngineState) (now : N)
    : list AlertEvent * EngineState :=
  let st := update_offline_since snap prev now in
  (rules ≫= fun rule => rule_events rule snap st now, st).

(** ** alerts/dedup.rs *)
Notation DedupCache := (gmap (string * string) N).

Definition allow (c : DedupCache) (rule target : string) (dedup_secs now : N) : bool * DedupCache :=
  let key := (rule, target) in
  match c !! key with
  | Some last =>
      if (now - last <? dedup_secs)%N then (false, c) else (true, <[key := now]> c)
  | None => (true, <[key := now]> c)
  end.

Definition evict_older_than (c : DedupCache) (max_age_secs now : N) : DedupCache :=
  filter (fun kv => (now - kv.2 < max_age_secs)%N) c.

(** [self.last_fired.iter().map(..).collect()], in the map's order. *)
Definition entries (iter : DedupCache -> list ((string * string) * N)) (c : DedupCache)
    : list (string * string * N) :=
  iter c.
Definition from_entries (l : list (string * string * N)) : DedupCache :=
  foldl (fun c e => <[e.1 := e.2]> c) ∅ l.

(** ** alerts/notifier.rs *)
Inductive Channel :=
  | Telegram
  | Ntfy (topic : string)
  | Webhook (url : string).

Definition parse_route (s : string) : option Channel :=
  let trimmed := trim s in
  if eq_ignore_ascii_case trimmed "telegram" then Some Telegram
  else match strip_prefix "ntfy:" trimmed with
       | Some topic => if is_empty topic then None else Some (Ntfy topic)
       | None =>
           match strip_prefix "webhook:" trimmed with
           | Some url =>
               if is_empty url || negb (starts_with "http" url) then None else Some (Webhook url)
           | None => None
           end
       end.

Definition priority_for (e : AlertEvent) : string :=
  match ev_severity e with SevInfo => "2" | SevWarning => "3" | SevCritical => "5" end.
Definition tags_for (e : AlertEvent) : string :=
  match ev_severity e with
  | SevInfo => "information_source"
  | SevWarning => "warning"
  | SevCritical => "rotating_light,red_circle"
  end.

(** What leaves the program for one event on one channel. *)
Inductive Delivery :=
  | TelegramMessage (text : string)
  | NtfyPost (url title priority tags body : string)
  | WebhookPost (url : string) (body : Value).

Definition delivery (ch : Channel) (e : AlertEvent) : Delivery :=
  match ch with
  | Telegram => TelegramMessage (render_text e)
  | Ntfy topic =>
      NtfyPost ("https://ntfy.sh/" +:+ topic) (icon (ev_severity e) +:+ " " +:+ ev_rule e)
        (priority_for e) (tags_for e) (render_text e)
  | Webhook url =>
      WebhookPost url
        (JObject [("rule", JString (ev_rule e)); ("severity", ser_severity (ev_severity e));
                  ("target", JString (ev_target e)); ("summary", JString (ev_summary e));
                  ("detail", ev_detail e); ("at", JNumber (Z.of_N (ev_at e)))])
  end.

(** The network: what posting a delivery to it answers (an HTTP status, or an
    error of the HTTP library). *)
Section send.
Context {W : Type} (post : Delivery -> SM W AnyErr N).
Context (webhook_label : string -> string) (show_status : N -> string).

Definition is_success (status : N) : bool := (200 <=? status)%N && (status <? 300)%N.

(** A Telegram gateway is configured or not; [send_message] succeeds when the
    post does. *)
Definition send_event (ch : Channel) (e : AlertEvent) (has_tg : bool) : SM W AnyErr unit :=
  match ch with
  | Telegram =>
      if negb has_tg then mret () else post (delivery ch e) ;; mret ()
  | Ntfy _ =>
      st ← (fun w => match post (delivery ch e) w with
                     | (Err err, w') => (Err (context "ntfy POST failed" err), w')
                     | r => r
                     end);
      if is_success st then mret () else throw (bail ("ntfy returned " +:+ show_status st))
  | Webhook url =>
      let label := webhook_label url in
      st ← (fun w => match post (delivery ch e) w with
                     | (Err err, w') => (Err (context ("webhook POST " +:+ label) err), w')
                     | r => r
                     end);
      if is_success st then mret ()
      else throw (bail ("webhook " +:+ label +:+ " returned " +:+ show_status st))
  end.
End send.

(** ** The daemon: [AlertsCommand::Watch] *)

(** Routes of every rule, parsed afresh on each tick. *)
Definition parsed_routes (rules : list AlertRuleConfig) : list (AlertRuleConfig * list Channel) :=
  (fun r => (r, omap parse_route (ar_route r))) <$> rules.

Definition route_of (rules : list AlertRuleConfig) (rule : string)
    : option (AlertRuleConfig * list Channel) :=
  List.find (fun rc => bool_decide (ar_name rc.1 = rule)) (parsed_routes rules).

(** The inner loop: events are sent in order; a failing channel is logged and
    the rest goes on, so a send only appends to what was handed to the
    channels. *)
Fixpoint dispatch_events (rules : list AlertRuleConfig) (now : N) (events : list AlertEvent)
    (c : DedupCache) : list (Channel * AlertEvent) * DedupCache :=
  match events with
  | [] => ([], c)
  | ev :: evs =>
      match route_of rules (ev_rule ev) with
      | None => dispatch_events rules now evs c
      | Some (rule, channels) =>
          let '(ok, c') := allow c (ev_rule ev) (ev_target ev) (ar_dedup_secs rule) now in
          let '(sent, c'') := dispatch_events rules now evs c' in
          ((if ok then (fun ch => (ch, ev)) <$> channels else []) ++ sent, c'')
      end
  end.

Definition EVICT_SECS : N := 86400.

Record Daemon := mkDaemon {
  d_state : EngineState;
  d_dedup : DedupCache;
  d_disk : list (string * string * N);
}.

(** One tick with a fetched snapshot; [iter] is the order of the cache's hash
    map and [saved] whether the database took the write. *)
Definition tick (iter : DedupCache -> list ((string * string) * N)) (rules : list AlertRuleConfig)
    (snap : ClusterSnapshot) (now : N) (saved : bool) (d : Daemon)
    : list (Channel * AlertEvent) * Daemon :=
  match rules with
  | [] => ([], d)
  | _ =>
      let '(events, st) := evaluate rules snap (d_state d) now in
      let '(sent, c) := dispatch_events rules now events (d_dedup d) in
      let c := evict_older_than c EVICT_SECS now in
      (sent, mkDaemon st c (if saved then entries iter c else d_disk d))
  end.

(** Stopping flushes the cache ([saved] as above); starting reads it back, or
    starts empty when that fails. *)
Definition shutdown (iter : DedupCache -> list ((string * string) * N)) (saved : bool) (d : Daemon) : Daemon :=
  mkDaemon (d_state d) (d_dedup d) (if saved then entries iter (d_dedup d) else d_disk d).
Definition start (loaded : bool) (d : Daemon) : Daemon :=
  mkDaemon ∅ (if loaded then from_entries (d_disk d) else ∅) (d_disk d).
