(* ===== verification/AlertsSpec.v ===== *)
(** * What the alert daemon promises

    When a node counts as down ([node_alert_iff_down]), how many messages
    about the same alert a channel can get in a span of time, crashes in the
    middle of a tick included ([alert_rate_bounded]), and that an outage that
    lasts is notified on every channel of its rule ([outage_is_notified]). *)

From S2P Require Import Prelude.
From S2P Require Import Json.
From S2P Require Import F64.
From S2P Require Import Alerts.

(** ** The offline-since map *)

Definition status_of (snap : ClusterSnapshot) (n : string) : option NodeStatus :=
  status <$> List.find (fun x => bool_decide (node x = n)) (nodes snap).
Definition unique_nodes (snap : ClusterSnapshot) : Prop := NoDup (node <$> nodes snap).

Lemma note_status_other now st x n : node x <> n -> note_status now st x !! n = st !! n.
Proof.
  intros Hne. unfold note_status. destruct (status x); simpl.
  - by rewrite lookup_delete_ne.
  - destruct (st !! node x); [done|]. by rewrite lookup_insert_ne.
  - destruct (st !! node x); [done|]. by rewrite lookup_insert_ne.
Qed.

Lemma note_all_other now st l n : n ∉ node <$> l -> foldl (note_status now) st l !! n = st !! n.
Proof.
  revert st. induction l as [|x l IH]; intros st Hn; [done|]. csimpl in Hn.
  apply not_elem_of_cons in Hn as [Hne Hn]. simpl. rewrite IH by done. by rewrite note_status_other.
Qed.

Lemma update_offline_since_lookup snap st now n :
  unique_nodes snap ->
  update_offline_since snap st now !! n =
  match status_of snap n with
  | None => st !! n
  | Some Online => None
  | Some _ => Some (default now (st !! n))
  end.
Proof.
  unfold unique_nodes, update_offline_since, status_of. revert st.
  induction (nodes snap) as [|x l IH]; intros st Hu; [done|].
  csimpl in Hu. apply NoDup_cons in Hu as [Hx Hu]. simpl. case_bool_decide as E.
  - subst n. rewrite note_all_other by done. simpl. unfold note_status.
    destruct (status x); [by rewrite lookup_delete_eq|..];
      destruct (st !! node x) eqn:Es; by rewrite ?Es, ?lookup_insert_eq.
  - rewrite IH by done. rewrite note_status_other; done.
Qed.

(** A run of evaluations from a fresh engine, oldest first. *)
Definition engine_run (hist : list (ClusterSnapshot * N)) : EngineState :=
  foldl (fun st h => update_offline_since h.1 st h.2) ∅ hist.

Definition reported_down (snap : ClusterSnapshot) (n : string) : Prop :=
  status_of snap n = Some Offline \/ status_of snap n = Some Unknown.

(** [n] was down at time [t] of the history and was not seen online since. *)
Definition down_since (hist : list (ClusterSnapshot * N)) (n : string) (t : N) : Prop :=
  exists h1 snap h2, hist = h1 ++ (snap, t) :: h2 /\ reported_down snap n /\
    forall h, h ∈ h2 -> status_of h.1 n <> Some Online.

Definition times_ordered (hist : list (ClusterSnapshot * N)) : Prop :=
  StronglySorted (fun a b => (a.2 <= b.2)%N) hist.

Lemma down_since_snoc hist snap now n t :
  down_since (hist ++ [(snap, now)]) n t <->
  (t = now /\ reported_down snap n) \/ (down_since hist n t /\ status_of snap n <> Some Online).
Proof.
  split.
  - intros (h1 & s & h2 & E & Hd & Hno). destruct h2 as [|h h2 _] using rev_ind.
    + apply app_inj_tail in E as [-> [= -> ->]]. by left.
    + rewrite app_comm_cons, app_assoc in E. apply app_inj_tail in E as [-> <-]. right. split.
      * exists h1, s, h2. split_and!; [done|done|]. intros h Hh. apply Hno, elem_of_app. by left.
      * apply (Hno (snap, now)), elem_of_app. right. by left.
  - intros [[-> Hd]|[(h1 & s & h2 & -> & Hd & Hno) Hs]].
    + exists hist, snap, []. split_and!; [done|done|]. by intros h ?%elem_of_nil.
    + exists h1, s, (h2 ++ [(snap, now)]). split_and!; [by rewrite <- app_assoc|done|].
      intros h [Hh|Hh%list_elem_of_singleton]%elem_of_app; [by apply Hno|by subst h].
Qed.

Lemma times_ordered_snoc hist h :
  times_ordered (hist ++ [h]) <-> times_ordered hist /\ forall x, x ∈ hist -> (x.2 <= h.2)%N.
Proof.
  unfold times_ordered. rewrite StronglySorted_app. split.
  - intros (H1 & H2 & _). split; [done|]. intros x Hx. apply H1; [done|by left].
  - intros [H1 H2]. split_and!; [|done|repeat constructor].
    intros x y Hx Hy%list_elem_of_singleton. subst y. auto.
Qed.

Lemma down_since_time hist n t : down_since hist n t -> exists h, h ∈ hist /\ h.2 = t.
Proof.
  intros (h1 & s & h2 & -> & _). exists (s, t). split; [|done]. apply elem_of_app. right. by left.
Qed.

(** The map holds the earliest time of the current outage. *)
Lemma engine_run_spec hist n :
  Forall (fun h => unique_nodes h.1) hist -> times_ordered hist ->
  match engine_run hist !! n with
  | Some t => down_since hist n t /\ forall t', down_since hist n t' -> (t <= t')%N
  | None => forall t, ~ down_since hist n t
  end.
Proof.
  induction hist as [|[snap now] hist IH] using rev_ind; intros Hu Ho.
  { unfold engine_run. simpl. rewrite lookup_empty. intros t (h1 & ? & ? & E & _). by destruct h1. }
  apply Forall_app in Hu as [Hu Hs]. rewrite Forall_singleton in Hs. apply times_ordered_snoc in Ho as [Ho Hle].
  cbn [fst snd] in *. specialize (IH Hu Ho). unfold engine_run in *. rewrite foldl_app. cbn [foldl fst snd].
  rewrite (update_offline_since_lookup snap _ now n Hs).
  assert (forall t, down_since hist n t -> (t <= now)%N) as Hpast.
  { intros t (h & Hh & <-)%down_since_time. by apply (Hle h). }
  set (prev := foldl _ ∅ hist !! n) in *. unfold reported_down in *.
  destruct (status_of snap n) as [[]|] eqn:Es.
  - intros t [[_ [?|?]]|[_ ?]]%down_since_snoc; unfold reported_down in *; congruence.
  - destruct prev as [t|]; simpl.
    + destruct IH as [H1 H2]. split; [apply down_since_snoc; right; split; [done|congruence]|].
      intros t' [[-> _]|[H _]]%down_since_snoc; auto.
    + split; [apply down_since_snoc; left; split; [done|by left]|].
      intros t' [[-> _]|[H _]]%down_since_snoc; [done|by apply IH in H].
  - destruct prev as [t|]; simpl.
    + destruct IH as [H1 H2]. split; [apply down_since_snoc; right; split; [done|congruence]|].
      intros t' [[-> _]|[H _]]%down_since_snoc; auto.
    + split; [apply down_since_snoc; left; split; [done|by right]|].
      intros t' [[-> _]|[H _]]%down_since_snoc; [done|by apply IH in H].
  - destruct prev as [t|].
    + destruct IH as [H1 H2]. split; [apply down_since_snoc; right; split; [done|congruence]|].
      intros t' [[_ [?|?]]|[H _]]%down_since_snoc; unfold reported_down in *; auto; congruence.
    + intros t [[_ [?|?]]|[H _]]%down_since_snoc; unfold reported_down in *; try congruence. by eapply IH.
Qed.

(** ** Events *)
Lemma status_of_listed snap n : is_Some (status_of snap n) <-> n ∈ node <$> nodes snap.
Proof.
  unfold status_of. rewrite fmap_is_Some. split.
  - intros [x [Hx En%bool_decide_eq_true]%List.find_some]. subst n.
    by apply list_elem_of_fmap_2, list_elem_of_In.
  - intros (x & -> & Hx)%list_elem_of_fmap. destruct (List.find _ _) eqn:E; [done|].
    apply list_elem_of_In in Hx. pose proof (List.find_none _ _ E x Hx) as Hb.
    by apply bool_decide_eq_false in Hb.
Qed.

Lemma rule_events_name rule snap st now ev : ev ∈ rule_events rule snap st now -> ev_rule ev = ar_name rule.
Proof.
  unfold rule_events, node_offline_events, storage_above_events, replication_failing_events.
  repeat case_bool_decide; [..|by intros ?%elem_of_nil].
  all: rewrite list_elem_of_omap; intros (x & _ & Hx); repeat (case_match; simplify_eq/=; try done).
Qed.

Lemma node_event_iff rule snap st now n :
  ar_when rule = "node_offline" ->
  (exists ev, ev ∈ rule_events rule snap st now /\ ev_target ev = "node:" +:+ n) <->
  n ∈ node <$> nodes snap /\ exists since, st !! n = Some since /\ (ar_for_secs rule <= now - since)%N.
Proof.
  intros Hw. unfold rule_events. rewrite bool_decide_true by done. unfold node_offline_events.
  split.
  - intros (ev & (x & Hx & E)%list_elem_of_omap & Ht). destruct (st !! node x) as [since|] eqn:Es; [|done].
    cbv zeta in E. destruct (N.leb_spec (ar_for_secs rule) (now - since)); [|done].
    simplify_eq/=. split; [by apply list_elem_of_fmap_2|]. by exists since.
  - intros ((x & -> & Hx)%list_elem_of_fmap & since & Es & Hle).
    eexists. split; [apply list_elem_of_omap; exists x; split; [done|]|].
    + rewrite Es. cbv zeta. apply N.leb_le in Hle. rewrite Hle. reflexivity.
    + done.
Qed.

Lemma elem_of_evaluate rules snap prev now ev :
  ev ∈ (evaluate rules snap prev now).1 <->
  exists rule, rule ∈ rules /\ ev ∈ rule_events rule snap (update_offline_since snap prev now) now.
Proof. unfold evaluate. simpl. rewrite list_elem_of_bind. naive_solver. Qed.

(** The only rule of its name. *)
Definition sole_rule (rules : list AlertRuleConfig) (rule : AlertRuleConfig) : Prop :=
  rule ∈ rules /\ forall r, r ∈ rules -> ar_name r = ar_name rule -> r = rule.

(** The alert of a [node_offline] rule, and the outage it stands for. *)
Lemma node_alert_down_iff rules rule hist snap now n :
  sole_rule rules rule -> ar_when rule = "node_offline" ->
  Forall (fun h => unique_nodes h.1) (hist ++ [(snap, now)]) ->
  times_ordered (hist ++ [(snap, now)]) ->
  (exists ev, ev ∈ (evaluate rules snap (engine_run hist) now).1 /\
              ev_rule ev = ar_name rule /\ ev_target ev = "node:" +:+ n) <->
  (n ∈ node <$> nodes snap /\
   exists t, down_since (hist ++ [(snap, now)]) n t /\ (ar_for_secs rule <= now - t)%N).
Proof.
  intros [Hin Hsole] Hw Hu Ho.
  assert (update_offline_since snap (engine_run hist) now = engine_run (hist ++ [(snap, now)])) as Est.
  { unfold engine_run. by rewrite foldl_app. }
  pose proof (engine_run_spec _ n Hu Ho) as Hspec.
  transitivity (n ∈ node <$> nodes snap /\
    exists since, engine_run (hist ++ [(snap, now)]) !! n = Some since /\ (ar_for_secs rule <= now - since)%N).
  - rewrite <- Est, <- (node_event_iff rule snap _ now n Hw). split.
    + intros (ev & (r & Hr & Hev)%elem_of_evaluate & En & Ht). exists ev. split; [|done].
      assert (r = rule) as <-; [|done]. apply Hsole; [done|]. rewrite <- En. symmetry. by eapply rule_events_name.
    + intros (ev & Hev & Ht). exists ev. split; [apply elem_of_evaluate; by exists rule|].
      split; [by eapply rule_events_name|done].
  - destruct (engine_run (hist ++ [(snap, now)]) !! n) as [t|].
    + destruct Hspec as [H1 H2]. split.
      * intros [Hn (? & [= <-] & Hle)]. split; [done|]. by exists t.
      * intros [Hn (t' & Ht' & Hle)]. split; [done|]. exists t. split; [done|]. specialize (H2 t' Ht'). lia.
    + split; [by intros [_ (? & ? & _)]|]. intros [_ (t & Ht & _)]. by apply Hspec in Ht.
Qed.


(** Over any history of snapshots, a [node_offline] rule raises its alert
    for a node exactly when the node is listed now, was reported offline or unknown at least
    [for_secs] ago, and was not reported online at any tick since. *)
Lemma node_alert_iff_down rules rule hist snap now n :
  sole_rule rules rule -> ar_when rule = "node_offline" ->
  Forall (fun h => unique_nodes h.1) (hist ++ [(snap, now)]) ->
  times_ordered (hist ++ [(snap, now)]) ->
  (exists ev, ev ∈ (evaluate rules snap (engine_run hist) now).1 /\
              ev_rule ev = ar_name rule /\ ev_target ev = "node:" +:+ n) <->
  (n ∈ node <$> nodes snap /\
   exists t, down_since (hist ++ [(snap, now)]) n t /\ (ar_for_secs rule <= now - t)%N).
Proof. apply node_alert_down_iff. Qed.

Definition demo_node (n : string) (s : NodeStatus) : Node :=
  mkNode n s (f64_of_N 0) 0 0 0 0 0 0.
Definition demo_rule : AlertRuleConfig :=
  mkAlertRuleConfig "down" "node_offline" 60 90 "" "critical" ["telegram"; "ntfy:ops"] 300.
Definition demo_snap (s : NodeStatus) : ClusterSnapshot :=
  mkClusterSnapshot [demo_node "pve1" s; demo_node "pve2" Online] [] [].

Lemma node_alert_iff_down_witness :
  exists ev, ev ∈ (evaluate [demo_rule] (demo_snap Unknown)
                     (engine_run [(demo_snap Online, 0%N); (demo_snap Offline, 100%N)]) 160).1 /\
             ev_target ev = "node:pve1".
Proof.
  destruct (node_alert_iff_down [demo_rule] demo_rule
              [(demo_snap Online, 0%N); (demo_snap Offline, 100%N)] (demo_snap Unknown) 160 "pve1")
    as [_ H].
  - split; [by left|]. by intros r ->%list_elem_of_singleton.
  - reflexivity.
  - repeat constructor; cbv; set_solver.
  - repeat constructor; simpl; lia.
  - destruct H as (ev & H1 & _ & H2).
    + split; [by left|]. exists 100%N. split; [|by vm_compute].
      exists [(demo_snap Online, 0%N)], (demo_snap Offline), [(demo_snap Unknown, 160%N)].
      split_and!; [reflexivity|by left|]. by intros h ->%list_elem_of_singleton.
    + by exists ev.
Defined.

(** ** Persistence of the cache *)
Definition iter_order (iter : DedupCache -> list ((string * string) * N)) : Prop :=
  forall c, iter c ≡ₚ map_to_list c.

Lemma foldl_insert_list_to_map (l : list ((string * string) * N)) (c : DedupCache) :
  NoDup l.*1 -> foldl (fun c e => <[e.1 := e.2]> c) c l = list_to_map l ∪ c.
Proof.
  revert c. induction l as [|[k v] l IH]; intros c Hn; simpl; [by rewrite map_empty_union|].
  csimpl in Hn. apply NoDup_cons in Hn as [Hk Hn]. rewrite IH by done.
  rewrite <- insert_union_r; [apply insert_union_l|].
  by apply not_elem_of_list_to_map_1.
Qed.

(** What a daemon writes is what the next one reads, whatever the hash order. *)
Lemma from_entries_entries iter c : iter_order iter -> from_entries (entries iter c) = c.
Proof.
  intros Hi. unfold from_entries, entries.
  assert (NoDup (iter c).*1) as Hn by (rewrite (Hi c); apply NoDup_fst_map_to_list).
  rewrite foldl_insert_list_to_map by done. rewrite map_union_empty.
  rewrite (list_to_map_proper _ (map_to_list c) Hn (Hi c)). apply list_to_map_to_list.
Qed.

(** ** One decision of the cache *)
Lemma allow_other c rule target D now ok c' key :
  allow c rule target D now = (ok, c') -> (rule, target) <> key -> c' !! key = c !! key.
Proof.
  unfold allow. intros E Hne. destruct (c !! (rule, target)); [destruct (_ <? _)%N|];
    injection E as <- <-; by rewrite ?lookup_insert_ne.
Qed.
Lemma allow_same c rule target D now ok c' :
  allow c rule target D now = (ok, c') ->
  if ok then c' !! (rule, target) = Some now /\
             match c !! (rule, target) with None => True | Some last => (D <= now - last)%N end
  else c' = c /\ exists last, c !! (rule, target) = Some last /\ (now - last < D)%N.
Proof.
  unfold allow. destruct (c !! (rule, target)) as [last|] eqn:El.
  - destruct (N.ltb_spec (now - last) D); intros [= <- <-]; [by eauto|]. by rewrite lookup_insert_eq.
  - intros [= <- <-]. by rewrite lookup_insert_eq.
Qed.

(** ** Runs of the daemon *)
Inductive DaemonStep :=
  | Tick (rules : list AlertRuleConfig) (snap : ClusterSnapshot) (now : N) (saved : bool)
  | FetchFailed
  | Restart (clean flushed loaded : bool)
  (* the process dies in a tick, [k] messages sent and the cache not yet
     saved, and is started again *)
  | Killed (rules : list AlertRuleConfig) (snap : ClusterSnapshot) (now : N) (k : nat) (loaded : bool).

Definition exec (iter : DedupCache -> list ((string * string) * N)) (s : DaemonStep) (d : Daemon)
    : list (Channel * AlertEvent) * Daemon :=
  match s with
  | Tick rules snap now saved => tick iter rules snap now saved d
  | FetchFailed => ([], d)
  | Restart clean flushed loaded =>
      ([], start loaded (if clean then shutdown iter flushed d else d))
  | Killed rules snap now k loaded => (take k (tick iter rules snap now false d).1, start loaded d)
  end.

Definition step_time (s : DaemonStep) : option N :=
  match s with Tick _ _ now _ | Killed _ _ now _ _ => Some now | _ => None end.

(** What each tick sent, with its time. *)
Fixpoint run (iter : DedupCache -> list ((string * string) * N)) (steps : list DaemonStep) (d : Daemon)
    : list (N * list (Channel * AlertEvent)) * Daemon :=
  match steps with
  | [] => ([], d)
  | s :: steps' =>
      let '(sent, d') := exec iter s d in
      let '(log, d'') := run iter steps' d' in
      ((match step_time s with Some now => [(now, sent)] | None => [] end) ++ log, d'')
  end.

Definition fresh_daemon : Daemon := mkDaemon ∅ ∅ [].

#[export] Instance channel_eq_dec : EqDecision Channel.
Proof. solve_decision. Defined.

(** The messages about [key] on the channel [ch] among those of a tick, and
    the time of every such message of a run. *)
Definition copies (ch : Channel) (key : string * string) (sent : list (Channel * AlertEvent)) : nat :=
  length (filter (fun s => s.1 = ch /\ (ev_rule s.2, ev_target s.2) = key) sent).
Definition message_times (ch : Channel) (key : string * string)
    (log : list (N * list (Channel * AlertEvent))) : list N :=
  e ← log; replicate (copies ch key e.2) e.1.

(** The database takes and gives every cache, and the clock does not go back. *)
Definition disk_works (s : DaemonStep) : Prop :=
  match s with
  | Tick _ _ _ saved => saved = true
  | FetchFailed => True
  | Restart _ _ loaded | Killed _ _ _ _ loaded => loaded = true
  end.
Definition clock_ordered (steps : list DaemonStep) : Prop := StronglySorted N.le (omap step_time steps).

(** Every rule named [r] asks for a window of at least [D] seconds and routes
    to [ch] at most once. *)
Definition rule_asks (r : string) (ch : Channel) (D : N) (rules : list AlertRuleConfig) : Prop :=
  forall rule, rule ∈ rules -> ar_name rule = r ->
    (D <= ar_dedup_secs rule)%N /\ length (filter (ch =.) (omap parse_route (ar_route rule))) <= 1.
Definition asks (r : string) (ch : Channel) (D : N) (s : DaemonStep) : Prop :=
  match s with Tick rules _ _ _ | Killed rules _ _ _ _ => rule_asks r ch D rules | _ => True end.

Section rate.
Context (iter : DedupCache -> list ((string * string) * N)) (Hiter : iter_order iter).
Context (r target : string) (ch : Channel) (D : N) (HD : (0 < D)%N).
Local Notation key := (r, target).
Local Notation copies := (copies ch key).

Lemma route_of_asks rules rc :
  rule_asks r ch D rules -> route_of rules r = Some rc ->
  (D <= ar_dedup_secs rc.1)%N /\ length (filter (ch =.) rc.2) <= 1.
Proof.
  intros H [Hin Hn%bool_decide_eq_true]%List.find_some.
  apply list_elem_of_In in Hin. unfold parsed_routes in Hin.
  apply list_elem_of_fmap in Hin as (rule & -> & Hr). by apply H.
Qed.

Lemma copies_app s1 s2 : copies (s1 ++ s2) = copies s1 + copies s2.
Proof. unfold AlertsSpec.copies. by rewrite filter_app, length_app. Qed.

Lemma copies_routed ev chans :
  copies ((fun c => (c, ev)) <$> chans) =
  if decide ((ev_rule ev, ev_target ev) = key) then length (filter (ch =.) chans) else 0.
Proof.
  unfold AlertsSpec.copies. induction chans as [|c chans IH]; [by case_decide|].
  cbn [fmap list_fmap]. rewrite filter_cons. rewrite (filter_cons (ch =.)).
  unfold fmap, list_fmap in IH. repeat case_decide; naive_solver.
Qed.

(** Either the tick leaves the key alone, or it fires it once, which its last
    firing allows. *)
Definition fired_or_same (now : N) (c c' : DedupCache) (sent : list (Channel * AlertEvent)) : Prop :=
  (c' !! key = c !! key /\ copies sent = 0) \/
  (c' !! key = Some now /\ copies sent <= 1 /\
   match c !! key with None => True | Some last => (D <= now - last)%N end).

Lemma allow_fired_or_same rules rule chans ev now c ok c' :
  rule_asks r ch D rules -> route_of rules (ev_rule ev) = Some (rule, chans) ->
  allow c (ev_rule ev) (ev_target ev) (ar_dedup_secs rule) now = (ok, c') ->
  fired_or_same now c c' (if ok then (fun ch => (ch, ev)) <$> chans else []).
Proof.
  intros Hw Hr Ea. unfold fired_or_same. destruct (decide ((ev_rule ev, ev_target ev) = key)) as [E|Hne].
  - injection E as Er Et. rewrite Er in Hr.
    pose proof (route_of_asks rules _ Hw Hr) as [Hl1 Hl2]. simpl in Hl1, Hl2.
    apply allow_same in Ea. rewrite Er, Et in Ea. destruct ok.
    + right. rewrite copies_routed, decide_True by by rewrite Er, Et.
      destruct Ea as [-> Hl]. split_and!; [done..|]. destruct (c !! key); [lia|done].
    + left. by destruct Ea as [-> _].
  - left. split; [by eapply allow_other|]. destruct ok; [|done]. by rewrite copies_routed, decide_False.
Qed.

Lemma fired_or_same_trans now c c1 c2 s1 s2 :
  fired_or_same now c c1 s1 -> fired_or_same now c1 c2 s2 -> fired_or_same now c c2 (s1 ++ s2).
Proof.
  unfold fired_or_same. rewrite copies_app.
  intros [[E1 H1]|(E1 & H1 & Hl1)] [[E2 H2]|(E2 & H2 & Hl2)].
  - left. by rewrite E2, E1, H1, H2.
  - right. rewrite <- E1, H1. by split_and!.
  - right. rewrite E2, E1, H2, Nat.add_0_r. by split_and!.
  - rewrite E1 in Hl2. lia.
Qed.

Lemma dispatch_fired_or_same rules now events c sent c' :
  rule_asks r ch D rules -> dispatch_events rules now events c = (sent, c') -> fired_or_same now c c' sent.
Proof.
  intros Hw. revert c sent c'. induction events as [|ev evs IH]; intros c sent c' E; simpl in E.
  { injection E as <- <-. by left. }
  destruct (route_of rules (ev_rule ev)) as [[rule chans]|] eqn:Er; [|by apply IH].
  destruct (allow _ _ _ _ _) as [ok c1] eqn:Ea.
  destruct (dispatch_events rules now evs c1) as [sent2 c2] eqn:Ed. injection E as <- <-.
  eapply fired_or_same_trans; [by eapply allow_fired_or_same|by apply IH].
Qed.

(** The gap: the rule's window, or the age at which the daemon evicts. *)
Local Notation gap := (N.min D EVICT_SECS).

Record rate_inv (t : N) (past : list N) (d : Daemon) : Prop := {
  ri_disk : from_entries (d_disk d) = d_dedup d;
  ri_past : forall L, L ∈ past -> (L <= t)%N /\
    ((exists L', d_dedup d !! key = Some L' /\ L <= L' /\ L' <= t)%N \/ (L + gap <= t)%N);
}.

Lemma rate_inv_later t t' past d : (t <= t')%N -> rate_inv t past d -> rate_inv t' past d.
Proof.
  intros Ht [H1 H2]. split; [done|]. intros L HL. destruct (H2 L HL) as [? [(L' & ? & ? & ?)|?]].
  - split; [lia|]. left. exists L'. split_and!; [done|lia|lia].
  - split; [lia|]. right. lia.
Qed.

Lemma rate_tick rules snap now t past d sent d' :
  (t <= now)%N -> rate_inv t past d ->
  rule_asks r ch D rules -> tick iter rules snap now true d = (sent, d') ->
  rate_inv now (past ++ replicate (copies sent) now) d' /\ copies sent <= 1 /\
  (copies sent <> 0 -> forall L, L ∈ past -> (L + gap <= now)%N).
Proof.
  intros Ht Hinv Hw E. pose proof (rate_inv_later _ now _ _ Ht Hinv) as Hinv'.
  unfold tick in E. destruct rules as [|r0 rs]; [simplify_eq/=; rewrite app_nil_r; split_and!; [done|unfold AlertsSpec.copies; simpl; lia|done]|].
  set (rules := r0 :: rs) in *.
  destruct (evaluate rules snap (d_state d) now) as [events st].
  destruct (dispatch_events rules now events (d_dedup d)) as [s c] eqn:Ed. injection E as <- <-.
  pose proof (dispatch_fired_or_same _ _ _ _ _ _ Hw Ed) as Hf.
  assert (Hold : forall L, L ∈ past -> (L <= now)%N /\
           ((exists L', evict_older_than c EVICT_SECS now !! key = Some L' /\ L <= L' /\ L' <= now)%N
            \/ (L + gap <= now)%N)).
  { intros L HL. destruct (ri_past _ _ _ Hinv' L HL) as [HLn Hc]. split; [done|].
    destruct (evict_older_than c EVICT_SECS now !! key) as [L'|] eqn:Ee.
    - unfold evict_older_than in Ee. apply map_lookup_filter_Some in Ee as [Ee _].
      destruct Hf as [[Hs _]|(Hs & _)].
      + rewrite Hs in Ee. destruct Hc as [(L2 & E2 & ? & ?)|?]; [|by right].
        left. exists L'. rewrite E2 in Ee. by injection Ee as <-.
      + left. exists L'. rewrite Hs in Ee. injection Ee as <-. split_and!; [done|done|lia].
    - right. unfold evict_older_than in Ee. apply map_lookup_filter_None in Ee.
      destruct Hf as [[Hs _]|(Hs & _)].
      + destruct Hc as [(L2 & E2 & ? & ?)|?]; [|done]. rewrite E2 in Hs. simpl in *.
        destruct Ee as [Ee|Ee]; [congruence|]. specialize (Ee L2 Hs). cbn [snd] in Ee. unfold EVICT_SECS in *. lia.
      + destruct Ee as [Ee|Ee]; [congruence|]. specialize (Ee now Hs). cbn [snd] in Ee.
        unfold EVICT_SECS in *. lia. }
  split.
  - split; simpl; [by apply from_entries_entries|].
    intros L [HL|[-> Hk]%elem_of_replicate]%elem_of_app; [by apply Hold|]. split; [lia|].
    left. exists now. split_and!; [|lia|lia]. destruct Hf as [[_ ?]|[Hs _]]; [congruence|].
    apply map_lookup_filter_Some. split; [done|]. unfold EVICT_SECS. simpl. lia.
  - split; [destruct Hf as [[_ ->]|(_ & ? & _)]; lia|].
    intros Hk L HL. destruct Hf as [[_ ?]|(_ & _ & Hf)]; [congruence|].
    destruct (ri_past _ _ _ Hinv L HL) as [HLt [(L' & E' & ? & ?)|?]]; [|lia].
    rewrite E' in Hf. lia.
Qed.

Lemma rate_restart t past d (clean flushed : bool) :
  rate_inv t past d -> rate_inv t past (start true (if clean then shutdown iter flushed d else d)).
Proof.
  intros [H1 H2]. destruct clean; [|split; simpl; [done|by rewrite H1]].
  unfold shutdown. destruct flushed; split; simpl; try done.
  - by rewrite from_entries_entries.
  - by rewrite H1.
Qed.

(** The run in which the ticks cut short send nothing. *)
Definition uncut (s : DaemonStep) : DaemonStep :=
  match s with Killed _ _ _ _ loaded => Restart false false loaded | _ => s end.

Lemma run_separated steps t past d :
  rate_inv t past d -> Forall disk_works steps -> Forall (asks r ch D) steps ->
  clock_ordered steps -> (forall x, x ∈ omap step_time steps -> (t <= x)%N) ->
  let times := message_times ch key (run iter (uncut <$> steps) d).1 in
  StronglySorted (fun x y => (x + gap <= y)%N) times /\
  (forall L x, L ∈ past -> x ∈ times -> (L + gap <= x)%N).
Proof.
  revert t past d. induction steps as [|s steps IH]; intros t past d Hinv Hdisk Hwin Hclock Hlate.
  { split; [constructor|]. by intros L x _ ?%elem_of_nil. }
  apply Forall_cons in Hdisk as [Hd Hdisk]. apply Forall_cons in Hwin as [Hw Hwin].
  assert (clock_ordered steps) as Hclock'.
  { unfold clock_ordered in *. simpl in Hclock. destruct (step_time s); [|done].
    by apply StronglySorted_cons in Hclock as [_ ?]. }
  assert (forall x, x ∈ omap step_time steps -> (t <= x)%N) as Hlate'.
  { intros x Hx. apply Hlate. simpl. destruct (step_time s); [by right|done]. }
  rewrite fmap_cons; cbn [run]. destruct (exec iter (uncut s) d) as [sent d'] eqn:Ex.
  destruct (run iter (uncut <$> steps) d') as [log d''] eqn:Er. cbn [fst].
  destruct s as [rules snap now saved| |clean flushed loaded|rules snap now k loaded]; simpl in Hd, Hw, Ex.
  - subst saved. unfold clock_ordered in Hclock. simpl in Hclock.
    apply StronglySorted_cons in Hclock as [Hnow _].
    assert ((t <= now)%N) as Ht by (apply Hlate; simpl; by left).
    destruct (rate_tick rules snap now t past d sent d' Ht Hinv Hw Ex) as (Hinv' & Hone & Hgap).
    destruct (IH now _ d' Hinv' Hdisk Hwin Hclock') as [Hs Hp]; [by rewrite Forall_forall in Hnow|].
    rewrite Er in Hs, Hp. cbn [fst] in Hs, Hp.
    unfold message_times. simpl. fold (message_times ch key log).
    destruct (copies sent) as [|[|]] eqn:Ek; [| |lia]; simpl in Hp |- *.
    + split; [done|]. intros L x HL. apply Hp. by rewrite app_nil_r.
    + split.
      * apply StronglySorted_cons. split; [|done]. apply Forall_forall. intros x Hx.
        apply (Hp now); [apply elem_of_app; right; by left|done].
      * intros L x HL [->|Hx]%elem_of_cons; [by apply Hgap|].
        apply (Hp L); [apply elem_of_app; by left|done].
  - injection Ex as <- <-. destruct (IH t past d Hinv Hdisk Hwin Hclock' Hlate') as [Hs Hp].
    by rewrite Er in Hs, Hp.
  - subst loaded. injection Ex as <- <-.
    destruct (IH t past _ (rate_restart _ _ _ clean flushed Hinv) Hdisk Hwin Hclock' Hlate') as [Hs Hp].
    by rewrite Er in Hs, Hp.
  - subst loaded. injection Ex as <- <-.
    destruct (IH t past _ (rate_restart _ _ _ false false Hinv) Hdisk Hwin Hclock' Hlate') as [Hs Hp].
    by rewrite Er in Hs, Hp.
Qed.

(** A tick cut short sends the key at most once on the channel, whatever the
    cache says. *)
Lemma tick_copies rules snap now saved d :
  rule_asks r ch D rules -> copies (tick iter rules snap now saved d).1 <= 1.
Proof.
  intros Hw. unfold tick. destruct rules as [|r0 rs]; [unfold AlertsSpec.copies; simpl; lia|]. set (rules := r0 :: rs) in *.
  destruct (evaluate rules snap (d_state d) now) as [events st].
  destruct (dispatch_events rules now events (d_dedup d)) as [s c] eqn:Ed. cbn [fst].
  destruct (dispatch_fired_or_same _ _ _ _ _ _ Hw Ed) as [[_ Hs]|(_ & Hs & _)]; [by rewrite Hs; lia|done].
Qed.

Lemma copies_take k sent : copies (take k sent) <= copies sent.
Proof. rewrite <- (take_drop k sent) at 2. rewrite copies_app. lia. Qed.

(** How many of a list of times are in a span, and the ticks cut short in one. *)
Definition within (a W : N) (l : list N) : nat := length (filter (fun t => a <= t < a + W)%N l).
Definition killed_time (s : DaemonStep) : option N :=
  match s with Killed _ _ now _ _ => Some now | _ => None end.
Definition killed_in (a W : N) (steps : list DaemonStep) : nat := within a W (omap killed_time steps).

Lemma within_app a W l1 l2 : within a W (l1 ++ l2) = within a W l1 + within a W l2.
Proof. unfold within. by rewrite filter_app, length_app. Qed.

Lemma killed_in_cons a W s steps :
  killed_in a W (s :: steps) = within a W (option_list (killed_time s)) + killed_in a W steps.
Proof. unfold killed_in. rewrite <- within_app. simpl. by destruct (killed_time s). Qed.

Lemma message_times_cons e log :
  message_times ch key (e :: log) = replicate (copies e.2) e.1 ++ message_times ch key log.
Proof. done. Qed.

Lemma run_killed a W steps d :
  Forall (asks r ch D) steps ->
  within a W (message_times ch key (run iter steps d).1) <=
  within a W (message_times ch key (run iter (uncut <$> steps) d).1) + killed_in a W steps.
Proof.
  revert d. induction steps as [|s steps IH]; intros d Hwin; [unfold within, killed_in; simpl; lia|].
  apply Forall_cons in Hwin as [Hw Hwin]. rewrite fmap_cons, killed_in_cons; cbn [run].
  assert ((exec iter s d).2 = (exec iter (uncut s) d).2) as Ed by by destruct s.
  destruct (exec iter s d) as [sent d'] eqn:E1, (exec iter (uncut s) d) as [sent2 d2] eqn:E2.
  cbn [snd] in Ed. subst d2. specialize (IH d' Hwin).
  destruct (run iter steps d') as [log ?], (run iter (uncut <$> steps) d') as [log2 ?].
  cbn [fst] in *. destruct s as [rules snap now saved| |clean flushed loaded|rules snap now k loaded];
    cbn [exec uncut killed_time step_time option_list app] in *; [..|clear E2].
  - rewrite E1 in E2. injection E2 as <-. rewrite !message_times_cons, !within_app. lia.
  - lia.
  - lia.
  - injection E1 as <- _. rewrite message_times_cons, within_app. cbn [fst snd].
    pose proof (copies_take k (tick iter rules snap now false d).1) as Hle.
    pose proof (tick_copies rules snap now false d Hw) as H1.
    enough (within a W (replicate (copies (take k (tick iter rules snap now false d).1)) now)
            <= within a W (option_list (Some now))) by lia.
    destruct (copies (take k _)) as [|[|n]]; [unfold within; simpl; lia|done|lia].
Qed.
End rate.

(** Times that lie [G] apart: how many fit into a window. *)
Lemma separated_count (G : N) (l : list N) (a W : N) :
  StronglySorted (fun x y => (x + G <= y)%N) l -> (forall x, x ∈ l -> a <= x < a + W)%N ->
  (N.of_nat (length l) * G <= W + (G - 1))%N.
Proof.
  revert a W. induction l as [|x l IH]; intros a W Hs Hin; [simpl; lia|].
  apply StronglySorted_cons in Hs as [Hx Hs]. rewrite Forall_forall in Hx.
  pose proof (Hin x ltac:(by left)) as Hax. destruct l as [|y l]; [simpl; lia|].
  pose proof (Hx y ltac:(by left)) as Hxy. pose proof (Hin y ltac:(by right; left)) as Hy.
  specialize (IH (x + G)%N (a + W - (x + G))%N Hs).
  rewrite (length_cons x). rewrite Nat2N.inj_succ, N.mul_succ_l.
  assert ((N.of_nat (length (y :: l)) * G <= a + W - (x + G) + (G - 1))%N) as Hle; [|lia].
  apply IH. intros z Hz. pose proof (Hx z Hz). pose proof (Hin z ltac:(by right)). lia.
Qed.

Lemma separated_filter (G : N) (P : N -> Prop) `{!forall x, Decision (P x)} l :
  StronglySorted (fun x y => (x + G <= y)%N) l -> StronglySorted (fun x y => (x + G <= y)%N) (filter P l).
Proof.
  induction 1 as [|x l Hs IH Hx]; [constructor|]. rewrite filter_cons. case_decide; [|done].
  apply StronglySorted_cons. split; [|done]. rewrite Forall_forall in *.
  intros y [_ Hy]%list_elem_of_filter. auto.
Qed.

(** C38: The same alert is not repeated. Over any run of ticks, failed fetches,
    ticks cut short by a crash, stops and restarts in which every save and load
    of the dedup cache works and the clock does not go back, the messages about
    a (rule, target) handed to a channel the rule routes to once, within any
    span of [W] seconds, number at most [W] over the gap, rounded up, plus one
    for every crash that fell between the sending and the saving of a tick in
    that span. The gap is the rule's window, or the eviction age of a day if
    that is less. *)
Theorem alert_rate_bounded iter steps r target ch D a W :
  iter_order iter -> Forall disk_works steps -> Forall (asks r ch D) steps ->
  clock_ordered steps -> (0 < D)%N ->
  let gap := N.min D EVICT_SECS in
  let sent := filter (fun t => a <= t < a + W)%N
                (message_times ch (r, target) (run iter steps fresh_daemon).1) in
  (N.of_nat (length sent) <= (W + (gap - 1)) / gap + N.of_nat (killed_in a W steps))%N.
Proof.
  intros Hi Hd Hw Hc HD gap sent.
  assert (rate_inv r target D 0 [] fresh_daemon) as Hinv.
  { split; [done|]. by intros L ?%elem_of_nil. }
  destruct (run_separated iter Hi r target ch D HD steps 0 [] fresh_daemon Hinv Hd Hw Hc) as [Hs _];
    [intros; lia|].
  pose proof (run_killed iter r target ch D HD a W steps fresh_daemon Hw) as Hk.
  unfold within in Hk. fold sent in Hk.
  set (whole := filter _ (message_times ch (r, target) (run iter (uncut <$> steps) fresh_daemon).1)) in Hk.
  enough (N.of_nat (length whole) <= (W + (gap - 1)) / gap)%N by lia.
  apply N.div_le_lower_bound; [unfold gap, EVICT_SECS; lia|].
  rewrite N.mul_comm. apply (separated_count gap whole a W); [by apply separated_filter|].
  intros x [Hx _]%list_elem_of_filter. done.
Qed.

Definition demo_steps : list DaemonStep :=
  ((fun t => Tick [demo_rule] (demo_snap Offline) t true) <$> [0; 60; 120; 180]%N)
  ++ [Killed [demo_rule] (demo_snap Offline) 400 1 true; Restart true true true]
  ++ ((fun t => Tick [demo_rule] (demo_snap Offline) t true) <$> [460; 520; 580]%N).

(** Several nodes list one shared storage: one message, not one per node. *)
Definition shared_storage (n : string) : StoragePool :=
  mkStoragePool "nfs" n "nfs" 95 5 100 true "images" true.
Definition storage_rule : AlertRuleConfig :=
  mkAlertRuleConfig "full" "storage_above" 0 90 "" "warning" ["telegram"] 300.
Example shared_storage_told_once :
  let snap := mkClusterSnapshot [] (shared_storage <$> ["pve1"; "pve2"; "pve3"]) [] in
  length (evaluate [storage_rule] snap ∅ 10).1 = 3 /\
  message_times Telegram ("full", "storage:nfs")
    (run map_to_list [Tick [storage_rule] snap 10 true] fresh_daemon).1 = [10]%N.
Proof. vm_compute. auto. Qed.

Lemma alert_rate_bounded_witness :
  message_times Telegram ("down", "node:pve1") (run map_to_list demo_steps fresh_daemon).1 = [60; 400; 520]%N /\
  (N.of_nat (length (filter (fun t => 0 <= t < 0 + 600)%N
     (message_times Telegram ("down", "node:pve1") (run map_to_list demo_steps fresh_daemon).1))) <= 3)%N.
Proof.
  split; [vm_compute; reflexivity|].
  apply (alert_rate_bounded map_to_list demo_steps "down" "node:pve1" Telegram 300 0 600).
  - by intros c.
  - repeat constructor.
  - repeat apply Forall_cons_2; try exact I; [..|apply Forall_nil_2].
    all: intros rule Hr%list_elem_of_singleton _; subst rule; split; [by vm_compute|vm_compute; lia].
  - unfold clock_ordered. repeat constructor; simpl; lia.
  - lia.
Defined.

(** A rule that asks for a longer window does not get it: its entry is evicted
    after a day and the alert goes out again. *)
Definition weekly_rule : AlertRuleConfig :=
  mkAlertRuleConfig "down" "node_offline" 60 90 "" "critical" ["telegram"] 604800.
Lemma weekly_window_cut_to_a_day :
  message_times Telegram ("down", "node:pve1")
    (run map_to_list ((fun t => Tick [weekly_rule] (demo_snap Offline) t true) <$> [0; 60; 86459; 86460; 86461]%N)
       fresh_daemon).1 = [60; 86461]%N.
Proof. vm_compute. reflexivity. Qed.

(** ** An outage that lasts is notified *)
Section notified.
Context (iter : DedupCache -> list ((string * string) * N)) (rules : list AlertRuleConfig).
Context (Hrules : rules <> []).

Definition ticks (hist : list (ClusterSnapshot * N)) : list DaemonStep :=
  (fun h => Tick rules h.1 h.2 true) <$> hist.

(** The channels of [rule] got an alert for [target] at [t]. *)
Definition notified_at (log : list (N * list (Channel * AlertEvent))) (rule target : string) (t : N) : Prop :=
  forall rc ch, route_of rules rule = Some rc -> ch ∈ rc.2 ->
  exists sent ev, (t, sent) ∈ log /\ (ch, ev) ∈ sent /\ ev_rule ev = rule /\ ev_target ev = target.

Lemma run_app steps1 steps2 d :
  run iter (steps1 ++ steps2) d =
  let '(l1, d1) := run iter steps1 d in let '(l2, d2) := run iter steps2 d1 in (l1 ++ l2, d2).
Proof.
  revert d. induction steps1 as [|s steps1 IH]; intros d; simpl.
  { by destruct (run iter steps2 d). }
  destruct (exec iter s d) as [sent d']. rewrite IH.
  destruct (run iter steps1 d') as [l1 d1]. destruct (run iter steps2 d1) as [l2 d2]. by rewrite app_assoc.
Qed.

Lemma tick_nonempty snap now d :
  tick iter rules snap now true d =
  let '(events, st) := evaluate rules snap (d_state d) now in
  let '(sent, c) := dispatch_events rules now events (d_dedup d) in
  let c := evict_older_than c EVICT_SECS now in
  (sent, mkDaemon st c (entries iter c)).
Proof. unfold tick. by destruct rules. Qed.

(** In one tick: an entry is the old one or was notified now; and an event
    whose rule has a route leaves an entry. *)
Lemma dispatch_notifies now events c sent c' rule target last :
  dispatch_events rules now events c = (sent, c') -> c' !! (rule, target) = Some last ->
  c !! (rule, target) = Some last \/
  (last = now /\ forall rc ch, route_of rules rule = Some rc -> ch ∈ rc.2 ->
     exists ev, (ch, ev) ∈ sent /\ ev_rule ev = rule /\ ev_target ev = target).
Proof.
  revert c sent. induction events as [|ev evs IH]; intros c sent E Hl; simpl in E.
  { injection E as <- <-. by left. }
  destruct (route_of rules (ev_rule ev)) as [[rl chans]|] eqn:Er; [|by apply (IH c)].
  destruct (allow _ _ _ _ _) as [ok c1] eqn:Ea.
  destruct (dispatch_events rules now evs c1) as [sent2 c2] eqn:Ed. injection E as <- <-.
  destruct (IH c1 sent2 Ed Hl) as [Hl1|[-> Hn]].
  - destruct (decide ((ev_rule ev, ev_target ev) = (rule, target))) as [Ek|Hne].
    + injection Ek as <- <-. apply allow_same in Ea. destruct ok; [|by left; destruct Ea as [-> _]].
      destruct Ea as [Ea _]. rewrite Hl1 in Ea. injection Ea as ->. right. split; [done|].
      intros rc ch Hrc Hch. rewrite Er in Hrc. injection Hrc as <-. exists ev. split; [|done].
      apply elem_of_app. left. apply list_elem_of_fmap. by exists ch.
    + left. by rewrite <- (allow_other _ _ _ _ _ _ _ _ Ea Hne).
  - right. split; [done|]. intros rc ch Hrc Hch. destruct (Hn rc ch Hrc Hch) as (ev' & Hev & ?).
    exists ev'. split; [|done]. apply elem_of_app. by right.
Qed.

Definition recent (c : DedupCache) (key : string * string) (D now : N) : Prop :=
  exists last, c !! key = Some last /\ (last = now \/ (now - last < D)%N).

Lemma dispatch_keeps_recent now events c sent c' key D :
  dispatch_events rules now events c = (sent, c') -> recent c key D now -> recent c' key D now.
Proof.
  revert c sent. induction events as [|y evs IH]; intros c sent E Hl; simpl in E; [by simplify_eq|].
  destruct (route_of rules (ev_rule y)) as [[rl chans]|]; [|by eapply IH].
  destruct (allow _ _ _ _ _) as [ok c1] eqn:Ea.
  destruct (dispatch_events rules now evs c1) as [s2 c2] eqn:Ed. injection E as _ <-.
  eapply IH; [exact Ed|]. destruct (decide ((ev_rule y, ev_target y) = key)) as [<-|Hne].
  - apply allow_same in Ea. destruct ok; [|by destruct Ea as [-> _]]. exists now. destruct Ea. auto.
  - unfold recent. by rewrite (allow_other _ _ _ _ _ _ _ _ Ea Hne).
Qed.

Lemma dispatch_covers now events c sent c' ev rc :
  dispatch_events rules now events c = (sent, c') -> ev ∈ events -> route_of rules (ev_rule ev) = Some rc ->
  recent c' (ev_rule ev, ev_target ev) (ar_dedup_secs rc.1) now.
Proof.
  intros E Hin Hrc. revert c sent E Hin. induction events as [|x evs IH]; intros c sent E Hin.
  { by apply elem_of_nil in Hin. }
  simpl in E. apply elem_of_cons in Hin as [<-|Hin].
  - rewrite Hrc in E. destruct rc as [rl chans]. destruct (allow _ _ _ _ _) as [ok c1] eqn:Ea.
    destruct (dispatch_events rules now evs c1) as [s2 c2] eqn:Ed. injection E as _ <-.
    eapply dispatch_keeps_recent; [exact Ed|]. apply allow_same in Ea. destruct ok.
    + exists now. destruct Ea. auto.
    + destruct Ea as [-> (last & ? & ?)]. exists last. auto.
  - destruct (route_of rules (ev_rule x)) as [[rl chans]|]; [|by eapply IH].
    destruct (allow _ _ _ _ _) as [ok c1]. destruct (dispatch_events rules now evs c1) as [s2 c2] eqn:Ed.
    injection E as _ <-. by eapply IH.
Qed.

(** The state of the daemon after a run of ticks. *)
Lemma run_ticks hist :
  let '(log, d) := run iter (ticks hist) fresh_daemon in
  d_state d = engine_run hist /\
  forall rule target last, d_dedup d !! (rule, target) = Some last -> notified_at log rule target last.
Proof.
  induction hist as [|[snap now] hist IH] using rev_ind; [simpl; by split|].
  unfold ticks in *. rewrite fmap_app, run_app. cbn [fmap list_fmap].
  destruct (run iter _ fresh_daemon) as [log d]. destruct IH as [Hst Hn].
  cbn [run exec fst snd]. rewrite tick_nonempty.
  destruct (evaluate rules snap (d_state d) now) as [events st] eqn:Ee.
  destruct (dispatch_events rules now events (d_dedup d)) as [sent c] eqn:Ed. cbn [d_state d_dedup app].
  split.
  - unfold engine_run. rewrite foldl_app. simpl. fold (engine_run hist). rewrite <- Hst.
    unfold evaluate in Ee. by injection Ee as _ <-.
  - intros rule target last Hl rc ch Hrc Hch. apply map_lookup_filter_Some in Hl as [Hl _].
    destruct (dispatch_notifies _ _ _ _ _ _ _ _ Ed Hl) as [Hold|[-> Hnow]].
    + destruct (Hn _ _ _ Hold rc ch Hrc Hch) as (s & ev & Hin & ?). exists s, ev. split; [|done].
      apply elem_of_app. by left.
    + destruct (Hnow rc ch Hrc Hch) as (ev & ?). exists sent, ev. split; [|done].
      apply elem_of_app. right. by left.
Qed.
End notified.

(** An outage is notified: if a node has been down for the rule's
    [for_secs] or more (and is still listed), then after that tick every channel the rule routes
    to has been handed an alert for the node, either at this tick or less than the rule's
    suppression window before it. *)
Lemma outage_is_notified iter rules rule chans hist snap now n t ch :
  sole_rule rules rule -> ar_when rule = "node_offline" ->
  route_of rules (ar_name rule) = Some (rule, chans) -> ch ∈ chans ->
  Forall (fun h => unique_nodes h.1) (hist ++ [(snap, now)]) -> times_ordered (hist ++ [(snap, now)]) ->
  n ∈ node <$> nodes snap -> down_since (hist ++ [(snap, now)]) n t -> (ar_for_secs rule <= now - t)%N ->
  exists s sent ev, (s, sent) ∈ (run iter (ticks rules (hist ++ [(snap, now)])) fresh_daemon).1 /\
    (ch, ev) ∈ sent /\ ev_rule ev = ar_name rule /\ ev_target ev = "node:" +:+ n /\
    (s = now \/ (now - s < ar_dedup_secs rule)%N).
Proof.
  intros Hsole Hw Hroute Hch Hu Ho Hn Hdown Hfor.
  assert (rules <> []) as Hne by (destruct Hsole as [Hin _]; intros ->; by apply elem_of_nil in Hin).
  pose proof (run_ticks iter rules Hne hist) as Hrun. unfold ticks in *.
  rewrite fmap_app, run_app. cbn [fmap list_fmap].
  destruct (run iter _ fresh_daemon) as [log d]. destruct Hrun as [Hst Hnot].
  cbn [run exec fst snd]. rewrite (tick_nonempty iter rules Hne).
  destruct (evaluate rules snap (d_state d) now) as [events st] eqn:Ee.
  destruct (dispatch_events rules now events (d_dedup d)) as [sent c] eqn:Ed. cbn [app].
  assert (exists ev, ev ∈ events /\ ev_rule ev = ar_name rule /\ ev_target ev = "node:" +:+ n)
    as (ev & Hev & Er & Et).
  { replace events with (evaluate rules snap (engine_run hist) now).1 by (by rewrite <- Hst, Ee).
    apply (node_alert_down_iff rules rule); try done. split; [done|]. by exists t. }
  rewrite <- Er in Hroute. destruct (dispatch_covers rules _ _ _ _ _ _ _ Ed Hev Hroute) as (last & Hl & Hlast).
  rewrite Er, Et in Hl. destruct (dispatch_notifies rules _ _ _ _ _ _ _ _ Ed Hl) as [Hold|[-> Hnow]].
  - rewrite Er in Hroute. destruct (Hnot _ _ _ Hold _ ch Hroute Hch) as (s & ev' & Hin & ? & ? & ?).
    exists last, s, ev'. split_and!; try done. apply elem_of_app. by left.
  - rewrite Er in Hroute. destruct (Hnow _ ch Hroute Hch) as (ev' & ? & ? & ?).
    exists now, sent, ev'. split_and!; try done. apply elem_of_app. right. by left.
Qed.

Lemma outage_is_notified_witness :
  exists s sent ev,
    (s, sent) ∈ (run map_to_list (ticks [demo_rule] ([(demo_snap Offline, 0%N); (demo_snap Offline, 90%N)]
                    ++ [(demo_snap Unknown, 130%N)])) fresh_daemon).1 /\
    (Ntfy "ops", ev) ∈ sent /\ ev_target ev = "node:pve1".
Proof.
  destruct (outage_is_notified map_to_list [demo_rule] demo_rule [Telegram; Ntfy "ops"]
              [(demo_snap Offline, 0%N); (demo_snap Offline, 90%N)] (demo_snap Unknown) 130 "pve1" 0 (Ntfy "ops"))
    as (s & sent & ev & H1 & H2 & _ & H3 & _).
  - split; [by left|]. by intros r ->%list_elem_of_singleton.
  - reflexivity.
  - vm_compute. reflexivity.
  - by right; left.
  - repeat constructor; cbv; set_solver.
  - repeat constructor; simpl; lia.
  - by left.
  - exists [], (demo_snap Offline), [(demo_snap Offline, 90%N); (demo_snap Unknown, 130%N)].
    split_and!; [reflexivity|by left|]. intros h Hh. apply elem_of_cons in Hh as [->|Hh%list_elem_of_singleton]; [done|by subst h].
  - by vm_compute.
  - by exists s, sent, ev.
Defined.
