(* ===== verification/Sanitize.v ===== *)
(** * Text for the terminal: util/sanitize.rs

    A string is its UTF-8 bytes; [chars] groups them into characters (a lead
    byte and the continuation bytes that follow it). *)

From S2P Require Import Prelude.

Definition is_continuation (a : ascii) : bool :=
  let n := N_of_ascii a in ((128 <=? n) && (n <? 192))%N.

(** [str::chars], each character as its bytes: a byte joins the character
    after it when that one starts with a continuation byte. *)
Definition add_byte (a : ascii) (rest : string) (cs : list string) : list string :=
  match rest, cs with
  | String b _, c :: cs' => if is_continuation b then String a c :: cs' else String a "" :: cs
  | _, _ => String a "" :: cs
  end.
Fixpoint chars (s : string) : list string :=
  match s with
  | "" => []
  | String a s' => add_byte a s' (chars s')
  end.

Definition concat_chars (l : list string) : string := foldr String.append "" l.

Definition is_safe_byte (n : N) : bool := ((n =? 9) || ((32 <=? n) && negb (n =? 127)))%N.

(** One byte below 0x80 is judged as a byte; the C1 controls are the two-byte
    characters 0xC2 0x80 to 0xC2 0x9F. *)
Definition is_safe_char (c : string) : bool :=
  match c with
  | String a "" => if (N_of_ascii a <? 128)%N then is_safe_byte (N_of_ascii a) else true
  | String a (String b "") =>
      negb ((N_of_ascii a =? 194) && (N_of_ascii b <? 160))%N
  | _ => true
  end.

Definition sanitize_display (s : string) : string :=
  if forallb is_safe_char (chars s) then s else concat_chars (filter is_safe_char (chars s)).

Definition truncate_ellipsis (s : string) (max_chars : nat) : string :=
  let cs := chars s in
  let head := concat_chars (take max_chars cs) in
  if bool_decide (max_chars < length cs) then head +:+ "…" else head.

(** ** Lemmas *)
Definition head_continues (c : string) : bool :=
  match c with String a _ => is_continuation a | "" => false end.

Lemma concat_add_byte a s cs : concat_chars (add_byte a s cs) = String a (concat_chars cs).
Proof. unfold add_byte. destruct s as [|b s], cs as [|c cs]; try done. by destruct (is_continuation b). Qed.

Lemma concat_chars_chars s : concat_chars (chars s) = s.
Proof. induction s as [|a s IH]; [done|]. cbn [chars]. by rewrite concat_add_byte, IH. Qed.

Lemma chars_nonempty a s : exists c cs, chars (String a s) = c :: cs /\ exists r, c = String a r.
Proof.
  cbn [chars]. unfold add_byte. destruct s as [|b s].
  { by exists (String a ""), []; split; [|exists ""]. }
  destruct (chars (String b s)) as [|c cs].
  { by exists (String a ""), []; split; [|exists ""]. }
  destruct (is_continuation b).
  - by exists (String a c), cs; split; [|exists c].
  - by exists (String a ""), (c :: cs); split; [|exists ""].
Qed.

(** A character on its own decodes to itself. *)
Definition one_char (c : string) : Prop := chars c = [c].

Lemma chars_cons_char c s :
  one_char c -> head_continues s = false -> chars (c +:+ s) = c :: chars s.
Proof.
  unfold one_char. intros Hc Hs. induction c as [|a c IH]; [done|]. cbn [chars String.append] in *.
  destruct c as [|b c].
  - cbn [String.append]. unfold add_byte. destruct s as [|d s]; [done|]. simpl in Hs.
    destruct (chars (String d s)); by rewrite ?Hs.
  - destruct (chars_nonempty b c) as (x & xs & E & _). rewrite E in Hc, IH. cbn [add_byte] in Hc.
    cbn [String.append add_byte]. destruct (is_continuation b); [|done].
    injection Hc as -> ->. change (String b (c +:+ s)) with (String b c +:+ s). by rewrite IH.
Qed.

(** The characters of a text are single, and only the first may start with a
    continuation byte (in valid UTF-8 none does). *)
Lemma chars_wf s :
  Forall one_char (chars s) /\ Forall (fun c => head_continues c = false) (tail (chars s)).
Proof.
  induction s as [|a s [IH1 IH2]]; [by split; constructor|]. cbn [chars]. unfold add_byte.
  destruct s as [|b s]; [by split; repeat constructor|].
  destruct (chars_nonempty b s) as (x & xs & E & r & ->). rewrite E in *. simpl in IH2.
  destruct (is_continuation b) eqn:Eb.
  - apply Forall_cons in IH1 as [Hx Hxs]. split; [|done]. constructor; [|done].
    unfold one_char in *. cbn [chars] in *. unfold add_byte at 1. by rewrite Eb, Hx.
  - split; [by constructor|]. by constructor.
Qed.

Lemma chars_concat l :
  Forall one_char l -> Forall (fun c => head_continues c = false) l -> chars (concat_chars l) = l.
Proof.
  induction l as [|c l IH]; intros H1 H2; [done|]. apply Forall_cons in H1 as [Hc H1].
  apply Forall_cons in H2 as [_ H2]. simpl. rewrite chars_cons_char; [by rewrite IH|done|].
  destruct H2 as [|d l Hd _]; [done|]. simpl. apply Forall_cons in H1 as [H1 _].
  unfold one_char in H1. by destruct d.
Qed.

(** The characters of valid UTF-8. *)
Lemma chars_heads s : head_continues s = false -> Forall (fun c => head_continues c = false) (chars s).
Proof.
  intros Hs. destruct (chars_wf s) as [_ H]. destruct s as [|a s]; [constructor|].
  destruct (chars_nonempty a s) as (x & xs & E & r & ->). rewrite E in *. by constructor.
Qed.

(** What is shown is made of the safe characters of the text, in order. *)
Lemma sanitize_display_chars s :
  head_continues s = false -> chars (sanitize_display s) = filter is_safe_char (chars s).
Proof.
  intros Hs. unfold sanitize_display. destruct (forallb is_safe_char (chars s)) eqn:E.
  - symmetry. induction (chars s) as [|c l IH]; [done|].
    simpl in E. apply andb_true_iff in E as [Ec El]. rewrite filter_cons, decide_True by (by rewrite Ec).
    by rewrite IH.
  - destruct (chars_wf s) as [H1 _]. pose proof (chars_heads s Hs) as H2. rewrite Forall_forall in H1, H2.
    apply chars_concat; apply Forall_forall; intros c [_ Hin]%list_elem_of_filter; auto.
Qed.

(** Text from the cluster cannot drive the terminal: what [sanitize_display]
    hands to the renderer holds no ASCII control character but the tabulator, no DEL and
    no C1 control; it is the safe characters of the text in their order, and clean text is
    left as it is. *)
Lemma sanitize_display_safe s :
  head_continues s = false ->
  chars (sanitize_display s) = filter is_safe_char (chars s) /\
  Forall (fun c => is_safe_char c = true) (chars (sanitize_display s)) /\
  (Forall (fun c => is_safe_char c = true) (chars s) -> sanitize_display s = s) /\
  sanitize_display (sanitize_display s) = sanitize_display s.
Proof.
  intros Hs. pose proof (sanitize_display_chars s Hs) as Hc.
  assert (Forall (fun c => is_safe_char c = true) (chars (sanitize_display s))) as Hsafe.
  { rewrite Hc. apply Forall_forall. intros c [H _]%list_elem_of_filter. by apply Is_true_eq_true. }
  split_and!; [done|done| |].
  - intros H. unfold sanitize_display. replace (forallb is_safe_char (chars s)) with true; [done|].
    symmetry. apply forallb_forall. intros c Hin%list_elem_of_In. rewrite Forall_forall in H. by apply H.
  - unfold sanitize_display at 1. replace (forallb is_safe_char (chars (sanitize_display s))) with true; [done|].
    symmetry. apply forallb_forall. intros c Hin%list_elem_of_In. rewrite Forall_forall in Hsafe. by apply Hsafe.
Qed.

(** A guest name with an escape sequence and a C1 control in it. *)
Definition hostile : string := "vm" +:+ byte 27 +:+ "[2J" +:+ byte 194 +:+ byte 155 +:+ "é".
Lemma sanitize_display_safe_witness :
  sanitize_display hostile = "vm[2Jé" /\
  sanitize_display (sanitize_display hostile) = sanitize_display hostile.
Proof.
  split; [vm_compute; reflexivity|].
  apply (sanitize_display_safe hostile). reflexivity.
Defined.

(** A truncated text has at most [max_chars] characters and the ellipsis. *)
Example truncate_multibyte : truncate_ellipsis "本番環境の" 3 = "本番環…".
Proof. vm_compute. reflexivity. Qed.
