(* ===== verification/Gateway.v ===== *)
(** * The guest operations of [ProxmoxGateway] and the executors built on them

    [ProxmoxGateway] is the trait through which the daemon and the MCP server
    reach the cluster; its implementation talks to PVE and is the interface
    [Gateway] here.  A state-changing method is a [MutCall]; the world keeps
    the list of the ones that were made, so that the theorems can say which
    operations a run sent.  The executors are cli/common.rs
    ([exec_cli_batch_op], [poll_task_until_done]), mcp/dispatch.rs ([exec_*])
    and cli/vm.rs (cloud-init), with [Ipconfig] of api/types/guest.rs. *)

From S2P Require Import Prelude.
From S2P Require Import ApiError.
From S2P Require Import Guest.

(** ** Tasks *)
Record TaskStatus := mkTaskStatus {
  ts_upid : string;
  ts_status : string;
  ts_exitstatus : option string;
  ts_type : string;
  ts_id : string;
  ts_user : string;
  ts_starttime : N;
}.
Definition is_done (s : TaskStatus) : bool := bool_decide (ts_status s = "stopped").
Definition is_success (s : TaskStatus) : bool := is_done s && bool_decide (ts_exitstatus s = Some "OK").

(** ** State-changing methods *)
Inductive MutCall :=
  | StartGuest (node : string) (vmid : N) (gt : GuestType)
  | StopGuest (node : string) (vmid : N) (gt : GuestType) (force : bool)
  | ShutdownGuest (node : string) (vmid : N) (gt : GuestType) (timeout : N)
  | RestartGuest (node : string) (vmid : N) (gt : GuestType)
  | SuspendGuest (node : string) (vmid : N) (gt : GuestType)
  | ResumeGuest (node : string) (vmid : N) (gt : GuestType)
  | DeleteGuest (node : string) (vmid : N) (gt : GuestType)
  | CreateSnapshot (node : string) (vmid : N) (gt : GuestType) (name : string)
  | DeleteSnapshot (node : string) (vmid : N) (gt : GuestType) (name : string)
  | CloneGuest (node : string) (vmid : N) (gt : GuestType) (newid : N) (name : option string) (full : bool)
  | MigrateGuest (node : string) (vmid : N) (gt : GuestType) (target : string) (online with_local_disks force : bool)
  | CreateLxc (node : string) (params : list (string * string))
  | CreateQemu (node : string) (params : list (string * string))
  | UpdateGuestConfig (node : string) (vmid : N) (gt : GuestType) (params : list (string * string))
  | RegenerateCloudinit (node : string) (vmid : N)
  (** [execute_guest_command] of a QEMU guest: a POST, though it is meant to look only *)
  | AgentExec (node : string) (vmid : N) (command : string).

(** What a gateway answers, and the clock the waiting loop reads. *)
Class Gateway (W : Type) := {
  answer : MutCall -> W -> Result AnyErr string * W;
  pve_find_guest : N -> W -> Result AnyErr (option Guest) * W;
  pve_next_free_vmid : W -> Result AnyErr N * W;
  pve_get_next_vmid : W -> Result AnyErr N * W;
  pve_task_status : string -> string -> W -> Result AnyErr TaskStatus * W;
  clock_ms : W -> N;
  sleep_ms : N -> W -> W;
}.
(** Time passes, by at least what is slept. *)
Class GatewayClock (W : Type) {G : Gateway W} : Prop := {
  task_status_clock node upid w : (clock_ms w <= clock_ms (pve_task_status node upid w).2)%N;
  sleep_clock ms w : (clock_ms w + ms <= clock_ms (sleep_ms ms w))%N;
}.

Record World (W : Type) := mkWorld { pve : W; calls : list MutCall }.
Arguments mkWorld {W} _ _.
Arguments pve {W} _.
Arguments calls {W} _.

Section gateway.
Context {W : Type} {G : Gateway W}.

Definition issue (c : MutCall) : SM (World W) AnyErr string := fun w =>
  let '(r, p) := answer c (pve w) in (r, mkWorld p (calls w ++ [c])).
Definition query {A} (q : W -> Result AnyErr A * W) : SM (World W) AnyErr A := fun w =>
  let '(r, p) := q (pve w) in (r, mkWorld p (calls w)).

Definition find_guest (vmid : N) : SM (World W) AnyErr (option Guest) := query (pve_find_guest vmid).
Definition next_free_vmid : SM (World W) AnyErr N := query pve_next_free_vmid.
Definition get_next_vmid : SM (World W) AnyErr N := query pve_get_next_vmid.
Definition get_task_status (node upid : string) : SM (World W) AnyErr TaskStatus :=
  query (pve_task_status node upid).

(** ** cli/common.rs *)
Inductive BatchOp :=
  | BatchStart
  | BatchStop (force : bool) (timeout_secs : N)
  | BatchRestart
  | BatchSuspend
  | BatchResume.

Definition exec_cli_batch_op (node : string) (vmid : N) (gt : GuestType) (op : BatchOp)
    : SM (World W) AnyErr string :=
  match op with
  | BatchStart => issue (StartGuest node vmid gt)
  | BatchStop true _ => issue (StopGuest node vmid gt true)
  | BatchStop false timeout_secs => issue (ShutdownGuest node vmid gt timeout_secs)
  | BatchRestart => issue (RestartGuest node vmid gt)
  | BatchSuspend => issue (SuspendGuest node vmid gt)
  | BatchResume => issue (ResumeGuest node vmid gt)
  end.

Definition DEFAULT_TASK_TIMEOUT_SECS : N := 3600.
Definition POLL_INTERVAL_MS : N := 1500.

(** The loop; without fuel it ends as at the deadline. *)
Fixpoint poll_loop (fuel : nat) (node upid : string) (effective deadline : N) (w : World W)
    : Result AnyErr TaskStatus * World W :=
  match get_task_status node upid w with
  | (Err e, w) => (Err e, w)
  | (Ok status, w) =>
      let late := bail ("task " +:+ upid +:+ " did not complete within " +:+ pretty effective
                        +:+ "s (status: " +:+ ts_status status +:+ ")") in
      if is_done status then (Ok status, w)
      else if (deadline <=? clock_ms (pve w))%N then (Err late, w)
      else match fuel with
           | 0 => (Err late, w)
           | S fuel' =>
               poll_loop fuel' node upid effective deadline
                 (mkWorld (sleep_ms POLL_INTERVAL_MS (pve w)) (calls w))
           end
  end.

(** One poll per interval until the deadline. *)
Definition poll_fuel (effective : N) : nat := S (N.to_nat (effective * 1000 / POLL_INTERVAL_MS)).

Definition poll_task_until_done (node upid : string) (timeout_secs : N) : SM (World W) AnyErr TaskStatus :=
  let effective := if (0 <? timeout_secs)%N then timeout_secs else DEFAULT_TASK_TIMEOUT_SECS in
  fun w => poll_loop (poll_fuel effective) node upid effective (clock_ms (pve w) + effective * 1000) w.

(** ** cli/vm.rs: cloud-init *)
Record Ipconfig := mkIpconfig {
  ic_ip : option string;
  ic_gw : option string;
  ic_ip6 : option string;
  ic_gw6 : option string;
  ic_extra : list (string * string);
}.

Definition ipconfig_token (out : Ipconfig) (token : string) : Result AnyErr Ipconfig :=
  match split_once "=" token with
  | None => Err (bail ("ipconfig token '" +:+ token +:+ "' missing '=' separator (expected `key=value`)"))
  | Some (k, v) =>
      let '(k, v) := (trim k, trim v) in
      if is_empty k then Err (bail ("ipconfig token '" +:+ token +:+ "' has empty key"))
      else if bool_decide (k = "ip")
      then Ok (mkIpconfig (Some v) (ic_gw out) (ic_ip6 out) (ic_gw6 out) (ic_extra out))
      else if bool_decide (k = "gw")
      then Ok (mkIpconfig (ic_ip out) (Some v) (ic_ip6 out) (ic_gw6 out) (ic_extra out))
      else if bool_decide (k = "ip6")
      then Ok (mkIpconfig (ic_ip out) (ic_gw out) (Some v) (ic_gw6 out) (ic_extra out))
      else if bool_decide (k = "gw6")
      then Ok (mkIpconfig (ic_ip out) (ic_gw out) (ic_ip6 out) (Some v) (ic_extra out))
      else Ok (mkIpconfig (ic_ip out) (ic_gw out) (ic_ip6 out) (ic_gw6 out) (ic_extra out ++ [(k, v)]))
  end.
Fixpoint ipconfig_tokens (tokens : list string) (out : Ipconfig) : Result AnyErr Ipconfig :=
  match tokens with
  | [] => Ok out
  | t :: ts => out' ← ipconfig_token out t; ipconfig_tokens ts out'
  end.
Definition ipconfig_from_str (s : string) : Result AnyErr Ipconfig :=
  let out := mkIpconfig None None None None [] in
  if is_empty (trim s) then Ok out else ipconfig_tokens (split_char "," s) out.

Definition kv_part (k : string) (o : option string) : list string :=
  match o with Some v => [k +:+ "=" +:+ v] | None => [] end.
Definition ipconfig_to_string (c : Ipconfig) : string :=
  join "," (kv_part "ip" (ic_ip c) ++ kv_part "gw" (ic_gw c) ++ kv_part "ip6" (ic_ip6 c)
            ++ kv_part "gw6" (ic_gw6 c) ++ ((fun kv => kv.1 +:+ "=" +:+ kv.2) <$> ic_extra c)).

Record CloudInitProfile := mkCloudInitProfile {
  ci_ciuser : option string;
  ci_cipassword : option string;
  ci_sshkey : option string;
  ci_sshkey_file : option string;
  ci_ipconfig0 : option string;
  ci_searchdomain : option string;
  ci_nameserver : option string;
}.

Definition opt_param (k : string) (o : option string) : list (string * string) :=
  match o with Some v => [(k, v)] | None => [] end.
Definition to_params (p : CloudInitProfile) : Result AnyErr (list (string * string)) :=
  ip ← match ci_ipconfig0 p with
       | None => Ok []
       | Some v => parsed ← ipconfig_from_str v; Ok [("ipconfig0", ipconfig_to_string parsed)]
       end;
  Ok (opt_param "ciuser" (ci_ciuser p) ++ opt_param "cipassword" (ci_cipassword p)
      ++ opt_param "sshkeys" (ci_sshkey p) ++ ip
      ++ opt_param "searchdomain" (ci_searchdomain p) ++ opt_param "nameserver" (ci_nameserver p)).

(** The keys that were set; [None] when there was nothing to apply. *)
Definition apply_cloudinit_and_regen (node : string) (vmid : N) (gt : GuestType) (profile : CloudInitProfile)
    : SM (World W) AnyErr (option (list string)) :=
  match gt with
  | Lxc => throw (bail ("cloud-init is QEMU-only — VMID " +:+ pretty vmid +:+ " is an LXC container"))
  | Qemu =>
      params ← lift (to_params profile);
      match params with
      | [] => mret None
      | _ =>
          issue (UpdateGuestConfig node vmid gt params) ;;
          issue (RegenerateCloudinit node vmid) ;;
          mret (Some (fst <$> params))
      end
  end.
End gateway.
Arguments World : clear implicits.

(** ** The waiting loop ends *)
Section poll.
Context {W : Type} {G : Gateway W} {GC : GatewayClock W}.

(** Fuel for one poll per interval up to the deadline decides the result: more
    changes nothing. *)
Lemma poll_loop_fuel fuel k node upid effective deadline w :
  (deadline <= clock_ms (pve w) + N.of_nat fuel * POLL_INTERVAL_MS)%N ->
  poll_loop (fuel + k) node upid effective deadline w = poll_loop fuel node upid effective deadline w.
Proof.
  revert w. induction fuel as [|fuel IH]; intros w Hd.
  - destruct k as [|k]; [done|]. cbn [Nat.add poll_loop]. unfold get_task_status, query.
    pose proof (task_status_clock node upid (pve w)) as Hc.
    destruct (pve_task_status node upid (pve w)) as [[s|e] p]; [|done]. simpl in Hc. cbn [pve calls].
    destruct (is_done s); [done|]. cbn [pve]. destruct (N.leb_spec deadline (clock_ms p)); [done|lia].
  - cbn [Nat.add poll_loop]. unfold get_task_status, query.
    pose proof (task_status_clock node upid (pve w)) as Hc.
    destruct (pve_task_status node upid (pve w)) as [[s|e] p]; [|done]. simpl in Hc. cbn [pve calls].
    destruct (is_done s); [done|]. cbn [pve]. destruct (N.leb_spec deadline (clock_ms p)); [done|].
    apply IH. cbn [pve]. pose proof (sleep_clock POLL_INTERVAL_MS p). lia.
Qed.

Lemma poll_task_until_done_fuel k node upid effective w :
  poll_loop (poll_fuel effective + k) node upid effective (clock_ms (pve w) + effective * 1000) w
  = poll_loop (poll_fuel effective) node upid effective (clock_ms (pve w) + effective * 1000) w.
Proof.
  apply poll_loop_fuel. unfold poll_fuel. rewrite Nat2N.inj_succ, N2Nat.id.
  pose proof (N.div_mod' (effective * 1000) POLL_INTERVAL_MS) as Hdm.
  pose proof (N.mod_lt (effective * 1000) POLL_INTERVAL_MS ltac:(done)) as Hlt.
  unfold POLL_INTERVAL_MS in *. lia.
Qed.
End poll.
