(* ===== verification/HitlOps.v ===== *)
(** * Approved operations: the typed half of hitl/daemon.rs, [Shape] of
      mcp/tools.rs and the MCP executors of mcp/dispatch.rs

    [decode] turns a stored request back into an [ApprovedOp]; the executors
    carry one out through the gateway.  Reading JSON text is [serde_json]'s
    and the parameter [JsonRead]: it gives the members of an object as they
    stand in the text, and the derived readers below refuse unknown, missing
    and repeated ones (the texts of those refusals are abbreviated).  A JSON
    array, which serde would also take for a struct, is left out: the senders
    only store objects. *)

From S2P Require Import Prelude.
From S2P Require Import Json.
From S2P Require Import ApiError.
From S2P Require Import Guest.
From S2P Require Import GuestPreflight.
From S2P Require Import HitlPending.
From S2P Require Import Sanitize.
From S2P Require Import Gateway.

(** ** [Shape] of mcp/tools.rs *)
Inductive Shape := ShapeAny | ShapeName | ShapeUpid.

Definition is_ascii_alphanumeric (n : N) : bool :=
  ((48 <=? n) && (n <=? 57) || (65 <=? n) && (n <=? 90) || (97 <=? n) && (n <=? 122))%N.
(** The characters of each class are all ASCII, so one byte decides. *)
Definition shape_ok_char (sh : Shape) (c : string) : bool :=
  match sh, c with
  | ShapeAny, _ => true
  | ShapeName, String a "" =>
      is_ascii_alphanumeric (N_of_ascii a) || bool_decide (c ∈ ["-"; "_"; "."])
  | ShapeUpid, String a "" =>
      is_ascii_alphanumeric (N_of_ascii a) || bool_decide (c ∈ ["-"; "_"; "."; ":"; "@"; "!"])
  | _, _ => false
  end.
(** [format!("{c:?}")] of a character. *)
Definition debug_char (c : string) : string :=
  "'" +:+ (if bool_decide (c = "'") then String (ascii_of_N 92) "'"
           else if bool_decide (c = String (ascii_of_N 34) "") then c
           else escape_debug_str c) +:+ "'".

Definition shape_check (sh : Shape) (value : string) : Result string unit :=
  match sh with
  | ShapeAny => Ok ()
  | _ =>
      if is_empty value then Err "must not be empty"
      else if bool_decide (256 < String.length value)
      then Err ("must be at most 256 bytes, got " +:+ pretty (String.length value))
      else match List.find (fun c => negb (shape_ok_char sh c)) (chars value) with
           | Some bad =>
               Err ("contains " +:+ debug_char bad +:+ ", which is not allowed here (letters, digits and "
                    +:+ "a small punctuation set only — a value that can carry a path "
                    +:+ "separator or a relative segment is refused at the boundary)")
           | None =>
               if forallb (fun c => bool_decide (c = ".")) (chars value)
               then Err "must not be a relative path segment"
               else Ok ()
           end
  end.

(** ** Parameter payloads *)
Class JsonRead := value_of_text : string -> Result string Value.

(** [#[serde(deny_unknown_fields)]]: members, aliases resolved, none twice. *)
Definition members (known : list string) (alias : string -> string) (v : Value)
    : Result string (list (string * Value)) :=
  match v with
  | JObject m =>
      let m := (fun kv => (alias kv.1, kv.2)) <$> m in
      if negb (known_fields known m) then Err "unknown field"
      else if negb (bool_decide (NoDup m.*1)) then Err "duplicate field"
      else Ok m
  | _ => Err "invalid type: expected a map"
  end.
Definition de_req {A} (k : string) (f : Value -> Result string A) (m : list (string * Value)) : Result string A :=
  match jget k m with None => Err ("missing field `" +:+ k +:+ "`") | Some v => f v end.
Definition de_as_u64 (v : Value) : Result string N :=
  match v with
  | JNumber z =>
      if bool_decide (0 <= z <= Z.of_N u64_max)%Z then Ok (Z.to_N z) else Err "invalid value: expected u64"
  | _ => Err "invalid type: expected u64"
  end.
Definition no_alias (k : string) : string := k.

Record CliStopParams := mkCliStop { cs_force : bool; cs_timeout_secs : N }.
Record McpStopGuestParams := mkMcpStop { ms_guest_id : N; ms_force : bool }.
Record McpGuestIdParams := mkMcpGuestId { mg_guest_id : N }.
Record McpSnapshotParams := mkMcpSnapshot { mn_guest_id : N; mn_name : string }.
Record McpCloneGuestParams := mkMcpClone {
  mc_guest_id : N; mc_newid : N; mc_name : option string; mc_full : bool }.
Record McpMigrateGuestParams := mkMcpMigrate { mm_guest_id : N; mm_target_node : string; mm_online : bool }.
Record McpCreateGuestParams := mkMcpCreate {
  cg_node : string;
  cg_guest_type : string;
  cg_vmid : option N;
  cg_name : option string;
  cg_memory : option N;
  cg_cores : option N;
  cg_storage : option string;
  cg_disk_size : option N;
  cg_template : option string;
  cg_iso : option string;
  cg_bridge : option string;
}.
Record McpCloneWithCloudinitParams := mkMcpCloneCi {
  cc_guest_id : N;
  cc_newid : N;
  cc_name : option string;
  cc_full : bool;
  cc_ciuser : option string;
  cc_sshkey : option string;
  cc_ipconfig0 : option string;
  cc_searchdomain : option string;
  cc_nameserver : option string;
}.

Definition read_cli_empty (v : Value) : Result string unit :=
  members [] no_alias v ;; Ok ().
Definition read_cli_stop (v : Value) : Result string CliStopParams :=
  m ← members ["force"; "timeout_secs"]
        (fun k => if bool_decide (k = "timeout") then "timeout_secs" else k) v;
  force ← de_field "force" false de_as_bool m;
  timeout ← de_field "timeout_secs" 60%N de_as_u32 m;
  Ok (mkCliStop force timeout).
Definition read_mcp_stop (v : Value) : Result string McpStopGuestParams :=
  m ← members ["guest_id"; "force"] no_alias v;
  guest_id ← de_req "guest_id" de_as_u32 m;
  force ← de_field "force" false de_as_bool m;
  Ok (mkMcpStop guest_id force).
Definition read_mcp_guest_id (v : Value) : Result string McpGuestIdParams :=
  m ← members ["guest_id"] no_alias v;
  guest_id ← de_req "guest_id" de_as_u32 m;
  Ok (mkMcpGuestId guest_id).
Definition read_mcp_snapshot (v : Value) : Result string McpSnapshotParams :=
  m ← members ["guest_id"; "name"] no_alias v;
  guest_id ← de_req "guest_id" de_as_u32 m;
  name ← de_req "name" de_as_str m;
  Ok (mkMcpSnapshot guest_id name).
Definition read_mcp_clone (v : Value) : Result string McpCloneGuestParams :=
  m ← members ["guest_id"; "newid"; "name"; "full"] no_alias v;
  guest_id ← de_req "guest_id" de_as_u32 m;
  newid ← de_field "newid" 0%N de_as_u32 m;
  name ← de_field "name" None (de_as_opt de_as_str) m;
  full ← de_field "full" false de_as_bool m;
  Ok (mkMcpClone guest_id newid name full).
Definition read_mcp_migrate (v : Value) : Result string McpMigrateGuestParams :=
  m ← members ["guest_id"; "target_node"; "online"] no_alias v;
  guest_id ← de_req "guest_id" de_as_u32 m;
  target ← de_req "target_node" de_as_str m;
  online ← de_field "online" true de_as_bool m;
  Ok (mkMcpMigrate guest_id target online).
Definition read_mcp_create (v : Value) : Result string McpCreateGuestParams :=
  m ← members ["node"; "type"; "vmid"; "name"; "memory"; "cores"; "storage"; "disk_size"; "template";
               "iso"; "bridge"] no_alias v;
  node ← de_req "node" de_as_str m;
  guest_type ← de_req "type" de_as_str m;
  vmid ← de_field "vmid" None (de_as_opt de_as_u32) m;
  name ← de_field "name" None (de_as_opt de_as_str) m;
  memory ← de_field "memory" None (de_as_opt de_as_u64) m;
  cores ← de_field "cores" None (de_as_opt de_as_u64) m;
  storage ← de_field "storage" None (de_as_opt de_as_str) m;
  disk_size ← de_field "disk_size" None (de_as_opt de_as_u64) m;
  template ← de_field "template" None (de_as_opt de_as_str) m;
  iso ← de_field "iso" None (de_as_opt de_as_str) m;
  bridge ← de_field "bridge" None (de_as_opt de_as_str) m;
  Ok (mkMcpCreate node guest_type vmid name memory cores storage disk_size template iso bridge).
Definition read_mcp_clone_ci (v : Value) : Result string McpCloneWithCloudinitParams :=
  m ← members ["guest_id"; "newid"; "name"; "full"; "ciuser"; "sshkey"; "ipconfig0"; "searchdomain";
               "nameserver"] no_alias v;
  guest_id ← de_req "guest_id" de_as_u32 m;
  newid ← de_field "newid" 0%N de_as_u32 m;
  name ← de_field "name" None (de_as_opt de_as_str) m;
  full ← de_field "full" false de_as_bool m;
  ciuser ← de_field "ciuser" None (de_as_opt de_as_str) m;
  sshkey ← de_field "sshkey" None (de_as_opt de_as_str) m;
  ipconfig0 ← de_field "ipconfig0" None (de_as_opt de_as_str) m;
  searchdomain ← de_field "searchdomain" None (de_as_opt de_as_str) m;
  nameserver ← de_field "nameserver" None (de_as_opt de_as_str) m;
  Ok (mkMcpCloneCi guest_id newid name full ciuser sshkey ipconfig0 searchdomain nameserver).

(** ** [ApprovedOp] *)
Inductive ApprovedOp :=
  | CliStart
  | CliStop (p : CliStopParams)
  | CliRestart
  | CliSuspend
  | CliResume
  | McpStopGuest (p : McpStopGuestParams)
  | McpRestartGuest (p : McpGuestIdParams)
  | McpDeleteGuest (p : McpGuestIdParams)
  | McpCreateSnapshot (p : McpSnapshotParams)
  | McpDeleteSnapshot (p : McpSnapshotParams)
  | McpSuspendGuest (p : McpGuestIdParams)
  | McpCloneGuest (p : McpCloneGuestParams)
  | McpMigrateGuest (p : McpMigrateGuestParams)
  | McpCreateGuest (p : McpCreateGuestParams)
  | McpCloneWithCloudinit (p : McpCloneWithCloudinitParams).

(** [map_err(|e| format!("{name}: {e}"))] *)
Definition prefix_err {A} (name : string) (r : Result string A) : Result string A :=
  match r with Ok a => Ok a | Err e => Err (name +:+ ": " +:+ e) end.

Definition check_cli_vmid (request : PendingRequest) : Result string N :=
  match pr_vmid request with
  | Some v => if (0 <? v)%N then Ok v
              else Err ("missing positive vmid for CLI action '" +:+ pr_action request +:+ "'")
  | None => Err ("missing positive vmid for CLI action '" +:+ pr_action request +:+ "'")
  end.

Definition check_mcp_guest_id (row_vmid : option N) (guest_id : N) : Result string unit :=
  if (guest_id =? 0)%N then Err "guest_id must be positive"
  else match row_vmid with
       | Some rv =>
           if negb (rv =? guest_id)%N
           then Err ("row vmid (" +:+ pretty rv +:+ ") does not match params.guest_id (" +:+ pretty guest_id +:+ ")")
           else Ok ()
       | None => Ok ()
       end.

Definition check_opt_name (what : string) (o : option string) : Result string unit :=
  match o with None => Ok () | Some name => prefix_err what (shape_check ShapeName name) end.

Section decode.
Context {JR : JsonRead}.

(** [serde_json::from_str(raw)] *)
Definition from_str {A} (read : Value -> Result string A) (raw : string) : Result string A :=
  v ← value_of_text raw; read v.

Definition decode_create_guest (raw : string) (row_vmid : option N) : Result string ApprovedOp :=
  p ← prefix_err "create_guest" (from_str read_mcp_create raw);
  prefix_err "create_guest.node" (shape_check ShapeName (cg_node p)) ;;
  if negb (bool_decide (cg_guest_type p = "qemu")) && negb (bool_decide (cg_guest_type p = "lxc"))
  then Err ("create_guest: invalid type '" +:+ cg_guest_type p +:+ "' (expected 'qemu' or 'lxc')")
  else if bool_decide (cg_guest_type p = "lxc") && bool_decide (cg_template p = None)
  then Err "create_guest lxc: missing 'template'"
  else
    check_opt_name "create_guest.name" (cg_name p) ;;
    check_opt_name "create_guest.storage" (cg_storage p) ;;
    match row_vmid, cg_vmid p with
    | Some rv, Some pv =>
        if negb (rv =? pv)%N
        then Err ("row vmid (" +:+ pretty rv +:+ ") does not match params.vmid (" +:+ pretty pv +:+ ")")
        else Ok (McpCreateGuest p)
    | _, _ => Ok (McpCreateGuest p)
    end.

Definition decode (request : PendingRequest) : Result string ApprovedOp :=
  let raw := pr_params_json request in
  let action := pr_action request in
  let decode_empty_cli name := check_cli_vmid request ;; prefix_err name (from_str read_cli_empty raw) in
  let decode_guest_id_mcp name :=
    p ← prefix_err name (from_str read_mcp_guest_id raw);
    check_mcp_guest_id (pr_vmid request) (mg_guest_id p) ;; Ok p in
  let decode_snapshot_mcp name :=
    p ← prefix_err name (from_str read_mcp_snapshot raw);
    check_mcp_guest_id (pr_vmid request) (mn_guest_id p) ;;
    prefix_err (name +:+ ".name") (shape_check ShapeName (mn_name p)) ;; Ok p in
  if bool_decide (action = "start") then decode_empty_cli "start" ;; Ok CliStart
  else if bool_decide (action = "stop") then
    check_cli_vmid request ;; p ← prefix_err "stop" (from_str read_cli_stop raw); Ok (CliStop p)
  else if bool_decide (action = "restart") then decode_empty_cli "restart" ;; Ok CliRestart
  else if bool_decide (action = "suspend") then decode_empty_cli "suspend" ;; Ok CliSuspend
  else if bool_decide (action = "resume") then decode_empty_cli "resume" ;; Ok CliResume
  else if bool_decide (action = "stop_guest") then
    p ← prefix_err "stop_guest" (from_str read_mcp_stop raw);
    check_mcp_guest_id (pr_vmid request) (ms_guest_id p) ;; Ok (McpStopGuest p)
  else if bool_decide (action = "restart_guest") then
    p ← decode_guest_id_mcp "restart_guest"; Ok (McpRestartGuest p)
  else if bool_decide (action = "delete_guest") then
    p ← decode_guest_id_mcp "delete_guest"; Ok (McpDeleteGuest p)
  else if bool_decide (action = "create_snapshot") then
    p ← decode_snapshot_mcp "create_snapshot"; Ok (McpCreateSnapshot p)
  else if bool_decide (action = "delete_snapshot") then
    p ← decode_snapshot_mcp "delete_snapshot"; Ok (McpDeleteSnapshot p)
  else if bool_decide (action = "suspend_guest") then
    p ← decode_guest_id_mcp "suspend_guest"; Ok (McpSuspendGuest p)
  else if bool_decide (action = "clone_guest") then
    p ← prefix_err "clone_guest" (from_str read_mcp_clone raw);
    check_mcp_guest_id (pr_vmid request) (mc_guest_id p) ;;
    check_opt_name "clone_guest.name" (mc_name p) ;; Ok (McpCloneGuest p)
  else if bool_decide (action = "migrate_guest") then
    p ← prefix_err "migrate_guest" (from_str read_mcp_migrate raw);
    check_mcp_guest_id (pr_vmid request) (mm_guest_id p) ;;
    prefix_err "migrate_guest.target_node" (shape_check ShapeName (mm_target_node p)) ;; Ok (McpMigrateGuest p)
  else if bool_decide (action = "create_guest") then decode_create_guest raw (pr_vmid request)
  else if bool_decide (action = "clone_with_cloudinit") then
    p ← prefix_err "clone_with_cloudinit" (from_str read_mcp_clone_ci raw);
    check_mcp_guest_id (pr_vmid request) (cc_guest_id p) ;;
    check_opt_name "clone_with_cloudinit.name" (cc_name p) ;; Ok (McpCloneWithCloudinit p)
  else Err ("unknown action '" +:+ action +:+ "'").
End decode.

Definition preflight_op (op : ApprovedOp) : option Op :=
  match op with
  | CliStop _ | McpStopGuest _ => Some OpStop
  | CliRestart | McpRestartGuest _ => Some OpRestart
  | McpDeleteGuest _ => Some OpDelete
  | McpMigrateGuest _ => Some OpMigrate
  | CliStart | CliSuspend | CliResume | McpCreateSnapshot _ | McpDeleteSnapshot _ | McpSuspendGuest _
  | McpCloneGuest _ | McpCreateGuest _ | McpCloneWithCloudinit _ => None
  end.

Definition existing_guest_vmid (op : ApprovedOp) (request : PendingRequest) : option N :=
  match op with
  | CliStart | CliStop _ | CliRestart | CliSuspend | CliResume => pr_vmid request
  | McpStopGuest p => Some (ms_guest_id p)
  | McpRestartGuest p | McpDeleteGuest p | McpSuspendGuest p => Some (mg_guest_id p)
  | McpCreateSnapshot p | McpDeleteSnapshot p => Some (mn_guest_id p)
  | McpCloneGuest p => Some (mc_guest_id p)
  | McpMigrateGuest p => Some (mm_guest_id p)
  | McpCreateGuest _ => None
  | McpCloneWithCloudinit p => Some (cc_guest_id p)
  end.

Definition positive_vmid (v : N) : option N := if (0 <? v)%N then Some v else None.
Definition or_else {A} (a b : option A) : option A := match a with Some _ => a | None => b end.

Definition free_target_vmid (op : ApprovedOp) (request : PendingRequest) : option N :=
  match op with
  | McpCreateGuest p => or_else (cg_vmid p) (pr_vmid request) ≫= positive_vmid
  | McpCloneGuest p => positive_vmid (mc_newid p)
  | McpCloneWithCloudinit p => positive_vmid (cc_newid p)
  | _ => None
  end.

Definition target_vmid (op : ApprovedOp) (request : PendingRequest) : N :=
  default 0%N (or_else (or_else (existing_guest_vmid op request) (free_target_vmid op request)) (pr_vmid request)).

(** ** The executors of mcp/dispatch.rs *)
Section exec.
Context {W : Type} {G : Gateway W}.

Definition exec_stop_guest (node : string) (gt : GuestType) (p : McpStopGuestParams) : SM (World W) AnyErr string :=
  if ms_force p then issue (StopGuest node (ms_guest_id p) gt true)
  else issue (ShutdownGuest node (ms_guest_id p) gt 60).
Definition exec_restart_guest (node : string) (gt : GuestType) (p : McpGuestIdParams) : SM (World W) AnyErr string :=
  issue (RestartGuest node (mg_guest_id p) gt).
Definition exec_delete_guest (node : string) (gt : GuestType) (p : McpGuestIdParams) : SM (World W) AnyErr string :=
  issue (DeleteGuest node (mg_guest_id p) gt).
Definition exec_create_snapshot (node : string) (gt : GuestType) (p : McpSnapshotParams) : SM (World W) AnyErr string :=
  issue (CreateSnapshot node (mn_guest_id p) gt (mn_name p)).
Definition exec_delete_snapshot (node : string) (gt : GuestType) (p : McpSnapshotParams) : SM (World W) AnyErr string :=
  issue (DeleteSnapshot node (mn_guest_id p) gt (mn_name p)).
Definition exec_suspend_guest (node : string) (gt : GuestType) (p : McpGuestIdParams) : SM (World W) AnyErr string :=
  issue (SuspendGuest node (mg_guest_id p) gt).
Definition exec_clone_guest (node : string) (gt : GuestType) (p : McpCloneGuestParams)
    : SM (World W) AnyErr (N * string) :=
  newid ← (if (mc_newid p =? 0)%N then next_free_vmid else mret (mc_newid p));
  upid ← issue (CloneGuest node (mc_guest_id p) gt newid (mc_name p) (mc_full p));
  mret (newid, upid).
Definition exec_migrate_guest (node : string) (gt : GuestType) (p : McpMigrateGuestParams)
    : SM (World W) AnyErr string :=
  issue (MigrateGuest node (mm_guest_id p) gt (mm_target_node p) (mm_online p) false false).

(** The bodies of the two create calls. *)
Definition lxc_params (vmid : N) (template : string) (p : McpCreateGuestParams) : list (string * string) :=
  let memory := default 512%N (cg_memory p) in
  let cores := default 1%N (cg_cores p) in
  let bridge := default "vmbr0" (cg_bridge p) in
  let size := default 8%N (cg_disk_size p) in
  let rootfs_storage := default "local-lvm" (cg_storage p) in
  [("vmid", pretty vmid); ("ostemplate", template); ("memory", pretty memory); ("cores", pretty cores);
   ("rootfs", rootfs_storage +:+ ":" +:+ pretty size);
   ("net0", "name=eth0,bridge=" +:+ bridge +:+ ",ip=dhcp")]
  ++ opt_param "hostname" (cg_name p).
Definition qemu_params (vmid : N) (p : McpCreateGuestParams) : list (string * string) :=
  let memory := default 1024%N (cg_memory p) in
  let cores := default 1%N (cg_cores p) in
  let bridge := default "vmbr0" (cg_bridge p) in
  let size := default 32%N (cg_disk_size p) in
  [("vmid", pretty vmid); ("memory", pretty memory); ("cores", pretty cores); ("ostype", "l26");
   ("scsihw", "virtio-scsi-pci"); ("net0", "virtio,bridge=" +:+ bridge)]
  ++ opt_param "name" (cg_name p)
  ++ opt_param "scsi0" ((fun st => st +:+ ":" +:+ pretty size) <$> cg_storage p)
  ++ opt_param "cdrom" (cg_iso p).

Definition exec_create_guest (p : McpCreateGuestParams) : SM (World W) AnyErr (N * string) :=
  if negb (bool_decide (cg_guest_type p = "qemu")) && negb (bool_decide (cg_guest_type p = "lxc"))
  then throw (bail ("create_guest: invalid type '" +:+ cg_guest_type p +:+ "' (expected 'qemu' or 'lxc')"))
  else
    vmid ← (match cg_vmid p ≫= positive_vmid with Some id => mret id | None => get_next_vmid end);
    upid ← (if bool_decide (cg_guest_type p = "lxc")
            then match cg_template p with
                 | None => throw (bail "create_guest lxc: missing 'template'")
                 | Some template => issue (CreateLxc (cg_node p) (lxc_params vmid template p))
                 end
            else issue (CreateQemu (cg_node p) (qemu_params vmid p)));
    mret (vmid, upid).

Definition debug_opt_str (o : option string) : string :=
  match o with None => "None" | Some s => "Some(" +:+ debug_str s +:+ ")" end.

Definition exec_clone_with_cloudinit (node : string) (gt : GuestType) (p : McpCloneWithCloudinitParams)
    : SM (World W) AnyErr (N * string * option (list string)) :=
  let vmid := cc_guest_id p in
  match gt with
  | Lxc => throw (bail ("clone_with_cloudinit: VMID " +:+ pretty vmid +:+ " is LXC — cloud-init is QEMU-only"))
  | Qemu =>
      newid ← (if (cc_newid p =? 0)%N then next_free_vmid else mret (cc_newid p));
      let profile := mkCloudInitProfile (cc_ciuser p) None (cc_sshkey p) None (cc_ipconfig0 p)
                       (cc_searchdomain p) (cc_nameserver p) in
      upid ← issue (CloneGuest node vmid gt newid (cc_name p) (cc_full p));
      status ← poll_task_until_done node upid 0;
      if negb (is_success status)
      then throw (bail ("clone task did not succeed (status=" +:+ debug_opt_str (ts_exitstatus status)
                        +:+ "); cloud-init not applied"))
      else ci ← apply_cloudinit_and_regen node newid gt profile; mret (newid, upid, ci)
  end.

(** ** [execute_approved_op] of hitl/daemon.rs *)
Definition with_vmid (v : option N) (p : McpCreateGuestParams) : McpCreateGuestParams :=
  mkMcpCreate (cg_node p) (cg_guest_type p) v (cg_name p) (cg_memory p) (cg_cores p) (cg_storage p)
    (cg_disk_size p) (cg_template p) (cg_iso p) (cg_bridge p).

Definition execute_approved_op (op : ApprovedOp) (row_vmid : option N)
    (bound_existing : option (N * string * GuestType)) : SM (World W) AnyErr string :=
  let require_bound : SM (World W) AnyErr (N * string * GuestType) :=
    lift (ok_or (bail "missing bound guest context") bound_existing) in
  let batch bop := '(vmid, node, gt) ← require_bound; exec_cli_batch_op node vmid gt bop in
  match op with
  | CliStart => batch BatchStart
  | CliStop p => batch (BatchStop (cs_force p) (cs_timeout_secs p))
  | CliRestart => batch BatchRestart
  | CliSuspend => batch BatchSuspend
  | CliResume => batch BatchResume
  | McpStopGuest p => '(_, node, gt) ← require_bound; exec_stop_guest node gt p
  | McpRestartGuest p => '(_, node, gt) ← require_bound; exec_restart_guest node gt p
  | McpDeleteGuest p => '(_, node, gt) ← require_bound; exec_delete_guest node gt p
  | McpCreateSnapshot p => '(_, node, gt) ← require_bound; exec_create_snapshot node gt p
  | McpDeleteSnapshot p => '(_, node, gt) ← require_bound; exec_delete_snapshot node gt p
  | McpSuspendGuest p => '(_, node, gt) ← require_bound; exec_suspend_guest node gt p
  | McpCloneGuest p =>
      '(_, node, gt) ← require_bound; '(_, upid) ← exec_clone_guest node gt p; mret upid
  | McpMigrateGuest p => '(_, node, gt) ← require_bound; exec_migrate_guest node gt p
  | McpCreateGuest p =>
      let effective := match cg_vmid p with None => with_vmid row_vmid p | Some _ => p end in
      '(_, upid) ← exec_create_guest effective; mret upid
  | McpCloneWithCloudinit p =>
      '(_, node, gt) ← require_bound; '(_, upid, _) ← exec_clone_with_cloudinit node gt p; mret upid
  end.
End exec.
