(* ===== verification/HitlDaemon.v ===== *)
(** * The approval daemon: [handle_callback_update] of hitl/daemon.rs

    One Telegram update against the store, the cluster and the chat: verify
    the press, count it, and when it completes the approval decode the stored
    operation, check that it still applies to the guest it was asked for,
    carry it out and record how it ended.  [d1] and [d2] are what the database
    answers to the vote and to the final record, [slow] whether the "Executing"
    notice goes out before the operation returns.  Theorems are in
    [HitlDaemonSpec]. *)

From S2P Require Import Prelude.
From S2P Require Import Json.
From S2P Require Import ApiError.
From S2P Require Import Guest.
From S2P Require Import GuestPreflight.
From S2P Require Import Mac.
From S2P Require Import HitlPending.
From S2P Require Import HitlCallback.
From S2P Require Import Sanitize.
From S2P Require Import Gateway.
From S2P Require Import HitlOps.

Inductive CallbackOutcome :=
  | CoExecuted (action : string) (vmid : N) (upid : string)
  | CoExecuteFailed (action : string) (vmid : N) (error : string)
  | CoDenied (action : string) (vmid : N)
  | CoReplay (txn_id : string)
  | CoExpired (id : string)
  | CoUnknownRequest (id : string)
  | CoNodeNotFound (vmid : N)
  | CoNotACallback
  | CoInvalidFormat (data : string)
  | CoUnknownAction (action : string) (vmid : N)
  | CoUnauthorizedApprover (user_id : Z)
  | CoWrongChat (chat_id : Z)
  | CoAwaitingApprovals (have need : nat).

Definition answer_text (r : CallbackRejection) : option string :=
  match r with
  | MissingData => None
  | Unsigned _ => Some "❌ Unsigned callback refused — daemon upgrade needed"
  | InvalidSignature _ => Some "❌ Signature verification failed"
  | MissingChat | WrongChat _ => Some "❌ Wrong chat — refused"
  | NoApproversConfigured _ => Some "❌ No approver allowlist configured — refused. See `allowed_approvers`."
  | UnauthorizedApprover _ => Some "❌ Not an authorised approver — refused"
  | LegacyFormat _ => Some "⚠️ This approval button is from an older proxxx, request again"
  | InvalidPayload _ => Some "❌ Invalid transaction ID format"
  end.

Definition map_rejection_to_outcome (rej : CallbackRejection) : CallbackOutcome :=
  match rej with
  | MissingData => CoNotACallback
  | Unsigned data | InvalidSignature data | LegacyFormat data | InvalidPayload data => CoInvalidFormat data
  | MissingChat => CoWrongChat 0
  | WrongChat chat_id => CoWrongChat chat_id
  | NoApproversConfigured user_id | UnauthorizedApprover user_id => CoUnauthorizedApprover user_id
  end.

(** What is sent to the chat. *)
Inductive TgMessage :=
  | AnswerCallback (cb_id text : string)
  | EditMessageText (message_id : Z) (text : string).

Record DaemonWorld (W : Type) := mkDaemonWorld {
  cluster : World W;
  table : Table;
  chat : list TgMessage;
}.
Arguments mkDaemonWorld {W} _ _ _.
Arguments cluster {W} _.
Arguments table {W} _.
Arguments chat {W} _.

Definition nl : string := String newline "".

Section daemon.
Context {W : Type} {G : Gateway W} {JT : JsonText} {JR : JsonRead} {M : Mac}.

Definition say (msgs : list TgMessage) (w : DaemonWorld W) : DaemonWorld W :=
  mkDaemonWorld (cluster w) (table w) (chat w ++ msgs).
Definition set_table (t : Table) (w : DaemonWorld W) : DaemonWorld W := mkDaemonWorld (cluster w) t (chat w).
Definition on_cluster {A} (m : SM (World W) AnyErr A) (w : DaemonWorld W) : Result AnyErr A * DaemonWorld W :=
  let '(r, c) := m (cluster w) in (r, mkDaemonWorld c (table w) (chat w)).

(** [edit_status]: nothing to edit when the press came without a message. *)
Definition edit_text (cb : CallbackQuery) (text : string) : list TgMessage :=
  match cb_message cb with Some m => [EditMessageText (msg_message_id m) text] | None => [] end.
Definition user_label (cb : CallbackQuery) : string :=
  default (user_first_name (cb_from cb)) (user_username (cb_from cb)).
Definition edit_status (cb : CallbackQuery) (action : string) (vmid : N) (status : string) : list TgMessage :=
  edit_text cb ("🔔 HITL request: " +:+ action +:+ " VMID " +:+ pretty vmid +:+ nl +:+ nl +:+ status
                +:+ " (by @" +:+ user_label cb +:+ ")").

(** The failing end of the handler, before and after execution: the row is
    closed as failed, then the chat is told. *)
Definition record_failure (d2 : Result AnyErr unit) (cb : CallbackQuery) (request : PendingRequest)
    (err_str : string) (vmid : N) (w : DaemonWorld W) : Result AnyErr CallbackOutcome * DaemonWorld W :=
  let w := set_table (mark_failed d2 (pr_id request) err_str (table w)).2 w in
  let w := say [AnswerCallback (cb_id cb) ("❌ Failed: " +:+ err_str)] w in
  let w := say (edit_status cb (pr_action request) vmid
                  ("❌ Failed: " +:+ truncate_ellipsis err_str 200)) w in
  (Ok (CoExecuteFailed (pr_action request) vmid err_str), w).

(** What the checks before execution decide: the guest the operation is bound
    to, a refusal (with the VMID it reports), or a cluster that did not answer. *)
Inductive Binding :=
  | Bound (b : option (N * string * GuestType))
  | Refused (err_str : string) (vmid : N)
  | Unreachable (e : AnyErr).

Definition non_empty (s : string) : option string := if is_empty s then None else Some s.

Definition bind_existing (op : ApprovedOp) (request : PendingRequest) (source_vmid : N) (w : DaemonWorld W)
    : Binding * DaemonWorld W :=
  match pr_node request ≫= non_empty, pr_guest_type request with
  | Some exp_node, Some exp_gt =>
      match on_cluster (find_guest source_vmid) w with
      | (Err e, w) => (Unreachable e, w)
      | (Ok (Some g), w) =>
          if bool_decide (g_node g = exp_node) && bool_decide (g_guest_type g = exp_gt)
          then
            match preflight_op op with
            | Some preflight =>
                let risks := assess preflight g in
                if bool_decide (max_level risks = Severe)
                then (Refused ("preflight refused the " +:+ Op_as_str preflight +:+ " at execution:" +:+ nl
                               +:+ render_risks risks) source_vmid, w)
                else (Bound (Some (source_vmid, g_node g, g_guest_type g)), w)
            | None => (Bound (Some (source_vmid, g_node g, g_guest_type g)), w)
            end
          else (Refused ("guest changed since the request (expected " +:+ exp_node +:+ "/"
                         +:+ GuestType_as_str exp_gt +:+ ", found " +:+ g_node g +:+ "/"
                         +:+ GuestType_as_str (g_guest_type g) +:+ ")") source_vmid, w)
      | (Ok None, w) =>
          (Refused ("guest changed since the request (expected " +:+ exp_node +:+ "/"
                    +:+ GuestType_as_str exp_gt +:+ ", found missing)") source_vmid, w)
      end
  | _, _ => (Refused "request has no recorded guest binding (node/type); request again" source_vmid, w)
  end.

Definition bind_new (op : ApprovedOp) (request : PendingRequest) (effective_vmid : N) : Binding :=
  match op with
  | McpCreateGuest params =>
      let exp_gt := GuestType_as_str <$> pr_guest_type request in
      let differs (expected : option string) (found : string) : bool :=
        match expected with Some e => negb (bool_decide (e = found)) | None => false end in
      if differs (pr_node request) (cg_node params) || differs exp_gt (cg_guest_type params)
      then Refused ("guest changed since the request (expected " +:+ default "<any>" (pr_node request) +:+ "/"
                    +:+ default "<any>" exp_gt +:+ ", found " +:+ cg_node params +:+ "/"
                    +:+ cg_guest_type params +:+ ")") effective_vmid
      else Bound None
  | _ => Bound None
  end.

(** The target of a create or clone must still be free. *)
Definition check_free (op : ApprovedOp) (request : PendingRequest) (effective_vmid : N)
    (b : option (N * string * GuestType)) (w : DaemonWorld W) : Binding * DaemonWorld W :=
  match free_target_vmid op request with
  | None => (Bound b, w)
  | Some new_vmid =>
      match on_cluster (find_guest new_vmid) w with
      | (Err e, w) => (Unreachable e, w)
      | (Ok (Some g), w) =>
          (Refused ("guest changed since the request (expected target VMID " +:+ pretty new_vmid
                    +:+ " to be free, found " +:+ g_node g +:+ "/" +:+ GuestType_as_str (g_guest_type g)
                    +:+ ")") effective_vmid, w)
      | (Ok None, w) => (Bound b, w)
      end
  end.

Definition bind_guest (op : ApprovedOp) (request : PendingRequest) (w : DaemonWorld W) : Binding * DaemonWorld W :=
  let effective_vmid := target_vmid op request in
  let '(first, w) := match existing_guest_vmid op request with
                     | Some source_vmid => bind_existing op request source_vmid w
                     | None => (bind_new op request effective_vmid, w)
                     end in
  match first with
  | Bound b => check_free op request effective_vmid b w
  | _ => (first, w)
  end.

(** From the approval to the end. *)
Definition run_approved (slow : bool) (d2 : Result AnyErr unit) (cb : CallbackQuery) (request : PendingRequest)
    (w : DaemonWorld W) : Result AnyErr CallbackOutcome * DaemonWorld W :=
  let vmid := default 0%N (pr_vmid request) in
  match decode request with
  | Err reason => record_failure d2 cb request ("cannot decode approved operation: " +:+ reason) vmid w
  | Ok op =>
      let effective_vmid := target_vmid op request in
      match bind_guest op request w with
      | (Refused err_str v, w) => record_failure d2 cb request err_str v w
      | (Unreachable e, w) =>
          (Err e, set_table (mark_failed d2 (pr_id request) (show_err e) (table w)).2 w)
      | (Bound bound_existing, w) =>
          let '(res, w) := on_cluster (execute_approved_op op (pr_vmid request) bound_existing) w in
          let w := if slow
                   then say (edit_text cb ("🔔 HITL request: " +:+ pr_action request +:+ " VMID "
                               +:+ pretty effective_vmid +:+ nl +:+ nl +:+ "⏳ Executing… (by @"
                               +:+ user_label cb +:+ ")")) w
                   else w in
          match res with
          | Ok upid =>
              let w := set_table (mark_executed d2 (pr_id request) upid (table w)).2 w in
              let w := say [AnswerCallback (cb_id cb) "✅ Executed"] w in
              let w := say (edit_status cb (pr_action request) effective_vmid ("✅ Done — " +:+ upid)) w in
              (Ok (CoExecuted (pr_action request) effective_vmid upid), w)
          | Err e => record_failure d2 cb request (show_outer e) effective_vmid w
          end
      end
  end.

Definition handle_callback_update (gw : TelegramGateway) (d1 d2 : Result AnyErr unit) (now : Z) (slow : bool)
    (update : option CallbackQuery) (w : DaemonWorld W) : Result AnyErr CallbackOutcome * DaemonWorld W :=
  match update with
  | None => (Ok CoNotACallback, w)
  | Some cb =>
      match verify_callback gw cb with
      | Err rej =>
          let w := match answer_text rej with Some ans => say [AnswerCallback (cb_id cb) ans] w | None => w end in
          (Ok (map_rejection_to_outcome rej), w)
      | Ok verified =>
          let '(r, t) := process_callback_at d1 (vc_txn_id verified) (vc_decision verified)
                           (vc_approver_id verified) now (table w) in
          let w := set_table t w in
          match r with
          | Err e => (Err e, w)
          | Ok UnknownRequest =>
              (Ok (CoUnknownRequest (vc_txn_id verified)), say [AnswerCallback (cb_id cb) "⚠️ Unknown request"] w)
          | Ok (Expired request) =>
              let w := say [AnswerCallback (cb_id cb) "⏰ Request expired — request again"] w in
              let w := say (edit_status cb (pr_action request) (default 0%N (pr_vmid request)) "⏰ Expired") w in
              (Ok (CoExpired (pr_id request)), w)
          | Ok (AlreadyHandled request) =>
              (Ok (CoReplay (pr_id request)),
               say [AnswerCallback (cb_id cb)
                      ("⚠️ Already handled (" +:+ RequestStatus_as_str (pr_status request) +:+ ")")] w)
          | Ok (Denied request) =>
              let vmid := default 0%N (pr_vmid request) in
              let w := say [AnswerCallback (cb_id cb) "🚫 Denied"] w in
              let w := say (edit_status cb (pr_action request) vmid "🚫 Denied") w in
              (Ok (CoDenied (pr_action request) vmid), w)
          | Ok (AwaitingApprovals request have need duplicate) =>
              let vmid := default 0%N (pr_vmid request) in
              let count := pretty have +:+ "/" +:+ pretty need in
              let note := if duplicate then "You already approved — " +:+ count
                          else "Recorded — " +:+ count +:+ " approvals" in
              let w := say [AnswerCallback (cb_id cb) note] w in
              let w := say (edit_status cb (pr_action request) vmid
                              ("⏳ Awaiting approval (" +:+ count +:+ ")")) w in
              (Ok (CoAwaitingApprovals have need), w)
          | Ok (Approved request) => run_approved slow d2 cb request w
          end
      end
  end.
End daemon.
