(* ===== verification/HitlDaemonSpec.v ===== *)
(** * What the approval daemon promises

    [emits P m] bounds what a computation sends to the cluster; with it the
    theorems say that an operation reaches the cluster only after its approval,
    only on the guest it was asked for and as it was asked, that an approved
    request is closed unless the database refuses the record, and that it runs
    at most once over any interleaving of presses, senders and restarts. *)

From S2P Require Import Prelude.
From S2P Require Import Json.
From S2P Require Import ApiError.
From S2P Require Import Guest.
From S2P Require Import GuestPreflight.
From S2P Require Import Mac.
From S2P Require Import HitlPending.
From S2P Require Import HitlCallback.
From S2P Require Import Gateway.
From S2P Require Import HitlOps.
From S2P Require Import HitlDaemon.

(** ** What a computation sends *)
Section emits.
Context {W : Type} {G : Gateway W}.

Definition emits {A} (P : MutCall -> Prop) (m : SM (World W) AnyErr A) : Prop :=
  forall w r w', m w = (r, w') -> exists cs, calls w' = calls w ++ cs /\ Forall P cs.

Lemma emits_ret {A} P (a : A) : emits P (mret a).
Proof. intros w r w' [= <- <-]. exists []. by rewrite app_nil_r. Qed.
Lemma emits_throw {A} P e : emits P (throw (A := A) e).
Proof. intros w r w' [= <- <-]. exists []. by rewrite app_nil_r. Qed.
Lemma emits_lift {A} P (x : Result AnyErr A) : emits P (lift x).
Proof. intros w r w' [= <- <-]. exists []. by rewrite app_nil_r. Qed.
Lemma emits_query {A} P (q : W -> Result AnyErr A * W) : emits P (query q).
Proof.
  intros w r w' E. unfold query in E. destruct (q (pve w)). injection E as <- <-. exists []. by rewrite app_nil_r.
Qed.
Lemma emits_issue (P : MutCall -> Prop) c : P c -> emits P (issue c).
Proof.
  intros Hc w r w' E. unfold issue in E. destruct (answer c (pve w)). injection E as <- <-. exists [c]. auto.
Qed.
Lemma emits_bind {A B} P (m : SM (World W) AnyErr A) (k : A -> SM (World W) AnyErr B) :
  emits P m -> (forall a, emits P (k a)) -> emits P (m ≫= k).
Proof.
  intros Hm Hk w r w' E. unfold mbind, SM_bind in E. destruct (m w) as [[a|e] w1] eqn:E1.
  - destruct (Hm _ _ _ E1) as (cs1 & H1 & F1). destruct (Hk a _ _ _ E) as (cs2 & H2 & F2).
    exists (cs1 ++ cs2). rewrite H2, H1, <- app_assoc. split; [done|]. by apply Forall_app.
  - injection E as <- <-. by eapply Hm.
Qed.
(** With the value of the first computation known. *)
Lemma emits_lift_bind {A B} P (x : Result AnyErr A) (k : A -> SM (World W) AnyErr B) :
  (forall a, x = Ok a -> emits P (k a)) -> emits P (lift x ≫= k).
Proof.
  intros Hk w r w' E. unfold mbind, SM_bind, lift in E. destruct x as [a|e]; [by eapply Hk|].
  injection E as <- <-. exists []. by rewrite app_nil_r.
Qed.

Lemma emits_poll P node upid timeout : emits P (poll_task_until_done node upid timeout).
Proof.
  intros w r w' E. exists []. rewrite app_nil_r. split; [|constructor].
  unfold poll_task_until_done in E. revert E. generalize (clock_ms (pve w)). intros c.
  set (eff := if (0 <? timeout)%N then timeout else DEFAULT_TASK_TIMEOUT_SECS).
  generalize (poll_fuel eff). intros fuel. revert w. generalize (c + eff * 1000)%N. intros d.
  induction fuel as [|fuel IH]; intros w E; simpl in E; unfold get_task_status, query in E;
    destruct (pve_task_status node upid (pve w)) as [[s|e] p]; simpl in E; try by injection E as _ <-.
  - destruct (is_done s); [by injection E as _ <-|]. destruct (_ <=? _)%N; by injection E as _ <-.
  - destruct (is_done s); [by injection E as _ <-|]. destruct (_ <=? _)%N; [by injection E as _ <-|].
    by apply IH in E.
Qed.
End emits.
#[export] Hint Resolve emits_ret emits_throw emits_lift emits_query emits_poll emits_issue : proxxx.

(** Decomposes a computation into its calls. *)
Ltac emits_tac :=
  repeat first
    [ progress auto with proxxx
    | match goal with
      | |- emits _ (lift _ ≫= _) => apply emits_lift_bind; intros ? ?
      | |- emits _ (_ ≫= _) => apply emits_bind; [|intros ?]
      | |- emits _ (if ?b then _ else _) => destruct b
      | |- emits _ (match ?x with _ => _ end) => destruct x eqn:?
      | |- emits _ (find_guest _) => unfold find_guest
      | |- emits _ next_free_vmid => unfold next_free_vmid
      | |- emits _ get_next_vmid => unfold get_next_vmid
      end ].

(** ** What a request allows *)

(** The node a call goes to, and the existing guest it acts on. *)
Definition call_node (c : MutCall) : string :=
  match c with
  | StartGuest n _ _ | StopGuest n _ _ _ | ShutdownGuest n _ _ _ | RestartGuest n _ _ | SuspendGuest n _ _
  | ResumeGuest n _ _ | DeleteGuest n _ _ | CreateSnapshot n _ _ _ | DeleteSnapshot n _ _ _
  | CloneGuest n _ _ _ _ _ | MigrateGuest n _ _ _ _ _ _ | CreateLxc n _ | CreateQemu n _
  | UpdateGuestConfig n _ _ _ | RegenerateCloudinit n _ | AgentExec n _ _ => n
  end.
Definition call_guest (c : MutCall) : option (N * GuestType) :=
  match c with
  | StartGuest _ v gt | StopGuest _ v gt _ | ShutdownGuest _ v gt _ | RestartGuest _ v gt | SuspendGuest _ v gt
  | ResumeGuest _ v gt | DeleteGuest _ v gt | CreateSnapshot _ v gt _ | DeleteSnapshot _ v gt _
  | CloneGuest _ v gt _ _ _ | MigrateGuest _ v gt _ _ _ _ => Some (v, gt)
  | AgentExec _ v _ => Some (v, Qemu)
  | CreateLxc _ _ | CreateQemu _ _ | UpdateGuestConfig _ _ _ _ | RegenerateCloudinit _ _ => None
  end.
(** The calls an action stands for. *)
Definition call_actions (c : MutCall) : list string :=
  match c with
  | StartGuest _ _ _ => ["start"]
  | StopGuest _ _ _ _ | ShutdownGuest _ _ _ _ => ["stop"; "stop_guest"]
  | RestartGuest _ _ _ => ["restart"; "restart_guest"]
  | SuspendGuest _ _ _ => ["suspend"; "suspend_guest"]
  | ResumeGuest _ _ _ => ["resume"]
  | DeleteGuest _ _ _ => ["delete_guest"]
  | CreateSnapshot _ _ _ _ => ["create_snapshot"]
  | DeleteSnapshot _ _ _ _ => ["delete_snapshot"]
  | CloneGuest _ _ _ _ _ _ => ["clone_guest"; "clone_with_cloudinit"]
  | MigrateGuest _ _ _ _ _ _ _ => ["migrate_guest"]
  | CreateLxc _ _ | CreateQemu _ _ => ["create_guest"]
  | UpdateGuestConfig _ _ _ _ | RegenerateCloudinit _ _ => ["clone_with_cloudinit"]
  | AgentExec _ _ _ => []
  end.

(** [p] recorded this node, this guest and this kind of operation. *)
Definition as_requested (p : PendingRequest) (c : MutCall) : Prop :=
  pr_action p ∈ call_actions c /\
  (pr_node p = Some (call_node c) \/ (pr_node p = None /\ pr_action p = "create_guest")) /\
  match call_guest c with
  | Some (v, gt) => pr_guest_type p = Some gt /\ (pr_vmid p = Some v \/ pr_vmid p = None)
  | None => True
  end.

Definition op_action (op : ApprovedOp) : string :=
  match op with
  | CliStart => "start" | CliStop _ => "stop" | CliRestart => "restart" | CliSuspend => "suspend"
  | CliResume => "resume" | McpStopGuest _ => "stop_guest" | McpRestartGuest _ => "restart_guest"
  | McpDeleteGuest _ => "delete_guest" | McpCreateSnapshot _ => "create_snapshot"
  | McpDeleteSnapshot _ => "delete_snapshot" | McpSuspendGuest _ => "suspend_guest"
  | McpCloneGuest _ => "clone_guest" | McpMigrateGuest _ => "migrate_guest"
  | McpCreateGuest _ => "create_guest" | McpCloneWithCloudinit _ => "clone_with_cloudinit"
  end.

Section decode.
Context {JR : JsonRead}.

Lemma check_mcp_guest_id_Ok rv g u : check_mcp_guest_id rv g = Ok u -> rv = Some g \/ rv = None.
Proof.
  unfold check_mcp_guest_id. destruct (g =? 0)%N; [done|]. destruct rv as [v|]; [|by right].
  destruct (N.eqb_spec v g); [subst; by left|done].
Qed.
Lemma check_cli_vmid_Ok p v : check_cli_vmid p = Ok v -> pr_vmid p = Some v.
Proof. unfold check_cli_vmid. destruct (pr_vmid p) as [x|]; [|done]. destruct (0 <? x)%N; congruence. Qed.
Lemma result_bind_Ok {E A B} (x : Result E A) (k : A -> Result E B) b :
  x ≫= k = Ok b -> exists a, x = Ok a /\ k a = Ok b.
Proof. destruct x as [a|e]; [by exists a|done]. Qed.

Lemma decode_create_guest_Ok raw rv op :
  decode_create_guest raw rv = Ok op -> exists params, op = McpCreateGuest params.
Proof.
  unfold decode_create_guest. intros (p & _ & H)%result_bind_Ok. apply result_bind_Ok in H as (? & _ & H).
  destruct (_ && _) in H; [done|]. destruct (_ && _) in H; [done|].
  apply result_bind_Ok in H as (? & _ & H). apply result_bind_Ok in H as (? & _ & H). exists p.
  destruct rv as [rv|], (cg_vmid p) as [pv|]; try congruence. destruct (negb _); congruence.
Qed.

(** A decoded operation is of the stored action and, if it acts on an existing
    guest, on the stored VMID. *)
Lemma decode_Ok p op :
  decode p = Ok op ->
  pr_action p = op_action op /\
  (forall v, existing_guest_vmid op p = Some v -> pr_vmid p = Some v \/ pr_vmid p = None) /\
  (existing_guest_vmid op p = None -> exists params, op = McpCreateGuest params).
Proof.
  unfold decode. intros H.
  repeat match type of H with
  | (if bool_decide ?P then _ else _) = _ => case_bool_decide
  end; try done.
  all: repeat match goal with
  | H : _ ≫= _ = Ok _ |- _ => apply result_bind_Ok in H as (? & ? & ?)
  | H : check_mcp_guest_id _ _ = Ok _ |- _ => apply check_mcp_guest_id_Ok in H
  | H : check_cli_vmid _ = Ok _ |- _ => apply check_cli_vmid_Ok in H
  | H : Ok _ = Ok _ |- _ => injection H as ?
  end; subst.
  all: try (split_and!; [done|..]; simpl; intros; simplify_eq; auto; done || congruence; fail).
  apply decode_create_guest_Ok in H as [params ->]. split_and!; [done|done|]. by exists params.
Qed.
End decode.

Section exec.
Context {W : Type} {G : Gateway W} {JT : JsonText} {JR : JsonRead} {M : Mac}.
Implicit Types (w : DaemonWorld W) (p : PendingRequest).

(** The binding the checks established for [op]. *)
Definition bound_as_requested (op : ApprovedOp) p (b : option (N * string * GuestType)) : Prop :=
  match existing_guest_vmid op p with
  | Some v => exists n gt, b = Some (v, n, gt) /\ pr_node p = Some n /\ pr_guest_type p = Some gt
  | None => forall params, op = McpCreateGuest params -> pr_node p = Some (cg_node params) \/ pr_node p = None
  end.

Lemma execute_emits op p b :
  decode p = Ok op -> bound_as_requested op p b ->
  emits (as_requested p) (execute_approved_op (W := W) op (pr_vmid p) b).
Proof.
  intros (Ha & Hv & Hnone)%decode_Ok Hb. unfold bound_as_requested in Hb.
  destruct (existing_guest_vmid op p) as [v|] eqn:Ev.
  - destruct Hb as (n & gt & -> & Hn & Hgt). specialize (Hv v eq_refl).
    assert (forall c, pr_action p ∈ call_actions c -> call_node c = n ->
              call_guest c = Some (v, gt) \/ call_guest c = None -> as_requested p c) as Hok.
    { intros c H1 H2 H3. split_and!; [done|left; by rewrite H2|]. destruct H3 as [-> | ->]; auto. }
    rewrite Ha in Hok.
    destruct op; simplify_eq/=; unfold execute_approved_op; cbn [ok_or]; apply emits_lift_bind;
      intros [[? ?] ?] [= <- <- <-]; unfold exec_stop_guest, exec_restart_guest, exec_delete_guest,
      exec_create_snapshot, exec_delete_snapshot, exec_suspend_guest, exec_clone_guest, exec_migrate_guest,
      exec_clone_with_cloudinit, exec_cli_batch_op, apply_cloudinit_and_regen; emits_tac;
      apply emits_issue, Hok; simpl; auto; set_solver.
  - destruct (Hnone eq_refl) as [params ->]. simpl in Ha. specialize (Hb params eq_refl).
    assert (forall c, "create_guest" ∈ call_actions c -> call_node c = cg_node params ->
              call_guest c = None -> as_requested p c) as Hok.
    { intros c H1 H2 H3. rewrite <- Ha in H1. split_and!; [done| |by rewrite H3]. rewrite H2.
      destruct Hb; auto. }
    unfold execute_approved_op, exec_create_guest. cbv zeta.
    assert (forall e, cg_node e = cg_node params -> emits (as_requested p) (
      '(_, upid) ← exec_create_guest (W := W) e; mret upid)) as He.
    { intros e He. unfold exec_create_guest. emits_tac; apply emits_issue, Hok; simpl; auto; set_solver. }
    apply He. by destruct (cg_vmid params).
Qed.

Lemma on_cluster_inv {A} (m : SM (World W) AnyErr A) w r w' :
  on_cluster m w = (r, w') -> m (cluster w) = (r, cluster w') /\ table w' = table w.
Proof. unfold on_cluster. destruct (m (cluster w)) as [r0 c]. by intros [= <- <-]. Qed.

Lemma find_guest_inv v w r w' :
  on_cluster (find_guest v) w = (r, w') ->
  r = (pve_find_guest v (pve (cluster w))).1 /\ pve (cluster w') = (pve_find_guest v (pve (cluster w))).2 /\
  calls (cluster w') = calls (cluster w) /\ table w' = table w.
Proof.
  intros [E Ht]%on_cluster_inv. unfold find_guest, query in E.
  destruct (pve_find_guest v (pve (cluster w))) as [r0 p0]. injection E as <- E. by rewrite <- E.
Qed.

(** The guest the operation is bound to is alive, is the one that was asked
    for, and the operation is not dangerous on it now. *)
Definition still_applies (op : ApprovedOp) p (pv : W) : Prop :=
  match existing_guest_vmid op p with
  | Some v => exists g, (pve_find_guest v pv).1 = Ok (Some g) /\ pr_node p = Some (g_node g) /\
                pr_guest_type p = Some (g_guest_type g) /\
                forall pop, preflight_op op = Some pop -> ~ blocked pop g
  | None => True
  end.
(** The cluster as the second check finds it. *)
Definition after_first_check (op : ApprovedOp) p (pv : W) : W :=
  match existing_guest_vmid op p with Some v => (pve_find_guest v pv).2 | None => pv end.
Definition target_free (op : ApprovedOp) p (pv : W) : Prop :=
  forall nv, free_target_vmid op p = Some nv -> (pve_find_guest nv (after_first_check op p pv)).1 = Ok None.

Definition unchanged w w' : Prop := calls (cluster w') = calls (cluster w) /\ table w' = table w.

Lemma severe_blocked pop g : max_level (assess pop g) <> Severe -> ~ blocked pop g.
Proof. unfold max_level. rewrite max_of_severe, assess_severe. done. Qed.

Lemma bind_existing_spec op p v w bnd w' :
  existing_guest_vmid op p = Some v -> bind_existing op p v w = (bnd, w') ->
  unchanged w w' /\
  forall b, bnd = Bound b ->
    bound_as_requested op p b /\ still_applies op p (pve (cluster w)) /\
    pve (cluster w') = (pve_find_guest v (pve (cluster w))).2.
Proof.
  unfold bind_existing, bound_as_requested, still_applies, unchanged. intros Ev E. rewrite Ev.
  destruct (pr_node p) as [n|] eqn:En; [|by injection E as <- <-]. csimpl in E. unfold non_empty in E.
  destruct (is_empty n) eqn:Ene; csimpl in E; [by injection E as <- <-|].
  destruct (pr_guest_type p) as [gt|] eqn:Eg; [|by injection E as <- <-].
  destruct (on_cluster (find_guest v) w) as [r w1] eqn:Ef.
  apply find_guest_inv in Ef as (Er & Ep & Ec & Et).
  destruct r as [[g|]|e]; [|by injection E as <- <-|by injection E as <- <-].
  case_bool_decide as H1; [|by injection E as <- <-]. case_bool_decide as H2; [|by injection E as <- <-].
  cbn [andb] in E.
  assert (forall b, Bound (Some (v, g_node g, g_guest_type g)) = Bound b ->
            (forall pop, preflight_op op = Some pop -> ~ blocked pop g) ->
            (exists n' gt', b = Some (v, n', gt') /\ Some n = Some n' /\ Some gt = Some gt') /\
            (exists g', (pve_find_guest v (pve (cluster w))).1 = Ok (Some g') /\ Some n = Some (g_node g') /\
               Some gt = Some (g_guest_type g') /\ forall pop, preflight_op op = Some pop -> ~ blocked pop g') /\
            pve (cluster w1) = (pve_find_guest v (pve (cluster w))).2) as Hgood.
  { intros b [= <-] Hnb. split; [|split; [|done]].
    - exists n, gt. split_and!; congruence.
    - exists g. split_and!; [congruence|congruence|congruence|done]. }
  destruct (preflight_op op) as [pop|] eqn:Epop.
  - case_bool_decide as H3; injection E as <- <-; [done|]. split; [done|]. intros b Hb.
    apply Hgood; [done|]. intros pop' [= <-]. by apply severe_blocked.
  - injection E as <- <-. split; [done|]. intros b Hb. by apply Hgood.
Qed.

Lemma bind_new_spec op p ev b :
  existing_guest_vmid op p = None -> bind_new op p ev = Bound b -> bound_as_requested op p b.
Proof.
  unfold bind_new, bound_as_requested. intros -> E params ->.
  destruct (pr_node p) as [n|]; [|by right]. left. case_bool_decide; [congruence|done].
Qed.

Lemma bind_guest_spec op p w bnd w' :
  bind_guest op p w = (bnd, w') ->
  unchanged w w' /\
  forall b, bnd = Bound b ->
    bound_as_requested op p b /\ still_applies op p (pve (cluster w)) /\ target_free op p (pve (cluster w)).
Proof.
  unfold bind_guest. intros E.
  destruct (match existing_guest_vmid op p with Some v => _ | None => _ end) as [first w1] eqn:E1.
  assert (unchanged w w1 /\ forall b, first = Bound b ->
            bound_as_requested op p b /\ still_applies op p (pve (cluster w)) /\
            pve (cluster w1) = after_first_check op p (pve (cluster w))) as [Hu1 Hb1].
  { unfold after_first_check. destruct (existing_guest_vmid op p) as [v|] eqn:Ev.
    - by apply bind_existing_spec.
    - injection E1 as <- <-. split; [done|]. intros b Hb. unfold still_applies. rewrite Ev.
      split_and!; [by eapply bind_new_spec|done|done]. }
  destruct first as [b0|err v|e]; [|injection E as <- <-; by split|injection E as <- <-; by split].
  destruct (Hb1 b0 eq_refl) as (Hbr & Hsa & Hp1). unfold check_free in E.
  destruct (free_target_vmid op p) as [nv|] eqn:Enf.
  - destruct (on_cluster (find_guest nv) w1) as [r w2] eqn:Ef.
    apply find_guest_inv in Ef as (Er & _ & Ec & Et).
    assert (unchanged w w2) as Hu2 by (unfold unchanged in *; destruct Hu1; split; congruence).
    destruct r as [[g|]|e]; injection E as <- <-; (split; [done|]); intros b Hb; try done.
    injection Hb as <-. split_and!; [done|done|]. intros nv' Hnv. rewrite Enf in Hnv. injection Hnv as <-.
    by rewrite <- Hp1.
  - injection E as <- <-. split; [done|]. intros b [= <-]. split_and!; [done|done|].
    intros nv Hnv. congruence.
Qed.

Lemma record_failure_cluster d2 cb p err v w r w' :
  record_failure d2 cb p err v w = (r, w') ->
  cluster w' = cluster w /\ table w' = (mark_failed d2 (pr_id p) err (table w)).2 /\
  r = Ok (CoExecuteFailed (pr_action p) v err).
Proof. unfold record_failure. by intros [= <- <-]. Qed.

(** What [run_approved] sends. *)
Lemma run_approved_calls slow d2 cb p w r w' :
  run_approved slow d2 cb p w = (r, w') ->
  exists cs, calls (cluster w') = calls (cluster w) ++ cs /\ Forall (as_requested p) cs /\
    (cs <> [] -> exists op, decode p = Ok op /\ still_applies op p (pve (cluster w)) /\
                  target_free op p (pve (cluster w))).
Proof.
  unfold run_approved. intros E.
  assert (forall w0, calls (cluster w0) = calls (cluster w) -> exists cs,
            calls (cluster w0) = calls (cluster w) ++ cs /\ Forall (as_requested p) cs /\
            (cs <> [] -> exists op, decode p = Ok op /\ still_applies op p (pve (cluster w)) /\
                  target_free op p (pve (cluster w)))) as Hnone.
  { intros w0 H0. exists []. by rewrite app_nil_r. }
  destruct (decode p) as [op|reason] eqn:Ed.
  2: { apply record_failure_cluster in E as (E & _). apply Hnone. by rewrite E. }
  destruct (bind_guest op p w) as [bnd w1] eqn:Eb. destruct (bind_guest_spec _ _ _ _ _ Eb) as [[Hc1 _] Hbnd].
  destruct bnd as [b|err v|e].
  - destruct (Hbnd b eq_refl) as (Hbr & Hsa & Htf).
    destruct (on_cluster _ w1) as [res w2] eqn:Ex. apply on_cluster_inv in Ex as [Ex _].
    destruct (execute_emits op p b Ed Hbr _ _ _ Ex) as (cs & Hcs & Hall).
    assert (calls (cluster w') = calls (cluster w2)) as Hw'.
    { destruct res as [upid|e]; [by injection E as _ <-; destruct slow|].
      apply record_failure_cluster in E as (-> & _). by destruct slow. }
    exists cs. rewrite Hw', Hcs, Hc1. split_and!; [done|done|]. intros _. by exists op.
  - apply record_failure_cluster in E as (E & _). apply Hnone. by rewrite E.
  - injection E as _ <-. by apply Hnone.
Qed.

(** The handler outside of an approval sends nothing and leaves the store as
    the vote left it. *)
Lemma handle_cases gw d1 d2 now slow update w :
  let '(r, w') := handle_callback_update gw d1 d2 now slow update w in
  (cluster w' = cluster w /\
   (table w' = table w \/
    exists cb v, update = Some cb /\ verify_callback gw cb = Ok v /\
      table w' = (process_callback_at d1 (vc_txn_id v) (vc_decision v) (vc_approver_id v) now (table w)).2 /\
      forall p, (process_callback_at d1 (vc_txn_id v) (vc_decision v) (vc_approver_id v) now (table w)).1
                <> Ok (Approved p)))
  \/ exists cb v p t,
       update = Some cb /\ verify_callback gw cb = Ok v /\
       process_callback_at d1 (vc_txn_id v) (vc_decision v) (vc_approver_id v) now (table w) = (Ok (Approved p), t) /\
       run_approved slow d2 cb p (set_table t w) = (r, w').
Proof.
  unfold handle_callback_update. destruct update as [cb|]; [|by left; split; [|left]].
  destruct (verify_callback gw cb) as [v|rej] eqn:Ev; cbv beta iota zeta.
  2: { left. destruct (answer_text rej); by split; [|left]. }
  destruct (process_callback_at _ _ _ _ _ _) as [res t] eqn:Ep.
  destruct res as [[]|e]; cbv beta iota zeta; try (left; split; [done|right; exists cb, v; rewrite Ep; by split_and!]).
  destruct (run_approved _ _ _ _ _) as [r w'] eqn:Er. right. by exists cb, v, request, t.
Qed.

(** C9: Nothing is executed that was not approved, and only what was asked
    for: whatever update arrives, if the handler sends anything to the cluster, the press
    verified for this chat and approver, the store answered [Approved] for its request,
    every call is of the recorded action on the recorded node, guest and type, the live guest
    was still the recorded one and the operation was not dangerous on it (locked, HA-managed,
    or running and about to be deleted), and a VMID to be created was free. *)
Theorem executed_only_as_approved gw d1 d2 now slow update w :
  let w' := (handle_callback_update gw d1 d2 now slow update w).2 in
  exists cs, calls (cluster w') = calls (cluster w) ++ cs /\
  (cs <> [] -> exists cb v p t op,
     update = Some cb /\ verify_callback gw cb = Ok v /\
     process_callback_at d1 (vc_txn_id v) (vc_decision v) (vc_approver_id v) now (table w) = (Ok (Approved p), t) /\
     decode p = Ok op /\ Forall (as_requested p) cs /\
     still_applies op p (pve (cluster w)) /\ target_free op p (pve (cluster w))).
Proof.
  pose proof (handle_cases gw d1 d2 now slow update w) as H.
  destruct (handle_callback_update gw d1 d2 now slow update w) as [r w']. simpl.
  destruct H as [[-> _]|(cb & v & p & t & -> & Ev & Ep & Er)].
  - exists []. by rewrite app_nil_r.
  - destruct (run_approved_calls _ _ _ _ _ _ _ Er) as (cs & Hcs & Hall & Hop). exists cs. split; [done|].
    intros Hne. destruct (Hop Hne) as (op & Ed & Hs & Hf). by exists cb, v, p, t, op.
Qed.

(** ** An approved request is closed *)
Lemma approved_row d1 id d a now t0 p t :
  process_callback_at d1 id d a now t0 = (Ok (Approved p), t) -> 
  pr_id p = id /\ exists row, t !! id = Some row /\ row_status row = "approved".
Proof.
  intros [[_ H] | (row & q & _ & Hr & Hq & _ & Hc)]%process_callback_cases; [by edestruct H|].
  destruct Hc as [(s & _ & _ & H) | (_ & _ & Hc)]; [by edestruct H|]. cbv zeta in Hc.
  case_bool_decide; destruct Hc as [Hc Ht]; [|by edestruct Ht]. injection Hc as ->. subst t.
  apply read_row_inv in Hq as (Hid & _). split; [done|]. rewrite lookup_alter_eq, Hr. by eexists.
Qed.

Definition closed_as (row : Row) (r : Result AnyErr CallbackOutcome) : Prop :=
  match r with
  | Ok (CoExecuted _ _ upid) => row_status row = "executed" /\ row_upid row = Some upid /\ row_error row = None
  | Ok (CoExecuteFailed _ _ err) => row_status row = "failed" /\ row_error row = Some err
  | Err e => row_status row = "failed" /\ row_error row = Some (show_err e)
  | _ => False
  end.

Lemma mark_failed_row id err (t : Table) :
  is_Some (t !! id) -> exists row, (mark_failed (Ok ()) id err t).2 !! id = Some row /\
    row_status row = "failed" /\ row_error row = Some err.
Proof. intros [row H]. simpl. rewrite lookup_alter_eq, H. simpl. by eexists. Qed.

Lemma run_approved_closes slow cb p w r w' :
  is_Some (table w !! pr_id p) -> run_approved slow (Ok ()) cb p w = (r, w') ->
  exists row, table w' !! pr_id p = Some row /\ closed_as row r.
Proof.
  intros Hrow. unfold run_approved.
  assert (forall err v w0, table w0 = table w -> record_failure (Ok ()) cb p err v w0 = (r, w') ->
            exists row, table w' !! pr_id p = Some row /\ closed_as row r) as Hfail.
  { intros err v w0 H0 (_ & -> & ->)%record_failure_cluster. rewrite H0. by apply mark_failed_row. }
  destruct (decode p) as [op|reason]; [|by apply Hfail].
  destruct (bind_guest op p w) as [bnd w1] eqn:Eb. destruct (bind_guest_spec _ _ _ _ _ Eb) as [[_ Ht1] _].
  destruct bnd as [b|err v|e].
  - destruct (on_cluster _ w1) as [res w2] eqn:Ex. apply on_cluster_inv in Ex as [_ Ht2].
    assert (forall w3, table w3 = table w -> match res with
      | Ok upid =>
          (Ok (CoExecuted (pr_action p) (target_vmid op p) upid),
           say (edit_status cb (pr_action p) (target_vmid op p) ("✅ Done — " +:+ upid))
             (say [AnswerCallback (cb_id cb) "✅ Executed"]
                (set_table (mark_executed (Ok ()) (pr_id p) upid (table w3)).2 w3))) = (r, w')
      | Err e => record_failure (Ok ()) cb p (show_outer e) (target_vmid op p) w3 = (r, w')
      end -> exists row, table w' !! pr_id p = Some row /\ closed_as row r) as Hend.
    { intros w3 Hw3. destruct res as [upid|e]; [|by apply Hfail]. intros [= <- <-]. cbn [table say set_table].
      rewrite Hw3. destruct Hrow as [row Hr]. simpl. rewrite lookup_alter_eq, Hr. simpl. by eexists. }
    intros E. apply (Hend (if slow then say (edit_text cb ("🔔 HITL request: " +:+ pr_action p +:+ " VMID "
                               +:+ pretty (target_vmid op p) +:+ nl +:+ nl +:+ "⏳ Executing… (by @"
                               +:+ user_label cb +:+ ")")) w2 else w2)).
    + destruct slow; simpl; congruence.
    + by destruct res.
  - by apply Hfail.
  - intros [= <- <-]. cbn [table set_table]. rewrite Ht1. by apply mark_failed_row.
Qed.

(** When the database refuses the final record the table is left as it is, and all else goes the same way. *)
Definition same_but_table (x y : Result AnyErr CallbackOutcome * DaemonWorld W) : Prop :=
  x.1 = y.1 /\ cluster x.2 = cluster y.2 /\ chat x.2 = chat y.2.
Lemma record_failure_refused e cb p err v w :
  same_but_table (record_failure (Err e) cb p err v w) (record_failure (Ok ()) cb p err v w)
  /\ table (record_failure (Err e) cb p err v w).2 = table w.
Proof. by destruct w. Qed.
Lemma run_approved_refused slow e cb p w :
  same_but_table (run_approved slow (Err e) cb p w) (run_approved slow (Ok ()) cb p w)
  /\ table (run_approved slow (Err e) cb p w).2 = table w.
Proof.
  unfold run_approved. destruct (decode p) as [op|reason]; [|apply record_failure_refused].
  destruct (bind_guest op p w) as [bnd w1] eqn:Eb. destruct (bind_guest_spec _ _ _ _ _ Eb) as [[_ Ht1] _].
  destruct bnd as [b|err v|er]; [|rewrite <- Ht1; apply record_failure_refused|by destruct w1].
  destruct (on_cluster _ w1) as [res w2] eqn:Ex. apply on_cluster_inv in Ex as [_ Ht2]. rewrite <- Ht1, <- Ht2.
  destruct res as [upid|er]; destruct slow; by destruct w2.
Qed.


(** ** Runs of the daemon beside the senders *)
Inductive DaemonEvent :=
  | DeUpdate (gw : TelegramGateway) (d1 d2 : Result AnyErr unit) (now : Z) (slow : bool)
      (update : option CallbackQuery)
  | DeStore (de : Result AnyErr unit * Event).

Definition dstep (e : DaemonEvent) w : DaemonWorld W :=
  match e with
  | DeUpdate gw d1 d2 now slow update => (handle_callback_update gw d1 d2 now slow update w).2
  | DeStore de => set_table (step de (table w)).2 w
  end.

(** The event sends something to the cluster on behalf of request [id]. *)
Definition executes (id : string) (e : DaemonEvent) w : bool :=
  match e with
  | DeUpdate gw _ _ _ _ (Some cb) =>
      match verify_callback gw cb with
      | Ok v => bool_decide (vc_txn_id v = id)
                && negb (bool_decide (length (calls (cluster (dstep e w))) = length (calls (cluster w))))
      | Err _ => false
      end
  | _ => false
  end.
Definition inserts (id : string) (e : DaemonEvent) w : bool :=
  match e with DeStore de => is_inserted id (step de (table w)).1 | _ => false end.

Fixpoint tally (id : string) (evs : list DaemonEvent) w : nat * nat :=
  match evs with
  | [] => (0, 0)
  | e :: evs' =>
      let '(x, i) := tally id evs' (dstep e w) in
      ((if executes id e w then 1 else 0) + x, (if inserts id e w then 1 else 0) + i)
  end.

Lemma run_approved_finishes slow d2 cb p w r w' :
  run_approved slow d2 cb p w = (r, w') -> finishes (pr_id p) (table w) (table w').
Proof.
  unfold run_approved.
  assert (forall err v w0, table w0 = table w -> record_failure d2 cb p err v w0 = (r, w') ->
            finishes (pr_id p) (table w) (table w')) as Hfail.
  { intros err v w0 H0 (_ & -> & _)%record_failure_cluster. rewrite H0. apply mark_failed_finishes. }
  destruct (decode p) as [op|reason]; [|by apply Hfail].
  destruct (bind_guest op p w) as [bnd w1] eqn:Eb. destruct (bind_guest_spec _ _ _ _ _ Eb) as [[_ Ht1] _].
  destruct bnd as [b|err v|e].
  - destruct (on_cluster _ w1) as [res w2] eqn:Ex. apply on_cluster_inv in Ex as [_ Ht2].
    destruct res as [upid|e].
    + intros [= <- <-]. destruct slow; cbn [table say set_table]; rewrite Ht2, Ht1; apply mark_executed_finishes.
    + apply Hfail. destruct slow; cbn [table say]; congruence.
  - by apply Hfail.
  - intros [= <- <-]. cbn [table set_table]. rewrite Ht1. apply mark_failed_finishes.
Qed.

Context {JTOk : JsonTextOk}.

Lemma dstep_pending id e w :
  (if executes id e w then 1 else 0) + pending_here id (table (dstep e w))
  <= (if inserts id e w then 1 else 0) + pending_here id (table w).
Proof.
  destruct e as [gw d1 d2 now slow update|de].
  - pose proof (handle_cases gw d1 d2 now slow update w) as H. cbn [dstep inserts].
    unfold executes. cbn [dstep].
    destruct (handle_callback_update gw d1 d2 now slow update w) as [r w']. cbn [snd].
    destruct H as [[Hc [Ht|(cb & v & -> & Ev & Ht & _)]]|(cb & v & p & t & -> & Ev & Ep & Er)].
    + rewrite Ht, Hc. destruct update as [cb|]; [|done].
      destruct (verify_callback gw cb); [|done]. by rewrite (bool_decide_true (_ = _ :> nat)), andb_false_r.
    + rewrite Ev, Hc, (bool_decide_true (_ = _ :> nat)), andb_false_r, Ht by done.
      destruct (process_callback_at _ _ _ _ _ _) as [res t] eqn:Ep.
      pose proof (callback_pending id _ _ _ _ _ _ _ _ Ep). simpl. lia.
    + rewrite Ev. pose proof (callback_pending id _ _ _ _ _ _ _ _ Ep) as Hp.
      destruct (approved_row _ _ _ _ _ _ _ _ Ep) as [Hid _].
      pose proof (finishes_pending id _ _ _ (run_approved_finishes _ _ _ _ _ _ _ Er)) as Hf.
      cbn [table set_table] in Hf. simpl in Hp. rewrite Hid in Hp.
      destruct (bool_decide (vc_txn_id v = id)); cbn [andb] in *; [destruct (negb _)|]; lia.
  - cbn [executes inserts dstep table set_table]. destruct (step de (table w)) as [out t] eqn:E.
    pose proof (step_pending id _ _ _ _ E). simpl. lia.
Qed.

Lemma tally_pending id evs w :
  (tally id evs w).1 <= (tally id evs w).2 + pending_here id (table w).
Proof.
  revert w. induction evs as [|e evs IH]; intros w; simpl; [lia|].
  specialize (IH (dstep e w)). pose proof (dstep_pending id e w).
  destruct (tally id evs (dstep e w)) as [x i]. simpl in *. lia.
Qed.

End exec.

(** ** A concrete daemon *)
#[local] Existing Instance demo_mac.
#[local] Existing Instance demo_mac_ok.

(** A cluster with one running container; it accepts everything. *)
Definition demo_guest : Guest :=
  {| g_vmid := 100; g_name := "web"; g_status := Running; g_guest_type := Lxc; g_node := "pve1"; g_cpus := 1;
     g_mem := 0; g_maxmem := 0; g_disk := 0; g_maxdisk := 0; g_uptime := 60; g_tags := ""; g_lock := "";
     g_hastate := ""; g_template := false; g_netin := 0; g_netout := 0 |}.
Definition demo_pve : Gateway N := {|
  answer := fun _ w => (Ok "UPID:pve1:1", w);
  pve_find_guest := fun v w => (Ok (if (v =? 100)%N then Some demo_guest else None), w);
  pve_next_free_vmid := fun w => (Ok 101%N, w);
  pve_get_next_vmid := fun w => (Ok 101%N, w);
  pve_task_status := fun _ _ w => (Ok (mkTaskStatus "" "stopped" (Some "OK") "" "" "" 0), w);
  clock_ms := fun w => w;
  sleep_ms := fun d w => (w + d)%N;
|}.
#[local] Existing Instance demo_pve.
#[local] Existing Instance demo_text.
#[local] Existing Instance demo_text_ok.
(** Reads the one parameter text the example stores. *)
Definition demo_read : JsonRead := fun s => if bool_decide (s = "{}") then Ok (JObject []) else Err "expected value".
#[local] Existing Instance demo_read.

Definition demo_table : Table :=
  {[ "7f" := {| row_action := "stop"; row_vmid := Some 100%Z; row_node := Some "pve1";
                row_guest_type := Some "lxc"; row_params_json := "{}"; row_require := 1; row_issued_at := 0;
                row_expires_at := 120; row_status := "pending"; row_approvers_json := "[]";
                row_upid := None; row_error := None |} ]}.
Definition demo_world : DaemonWorld N := mkDaemonWorld (mkWorld 0%N []) demo_table [].
Definition demo_approve : CallbackQuery := demo_press (build_approval_keyboard demo_gateway "7f").1.

Example demo_execution :
  let '(r, w') := handle_callback_update demo_gateway (Ok ()) (Ok ()) 60 false (Some demo_approve) demo_world in
  r = Ok (CoExecuted "stop" 100 "UPID:pve1:1") /\ calls (cluster w') = [ShutdownGuest "pve1" 100 Lxc 60].
Proof. vm_compute. by split. Qed.


(** The approval is pressed twice; the request is inserted once. *)
Definition demo_daemon_events : list DaemonEvent :=
  [DeStore (Ok (), EvInsert "7f" {| np_action := "stop"; np_vmid := Some 100%N; np_node := Some "pve1";
              np_guest_type := Some Lxc; np_params := JObject []; np_require := 1; np_ttl_secs := 120 |} 0);
   DeUpdate demo_gateway (Ok ()) (Ok ()) 10 false (Some demo_approve);
   DeUpdate demo_gateway (Ok ()) (Ok ()) 11 true (Some demo_approve)].
