(* ===== verification/McpTools.v ===== *)
(** * The MCP tool registry: mcp/tools.rs

    [TOOLS] is the constant table of the tools the MCP server offers, entry by
    entry; [registry_json] and [tools_list_schema] are its two JSON views. *)

From S2P Require Import Prelude.
From S2P Require Import Json.
From S2P Require Import HitlOps.

Inductive ToolAction :=
  | TListGuests
  | TGetGuestStatus
  | TStartGuest
  | TStopGuest
  | TRestartGuest
  | TSuspendGuest
  | TResumeGuest
  | TDeleteGuest
  | TCloneGuest
  | TMigrateGuest
  | TCreateSnapshot
  | TListSnapshots
  | TDeleteSnapshot
  | TListNodes
  | TGetNodeResources
  | TGetNodeStatus
  | TGetClusterStatus
  | TListTasks
  | TGetTaskLog
  | TGetStoragePools
  | TListBackupJobs
  | TGetReplicationStatus
  | TCreateGuest
  | TListClusterEvents
  | TCloneWithCloudinit.

Inductive ParamType := PStr | PInt | PBool.

Record ParamDef := mkParam {
  pd_name : string;
  pd_description : string;
  pd_type : ParamType;
  pd_required : bool;
  pd_shape : Shape;
}.

Record ToolDef := mkTool {
  td_name : string;
  td_description : string;
  td_params : list ParamDef;
  td_action : ToolAction;
  td_destructive : bool;
  td_timeout_secs : N;
}.

Definition DEFAULT_TIMEOUT_SECS : N := 30.

Definition tool_list_nodes : ToolDef :=
  mkTool "list_nodes"
    "List all Proxmox nodes with status and resource usage"
    [mkParam "profile" "Connection profile name" PStr false ShapeAny]
    TListNodes false DEFAULT_TIMEOUT_SECS.
Definition tool_list_guests : ToolDef :=
  mkTool "list_guests"
    "List all VMs and LXC containers"
    [mkParam "profile" "Connection profile" PStr false ShapeAny;
    mkParam "node" "Filter by node name" PStr false ShapeName]
    TListGuests false DEFAULT_TIMEOUT_SECS.
Definition tool_get_guest_status : ToolDef :=
  mkTool "get_guest_status"
    "Get detailed status of a specific VM or container"
    [mkParam "guest_id" "Guest VMID (100-999999)" PInt true ShapeAny]
    TGetGuestStatus false DEFAULT_TIMEOUT_SECS.
Definition tool_start_guest : ToolDef :=
  mkTool "start_guest"
    "Start a VM or LXC container"
    [mkParam "guest_id" "Guest VMID (100-999999)" PInt true ShapeAny]
    TStartGuest false 60.
Definition tool_stop_guest : ToolDef :=
  mkTool "stop_guest"
    "Stop a VM or LXC container"
    [mkParam "guest_id" "Guest VMID (100-999999)" PInt true ShapeAny;
    mkParam "force" "Force stop without graceful shutdown" PBool false ShapeAny]
    TStopGuest true 60.
Definition tool_restart_guest : ToolDef :=
  mkTool "restart_guest"
    "Restart a VM or LXC container"
    [mkParam "guest_id" "Guest VMID (100-999999)" PInt true ShapeAny]
    TRestartGuest true 60.
Definition tool_delete_guest : ToolDef :=
  mkTool "delete_guest"
    "Permanently delete a VM or LXC container"
    [mkParam "guest_id" "Guest VMID (100-999999)" PInt true ShapeAny]
    TDeleteGuest true 180.
Definition tool_create_snapshot : ToolDef :=
  mkTool "create_snapshot"
    "Create a snapshot of a VM or container"
    [mkParam "guest_id" "Guest VMID" PInt true ShapeAny;
    mkParam "name" "Snapshot name" PStr true ShapeName]
    TCreateSnapshot true 120.
Definition tool_delete_snapshot : ToolDef :=
  mkTool "delete_snapshot"
    "Delete a snapshot"
    [mkParam "guest_id" "Guest VMID" PInt true ShapeAny;
    mkParam "name" "Snapshot name" PStr true ShapeName]
    TDeleteSnapshot true 120.
Definition tool_get_storage_pools : ToolDef :=
  mkTool "get_storage_pools"
    "List storage pools on a node"
    [mkParam "node" "Node name" PStr true ShapeName]
    TGetStoragePools false DEFAULT_TIMEOUT_SECS.
Definition tool_list_snapshots : ToolDef :=
  mkTool "list_snapshots"
    "List all snapshots for a VM or container"
    [mkParam "guest_id" "Guest VMID" PInt true ShapeAny]
    TListSnapshots false DEFAULT_TIMEOUT_SECS.
Definition tool_get_task_log : ToolDef :=
  mkTool "get_task_log"
    "Retrieve the log output of a Proxmox task by UPID"
    [mkParam "node" "Node name where the task ran" PStr true ShapeName;
    mkParam "upid" "Task UPID string" PStr true ShapeUpid]
    TGetTaskLog false DEFAULT_TIMEOUT_SECS.
Definition tool_get_node_resources : ToolDef :=
  mkTool "get_node_resources"
    "Get CPU, memory and status detail for a specific node"
    [mkParam "node" "Node name" PStr true ShapeName]
    TGetNodeResources false DEFAULT_TIMEOUT_SECS.
Definition tool_suspend_guest : ToolDef :=
  mkTool "suspend_guest"
    "Suspend (pause) a running VM or container"
    [mkParam "guest_id" "Guest VMID" PInt true ShapeAny]
    TSuspendGuest true 60.
Definition tool_resume_guest : ToolDef :=
  mkTool "resume_guest"
    "Resume a suspended VM or container"
    [mkParam "guest_id" "Guest VMID" PInt true ShapeAny]
    TResumeGuest false 60.
Definition tool_clone_guest : ToolDef :=
  mkTool "clone_guest"
    "Clone a VM or container to a new ID"
    [mkParam "guest_id" "Source VMID to clone" PInt true ShapeAny;
    mkParam "newid" "New VMID (0 = auto-assign next free)" PInt false ShapeAny;
    mkParam "name" "Name for the new guest" PStr false ShapeName;
    mkParam "full" "Full clone (true) vs linked clone (false, default)" PBool false ShapeAny]
    TCloneGuest true 180.
Definition tool_migrate_guest : ToolDef :=
  mkTool "migrate_guest"
    "Live-migrate a VM or container to another node"
    [mkParam "guest_id" "Guest VMID" PInt true ShapeAny;
    mkParam "target_node" "Destination node name" PStr true ShapeName;
    mkParam "online" "Live migration while guest is running (default true)" PBool false ShapeAny]
    TMigrateGuest true 300.
Definition tool_get_cluster_status : ToolDef :=
  mkTool "get_cluster_status"
    "Get cluster-wide status including quorum, nodes and services"
    []
    TGetClusterStatus false DEFAULT_TIMEOUT_SECS.
Definition tool_list_tasks : ToolDef :=
  mkTool "list_tasks"
    "List recent cluster tasks (running and completed)"
    [mkParam "node" "Filter by node (optional, omit for cluster-wide)" PStr false ShapeName]
    TListTasks false DEFAULT_TIMEOUT_SECS.
Definition tool_get_node_status : ToolDef :=
  mkTool "get_node_status"
    "Get detailed status of a node (CPU, memory, disk, uptime, kernel)"
    [mkParam "node" "Node name" PStr true ShapeName]
    TGetNodeStatus false DEFAULT_TIMEOUT_SECS.
Definition tool_list_backup_jobs : ToolDef :=
  mkTool "list_backup_jobs"
    "List all configured backup (vzdump) jobs"
    []
    TListBackupJobs false DEFAULT_TIMEOUT_SECS.
Definition tool_get_replication_status : ToolDef :=
  mkTool "get_replication_status"
    "Get replication job status for a node"
    [mkParam "node" "Node name" PStr true ShapeName]
    TGetReplicationStatus false DEFAULT_TIMEOUT_SECS.
Definition tool_create_guest : ToolDef :=
  mkTool "create_guest"
    "Create a new QEMU VM or LXC container. For QEMU: provide node, type=qemu, memory, cores, and optionally iso. For LXC: provide node, type=lxc, template (ostemplate volid), memory, cores. Returns vmid and task UPID."
    [mkParam "node" "Target Proxmox node name" PStr true ShapeName;
    mkParam "type" "Guest type: qemu or lxc" PStr true ShapeAny;
    mkParam "vmid" "VMID to assign (auto-assigned from cluster nextid if omitted)" PInt false ShapeAny;
    mkParam "name" "VM name (QEMU) or hostname (LXC)" PStr false ShapeName;
    mkParam "memory" "Memory in MiB (default: 1024 for QEMU, 512 for LXC)" PInt false ShapeAny;
    mkParam "cores" "CPU cores (default: 1)" PInt false ShapeAny;
    mkParam "storage" "Storage id for boot disk (e.g. local-lvm). If omitted, no disk is created." PStr false ShapeName;
    mkParam "disk_size" "Disk size in GiB (default: 32 QEMU, 8 LXC)" PInt false ShapeAny;
    mkParam "template" "LXC only: ostemplate volid (e.g. local:vztmpl/debian-12-standard_12.0-1_amd64.tar.zst)" PStr false ShapeAny;
    mkParam "iso" "QEMU only: ISO image volid for CD-ROM (e.g. local:iso/ubuntu-24.04.iso)" PStr false ShapeAny;
    mkParam "bridge" "Network bridge (default: vmbr0)" PStr false ShapeAny]
    TCreateGuest true 120.
Definition tool_list_cluster_events : ToolDef :=
  mkTool "list_cluster_events"
    "Return recent cluster-wide task events from all nodes. Shows task type, vmid, node, user, outcome, and elapsed time. Useful for understanding what has recently happened on the cluster."
    [mkParam "limit" "Maximum number of events to return (default 50, max 200)" PInt false ShapeAny;
    mkParam "running_only" "When true, return only tasks that are currently running" PBool false ShapeAny]
    TListClusterEvents false 15.
Definition tool_clone_with_cloudinit : ToolDef :=
  mkTool "clone_with_cloudinit"
    "Clone a QEMU template into a new VMID and apply cloud-init customization (user, sshkey, ipconfig0, …) in one call. Waits for the clone task to finish before mutating cloud-init. QEMU-only."
    [mkParam "guest_id" "Source VMID (template) to clone" PInt true ShapeAny;
    mkParam "newid" "New VMID (0 = auto-assign next free)" PInt false ShapeAny;
    mkParam "name" "Display name for the new VM" PStr false ShapeName;
    mkParam "full" "Full clone (true) vs linked clone (false, default)" PBool false ShapeAny;
    mkParam "ciuser" "Cloud-init default user account" PStr false ShapeAny;
    mkParam "sshkey" "SSH public key (single line, ssh-ed25519/ssh-rsa form)" PStr false ShapeAny;
    mkParam "ipconfig0" "First-NIC IP config, e.g. `ip=10.0.0.5/24,gw=10.0.0.1` or `ip=dhcp`" PStr false ShapeAny;
    mkParam "searchdomain" "DNS search domain" PStr false ShapeAny;
    mkParam "nameserver" "DNS resolver IP" PStr false ShapeAny]
    TCloneWithCloudinit true 300.

Definition TOOLS : list ToolDef :=
  [tool_list_nodes; tool_list_guests; tool_get_guest_status;
   tool_start_guest; tool_stop_guest; tool_restart_guest;
   tool_delete_guest; tool_create_snapshot; tool_delete_snapshot;
   tool_get_storage_pools; tool_list_snapshots; tool_get_task_log;
   tool_get_node_resources; tool_suspend_guest; tool_resume_guest;
   tool_clone_guest; tool_migrate_guest; tool_get_cluster_status;
   tool_list_tasks; tool_get_node_status; tool_list_backup_jobs;
   tool_get_replication_status; tool_create_guest; tool_list_cluster_events;
   tool_clone_with_cloudinit].

(** ** JSON views *)
Definition json_schema_pattern (sh : Shape) : option string :=
  match sh with
  | ShapeAny => None
  | ShapeName => Some "^[A-Za-z0-9._-]{1,256}$"
  | ShapeUpid => Some "^[A-Za-z0-9._:@!-]{1,256}$"
  end.

(** [format!("{:?}", param_type).to_lowercase()] *)
Definition param_type_debug (t : ParamType) : string :=
  match t with PStr => "str" | PInt => "int" | PBool => "bool" end.

Definition registry_json : Value :=
  JObject [("tools", JArray ((fun t =>
    JObject [("name", JString (td_name t)); ("description", JString (td_description t));
             ("parameters", JArray ((fun p =>
                JObject [("name", JString (pd_name p)); ("description", JString (pd_description p));
                         ("type", JString (param_type_debug (pd_type p)));
                         ("required", JBool (pd_required p))]) <$> td_params t));
             ("destructive", JBool (td_destructive t));
             ("timeout_secs", JNumber (Z.of_N (td_timeout_secs t)))]) <$> TOOLS))].

Definition json_type (t : ParamType) : string :=
  match t with PStr => "string" | PInt => "integer" | PBool => "boolean" end.
Definition param_schema (p : ParamDef) : string * Value :=
  (pd_name p,
   JObject ([("type", JString (json_type (pd_type p))); ("description", JString (pd_description p))]
            ++ match json_schema_pattern (pd_shape p) with
               | Some pattern => [("pattern", JString pattern)]
               | None => []
               end)).
Definition tool_schema (t : ToolDef) : Value :=
  let required := JString <$> (pd_name <$> filter (fun p => pd_required p = true) (td_params t)) in
  let input_schema :=
    [("type", JString "object"); ("properties", JObject (param_schema <$> td_params t))]
    ++ match required with [] => [] | _ => [("required", JArray required)] end in
  JObject [("name", JString (td_name t)); ("description", JString (td_description t));
           ("inputSchema", JObject input_schema);
           ("x_proxxx_destructive", JBool (td_destructive t));
           ("x_proxxx_timeout_secs", JNumber (Z.of_N (td_timeout_secs t)))].
Definition tools_list_schema : Value := JArray (tool_schema <$> TOOLS).
