(* ===== verification/McpDispatch.v ===== *)
(** * MCP tool calls: [handle_tool_call_with_store] of mcp/dispatch.rs

    A tool call is validated against the registry; a destructive tool is
    refused, or turned into a pending approval request, never carried out; the
    others run.  [Env] is what surrounds one call: whether a Telegram gateway
    can be had, what the probes of the risk pre-flight answer, the id the store
    draws, the time, what the database and the chat answer, and how a read-only
    tool renders what the cluster returned.  Theorems are in
    [McpDispatchSpec]. *)

From S2P Require Import Prelude.
From S2P Require Import Json.
From S2P Require Import ApiError.
From S2P Require Import Guest.
From S2P Require Import GuestPreflight.
From S2P Require Import HitlPending.
From S2P Require Import HitlCallback.
From S2P Require Import Gateway.
From S2P Require Import HitlOps.
From S2P Require Import HitlDaemon.
From S2P Require Import McpTools.

(** ** Validation of the arguments *)
Definition as_u64 (v : Value) : option N :=
  match v with
  | JNumber z => if bool_decide (0 <= z <= Z.of_N u64_max)%Z then Some (Z.to_N z) else None
  | _ => None
  end.

Section validate.
Context {JT : JsonText}.

Definition check_param (p : ParamDef) (args : Value) : Result AnyErr unit :=
  match vget (pd_name p) args with
  | None => if pd_required p then Err (bail ("Missing required parameter: " +:+ pd_name p)) else Ok ()
  | Some val =>
      match pd_type p with
      | PInt =>
          let in_range := match as_u64 val with Some n => (n <=? u32_max)%N | None => false end in
          if in_range then Ok ()
          else Err (bail ("Parameter '" +:+ pd_name p +:+ "': expected an integer from 0 to " +:+ pretty u32_max
                          +:+ ", got " +:+ value_to_text val))
      | PBool =>
          match val with
          | JBool _ => Ok ()
          | _ => Err (bail ("Parameter '" +:+ pd_name p +:+ "': expected boolean, got " +:+ value_to_text val))
          end
      | PStr =>
          match val with
          | JString text =>
              match shape_check (pd_shape p) text with
              | Ok _ => Ok ()
              | Err why => Err (bail ("Parameter '" +:+ pd_name p +:+ "': " +:+ why))
              end
          | _ => Err (bail ("Parameter '" +:+ pd_name p +:+ "': expected string, got " +:+ value_to_text val))
          end
      end
  end.
Fixpoint check_params (ps : list ParamDef) (args : Value) : Result AnyErr unit :=
  match ps with
  | [] => Ok ()
  | p :: ps' => check_param p args ;; check_params ps' args
  end.
End validate.

(** ** Answers *)
Definition text_content (text : string) : Value :=
  JObject [("content", JArray [JObject [("type", JString "text"); ("text", JString text)]])].
Definition error_content (text : string) : Value :=
  JObject [("content", JArray [JObject [("type", JString "text"); ("text", JString text)]]);
           ("isError", JBool true)].

Definition approval_not_sent (name : string) (policy : Policy) (why : string) : Value :=
  error_content ("Refused: '" +:+ name +:+ "' requires " +:+ pretty (po_require policy) +:+ " approval(s) via "
                 +:+ po_channel policy +:+ ", but " +:+ why +:+ ", so no approval "
                 +:+ "request was sent. The action was not run.").

Definition preflight_op_for_tool (name : string) : option Op :=
  if bool_decide (name = "stop_guest") then Some OpStop
  else if bool_decide (name = "restart_guest") then Some OpRestart
  else if bool_decide (name = "delete_guest") then Some OpDelete
  else if bool_decide (name = "migrate_guest") then Some OpMigrate
  else None.

(** ** The list of recent tasks *)
Record TaskInfo := mkTaskInfo {
  ti_upid : string;
  ti_node : string;
  ti_user : string;
  ti_id : string;
  ti_type : string;
  ti_status : option string;
  ti_starttime : N;
  ti_endtime : option N;
}.
Definition u64_saturating_sub (a b : N) : N := (a - b)%N.
Definition elapsed_secs (now : N) (t : TaskInfo) : N :=
  match ti_endtime t with
  | Some e => u64_saturating_sub e (ti_starttime t)
  | None => if (0 <? ti_starttime t)%N then u64_saturating_sub now (ti_starttime t) else 0%N
  end.
Definition json_opt {A} (f : A -> Value) (o : option A) : Value := match o with Some a => f a | None => JNull end.
Definition json_n (n : N) : Value := JNumber (Z.of_N n).
Definition is_running (t : TaskInfo) : bool := bool_decide (ti_endtime t = None).
Definition enriched (now : N) (t : TaskInfo) : Value :=
  JObject [("upid", JString (ti_upid t)); ("node", JString (ti_node t)); ("type", JString (ti_type t));
           ("id", JString (ti_id t)); ("user", JString (ti_user t)); ("status", json_opt JString (ti_status t));
           ("starttime", json_n (ti_starttime t)); ("endtime", json_opt json_n (ti_endtime t));
           ("elapsed_secs", json_n (elapsed_secs now t)); ("running", JBool (is_running t))].
Definition cluster_events (limit : option N) (running_only : bool) (now : N) (tasks : list TaskInfo) : Value :=
  let limit := N.to_nat (N.min (default 50%N limit) 200) in
  let kept := take limit (if running_only then List.filter is_running tasks else tasks) in
  JObject [("total", JNumber (Z.of_nat (length kept))); ("running_only", JBool running_only);
           ("events", JArray (enriched now <$> kept))].

(** ** The call *)
Inductive TelegramSetup :=
  | TgReady
  | TgBroken (e : AnyErr)
  | TgAbsent.

Record Env (W : Type) := mkEnv {
  policies : list Policy;
  telegram : TelegramSetup;
  (** the PBS client of the profile: not configured, built, or an error *)
  pbs : option (Result AnyErr unit);
  (** what the reads of the risk pre-flight answer, and the command it runs through the guest agent *)
  probes : Guest -> Probes;
  agent_exec : string -> N -> string -> W -> Result AnyErr (Z * string) * W;
  request_id : string;
  env_now : Z;
  (** the database: opening it, the insert, and closing the row *)
  disk_open : Result AnyErr unit;
  disk_insert : Result AnyErr unit;
  disk_mark : Result AnyErr unit;
  (** [TelegramGateway::request_approval]: action, target, reason, id, require *)
  request_approval : string -> string -> string -> string -> N -> Result AnyErr unit;
  (** [get_cluster_tasks], and the indented text of a JSON value *)
  cluster_tasks : W -> Result AnyErr (list TaskInfo) * W;
  to_string_pretty : Value -> string;
  (** what the other read-only tools answer *)
  read_tool : ToolAction -> Value -> W -> Result AnyErr string * W;
}.
Arguments mkEnv {W}.
Arguments policies {W}. Arguments telegram {W}. Arguments pbs {W}. Arguments probes {W}. Arguments agent_exec {W}.
Arguments request_id {W}. Arguments env_now {W}. Arguments disk_open {W}. Arguments disk_insert {W}.
Arguments disk_mark {W}. Arguments request_approval {W}. Arguments cluster_tasks {W}.
Arguments to_string_pretty {W}. Arguments read_tool {W}.

Definition with_binding (node : string) (gt : GuestType) (params : Value) (r : NewPendingRequest) : NewPendingRequest :=
  {| np_action := np_action r; np_vmid := np_vmid r; np_node := Some node; np_guest_type := Some gt;
     np_params := params; np_require := np_require r; np_ttl_secs := np_ttl_secs r |}.

Section dispatch.
Context {W : Type} {G : Gateway W} {JT : JsonText}.
Local Notation M := (SM (DaemonWorld W) AnyErr).

(** [execute_guest_command]: its failure is a value here, since the pre-flight goes on. *)
Definition run_agent (env : Env W) (node : string) (vmid : N) (cmd : string) : M (Result AnyErr (Z * string)) :=
  on_cluster (fun w => let '(r, p) := agent_exec env node vmid cmd (pve w) in (Ok r, mkWorld p (calls w ++ [AgentExec node vmid cmd]))).
Definition mcp_preflight (env : Env W) (op : Op) (g : Guest) : M (list (Risk * RiskLevel)) :=
  let note := match op, pbs env with
              | OpDelete, Some (Err e) => Some ("PBS client could not be built: " +:+ show_err e)
              | _, _ => None
              end in
  pr ← (if asks_agent g
        then r ← run_agent env (g_node g) (g_vmid g) LISTEN_COMMAND; mret (with_exec r (probes env g))
        else mret (probes env g));
  mret (preflight_risks pr op g note).

(** [args.get(k).and_then(Value::as_str)] and the like. *)
Definition arg_str (k : string) (args : Value) : option string := vget k args ≫= as_str.
Definition arg_node (args : Value) : option string := arg_str "node" args ≫= non_empty.
Definition arg_bool (k : string) (args : Value) : option bool :=
  match vget k args with Some (JBool b) => Some b | _ => None end.
Definition u32_of (v : N) : N := (v mod 4294967296)%N.
Definition arg_u64 (k : string) (args : Value) : option N := vget k args ≫= as_u64.
Definition arg_u32 (k : string) (args : Value) : option N := u32_of <$> arg_u64 k args.

(** The live tags, fetched only when a policy looks at tags and the call
    names a guest; the fetched guest is kept for the binding. *)
Definition fetch_tags (env : Env W) (guest_id : option N) : M (option Guest * list string) :=
  let needs_tags := existsb (fun p => starts_with "tag:" (po_target p)) (policies env) in
  match needs_tags, guest_id with
  | true, Some v =>
      g ← on_cluster (find_guest v);
      mret (g, match g with Some g => tag_list g | None => [] end)
  | _, _ => mret (None, [])
  end.

(** The guest the request will be bound to, and what the pre-flight says. *)
Inductive Resolved :=
  | ResolvedTo (node : string) (gt : GuestType) (risk_note : string)
  | ResolvedRefused (answer : Value).

Definition resolve_guest (env : Env W) (name : string) (v : N) (fetched : option Guest) : M Resolved :=
  found ← (match fetched with Some g => mret (Some g) | None => on_cluster (find_guest v) end);
  g ← lift (ok_or (bail ("Guest " +:+ pretty v +:+ " not found")) found);
  if is_empty (g_node g)
  then throw (bail ("cannot record HITL request for guest " +:+ pretty v +:+ ": guest has no resolved node"))
  else match preflight_op_for_tool name with
       | None => mret (ResolvedTo (g_node g) (g_guest_type g) "")
       | Some op =>
           risks ← mcp_preflight env op g;
           let rendered := render_risks risks in
           if bool_decide (max_level risks = Severe)
           then mret (ResolvedRefused (error_content
                  ("Refused: the risk preflight for '" +:+ name +:+ "' on guest " +:+ pretty v +:+ " found a "
                   +:+ "SEVERE risk, so no approval was requested:" +:+ nl +:+ rendered)))
           else mret (ResolvedTo (g_node g) (g_guest_type g)
                  (if is_empty rendered then "" else nl +:+ "Preflight:" +:+ nl +:+ rendered))
       end.

Definition resolve_new (name : string) (args : Value) : M Resolved :=
  node ← lift (ok_or (bail ("Missing required 'node' for HITL request '" +:+ name +:+ "'"))
                (arg_node args));
  match arg_str "type" args with
  | Some t =>
      if bool_decide (t = "qemu") then mret (ResolvedTo node Qemu "")
      else if bool_decide (t = "lxc") then mret (ResolvedTo node Lxc "")
      else throw (bail ("Invalid or missing guest type Some(" +:+ debug_str t +:+ ") for HITL request '" +:+ name +:+ "'"))
  | None => throw (bail ("Invalid or missing guest type None for HITL request '" +:+ name +:+ "'"))
  end.

(** Store calls lifted to the world. *)
Definition on_table {A} (f : Table -> Result AnyErr A * Table) : M A := fun w =>
  let '(r, t) := f (table w) in (r, set_table t w).

(** Record the request, then send it; a request nobody was asked about is closed. *)
Definition request_approval_for (env : Env W) (name : string) (args : Value) (vmid : option N) (policy : Policy)
    (node : string) (gt : GuestType) (risk_note : string) : M Value :=
  let target := match vmid with Some v => pretty v | None => "" end in
  let new_req := with_binding node gt args (NewPendingRequest_new name vmid (po_require policy)) in
  on_table (open_at_with_now (disk_open env) (env_now env)) ;;
  req ← on_table (insert_at (disk_insert env) (request_id env) new_req (env_now env));
  let txn_id := pr_id req in
  match request_approval env name target ("MCP requested action: " +:+ name +:+ risk_note) txn_id
          (po_require policy) with
  | Err e =>
      let why := "approval request " +:+ txn_id +:+ " could not be sent (" +:+ show_err e +:+ ")" in
      on_table (mark_failed (disk_mark env) txn_id why) ;;
      mret (approval_not_sent name policy why)
  | Ok _ =>
      mret (text_content ("Action intercepted by HITL policy. Requires " +:+ pretty (po_require policy)
                          +:+ " approval(s) via " +:+ po_channel policy +:+ ". Transaction: " +:+ txn_id))
  end.

Definition no_policy (name : string) : Value :=
  error_content ("Refused: '" +:+ name +:+ "' is a destructive operation and no HITL policy governs it. "
                 +:+ "proxxx does not execute ungated destructive MCP calls. Declare a matching "
                 +:+ "[[policies]] entry to route this operation through approval.").

(** The gate of a destructive tool. *)
Definition gate_destructive (env : Env W) (name : string) (args : Value) : M Value :=
  let guest_id_arg := arg_u32 "guest_id" args in
  let vmid := or_else guest_id_arg (arg_u32 "vmid" args) in
  match policies env with
  | [] => mret (no_policy name)
  | _ =>
      '(fetched, tags) ← fetch_tags env guest_id_arg;
      match check_policies (policies env) name (match vmid with Some v => pretty v | None => "" end) tags with
      | None => mret (no_policy name)
      | Some policy =>
          match telegram env with
          | TgBroken e =>
              mret (approval_not_sent name policy
                      ("the Telegram gateway could not be set up (" +:+ show_err e +:+ ")"))
          | TgAbsent => mret (approval_not_sent name policy "no [telegram] section is configured")
          | TgReady =>
              resolved ← (match guest_id_arg with
                          | Some v => resolve_guest env name v fetched
                          | None => resolve_new name args
                          end);
              match resolved with
              | ResolvedRefused answer => mret answer
              | ResolvedTo node gt risk_note => request_approval_for env name args vmid policy node gt risk_note
              end
          end
      end
  end.

(** [find_node_and_type] with the caller's "not found". *)
Definition find_node_and_type (vmid : N) : M (string * GuestType) :=
  g ← on_cluster (find_guest vmid);
  lift (ok_or (bail ("Guest " +:+ pretty vmid +:+ " not found"))
          ((fun g => (g_node g, g_guest_type g)) <$> g)).

(** [serde_json::from_value(args.clone())?] *)
Definition from_args {A} (read : Value -> Result string A) (args : Value) : M A :=
  lift (match read args with Ok a => Ok a | Err e => Err (bail e) end).

Definition inline_text (env : Env W) (action : ToolAction) (args : Value) : M string :=
  let guest_id := default 0%N (arg_u32 "guest_id" args) in
  match action with
  | TStartGuest =>
      '(node, gt) ← find_node_and_type guest_id;
      upid ← on_cluster (issue (StartGuest node guest_id gt));
      mret ("Started guest " +:+ pretty guest_id +:+ ". UPID: " +:+ upid)
  | TResumeGuest =>
      '(node, gt) ← find_node_and_type guest_id;
      upid ← on_cluster (issue (ResumeGuest node guest_id gt));
      mret ("Resumed guest " +:+ pretty guest_id +:+ ". UPID: " +:+ upid)
  | TStopGuest =>
      p ← from_args read_mcp_stop args;
      '(node, gt) ← find_node_and_type (ms_guest_id p);
      upid ← on_cluster (exec_stop_guest node gt p);
      mret ("Stopped guest " +:+ pretty (ms_guest_id p) +:+ ". UPID: " +:+ upid)
  | TRestartGuest =>
      p ← from_args read_mcp_guest_id args;
      '(node, gt) ← find_node_and_type (mg_guest_id p);
      upid ← on_cluster (exec_restart_guest node gt p);
      mret ("Restarted guest " +:+ pretty (mg_guest_id p) +:+ ". UPID: " +:+ upid)
  | TDeleteGuest =>
      p ← from_args read_mcp_guest_id args;
      '(node, gt) ← find_node_and_type (mg_guest_id p);
      upid ← on_cluster (exec_delete_guest node gt p);
      mret ("Deleted guest " +:+ pretty (mg_guest_id p) +:+ ". UPID: " +:+ upid)
  | TCreateSnapshot =>
      p ← from_args read_mcp_snapshot args;
      '(node, gt) ← find_node_and_type (mn_guest_id p);
      upid ← on_cluster (exec_create_snapshot node gt p);
      mret ("Snapshot '" +:+ mn_name p +:+ "' created for guest " +:+ pretty (mn_guest_id p) +:+ ". UPID: " +:+ upid)
  | TDeleteSnapshot =>
      p ← from_args read_mcp_snapshot args;
      '(node, gt) ← find_node_and_type (mn_guest_id p);
      on_cluster (exec_delete_snapshot node gt p) ;;
      mret ("Snapshot '" +:+ mn_name p +:+ "' deleted for guest " +:+ pretty (mn_guest_id p))
  | TSuspendGuest =>
      p ← from_args read_mcp_guest_id args;
      '(node, gt) ← find_node_and_type (mg_guest_id p);
      upid ← on_cluster (exec_suspend_guest node gt p);
      mret ("Suspended guest " +:+ pretty (mg_guest_id p) +:+ ". UPID: " +:+ upid)
  | TCloneGuest =>
      p ← from_args read_mcp_clone args;
      '(node, gt) ← find_node_and_type (mc_guest_id p);
      '(newid, upid) ← on_cluster (exec_clone_guest node gt p);
      mret ("Cloned guest " +:+ pretty (mc_guest_id p) +:+ " → " +:+ pretty newid +:+ ". UPID: " +:+ upid)
  | TMigrateGuest =>
      p ← from_args read_mcp_migrate args;
      '(node, gt) ← find_node_and_type (mm_guest_id p);
      upid ← on_cluster (exec_migrate_guest node gt p);
      mret ("Migrating guest " +:+ pretty (mm_guest_id p) +:+ " → " +:+ mm_target_node p +:+ ". UPID: " +:+ upid)
  | TCreateGuest =>
      p ← from_args read_mcp_create args;
      '(vmid, upid) ← on_cluster (exec_create_guest p);
      mret ("Guest " +:+ pretty vmid +:+ " (" +:+ cg_guest_type p +:+ ") creation started on " +:+ cg_node p
            +:+ ". UPID: " +:+ upid)
  | TCloneWithCloudinit =>
      p ← from_args read_mcp_clone_ci args;
      '(node, gt) ← find_node_and_type (cc_guest_id p);
      '(newid, upid, ci) ← on_cluster (exec_clone_with_cloudinit node gt p);
      mret ("Cloned guest " +:+ pretty (cc_guest_id p) +:+ " → " +:+ pretty newid +:+ " (UPID: " +:+ upid
            +:+ "); cloud-init applied: "
            +:+ value_to_text (match ci with
                               | None => JObject [("applied", JBool false)]
                               | Some keys => JObject [("applied", JBool true); ("keys", JArray (JString <$> keys))]
                               end))
  | TListClusterEvents =>
      tasks ← on_cluster (query (cluster_tasks env));
      mret (to_string_pretty env
              (cluster_events (arg_u64 "limit" args) (default false (arg_bool "running_only" args))
                 (Z.to_N (env_now env)) tasks))
  | _ => on_cluster (query (read_tool env action args))
  end.

Definition handle_tool_call_with_store (env : Env W) (name : string) (args : Value) : M Value :=
  tool ← lift (ok_or (bail ("Tool not found: " +:+ name)) (List.find (fun t => bool_decide (td_name t = name)) TOOLS));
  lift (check_params (td_params tool) args) ;;
  if td_destructive tool then gate_destructive env name args
  else content ← inline_text env (td_action tool) args; mret (text_content content).
End dispatch.
