(* ===== verification/McpDispatchSpec.v ===== *)
(** * What the MCP server promises

    Validated arguments have their declared type and shape; a call changes
    nothing but by a start or a resume of the guest it names, and has a
    destructive tool's pre-flight list the listening ports inside its guest;
    and a destructive call ends with a pending request exactly when somebody
    was asked to approve it. *)

From S2P Require Import Prelude.
From S2P Require Import Json.
From S2P Require Import ApiError.
From S2P Require Import Guest.
From S2P Require Import GuestPreflight.
From S2P Require Import Sanitize.
From S2P Require Import HitlPending.
From S2P Require Import HitlCallback.
From S2P Require Import Gateway.
From S2P Require Import HitlOps.
From S2P Require Import HitlDaemon.
From S2P Require Import HitlDaemonSpec.
From S2P Require Import McpTools.
From S2P Require Import McpDispatch.

(** ** Arguments *)
Definition in_class (sh : Shape) (s : string) : Prop :=
  forall a, a ∈ String.list_ascii_of_string s -> shape_ok_char sh (String a "") = true.
Definition has_shape (sh : Shape) (s : string) : Prop :=
  match sh with
  | ShapeAny => True
  | _ => 0 < String.length s <= 256 /\ in_class sh s /\ exists a, a ∈ String.list_ascii_of_string s /\ a <> "."%char
  end.
Definition has_type (p : ParamDef) (v : Value) : Prop :=
  match pd_type p with
  | PInt => exists n, (n <= u32_max)%N /\ v = JNumber (Z.of_N n)
  | PBool => exists b, v = JBool b
  | PStr => exists s, v = JString s /\ has_shape (pd_shape p) s
  end.
Definition typed_argument (args : Value) (p : ParamDef) : Prop :=
  match vget (pd_name p) args with
  | None => pd_required p = false
  | Some v => has_type p v
  end.

Definition bytes_of (s : string) : list string := (fun a => String a "") <$> String.list_ascii_of_string s.

Lemma chars_ascii s :
  (forall a, a ∈ String.list_ascii_of_string s -> is_continuation a = false) -> chars s = bytes_of s.
Proof.
  induction s as [|a s IH]; intros H; [done|]. cbn [chars]. rewrite IH by (intros b Hb; apply H; by right).
  unfold add_byte, bytes_of. destruct s as [|b s]; [done|]. csimpl.
  by rewrite (H b) by (do 2 constructor).
Qed.
Lemma chars_singles s :
  Forall (fun c => exists a, c = String a "") (chars s) -> chars s = bytes_of s.
Proof.
  intros H. assert (forall l, Forall (fun c => exists a, c = String a "") l -> l = bytes_of (concat_chars l)) as Hl.
  { induction 1 as [|c l [a ->] _ IH]; [done|]. unfold bytes_of in *. cbn [concat_chars foldr].
    cbn. f_equal. exact IH. }
  rewrite (Hl _ H) at 1. by rewrite concat_chars_chars.
Qed.

Lemma class_single sh c : sh <> ShapeAny -> shape_ok_char sh c = true -> exists a, c = String a "".
Proof. destruct sh, c as [|a [|b c]]; try done; eauto. Qed.
Lemma class_ascii sh a : sh <> ShapeAny -> shape_ok_char sh (String a "") = true -> is_continuation a = false.
Proof.
  intros Hsh. destruct sh; [done| |];
    destruct a as [[] [] [] [] [] [] [] []]; vm_compute; intros; done.
Qed.

Lemma find_none_forall {A} (f : A -> bool) l : List.find f l = None <-> Forall (fun x => f x = false) l.
Proof.
  induction l as [|x l IH]; simpl; [by split|]. rewrite Forall_cons. destruct (f x) eqn:E; [by split; [|intros []]|].
  rewrite IH. tauto.
Qed.

Lemma class_bytes sh s :
  sh <> ShapeAny -> Forall (fun c => negb (shape_ok_char sh c) = false) (chars s) <-> in_class sh s.
Proof.
  intros Hsh. assert (Forall (fun c => negb (shape_ok_char sh c) = false) (bytes_of s) <-> in_class sh s) as Hb.
  { unfold bytes_of, in_class. rewrite Forall_fmap, Forall_forall. split; intros H a Ha; specialize (H a Ha); simpl in *;
      by destruct (shape_ok_char sh (String a "")). }
  split; intros H.
  - apply Hb. rewrite <- (chars_singles s); [done|]. eapply Forall_impl; [exact H|].
    intros c Hc. apply (class_single sh); [done|]. by apply negb_false_iff.
  - rewrite (chars_ascii s); [by apply Hb|]. intros a Ha. by apply (class_ascii sh), H.
Qed.

Lemma dots_bytes s :
  chars s = bytes_of s ->
  forallb (fun c => bool_decide (c = ".")) (chars s) = false <->
  exists a, a ∈ String.list_ascii_of_string s /\ a <> "."%char.
Proof.
  intros ->. unfold bytes_of. induction (String.list_ascii_of_string s) as [|a l IH]; csimpl.
  - split; [done|intros (? & []%elem_of_nil & _)].
  - case_bool_decide as E; simpl.
    + injection E as ->. rewrite IH. split; intros (b & Hb & Hn); exists b; (split; [|done]); [by right|].
      by apply elem_of_cons in Hb as [->|].
    + split; [|done]. intros _. exists a. split; [by left|]. by intros ->.
Qed.

Lemma shape_check_iff sh s : shape_check sh s = Ok () <-> has_shape sh s.
Proof.
  assert (sh = ShapeAny \/ sh <> ShapeAny) as [->|Hsh] by (destruct sh; auto); [done|].
  trans (0 < String.length s <= 256 /\ in_class sh s /\
         exists a, a ∈ String.list_ascii_of_string s /\ a <> "."%char); [|by destruct sh].
  assert (shape_check sh s = Ok () <-> is_empty s = false /\ ~ 256 < String.length s /\
    List.find (fun c => negb (shape_ok_char sh c)) (chars s) = None /\
    forallb (fun c => bool_decide (c = ".")) (chars s) = false) as ->.
  { destruct sh; [done| |]; cbn [shape_check]; (destruct (is_empty s); [by split; [|intros []]|]);
      (case_bool_decide; [by split; [|intros (_ & ? & _)]|]);
      (destruct (List.find _ _); [by split; [|intros (_ & _ & ? & _)]|]);
      (destruct (forallb _ _); [by split; [|intros (_ & _ & _ & ?)]|]); tauto. }
  rewrite find_none_forall, class_bytes by done.
  split; [intros (He & Hl & Hc & Hd)|intros (Hl & Hc & Hd)].
  - assert (chars s = bytes_of s) as Hb by (apply chars_ascii; intros a Ha; by apply (class_ascii sh), Hc).
    rewrite <- dots_bytes by done. split; [|done]. destruct s; [done|]. simpl in *. lia.
  - assert (chars s = bytes_of s) as Hb by (apply chars_ascii; intros a Ha; by apply (class_ascii sh), Hc).
    rewrite dots_bytes by done. split; [by destruct s; [simpl in Hl; lia|]|]. split; [lia|]. done.
Qed.

Section typed.
Context {JT : JsonText}.

Lemma check_param_iff p args : check_param p args = Ok () <-> typed_argument args p.
Proof.
  unfold check_param, typed_argument. destruct (vget (pd_name p) args) as [v|]; [|by destruct (pd_required p)].
  unfold has_type. destruct (pd_type p).
  - destruct v; try (split; [done|intros (? & ? & _); simplify_eq]).
    destruct (shape_check (pd_shape p) s) as [[]|why] eqn:E.
    + split; [|done]. intros _. exists s. split; [done|]. by apply shape_check_iff.
    + split; [done|]. intros (? & [= <-] & H%shape_check_iff). congruence.
  - destruct v as [| |z| | |]; try (split; [done|intros (? & _ & ?); simplify_eq]). unfold as_u64.
    case_bool_decide as Hz.
    + destruct (N.leb_spec (Z.to_N z) u32_max) as [Hl|Hl].
      * split; [|done]. intros _. exists (Z.to_N z). split; [done|]. by rewrite Z2N.id by lia.
      * split; [done|]. intros (n & Hn & [= ->]). lia.
    + split; [done|]. intros (n & Hn & [= ->]). unfold u64_max, u32_max in *. lia.
  - destruct v; try (split; [done|intros (? & ?); simplify_eq]). split; [by eexists|done].
Qed.

(** The arguments of a tool call pass validation exactly when every
    required parameter is present and every present one is of its declared type: an
    integer that fits in 32 bits, a boolean, or a text of the declared shape, where a
    name is 1 to 256 bytes of letters, digits and a few signs that are not all dots. *)
Lemma arguments_typed ps args :
  check_params ps args = Ok () <-> Forall (typed_argument args) ps.
Proof.
  induction ps as [|p ps IH]; [by split|]. rewrite Forall_cons, <- IH, <- check_param_iff. cbn [check_params].
  destruct (check_param p args) as [[]|e]; cbn; [tauto|]. by split; [|intros []].
Qed.
End typed.

(** A name is one path segment. *)
Lemma name_is_one_segment s :
  has_shape ShapeName s -> has_char "/" s = false /\ s <> "." /\ s <> "..".
Proof.
  intros (_ & Hc & a & Ha & Hd). split.
  - destruct (has_char "/" s) eqn:E; [|done]. exfalso. assert ("/"%char ∈ String.list_ascii_of_string s) as Hs.
    { clear -E. induction s as [|b s IH]; [done|]. simpl in *. apply elem_of_cons.
      destruct (Ascii.eqb_spec b "/"%char); [by left|]. right. auto. }
    specialize (Hc _ Hs). by vm_compute in Hc.
  - split; intros ->; simpl in Ha; set_solver.
Qed.

(** ** What a call sends *)
Section sends.
Context {W : Type} {G : Gateway W} {JT : JsonText}.

Definition sends {A} (P : MutCall -> Prop) (m : SM (DaemonWorld W) AnyErr A) : Prop :=
  forall w r w', m w = (r, w') ->
    exists cs, calls (cluster w') = calls (cluster w) ++ cs /\ Forall P cs /\ length cs <= 1.
(** Sends nothing. *)
Definition quiet {A} (m : SM (DaemonWorld W) AnyErr A) : Prop :=
  forall w r w', m w = (r, w') -> calls (cluster w') = calls (cluster w).

Lemma quiet_sends {A} P (m : SM (DaemonWorld W) AnyErr A) : quiet m -> sends P m.
Proof. intros H w r w' E. exists []. rewrite (H _ _ _ E), app_nil_r. repeat split; auto with lia. Qed.
Lemma sends_throw {A} P e : sends P (throw (A := A) e).
Proof. apply quiet_sends. by intros w r w' [= _ <-]. Qed.
Lemma quiet_ret {A} (a : A) : quiet (mret a).
Proof. by intros w r w' [= _ <-]. Qed.
Lemma quiet_throw {A} e : quiet (throw (A := A) e).
Proof. by intros w r w' [= _ <-]. Qed.
Lemma quiet_lift {A} (x : Result AnyErr A) : quiet (lift x).
Proof. by intros w r w' [= _ <-]. Qed.
Lemma quiet_query {A} (q : W -> Result AnyErr A * W) : quiet (on_cluster (query q)).
Proof.
  intros w r w' E. unfold on_cluster, query in E. destruct (q (pve (cluster w))). by injection E as <- <-.
Qed.
Lemma quiet_table {A} (f : Table -> Result AnyErr A * Table) : quiet (on_table f).
Proof. intros w r w' E. unfold on_table in E. destruct (f (table w)). by injection E as <- <-. Qed.
Lemma quiet_bind {A B} (m : SM (DaemonWorld W) AnyErr A) (k : A -> SM (DaemonWorld W) AnyErr B) :
  quiet m -> (forall a, quiet (k a)) -> quiet (m ≫= k).
Proof.
  intros Hm Hk w r w' E. unfold mbind, SM_bind in E. destruct (m w) as [[a|e] w1] eqn:E1.
  - by rewrite (Hk _ _ _ _ E), (Hm _ _ _ E1).
  - injection E as _ <-. by apply (Hm _ _ _ E1).
Qed.
Lemma sends_bind {A B} P (m : SM (DaemonWorld W) AnyErr A) (k : A -> SM (DaemonWorld W) AnyErr B) :
  quiet m -> (forall a, sends P (k a)) -> sends P (m ≫= k).
Proof.
  intros Hm Hk w r w' E. unfold mbind, SM_bind in E. destruct (m w) as [[a|e] w1] eqn:E1.
  - rewrite <- (Hm _ _ _ E1). by eapply Hk.
  - injection E as _ <-. exists []. rewrite (Hm _ _ _ E1), app_nil_r. repeat split; auto with lia.
Qed.
Lemma sends_issue {A} P c (k : string -> A) : P c ->
  sends P (on_cluster (issue c) ≫= fun upid => mret (k upid)).
Proof.
  intros Hc w r w' E. unfold mbind, SM_bind, on_cluster, issue in E.
  destruct (answer c (pve (cluster w))) as [[u|e] p]; injection E as _ <-; exists [c]; simpl; auto.
Qed.
End sends.
#[export] Hint Resolve quiet_ret quiet_throw quiet_lift quiet_query quiet_table : proxxx.

Ltac quiet_tac :=
  repeat first
    [ progress auto with proxxx
    | match goal with
      | |- quiet (_ ≫= _) => apply quiet_bind; [|intros ?]
      | |- quiet (on_cluster (find_guest _)) => unfold find_guest
      | |- quiet (if ?b then _ else _) => destruct b
      | |- quiet (match ?x with _ => _ end) => destruct x
      end ].

Section mcp.
Context {W : Type} {G : Gateway W} {JT : JsonText}.
Implicit Types (env : Env W) (w : DaemonWorld W).

Definition tool_named (name : string) : option ToolDef := List.find (fun t => bool_decide (td_name t = name)) TOOLS.

(** [o] is what the cluster reported for [v]. *)
Definition reported (v : N) (o : option Guest) : Prop := exists p p', pve_find_guest v p = (Ok o, p').
(** The pre-flight of a destructive tool listing the ports of the running QEMU guest the cluster reported. *)
Definition lists_ports (name : string) (args : Value) (c : MutCall) : Prop :=
  exists v g, vget "guest_id" args = Some (JNumber (Z.of_N v)) /\ reported v (Some g) /\ asks_agent g = true
    /\ is_Some (preflight_op_for_tool name) /\ c = AgentExec (g_node g) (g_vmid g) LISTEN_COMMAND.

Lemma on_cluster_table {A} (m : SM (World W) AnyErr A) w r w' : on_cluster m w = (r, w') -> table w' = table w.
Proof. unfold on_cluster. destruct (m (cluster w)). by intros [= _ <-]. Qed.
Lemma find_guest_reported v w o w' : on_cluster (find_guest v) w = (Ok o, w') -> reported v o.
Proof.
  unfold on_cluster, find_guest, query. destruct (pve_find_guest v (pve (cluster w))) as [r0 p'] eqn:E.
  intros [= -> _]. by eexists _, _.
Qed.
(** The pre-flight gives its findings, whatever its probes do; they are severe exactly for a blocked operation. *)
Lemma preflight_run env op g w :
  exists risks w', mcp_preflight env op g w = (Ok risks, w') /\ table w' = table w
    /\ calls (cluster w') = calls (cluster w) ++ (if asks_agent g then [AgentExec (g_node g) (g_vmid g) LISTEN_COMMAND] else [])
    /\ (max_level risks = Severe <-> blocked op g).
Proof.
  assert (forall pr note, max_level (preflight_risks pr op g note) = Severe <-> blocked op g) as Hs.
  { intros pr note. unfold max_level. rewrite max_of_severe. apply preflight_risks_severe. }
  unfold mcp_preflight, run_agent, on_cluster, mbind, SM_bind. destruct (asks_agent g).
  - destruct (agent_exec env _ _ _ _) as [r p]. eexists _, _. split; [done|]. split; [done|]. split; [done|]. apply Hs.
  - eexists _, _. split; [done|]. split; [done|]. rewrite app_nil_r. split; [done|]. apply Hs.
Qed.

(** The tags a policy is matched against: the live ones, when a policy looks at tags and the call names a guest. *)
Definition live_tags env (guest_id : option N) (tags : list string) : Prop :=
  match existsb (fun p => starts_with "tag:" (po_target p)) (policies env), guest_id with
  | true, Some v => exists o, reported v o /\ tags = match o with Some g => tag_list g | None => [] end
  | _, _ => tags = []
  end.
(** The lookup of the guest failed. *)
Definition lookup_failed (guest_id : option N) : Prop := exists v p p' e, guest_id = Some v /\ pve_find_guest v p = (Err e, p').
Lemma find_guest_failed v w e w' : on_cluster (find_guest v) w = (Err e, w') -> lookup_failed (Some v).
Proof.
  unfold on_cluster, find_guest, query. destruct (pve_find_guest v (pve (cluster w))) as [r0 p'] eqn:E.
  intros [= -> _]. by eexists _, _, _, _.
Qed.
Lemma fetch_tags_spec env gid w r w' :
  fetch_tags env gid w = (r, w') ->
  table w' = table w /\ calls (cluster w') = calls (cluster w) /\
  match r with
  | Ok (fetched, tags) => live_tags env gid tags /\ forall g, fetched = Some g -> exists v, gid = Some v /\ reported v (Some g)
  | Err _ => lookup_failed gid
  end.
Proof.
  unfold fetch_tags, live_tags.
  destruct (existsb _ _), gid as [v|]; try (intros [= <- <-]; by split_and!).
  unfold mbind, SM_bind. destruct (on_cluster (find_guest v) w) as [[o|e] w1] eqn:E;
    (intros [= <- <-]; split; [by eapply on_cluster_table|]; split; [by eapply quiet_query|]).
  - pose proof (find_guest_reported _ _ _ _ E) as Ho. split; [by exists o|]. intros g ->. by exists v.
  - by eapply find_guest_failed.
Qed.

(** The actions that are not gated. *)
Definition ungated (a : ToolAction) : bool :=
  match a with
  | TStopGuest | TRestartGuest | TDeleteGuest | TCreateSnapshot | TDeleteSnapshot | TSuspendGuest | TCloneGuest
  | TMigrateGuest | TCreateGuest | TCloneWithCloudinit => false
  | _ => true
  end.
Lemma gated_tools : Forall (fun t => td_destructive t || ungated (td_action t) = true) TOOLS.
Proof. repeat constructor. Qed.
Lemma acting_tools : Forall (fun t => td_action t ∈ [TStartGuest; TResumeGuest] ->
  td_params t = [mkParam "guest_id" (default "" (pd_description <$> head (td_params t))) PInt true ShapeAny]) TOOLS.
Proof. repeat constructor; simpl; try done; intros; set_solver. Qed.

(** A start or a resume of the guest whose number the arguments give. *)
Definition starts_or_resumes (args : Value) (c : MutCall) : Prop :=
  exists node v gt, (c = StartGuest node v gt \/ c = ResumeGuest node v gt) /\
    (v <= u32_max)%N /\ vget "guest_id" args = Some (JNumber (Z.of_N v)).

Lemma quiet_find_node v : quiet (find_node_and_type (W := W) v).
Proof. unfold find_node_and_type. quiet_tac. Qed.

Lemma sends_act P (f : string -> N -> GuestType -> MutCall) v (k : string -> string) :
  (forall node gt, P (f node v gt)) ->
  sends P ('(node, gt) ← find_node_and_type (W := W) v; upid ← on_cluster (issue (f node v gt)); mret (k upid)).
Proof.
  intros HP. apply sends_bind; [apply quiet_find_node|]. intros [node gt]. apply sends_issue, HP.
Qed.

Lemma inline_sends env a args :
  ungated a = true ->
  (a ∈ [TStartGuest; TResumeGuest] ->
     exists v, (v <= u32_max)%N /\ vget "guest_id" args = Some (JNumber (Z.of_N v))) ->
  sends (starts_or_resumes args) (inline_text env a args).
Proof.
  intros Hu Hg.
  assert (a ∈ [TStartGuest; TResumeGuest] -> exists v, (v <= u32_max)%N /\
    vget "guest_id" args = Some (JNumber (Z.of_N v)) /\ default 0%N (arg_u32 "guest_id" args) = v) as Hv.
  { intros (v & Hv & E)%Hg. exists v. split; [done|]. split; [done|].
    unfold arg_u32, arg_u64. rewrite E. cbn. rewrite bool_decide_true by (unfold u32_max, u64_max in *; lia).
    cbn. rewrite N2Z.id. unfold u32_of. apply N.mod_small. unfold u32_max in Hv. lia. }
  destruct a; try done; unfold inline_text; cbv zeta;
    try (apply quiet_sends; quiet_tac; fail).
  - destruct (Hv ltac:(set_solver)) as (v & Hm & E & ->).
    apply (sends_act _ StartGuest). intros node gt. exists node, v, gt. auto.
  - destruct (Hv ltac:(set_solver)) as (v & Hm & E & ->).
    apply (sends_act _ ResumeGuest). intros node gt. exists node, v, gt. auto.
Qed.

Lemma tool_named_in name t : tool_named name = Some t -> t ∈ TOOLS /\ td_name t = name.
Proof. intros [H1 H2]%List.find_some. apply list_elem_of_In in H1. by apply bool_decide_eq_true in H2. Qed.

(** Either the call is refused before it looks at anything, or its tool and its
    arguments are known to be right. *)
Lemma handle_unfold env name args w :
  (exists e, handle_tool_call_with_store env name args w = (Err e, w)
     /\ (tool_named name = None \/ exists t, tool_named name = Some t /\ ~ Forall (typed_argument args) (td_params t))) \/
  exists t, tool_named name = Some t /\ Forall (typed_argument args) (td_params t) /\
    handle_tool_call_with_store env name args w =
      (if td_destructive t then gate_destructive env name args
       else content ← inline_text env (td_action t) args; mret (text_content content)) w.
Proof.
  unfold handle_tool_call_with_store, mbind, SM_bind, lift. fold (tool_named name).
  destruct (tool_named name) as [t|]; [|left; eexists; split; [done|by left]]. cbn [ok_or].
  pose proof (arguments_typed (td_params t) args) as Hty.
  destruct (check_params (td_params t) args) as [[]|e].
  - right. exists t. split; [done|]. split; [by apply Hty|]. by destruct (td_destructive t).
  - left. eexists. split; [done|]. right. exists t. split; [done|]. rewrite <- Hty. done.
Qed.

(** ** Requests *)
Definition is_error (v : Value) : bool := match vget "isError" v with Some (JBool true) => true | _ => false end.
(** The answer that says an approval is pending. *)
Definition intercepted (r : Result AnyErr Value) : bool :=
  match r with Ok v => negb (is_error v) | Err _ => false end.

(** The guest a request is bound to: the one the cluster reported, on a named
    node and with no severe risk, or what the arguments of a creation say. *)
Definition bound_to (name : string) (args : Value) (node : string) (gt : GuestType) : Prop :=
  match arg_u32 "guest_id" args with
  | Some v => exists g, reported v (Some g) /\ g_node g = node /\ g_guest_type g = gt /\ node <> "" /\
      forall op, preflight_op_for_tool name = Some op -> ~ blocked op g
  | None => arg_node args = Some node /\ arg_str "type" args = Some (guest_type_to_str gt)
  end.
(** There is no such guest to bind to. *)
Definition not_bound (name : string) (args : Value) : Prop :=
  match arg_u32 "guest_id" args with
  | Some v => lookup_failed (Some v) \/ reported v None
      \/ exists g, reported v (Some g) /\ (g_node g = "" \/ exists op, preflight_op_for_tool name = Some op /\ blocked op g)
  | None => arg_node args = None \/ forall gt, arg_str "type" args <> Some (guest_type_to_str gt)
  end.

Definition target_of (args : Value) : option N := or_else (arg_u32 "guest_id" args) (arg_u32 "vmid" args).
Definition target_text (args : Value) : string := match target_of args with Some v => pretty v | None => "" end.
(** What sending the approval request of a call under a policy gave. *)
Definition sent env (name : string) (args : Value) (policy : Policy) (ok : bool) : Prop :=
  exists reason, is_ok (request_approval env name (target_text args) reason (request_id env) (po_require policy)) = ok.
Definition governs env (name : string) (args : Value) (o : option Policy) : Prop :=
  exists tags, live_tags env (arg_u32 "guest_id" args) tags /\ check_policies (policies env) name (target_text args) tags = o.

(** The stored row is the call: its name, arguments, guest and policy; and its
    approval was asked for. *)
Definition asked env (name : string) (args : Value) (row : Row) : Prop :=
  exists policy node gt,
    governs env name args (Some policy) /\ sent env name args policy true /\ bound_to name args node gt /\
    row_action row = name /\ row_status row = "pending" /\ row_approvers_json row = "[]" /\
    row_node row = Some node /\ row_guest_type row = Some (guest_type_to_str gt) /\
    row_params_json row = value_to_text args /\ row_require row = Z.of_N (N.max (po_require policy) 1) /\
    row_vmid row = Z.of_N <$> target_of args.
(** Why a call of a tool may end without a request. *)
Inductive declined env (name : string) (args : Value) : Prop :=
  | bad_arguments t : tool_named name = Some t -> ~ Forall (typed_argument args) (td_params t) -> declined env name args
  | no_tags : lookup_failed (arg_u32 "guest_id" args) -> declined env name args
  | ungoverned : governs env name args None -> declined env name args
  | no_channel : telegram env <> TgReady -> declined env name args
  | no_guest : not_bound name args -> declined env name args
  | no_store : disk_open env <> Ok () \/ disk_insert env <> Ok () -> declined env name args.

(** What a destructive call leaves in the store, by its answer: the request; or
    nothing, for one of the reasons above; or, when sending failed, the closed
    row (an open one only if the database did not take its closing). *)
Definition recorded env (name : string) (args : Value) (r : Result AnyErr Value) w : Prop :=
  if intercepted r then exists row, table w !! request_id env = Some row /\ asked env name args row
  else (table w !! request_id env = None /\ declined env name args)
    \/ exists row policy, table w !! request_id env = Some row /\ governs env name args (Some policy)
         /\ sent env name args policy false /\ (row_status row = "failed" \/ disk_mark env <> Ok ()).

Lemma recorded_nothing env name args r w :
  table w !! request_id env = None -> intercepted r = false -> declined env name args -> recorded env name args r w.
Proof. intros H Hi Hd. unfold recorded. rewrite Hi. by left. Qed.

Definition resolution (name : string) (args : Value) (r : Result AnyErr Resolved) : Prop :=
  match r with
  | Ok (ResolvedTo node gt _) => bound_to name args node gt
  | Ok (ResolvedRefused a) => is_error a = true /\ not_bound name args
  | Err _ => not_bound name args
  end.
(** At most the listing of the ports, in the guest the call is about. *)
Definition ports_only (name : string) (args : Value) (w w' : DaemonWorld W) : Prop :=
  exists cs, calls (cluster w') = calls (cluster w) ++ cs /\ Forall (lists_ports name args) cs /\ length cs <= 1.
Lemma ports_none name args w w' : calls (cluster w') = calls (cluster w) -> ports_only name args w w'.
Proof. intros E. exists []. rewrite app_nil_r. repeat split; auto with lia. Qed.

Lemma resolve_guest_spec env name args v fetched w r w' :
  arg_u32 "guest_id" args = Some v -> (forall g, fetched = Some g -> reported v (Some g)) ->
  resolve_guest env name v fetched w = (r, w') ->
  table w' = table w /\ resolution name args r
  /\ ((is_Some (preflight_op_for_tool name) -> vget "guest_id" args = Some (JNumber (Z.of_N v))) -> ports_only name args w w').
Proof.
  intros Hv Hf E.
  assert (exists found w1, (match fetched with Some g => mret (Some g) | None => on_cluster (find_guest v) end
      : SM (DaemonWorld W) AnyErr (option Guest)) w = (found, w1) /\ table w1 = table w /\ calls (cluster w1) = calls (cluster w)
      /\ match found with Ok o => reported v o | Err _ => lookup_failed (Some v) end)
    as (found & w1 & E1 & Ht & Hc & Hr).
  { destruct fetched as [g|]; [eexists _, _; split_and!; try done; by apply Hf|].
    destruct (on_cluster (find_guest v) w) as [[o|e] w1] eqn:Ef; eexists _, _; split_and!; try done;
      try (by eapply on_cluster_table); try (by eapply quiet_query); [by eapply find_guest_reported|by eapply find_guest_failed]. }
  unfold resolve_guest, mbind, SM_bind, lift in E. rewrite E1 in E. clear E1. unfold resolution, not_bound, bound_to. rewrite Hv.
  destruct found as [[g|]|e]; cbn [ok_or] in E; [|injection E as <- <-; split_and!; [done|by auto|by intros _; apply ports_none]..].
  destruct (is_empty (g_node g)) eqn:En.
  { injection E as <- <-. split_and!; [done| |by intros _; apply ports_none]. right. right. exists g. split; [done|]. left.
    by apply bool_decide_eq_true in En. }
  apply bool_decide_eq_false in En.
  destruct (preflight_op_for_tool name) as [op|] eqn:Eop.
  2:{ injection E as <- <-. split_and!; [done| |by intros _; apply ports_none]. by exists g. }
  unfold mbind, SM_bind in E. destruct (preflight_run env op g w1) as (risks & w2 & Ew & Ht2 & Hc2 & Hs). rewrite Ew in E.
  assert ((is_Some (Some op) -> vget "guest_id" args = Some (JNumber (Z.of_N v))) -> ports_only name args w w2) as Hp.
  { intros Hg. unfold ports_only. rewrite Hc2, Hc. eexists. split; [done|]. destruct (asks_agent g) eqn:Ea; [|by split; [constructor|simpl; lia]].
    split; [|simpl; lia]. constructor; [|constructor]. exists v, g. rewrite Eop. split; [by apply Hg; eexists|]. split_and!; try done; by eexists. }
  case_bool_decide as Hsev; injection E as <- <-; (split; [by rewrite Ht2|]); (split; [|done]).
  - split; [done|]. right. right. exists g. split; [done|]. right. exists op. split; [done|]. by apply Hs.
  - exists g. split_and!; try done. intros op' [= <-]. by rewrite <- Hs.
Qed.

Lemma resolve_new_spec name args w r w' :
  arg_u32 "guest_id" args = None ->
  resolve_new name args w = (r, w') ->
  table w' = table w /\ resolution name args r /\ calls (cluster w') = calls (cluster w).
Proof.
  intros Hv. unfold resolve_new, mbind, SM_bind, lift, resolution, not_bound, bound_to. rewrite Hv.
  destruct (arg_node args) as [node|] eqn:En; cbn [ok_or]; [|intros [= <- <-]; auto].
  destruct (arg_str "type" args) as [t|] eqn:Et; [|intros [= <- <-]; split_and!; [done|by right|done]].
  case_bool_decide; [intros [= <- <-]; subst; split_and!; done|].
  case_bool_decide; intros [= <- <-]; subst; split_and!; try done. right. intros [] [= ->]; done.
Qed.

Lemma on_table_open env w r w' :
  on_table (open_at_with_now (disk_open env) (env_now env)) w = (r, w') ->
  table w !! request_id env = None -> table w' !! request_id env = None /\ (is_ok r = false -> disk_open env <> Ok ()).
Proof.
  unfold on_table, open_at_with_now. destruct (disk_open env); intros [= <- <-] H; [|done]. cbn [table set_table].
  split; [|done]. apply map_lookup_filter_None. by left.
Qed.

Lemma request_approval_for_quiet env name args vmid policy node gt note :
  quiet (request_approval_for env name args vmid policy node gt note).
Proof. unfold request_approval_for. quiet_tac. Qed.
Lemma request_approval_for_spec env name args policy node gt note w r w' :
  table w !! request_id env = None -> governs env name args (Some policy) -> bound_to name args node gt ->
  request_approval_for env name args (target_of args) policy node gt note w = (r, w') -> recorded env name args r w'.
Proof.
  intros Hn Hg Hb. unfold request_approval_for, mbind, SM_bind. cbv zeta.
  destruct (on_table (open_at_with_now _ _) w) as [ro w1] eqn:Eo. apply on_table_open in Eo as [Eo Hbad]; [|done].
  destruct ro as [[]|e]; [|intros [= <- <-]; apply recorded_nothing; [done..|]; apply no_store; left; by apply Hbad].
  unfold on_table at 1, insert_at. rewrite Eo.
  destruct (disk_insert env) as [[]|e] eqn:Ei;
    [|intros [= <- <-]; apply recorded_nothing; [done..|]; apply no_store; right; by rewrite Ei].
  cbn [pr_id]. destruct (request_approval env _ _ _ _ _) as [[]|e] eqn:Ea.
  - intros [= <- <-]. unfold recorded. cbn. eexists. rewrite lookup_insert_eq. split; [done|].
    exists policy, node, gt. split; [done|]. split; [eexists; by unfold target_text; rewrite Ea|].
    cbn. split_and!; try done. by rewrite <- N.max_assoc.
  - unfold on_table, mark_failed. destruct (disk_mark env) as [[]|em] eqn:Em; intros [= <- <-];
      unfold recorded; cbn; right; eexists _, policy; (split; [by rewrite ?lookup_alter_eq, lookup_insert_eq|]);
      (split; [done|]); (split; [eexists; by unfold target_text; rewrite Ea|]); [by left|right; by rewrite Em].
Qed.

(** The whole gate: what it leaves in the store, and what it sends. *)
Lemma gate_spec env name args w r w' :
  gate_destructive env name args w = (r, w') ->
  (table w !! request_id env = None -> recorded env name args r w')
  /\ ((forall v, arg_u32 "guest_id" args = Some v -> is_Some (preflight_op_for_tool name) -> vget "guest_id" args = Some (JNumber (Z.of_N v))) ->
      ports_only name args w w').
Proof.
  unfold gate_destructive. cbv zeta. fold (target_of args). fold (target_text args).
  destruct (policies env) as [|p0 ps] eqn:Eps.
  { intros [= <- <-]. split; [|by intros _; apply ports_none]. intros Hn. apply recorded_nothing; [done..|]. apply ungoverned.
    exists []. unfold live_tags. rewrite Eps. by split. }
  unfold mbind at 1, SM_bind at 1. destruct (fetch_tags env _ w) as [[[fetched tags]|e] w1] eqn:Ef;
    apply fetch_tags_spec in Ef as (Ht1 & Hc1 & Hf).
  2:{ intros [= <- <-]. split; [|by intros _; apply ports_none]. intros Hn. apply recorded_nothing; [by rewrite Ht1|done|]. by apply no_tags. }
  destruct Hf as [Htags Hf]. rewrite <- Eps, <- Ht1.
  assert (governs env name args (check_policies (policies env) name (target_text args) tags)) as Hgov by by exists tags.
  destruct (check_policies _ _ _ _) as [policy|] eqn:Ec.
  2:{ intros [= <- <-]. split; [|by intros _; apply ports_none]. intros Hn. apply recorded_nothing; [done..|]. by apply ungoverned. }
  destruct (telegram env) as [|e|] eqn:Etg;
    try (intros [= <- <-]; split; [|by intros _; apply ports_none]; intros Hn; apply recorded_nothing; [done..|]; apply no_channel; by rewrite Etg).
  unfold mbind, SM_bind.
  destruct ((match arg_u32 "guest_id" args with
             | Some v => resolve_guest env name v fetched
             | None => resolve_new name args
             end : SM (DaemonWorld W) AnyErr Resolved) w1) as [res w2] eqn:Er.
  assert (table w2 = table w1 /\ resolution name args res /\
    ((forall v, arg_u32 "guest_id" args = Some v -> is_Some (preflight_op_for_tool name) -> vget "guest_id" args = Some (JNumber (Z.of_N v))) ->
     ports_only name args w w2)) as (Ht2 & Hr & Hp).
  { destruct (arg_u32 "guest_id" args) as [v|] eqn:Ev.
    - destruct (resolve_guest_spec env name args v fetched w1 res w2) as (H1 & H2 & H3); [done| |done|].
      { intros g ->. destruct (Hf g eq_refl) as (v' & [= <-] & Hg). done. }
      split; [done|]. split; [done|]. intros Hv. unfold ports_only in *. rewrite <- Hc1. apply H3. by apply Hv.
    - apply resolve_new_spec in Er as (H1 & H2 & H3); [|done]. split; [done|]. split; [done|]. intros _. apply ports_none. congruence. }
  rewrite <- Ht2. destruct res as [[node gt note|a]|e]; cbn [resolution] in Hr.
  - intros E. pose proof (request_approval_for_quiet _ _ _ _ _ _ _ _ _ _ _ E) as Hc3. split.
    + intros Hn. by eapply request_approval_for_spec.
    + intros H. unfold ports_only in *. rewrite Hc3. by apply Hp.
  - intros [= <- <-]. split; [|done]. destruct Hr as [Hr Hb]. intros Hn. apply recorded_nothing; [done| |by apply no_guest]. cbn. by rewrite Hr.
  - intros [= <- <-]. split; [|done]. intros Hn. apply recorded_nothing; [done..|]. by apply no_guest.
Qed.

(** The tools that get a pre-flight take the number of their guest as an integer. *)
Lemma preflight_tools : Forall (fun t => is_Some (preflight_op_for_tool (td_name t)) ->
  exists p, p ∈ td_params t /\ pd_name p = "guest_id" /\ pd_type p = PInt) TOOLS.
Proof. repeat constructor; vm_compute; try (by intros [? ?]); intros _; eexists; (split; [left|]); done. Qed.
Lemma number_given t args v :
  t ∈ TOOLS -> is_Some (preflight_op_for_tool (td_name t)) -> Forall (typed_argument args) (td_params t) ->
  arg_u32 "guest_id" args = Some v -> vget "guest_id" args = Some (JNumber (Z.of_N v)).
Proof.
  intros Hin Hop Hargs. destruct (proj1 (Forall_forall _ _) preflight_tools t Hin Hop) as (p & Hp & Hn & Hty).
  pose proof (proj1 (Forall_forall _ _) Hargs p Hp) as Ht. unfold typed_argument in Ht. rewrite Hn in Ht.
  unfold arg_u32, arg_u64. destruct (vget "guest_id" args) as [x|]; [|done]. unfold has_type in Ht. rewrite Hty in Ht.
  destruct Ht as (n & Hle & ->). cbn. rewrite bool_decide_true by (unfold u32_max, u64_max in *; lia). cbn.
  rewrite N2Z.id. unfold u32_of. rewrite N.mod_small by (unfold u32_max in Hle; lia). by intros [= <-].
Qed.

(** C10: Whatever tool is called with whatever arguments, the MCP server itself
    makes at most one call that changes something.  For a tool not marked
    destructive that is a start or a resume of the guest whose number the caller
    wrote, unchanged by any narrowing.  For a destructive tool it is the
    pre-flight's command that lists the listening ports, run through the agent of
    the running QEMU guest the cluster reported for that number; the operation itself is
    not sent. *)
Theorem mcp_calls_start_or_resume env name args w :
  exists cs, calls (cluster (handle_tool_call_with_store env name args w).2) = calls (cluster w) ++ cs /\ length cs <= 1 /\
    match tool_named name with
    | Some t => if td_destructive t then Forall (lists_ports name args) cs else Forall (starts_or_resumes args) cs
    | None => cs = []
    end.
Proof.
  destruct (handle_unfold env name args w) as [(e & -> & _)|(t & Ht & Hargs & ->)].
  { exists []. rewrite app_nil_r. split; [done|]. split; [simpl; lia|]. destruct (tool_named name) as [t|]; [|done]. by destruct (td_destructive t). }
  destruct (tool_named_in _ _ Ht) as [Hin Hname]. rewrite Ht.
  destruct (td_destructive t) eqn:Ed.
  - destruct (gate_destructive env name args w) as [r w'] eqn:E. cbn [snd].
    destruct (gate_spec _ _ _ _ _ _ E) as [_ Hp]. destruct Hp as (cs & H1 & H2 & H3); [|by exists cs].
    intros v Hv Hop. eapply number_given; [exact Hin|by rewrite Hname|exact Hargs|exact Hv].
  - pose proof (proj1 (Forall_forall _ _) gated_tools t Hin) as Hu. cbv beta in Hu; rewrite Ed in Hu; simpl in Hu.
    pose proof (proj1 (Forall_forall _ _) acting_tools t Hin) as Ha.
    assert (sends (starts_or_resumes args) (inline_text env (td_action t) args)) as Hs.
    { apply inline_sends; [done|]. intros Hact. rewrite (Ha Hact) in Hargs.
      apply Forall_cons in Hargs as [Hty _]. unfold typed_argument in Hty. cbn in Hty.
      destruct (vget "guest_id" args) as [v|]; [|done]. destruct Hty as (n & Hle & ->). eauto. }
    destruct (inline_text env (td_action t) args w) as [r1 w1] eqn:E1. destruct (Hs _ _ _ E1) as (cs & H1 & H2 & H3).
    exists cs. unfold mbind, SM_bind. rewrite E1. by destruct r1.
Qed.

(** C11: A destructive tool call ends with a pending request exactly when
    somebody was asked.  If it answers that approval is needed, the store holds the
    request, undecided, with the call's name and arguments, the policy that
    governs the call on the guest's live tags, and the guest the cluster
    reported (not blocked, on a named node), and its request was sent.  If it
    answers anything else, then either nothing was stored, for one of these reasons:
    the arguments are not as declared, the guest cannot be looked up, no policy governs
    the call, no Telegram channel, no guest to bind to or a blocked one, the
    database failed; or sending the request failed and its row is closed (still open
    only if the database failed to close it). *)
Theorem mcp_pending_iff_asked env name args t w :
  tool_named name = Some t -> td_destructive t = true ->
  table w !! request_id env = None ->
  let '(r, w') := handle_tool_call_with_store env name args w in
  recorded env name args r w'.
Proof.
  intros Ht Hdes Hn. destruct (handle_unfold env name args w) as [(e & -> & Hbad)|(t' & Ht' & _ & ->)].
  { apply recorded_nothing; [done..|]. destruct Hbad as [Hbad|(t' & Ht' & Hargs)]; [congruence|]. by eapply bad_arguments. }
  assert (t' = t) as -> by congruence. rewrite Hdes.
  destruct (gate_destructive env name args w) as [r w'] eqn:E. by apply gate_spec in E as [E _]; apply E.
Qed.
End mcp.

(** ** A concrete server *)
#[local] Existing Instance demo_pve.
#[local] Existing Instance demo_text.

Definition demo_probes : Probes :=
  {| p_snapshots := Ok []; p_storages := Ok []; p_content := fun _ => Ok []; p_pbs := None; p_exec := Ok (0%Z, "");
     p_now := 1000 |}.
Definition demo_env : Env N := {|
  policies := [{| po_action := "stop_guest"; po_target := "*"; po_require := 2; po_channel := "telegram" |}];
  telegram := TgReady; pbs := None; probes := fun _ => demo_probes; agent_exec := fun _ _ _ w => (Ok (0%Z, ""), w);
  request_id := "9c"; env_now := 1000;
  disk_open := Ok (); disk_insert := Ok (); disk_mark := Ok ();
  request_approval := fun _ _ _ _ _ => Ok ();
  cluster_tasks := fun w => (Ok [], w); to_string_pretty := fun _ => ""; read_tool := fun _ _ w => (Ok "", w);
|}.
Definition demo_args : Value := JObject [("guest_id", JNumber 100)].

Example demo_intercepted :
  intercepted (handle_tool_call_with_store demo_env "stop_guest" demo_args demo_world).1 = true /\
  intercepted (handle_tool_call_with_store demo_env "delete_guest" demo_args demo_world).1 = false.
Proof. vm_compute. by split. Qed.

Lemma mcp_pending_iff_asked_witness :
  exists row, table (handle_tool_call_with_store demo_env "stop_guest" demo_args demo_world).2 !! "9c" = Some row /\
    row_action row = "stop_guest" /\ row_node row = Some "pve1" /\ row_require row = 2%Z.
Proof.
  pose proof (mcp_pending_iff_asked demo_env "stop_guest" demo_args tool_stop_guest demo_world) as H.
  specialize (H ltac:(vm_compute; reflexivity) ltac:(reflexivity) ltac:(vm_compute; reflexivity)).
  destruct (handle_tool_call_with_store demo_env "stop_guest" demo_args demo_world) as [r w'] eqn:E.
  unfold recorded in H. assert (intercepted r = true) as Hi.
  { apply (f_equal fst) in E. vm_compute in E. by subst r. }
  rewrite Hi in H. destruct H as (row & Hrow & policy & node & gt & (tags & _ & Hp) & _ & Hb & Ha & _ & _ & Hn & _ & _ & Hq & _).
  exists row. split; [exact Hrow|]. split; [exact Ha|].
  assert (policy = {| po_action := "stop_guest"; po_target := "*"; po_require := 2; po_channel := "telegram" |}) as ->.
  { vm_compute in Hp. by injection Hp as <-. }
  destruct Hb as (g & (p & p' & Hg) & Hnode & _). vm_compute in Hg. injection Hg as <- _. by subst node.
Defined.
