(* ===== verification/Ha.v ===== *)
(** * HA inspector: app/ha.rs and the types of api/types/ha.rs it reads

    Where a resource lands when a node fails, and the worst health of the
    replication jobs.  The order in which a [HashSet] yields its members is a
    parameter ([iter]); the theorems ask only that it yields each member. *)

From S2P Require Import Prelude.
From S2P Require Import Json.
From S2P Require Import ApiError.
From S2P Require Import SortBy.
From S2P Require Import F64.
From S2P Require Import Alerts.

(** ** api/types/ha.rs *)

(** [str::parse::<i32>]: an optional sign, decimal digits, no overflow. *)
Definition parse_i32 (s : string) : option Z :=
  match strip_prefix "-" s with
  | Some r => if is_empty r then None else (fun n => (- Z.of_N n)%Z) <$> parse_digits 2147483648 0 r
  | None => Z.of_N <$> parse_uint 2147483647 s
  end.

Record HaGroup := mkHaGroup {
  hg_name : string;
  hg_nodes : string;
  hg_restricted : bool;
  hg_nofailback : bool;
  hg_comment : string;
}.
Record HaResource := mkHaResource {
  hr_sid : string;
  hr_group : string;
  hr_state : string;
  hr_max_restart : N;
  hr_max_relocate : N;
  hr_comment : string;
}.
Record HaRule := mkHaRule {
  hu_rule : string;
  hu_rule_type : string;
  hu_resources : string;
  hu_comment : string;
  hu_disable : bool;
  hu_digest : string;
  hu_nodes : string;
  hu_strict : bool;
  hu_affinity : string;
}.
Record HaLrmStatus := mkHaLrmStatus { lrm_mode : string; lrm_state : string; lrm_timestamp : N }.
Record HaQuorum := mkHaQuorum { hq_node : string; hq_quorate : N }.
Record HaCrmStatus := mkHaCrmStatus {
  crm_master_node : option string;
  crm_node_status : gmap string string;
  crm_service_status : gmap string Value;
  crm_timestamp : option N;
}.
Record HaManagerStatus := mkHaManagerStatus {
  manager_status : HaCrmStatus;
  lrm_status : gmap string HaLrmStatus;
  quorum : option HaQuorum;
}.
Definition master (m : HaManagerStatus) : option string := crm_master_node (manager_status m).
Definition master_mode (m : HaManagerStatus) : option string :=
  n ← master m; lrm_mode <$> lrm_status m !! n.

Record ClusterStatusEntry := mkClusterStatusEntry {
  ce_type : string;
  ce_name : string;
  ce_online : bool;
  ce_quorate : bool;
  ce_nodes : N;
  ce_local : bool;
}.

(** One piece of the [nodes] field: a name with an optional priority. *)
Definition priority_piece (piece : string) : string * Z :=
  match split_once ":" piece with
  | Some (n, p) => (trim n, default 0%Z (parse_i32 (trim p)))
  | None => (piece, 0%Z)
  end.
Definition nonempty_pieces (s : string) : list string :=
  List.filter (fun p => negb (is_empty p)) (trim <$> split_char "," s).
(** Descending priority, then name. *)
Definition cmp_priority (a b : string * Z) : comparison :=
  then_cmp (Z.compare b.2 a.2) (String.compare a.1 b.1).
Definition parse_priorities (nodes : string) : list (string * Z) :=
  sort_by cmp_priority (priority_piece <$> nonempty_pieces nodes).
Definition HaGroup_parse_priority_list (g : HaGroup) : list (string * Z) := parse_priorities (hg_nodes g).
Definition HaRule_parse_priority_list (r : HaRule) : list (string * Z) := parse_priorities (hu_nodes r).

(** [Vec::dedup]: drops repeats of the element before. *)
Fixpoint dedup {A} `{EqDecision A} (l : list A) : list A :=
  match l with
  | [] => []
  | x :: l' => match dedup l' with
               | y :: r => if bool_decide (x = y) then y :: r else x :: y :: r
               | [] => [x]
               end
  end.
Definition parse_resource_list (r : HaRule) : list string :=
  dedup (sort_by String.compare (nonempty_pieces (hu_resources r))).

Definition HaResource_vmid (r : HaResource) : option N :=
  '(_, n) ← split_once ":" (hr_sid r); parse_uint u32_max n.
Definition HaResource_kind (r : HaResource) : string :=
  match split_once ":" (hr_sid r) with Some (k, _) => k | None => "" end.

(** ** Replication health (api/types/replication.rs) *)
Inductive ReplicationHealth := Healthy | Stale | Failing.
#[export] Instance ReplicationHealth_eq_dec : EqDecision ReplicationHealth.
Proof. solve_decision. Defined.
Definition rpo_secs (s : ReplicationStatus) (now : N) : N :=
  if (rs_last_sync s =? 0)%N then u64_max else (now - rs_last_sync s)%N.
Definition health (s : ReplicationStatus) (now expected_period_secs : N) : ReplicationHealth :=
  if (0 <? rs_fail_count s)%N || negb (is_empty (rs_error s)) then Failing
  else if (N.min u64_max (expected_period_secs * 2) <? rpo_secs s now)%N then Stale
  else Healthy.

(** ** app/ha.rs *)
Definition online_nodes (entries : list ClusterStatusEntry) : gset string :=
  list_to_set (ce_name <$> List.filter (fun e => bool_decide (ce_type e = "node") && ce_online e) entries).

Definition require_cluster_member (entries : list ClusterStatusEntry) (name : string) : Result AnyErr unit :=
  if existsb (fun e => bool_decide (ce_type e = "node") && bool_decide (ce_name e = name)) entries then Ok ()
  else
    let members := sort_by String.compare
                     (ce_name <$> List.filter (fun e => bool_decide (ce_type e = "node")) entries) in
    Err (of_api (NotFound ("node " +:+ name +:+ " is not a member of this cluster (members: "
                           +:+ join ", " members +:+ ")"))).

Inductive FailoverPreview :=
  | Relocate (target : string) (priority : Z)
  | Stuck (restricted : bool) (chosen : option string)
  | NotAffected.

(** The first member of the group's list that is online and not the failed node. *)
Definition next_hop (online : gset string) (failed_node : string) (prio_list : list (string * Z))
    : option (string * Z) :=
  List.find (fun np => negb (bool_decide (np.1 = failed_node)) && bool_decide (np.1 ∈ online)) prio_list.

Definition preview_failover (iter : gset string -> list string) (resource : HaResource) (groups : list HaGroup)
    (online : gset string) (current_node failed_node : string) : FailoverPreview :=
  if negb (bool_decide (current_node = failed_node)) then NotAffected
  else
    let other := List.filter (fun n => negb (bool_decide (n = failed_node))) (iter online) in
    match List.find (fun g => bool_decide (hg_name g = hr_group resource)) groups with
    | None =>
        match head other with
        | Some n => Relocate n 0
        | None => Stuck false None
        end
    | Some g =>
        match next_hop online failed_node (HaGroup_parse_priority_list g) with
        | Some (node, prio) => Relocate node prio
        | None =>
            if hg_restricted g then Stuck true None
            else Stuck false (head (sort_by String.compare other))
        end
    end.

Definition worse (worst h : ReplicationHealth) : ReplicationHealth :=
  match worst, h with
  | _, Failing => Failing
  | Failing, _ => Failing
  | Stale, _ | _, Stale => Stale
  | _, _ => Healthy
  end.
Definition summarise_replication_health (statuses : list ReplicationStatus) (now period_secs : N)
    : ReplicationHealth :=
  foldl (fun worst s => worse worst (health s now period_secs)) Healthy statuses.

(** ** Theorems *)
#[export] Instance cmp_priority_Cmp : Cmp cmp_priority.
Proof.
  apply (then_cmp_Cmp (fun a b => Z.compare b.2 a.2) (cmp_on fst String.compare)); [|apply _].
  pose proof Z_compare_Cmp as C. split; intros x y; [|intros z..].
  - apply (cmp_opp (cmp := Z.compare)).
  - rewrite !Z.compare_eq_iff. by intros ->.
  - rewrite !Z.compare_lt_iff. lia.
Qed.

Lemma find_split {A} (f : A -> bool) l x :
  List.find f l = Some x -> exists l1 l2, l = l1 ++ x :: l2 /\ f x = true /\ Forall (fun y => f y = false) l1.
Proof.
  induction l as [|y l IH]; [done|]. simpl. destruct (f y) eqn:E.
  - intros [= ->]. by exists [], l.
  - intros (l1 & l2 & -> & Hx & Hl)%IH. exists (y :: l1), l2. split; [done|]. split; [done|]. by constructor.
Qed.

(** A listed node that could take the resource over. *)
Definition candidate (g : HaGroup) (online : gset string) (failed_node : string) (np : string * Z) : Prop :=
  np ∈ priority_piece <$> nonempty_pieces (hg_nodes g) /\ np.1 ∈ online /\ np.1 <> failed_node.

Lemma next_hop_best g online failed n p :
  next_hop online failed (HaGroup_parse_priority_list g) = Some (n, p) ->
  candidate g online failed (n, p) /\
  forall m q, candidate g online failed (m, q) -> (q < p)%Z \/ (q = p /\ String.compare n m <> Gt).
Proof.
  intros (l1 & l2 & E & Hx & Hl)%find_split. unfold HaGroup_parse_priority_list, parse_priorities in *.
  apply andb_true_iff in Hx as [Hx1%negb_true_iff%bool_decide_eq_false Hx2%bool_decide_eq_true].
  assert (forall y, y ∈ sort_by cmp_priority (priority_piece <$> nonempty_pieces (hg_nodes g)) <->
                    y ∈ priority_piece <$> nonempty_pieces (hg_nodes g)) as Hin.
  { intros y. apply elem_of_sort_by. }
  split.
  - split; [|done]. apply Hin. rewrite E. apply elem_of_app. right. by left.
  - intros m q (Hm & Ho & Hf). apply Hin in Hm. rewrite E in Hm.
    assert ((m, q) ∈ (n, p) :: l2) as Hm'.
    { apply elem_of_app in Hm as [Hm|]; [|done]. rewrite Forall_forall in Hl. specialize (Hl _ Hm). simpl in *.
      rewrite (bool_decide_false (m = failed)), (bool_decide_true (m ∈ online)) in Hl by done. done. }
    pose proof (sort_by_sorted cmp_priority (priority_piece <$> nonempty_pieces (hg_nodes g))) as Hs.
    rewrite E in Hs. apply StronglySorted_app in Hs as (_ & _ & Hs). apply StronglySorted_cons in Hs as [Hs _].
    apply elem_of_cons in Hm' as [[= -> ->]|Hm'].
    + right. split; [done|]. by rewrite (cmp_refl String.compare).
    + rewrite Forall_forall in Hs. specialize (Hs _ Hm'). unfold cmp_le, cmp_priority in Hs. simpl in Hs.
      destruct (Z.compare_spec q p) as [->|Hlt|Hgt]; simpl in Hs; [by right|by left|done].
Qed.

(** [iter] yields the members of a set, each once. *)
Definition yields_members (iter : gset string -> list string) : Prop := forall s, iter s ≡ₚ elements s.

Lemma next_hop_none g online failed :
  next_hop online failed (HaGroup_parse_priority_list g) = None -> forall np, ~ candidate g online failed np.
Proof.
  intros H [m q] (Hm & Ho & Hf). apply (elem_of_sort_by cmp_priority) in Hm. apply list_elem_of_In in Hm.
  apply (List.find_none _ _ H) in Hm. simpl in *.
  by rewrite (bool_decide_false (m = failed)), (bool_decide_true (m ∈ online)) in Hm.
Qed.

(** The failover preview names the right node: a resource of a group moves
    to an online member of the group's list other than the failed node, and no
    other such member has a higher priority, or the same priority and a smaller name;
    only when the list has no such member is it stuck, on no node if the group is
    restricted and otherwise on the first other online node by name. *)
Lemma preview_picks_best iter resource groups online node g :
  yields_members iter ->
  List.find (fun g => bool_decide (hg_name g = hr_group resource)) groups = Some g ->
  match preview_failover iter resource groups online node node with
  | Relocate n p =>
      candidate g online node (n, p) /\
      forall m q, candidate g online node (m, q) -> (q < p)%Z \/ (q = p /\ String.compare n m <> Gt)
  | Stuck r chosen =>
      (forall np, ~ candidate g online node np) /\ r = hg_restricted g /\
      match chosen with
      | Some n => r = false /\ n ∈ online /\ n <> node /\
          forall m, m ∈ online -> m <> node -> String.compare n m <> Gt
      | None => r = true \/ forall m, m ∈ online -> m = node
      end
  | NotAffected => False
  end.
Proof.
  intros Hiter Hg. unfold preview_failover. rewrite bool_decide_true, Hg by done. cbn [negb]. cbv zeta.
  destruct (next_hop online node (HaGroup_parse_priority_list g)) as [[n p]|] eqn:E; [by apply next_hop_best|].
  pose proof (next_hop_none _ _ _ E) as Hnone. set (other := List.filter _ _).
  assert (forall m, m ∈ other <-> m ∈ online /\ m <> node) as Hother.
  { intros m. unfold other. rewrite list_elem_of_In, List.filter_In, <- list_elem_of_In, (Hiter online), elem_of_elements.
    by rewrite negb_true_iff, bool_decide_eq_false. }
  destruct (hg_restricted g) eqn:Er; [by auto|]. split; [done|]. split; [done|].
  destruct (head (sort_by String.compare other)) as [n|] eqn:Eh.
  - apply sort_by_head in Eh as [[Hn1 Hn2]%Hother Hmin]; [|apply _]. split; [done|]. split; [done|]. split; [done|].
    intros m H1 H2. apply Hmin, Hother. done.
  - right. intros m Hm. destruct (decide (m = node)) as [|Hne]; [done|]. exfalso.
    assert (m ∈ other) as Ho by by apply Hother. apply (elem_of_sort_by String.compare) in Ho.
    destruct (sort_by String.compare other); [by apply elem_of_nil in Ho|done].
Qed.

(** The roll-up is the worst health of any job. *)
Definition health_rank (h : ReplicationHealth) : nat := match h with Healthy => 0 | Stale => 1 | Failing => 2 end.
Lemma worse_rank a b : health_rank (worse a b) = Nat.max (health_rank a) (health_rank b).
Proof. by destruct a, b. Qed.
Lemma summarise_is_worst statuses now period :
  health_rank (summarise_replication_health statuses now period)
  = foldr Nat.max 0 ((fun s => health_rank (health s now period)) <$> statuses).
Proof.
  unfold summarise_replication_health.
  assert (forall w, health_rank (foldl (fun worst s => worse worst (health s now period)) w statuses)
    = Nat.max (health_rank w) (foldr Nat.max 0 ((fun s => health_rank (health s now period)) <$> statuses))) as H.
  { induction statuses as [|s l IH]; intros w; csimpl; [by rewrite Nat.max_0_r|]. by rewrite IH, worse_rank, Nat.max_assoc. }
  by rewrite H.
Qed.

(** ** Example *)
Definition demo_group : HaGroup := mkHaGroup "web" "pve1:1, pve2:5,pve3:5" true false "".
Definition demo_service : HaResource := mkHaResource "vm:100" "web" "started" 1 1 "".
Lemma preview_picks_best_witness :
  preview_failover elements demo_service [demo_group] {["pve2"; "pve3"; "pve1"]} "pve2" "pve2" = Relocate "pve3" 5 /\
  candidate demo_group {["pve2"; "pve3"; "pve1"]} "pve2" ("pve3", 5%Z).
Proof.
  pose proof (preview_picks_best elements demo_service [demo_group] {["pve2"; "pve3"; "pve1"]} "pve2" demo_group) as H.
  specialize (H ltac:(intros s; reflexivity) ltac:(reflexivity)).
  assert (preview_failover elements demo_service [demo_group] {["pve2"; "pve3"; "pve1"]} "pve2" "pve2"
          = Relocate "pve3" 5) as E by (vm_compute; reflexivity).
  rewrite E in H. split; [exact E|]. apply H.
Defined.
