(* ===== verification/Hw.v ===== *)
(** * Hardware passthrough: app/hw.rs

    Which guests claim which PCI and USB devices, and where the claims collide.
    A [BTreeMap] is a [gmap] read in key order ([btree]); the order in which a
    [HashMap] is walked is a parameter ([configs] and each configuration come as
    lists, in whatever order). *)

From S2P Require Import Prelude.
From S2P Require Import SortBy.
From S2P Require Import Guest.
From S2P Require Import HitlCallback.
From S2P Require Import Ha.

(** ** api/types/node_hw.rs *)
Record PciDevice := mkPciDevice {
  pci_id : string;
  pci_class : string;
  pci_vendor : string;
  pci_device : string;
  pci_vendor_name : string;
  pci_device_name : string;
  pci_iommugroup : Z;
  pci_mdev : bool;
}.
Definition is_gpu (d : PciDevice) : bool :=
  let stripped := trim_start_matches "0x" (pci_class d) in
  starts_with "03" stripped || starts_with "0300" stripped || starts_with "0302" stripped.
Definition short_label (d : PciDevice) : string :=
  let addr := default (pci_id d) (strip_prefix "0000:" (pci_id d)) in
  let name := if is_empty (pci_device_name d) then pci_vendor d +:+ ":" +:+ pci_device d else pci_device_name d in
  addr +:+ "  " +:+ name.

Record UsbDevice := mkUsbDevice {
  usb_busnum : N;
  usb_devnum : N;
  usb_vendid : string;
  usb_prodid : string;
  usb_manufacturer : string;
  usb_product : string;
  usb_class : N;
}.
Definition proxmox_id (d : UsbDevice) : string :=
  trim_start_matches "0x" (usb_vendid d) +:+ ":" +:+ trim_start_matches "0x" (usb_prodid d).

(** ** Assignments *)
Record PciAssignment := mkPciAssignment { pa_vmid : N; pa_key : string; pa_address : string; pa_raw : string }.
Record UsbAssignment := mkUsbAssignment { ua_vmid : N; ua_key : string; ua_spec : string }.

Definition parse_pci_value (value : string) : string * string :=
  let first_segment := match split_once "," value with Some (a, _) => a | None => value end in
  let trimmed := trim first_segment in
  let normalized := if bool_decide (length (split_char ":" trimmed) = 2) then "0000:" +:+ trimmed else trimmed in
  (normalized, value).

Fixpoint all_digits (s : string) : bool :=
  match s with "" => true | String a s' => bool_decide (is_Some (digit_value a)) && all_digits s' end.

(** One entry of a guest's configuration. *)
Definition scan_entry (vmid : N) (kv : string * string) (acc : list PciAssignment * list UsbAssignment)
    : list PciAssignment * list UsbAssignment :=
  let '(k, v) := kv in
  let '(pci, usb) := acc in
  match strip_prefix "hostpci" k with
  | Some rest =>
      if all_digits rest
      then let '(addr, raw) := parse_pci_value v in (pci ++ [mkPciAssignment vmid k addr raw], usb)
      else acc
  | None =>
      match strip_prefix "usb" k with
      | Some rest => if all_digits rest then (pci, usb ++ [mkUsbAssignment vmid k v]) else acc
      | None => acc
      end
  end.
Definition cmp_pci (a b : PciAssignment) : comparison :=
  then_cmp (String.compare (pa_address a) (pa_address b)) (N.compare (pa_vmid a) (pa_vmid b)).
Definition cmp_usb (a b : UsbAssignment) : comparison :=
  then_cmp (String.compare (ua_spec a) (ua_spec b)) (N.compare (ua_vmid a) (ua_vmid b)).
Definition scan_assignments (configs : list (N * list (string * string)))
    : list PciAssignment * list UsbAssignment :=
  let '(pci, usb) :=
    foldl (fun acc c => foldl (fun acc kv => scan_entry c.1 kv acc) acc c.2) ([], []) configs in
  (sort_by cmp_pci pci, sort_by cmp_usb usb).

(** ** Conflicts *)
Inductive PciConflict :=
  | DirectShared (address : string) (vmids : list N)
  | IommuGroupSplit (group : Z) (members : list (string * N)).

(** [entry(k).or_default().push(v)], and the walk of a [BTreeMap]. *)
Definition entry_push {K V} `{Countable K} (m : gmap K (list V)) (kv : K * V) : gmap K (list V) :=
  <[kv.1 := default [] (m !! kv.1) ++ [kv.2]]> m.
Definition group_by {K V} `{Countable K} (l : list (K * V)) : gmap K (list V) := foldl entry_push ∅ l.
Definition btree {K V} `{Countable K} (cmp : K -> K -> comparison) (m : gmap K V) : list (K * V) :=
  sort_by (cmp_on fst cmp) (map_to_list m).

Definition cmp_member (a b : string * N) : comparison :=
  then_cmp (String.compare a.1 b.1) (N.compare a.2 b.2).
Definition distinct {A} `{Countable A} (l : list A) : nat := size (list_to_set l : gset A).

Definition direct_conflicts (assignments : list PciAssignment) : list PciConflict :=
  omap (fun av =>
    let vmids := dedup (sort_by N.compare av.2) in
    if bool_decide (1 < length vmids) then Some (DirectShared av.1 vmids) else None)
    (btree String.compare (group_by ((fun a => (pa_address a, pa_vmid a)) <$> assignments))).

(** [iter().filter(..).map(..).collect::<HashMap>()]: a later device of the
    same id wins. *)
Definition dev_group (devices : list PciDevice) : gmap string Z :=
  foldl (fun m d => if (0 <=? pci_iommugroup d)%Z then <[pci_id d := pci_iommugroup d]> m else m) ∅ devices.
Definition group_conflicts (assignments : list PciAssignment) (devices : list PciDevice) : list PciConflict :=
  let groups := dev_group devices in
  let group_members :=
    group_by (omap (fun a => (fun g => (g, (pa_address a, pa_vmid a))) <$> groups !! pa_address a) assignments) in
  omap (fun gm =>
    let members := dedup (sort_by cmp_member gm.2) in
    if bool_decide (1 < distinct (snd <$> members)) && bool_decide (1 < distinct (fst <$> members))
    then Some (IommuGroupSplit gm.1 members) else None)
    (btree Z.compare group_members).
Definition detect_pci_conflicts (assignments : list PciAssignment) (devices : list PciDevice) : list PciConflict :=
  direct_conflicts assignments ++ group_conflicts assignments devices.

(** ** Inventory *)
Record PciInventoryRow := mkPciInventoryRow {
  pr_device : PciDevice;
  pr_assigned_to : list N;
  pr_iommu_siblings : list string;
}.
Definition pci_inventory (devices : list PciDevice) (assignments : list PciAssignment) : list PciInventoryRow :=
  let by_addr := group_by ((fun a => (pa_address a, pa_vmid a)) <$> assignments) in
  let by_group := group_by (omap (fun d => if (0 <=? pci_iommugroup d)%Z then Some (pci_iommugroup d, pci_id d)
                                           else None) devices) in
  (fun d =>
     mkPciInventoryRow d
       (dedup (sort_by N.compare (default [] (by_addr !! pci_id d))))
       (match by_group !! pci_iommugroup d with
        | Some all => sort_by String.compare (List.filter (fun a => negb (bool_decide (a = pci_id d))) all)
        | None => []
        end)) <$> devices.

Definition label_for (guests : list Guest) (vmid : N) : string :=
  match List.find (fun g => (g_vmid g =? vmid)%N) guests with
  | Some g => if is_empty (g_name g) then pretty vmid else pretty vmid +:+ " (" +:+ g_name g +:+ ")"
  | None => pretty vmid
  end.

(** ** Lemmas *)
Section grouping.
Context {K V : Type} `{Countable K}.

Definition values_of (k : K) (l : list (K * V)) : list V :=
  omap (fun kv => if bool_decide (kv.1 = k) then Some kv.2 else None) l.

Lemma group_by_lookup (l : list (K * V)) k :
  group_by l !! k = match values_of k l with [] => None | vs => Some vs end.
Proof.
  unfold group_by. induction l as [|[k' v] l IH] using rev_ind; [done|].
  rewrite foldl_app. simpl. unfold entry_push at 1. simpl. unfold values_of in *. rewrite omap_app. simpl.
  destruct (decide (k' = k)) as [->|Hne].
  - rewrite lookup_insert_eq, IH, bool_decide_true by done.
    by destruct (omap _ l).
  - rewrite lookup_insert_ne, IH, bool_decide_false, app_nil_r by done. done.
Qed.

Lemma elem_of_values_of k v l : v ∈ values_of k l <-> (k, v) ∈ l.
Proof.
  unfold values_of. rewrite list_elem_of_omap. split.
  - intros ([k' v'] & Hin & E). simpl in E. case_bool_decide; simplify_eq/=. done.
  - intros Hin. exists (k, v). split; [done|]. simpl. by rewrite bool_decide_true.
Qed.

Lemma group_by_Some (l : list (K * V)) k vs :
  group_by l !! k = Some vs -> (forall v, v ∈ vs <-> (k, v) ∈ l) /\ vs <> [].
Proof.
  rewrite group_by_lookup. intros E. destruct (values_of k l) as [|v vs'] eqn:Ev; [done|]. injection E as <-.
  split; [|done]. intros x. by rewrite <- Ev, elem_of_values_of.
Qed.
Lemma group_by_is_Some (l : list (K * V)) k v : (k, v) ∈ l -> exists vs, group_by l !! k = Some vs.
Proof.
  intros Hin%elem_of_values_of. rewrite group_by_lookup. destruct (values_of k l); [by apply elem_of_nil in Hin|eauto].
Qed.

Lemma elem_of_btree cmp (m : gmap K V) `{!Cmp cmp} k v : (k, v) ∈ btree cmp m <-> m !! k = Some v.
Proof. unfold btree. by rewrite elem_of_sort_by, elem_of_map_to_list. Qed.
End grouping.

Lemma elem_of_dedup {A} `{EqDecision A} (l : list A) x : x ∈ dedup l <-> x ∈ l.
Proof.
  induction l as [|y l IH]; [done|]. simpl. rewrite elem_of_cons, <- IH. destruct (dedup l) as [|z r].
  - rewrite list_elem_of_singleton, elem_of_nil. tauto.
  - case_bool_decide as E; [subst y|by rewrite elem_of_cons]. rewrite elem_of_cons. tauto.
Qed.
Lemma dedup_head {A} `{EqDecision A} (l : list A) : head (dedup l) = head l.
Proof. induction l as [|y l IH]; [done|]. simpl. destruct (dedup l); [done|]. case_bool_decide; by subst. Qed.

(** What is left of a sorted list is strictly sorted. *)
Lemma dedup_sorted {A} `{EqDecision A} (cmp : A -> A -> comparison) `{!Cmp cmp} (l : list A) :
  (forall x y, cmp x y = Eq -> x = y) ->
  StronglySorted (cmp_le cmp) l -> StronglySorted (fun x y => cmp x y = Lt) (dedup l).
Proof.
  intros Heq. induction l as [|x l IH]; intros Hs; [constructor|]. apply StronglySorted_cons in Hs as [Hx Hl].
  specialize (IH Hl). simpl. destruct (dedup l) as [|y r] eqn:E; [repeat constructor|].
  case_bool_decide as Hxy; [done|]. constructor; [done|].
  assert (y ∈ l) as Hy by (apply elem_of_dedup; rewrite E; by left).
  assert (cmp x y = Lt) as Hlt.
  { rewrite Forall_forall in Hx. specialize (Hx y Hy). unfold cmp_le in Hx.
    destruct (cmp x y) eqn:Ec; [by apply Heq in Ec|done|done]. }
  constructor; [done|]. apply StronglySorted_cons in IH as [Hr _].
  eapply Forall_impl; [exact Hr|]. intros z Hz. by apply (cmp_lt_trans x y z).
Qed.

Lemma two_elements {A} `{EqDecision A} (cmp : A -> A -> comparison) `{!Cmp cmp} (l : list A) :
  (forall x y, cmp x y = Eq -> x = y) ->
  1 < length (dedup (sort_by cmp l)) <-> exists x y, x <> y /\ x ∈ l /\ y ∈ l.
Proof.
  intros Heq. pose proof (dedup_sorted cmp _ Heq (sort_by_sorted cmp l)) as Hs.
  assert (forall x, x ∈ dedup (sort_by cmp l) <-> x ∈ l) as Hin.
  { intros x. by rewrite elem_of_dedup, elem_of_sort_by. }
  destruct (dedup (sort_by cmp l)) as [|x [|y r]]; simpl.
  - split; [lia|]. intros (x & y & _ & Hx & _). by apply Hin, elem_of_nil in Hx.
  - split; [lia|]. intros (a & b & Hne & Ha%Hin%list_elem_of_singleton & Hb%Hin%list_elem_of_singleton). congruence.
  - split; [intros _|lia]. exists x, y. apply StronglySorted_cons in Hs as [Hx _]. apply Forall_cons in Hx as [Hxy _].
    split; [intros ->; by rewrite (cmp_refl cmp) in Hxy|]. rewrite <- !Hin. by split; [left|right; left].
Qed.

Lemma distinct_two {A} `{Countable A} (l : list A) : 1 < distinct l <-> exists x y, x <> y /\ x ∈ l /\ y ∈ l.
Proof.
  unfold distinct. split.
  - intros Hs. destruct (decide (list_to_set l = (∅ : gset A))) as [E|Hne]; [rewrite E, size_empty in Hs; lia|].
    apply set_choose_L in Hne as [x Hx]. 
    destruct (decide (list_to_set l ∖ {[x]} = (∅ : gset A))) as [E|Hne].
    + assert ((list_to_set l : gset A) ⊆ {[x]}) as Hsub.
      { intros z Hz. destruct (decide (z = x)) as [->|Hne]; [by apply elem_of_singleton|]. exfalso.
        apply (not_elem_of_empty (C := gset A) z). rewrite <- E. apply elem_of_difference. by rewrite elem_of_singleton. }
      apply subseteq_size in Hsub. rewrite size_singleton in Hsub. lia.
    + apply set_choose_L in Hne as [y Hy]. apply elem_of_difference in Hy as [Hy Hn].
      rewrite elem_of_singleton in Hn. exists x, y. rewrite elem_of_list_to_set in Hx, Hy. auto.
  - intros (x & y & Hne & Hx & Hy). assert ({[x; y]} ⊆ (list_to_set l : gset A)) as Hsub by set_solver.
    apply subseteq_size in Hsub. rewrite size_union, !size_singleton in Hsub by set_solver. lia.
Qed.

(** ** Theorems *)

(** Guest [v] has the device at [a] in its configuration. *)
Definition claims (assignments : list PciAssignment) (v : N) (a : string) : Prop :=
  exists x, x ∈ assignments /\ pa_vmid x = v /\ pa_address x = a.
Lemma claims_pair assignments v a :
  (a, v) ∈ (fun x => (pa_address x, pa_vmid x)) <$> assignments <-> claims assignments v a.
Proof.
  rewrite list_elem_of_fmap. split.
  - intros (x & [= -> ->] & Hin). by exists x.
  - intros (x & Hin & <- & <-). by exists x.
Qed.
Lemma string_compare_eq a b : String.compare a b = Eq -> a = b.
Proof. apply String.compare_eq_iff. Qed.
Lemma cmp_member_eq x y : cmp_member x y = Eq -> x = y.
Proof.
  destruct x, y. unfold cmp_member. simpl. intros [E1%string_compare_eq E2%N.compare_eq]%then_cmp_eq. congruence.
Qed.
#[export] Instance cmp_member_Cmp : Cmp cmp_member.
Proof. apply (then_cmp_Cmp (cmp_on fst String.compare) (cmp_on snd N.compare)); apply _. Qed.

Lemma direct_conflicts_spec assignments c :
  c ∈ direct_conflicts assignments <->
  exists a vmids, c = DirectShared a vmids /\ (exists v v', v <> v' /\ claims assignments v a /\ claims assignments v' a)
    /\ vmids = dedup (sort_by N.compare (values_of a ((fun x => (pa_address x, pa_vmid x)) <$> assignments))).
Proof.
  unfold direct_conflicts. rewrite list_elem_of_omap. split.
  - intros ([a vs] & Hb%elem_of_btree & E); [|apply _]. simpl in E. case_bool_decide as Hl; simplify_eq.
    apply (two_elements N.compare) in Hl; [|apply N.compare_eq].
    destruct (group_by_Some _ _ _ Hb) as [Hin _]. exists a. eexists. split; [done|]. split.
    + destruct Hl as (v & v' & Hne & H1%Hin%claims_pair & H2%Hin%claims_pair). by exists v, v'.
    + rewrite group_by_lookup in Hb. by destruct (values_of a _); simplify_eq.
  - intros (a & vmids & -> & (v & v' & Hne & H1%claims_pair & H2%claims_pair) & ->).
    destruct (group_by_is_Some _ _ _ H1) as [vs Hvs]. exists (a, vs). split; [by apply elem_of_btree; [apply _|]|].
    pose proof Hvs as Hvs'. rewrite group_by_lookup in Hvs'.
    assert (vs = values_of a ((fun x => (pa_address x, pa_vmid x)) <$> assignments)) as -> by
      (by destruct (values_of a _); simplify_eq).
    simpl. rewrite bool_decide_true; [done|]. apply two_elements; [apply _|apply N.compare_eq|].
    exists v, v'. by rewrite !elem_of_values_of.
Qed.

(** Guest [v] claims the device at [a], which is in IOMMU group [g]. *)
Definition claims_in (assignments : list PciAssignment) (devices : list PciDevice) (g : Z) (m : string * N) : Prop :=
  claims assignments m.2 m.1 /\ dev_group devices !! m.1 = Some g.

Lemma group_conflicts_spec assignments devices g :
  (exists ms, IommuGroupSplit g ms ∈ group_conflicts assignments devices) <->
  (exists m m', m.2 <> m'.2 /\ claims_in assignments devices g m /\ claims_in assignments devices g m') /\
  (exists m m', m.1 <> m'.1 /\ claims_in assignments devices g m /\ claims_in assignments devices g m').
Proof.
  unfold group_conflicts. cbv zeta. set (pairs := omap _ assignments).
  assert (forall h m, (h, m) ∈ pairs <-> claims_in assignments devices h m) as Hp.
  { intros h [a v]. unfold pairs, claims_in, claims. rewrite list_elem_of_omap. simpl. split.
    - intros (x & Hin & E). destruct (dev_group devices !! pa_address x) eqn:Eg; simplify_eq/=. eauto.
    - intros [(x & Hin & <- & <-) Eg]. exists x. by rewrite Eg. }
  assert (forall ms m, group_by pairs !! g = Some ms ->
    m ∈ dedup (sort_by cmp_member ms) <-> claims_in assignments devices g m) as Hm.
  { intros ms m Hms. destruct (group_by_Some _ _ _ Hms) as [Hin _]. by rewrite elem_of_dedup, elem_of_sort_by, Hin, Hp. }
  assert (forall ms (B : Type) (eqB : EqDecision B) (cB : Countable B) (f : string * N -> B),
    group_by pairs !! g = Some ms ->
    1 < distinct (f <$> dedup (sort_by cmp_member ms)) <->
    exists m m', f m <> f m' /\ claims_in assignments devices g m /\ claims_in assignments devices g m') as Hd.
  { intros ms B eqB cB f Hms. rewrite distinct_two. split.
    - intros (x & y & Hne & (m & -> & Hm1)%list_elem_of_fmap & (m' & -> & Hm2)%list_elem_of_fmap).
      exists m, m'. by rewrite <- !(Hm ms).
    - intros (m & m' & Hne & H1 & H2). rewrite <- (Hm ms) in H1, H2 by done.
      exists (f m), (f m'). split; [done|]. split; by apply list_elem_of_fmap_2. }
  split.
  - intros (ms & Hms). apply list_elem_of_omap in Hms as ([h ms'] & Hb & E). apply elem_of_btree in Hb; [|apply _]. simpl in E.
    destruct (bool_decide _ && bool_decide _) eqn:Eb; simplify_eq.
    apply andb_true_iff in Eb as [E1%bool_decide_eq_true E2%bool_decide_eq_true].
    split; [by apply (Hd _ _ _ _ snd Hb)|by apply (Hd _ _ _ _ fst Hb)].
  - intros [H1 H2]. destruct H1 as (m & m' & Hne & Hc1 & Hc2).
    destruct (group_by_is_Some pairs g m) as [ms Hms]; [by apply Hp|].
    exists (dedup (sort_by cmp_member ms)). apply list_elem_of_omap. exists (g, ms).
    split; [by apply elem_of_btree; [apply _|]|]. simpl. rewrite !bool_decide_true; [done|by apply (Hd _ _ _ _ fst Hms)|].
    apply (Hd _ _ _ _ snd Hms). by exists m, m'.
Qed.

(** The conflict report is exact: an address is reported as shared exactly
    when two different guests claim it, with all its claimants in increasing order, and an IOMMU
    group is reported as split exactly when guests that differ claim devices of it that differ. *)
Lemma conflicts_reported_iff assignments devices :
  (forall a, (exists vmids, DirectShared a vmids ∈ detect_pci_conflicts assignments devices) <->
     exists v v', v <> v' /\ claims assignments v a /\ claims assignments v' a) /\
  (forall a vmids, DirectShared a vmids ∈ detect_pci_conflicts assignments devices ->
     StronglySorted N.lt vmids /\ forall v, v ∈ vmids <-> claims assignments v a) /\
  (forall g, (exists ms, IommuGroupSplit g ms ∈ detect_pci_conflicts assignments devices) <->
     (exists m m', m.2 <> m'.2 /\ claims_in assignments devices g m /\ claims_in assignments devices g m') /\
     (exists m m', m.1 <> m'.1 /\ claims_in assignments devices g m /\ claims_in assignments devices g m')).
Proof.
  unfold detect_pci_conflicts.
  assert (forall a vs, DirectShared a vs ∉ group_conflicts assignments devices) as Hno1.
  { intros a vs Hin. unfold group_conflicts in Hin. apply list_elem_of_omap in Hin as (x & _ & E). cbv zeta in E. by destruct (_ && _). }
  assert (forall a vs, DirectShared a vs ∈ direct_conflicts assignments ++ group_conflicts assignments devices <->
                       DirectShared a vs ∈ direct_conflicts assignments) as Hdir.
  { intros a vs. rewrite elem_of_app. naive_solver. }
  split; [|split].
  - intros a. setoid_rewrite Hdir. split.
    + intros (vs & (a' & vs' & [= <- <-] & H & _)%direct_conflicts_spec). done.
    + intros H. eexists. apply direct_conflicts_spec. exists a. eexists. done.
  - intros a vs (a' & vs' & [= <- <-] & _ & ->)%Hdir%direct_conflicts_spec. split.
    + pose proof (dedup_sorted N.compare _ N.compare_eq (sort_by_sorted N.compare
        (values_of a ((fun x => (pa_address x, pa_vmid x)) <$> assignments)))) as Hs.
      induction Hs as [|x l _ IH Hx]; constructor; [done|]. eapply Forall_impl; [exact Hx|]. intros y. apply N.compare_lt_iff.
    + intros v. by rewrite elem_of_dedup, elem_of_sort_by, elem_of_values_of, claims_pair.
  - intros g. rewrite <- group_conflicts_spec. split; intros (ms & Hms); exists ms; [|apply elem_of_app; by right].
    apply elem_of_app in Hms as [(a & vs & E & _)%direct_conflicts_spec|]; done.
Qed.

Example short_addresses_collide :
  detect_pci_conflicts (scan_assignments [(100%N, [("hostpci0", "01:00.0,pcie=1")]); (101%N, [("hostpci0", "0000:01:00.0")])]).1 []
  = [DirectShared "0000:01:00.0" [100%N; 101%N]].
Proof. vm_compute. reflexivity. Qed.
