(* ===== verification/IsoLibrary.v ===== *)
(** * The curated image library: app/iso_library.rs *)

From S2P Require Import Prelude.
From S2P Require Import SortBy.
From S2P Require Import Ha.

Inductive Checksum := Sha256 (hex : string) | Sha512 (hex : string).
Definition proxmox_pair (c : Checksum) : string * string :=
  match c with Sha256 h => ("sha256", h) | Sha512 h => ("sha512", h) end.
Definition expected_len (c : Checksum) : nat := match c with Sha256 _ => 64 | Sha512 _ => 128 end.

Record IsoEntry := mkIsoEntry {
  iso_id : string;
  distro : string;
  version : string;
  arch : string;
  url : string;
  checksum : option Checksum;
  content : string;
  size_mib : N;
  notes : string;
}.
Definition is_pinned (e : IsoEntry) : bool := bool_decide (is_Some (checksum e)).

Definition iso_ubuntu_22_04_cloud : IsoEntry := {|
  iso_id := "ubuntu-22.04-cloud"; distro := "Ubuntu";
  version := "22.04 LTS (Jammy) build 20261020"; arch := "amd64";
  url := "https://cloud-images.ubuntu.com/releases/jammy/release-20261020/ubuntu-22.04-server-cloudimg-amd64.img";
  checksum := Some (Sha256 "2099e63da0b822ef8e05e3d596c1b402eaaae658fc08ab919cb8495bfcdc488b");
  content := "import"; size_mib := 700;
  notes := "Cloud-init enabled. Use with cloudinit drive for SSH keys + network."
|}.

Definition iso_ubuntu_24_04_cloud : IsoEntry := {|
  iso_id := "ubuntu-24.04-cloud"; distro := "Ubuntu";
  version := "24.04 LTS (Noble) build 20261017"; arch := "amd64";
  url := "https://cloud-images.ubuntu.com/releases/noble/release-20261017/ubuntu-24.04-server-cloudimg-amd64.img";
  checksum := Some (Sha256 "04e8f2461a16a44e78a370284471f29616cdd9baf1893df25807b71f985b6c94");
  content := "import"; size_mib := 750;
  notes := "Cloud-init enabled. Recommended default for new VMs."
|}.

Definition iso_debian_12_cloud : IsoEntry := {|
  iso_id := "debian-12-cloud"; distro := "Debian";
  version := "12 (Bookworm) build 20261021-2638"; arch := "amd64";
  url := "https://cloud.debian.org/images/cloud/bookworm/20261021-2638/debian-12-genericcloud-amd64-20261021-2638.qcow2";
  checksum := Some (Sha512 "9f181877006e8d9ca4f4554eba8729a829936f0f7d1db5e77f69b1ef0f6bc372b4d46f3dae39b10d84f9131496c2cc1d449264f26577fe934a79de5a5512a3dd");
  content := "import"; size_mib := 350;
  notes := "Generic cloud variant. Smallest of the cloud images here. Pinned via SHA-512."
|}.

Definition iso_fedora_41_cloud : IsoEntry := {|
  iso_id := "fedora-41-cloud"; distro := "Fedora";
  version := "41 (Generic Base 1.4)"; arch := "amd64";
  url := "https://archives.fedoraproject.org/pub/archive/fedora/linux/releases/41/Cloud/x86_64/images/Fedora-Cloud-Base-Generic-41-1.4.x86_64.qcow2";
  checksum := Some (Sha256 "6205ae0c524b4d1816dbd3573ce29b5c44ed26c9fbc874fbe48c41c89dd0bac2");
  content := "import"; size_mib := 470;
  notes := "Fedora Cloud Base 41 (end of life), from the permanent Fedora archive."
|}.

Definition iso_alpine_3_21_iso : IsoEntry := {|
  iso_id := "alpine-3.21-iso"; distro := "Alpine";
  version := "3.21.9"; arch := "amd64";
  url := "https://dl-cdn.alpinelinux.org/alpine/v3.21/releases/x86_64/alpine-virt-3.21.9-x86_64.iso";
  checksum := Some (Sha256 "1ceafa2ca068faf2925de977815681c182708f3c6cbfbad137f3ffc9324a03b4");
  content := "iso"; size_mib := 60;
  notes := "Minimal virt-optimised Alpine ISO. No cloud-init — manual setup."
|}.

Definition iso_rocky_9_cloud : IsoEntry := {|
  iso_id := "rocky-9-cloud"; distro := "Rocky Linux";
  version := "9.8 build 20260525.0"; arch := "amd64";
  url := "https://dl.rockylinux.org/pub/rocky/9/images/x86_64/Rocky-9-GenericCloud-Base-9.8-20260525.0.x86_64.qcow2";
  checksum := Some (Sha256 "92c206cc6f790c61583247eefe87890f8828420662c17cacf247cec78ab4eec8");
  content := "import"; size_mib := 900;
  notes := "Generic cloud-init enabled. RHEL-compatible."
|}.

Definition LIBRARY : list IsoEntry :=
  [iso_ubuntu_22_04_cloud; iso_ubuntu_24_04_cloud; iso_debian_12_cloud; iso_fedora_41_cloud; iso_alpine_3_21_iso; iso_rocky_9_cloud].

Definition by_id (id : string) : option IsoEntry := List.find (fun e => bool_decide (iso_id e = id)) LIBRARY.
Definition distros : list string := dedup (sort_by String.compare (distro <$> LIBRARY)).

(** Every entry is pinned to a digest of its algorithm's length, in lower-case
    hex, is fetched over TLS, and has an id of its own. *)
Fixpoint lower_hex (s : string) : bool :=
  match s with
  | "" => true
  | String a s' =>
      let n := N_of_ascii a in ((48 <=? n) && (n <=? 57) || (97 <=? n) && (n <=? 102))%N && lower_hex s'
  end.
Definition well_pinned (e : IsoEntry) : bool :=
  match checksum e with
  | Some c => bool_decide (String.length (proxmox_pair c).2 = expected_len c) && lower_hex (proxmox_pair c).2
  | None => false
  end && starts_with "https://" (url e).
Lemma library_well_pinned : Forall (fun e => well_pinned e = true) LIBRARY /\ NoDup (iso_id <$> LIBRARY).
Proof. split; [repeat constructor|]. apply (bool_decide_unpack _). vm_compute. exact I. Qed.
Lemma by_id_pinned id e : by_id id = Some e -> iso_id e = id /\ well_pinned e = true.
Proof.
  intros [Hin He]%List.find_some. apply bool_decide_eq_true in He. split; [done|].
  apply list_elem_of_In in Hin. destruct library_well_pinned as [H _]. by eapply Forall_forall in H.
Qed.
