(* ===== verification/AppModel.v ===== *)
(** * The application model: data of app.rs and app/queue.rs

    [AppState] is the single source of truth of the terminal interface,
    [Action] every event that can reach the reducer, [SideEffect] what the
    reducer asks of the controller.  The operation queue (app/queue.rs) with its
    garbage collector is here too.  [Env] is what one call of the reducer reads
    from outside: the clocks, the snapshot cache, Unicode lower-casing, the
    fuzzy matcher and the order of a [HashSet].

    The process-wide counter [SEQ] of [QueuedOp::new] is the field [op_seq]. *)

From S2P Require Import Prelude.
From S2P Require Import ApiError.
From S2P Require Import Guest.
From S2P Require Import UrlPath.
From S2P Require Import SortBy.
From S2P Require Import SnapTree.
From S2P Require Import Alerts.
From S2P Require Import Ha.
From S2P Require Import Hw.
From S2P Require Import IsoLibrary.
From S2P Require Import McpDispatch.

(** ** Types *)
Record TaskLogLine := mkTaskLogLine { tl_n : N; tl_t : string }.
Record GrepMatch := mkGrepMatch { gm_vmid : N; gm_name : string; gm_key : string; gm_value : string }.

Inductive View :=
  | VwDashboard
  | VwNodeList
  | VwGuestList
  | VwGuestDetail (vmid : N)
  | VwTaskLog (upid : string)
  | VwStorageList
  | VwApprovalQueue
  | VwOperationQueue
  | VwGuestCompare (guests : list N)
  | VwHeatmap
  | VwBackupBoard
  | VwAuditTimeline
  | VwConfigGrep
  | VwGuestSshSession (vmid : N)
  | VwSnapshotTree (vmid : N)
  | VwIsoLibrary
  | VwHaConsole
  | VwHardware (node : string).

Inductive OpStatus := Pending | OpRunning | Success | Error (e : string).
#[export] Instance OpStatus_eq_dec : EqDecision OpStatus.
Proof. solve_decision. Defined.

Inductive ApprovalStatus := ApPending | ApApproved | ApDenied | ApTimeout.
Record PendingApproval := mkPendingApproval { pa_txn_id : string; pa_description : string; pa_status : ApprovalStatus }.

Inductive Action :=
  | AcQuit
  | AcBack
  | AcNavigateDown
  | AcOpenProfilePicker (profiles : list string)
  | AcConfirmProfileSwitch
  | AcNavigateUp
  | AcSelect
  | AcSwitchView (v : View)
  | AcToggleSelection (vmid : N)
  | AcClearSelection
  | AcSelectAll
  | AcSelectByTag (tag : string)
  | AcStartTagSelection
  | AcToggleHelp
  | AcTick
  | AcNodesLoaded (nodes : list Alerts.Node)
  | AcGuestsLoaded (guests : list Guest) (failed_nodes : list string)
  | AcStorageLoaded (storage : list StoragePool)
  | AcClusterTasksLoaded (tasks : list TaskInfo)
  | AcClusterQuorateLoaded (quorate : bool)
  | AcErrorOccurred (err : string)
  | AcGuestsFetchErrorsLoaded (errs : list string)
  | AcStartGuest (vmid : N)
  | AcStopGuest (vmid : N) (force : bool)
  | AcRestartGuest (vmid : N)
  | AcDeleteGuest (vmid : N)
  | AcMigrateGuest (vmid : N) (target_node : string)
  | AcCreateSnapshot (vmid : N) (name : string)
  | AcOpenHardware (node : string)
  | AcHwDataLoaded (node : string) (pci : list PciDevice) (usb : list UsbDevice)
      (configs : gmap N (gmap string string))
  | AcOpenHaConsole
  | AcHaDataLoaded (groups : list HaGroup) (resources : list HaResource) (manager : HaManagerStatus)
      (cluster : list ClusterStatusEntry) (repl_status : list ReplicationStatus)
  | AcOpenSnapshotTree (vmid : N)
  | AcSnapshotsLoaded (vmid : N) (snaps : list Snapshot)
  | AcOpenIsoLibrary
  | AcDownloadIso (entry_id node storage : string)
  | AcDownloadIsoCustom (url filename node storage : string) (checksum : option (string * string)) (content : string)
  | AcMoveDisk (vmid : N) (disk target_storage : string) (delete_source : bool)
  | AcResizeDisk (vmid : N) (disk size : string)
  | AcOpenGuestSsh (vmid : N)
  | AcCloseSshSession
  | AcSshSessionFailed (vmid : N) (error : string)
  | AcSshPassphrasePrompt (vmid : N)
  | AcSshPassphraseInput (input : string)
  | AcSshPassphraseSubmit
  | AcSshPassphraseCancel
  | AcPromptBroadcastCommand
  | AcExecuteBroadcast (cmd : string)
  | AcExecuteGuestCommand (vmid : N) (command : string)
  | AcEnterTimeline
  | AcTimelineNext
  | AcTimelinePrev
  | AcEvacuateNode (node : string)
  | AcCompareGuests
  | AcSearchInput (query : string)
  | AcCommandInput (input : string)
  | AcCommandSubmit
  | AcConfirmRequest (desc : string) (action : Action)
  | AcConfirmAccept
  | AcConfirmForce
  | AcApprovalRequested (txn_id description : string)
  | AcApprovalReceived (txn_id : string) (approved : bool)
  | AcTaskStarted (upid : string)
  | AcTaskLogUpdated (upid : string) (lines : list TaskLogLine)
  | AcGuestTaskFinished (vmid : N)
  | AcShutdownTimedOut (vmid elapsed_secs : N)
  | AcGuestStatusPolled (vmid : N) (status : string) (elapsed_secs : N)
  | AcStartConfigGrep
  | AcConfigGrepInput (q : string)
  | AcConfigGrepSubmit
  | AcConfigGrepResults (query : string) (matches : list GrepMatch)
  | AcEnqueueOperation (action : Action)
  | AcEnqueueBatchOperation (actions : list Action)
  | AcDequeueOperation (index : nat)
  | AcExecuteQueue
  | AcQueueOpStatusChanged (id : string) (status : OpStatus).

Inductive AppMode :=
  | MoNormal
  | MoSearch
  | MoCommand
  | MoInputTag
  | MoInputBroadcast
  | MoConfigGrep
  | MoConfirm (description : string) (action : Action)
  | MoHelp
  | MoSshSession (vmid : N)
  | MoSshPassphrase (vmid : N)
  | MoProfilePicker (profiles : list string) (selected : nat).

Record QueuedOp := mkQueuedOp {
  op_id : string;
  op_action : Action;
  op_description : string;
  op_diff : string;
  op_status : OpStatus;
  op_created_at_secs : N;
  op_bypass_preflight : bool;
}.
#[export] Instance QueuedOp_fields : Fields QueuedOp := fun r =>
  mkQueuedOp (op_id r) (op_action r) (op_description r) (op_diff r) (op_status r) (op_created_at_secs r)
    (op_bypass_preflight r).

Inductive SideEffect :=
  | SeQuit
  | SeStartGuest (vmid : N)
  | SeStopGuest (vmid : N) (force : bool)
  | SeRestartGuest (vmid : N)
  | SeDeleteGuest (vmid : N)
  | SeCreateSnapshot (vmid : N) (name : string)
  | SeMigrateGuest (node : string) (vmid : N) (target_node : string)
  | SeExecuteGuestCommand (node : string) (vmid : N) (guest_type : GuestType) (command : string)
  | SeFetchTaskLog (upid node : string)
  | SeExecuteQueue (ops : list QueuedOp)
  | SeConfigGrep (query : string)
  | SeOpenSshSession (vmid : N)
  | SeSetSshPassphraseAndOpen (vmid : N) (passphrase : string)
  | SeCloseSshSession
  | SeFetchSnapshotTree (vmid : N)
  | SeFetchHaConsoleData
  | SeFetchHardwareData (node : string)
  | SeDownloadIso (node storage url filename : string) (checksum : option (string * string)) (content : string)
  | SeMoveDisk (node : string) (vmid : N) (guest_type : GuestType) (disk target_storage : string)
      (delete_source : bool)
  | SeResizeDisk (node : string) (vmid : N) (guest_type : GuestType) (disk size : string)
  | SeSwitchProfile (profile : string).

(** [ClusterStateCache] of app/cache.rs. *)
Record ClusterStateCache := mkClusterStateCache {
  cc_nodes : list Alerts.Node;
  cc_guests : list Guest;
  cc_storage : list StoragePool;
  cc_timestamp : N;
}.

(** ** The state *)
Record AppState := mkAppState {
  mode : AppMode;
  nav_stack : list View;
  nodes : list Alerts.Node;
  guests : list Guest;
  storage : list StoragePool;
  selected_index : nat;
  is_loading : bool;
  error : option string;
  search_query : string;
  command_input : string;
  pending_approvals : list PendingApproval;
  current_task_log : list TaskLogLine;
  last_task_poll : option N;
  error_time : option N;
  last_sync : option N;
  cluster_quorate : option bool;
  nodes_with_stale_stats : gset string;
  active_tasks : gmap N string;
  op_queue : list QueuedOp;
  selected_guests : gset N;
  storage_trend : gmap string (N * N);
  st_cluster_tasks : list TaskInfo;
  profile_label : string;
  timeline_timestamps : list N;
  timeline_index : nat;
  timeline_snapshot : option ClusterStateCache;
  timeline_prev_snapshot : option ClusterStateCache;
  secure_mode : bool;
  force_next_destructive : bool;
  grep_query : string;
  grep_results : list GrepMatch;
  grep_searching : bool;
  snap_tree : option Tree;
  snap_tree_selected : option string;
  snap_tree_loading : bool;
  queue_dirty : bool;
  ha_groups : list HaGroup;
  ha_resources : list HaResource;
  ha_manager : option HaManagerStatus;
  cluster_entries : list ClusterStatusEntry;
  repl_status : list ReplicationStatus;
  ha_loading : bool;
  hw_node : string;
  hw_pci : list PciDevice;
  hw_usb : list UsbDevice;
  hw_guest_configs : gmap N (gmap string string);
  hw_loading : bool;
  guests_fetch_errors : list string;
  guests_stale_nodes : gset string;
  available_profiles : list string;
  op_seq : N;
}.
#[export] Instance AppState_fields : Fields AppState := fun r =>
  mkAppState
    (mode r) (nav_stack r) (nodes r) (guests r) (storage r) (selected_index r) (is_loading r) (error r)
    (search_query r) (command_input r) (pending_approvals r) (current_task_log r) (last_task_poll r)
    (error_time r) (last_sync r) (cluster_quorate r) (nodes_with_stale_stats r) (active_tasks r) (op_queue r)
    (selected_guests r) (storage_trend r) (st_cluster_tasks r) (profile_label r) (timeline_timestamps r)
    (timeline_index r) (timeline_snapshot r) (timeline_prev_snapshot r) (secure_mode r)
    (force_next_destructive r) (grep_query r) (grep_results r) (grep_searching r) (snap_tree r)
    (snap_tree_selected r) (snap_tree_loading r) (queue_dirty r) (ha_groups r) (ha_resources r)
    (ha_manager r) (cluster_entries r) (repl_status r) (ha_loading r) (hw_node r) (hw_pci r) (hw_usb r)
    (hw_guest_configs r) (hw_loading r) (guests_fetch_errors r) (guests_stale_nodes r) (available_profiles r)
    (op_seq r).

Definition AppState_default : AppState := {|
  mode := MoNormal; nav_stack := [VwDashboard]; nodes := []; guests := []; storage := [];
  selected_index := 0; is_loading := true; error := None; search_query := ""; command_input := "";
  pending_approvals := []; current_task_log := []; last_task_poll := None; error_time := None;
  last_sync := None; cluster_quorate := None; nodes_with_stale_stats := ∅; active_tasks := ∅; op_queue := [];
  selected_guests := ∅; storage_trend := ∅; st_cluster_tasks := []; profile_label := "default";
  timeline_timestamps := []; timeline_index := 0; timeline_snapshot := None; timeline_prev_snapshot := None;
  secure_mode := false; force_next_destructive := false; grep_query := ""; grep_results := [];
  grep_searching := false; snap_tree := None; snap_tree_selected := None; snap_tree_loading := false;
  queue_dirty := false; ha_groups := []; ha_resources := []; ha_manager := None; cluster_entries := [];
  repl_status := []; ha_loading := false; hw_node := ""; hw_pci := []; hw_usb := [];
  hw_guest_configs := ∅; hw_loading := false; guests_fetch_errors := []; guests_stale_nodes := ∅;
  available_profiles := []; op_seq := 0
|}.

(** ** What a call of the reducer reads from outside *)
Record Env := mkEnv {
  (** [Instant::now] in nanoseconds, [SystemTime::now] in seconds, and the time
      in microseconds read by the creation of the operation of a number *)
  instant : N;
  unix_secs : N;
  op_micros : N -> N;
  (** app/cache.rs *)
  get_all_snapshots : string -> Result AnyErr (list N);
  load_state_at : string -> N -> Result AnyErr ClusterStateCache;
  (** [str::to_lowercase], [nucleo_matcher]'s score of a text for a query *)
  to_lowercase : string -> string;
  score : string -> string -> option N;
  (** the order of a [HashSet<u32>] and of the values of a [HashMap] *)
  iter_set : gset N -> list N;
  map_values : gmap string Snapshot -> list Snapshot;
}.

(** ** app/queue.rs *)
Definition find_guest_in (guests : list Guest) (vmid : N) : option Guest :=
  List.find (fun g => (g_vmid g =? vmid)%N) guests.
Definition guest_name_of (guests : list Guest) (vmid : N) : string :=
  match find_guest_in guests vmid with Some g => g_name g | None => "" end.
Definition guest_node_of (guests : list Guest) (vmid : N) : string :=
  match find_guest_in guests vmid with Some g => g_node g | None => "" end.

(** The description and the diff shown for an operation. *)
Definition describe_op (action : Action) (guests : list Guest) : string * string :=
  match action with
  | AcStartGuest vmid =>
      ("Start Guest " +:+ pretty vmid +:+ " (" +:+ guest_name_of guests vmid +:+ ")",
       pretty vmid +:+ " status: stopped -> running")
  | AcStopGuest vmid force =>
      ("Stop Guest " +:+ pretty vmid +:+ " (" +:+ guest_name_of guests vmid +:+ ")"
         +:+ (if force then " (Force)" else ""),
       pretty vmid +:+ " status: running -> stopped")
  | AcRestartGuest vmid =>
      ("Restart Guest " +:+ pretty vmid +:+ " (" +:+ guest_name_of guests vmid +:+ ")",
       pretty vmid +:+ " status: running -> running")
  | AcDeleteGuest vmid =>
      ("Delete Guest " +:+ pretty vmid +:+ " (" +:+ guest_name_of guests vmid +:+ ")",
       "- " +:+ pretty vmid +:+ " " +:+ guest_name_of guests vmid)
  | AcMigrateGuest vmid target_node =>
      ("Migrate Guest " +:+ pretty vmid +:+ " (" +:+ guest_name_of guests vmid +:+ ")",
       pretty vmid +:+ " node: " +:+ guest_node_of guests vmid +:+ " -> " +:+ target_node)
  | AcMoveDisk vmid disk target_storage delete_source =>
      ("Move Disk " +:+ disk +:+ " of guest " +:+ pretty vmid +:+ " (" +:+ guest_name_of guests vmid +:+ ") → "
         +:+ target_storage +:+ (if delete_source then " (delete source)" else " (keep source as unused)"),
       pretty vmid +:+ " disk " +:+ disk +:+ ": -> " +:+ target_storage
         +:+ (if delete_source then ", remove source" else ""))
  | AcResizeDisk vmid disk size =>
      ("Resize Disk " +:+ disk +:+ " of guest " +:+ pretty vmid +:+ " (" +:+ guest_name_of guests vmid +:+ ") by/to "
         +:+ size,
       pretty vmid +:+ " disk " +:+ disk +:+ ": size " +:+ size +:+ " (Proxmox grow-only)")
  | _ => ("Unknown Action", "No diff")
  end.

(** [QueuedOp::new] for the operation of number [seq]; [new_force] sets the
    override. *)
Definition QueuedOp_new (env : Env) (action : Action) (guests : list Guest) (seq : N) : QueuedOp :=
  let '(description, diff) := describe_op action guests in
  let micros := op_micros env seq in
  mkQueuedOp (pretty micros +:+ "-" +:+ pretty seq) action description diff Pending (micros / 1000000) false.
Definition QueuedOp_new_force (env : Env) (action : Action) (guests : list Guest) (seq : N) : QueuedOp :=
  QueuedOp_new env action guests seq <| op_bypass_preflight := true |>.

(** *** Scripts for an operation *)
Definition guest_node_or_pve (guests : list Guest) (vmid : N) : string :=
  match find_guest_in guests vmid with Some g => g_node g | None => "pve" end.
(** Guest, node, verb and the [pvesh] command with a place for the node. *)
Definition script_parts (action : Action) : option (N * string * string) :=
  let qemu vmid rest := "pvesh create /nodes/{node}/qemu/" +:+ pretty (vmid : N) +:+ rest in
  match action with
  | AcStartGuest vmid => Some (vmid, "start", qemu vmid "/status/start")
  | AcStopGuest vmid force =>
      let action := if force then "stop" else "shutdown" in
      Some (vmid, action, qemu vmid ("/status/" +:+ action))
  | AcRestartGuest vmid => Some (vmid, "restart", qemu vmid "/status/reboot")
  | AcDeleteGuest vmid => Some (vmid, "delete", "pvesh delete /nodes/{node}/qemu/" +:+ pretty vmid)
  | AcMigrateGuest vmid target_node => Some (vmid, "migrate", qemu vmid ("/migrate -target " +:+ target_node))
  | _ => None
  end.
Definition lines (l : list string) : string := join (String (ascii_of_N 10) "") l.
Definition quote : string := String (ascii_of_N 34) "".
Definition backslash : string := String (ascii_of_N 92) "".
Definition export_script (action : Action) (guests : list Guest) : string :=
  match script_parts action with
  | None => "N/A"
  | Some (vmid, action_str, pvesh) =>
      let node := guest_node_or_pve guests vmid in
      let vmid_str := pretty vmid in
      let pvesh_cmd := replace "{node}" node pvesh in
      let auth := "  -H " +:+ quote +:+ "Authorization: PVEAPIToken=USER@realm!tokenid=secret" +:+ quote in
      let api := "curl -k -X POST https://" +:+ node +:+ ":8006/api2/json/nodes/" +:+ node +:+ "/qemu/" +:+ vmid_str in
      match action with
      | AcMigrateGuest _ target =>
          lines ["▶ CLI"; "proxxx migrate " +:+ vmid_str +:+ " --target " +:+ target; ""; "▶ pvesh"; pvesh_cmd; "";
                 "▶ curl"; api +:+ "/migrate -d target=" +:+ target +:+ " " +:+ backslash; auth; "";
                 "▶ Ansible"; "- name: Migrate guest"; "  community.general.proxmox_kvm:";
                 "    api_host: " +:+ node; "    node: " +:+ node; "    vmid: " +:+ vmid_str;
                 "    target_node: " +:+ target]
      | _ =>
          lines ["▶ CLI"; "proxxx " +:+ action_str +:+ " " +:+ vmid_str; ""; "▶ pvesh"; pvesh_cmd; "";
                 "▶ curl"; api +:+ "/status/" +:+ action_str +:+ " " +:+ backslash; auth; "";
                 "▶ Ansible"; "- name: " +:+ action_str +:+ " guest"; "  community.general.proxmox_kvm:";
                 "    api_host: " +:+ node; "    node: " +:+ node; "    vmid: " +:+ vmid_str;
                 "    state: " +:+ action_str]
      end
  end.

(** *** The persisted form *)
Inductive PersistedOp :=
  | PoStartGuest (vmid : N)
  | PoStopGuest (vmid : N) (force : bool)
  | PoRestartGuest (vmid : N)
  | PoDeleteGuest (vmid : N)
  | PoMigrateGuest (vmid : N) (target_node : string)
  | PoMoveDisk (vmid : N) (disk target_storage : string) (delete_source : bool)
  | PoResizeDisk (vmid : N) (disk size : string).
Inductive PersistedOpStatus := PsPending | PsRunning | PsSuccess | PsError (e : string).
Record PersistedQueueEntry := mkPersisted {
  pe_id : string;
  pe_description : string;
  pe_diff : string;
  pe_status : PersistedOpStatus;
  pe_op : PersistedOp;
  pe_created_at_secs : N;
}.
Definition persisted_action (a : Action) : option PersistedOp :=
  match a with
  | AcStartGuest vmid => Some (PoStartGuest vmid)
  | AcStopGuest vmid force => Some (PoStopGuest vmid force)
  | AcRestartGuest vmid => Some (PoRestartGuest vmid)
  | AcDeleteGuest vmid => Some (PoDeleteGuest vmid)
  | AcMigrateGuest vmid target_node => Some (PoMigrateGuest vmid target_node)
  | AcMoveDisk vmid disk target_storage delete_source => Some (PoMoveDisk vmid disk target_storage delete_source)
  | AcResizeDisk vmid disk size => Some (PoResizeDisk vmid disk size)
  | _ => None
  end.
Definition restored_action (op : PersistedOp) : Action :=
  match op with
  | PoStartGuest vmid => AcStartGuest vmid
  | PoStopGuest vmid force => AcStopGuest vmid force
  | PoRestartGuest vmid => AcRestartGuest vmid
  | PoDeleteGuest vmid => AcDeleteGuest vmid
  | PoMigrateGuest vmid target_node => AcMigrateGuest vmid target_node
  | PoMoveDisk vmid disk target_storage delete_source => AcMoveDisk vmid disk target_storage delete_source
  | PoResizeDisk vmid disk size => AcResizeDisk vmid disk size
  end.
Definition persisted_status (s : OpStatus) : PersistedOpStatus :=
  match s with Pending => PsPending | OpRunning => PsRunning | Success => PsSuccess | Error e => PsError e end.
Definition INTERRUPTED : string :=
  "interrupted: proxxx exited while this op was running, so its outcome is unknown; check the PVE task log (`proxxx tasks`)".
Definition restored_status (s : PersistedOpStatus) : OpStatus :=
  match s with PsPending => Pending | PsRunning => Error INTERRUPTED | PsSuccess => Success | PsError e => Error e end.
Definition to_persisted (q : QueuedOp) : option PersistedQueueEntry :=
  op ← persisted_action (op_action q);
  Some (mkPersisted (op_id q) (op_description q) (op_diff q) (persisted_status (op_status q)) op (op_created_at_secs q)).
Definition from_persisted (e : PersistedQueueEntry) : QueuedOp :=
  mkQueuedOp (pe_id e) (restored_action (pe_op e)) (pe_description e) (pe_diff e) (restored_status (pe_status e))
    (pe_created_at_secs e) false.

(** *** Garbage collection *)
Definition SUCCESS_TTL_SECS : N := 300.
Definition ERROR_KEEP : nat := 50.
Definition HARD_CAP : nat := 200.

Definition is_error_op (op : QueuedOp) : bool := match op_status op with Error _ => true | _ => false end.
Definition is_pending_op (op : QueuedOp) : bool := match op_status op with Pending => true | _ => false end.
Definition is_fresh (now_secs : N) (op : QueuedOp) : bool :=
  match op_status op with Success => (now_secs - op_created_at_secs op <? SUCCESS_TTL_SECS)%N | _ => true end.

(** The positions of the first [to_drop] entries that [f] picks. *)
Definition victim_indices (f : QueuedOp -> bool) (to_drop : nat) (queue : list QueuedOp) : list nat :=
  take to_drop (omap (fun iq => if f iq.2 then Some iq.1 else None) (imap (fun i q => (i, q)) queue)).
(** Removal from the back, with the early end of the loop. *)
Fixpoint remove_victims (victims : list nat) (to_drop : nat) (queue : list QueuedOp) : list QueuedOp :=
  match victims with
  | [] => queue
  | i :: rest =>
      let queue := delete i queue in
      let to_drop := to_drop - 1 in
      if bool_decide (to_drop = 0) then queue else remove_victims rest to_drop queue
  end.
Definition drop_oldest (f : QueuedOp -> bool) (to_drop : nat) (queue : list QueuedOp) : list QueuedOp :=
  remove_victims (rev (victim_indices f to_drop queue)) to_drop queue.
Fixpoint cut_front (queue : list QueuedOp) : list QueuedOp :=
  match queue with
  | [] => []
  | _ :: rest => if bool_decide (HARD_CAP < length queue) then cut_front rest else queue
  end.
Definition gc_passes (queue : list QueuedOp) (now_secs : N) : list QueuedOp :=
  let queue := List.filter (is_fresh now_secs) queue in
  let error_count := length (List.filter is_error_op queue) in
  let queue := if bool_decide (ERROR_KEEP < error_count)
               then drop_oldest is_error_op (error_count - ERROR_KEEP) queue else queue in
  let queue := if bool_decide (HARD_CAP < length queue)
               then drop_oldest (fun op => negb (is_pending_op op)) (length queue - HARD_CAP) queue else queue in
  cut_front queue.
(** The queue afterwards, and how many entries were evicted. *)
Definition garbage_collect (queue : list QueuedOp) (now_secs : N) : list QueuedOp * nat :=
  let queue' := gc_passes queue now_secs in (queue', length queue - length queue').
