(* ===== verification/AppUpdate.v ===== *)
(** * The reducer: [update] of app.rs, and app/search.rs

    One definition per handler of some size and the rest in the match.  A
    handler returns the state and an optional side effect.  [update] calls
    itself on the action inside a confirmation, a palette command or a search
    hit; [update_fuel] bounds the nesting, and [update_total] in [AppSpec] shows
    that three levels are enough for every state and action. *)

From S2P Require Import Prelude.
From S2P Require Import ApiError.
From S2P Require Import Guest.
From S2P Require Import SortBy.
From S2P Require Import SnapTree.
From S2P Require Import Alerts.
From S2P Require Import IsoLibrary.
From S2P Require Import AppModel.

(** ** Navigation *)
Definition current_view (st : AppState) : View := default VwDashboard (last (nav_stack st)).
Definition push_view (v : View) (st : AppState) : AppState :=
  st <| nav_stack := nav_stack st ++ [v] |> <| selected_index := 0 |>.

(** What leaving a view frees. *)
Definition release_view (leaving : View) (st : AppState) : AppState :=
  match leaving with
  | VwSnapshotTree _ =>
      st <| snap_tree := None |> <| snap_tree_selected := None |> <| snap_tree_loading := false |>
  | VwHardware _ =>
      st <| hw_pci := [] |> <| hw_usb := [] |> <| hw_guest_configs := ∅ |> <| hw_loading := false |>
  | VwConfigGrep => st <| grep_results := [] |> <| grep_query := "" |>
  | VwHaConsole =>
      st <| ha_groups := [] |> <| ha_resources := [] |> <| ha_manager := None |> <| cluster_entries := [] |>
         <| repl_status := [] |> <| ha_loading := false |>
  | VwTaskLog _ => st <| current_task_log := [] |>
  | _ => st
  end.
Definition pop_view (st : AppState) : bool * AppState :=
  if bool_decide (1 < length (nav_stack st)) then
    let st := match last (nav_stack st) with Some leaving => release_view leaving st | None => st end in
    (true, st <| nav_stack := removelast (nav_stack st) |>)
  else (false, st).

Definition fail_with (env : Env) (msg : string) (st : AppState) : AppState :=
  st <| error := Some msg |> <| error_time := Some (instant env) |>.
Definition secs_since (now t : N) : N := ((now - t) / 1000000000)%N.

Definition visible_guests (env : Env) (st : AppState) : list Guest :=
  if is_empty (search_query st) then guests st
  else
    let q := to_lowercase env (search_query st) in
    List.filter (fun g => contains q (to_lowercase env (g_name g)) || contains q (pretty (g_vmid g))
                          || contains q (to_lowercase env (g_node g)) || contains q (to_lowercase env (g_tags g)))
      (guests st).

(** ** app/search.rs *)
Inductive SearchItem :=
  | SiNode (name status : string)
  | SiGuest (vmid : N) (name node status type_str : string)
  | SiStorage (pool type_str : string)
  | SiCommand (action : Action) (desc : string).
Definition search_text (i : SearchItem) : string :=
  match i with
  | SiNode name _ => "node " +:+ name
  | SiGuest vmid name node _ _ => pretty vmid +:+ " " +:+ name +:+ " " +:+ node
  | SiStorage pool _ => "storage " +:+ pool
  | SiCommand _ desc => "> " +:+ desc
  end.
Definition node_status_debug (s : NodeStatus) : string :=
  match s with Online => "Online" | Offline => "Offline" | Alerts.Unknown => "Unknown" end.
Definition guest_status_debug (s : GuestStatus) : string :=
  match s with
  | Running => "Running" | Stopped => "Stopped" | Paused => "Paused" | Suspended => "Suspended"
  | Guest.Unknown => "Unknown"
  end.
Definition guest_type_debug (t : GuestType) : string := match t with Qemu => "Qemu" | Lxc => "Lxc" end.

Definition guest_commands (g : Guest) : list SearchItem :=
  let label verb := verb +:+ " VM/CT " +:+ pretty (g_vmid g) +:+ " (" +:+ g_name g +:+ ")" in
  [SiCommand (AcStartGuest (g_vmid g)) (label "Start"); SiCommand (AcStopGuest (g_vmid g) false) (label "Stop");
   SiCommand (AcRestartGuest (g_vmid g)) (label "Restart"); SiCommand (AcDeleteGuest (g_vmid g)) (label "Delete")].
Definition view_commands : list SearchItem :=
  [SiCommand (AcSwitchView VwDashboard) "View: Dashboard"; SiCommand (AcSwitchView VwNodeList) "View: Nodes";
   SiCommand (AcSwitchView VwGuestList) "View: Guests"; SiCommand (AcSwitchView VwStorageList) "View: Storage";
   SiCommand (AcSwitchView VwHeatmap) "View: Hotspot Heatmap";
   SiCommand (AcSwitchView VwBackupBoard) "View: Backup Health Board";
   SiCommand AcEnterTimeline "View: Audit Timeline";
   SiCommand (AcSwitchView VwOperationQueue) "View: Operation Queue";
   SiCommand (AcSwitchView VwApprovalQueue) "View: Approval Queue"].
Definition build_index (st : AppState) : list SearchItem :=
  ((fun n => SiNode (Alerts.node n) (node_status_debug (Alerts.status n))) <$> nodes st)
  ++ ((fun g => SiGuest (g_vmid g) (g_name g) (g_node g) (guest_status_debug (g_status g))
                  (guest_type_debug (g_guest_type g))) <$> guests st)
  ++ ((fun s => SiStorage (sp_storage s) (sp_type s)) <$> storage st)
  ++ view_commands
  ++ (guests st ≫= guest_commands)
  ++ ((fun n => SiCommand (AcEvacuateNode (Alerts.node n)) ("Evacuate Node " +:+ Alerts.node n)) <$> nodes st).

Definition get_search_results (env : Env) (st : AppState) : list (N * SearchItem) :=
  let all_items := build_index st in
  if is_empty (search_query st) then (fun i => (0%N, i)) <$> all_items
  else
    sort_by (fun a b => N.compare b.1 a.1)
      (omap (fun i => (fun s => (s, i)) <$> score env (search_query st) (search_text i)) all_items).

(** ** Counting and counting down *)
Definition item_count (env : Env) (st : AppState) : nat :=
  match mode st with
  | MoSearch => length (get_search_results env st)
  | _ =>
      match current_view st with
      | VwDashboard | VwNodeList => length (nodes st)
      | VwGuestList => length (visible_guests env st)
      | VwStorageList => length (storage st)
      | VwApprovalQueue => length (pending_approvals st)
      | VwOperationQueue => length (op_queue st)
      | VwConfigGrep => length (grep_results st)
      | VwIsoLibrary => length LIBRARY
      | _ => 0
      end
  end.

(** ** Guards of the guest operations *)
Definition guest_block_reason (st : AppState) (vmid : N) (op_label : string) : option string :=
  match find_guest_in (guests st) vmid with
  | None => None
  | Some g =>
      if is_locked g then
        Some ("Cannot " +:+ op_label +:+ " guest " +:+ pretty vmid +:+ " (" +:+ g_name g +:+ "): held by lock '"
              +:+ g_lock g +:+ "' — wait for that operation to finish")
      else if is_ha_managed g then
        Some ("Cannot " +:+ op_label +:+ " guest " +:+ pretty vmid +:+ " (" +:+ g_name g
              +:+ ") directly: HA-managed (state '" +:+ g_hastate g
              +:+ "'). Change HA state via `/cluster/ha/resources/" +:+ pretty vmid
              +:+ "` first, or the CRM will undo this within seconds.")
      else None
  end.

Definition Step : Type := AppState * option SideEffect.

Definition on_stop_guest (env : Env) (vmid : N) (force : bool) (st : AppState) : Step :=
  match (if force_next_destructive st then None else guest_block_reason st vmid "stop") with
  | Some reason => (fail_with env reason st, None)
  | None =>
      let status := if force then "Force Stopping..." else "Stopping..." in
      (st <| active_tasks := <[vmid := status]> (active_tasks st) |>, Some (SeStopGuest vmid force))
  end.
Definition on_restart_guest (env : Env) (vmid : N) (st : AppState) : Step :=
  match (if force_next_destructive st then None else guest_block_reason st vmid "restart") with
  | Some reason => (fail_with env reason st, None)
  | None => (st <| active_tasks := <[vmid := "Restarting..."]> (active_tasks st) |>, Some (SeRestartGuest vmid))
  end.
Definition on_delete_guest (env : Env) (vmid : N) (st : AppState) : Step :=
  match (if force_next_destructive st then None else guest_block_reason st vmid "delete") with
  | Some reason => (fail_with env reason st, None)
  | None => (st, Some (SeDeleteGuest vmid))
  end.
Definition migrate_lock (st : AppState) (vmid : N) : option string :=
  match find_guest_in (guests st) vmid with
  | Some g => if is_locked g
              then Some ("Cannot migrate guest " +:+ pretty vmid +:+ " (" +:+ g_name g +:+ "): held by lock '"
                         +:+ g_lock g +:+ "' — wait for that operation to finish")
              else None
  | None => None
  end.
Definition on_migrate_guest (env : Env) (vmid : N) (target_node : string) (st : AppState) : Step :=
  match (if force_next_destructive st then None else migrate_lock st vmid) with
  | Some reason => (fail_with env reason st, None)
  | None =>
      let st := st <| active_tasks := <[vmid := "Migrating to " +:+ target_node +:+ "..."]> (active_tasks st) |> in
      match find_guest_in (guests st) vmid with
      | Some g => (st, Some (SeMigrateGuest (g_node g) vmid target_node))
      | None =>
          let st := fail_with env ("Migrate failed: guest " +:+ pretty vmid +:+ " not in current state") st in
          (st <| active_tasks := delete vmid (active_tasks st) |>, None)
      end
  end.
Definition on_create_snapshot (env : Env) (vmid : N) (name : string) (st : AppState) : Step :=
  match guest_block_reason st vmid "snapshot" with
  | Some reason => (fail_with env reason st, None)
  | None => (st, Some (SeCreateSnapshot vmid name))
  end.

(** ** Fetched data *)

(** The tag changes that are logged: guest, tags added, tags removed. *)
Definition tag_set (tags : string) : gset string :=
  list_to_set (List.filter (fun t => negb (is_empty t)) (split_char ";" tags)).
Definition audit_tag_changes (prev next : list Guest) : list (N * gset string * gset string) :=
  let prev_by_vmid : gmap N string := foldl (fun m g => <[g_vmid g := g_tags g]> m) ∅ prev in
  omap (fun g =>
    match prev_by_vmid !! g_vmid g with
    | None => None
    | Some prev_tags =>
        if bool_decide (prev_tags = g_tags g) then None
        else if bool_decide (tag_set prev_tags = tag_set (g_tags g)) then None
        else Some (g_vmid g, tag_set (g_tags g) ∖ tag_set prev_tags, tag_set prev_tags ∖ tag_set (g_tags g))
    end) next.

(** A node whose uptime did not move is flagged. *)
Definition flag_stale (prev_nodes : list Alerts.Node) (flags : gset string) (new_n : Alerts.Node) : gset string :=
  match List.find (fun n => bool_decide (Alerts.node n = Alerts.node new_n)) prev_nodes with
  | None => flags
  | Some prev =>
      if (0 <? Alerts.uptime prev)%N && (Alerts.uptime new_n =? Alerts.uptime prev)%N
         && bool_decide (Alerts.status new_n = Alerts.status prev)
      then {[Alerts.node new_n]} ∪ flags
      else flags ∖ {[Alerts.node new_n]}
  end.
Definition on_nodes_loaded (env : Env) (new_nodes : list Alerts.Node) (st : AppState) : AppState :=
  let flags := foldl (flag_stale (nodes st)) (nodes_with_stale_stats st) new_nodes in
  let known : gset string := list_to_set (Alerts.node <$> new_nodes) in
  st <| nodes_with_stale_stats := filter (fun n => n ∈ known) flags |>
     <| nodes := new_nodes |> <| is_loading := false |> <| last_sync := Some (instant env) |>.

Definition on_guests_loaded (new_guests : list Guest) (failed_nodes : list string) (st : AppState) : AppState :=
  let failed : gset string := list_to_set failed_nodes in
  let known := List.filter (fun g => bool_decide (g_node g ∈ failed)) (guests st) in
  let known_nodes : gset string := list_to_set (g_node <$> known) in
  let merged := List.filter (fun g => negb (bool_decide (g_node g ∈ known_nodes))) new_guests ++ known in
  st <| guests_stale_nodes := failed |> <| guests := merged |> <| is_loading := false |>
     <| guests_fetch_errors := [] |>.

Definition on_tick (env : Env) (st : AppState) : Step :=
  let fetch_upid := match current_view st with VwTaskLog upid => Some upid | _ => None end in
  let now := instant env in
  let st := match error_time st with
            | Some t => if (5 <=? secs_since now t)%N then st <| error := None |> <| error_time := None |> else st
            | None => st
            end in
  let '(queue, dropped) := garbage_collect (op_queue st) (unix_secs env) in
  let st := st <| op_queue := queue |> in
  let st := if bool_decide (0 < dropped) then st <| queue_dirty := true |> else st in
  match fetch_upid with
  | None => (st, None)
  | Some upid =>
      let should_poll := match last_task_poll st with Some last => (1 <=? secs_since now last)%N | None => true end in
      if should_poll then
        let st := st <| last_task_poll := Some now |> in
        match split_char ":" upid with
        | _ :: node :: _ => (st, Some (SeFetchTaskLog upid node))
        | _ => (st, None)
        end
      else (st, None)
  end.

(** ** Downloads *)
Definition last_segment (url : string) : string := default "download.img" (last (split_char "/" url)).
Definition on_download_iso (env : Env) (entry_id node storage : string) (st : AppState) : Step :=
  match by_id entry_id with
  | None => (fail_with env ("ISO library entry '" +:+ entry_id +:+ "' not found") st, None)
  | Some entry =>
      match checksum entry with
      | None =>
          (fail_with env ("ISO library entry '" +:+ entry_id +:+ "' has no pinned checksum. Use --url <X> --sha256 <Y> "
             +:+ "via CLI instead, or wait for a proxxx release that pins this entry.") st, None)
      | Some c =>
          let resolved_node :=
            if is_empty node
            then match List.find (fun n => bool_decide (Alerts.status n = Online)) (nodes st) with
                 | Some n => Alerts.node n
                 | None => ""
                 end
            else node in
          if is_empty resolved_node then (fail_with env "No online node available for ISO download" st, None)
          else (st, Some (SeDownloadIso resolved_node storage (url entry) (last_segment (url entry))
                            (Some (proxmox_pair c)) (content entry)))
      end
  end.

(** ** The queue *)
Definition enqueue (env : Env) (force : bool) (action : Action) (st : AppState) : AppState :=
  let new := if force then QueuedOp_new_force else QueuedOp_new in
  st <| op_queue := op_queue st ++ [new env action (guests st) (op_seq st)] |>
     <| queue_dirty := true |> <| op_seq := (op_seq st + 1)%N |>.
Definition enqueue_all (env : Env) (force : bool) (actions : list Action) (st : AppState) : AppState :=
  foldl (fun st a => enqueue env force a st) st actions.

Definition mark_running (op : QueuedOp) : QueuedOp :=
  if is_pending_op op then op <| op_status := OpRunning |> else op.
Definition on_execute_queue (st : AppState) : Step :=
  let pending_ops := List.filter is_pending_op (op_queue st) in
  (st <| op_queue := mark_running <$> op_queue st |> <| queue_dirty := true |>, Some (SeExecuteQueue pending_ops)).

(** [iter_mut().find(..)]: the first match is changed. *)
Fixpoint change_first {A} (f : A -> bool) (upd : A -> A) (l : list A) : option (list A) :=
  match l with
  | [] => None
  | x :: l' => if f x then Some (upd x :: l') else cons x <$> change_first f upd l'
  end.
Definition on_status_changed (id : string) (status : OpStatus) (st : AppState) : AppState :=
  match change_first (fun o => bool_decide (op_id o = id)) (fun o => o <| op_status := status |>) (op_queue st) with
  | Some q => st <| op_queue := q |> <| queue_dirty := true |>
  | None => st
  end.

(** ** Batches *)

(** [max_by_key]: the last of the greatest. *)
Definition free_mem (n : Alerts.Node) : N := (Alerts.maxmem n - Alerts.mem n)%N.
Fixpoint max_by_key {A} (key : A -> N) (l : list A) : option A :=
  match l with
  | [] => None
  | x :: l' => match max_by_key key l' with
               | Some y => if (key x <=? key y)%N then Some y else Some x
               | None => Some x
               end
  end.
Definition on_evacuate_node (env : Env) (node : string) (st : AppState) : AppState :=
  let available :=
    List.filter (fun n => negb (bool_decide (Alerts.node n = node)) && bool_decide (Alerts.status n = Online))
      (nodes st) in
  match available with
  | [] => fail_with env "No available nodes for evacuation" st
  | _ =>
      let actions :=
        omap (fun g => if bool_decide (g_node g = node)
                       then (fun t => AcMigrateGuest (g_vmid g) (Alerts.node t)) <$> max_by_key free_mem available
                       else None) (guests st) in
      match actions with
      | [] => fail_with env ("No guests on node " +:+ node) st
      | _ => push_view VwOperationQueue (enqueue_all env (force_next_destructive st) actions st)
      end
  end.
Definition on_execute_broadcast (env : Env) (cmd : string) (st : AppState) : AppState :=
  let actions := (fun v => AcExecuteGuestCommand v cmd) <$> iter_set env (selected_guests st) in
  let st := st <| mode := MoNormal |> <| selected_guests := ∅ |> in
  match actions with
  | [] => fail_with env "No guests selected for broadcast" st
  | _ => push_view VwOperationQueue (enqueue_all env (force_next_destructive st) actions st)
  end.

(** ** The timeline *)
(** [timeline_timestamps[i]]; [AppSpec] shows that the index is in range. *)
Definition stamp (st : AppState) (i : nat) : N := default 0%N (timeline_timestamps st !! i).
Definition load_timeline (env : Env) (st : AppState) : AppState :=
  let i := timeline_index st in
  let st := match load_state_at env (profile_label st) (stamp st i) with
            | Ok snap => st <| timeline_snapshot := Some snap |>
            | Err _ => st
            end in
  if bool_decide (0 < i) then
    match load_state_at env (profile_label st) (stamp st (i - 1)) with
    | Ok prev => st <| timeline_prev_snapshot := Some prev |>
    | Err _ => st
    end
  else st <| timeline_prev_snapshot := None |>.
Definition on_enter_timeline (env : Env) (st : AppState) : AppState :=
  match get_all_snapshots env (profile_label st) with
  | Err _ => st
  | Ok [] => fail_with env "No historical snapshots found" st
  | Ok ts =>
      push_view VwAuditTimeline
        (load_timeline env (st <| timeline_timestamps := ts |> <| timeline_index := length ts - 1 |>))
  end.
Definition on_timeline_prev (env : Env) (st : AppState) : AppState :=
  if bool_decide (0 < timeline_index st)
  then load_timeline env (st <| timeline_index := timeline_index st - 1 |>) else st.
Definition on_timeline_next (env : Env) (st : AppState) : AppState :=
  if bool_decide (timeline_index st + 1 < length (timeline_timestamps st))
  then load_timeline env (st <| timeline_index := timeline_index st + 1 |>) else st.

(** ** Snapshots *)
Fixpoint collect_names (t : TreeNode) : list string :=
  let '(SnapTree.Node s cs) := t in
  name s :: (fix go (l : list TreeNode) : list string :=
               match l with [] => [] | c :: l' => collect_names c ++ go l' end) cs.
Definition initial_selection (t : Tree) : option string :=
  let by_name := roots t ≫= collect_names in
  match List.find (fun n => bool_decide (n = "current")) by_name with
  | Some n => Some n
  | None => head by_name
  end.
(** [assemble] is total ([assemble_shows_each_name_once]). *)
Definition on_snapshots_loaded (env : Env) (vmid : N) (snaps : list Snapshot) (st : AppState) : AppState :=
  match current_view st with
  | VwSnapshotTree v =>
      if (v =? vmid)%N then
        let tree := default (mkTree [] []) (assemble (map_values env) snaps) in
        st <| snap_tree_selected := initial_selection tree |> <| snap_tree := Some tree |>
           <| snap_tree_loading := false |>
      else st
  | _ => st
  end.

(** ** The palette *)
(** [str::split_whitespace]; the length bounds the steps. *)
Fixpoint words_from (fuel : nat) (cur s : string) : list string :=
  let flush := if is_empty cur then [] else [cur] in
  match fuel with
  | 0 => flush
  | S fuel' =>
      match strip_white s with
      | Some r => flush ++ words_from fuel' "" r
      | None => match s with
                | "" => flush
                | String a s' => words_from fuel' (cur +:+ String a "") s'
                end
      end
  end.
Definition split_whitespace (s : string) : list string := words_from (S (String.length s)) "" s.

Definition parse_command_action (cmd : string) : option Action :=
  let parts := split_whitespace (trim cmd) in
  let arg := head (tail parts) in
  let vmid := arg ≫= parse_uint u32_max in
  match head parts with
  | None => None
  | Some h =>
      if bool_decide (h = "ssh") then AcOpenGuestSsh <$> vmid
      else if bool_decide (h ∈ ["snaps"; "tree"; "snapshots"]) then AcOpenSnapshotTree <$> vmid
      else if bool_decide (h ∈ ["iso"; "images"; "library"]) then Some AcOpenIsoLibrary
      else if bool_decide (h ∈ ["ha"; "replication"]) then Some AcOpenHaConsole
      else if bool_decide (h ∈ ["hw"; "hardware"; "passthrough"]) then AcOpenHardware <$> arg
      else None
  end.

(** ** The other handlers *)
Definition is_normal (m : AppMode) : bool := match m with MoNormal => true | _ => false end.
Definition on_back (st : AppState) : Step :=
  if negb (is_normal (mode st))
  then (st <| mode := MoNormal |> <| search_query := "" |> <| command_input := "" |>, None)
  else let '(popped, st) := pop_view st in if popped then (st, None) else (st, Some SeQuit).
Definition on_navigate_down (env : Env) (st : AppState) : AppState :=
  match mode st with
  | MoProfilePicker profiles selected =>
      if bool_decide (selected + 1 < length profiles)
      then st <| mode := MoProfilePicker profiles (selected + 1) |> else st
  | _ =>
      let max := item_count env st in
      if bool_decide (0 < max) && bool_decide (selected_index st < max - 1)
      then st <| selected_index := selected_index st + 1 |> else st
  end.
Definition on_navigate_up (st : AppState) : AppState :=
  match mode st with
  | MoProfilePicker profiles selected =>
      if bool_decide (0 < selected) then st <| mode := MoProfilePicker profiles (selected - 1) |> else st
  | _ => if bool_decide (0 < selected_index st) then st <| selected_index := selected_index st - 1 |> else st
  end.
Definition on_profile_switch (st : AppState) : Step :=
  match mode st with
  | MoProfilePicker profiles selected =>
      match profiles !! selected with
      | Some p => (st, Some (SeSwitchProfile p))
      | None => (st <| mode := MoNormal |>, None)
      end
  | _ => (st <| mode := MoNormal |>, None)
  end.
Definition select_guests (vmids : list N) (st : AppState) : AppState :=
  match current_view st with
  | VwGuestList => st <| selected_guests := list_to_set vmids ∪ selected_guests st |>
  | _ => st
  end.
Definition on_select_by_tag (env : Env) (tag : string) (st : AppState) : AppState :=
  let tag_lower := to_lowercase env tag in
  let hits := List.filter (fun g => existsb (fun t => bool_decide (to_lowercase env t = tag_lower)) (tag_list g))
                (guests st) in
  (select_guests (g_vmid <$> hits) st) <| mode := MoNormal |>.
Definition in_ssh (st : AppState) : bool :=
  match mode st with
  | MoSshSession _ => true
  | _ => match current_view st with VwGuestSshSession _ => true | _ => false end
  end.
Definition on_ssh_failed (env : Env) (vmid : N) (err : string) (st : AppState) : AppState :=
  let st := st <| mode := MoNormal |> in
  let st := match current_view st with
            | VwGuestSshSession v => if (v =? vmid)%N then (pop_view st).2 else st
            | _ => st
            end in
  fail_with env ("SSH to " +:+ pretty vmid +:+ " failed: " +:+ err) st.
Definition on_passphrase_submit (st : AppState) : Step :=
  match mode st with
  | MoSshPassphrase vmid =>
      (st <| command_input := "" |> <| mode := MoSshSession vmid |>,
       Some (SeSetSshPassphraseAndOpen vmid (command_input st)))
  | _ => (st, None)
  end.
Definition on_passphrase_cancel (st : AppState) : AppState :=
  let st := st <| command_input := "" |> <| mode := MoNormal |> in
  match current_view st with VwGuestSshSession _ => (pop_view st).2 | _ => st end.
Definition on_shutdown_timed_out (vmid elapsed_secs : N) (st : AppState) : AppState :=
  let name := guest_name_of (guests st) vmid in
  let label := if is_empty name then "vmid " +:+ pretty vmid else "vmid " +:+ pretty vmid +:+ " (" +:+ name +:+ ")" in
  st <| mode := MoConfirm ("ACPI shutdown timed out for " +:+ label +:+ " after " +:+ pretty elapsed_secs
                             +:+ "s. Force hard stop?") (AcStopGuest vmid true) |>
     <| active_tasks := <[vmid := "ACPI timeout"]> (active_tasks st) |>.
Definition on_approval_received (txn_id : string) (approved : bool) (st : AppState) : AppState :=
  match change_first (fun a => bool_decide (pa_txn_id a = txn_id))
          (fun a => mkPendingApproval (pa_txn_id a) (pa_description a) (if approved then ApApproved else ApDenied))
          (pending_approvals st) with
  | Some l => st <| pending_approvals := l |>
  | None => st
  end.

(** ** [update] *)

(** The handlers that do not call [update]. *)
Definition update_leaf (env : Env) (st : AppState) (action : Action) : Step :=
  match action with
  | AcQuit => (st, Some SeQuit)
  | AcOpenProfilePicker profiles => (st <| mode := MoProfilePicker profiles 0 |>, None)
  | AcConfirmProfileSwitch => on_profile_switch st
  | AcBack => on_back st
  | AcNavigateDown => (on_navigate_down env st, None)
  | AcNavigateUp => (on_navigate_up st, None)
  | AcSwitchView view => ((push_view view st) <| selected_guests := ∅ |>, None)
  | AcToggleSelection vmid =>
      (st <| selected_guests := if bool_decide (vmid ∈ selected_guests st)
                                then selected_guests st ∖ {[vmid]} else {[vmid]} ∪ selected_guests st |>, None)
  | AcClearSelection => (st <| selected_guests := ∅ |>, None)
  | AcSelectAll => (select_guests (g_vmid <$> guests st) st, None)
  | AcSelectByTag tag => (on_select_by_tag env tag st, None)
  | AcToggleHelp => (st <| mode := match mode st with MoHelp => MoNormal | _ => MoHelp end |>, None)
  | AcStartTagSelection => (st <| mode := MoInputTag |> <| command_input := "" |>, None)
  | AcTick => on_tick env st
  | AcNodesLoaded new_nodes => (on_nodes_loaded env new_nodes st, None)
  | AcGuestsLoaded new_guests failed_nodes => (on_guests_loaded new_guests failed_nodes st, None)
  | AcGuestsFetchErrorsLoaded errs => (st <| guests_fetch_errors := errs |>, None)
  | AcStorageLoaded s => (st <| storage := s |>, None)
  | AcClusterTasksLoaded tasks => (st <| st_cluster_tasks := tasks |>, None)
  | AcClusterQuorateLoaded quorate => (st <| cluster_quorate := Some quorate |>, None)
  | AcErrorOccurred err => ((fail_with env err st) <| is_loading := false |>, None)
  | AcSearchInput query => (st <| mode := MoSearch |> <| search_query := query |>, None)
  | AcCommandInput input => (st <| mode := MoCommand |> <| command_input := input |>, None)
  | AcConfirmRequest desc a => (st <| mode := MoConfirm desc a |>, None)
  | AcStartGuest vmid =>
      (st <| active_tasks := <[vmid := "Starting..."]> (active_tasks st) |>, Some (SeStartGuest vmid))
  | AcStopGuest vmid force => on_stop_guest env vmid force st
  | AcRestartGuest vmid => on_restart_guest env vmid st
  | AcMigrateGuest vmid target_node => on_migrate_guest env vmid target_node st
  | AcDeleteGuest vmid => on_delete_guest env vmid st
  | AcCreateSnapshot vmid n => on_create_snapshot env vmid n st
  | AcOpenIsoLibrary => (push_view VwIsoLibrary st, None)
  | AcDownloadIso entry_id node s => on_download_iso env entry_id node s st
  | AcDownloadIsoCustom u filename node s c ct => (st, Some (SeDownloadIso node s u filename c ct))
  | AcMoveDisk _ _ _ _ | AcResizeDisk _ _ _ =>
      (push_view VwOperationQueue (enqueue env (force_next_destructive st) action st), None)
  | AcOpenHardware node =>
      let st := st <| hw_node := node |> <| hw_loading := true |> <| hw_pci := [] |> <| hw_usb := [] |>
                   <| hw_guest_configs := ∅ |> in
      (push_view (VwHardware node) st, Some (SeFetchHardwareData node))
  | AcHwDataLoaded node pci usb configs =>
      (if bool_decide (hw_node st = node)
       then st <| hw_pci := pci |> <| hw_usb := usb |> <| hw_guest_configs := configs |> <| hw_loading := false |>
       else st, None)
  | AcOpenHaConsole => (push_view VwHaConsole (st <| ha_loading := true |>), Some SeFetchHaConsoleData)
  | AcHaDataLoaded groups resources manager cluster repl =>
      (st <| ha_groups := groups |> <| ha_resources := resources |> <| ha_manager := Some manager |>
          <| cluster_entries := cluster |> <| repl_status := repl |> <| ha_loading := false |>, None)
  | AcOpenSnapshotTree vmid =>
      (push_view (VwSnapshotTree vmid)
         (st <| snap_tree := None |> <| snap_tree_selected := None |> <| snap_tree_loading := true |>),
       Some (SeFetchSnapshotTree vmid))
  | AcSnapshotsLoaded vmid snaps => (on_snapshots_loaded env vmid snaps st, None)
  | AcOpenGuestSsh vmid =>
      ((push_view (VwGuestSshSession vmid) st) <| mode := MoSshSession vmid |>, Some (SeOpenSshSession vmid))
  | AcCloseSshSession =>
      if in_ssh st then ((pop_view (st <| mode := MoNormal |>)).2, Some SeCloseSshSession) else (st, None)
  | AcSshSessionFailed vmid err => (on_ssh_failed env vmid err st, None)
  | AcSshPassphrasePrompt vmid => (st <| command_input := "" |> <| mode := MoSshPassphrase vmid |>, None)
  | AcSshPassphraseInput input =>
      (match mode st with MoSshPassphrase _ => st <| command_input := input |> | _ => st end, None)
  | AcSshPassphraseSubmit => on_passphrase_submit st
  | AcSshPassphraseCancel => (on_passphrase_cancel st, None)
  | AcCompareGuests =>
      (push_view (VwGuestCompare (iter_set env (selected_guests st))) (st <| selected_guests := ∅ |>), None)
  | AcEvacuateNode node => (on_evacuate_node env node st, None)
  | AcPromptBroadcastCommand => (st <| mode := MoInputBroadcast |> <| command_input := "" |>, None)
  | AcExecuteBroadcast cmd => (on_execute_broadcast env cmd st, None)
  | AcExecuteGuestCommand vmid command =>
      match find_guest_in (guests st) vmid with
      | Some g => (st, Some (SeExecuteGuestCommand (g_node g) vmid (g_guest_type g) command))
      | None => (fail_with env ("Guest " +:+ pretty vmid +:+ " not found") st, None)
      end
  | AcEnterTimeline => (on_enter_timeline env st, None)
  | AcTimelinePrev => (on_timeline_prev env st, None)
  | AcTimelineNext => (on_timeline_next env st, None)
  | AcApprovalRequested txn_id description =>
      (push_view VwApprovalQueue
         (st <| pending_approvals := pending_approvals st ++ [mkPendingApproval txn_id description ApPending] |>), None)
  | AcApprovalReceived txn_id approved => (on_approval_received txn_id approved st, None)
  | AcTaskStarted upid => ((push_view (VwTaskLog upid) st) <| current_task_log := [] |>, None)
  | AcTaskLogUpdated upid ls =>
      (match current_view st with
       | VwTaskLog u => if bool_decide (u = upid) then st <| current_task_log := ls |> else st
       | _ => st
       end, None)
  | AcGuestTaskFinished vmid => (st <| active_tasks := delete vmid (active_tasks st) |>, None)
  | AcGuestStatusPolled vmid status elapsed =>
      (st <| active_tasks := <[vmid := "ACPI " +:+ pretty elapsed +:+ "s — " +:+ status]> (active_tasks st) |>, None)
  | AcShutdownTimedOut vmid elapsed => (on_shutdown_timed_out vmid elapsed st, None)
  | AcEnqueueOperation a => (push_view VwOperationQueue (enqueue env false a st), None)
  | AcEnqueueBatchOperation actions => (push_view VwOperationQueue (enqueue_all env false actions st), None)
  | AcDequeueOperation index =>
      (if bool_decide (index < length (op_queue st))
       then st <| op_queue := delete index (op_queue st) |> <| queue_dirty := true |> else st, None)
  | AcExecuteQueue => on_execute_queue st
  | AcQueueOpStatusChanged id status => (on_status_changed id status st, None)
  | AcStartConfigGrep =>
      ((push_view VwConfigGrep (st <| mode := MoConfigGrep |>)) <| grep_query := "" |> <| grep_results := [] |>, None)
  | AcConfigGrepInput q => (st <| grep_query := q |>, None)
  | AcConfigGrepSubmit =>
      if is_empty (grep_query st) then (st, None)
      else (st <| grep_searching := true |>, Some (SeConfigGrep (grep_query st)))
  | AcConfigGrepResults query matches =>
      (if bool_decide (grep_query st = query)
       then st <| grep_results := matches |> <| grep_searching := false |> else st, None)
  | AcSelect | AcCommandSubmit | AcConfirmAccept | AcConfirmForce => (st, None)
  end.

(** [handle_select], with the call it ends in, if any. *)
Definition handle_select (env : Env) (st : AppState) : AppState * option Action :=
  match mode st with
  | MoSearch =>
      match get_search_results env st !! selected_index st with
      | None => (st, None)
      | Some (_, item) =>
          let '(st, pending_action) :=
            match item with
            | SiGuest vmid _ _ _ _ => (push_view (VwGuestDetail vmid) st, None)
            | SiNode _ _ => (push_view VwNodeList st, None)
            | SiStorage _ _ => (push_view VwStorageList st, None)
            | SiCommand action _ => (st, Some action)
            end in
          (st <| mode := MoNormal |> <| search_query := "" |>, pending_action)
      end
  | _ =>
      match current_view st with
      | VwDashboard | VwNodeList => (push_view VwGuestList st, None)
      | VwGuestList =>
          match visible_guests env st !! selected_index st with
          | Some g => (push_view (VwGuestDetail (g_vmid g)) st, None)
          | None => (st, None)
          end
      | VwIsoLibrary =>
          match LIBRARY !! selected_index st with
          | None => (st, None)
          | Some entry =>
              match head (storage st) with
              | Some s => (st, Some (AcDownloadIso (iso_id entry) "" (sp_storage s)))
              | None => (fail_with env "No storage available — connect to a cluster first" st, None)
              end
          end
      | _ => (st, None)
      end
  end.

Fixpoint update_fuel (fuel : nat) (env : Env) (st : AppState) (action : Action) : option Step :=
  match fuel with
  | 0 => None
  | S fuel' =>
      match action with
      | AcSelect =>
          match handle_select env st with
          | (st, Some a) => update_fuel fuel' env st a
          | (st, None) => Some (st, None)
          end
      | AcCommandSubmit =>
          let cmd := command_input st in
          let st := st <| mode := MoNormal |> <| command_input := "" |> in
          match parse_command_action cmd with
          | Some a => update_fuel fuel' env st a
          | None => Some (st, None)
          end
      | AcConfirmAccept =>
          match mode st with
          | MoConfirm _ a => update_fuel fuel' env (st <| mode := MoNormal |>) a
          | _ => Some (st, None)
          end
      | AcConfirmForce =>
          match mode st with
          | MoConfirm _ a =>
              '(st, result) ← update_fuel fuel' env (st <| mode := MoNormal |> <| force_next_destructive := true |>) a;
              Some (st <| force_next_destructive := false |>, result)
          | _ => Some (st, None)
          end
      | _ => Some (update_leaf env st action)
      end
  end.
Definition UPDATE_DEPTH : nat := 3.
Definition update (env : Env) (st : AppState) (action : Action) : Step :=
  default (st, None) (update_fuel UPDATE_DEPTH env st action).
