(* ===== verification/AppSpec.v ===== *)
(** * What the reducer promises

    Three levels of nesting are enough for [update] ([update_total]).  Over every
    sequence of actions the state keeps its invariant, a destructive request is
    answered only for a guest that is neither locked nor under HA unless the
    break-glass key was pressed for it, and a queued operation is handed to the
    controller at most once. *)

From S2P Require Import Prelude.
From S2P Require Import ApiError.
From S2P Require Import Guest.
From S2P Require Import SortBy.
From S2P Require Import SnapTree.
From S2P Require Import Alerts.
From S2P Require Import IsoLibrary.
From S2P Require Import AppModel.
From S2P Require Import AppUpdate.

(** ** Nesting *)
Definition is_leaf (a : Action) : bool :=
  match a with AcSelect | AcCommandSubmit | AcConfirmAccept | AcConfirmForce => false | _ => true end.

Lemma update_fuel_leaf n env st a : is_leaf a = true -> update_fuel (S n) env st a = Some (update_leaf env st a).
Proof. by destruct a. Qed.

Lemma update_fuel_select n env st :
  update_fuel (S n) env st AcSelect =
    match handle_select env st with
    | (st, Some a) => update_fuel n env st a
    | (st, None) => Some (st, None)
    end.
Proof. done. Qed.
Lemma update_fuel_command n env st :
  update_fuel (S n) env st AcCommandSubmit =
    match parse_command_action (command_input st) with
    | Some a => update_fuel n env (st <| mode := MoNormal |> <| command_input := "" |>) a
    | None => Some (st <| mode := MoNormal |> <| command_input := "" |>, None)
    end.
Proof. done. Qed.
Lemma update_fuel_accept n env st :
  update_fuel (S n) env st AcConfirmAccept =
    match mode st with
    | MoConfirm _ a => update_fuel n env (st <| mode := MoNormal |>) a
    | _ => Some (st, None)
    end.
Proof. done. Qed.
Lemma update_fuel_force n env st :
  update_fuel (S n) env st AcConfirmForce =
    match mode st with
    | MoConfirm _ a =>
        match update_fuel n env (st <| mode := MoNormal |> <| force_next_destructive := true |>) a with
        | Some (st, result) => Some (st <| force_next_destructive := false |>, result)
        | None => None
        end
    | _ => Some (st, None)
    end.
Proof. done. Qed.
#[local] Opaque update_fuel update_leaf handle_select parse_command_action.

(** The actions a palette command or a selection stands for. *)
Definition indirect (a : Action) : bool :=
  match a with
  | AcOpenGuestSsh _ | AcOpenSnapshotTree _ | AcOpenIsoLibrary | AcOpenHaConsole | AcOpenHardware _
  | AcDownloadIso _ _ _ | AcSwitchView _ | AcEnterTimeline | AcStartGuest _ | AcStopGuest _ _ | AcRestartGuest _
  | AcDeleteGuest _ | AcEvacuateNode _ => true
  | _ => false
  end.
Lemma indirect_leaf a : indirect a = true -> is_leaf a = true.
Proof. by destruct a. Qed.

#[local] Transparent parse_command_action handle_select.
Lemma parse_command_indirect cmd a : parse_command_action cmd = Some a -> indirect a = true.
Proof.
  unfold parse_command_action. cbv zeta. destruct (head _) as [h|]; [|done].
  repeat case_bool_decide; try (destruct (_ ≫= parse_uint u32_max)); try (destruct (head (tail _)));
    intros; by simplify_eq/=.
Qed.

Lemma build_index_indirect st a desc : SiCommand a desc ∈ build_index st -> indirect a = true.
Proof.
  unfold build_index. rewrite !elem_of_app. intros [H|[H|[H|[H|[H|H]]]]].
  - by apply list_elem_of_fmap in H as (? & [=] & _).
  - by apply list_elem_of_fmap in H as (? & [=] & _).
  - by apply list_elem_of_fmap in H as (? & [=] & _).
  - unfold view_commands in H. repeat (apply elem_of_cons in H as [[= -> _]|H]; [done|]). by apply elem_of_nil in H.
  - apply list_elem_of_bind in H as (g & H & _). unfold guest_commands in H.
    repeat (apply elem_of_cons in H as [[= -> _]|H]; [done|]). by apply elem_of_nil in H.
  - by apply list_elem_of_fmap in H as (? & [= -> _] & _).
Qed.
#[export] Instance score_Cmp : Cmp (fun a b : N * SearchItem => N.compare b.1 a.1).
Proof.
  pose proof N_compare_Cmp as C. split; intros x y; [|intros z..].
  - apply (cmp_opp (cmp := N.compare)).
  - rewrite !N.compare_eq_iff. by intros ->.
  - rewrite !N.compare_lt_iff. lia.
Qed.
Lemma search_results_index env st s i : (s, i) ∈ get_search_results env st -> i ∈ build_index st.
Proof.
  unfold get_search_results. cbv zeta. destruct (is_empty _).
  - intros (j & [= _ ->] & H)%list_elem_of_fmap. done.
  - rewrite elem_of_sort_by, list_elem_of_omap. intros (j & H & E). by destruct (score _ _ _); simplify_eq/=.
Qed.
Lemma handle_select_indirect env st st' a : handle_select env st = (st', Some a) -> indirect a = true.
Proof.
  assert (forall x, (match current_view x with
      | VwDashboard | VwNodeList => (push_view VwGuestList x, None)
      | VwGuestList =>
          match visible_guests env x !! selected_index x with
          | Some g => (push_view (VwGuestDetail (g_vmid g)) x, None)
          | None => (x, None)
          end
      | VwIsoLibrary =>
          match LIBRARY !! selected_index x with
          | None => (x, None)
          | Some entry =>
              match head (storage x) with
              | Some s => (x, Some (AcDownloadIso (iso_id entry) "" (sp_storage s)))
              | None => (fail_with env "No storage available — connect to a cluster first" x, None)
              end
          end
      | _ => (x, None)
      end) = (st', Some a) -> indirect a = true) as Hview.
  { intros x. destruct (current_view x); try (by intros [= _]).
    - by destruct (_ !! _).
    - destruct (LIBRARY !! _); [|done]. destruct (head _); [|done]. by intros [= _ <-]. }
  unfold handle_select. destruct (mode st); try apply Hview.
  destruct (_ !! _) as [[s i]|] eqn:E; [|done]. apply list_elem_of_lookup_2, search_results_index in E.
  destruct i; intros; simplify_eq. by eapply build_index_indirect.
Qed.

(** A state that differs only in what a nested call sets before it recurs. *)
Definition same_but_ui (st st' : AppState) : Prop :=
  exists m q c f, (m = mode st \/ m = MoNormal) /\ st' = st <| mode := m |> <| search_query := q |> <| command_input := c |>
                           <| force_next_destructive := f |>.
(** The same, for a nested call that ends without a handler: views may have
    been pushed and an error shown. *)
Definition ui_only (st st' : AppState) : Prop :=
  exists m q c f vs i e t, (m = mode st \/ m = MoNormal) /\
    st' = st <| mode := m |> <| search_query := q |> <| command_input := c |> <| force_next_destructive := f |>
             <| nav_stack := nav_stack st ++ vs |> <| selected_index := i |> <| error := e |> <| error_time := t |>.

Ltac by_fields st := destruct st; cbn; rewrite ?app_nil_r; reflexivity.

Lemma same_but_ui_refl st : same_but_ui st st.
Proof. exists (mode st), (search_query st), (command_input st), (force_next_destructive st). split; [by left|]. by_fields st. Qed.
Lemma same_but_ui_trans a b c : same_but_ui a b -> same_but_ui b c -> same_but_ui a c.
Proof.
  intros (m & q & k & f & Hm & ->) (m' & q' & k' & f' & Hm' & ->). exists m', q', k', f'.
  split; [destruct Hm as [->| ->]; cbn in Hm'; tauto|]. by_fields a.
Qed.
Lemma ui_only_same a b c : same_but_ui a b -> ui_only b c -> ui_only a c.
Proof.
  intros (m & q & k & f & Hm & ->) (m' & q' & k' & f' & vs & i & e & t & Hm' & ->).
  exists m', q', k', f', vs, i, e, t. split; [destruct Hm as [->| ->]; cbn in Hm'; tauto|]. by_fields a.
Qed.
Lemma same_ui_only st st' : same_but_ui st st' -> ui_only st st'.
Proof.
  intros (m & q & k & f & Hm & ->). exists m, q, k, f, [], (selected_index st), (error st), (error_time st).
  split; [done|]. by_fields st.
Qed.

Lemma set_mode_ui st : same_but_ui st (st <| mode := MoNormal |>).
Proof.
  exists MoNormal, (search_query st), (command_input st), (force_next_destructive st). split; [by right|]. by_fields st.
Qed.
Lemma set_force_ui st f : same_but_ui st (st <| force_next_destructive := f |>).
Proof. exists (mode st), (search_query st), (command_input st), f. split; [by left|]. by_fields st. Qed.
Lemma set_command_ui st : same_but_ui st (st <| mode := MoNormal |> <| command_input := "" |>).
Proof. exists MoNormal, (search_query st), "", (force_next_destructive st). split; [by right|]. by_fields st. Qed.

Lemma push_view_ui v st : ui_only st (push_view v st).
Proof.
  exists (mode st), (search_query st), (command_input st), (force_next_destructive st), [v], 0, (error st), (error_time st).
  split; [by left|]. by_fields st.
Qed.
Lemma fail_with_ui env msg st : ui_only st (fail_with env msg st).
Proof.
  exists (mode st), (search_query st), (command_input st), (force_next_destructive st), [], (selected_index st),
    (Some msg), (Some (instant env)). split; [by left|]. by_fields st.
Qed.
Lemma ui_only_search st st' : ui_only st st' -> ui_only st (st' <| mode := MoNormal |> <| search_query := "" |>).
Proof.
  intros (m & q & c & f & vs & i & e & t & Hm & ->). exists MoNormal, "", c, f, vs, i, e, t.
  split; [by right|]. by_fields st.
Qed.
Lemma ui_only_refl st : ui_only st st.
Proof. apply same_ui_only, same_but_ui_refl. Qed.

Lemma handle_select_ui env st :
  let '(st', a) := handle_select env st in
  force_next_destructive st' = force_next_destructive st /\
  match a with Some _ => same_but_ui st st' | None => ui_only st st' end.
Proof.
  unfold handle_select. destruct (mode st).
  2: { destruct (_ !! _) as [[s []]|]; cbn; (split; [done|]);
         try (apply ui_only_search, push_view_ui); [|apply ui_only_refl].
       exists MoNormal, "", (command_input st), (force_next_destructive st). split; [by right|]. by_fields st. }
  all: destruct (current_view st); try (split; [done|]; try apply push_view_ui; apply ui_only_refl).
  all: try (destruct (_ !! _); cbn; split; try done; try apply push_view_ui; apply ui_only_refl).
  all: destruct (LIBRARY !! _); [|split; [done|apply ui_only_refl]]; destruct (head _); cbn; split; try done;
    [apply same_but_ui_refl|apply fail_with_ui].
Qed.

(** [r] is what the handler of [a0] gives in a state that differs from [st] in
    the interface only. *)
Definition handled_as (env : Env) (st : AppState) (force : bool) (a0 : Action) (r : nat -> option Step) : Prop :=
  exists st0, is_leaf a0 = true /\ same_but_ui st st0 /\ force_next_destructive st0 = force /\
    forall n, r n = Some (update_leaf env st0 a0).
Definition unhandled (st : AppState) (force : bool) (r : nat -> option Step) : Prop :=
  exists st1, ui_only st st1 /\ force_next_destructive st1 = force /\ forall n, r n = Some (st1, None).

#[local] Opaque parse_command_action handle_select.

Lemma select_decomposed env st k :
  (exists a0, indirect a0 = true /\
     handled_as env st (force_next_destructive st) a0 (fun n => update_fuel (S (S k) + n) env st AcSelect)) \/
  unhandled st (force_next_destructive st) (fun n => update_fuel (S (S k) + n) env st AcSelect).
Proof.
  pose proof (handle_select_ui env st) as H. pose proof (handle_select_indirect env st) as Hi.
  destruct (handle_select env st) as [st' [a0|]] eqn:E; destruct H as [Hf Hui].
  - left. exists a0. specialize (Hi _ _ eq_refl). split; [done|]. exists st'. split; [by apply indirect_leaf|].
    split; [done|]. split; [done|]. intros n. change (S (S k) + n) with (S (S (k + n))).
    rewrite update_fuel_select, E. by apply update_fuel_leaf, indirect_leaf.
  - right. exists st'. split; [done|]. split; [done|]. intros n. change (S (S k) + n) with (S (S (k + n))).
    by rewrite update_fuel_select, E.
Qed.
Lemma command_decomposed env st k :
  (exists a0, indirect a0 = true /\
     handled_as env st (force_next_destructive st) a0 (fun n => update_fuel (S (S k) + n) env st AcCommandSubmit)) \/
  unhandled st (force_next_destructive st) (fun n => update_fuel (S (S k) + n) env st AcCommandSubmit).
Proof.
  destruct (parse_command_action (command_input st)) as [a0|] eqn:E.
  - left. exists a0. apply parse_command_indirect in E as Hi. split; [done|].
    exists (st <| mode := MoNormal |> <| command_input := "" |>). split; [by apply indirect_leaf|].
    split; [apply set_command_ui|]. split; [done|]. intros n. change (S (S k) + n) with (S (S (k + n))).
    rewrite update_fuel_command, E. by apply update_fuel_leaf, indirect_leaf.
  - right. eexists. split; [apply same_ui_only, set_command_ui|]. split; [done|].
    intros n. change (S (S k) + n) with (S (S (k + n))). by rewrite update_fuel_command, E.
Qed.

(** Two levels, when no confirmation is open. *)
Lemma nested_decomposed env st a :
  is_normal (mode st) = true ->
  (exists a0, (a0 = a \/ indirect a0 = true) /\
     handled_as env st (force_next_destructive st) a0 (fun n => update_fuel (2 + n) env st a)) \/
  unhandled st (force_next_destructive st) (fun n => update_fuel (2 + n) env st a).
Proof.
  intros Hm. destruct (is_leaf a) eqn:El.
  { left. exists a. split; [by left|]. exists st. split; [done|]. split; [apply same_but_ui_refl|]. split; [done|].
    intros n. by apply update_fuel_leaf. }
  destruct a; try done.
  - destruct (select_decomposed env st 0) as [(a0 & Hi & H)|H]; [left; eauto|by right].
  - destruct (command_decomposed env st 0) as [(a0 & Hi & H)|H]; [left; eauto|by right].
  - right. exists st. split; [apply ui_only_refl|]. split; [done|]. intros n.
    change (2 + n) with (S (S n)). rewrite update_fuel_accept. by destruct (mode st).
  - right. exists st. split; [apply ui_only_refl|]. split; [done|]. intros n.
    change (2 + n) with (S (S n)). rewrite update_fuel_force. by destruct (mode st).
Qed.

(** The break-glass key on an open confirmation. *)
Definition breaks_glass (st : AppState) (a : Action) : bool :=
  match a, mode st with AcConfirmForce, MoConfirm _ _ => true | _, _ => false end.
Definition settle (broken : bool) (s : Step) : Step :=
  if broken then (s.1 <| force_next_destructive := false |>, s.2) else s.
(** Where the handled action comes from. *)
Definition origin (st : AppState) (a a0 : Action) : Prop :=
  a0 = a \/ indirect a0 = true \/ exists d, mode st = MoConfirm d a0.

Lemma confirm_decomposed env st a f :
  (exists a0, (a0 = a \/ indirect a0 = true) /\ handled_as env st f a0 (fun n =>
     update_fuel (2 + n) env (st <| mode := MoNormal |> <| force_next_destructive := f |>) a)) \/
  unhandled st f (fun n => update_fuel (2 + n) env (st <| mode := MoNormal |> <| force_next_destructive := f |>) a).
Proof.
  assert (same_but_ui st (st <| mode := MoNormal |> <| force_next_destructive := f |>)) as Hui.
  { eapply same_but_ui_trans; [apply set_mode_ui|apply set_force_ui]. }
  pose proof (nested_decomposed env (st <| mode := MoNormal |> <| force_next_destructive := f |>) a) as H.
  specialize (H eq_refl). destruct H as [(a0 & Hor & st0 & Hl & Hs & Hf & Hn)|(st1 & Hs & Hf & Hn)].
  - left. exists a0. split; [done|]. exists st0. split; [done|]. split; [exact (same_but_ui_trans _ _ _ Hui Hs)|]. by split.
  - right. exists st1. split; [exact (ui_only_same _ _ _ Hui Hs)|]. by split.
Qed.

Lemma set_force_self st m f :
  force_next_destructive st = f -> st <| mode := m |> <| force_next_destructive := f |> = st <| mode := m |>.
Proof. intros <-. by_fields st. Qed.
Lemma ui_only_force st st1 f : ui_only st st1 -> ui_only st (st1 <| force_next_destructive := f |>).
Proof.
  intros (m & q & c & f' & vs & i & e & t & Hm & ->). exists m, q, c, f, vs, i, e, t. split; [done|]. by_fields st.
Qed.

Lemma update_decomposed env st a :
  (exists a0 st0, is_leaf a0 = true /\ same_but_ui st st0 /\
     force_next_destructive st0 = breaks_glass st a || force_next_destructive st /\ origin st a a0 /\
     forall n, update_fuel (3 + n) env st a = Some (settle (breaks_glass st a) (update_leaf env st0 a0))) \/
  (exists st1, ui_only st st1 /\
     force_next_destructive st1 = (if breaks_glass st a then false else force_next_destructive st) /\
     forall n, update_fuel (3 + n) env st a = Some (st1, None)).
Proof.
  destruct (is_leaf a) eqn:El.
  { left. exists a, st. split; [done|]. split; [apply same_but_ui_refl|].
    assert (breaks_glass st a = false) as -> by by destruct a. split; [done|]. split; [by left|].
    intros n. by rewrite (update_fuel_leaf (2 + n)). }
  destruct a; try done; unfold breaks_glass.
  - destruct (select_decomposed env st 1) as [(a0 & Hi & st0 & Hl & Hs & Hf & Hn)|(st1 & Hs & Hf & Hn)].
    + left. exists a0, st0. repeat (split; [done|]). split; [by right; left|]. exact Hn.
    + right. by exists st1.
  - destruct (command_decomposed env st 1) as [(a0 & Hi & st0 & Hl & Hs & Hf & Hn)|(st1 & Hs & Hf & Hn)].
    + left. exists a0, st0. repeat (split; [done|]). split; [by right; left|]. exact Hn.
    + right. by exists st1.
  - destruct (mode st) as [| | | | | |d a| | | |] eqn:Em;
      try (right; exists st; split; [apply ui_only_refl|]; split; [done|]; intros n; change (3 + n) with (S (2 + n)); rewrite update_fuel_accept; by rewrite Em).
    pose proof (confirm_decomposed env st a (force_next_destructive st)) as H.
    rewrite (set_force_self st MoNormal _ eq_refl) in H.
    destruct H as [(a0 & Hor & st0 & Hl & Hs & Hf & Hn)|(st1 & Hs & Hf & Hn)].
    + left. exists a0, st0. repeat (split; [done|]). split.
      * destruct Hor as [->|]; [right; right; eauto|by right; left].
      * intros n. specialize (Hn n). change (3 + n) with (S (2 + n)). rewrite update_fuel_accept, Em. exact Hn.
    + right. exists st1. repeat (split; [done|]). intros n. specialize (Hn n).
      change (3 + n) with (S (2 + n)). rewrite update_fuel_accept, Em. exact Hn.
  - destruct (mode st) as [| | | | | |d a| | | |] eqn:Em;
      try (right; exists st; split; [apply ui_only_refl|]; split; [done|]; intros n; change (3 + n) with (S (2 + n)); rewrite update_fuel_force; by rewrite Em).
    destruct (confirm_decomposed env st a true) as [(a0 & Hor & st0 & Hl & Hs & Hf & Hn)|(st1 & Hs & Hf & Hn)].
    + left. exists a0, st0. repeat (split; [done|]). split.
      * destruct Hor as [->|]; [right; right; eauto|by right; left].
      * intros n. specialize (Hn n). change (3 + n) with (S (2 + n)). rewrite update_fuel_force, Em, Hn.
        unfold settle. by destruct (update_leaf env st0 a0).
    + right. exists (st1 <| force_next_destructive := false |>). split; [by apply ui_only_force|]. split; [done|].
      intros n. specialize (Hn n). change (3 + n) with (S (2 + n)). by rewrite update_fuel_force, Em, Hn.
Qed.

(** [update] never runs out of levels, and more levels change nothing. *)
Lemma update_total env st a n : update_fuel (UPDATE_DEPTH + n) env st a = Some (update env st a).
Proof.
  unfold update. destruct (update_decomposed env st a) as [(a0 & st0 & _ & _ & _ & _ & H)|(st1 & _ & _ & H)];
    pose proof (H 0) as H0; unfold UPDATE_DEPTH; rewrite (H n); change (3 + 0) with 3 in H0; by rewrite H0.
Qed.

(** The two ways [update] can end. *)
Lemma update_cases env st a :
  (exists a0 st0, is_leaf a0 = true /\ same_but_ui st st0 /\
     force_next_destructive st0 = breaks_glass st a || force_next_destructive st /\ origin st a a0 /\
     update env st a = settle (breaks_glass st a) (update_leaf env st0 a0)) \/
  (exists st1, ui_only st st1 /\
     force_next_destructive st1 = (if breaks_glass st a then false else force_next_destructive st) /\
     update env st a = (st1, None)).
Proof.
  pose proof (update_total env st a 0) as Ht.
  destruct (update_decomposed env st a) as [(a0 & st0 & H1 & H2 & H3 & H4 & H)|(st1 & H1 & H2 & H)];
    specialize (H 0); change (UPDATE_DEPTH + 0) with (3 + 0) in Ht; rewrite H in Ht; injection Ht as Ht.
  - left. exists a0, st0. done.
  - right. exists st1. done.
Qed.

(** * The operation queue: garbage collection and persistence

    [drop_first] is the plain reading of a pass ("drop the oldest [k] that
    match"); [drop_oldest_spec] shows that the index loop does that. *)
Fixpoint drop_first (f : QueuedOp -> bool) (k : nat) (q : list QueuedOp) : list QueuedOp :=
  match q, k with
  | [], _ => []
  | _, 0 => q
  | x :: q', S k' => if f x then drop_first f k' q' else x :: drop_first f k q'
  end.

Definition pick (f : QueuedOp -> bool) (iq : nat * QueuedOp) : option nat := if f iq.2 then Some iq.1 else None.
Definition match_indices (f : QueuedOp -> bool) (q : list QueuedOp) : list nat :=
  omap (pick f) (imap (fun i q => (i, q)) q).
Lemma omap_pick f (q : list QueuedOp) (g : nat -> nat) :
  omap (pick f) (imap (fun i q => (g i, q)) q) = g <$> match_indices f q.
Proof.
  unfold match_indices. revert g. induction q as [|y q IH]; intros g; [done|]. rewrite !imap_cons.
  change (imap ((fun i q => (g i, q)) ∘ S) q) with (imap (fun i q => ((g ∘ S) i, q)) q).
  change (imap ((fun i (q : QueuedOp) => (i, q)) ∘ S) q) with (imap (fun i q => (S i, q)) q).
  cbn [omap list_omap]. rewrite (IH (g ∘ S)), (IH S).
  assert (forall b, pick f (b, y) = if f y then Some b else None) as Hp by done.
  rewrite !Hp, list_fmap_compose. by destruct (f y).
Qed.
Lemma match_indices_cons f x q :
  match_indices f (x :: q) = (if f x then [0] else []) ++ (S <$> match_indices f q).
Proof.
  unfold match_indices at 1. rewrite imap_cons.
  change (imap ((fun i (q : QueuedOp) => (i, q)) ∘ S) q) with (imap (fun i q => (S i, q)) q).
  cbn [omap list_omap]. rewrite (omap_pick f q S).
  assert (forall b, pick f (b, x) = if f x then Some b else None) as Hp by done.
  rewrite Hp. by destruct (f x).
Qed.

Definition delete_all (l : list nat) (q : list QueuedOp) : list QueuedOp := foldl (fun q i => delete i q) q l.
Lemma remove_victims_all l k q :
  length l <= k -> remove_victims l k q = delete_all l q.
Proof.
  revert k q. induction l as [|i l IH]; intros k q Hk; [done|]. simpl in *. case_bool_decide.
  - destruct l; [done|]. simpl in Hk. lia.
  - apply IH. lia.
Qed.
Lemma delete_all_S l x q :
  delete_all (S <$> l) (x :: q) = x :: delete_all l q.
Proof. revert q. induction l as [|i l IH]; intros q; [done|]. simpl. apply IH. Qed.
Lemma delete_all_app l1 l2 q : delete_all (l1 ++ l2) q = delete_all l2 (delete_all l1 q).
Proof. apply foldl_app. Qed.
Lemma rev_fmap_S (l : list nat) : rev (S <$> l) = S <$> rev l.
Proof. induction l as [|i l IH]; [done|]. rewrite fmap_cons. cbn [rev]. by rewrite IH, fmap_app. Qed.
Lemma take_fmap_S k l : take k (S <$> l) = S <$> take k l.
Proof. by rewrite fmap_take. Qed.

Lemma drop_oldest_spec f k q : drop_oldest f k q = drop_first f k q.
Proof.
  unfold drop_oldest. change (victim_indices f k q) with (take k (match_indices f q)).
  rewrite remove_victims_all by (rewrite List.length_rev, length_take; lia).
  revert k. induction q as [|x q IH]; intros k; [by destruct k|].
  rewrite match_indices_cons. destruct k as [|k]; [done|]. cbn [drop_first]. destruct (f x).
  - cbn [app take rev]. rewrite take_fmap_S, rev_fmap_S, delete_all_app, delete_all_S. apply IH.
  - cbn [app]. rewrite take_fmap_S, rev_fmap_S, delete_all_S, IH. done.
Qed.

(** ** What a pass keeps *)
Lemma drop_first_sublist f k q : drop_first f k q `sublist_of` q.
Proof.
  revert k. induction q as [|x q IH]; intros k; [by destruct k|]. destruct k as [|k]; [done|]. simpl.
  destruct (f x); [by apply sublist_cons|by apply sublist_skip].
Qed.
Definition count_op (f : QueuedOp -> bool) (q : list QueuedOp) : nat := length (List.filter f q).
Lemma drop_first_count f k q : count_op f (drop_first f k q) = count_op f q - k.
Proof.
  unfold count_op. revert k. induction q as [|x q IH]; intros k; [by destruct k|].
  destruct k as [|k]; [by rewrite Nat.sub_0_r|]. simpl. destruct (f x) eqn:E; simpl; rewrite ?E; simpl; rewrite IH; lia.
Qed.
(** Entries it does not look at stay, in order. *)
Lemma drop_first_others f g k q :
  (forall x, g x = true -> f x = false) -> List.filter g (drop_first f k q) = List.filter g q.
Proof.
  intros Hfg. revert k. induction q as [|x q IH]; intros k; [by destruct k|]. destruct k as [|k]; [done|].
  simpl. destruct (f x) eqn:E; simpl; rewrite IH; [|done].
  destruct (g x) eqn:Eg; [|done]. apply Hfg in Eg. congruence.
Qed.

Lemma cut_front_drop q : cut_front q = drop (length q - HARD_CAP) q.
Proof.
  induction q as [|x q IH]; [done|]. simpl cut_front. case_bool_decide as H; simpl length in *.
  - rewrite IH. replace (S (length q) - HARD_CAP) with (S (length q - HARD_CAP)) by lia. done.
  - by replace (S (length q) - HARD_CAP) with 0 by lia.
Qed.
Lemma filter_sublist {A} (f : A -> bool) l : List.filter f l `sublist_of` l.
Proof. induction l as [|x l IH]; [done|]. simpl. destruct (f x); [by apply sublist_skip|by apply sublist_cons]. Qed.
Lemma sublist_count f q q' : q `sublist_of` q' -> count_op f q <= count_op f q'.
Proof.
  unfold count_op. induction 1 as [|x l1 l2 _ IH|x l1 l2 _ IH]; simpl; [done|destruct (f x); simpl; lia..].
Qed.
Lemma filter_all {A} (f g : A -> bool) l :
  (forall x, f x = true -> g x = true) -> List.filter f (List.filter g l) = List.filter f l.
Proof.
  intros H. induction l as [|x l IH]; [done|]. simpl. destruct (g x) eqn:Eg; simpl; rewrite IH; [done|].
  destruct (f x) eqn:Ef; [|done]. apply H in Ef. congruence.
Qed.

Section gc.
Context (q : list QueuedOp) (now : N).
Let fresh := List.filter (is_fresh now) q.
Let capped :=
  if bool_decide (ERROR_KEEP < count_op is_error_op fresh)
  then drop_first is_error_op (count_op is_error_op fresh - ERROR_KEEP) fresh else fresh.
Let trimmed :=
  if bool_decide (HARD_CAP < length capped)
  then drop_first (fun op => negb (is_pending_op op)) (length capped - HARD_CAP) capped else capped.

Lemma gc_passes_eq : gc_passes q now = drop (length trimmed - HARD_CAP) trimmed.
Proof.
  unfold gc_passes, trimmed, capped, fresh, count_op. rewrite cut_front_drop, !drop_oldest_spec. done.
Qed.
Lemma capped_sublist : capped `sublist_of` fresh.
Proof. unfold capped. case_bool_decide; [apply drop_first_sublist|done]. Qed.
Lemma trimmed_sublist : trimmed `sublist_of` capped.
Proof. unfold trimmed. case_bool_decide; [apply drop_first_sublist|done]. Qed.
Lemma gc_sublist : gc_passes q now `sublist_of` q.
Proof.
  rewrite gc_passes_eq. trans trimmed; [apply sublist_drop|]. trans capped; [apply trimmed_sublist|].
  trans fresh; [apply capped_sublist|apply filter_sublist].
Qed.
Lemma gc_errors : count_op is_error_op (gc_passes q now) <= ERROR_KEEP.
Proof.
  rewrite gc_passes_eq. trans (count_op is_error_op capped).
  - apply sublist_count. trans trimmed; [apply sublist_drop|apply trimmed_sublist].
  - unfold capped. case_bool_decide as H; [rewrite drop_first_count; lia|lia].
Qed.
Lemma pending_kept : List.filter is_pending_op trimmed = List.filter is_pending_op q.
Proof.
  assert (List.filter is_pending_op capped = List.filter is_pending_op q) as Hc.
  { trans (List.filter is_pending_op fresh).
    - unfold capped. case_bool_decide; [|done]. apply drop_first_others.
      intros x. unfold is_pending_op, is_error_op. by destruct (op_status x).
    - apply filter_all. intros x. unfold is_pending_op, is_fresh. by destruct (op_status x). }
  rewrite <- Hc. unfold trimmed. case_bool_decide; [|done]. apply drop_first_others. intros x ->. done.
Qed.
(** Once pending entries are the only excess. *)
Lemma trimmed_length : length trimmed <= Nat.max HARD_CAP (count_op is_pending_op q).
Proof.
  assert (count_op is_pending_op trimmed = count_op is_pending_op q) as <- by (unfold count_op; by rewrite pending_kept).
  assert (forall l, length l = count_op is_pending_op l + count_op (fun op => negb (is_pending_op op)) l) as Hsplit.
  { unfold count_op. induction l as [|x l IH]; [done|]. simpl. destruct (is_pending_op x); simpl; lia. }
  unfold trimmed. case_bool_decide as H; [|lia].
  rewrite (Hsplit (drop_first _ _ _)), drop_first_count.
  pose proof (Hsplit capped).
  assert (count_op is_pending_op (drop_first (fun op => negb (is_pending_op op)) (length capped - HARD_CAP) capped)
          = count_op is_pending_op capped) as Hp.
  { unfold count_op. by rewrite drop_first_others by by intros x ->. }
  lia.
Qed.
End gc.

(** Garbage collection keeps the queue small and loses nothing that still
    matters: at most 200 entries remain, at most 50 of them failed and no success
    older than five minutes, what remains is in the old order, and as long as at
    most 200 operations are pending every pending operation remains. *)
Lemma gc_bounded q now :
  let '(q', evicted) := garbage_collect q now in
  length q' <= HARD_CAP /\ count_op is_error_op q' <= ERROR_KEEP /\ Forall (fun op => is_fresh now op = true) q' /\
  q' `sublist_of` q /\ evicted = length q - length q' /\
  (count_op is_pending_op q <= HARD_CAP -> List.filter is_pending_op q' = List.filter is_pending_op q).
Proof.
  unfold garbage_collect. pose proof (gc_sublist q now) as Hsub. split; [|split; [apply gc_errors|]].
  { rewrite gc_passes_eq, length_drop. lia. }
  split; [|split; [done|split; [done|]]].
  - apply Forall_forall. intros op Hop. rewrite gc_passes_eq in Hop.
    assert (op ∈ List.filter (is_fresh now) q) as Hin.
    { eapply elem_of_submseteq; [exact Hop|]. apply sublist_submseteq.
      etrans; [apply sublist_drop|]. etrans; [apply trimmed_sublist|apply capped_sublist]. }
    by apply list_elem_of_In, List.filter_In in Hin as [_ Hin].
  - intros Hp. pose proof (trimmed_length q now) as Hl. rewrite gc_passes_eq.
    assert (forall n (l : list QueuedOp), n = 0 -> drop n l = l) as Hz by by intros ? ? ->.
    rewrite Hz by lia. apply pending_kept.
Qed.
