(* ===== verification/AppRunSpec.v ===== *)
(** * Runs of the reducer

    [leaf_queue] says what every handler does to the operation queue, and
    [leaf_frame] what it does to the rest of the invariant; through
    [update_cases] both hold of [update].  [app_invariant] and
    [break_glass_needed] are the claims; the queue's own theorem is in
    [AppCache]. *)

From S2P Require Import Prelude.
From S2P Require Import ApiError.
From S2P Require Import Guest.
From S2P Require Import SnapTree.
From S2P Require Import Alerts.
From S2P Require Import IsoLibrary.
From S2P Require Import AppModel.
From S2P Require Import AppUpdate.
From S2P Require Import AppSpec.

(** ** Helpers that leave most fields alone *)
Lemma enqueue_all_queue env force acts st :
  op_queue (enqueue_all env force acts st) =
    op_queue st ++ imap (fun i a => (if force then QueuedOp_new_force else QueuedOp_new) env a (guests st)
                                      (op_seq st + N.of_nat i)%N) acts
  /\ op_seq (enqueue_all env force acts st) = (op_seq st + N.of_nat (length acts))%N.
Proof.
  unfold enqueue_all. revert st. induction acts as [|a acts IH]; intros st; simpl.
  { by rewrite app_nil_r, N.add_0_r. }
  destruct (IH (enqueue env force a st)) as [-> ->]. cbn [enqueue op_queue op_seq guests]. simpl.
  split; [|lia]. rewrite <- app_assoc. simpl. f_equal. f_equal.
  { by rewrite N.add_0_r. }
  apply imap_ext. intros i x _. cbn. f_equal. lia.
Qed.
Lemma enqueue_all_keeps env force acts st :
  exists q d n, enqueue_all env force acts st = st <| op_queue := q |> <| queue_dirty := d |> <| op_seq := n |>.
Proof.
  unfold enqueue_all. revert st. induction acts as [|a acts IH]; intros st; simpl.
  { exists (op_queue st), (queue_dirty st), (op_seq st). by_fields st. }
  destruct (IH (enqueue env force a st)) as (q & d & n & ->). exists q, d, n. by_fields st.
Qed.
Lemma load_timeline_keeps env st :
  exists s p, load_timeline env st = st <| timeline_snapshot := s |> <| timeline_prev_snapshot := p |>.
Proof.
  unfold load_timeline. cbv zeta.
  destruct (load_state_at env (profile_label st) (stamp st (timeline_index st))) as [snap|err];
    (case_bool_decide; [destruct (load_state_at _ _ _) as [prev|err']|]).
  1: exists (Some snap), (Some prev); by_fields st.
  1: exists (Some snap), (timeline_prev_snapshot st); by_fields st.
  1: exists (Some snap), None; by_fields st.
  1: exists (timeline_snapshot st), (Some prev); by_fields st.
  1: exists (timeline_snapshot st), (timeline_prev_snapshot st); by_fields st.
  exists (timeline_snapshot st), None; by_fields st.
Qed.
Definition same_queue (st st' : AppState) : Prop := op_queue st' = op_queue st /\ op_seq st' = op_seq st.
Lemma release_view_keeps v st :
  same_queue st (release_view v st) /\ force_next_destructive (release_view v st) = force_next_destructive st /\
  nav_stack (release_view v st) = nav_stack st /\ mode (release_view v st) = mode st /\
  guests (release_view v st) = guests st /\
  timeline_timestamps (release_view v st) = timeline_timestamps st /\
  timeline_index (release_view v st) = timeline_index st.
Proof. unfold same_queue. by destruct v. Qed.
Lemma pop_view_keeps st :
  same_queue st (pop_view st).2 /\ force_next_destructive (pop_view st).2 = force_next_destructive st /\
  mode (pop_view st).2 = mode st /\ guests (pop_view st).2 = guests st /\
  timeline_timestamps (pop_view st).2 = timeline_timestamps st /\
  timeline_index (pop_view st).2 = timeline_index st.
Proof.
  unfold pop_view. case_bool_decide; [|done]. cbn.
  destruct (last (nav_stack st)) as [v|]; [|done].
  by destruct (release_view_keeps v st) as ([] & ? & ? & ? & ? & ? & ?).
Qed.
Lemma removelast_head {A} (l : list A) : 1 < length l -> head (removelast l) = head l.
Proof. destruct l as [|x [|y l]]; simpl; [lia..|done]. Qed.
Lemma pop_view_head st : head (nav_stack (pop_view st).2) = head (nav_stack st).
Proof.
  unfold pop_view. case_bool_decide as H; [|done]. cbn.
  assert (nav_stack match last (nav_stack st) with Some v => release_view v st | None => st end = nav_stack st) as ->.
  { destruct (last _) as [v|]; [|done]. by destruct (release_view_keeps v st) as (_ & _ & ? & _). }
  by apply removelast_head.
Qed.
Lemma head_snoc {A} (l l' : list A) x : head l = Some x -> head (l ++ l') = Some x.
Proof. by destruct l. Qed.

(** ** The invariant of the state *)
Definition timeline_ok (st : AppState) : Prop :=
  timeline_timestamps st = [] \/ timeline_index st < length (timeline_timestamps st).
Definition picker_ok (st : AppState) : Prop :=
  match mode st with
  | MoProfilePicker profiles selected => selected < Nat.max 1 (length profiles)
  | _ => True
  end.
Record frame_ok (st : AppState) : Prop := mkFrame {
  fr_root : head (nav_stack st) = Some VwDashboard;
  fr_timeline : timeline_ok st;
  fr_picker : picker_ok st;
}.

(** The fields the invariant reads. *)
Definition core (st : AppState) := (nav_stack st, timeline_timestamps st, timeline_index st, mode st).
Lemma frame_core st st' : core st' = core st -> frame_ok st -> frame_ok st'.
Proof.
  unfold core. intros [= Hn Ht Hi Hm] [H1 H2 H3].
  split; unfold timeline_ok, picker_ok in *; by rewrite ?Hn, ?Ht, ?Hi, ?Hm.
Qed.
(** A change of mode and of the views above the root. *)
Lemma frame_views st st' :
  head (nav_stack st') = head (nav_stack st) \/ (exists vs, nav_stack st' = nav_stack st ++ vs) ->
  timeline_timestamps st' = timeline_timestamps st -> timeline_index st' = timeline_index st ->
  (mode st' = mode st \/ match mode st' with MoProfilePicker _ i => i = 0 | _ => True end) ->
  frame_ok st -> frame_ok st'.
Proof.
  intros Hn Ht Hi Hm [H1 H2 H3]. split.
  - destruct Hn as [->|[vs ->]]; [done|by apply head_snoc].
  - unfold timeline_ok. by rewrite Ht, Hi.
  - unfold picker_ok in *. destruct Hm as [->|Hm]; [done|]. destruct (mode st'); try done. subst. lia.
Qed.
Ltac frame_by_views := apply frame_views; cbn; eauto.

Lemma frame_timeline env st ts i :
  i < length ts -> frame_ok st ->
  frame_ok (load_timeline env (st <| timeline_timestamps := ts |> <| timeline_index := i |>)).
Proof.
  intros Hi [H1 H2 H3]. destruct (load_timeline_keeps env (st <| timeline_timestamps := ts |> <| timeline_index := i |>))
    as (s & p & ->). split; cbn; [done|by right|done].
Qed.
Lemma frame_push v st : frame_ok st -> frame_ok (push_view v st).
Proof. frame_by_views. Qed.
Lemma frame_enqueue env force acts st : frame_ok st -> frame_ok (enqueue_all env force acts st).
Proof. destruct (enqueue_all_keeps env force acts st) as (q & d & n & ->). by apply frame_core. Qed.
Lemma frame_fail env msg st : frame_ok st -> frame_ok (fail_with env msg st).
Proof. by apply frame_core. Qed.
Lemma frame_pop st : frame_ok st -> frame_ok (pop_view st).2.
Proof.
  destruct (pop_view_keeps st) as (_ & _ & Hm & _ & Ht & Hi). apply frame_views; [|done|done|by left].
  left. apply pop_view_head.
Qed.
Lemma frame_mode m st :
  match m with MoProfilePicker _ i => i = 0 | _ => True end -> frame_ok st -> frame_ok (st <| mode := m |>).
Proof. intros Hm. apply frame_views; cbn; eauto. Qed.
Create HintDb frame.
#[export] Hint Resolve frame_push frame_enqueue frame_fail frame_pop frame_mode frame_timeline : frame.

Lemma frame_handlers env st :
  frame_ok st ->
  (forall vmid f, frame_ok (on_stop_guest env vmid f st).1) /\ (forall vmid, frame_ok (on_restart_guest env vmid st).1) /\
  (forall vmid, frame_ok (on_delete_guest env vmid st).1) /\ (forall vmid t, frame_ok (on_migrate_guest env vmid t st).1) /\
  (forall vmid n, frame_ok (on_create_snapshot env vmid n st).1) /\
  (forall i n s, frame_ok (on_download_iso env i n s st).1).
Proof.
  intros Hf. split_and!; intros.
  - unfold on_stop_guest. repeat case_match; by apply (frame_core st).
  - unfold on_restart_guest. repeat case_match; by apply (frame_core st).
  - unfold on_delete_guest. repeat case_match; by apply (frame_core st).
  - unfold on_migrate_guest. cbv zeta. repeat case_match; by apply (frame_core st).
  - unfold on_create_snapshot. by destruct (guest_block_reason _ _ _); apply (frame_core st).
  - unfold on_download_iso. destruct (by_id i); [|by apply (frame_core st)].
    destruct (checksum _); [|by apply (frame_core st)]. cbv zeta. repeat case_match; by apply (frame_core st).
Qed.
Lemma frame_navigation env st :
  frame_ok st -> frame_ok (on_navigate_down env st) /\ frame_ok (on_navigate_up st).
Proof.
  intros Hf. pose proof (fr_picker _ Hf) as Hp. unfold picker_ok in Hp. split.
  - unfold on_navigate_down. destruct (mode st) eqn:Em;
      try (destruct (_ && _); [by apply (frame_core st)|done]).
    case_bool_decide; [|done]. destruct Hf as [H1 H2 H3]. split; [done..|]. cbn. lia.
  - unfold on_navigate_up. destruct (mode st) eqn:Em; case_bool_decide; try done; try by apply (frame_core st).
    destruct Hf as [H1 H2 H3]. split; [done..|]. cbn. lia.
Qed.
Lemma frame_tick env st : frame_ok st -> frame_ok (on_tick env st).1.
Proof.
  intros Hf. apply (frame_core st); [|done]. unfold on_tick. cbv zeta.
  destruct (garbage_collect _ _) as [q d]. destruct (error_time st) as [t|]; [destruct (_ <=? _)%N|];
    case_bool_decide; destruct (current_view st); try done; cbn;
    (destruct (last_task_poll st); [destruct (_ <=? _)%N|]); try done;
    by destruct (split_char ":" upid) as [|? [|? ?]].
Qed.
Lemma frame_batches env st :
  frame_ok st -> (forall n, frame_ok (on_evacuate_node env n st)) /\ (forall c, frame_ok (on_execute_broadcast env c st)) /\
  frame_ok (on_enter_timeline env st) /\ frame_ok (on_timeline_prev env st) /\ frame_ok (on_timeline_next env st).
Proof.
  intros Hf. split_and!; intros.
  - unfold on_evacuate_node. cbv zeta. destruct (List.filter _ _); [auto with frame|].
    destruct (omap _ _); auto with frame.
  - unfold on_execute_broadcast. cbv zeta.
    assert (frame_ok (st <| mode := MoNormal |> <| selected_guests := ∅ |>)) by (apply (frame_views st); cbn; eauto).
    destruct (_ <$> _); auto with frame.
  - unfold on_enter_timeline. destruct (get_all_snapshots _ _) as [[|t ts]|]; auto with frame.
    apply frame_push, frame_timeline; [simpl; lia|done].
  - unfold on_timeline_prev. case_bool_decide; [|done]. pose proof (fr_timeline _ Hf) as [Ht|Ht].
    + destruct (load_timeline_keeps env (st <| timeline_index := timeline_index st - 1 |>)) as (s & p & ->).
      destruct Hf as [H1 H2 H3]. split; [done| |done]. by left.
    + destruct (load_timeline_keeps env (st <| timeline_index := timeline_index st - 1 |>)) as (s & p & ->).
      destruct Hf as [H1 H2 H3]. split; [done| |done]. right. cbn. lia.
  - unfold on_timeline_next. case_bool_decide as H; [|done].
    destruct (load_timeline_keeps env (st <| timeline_index := timeline_index st + 1 |>)) as (s & p & ->).
    destruct Hf as [H1 H2 H3]. split; [done| |done]. by right.
Qed.

Lemma frame_small env st :
  frame_ok st ->
  frame_ok (on_back st).1 /\ frame_ok (on_profile_switch st).1 /\
  (forall t, frame_ok (on_select_by_tag env t st)) /\ (forall v s, frame_ok (on_snapshots_loaded env v s st)) /\
  (forall v e, frame_ok (on_ssh_failed env v e st)) /\ frame_ok (on_passphrase_submit st).1 /\
  frame_ok (on_passphrase_cancel st).
Proof.
  intros Hf. split_and!; intros.
  - unfold on_back. destruct (is_normal _); cbn [negb].
    + pose proof (frame_pop st Hf). destruct (pop_view st) as [[] st']; done.
    + by apply (frame_views st); cbn; eauto.
  - unfold on_profile_switch. repeat case_match; cbn [fst]; try done; by apply frame_mode.
  - unfold on_select_by_tag, select_guests. cbv zeta. apply frame_mode; [done|]. case_match; by apply (frame_core st).
  - unfold on_snapshots_loaded. cbv zeta. repeat case_match; by apply (frame_core st).
  - unfold on_ssh_failed. cbv zeta. apply frame_fail. repeat case_match; auto with frame.
  - unfold on_passphrase_submit. case_match; auto. by apply (frame_views st); cbn; eauto.
  - unfold on_passphrase_cancel. cbv zeta.
    assert (frame_ok (st <| command_input := "" |> <| mode := MoNormal |>)) by (by apply (frame_views st); cbn; eauto).
    case_match; auto with frame.
Qed.

Lemma leaf_frame env st a : frame_ok st -> frame_ok (update_leaf env st a).1.
Proof.
  intros Hf. destruct (frame_handlers env st Hf) as (? & ? & ? & ? & ? & ?).
  destruct (frame_navigation env st Hf). destruct (frame_batches env st Hf) as (? & ? & ? & ? & ?).
  destruct (frame_small env st Hf) as (? & ? & ? & ? & ? & ? & ?). pose proof (frame_tick env st Hf).
  destruct a; cbn [update_leaf]; auto with frame; try (by apply (frame_core st)); cbn [fst].
  all: try (apply (frame_views st); cbn; eauto; by destruct (mode st)).
  all: try (unfold on_approval_received, on_status_changed, select_guests, on_passphrase_submit;
            repeat case_match; by apply (frame_core st)).
  all: auto.
  - apply frame_mode; [by destruct (mode st)|done].
  - destruct (in_ssh st); cbn; auto with frame.
  - by apply frame_push, frame_enqueue.
Qed.

(** ** What a handler does to the queue *)
Definition is_dispatch (e : option SideEffect) : bool := match e with Some (SeExecuteQueue _) => true | _ => false end.
Inductive queue_change (env : Env) (st : AppState) (a : Action) : list QueuedOp -> N -> option SideEffect -> Prop :=
  | qc_drop q' e : q' `sublist_of` op_queue st -> is_dispatch e = false -> queue_change env st a q' (op_seq st) e
  | qc_add force acts :
      (force = true -> force_next_destructive st = true) ->
      queue_change env st a (op_queue (enqueue_all env force acts st)) (op_seq (enqueue_all env force acts st)) None
  | qc_run :
      queue_change env st a (mark_running <$> op_queue st) (op_seq st)
        (Some (SeExecuteQueue (List.filter is_pending_op (op_queue st))))
  | qc_status id s q' :
      a = AcQueueOpStatusChanged id s ->
      change_first (fun o => bool_decide (op_id o = id)) (fun o => o <| op_status := s |>) (op_queue st) = Some q' ->
      queue_change env st a q' (op_seq st) None.

Lemma qc_same env st a st' e :
  same_queue st st' -> is_dispatch e = false -> queue_change env st a (op_queue st') (op_seq st') e.
Proof. intros [-> ->] He. by apply qc_drop. Qed.
Definition queue_changed (env : Env) (st : AppState) (a : Action) (r : Step) : Prop :=
  queue_change env st a (op_queue r.1) (op_seq r.1) r.2.
Lemma qc_added env st a r force acts :
  (force = true -> force_next_destructive st = true) -> r.2 = None ->
  op_queue r.1 = op_queue (enqueue_all env force acts st) -> op_seq r.1 = op_seq (enqueue_all env force acts st) ->
  queue_changed env st a r.
Proof. unfold queue_changed. intros Hf -> -> ->. by apply qc_add. Qed.

Lemma same_queue_guest_ops env st :
  (forall vmid f, let r := on_stop_guest env vmid f st in same_queue st r.1 /\ is_dispatch r.2 = false) /\
  (forall vmid, let r := on_restart_guest env vmid st in same_queue st r.1 /\ is_dispatch r.2 = false) /\
  (forall vmid, let r := on_delete_guest env vmid st in same_queue st r.1 /\ is_dispatch r.2 = false) /\
  (forall vmid t, let r := on_migrate_guest env vmid t st in same_queue st r.1 /\ is_dispatch r.2 = false) /\
  (forall vmid n, let r := on_create_snapshot env vmid n st in same_queue st r.1 /\ is_dispatch r.2 = false) /\
  (forall i n s, let r := on_download_iso env i n s st in same_queue st r.1 /\ is_dispatch r.2 = false).
Proof.
  unfold on_stop_guest, on_restart_guest, on_delete_guest, on_migrate_guest, on_create_snapshot, on_download_iso.
  split_and!; intros; cbv zeta; repeat case_match; done.
Qed.
Lemma same_queue_timeline env st :
  same_queue st (on_enter_timeline env st) /\ same_queue st (on_timeline_prev env st) /\
  same_queue st (on_timeline_next env st).
Proof.
  assert (forall x, same_queue x (load_timeline env x)) as H.
  { intros x. by destruct (load_timeline_keeps env x) as (s & p & ->). }
  split_and!.
  - unfold on_enter_timeline. destruct (get_all_snapshots _ _) as [[|t ts]|]; try done. cbv zeta.
    by destruct (H (st <| timeline_timestamps := t :: ts |> <| timeline_index := length (t :: ts) - 1 |>)).
  - unfold on_timeline_prev. case_bool_decide; [|done]. by destruct (H (st <| timeline_index := timeline_index st - 1 |>)).
  - unfold on_timeline_next. case_bool_decide; [|done]. by destruct (H (st <| timeline_index := timeline_index st + 1 |>)).
Qed.
Lemma same_queue_small env st :
  (same_queue st (on_back st).1 /\ is_dispatch (on_back st).2 = false) /\
  (same_queue st (on_profile_switch st).1 /\ is_dispatch (on_profile_switch st).2 = false) /\
  (forall t, same_queue st (on_select_by_tag env t st)) /\ (forall v s, same_queue st (on_snapshots_loaded env v s st)) /\
  (forall v e, same_queue st (on_ssh_failed env v e st)) /\
  (same_queue st (on_passphrase_submit st).1 /\ is_dispatch (on_passphrase_submit st).2 = false) /\
  same_queue st (on_passphrase_cancel st) /\ same_queue st (on_navigate_down env st) /\ same_queue st (on_navigate_up st).
Proof.
  split_and!; intros.
  1-2: unfold on_back; destruct (negb _); [done|]; pose proof (pop_view_keeps st) as [Hp _];
    destruct (pop_view st) as [[] st']; done.
  1-2: unfold on_profile_switch; repeat case_match; done.
  - unfold on_select_by_tag, select_guests. case_match; done.
  - unfold on_snapshots_loaded. repeat case_match; done.
  - unfold on_ssh_failed. cbv zeta. pose proof (pop_view_keeps (st <| mode := MoNormal |>)) as [[Hq Hs] _].
    repeat case_match; done.
  - unfold on_passphrase_submit. case_match; done.
  - unfold on_passphrase_submit. case_match; done.
  - unfold on_passphrase_cancel. cbv zeta.
    pose proof (pop_view_keeps (st <| command_input := "" |> <| mode := MoNormal |>)) as [[Hq Hs] _].
    repeat case_match; done.
  - unfold on_navigate_down. cbv zeta. repeat case_match; done.
  - unfold on_navigate_up. repeat case_match; done.
Qed.
Lemma tick_queue env st a : queue_changed env st a (on_tick env st).
Proof.
  assert (op_queue (on_tick env st).1 = gc_passes (op_queue st) (unix_secs env) /\
          op_seq (on_tick env st).1 = op_seq st /\ is_dispatch (on_tick env st).2 = false) as (Hq & Hs & He).
  { unfold on_tick. cbv zeta. unfold garbage_collect. destruct (error_time st) as [t|]; [destruct (_ <=? _)%N|];
    case_bool_decide; destruct (current_view st); try done; cbn;
    (destruct (last_task_poll st); [destruct (_ <=? _)%N|]); try done;
    by destruct (split_char ":" upid) as [|? [|? ?]]. }
  unfold queue_changed. rewrite Hq, Hs. apply qc_drop; [apply gc_sublist|done].
Qed.
Lemma batch_queue env st a :
  (forall n, queue_changed env st a (on_evacuate_node env n st, None)) /\
  (forall c, queue_changed env st a (on_execute_broadcast env c st, None)).
Proof.
  split; intros.
  - unfold on_evacuate_node. cbv zeta. destruct (List.filter _ _); [by apply qc_same|].
    destruct (omap _ _); [by apply qc_same|]. by apply qc_add.
  - unfold on_execute_broadcast. cbv zeta. destruct (_ <$> _) as [|x l] eqn:E; [by apply qc_same|].
    set (st0 := st <| mode := MoNormal |> <| selected_guests := ∅ |>).
    apply (qc_added env st a _ (force_next_destructive st) (x :: l)); [done|done|..].
    + change (op_queue (enqueue_all env (force_next_destructive st0) (x :: l) st0)
              = op_queue (enqueue_all env (force_next_destructive st) (x :: l) st)).
      by rewrite !(proj1 (enqueue_all_queue _ _ _ _)).
    + change (op_seq (enqueue_all env (force_next_destructive st0) (x :: l) st0)
              = op_seq (enqueue_all env (force_next_destructive st) (x :: l) st)).
      by rewrite !(proj2 (enqueue_all_queue _ _ _ _)).
Qed.

Lemma leaf_queue env st a : queue_changed env st a (update_leaf env st a).
Proof.
  destruct (same_queue_guest_ops env st) as (Hstop & Hrestart & Hdelete & Hmigrate & Hsnap & Hiso).
  destruct (same_queue_timeline env st) as (Hte & Htp & Htn).
  destruct (same_queue_small env st) as ([Hb Hbe] & [Hp Hpe] & Htag & Hsl & Hssh & [Hpp Hppe] & Hpc & Hd & Hu).
  destruct (batch_queue env st a) as [Hev Hbc].
  destruct a; cbn [update_leaf]; try (by apply qc_same); try (by apply qc_same; apply Hstop || apply Hrestart
    || apply Hdelete || apply Hmigrate || apply Hsnap || apply Hiso || apply Htag || apply Hsl || apply Hssh); auto.
  all: try (unfold select_guests, on_approval_received; repeat case_match; by apply qc_same).
  all: try (by apply qc_same; eauto).
  - apply tick_queue.
  - by apply (qc_added _ _ _ _ (force_next_destructive st) [AcMoveDisk vmid disk target_storage delete_source]).
  - by apply (qc_added _ _ _ _ (force_next_destructive st) [AcResizeDisk vmid disk size]).
  - destruct (in_ssh st); [|by apply qc_same]. pose proof (pop_view_keeps (st <| mode := MoNormal |>)) as [Hk _].
    by apply (qc_same env st).
  - by apply (qc_added _ _ _ _ false [a]).
  - by apply (qc_added _ _ _ _ false actions).
  - case_bool_decide; [|by apply qc_same].
    exact (qc_drop env st _ (delete index (op_queue st)) None (sublist_delete _ _) eq_refl).
  - exact (qc_run env st _).
  - unfold on_status_changed. destruct (change_first _ _ _) as [q|] eqn:E; [|by apply qc_same].
    exact (qc_status env st _ id status q eq_refl E).
Qed.

(** ** The break-glass flag and the open confirmation *)
Lemma enqueue_all_force env force acts st :
  force_next_destructive (enqueue_all env force acts st) = force_next_destructive st /\
  mode (enqueue_all env force acts st) = mode st.
Proof. by destruct (enqueue_all_keeps env force acts st) as (q & d & n & ->). Qed.
Lemma load_timeline_force env st :
  force_next_destructive (load_timeline env st) = force_next_destructive st /\ mode (load_timeline env st) = mode st.
Proof. by destruct (load_timeline_keeps env st) as (s & p & ->). Qed.
Lemma pop_view_force st :
  force_next_destructive (pop_view st).2 = force_next_destructive st /\ mode (pop_view st).2 = mode st.
Proof. by destruct (pop_view_keeps st) as (_ & ? & ? & _). Qed.

(** Which action a confirmation can come to hold. *)
Definition confirm_from (st : AppState) (a : Action) (m : AppMode) : Prop :=
  match m with
  | MoConfirm d a' => mode st = MoConfirm d a' \/ a = AcConfirmRequest d a' \/ exists vmid, a' = AcStopGuest vmid true
  | _ => True
  end.
Definition flag_kept (st : AppState) (a : Action) (st' : AppState) : Prop :=
  force_next_destructive st' = force_next_destructive st /\ confirm_from st a (mode st').
Lemma flag_same st a st' :
  force_next_destructive st' = force_next_destructive st -> mode st' = mode st -> flag_kept st a st'.
Proof. intros Hf Hm. split; [done|]. unfold confirm_from. rewrite Hm. destruct (mode st); auto. Qed.
Lemma flag_plain st a st' :
  force_next_destructive st' = force_next_destructive st ->
  match mode st' with MoConfirm _ _ => False | _ => True end -> flag_kept st a st'.
Proof. intros Hf Hm. split; [done|]. unfold confirm_from. by destruct (mode st'). Qed.
Ltac flag := first [by apply flag_same | by apply flag_plain].

Lemma flag_handlers env st a :
  (forall vmid f, flag_kept st a (on_stop_guest env vmid f st).1) /\
  (forall vmid, flag_kept st a (on_restart_guest env vmid st).1) /\
  (forall vmid, flag_kept st a (on_delete_guest env vmid st).1) /\
  (forall vmid t, flag_kept st a (on_migrate_guest env vmid t st).1) /\
  (forall vmid n, flag_kept st a (on_create_snapshot env vmid n st).1) /\
  (forall i n s, flag_kept st a (on_download_iso env i n s st).1) /\
  flag_kept st a (on_enter_timeline env st) /\ flag_kept st a (on_timeline_prev env st) /\
  flag_kept st a (on_timeline_next env st).
Proof.
  unfold on_stop_guest, on_restart_guest, on_delete_guest, on_migrate_guest, on_create_snapshot, on_download_iso,
    on_enter_timeline, on_timeline_prev, on_timeline_next.
  split_and!; intros; cbv zeta; repeat case_match; try flag;
    apply flag_same; cbn; by rewrite ?(proj1 (load_timeline_force _ _)), ?(proj2 (load_timeline_force _ _)).
Qed.
Lemma flag_small env st a :
  flag_kept st a (on_back st).1 /\ flag_kept st a (on_profile_switch st).1 /\
  (forall t, flag_kept st a (on_select_by_tag env t st)) /\ (forall v s, flag_kept st a (on_snapshots_loaded env v s st)) /\
  (forall v e, flag_kept st a (on_ssh_failed env v e st)) /\ flag_kept st a (on_passphrase_submit st).1 /\
  flag_kept st a (on_passphrase_cancel st) /\ flag_kept st a (on_navigate_down env st) /\
  flag_kept st a (on_navigate_up st) /\ flag_kept st a (on_tick env st).1 /\
  (forall n, flag_kept st a (on_evacuate_node env n st)) /\ (forall c, flag_kept st a (on_execute_broadcast env c st)).
Proof.
  split_and!; intros.
  - unfold on_back. destruct (negb _); [flag|]. pose proof (pop_view_force st) as [Hf Hm].
    destruct (pop_view st) as [[] st']; flag.
  - unfold on_profile_switch. repeat case_match; flag.
  - unfold on_select_by_tag, select_guests. cbv zeta. case_match; flag.
  - unfold on_snapshots_loaded. cbv zeta. repeat case_match; flag.
  - unfold on_ssh_failed. cbv zeta. pose proof (pop_view_force (st <| mode := MoNormal |>)) as [Hf Hm].
    repeat case_match; apply flag_plain; cbn; by rewrite ?Hf, ?Hm.
  - unfold on_passphrase_submit. case_match; flag.
  - unfold on_passphrase_cancel. cbv zeta.
    pose proof (pop_view_force (st <| command_input := "" |> <| mode := MoNormal |>)) as [Hf Hm].
    case_match; apply flag_plain; cbn; by rewrite ?Hf, ?Hm.
  - unfold on_navigate_down. cbv zeta. repeat case_match; flag.
  - unfold on_navigate_up. repeat case_match; flag.
  - apply flag_same; unfold on_tick; cbv zeta; destruct (garbage_collect _ _) as [q d]; repeat case_match; done.
  - unfold on_evacuate_node. cbv zeta. repeat case_match; try flag.
    all: apply flag_same; cbn [push_view fst]; by apply enqueue_all_force.
  - unfold on_execute_broadcast. cbv zeta. repeat case_match; try flag.
    match goal with |- context [enqueue_all ?e ?f ?l ?x] => destruct (enqueue_all_force e f l x) as [Hf Hm] end.
    apply flag_plain; [exact Hf|]. unfold push_view. change (mode (?x <| nav_stack := _ |> <| selected_index := _ |>)) with (mode x).
    by rewrite Hm.
Qed.
Lemma leaf_flag env st a : flag_kept st a (update_leaf env st a).1.
Proof.
  destruct (flag_handlers env st a) as (? & ? & ? & ? & ? & ? & ? & ? & ?).
  destruct (flag_small env st a) as (? & ? & ? & ? & ? & ? & ? & ? & ? & ? & ? & ?).
  destruct a; cbn [update_leaf fst]; try flag; auto.
  all: try (unfold select_guests, on_approval_received, on_status_changed; repeat case_match; flag).
  - pose proof (pop_view_force (st <| mode := MoNormal |>)) as [Hf Hm].
    destruct (in_ssh st); [|flag]. apply flag_plain; [exact Hf|]. cbn [fst]. by rewrite Hm.
  - split; [done|]. by right; left.
  - split; [done|]. right; right. by exists vmid.
  - destruct (enqueue_all_force env false actions st) as [Hf Hm]. apply flag_same; [exact Hf|exact Hm].
Qed.

(** * The reducer over whole runs

    From what each handler does ([AppRunSpec]) to what [update] does
    ([update_frame], [update_queue], [update_gate]) and to the states a run can
    reach. *)
(** ** Which effects a handler may return *)
Definition unblocked (st : AppState) (vmid : N) : Prop :=
  forall g, find_guest_in (guests st) vmid = Some g -> is_locked g = false /\ is_ha_managed g = false.
Definition allowed (st : AppState) (e : SideEffect) : Prop :=
  match e with
  | SeStopGuest vmid _ | SeRestartGuest vmid | SeDeleteGuest vmid | SeCreateSnapshot vmid _ => unblocked st vmid
  | SeMigrateGuest node vmid _ =>
      exists g, find_guest_in (guests st) vmid = Some g /\ g_node g = node /\ is_locked g = false
  | SeMoveDisk _ _ _ _ _ _ | SeResizeDisk _ _ _ _ _ => False
  | _ => True
  end.
Lemma block_reason_none st vmid l : guest_block_reason st vmid l = None -> unblocked st vmid.
Proof.
  unfold guest_block_reason, unblocked. intros H g Hg. rewrite Hg in H.
  destruct (is_locked g); [done|]. by destruct (is_ha_managed g).
Qed.
Lemma leaf_gate env st a e :
  force_next_destructive st = false -> (update_leaf env st a).2 = Some e -> allowed st e.
Proof.
  intros Hf. destruct a; cbn [update_leaf snd]; try (intros [= <-]; done); try done.
  - unfold on_back. destruct (negb _); [done|]. destruct (pop_view st) as [[] st']; [done|]. by intros [= <-].
  - unfold on_profile_switch. repeat case_match; try done; by intros [= <-].
  - unfold on_tick. cbv zeta. destruct (garbage_collect _ _).
    destruct (current_view st); try done. repeat case_match; try done; by intros [= <-].
  - unfold on_stop_guest. rewrite Hf. destruct (guest_block_reason st vmid "stop") eqn:E; [done|].
    intros [= <-]. by eapply block_reason_none.
  - unfold on_restart_guest. rewrite Hf. destruct (guest_block_reason st vmid "restart") eqn:E; [done|].
    intros [= <-]. by eapply block_reason_none.
  - unfold on_delete_guest. rewrite Hf. destruct (guest_block_reason st vmid "delete") eqn:E; [done|].
    intros [= <-]. by eapply block_reason_none.
  - unfold on_migrate_guest, migrate_lock. rewrite Hf. cbv zeta. cbn [guests].
    change (guests (st <| active_tasks := _ |>)) with (guests st).
    destruct (find_guest_in (guests st) vmid) as [g|] eqn:E; [|done].
    destruct (is_locked g) eqn:El; [done|]. intros [= <-]. by exists g.
  - unfold on_create_snapshot. destruct (guest_block_reason st vmid "snapshot") eqn:E; [done|].
    intros [= <-]. by eapply block_reason_none.
  - unfold on_download_iso. repeat case_match; try done; by intros [= <-].
  - destruct (in_ssh st); [|done]. by intros [= <-].
  - unfold on_passphrase_submit. case_match; try done. by intros [= <-].
  - destruct (find_guest_in _ _); [|done]. by intros [= <-].
  - destruct (is_empty _); [done|]. by intros [= <-].
Qed.
#[local] Opaque update_leaf.

(** ** From handlers to [update] *)
Lemma same_but_ui_fields st st0 :
  same_but_ui st st0 ->
  op_queue st0 = op_queue st /\ op_seq st0 = op_seq st /\ guests st0 = guests st /\
  (mode st0 = mode st \/ mode st0 = MoNormal) /\ (frame_ok st -> frame_ok st0).
Proof.
  intros (m & q & c & f & Hm & ->). split_and!; [done..| |].
  - cbn. destruct Hm; auto.
  - apply frame_views; cbn; eauto. destruct Hm as [->| ->]; auto.
Qed.
Lemma ui_only_fields st st1 :
  ui_only st st1 ->
  op_queue st1 = op_queue st /\ op_seq st1 = op_seq st /\ (mode st1 = mode st \/ mode st1 = MoNormal) /\
  (frame_ok st -> frame_ok st1).
Proof.
  intros (m & q & c & f & vs & i & e & t & Hm & ->). split_and!; [done..| |].
  - cbn. destruct Hm; auto.
  - apply frame_views; cbn; eauto. destruct Hm as [->| ->]; auto.
Qed.
Lemma settle_fields b r :
  op_queue (settle b r).1 = op_queue r.1 /\ op_seq (settle b r).1 = op_seq r.1 /\ (settle b r).2 = r.2 /\
  mode (settle b r).1 = mode r.1 /\ (frame_ok r.1 -> frame_ok (settle b r).1) /\
  force_next_destructive (settle b r).1 = negb b && force_next_destructive r.1.
Proof. destruct b; [|done]. split_and!; try done. by apply frame_core. Qed.

Lemma update_frame env st a : frame_ok st -> frame_ok (update env st a).1.
Proof.
  intros Hf. destruct (update_cases env st a) as [(a0 & st0 & _ & Hu & _ & _ & ->)|(st1 & Hu & _ & ->)].
  - apply settle_fields, leaf_frame. by apply same_but_ui_fields in Hu as (_ & _ & _ & _ & H); apply H.
  - by apply ui_only_fields in Hu as (_ & _ & _ & H); apply H.
Qed.
Lemma update_force env st a :
  force_next_destructive st = false -> force_next_destructive (update env st a).1 = false.
Proof.
  intros Hf. destruct (update_cases env st a) as [(a0 & st0 & _ & _ & H & _ & ->)|(st1 & _ & H & ->)].
  - rewrite (proj2 (proj2 (proj2 (proj2 (proj2 (settle_fields _ _)))))), (proj1 (leaf_flag env st0 a0)), H, Hf.
    by destruct (breaks_glass st a).
  - rewrite Hf in H. by destruct (breaks_glass st a).
Qed.

(** *** The queue *)
Definition new_ops (env : Env) (force : bool) (gs : list Guest) (n : N) (acts : list Action) : list QueuedOp :=
  imap (fun i a => (if force then QueuedOp_new_force else QueuedOp_new) env a gs (n + N.of_nat i)%N) acts.
(** What a call may do to the queue, given whether the glass is broken. *)
Inductive qstep (env : Env) (gs : list Guest) (glass : bool) (a : Action) (q : list QueuedOp) (n : N) :
    list QueuedOp -> N -> option SideEffect -> Prop :=
  | qs_drop q' e : q' `sublist_of` q -> is_dispatch e = false -> qstep env gs glass a q n q' n e
  | qs_add force acts :
      (force = true -> glass = true) ->
      qstep env gs glass a q n (q ++ new_ops env force gs n acts) (n + N.of_nat (length acts)) None
  | qs_run :
      qstep env gs glass a q n (mark_running <$> q) n (Some (SeExecuteQueue (List.filter is_pending_op q)))
  | qs_status id s q' :
      a = AcQueueOpStatusChanged id s ->
      change_first (fun o => bool_decide (op_id o = id)) (fun o => o <| op_status := s |>) q = Some q' ->
      qstep env gs glass a q n q' n None.

Lemma queue_change_qstep env st a q' n' e :
  queue_change env st a q' n' e ->
  qstep env (guests st) (force_next_destructive st) a (op_queue st) (op_seq st) q' n' e.
Proof.
  destruct 1 as [q' e Hs He|force acts Hf| |id s q' Ha Hq].
  - by apply qs_drop.
  - destruct (enqueue_all_queue env force acts st) as [-> ->]. by apply qs_add.
  - apply qs_run.
  - by apply (qs_status _ _ _ _ _ _ id s).
Qed.
Lemma update_queue env st a :
  force_next_destructive st = false ->
  exists a0, origin st a a0 /\
    qstep env (guests st) (breaks_glass st a) a0 (op_queue st) (op_seq st)
      (op_queue (update env st a).1) (op_seq (update env st a).1) (update env st a).2.
Proof.
  intros Hf. destruct (update_cases env st a) as [(a0 & st0 & _ & Hu & H & Ho & ->)|(st1 & Hu & _ & ->)].
  - exists a0. split; [done|]. apply same_but_ui_fields in Hu as (Hq & Hn & Hg & _).
    destruct (settle_fields (breaks_glass st a) (update_leaf env st0 a0)) as (-> & -> & -> & _).
    pose proof (queue_change_qstep _ _ _ _ _ _ (leaf_queue env st0 a0)) as Hs.
    by rewrite Hq, Hn, Hg, H, Hf, orb_false_r in Hs.
  - exists a. split; [by left|]. apply ui_only_fields in Hu as (Hq & Hn & _). cbn. rewrite Hq, Hn. by apply qs_drop.
Qed.

(** *** Effects *)
Lemma update_gate env st a e :
  force_next_destructive st = false -> breaks_glass st a = false -> (update env st a).2 = Some e -> allowed st e.
Proof.
  intros Hf Hb. destruct (update_cases env st a) as [(a0 & st0 & _ & Hu & H & _ & ->)|(st1 & _ & _ & ->)]; [|done].
  rewrite (proj1 (proj2 (proj2 (settle_fields _ _)))). rewrite Hb, Hf in H. intros He.
  apply leaf_gate in He; [|done]. apply same_but_ui_fields in Hu as (_ & _ & Hg & _).
  unfold allowed, unblocked in *. by rewrite Hg in He.
Qed.

(** *** Confirmations hold what was put in them *)
Lemma update_confirm env st a :
  match mode (update env st a).1 with
  | MoConfirm d a' =>
      mode st = MoConfirm d a' \/ (exists a0, origin st a a0 /\ a0 = AcConfirmRequest d a')
      \/ exists vmid, a' = AcStopGuest vmid true
  | _ => True
  end.
Proof.
  destruct (update_cases env st a) as [(a0 & st0 & _ & Hu & _ & Ho & ->)|(st1 & Hu & _ & ->)].
  - apply same_but_ui_fields in Hu as (_ & _ & _ & Hm & _).
    destruct (settle_fields (breaks_glass st a) (update_leaf env st0 a0)) as (_ & _ & _ & -> & _).
    pose proof (proj2 (leaf_flag env st0 a0)) as Hc. unfold confirm_from in Hc.
    destruct (mode (update_leaf env st0 a0).1); try done.
    destruct Hc as [Hc|[->|Hc]]; [|eauto|by right; right].
    destruct Hm as [Hm|Hm]; rewrite Hc in Hm; [by left|done].
  - apply ui_only_fields in Hu as (_ & _ & Hm & _). cbn. destruct Hm as [->| ->]; [|done].
    destruct (mode st); auto.
Qed.

(** ** Runs *)
Fixpoint run_from (st : AppState) (l : list (Env * Action)) : AppState :=
  match l with [] => st | (env, a) :: l' => run_from (update env st a).1 l' end.
Definition run (l : list (Env * Action)) : AppState := run_from AppState_default l.

Lemma run_from_ind (P : AppState -> Prop) st l :
  P st -> (forall env st a, P st -> P (update env st a).1) -> P (run_from st l).
Proof. intros H0 Hs. revert st H0. induction l as [|[env a] l IH]; intros st H0; [done|]. apply IH. by apply Hs. Qed.
Lemma frame_default : frame_ok AppState_default.
Proof. split; [done|by left|done]. Qed.
Lemma run_frame l : frame_ok (run l) /\ force_next_destructive (run l) = false.
Proof.
  apply (run_from_ind (fun st => frame_ok st /\ force_next_destructive st = false)).
  - split; [apply frame_default|done].
  - intros env st a [Hf Hb]. split; [by apply update_frame|by apply update_force].
Qed.

(** Whatever happens in whatever order, the view stack starts at the
    dashboard (so there is always a current view and leaving views cannot empty
    it), the break-glass flag is down between two events, the timeline position
    is in the range of the timestamps (the code indexes the vector with it and
    would panic otherwise), and the profile picker's cursor is on a profile. *)
Lemma app_invariant l :
  let st := run l in
  head (nav_stack st) = Some VwDashboard /\ force_next_destructive st = false /\
  (timeline_timestamps st = [] \/ timeline_index st < length (timeline_timestamps st)) /\
  (match mode st with
   | MoProfilePicker profiles selected => profiles = [] \/ selected < length profiles
   | _ => True
   end).
Proof.
  destruct (run_frame l) as [[H1 H2 H3] Hf]. cbv zeta. split_and!; [done..|].
  unfold picker_ok in H3. destruct (mode (run l)) as [| | | | | | | | | |profiles selected]; try done.
  destruct profiles; [by left|right]. simpl in *. lia.
Qed.

(** ** The override *)
Definition derived_from (op0 op : QueuedOp) : Prop :=
  op_id op = op_id op0 /\ op_action op = op_action op0 /\ op_bypass_preflight op = op_bypass_preflight op0.
Lemma change_first_spec {A} (f : A -> bool) upd (l l' : list A) :
  change_first f upd l = Some l' ->
  exists l1 x l2, l = l1 ++ x :: l2 /\ l' = l1 ++ upd x :: l2 /\ f x = true.
Proof.
  revert l'. induction l as [|y l IH]; intros l'; [done|]. simpl. destruct (f y) eqn:E.
  - intros [= <-]. by exists [], y, l.
  - destruct (change_first f upd l) as [l0|]; [|done]. intros [= <-].
    destruct (IH _ eq_refl) as (l1 & x & l2 & -> & -> & Hx). by exists (y :: l1), x, l2.
Qed.
Lemma qstep_bypass env gs a q n q' n' e op :
  qstep env gs false a q n q' n' e -> op ∈ q' -> op_bypass_preflight op = true ->
  exists op0, op0 ∈ q /\ derived_from op0 op.
Proof.
  destruct 1 as [q' e Hs He|force acts Hf| |id s q' Ha Hq]; intros Hop Hb.
  - exists op. split; [|done]. by eapply elem_of_submseteq, sublist_submseteq.
  - apply elem_of_app in Hop as [Hop|Hop]; [by exists op|]. exfalso.
    apply list_elem_of_lookup in Hop as [i Hop]. unfold new_ops in Hop. rewrite list_lookup_imap in Hop.
    destruct (acts !! i) as [x|]; simplify_eq/=. destruct force; [by specialize (Hf eq_refl)|].
    unfold QueuedOp_new in Hb. by destruct (describe_op x gs).
  - apply list_elem_of_fmap in Hop as (op0 & -> & H0). exists op0. split; [done|].
    unfold mark_running. by destruct (is_pending_op op0).
  - apply change_first_spec in Hq as (l1 & x & l2 & -> & -> & _).
    apply elem_of_app in Hop as [Hop|[->|Hop]%elem_of_cons].
    + exists op. split; [set_solver|done].
    + exists x. split; [set_solver|done].
    + exists op. split; [set_solver|done].
Qed.

(** The gates hold on every path to an operation (a key, the palette, a
    search hit, an accepted confirmation): unless the break-glass key was pressed
    on an open confirmation, a stop, restart, delete or snapshot goes out only for
    a guest that is neither locked nor under HA, a migration only for a known and
    unlocked guest and from the node it is on, disk changes only through the
    queue, and no operation that skips the pre-flight enters the queue. *)
Lemma break_glass_needed l env a :
  breaks_glass (run l) a = false ->
  (forall e, (update env (run l) a).2 = Some e -> allowed (run l) e) /\
  (forall op, op ∈ op_queue (update env (run l) a).1 -> op_bypass_preflight op = true ->
     exists op0, op0 ∈ op_queue (run l) /\ derived_from op0 op).
Proof.
  intros Hb. destruct (run_frame l) as [_ Hf]. split.
  - intros e. by apply update_gate.
  - intros op Hop Hbp. destruct (update_queue env (run l) a Hf) as (a0 & _ & Hs). rewrite Hb in Hs.
    by eapply qstep_bypass.
Qed.

Definition still_env : Env :=
  mkEnv 0 0 (fun n => (1000000 + n)%N) (fun _ => Ok []) (fun _ _ => Err (bail "none")) (fun s => s) (fun _ _ => None)
    elements (fun m => snd <$> map_to_list m).

Definition held_guest : Guest := {|
  g_vmid := 100; g_name := "web"; g_status := Running; g_guest_type := Qemu; g_node := "pve1"; g_cpus := 2;
  g_mem := 1; g_maxmem := 2; g_disk := 0; g_maxdisk := 0; g_uptime := 1; g_tags := ""; g_lock := "backup";
  g_hastate := ""; g_template := false; g_netin := 0; g_netout := 0 |}.
Definition held_run : list (Env * Action) := [(still_env, AcGuestsLoaded [held_guest] [])].

Example held_guest_refused : (update still_env (run held_run) (AcDeleteGuest 100)).2 = None.
Proof. vm_compute. reflexivity. Qed.
Example held_guest_forced :
  (update still_env (run (held_run ++ [(still_env, AcConfirmRequest "delete?" (AcDeleteGuest 100))])) AcConfirmForce).2
  = Some (SeDeleteGuest 100).
Proof. vm_compute. reflexivity. Qed.
Lemma break_glass_needed_witness :
  breaks_glass (run held_run) (AcStopGuest 100 true) = false /\
  forall e, (update still_env (run held_run) (AcStopGuest 100 true)).2 = Some e -> allowed (run held_run) e.
Proof.
  split; [reflexivity|]. apply (break_glass_needed held_run still_env (AcStopGuest 100 true)). reflexivity.
Defined.
