(* ===== verification/AppCache.v ===== *)
(** * The cache database: app/cache.rs

    One SQLite file per profile: cluster snapshots for the timeline, the
    persisted operation queue, the alert daemon's dedup window and the latest
    drift result.  A table is a list of rows.  An operation is given how the
    file answers ([Io]): a failure to open it, or a failure of a statement or of
    the commit, after which the transaction is rolled back.  [serde_json] is the
    class [Serde]; the row SQLite returns first among rows of the same
    timestamp is the parameter [newest]. *)

From S2P Require Import Prelude.
From S2P Require Import ApiError.
From S2P Require Import Guest.
From S2P Require Import SortBy.
From S2P Require Import Alerts.
From S2P Require Import McpDispatch.
From S2P Require Import AppModel.
From S2P Require Import AppUpdate.

(** [serde_json] on the two stored types. *)
Class Serde (J : Type) := {
  state_json : ClusterStateCache -> Result AnyErr J;
  state_of : J -> Result AnyErr ClusterStateCache;
  entry_json : PersistedQueueEntry -> Result AnyErr J;
  entry_of : J -> Result AnyErr PersistedQueueEntry;
}.
(** What is written reads back. *)
Class SerdeOk (J : Type) `{!Serde J} : Prop := {
  state_roundtrip c j : state_json c = Ok j -> state_of j = Ok c;
  entry_roundtrip e j : entry_json e = Ok j -> entry_of j = Ok e;
}.

(** Casts between machine integers. *)
Definition as_i64 (n : N) : Z :=
  let m := (Z.of_N n mod 2 ^ 64)%Z in if (m <? 2 ^ 63)%Z then m else (m - 2 ^ 64)%Z.
Definition as_u64 (z : Z) : N := Z.to_N (z mod 2 ^ 64).
Definition as_u32 (z : Z) : N := Z.to_N (z mod 2 ^ 32).

Record ReconcileStatus := mkReconcileStatus {
  last_check_ts : N;
  in_sync : bool;
  total_changes : N;
  summary : string;
  by_family : list (string * N);
}.

Record QueueRow (J : Type) := mkQueueRow { qr_id : string; qr_entry : J; qr_saved_at : Z }.
Record SnapRow (J : Type) := mkSnapRow { sr_timestamp : Z; sr_data : J }.
Arguments mkQueueRow {J}. Arguments qr_id {J}. Arguments qr_entry {J}. Arguments qr_saved_at {J}.
Arguments mkSnapRow {J}. Arguments sr_timestamp {J}. Arguments sr_data {J}.

Record CacheDb (J : Type) := mkCacheDb {
  user_version : N;
  snapshots : list (SnapRow J);
  queue_rows : list (QueueRow J);
  alert_dedup : list (string * string * Z);
  reconcile_status : option (Z * Z * Z * string);
  reconcile_drift : list (string * Z);
}.
Arguments mkCacheDb {J}. Arguments user_version {J}. Arguments snapshots {J}. Arguments queue_rows {J}.
Arguments alert_dedup {J}. Arguments reconcile_status {J}. Arguments reconcile_drift {J}.
#[export] Instance CacheDb_fields J : Fields (CacheDb J) := fun r =>
  mkCacheDb (user_version r) (snapshots r) (queue_rows r) (alert_dedup r) (reconcile_status r) (reconcile_drift r).
Definition empty_db {J} : CacheDb J := mkCacheDb 0 [] [] [] None [].

(** How the file answers. *)
Record Io := mkIo { io_open : option AnyErr; io_write : option AnyErr }.
Definition io_fine : Io := mkIo None None.

Section cache.
Context {J : Type} `{!Serde J}.
(** [ORDER BY timestamp DESC LIMIT 1] *)
Context (newest : list (SnapRow J) -> option (SnapRow J)).
Implicit Types db : CacheDb J.

(** ** Schema *)
Definition SCHEMA_VERSION : N := 3.
(** One step of the ladder; the tables it creates are always present here. *)
Definition migrate_step (step : N) : Result AnyErr unit :=
  if (step <? 3)%N then Ok tt else Err (bail ("no migration path from schema version " +:+ pretty step)).
Fixpoint migrate_from (fuel : nat) (step : N) : Result AnyErr unit :=
  match fuel with
  | 0 => Ok tt
  | S fuel' =>
      if (step <? SCHEMA_VERSION)%N
      then match migrate_step step with Ok _ => migrate_from fuel' (step + 1) | Err e => Err e end
      else Ok tt
  end.
Definition migrate_schema db : Result AnyErr (CacheDb J) :=
  let current := user_version db in
  if (current =? SCHEMA_VERSION)%N then Ok db
  else if (SCHEMA_VERSION <? current)%N then
    Err (bail ("cache DB schema version " +:+ pretty current +:+ " is newer than this binary's "
               +:+ pretty SCHEMA_VERSION +:+ "; upgrade proxxx or remove the cache file"))
  else match migrate_from (N.to_nat SCHEMA_VERSION) current with
       | Ok _ => Ok (db <| user_version := SCHEMA_VERSION |>)
       | Err e => Err e
       end.
Definition open_db (io : Io) db : Result AnyErr (CacheDb J) :=
  match io_open io with Some e => Err e | None => migrate_schema db end.
(** A transaction: all of [body], or nothing. *)
Definition transaction (io : Io) db (body : CacheDb J -> Result AnyErr (CacheDb J)) : Result AnyErr unit * CacheDb J :=
  match open_db io db with
  | Err e => (Err e, db)
  | Ok db =>
      match body db, io_write io with
      | Err e, _ => (Err e, db)
      | Ok _, Some e => (Err e, db)
      | Ok db', None => (Ok tt, db')
      end
  end.

(** ** Cluster snapshots *)
Definition RETENTION : N := 604800.
Definition save_state (io : Io) (now : N) (ns : list Alerts.Node) (gs : list Guest) (ss : list StoragePool)
    db : Result AnyErr unit * CacheDb J :=
  transaction io db (fun db =>
    data ← state_json (mkClusterStateCache ns gs ss now);
    let rows := snapshots db ++ [mkSnapRow (as_i64 now) data] in
    let cutoff := as_i64 (now - RETENTION)%N in
    Ok (db <| snapshots := List.filter (fun r => negb (sr_timestamp r <? cutoff)%Z) rows |>)).
Definition load_state (io : Io) db : Result AnyErr ClusterStateCache :=
  db ← open_db io db;
  match newest (snapshots db) with
  | Some row => state_of (sr_data row)
  | None => Err (bail "No cache found")
  end.
Definition db_state_at (io : Io) (timestamp : N) db : Result AnyErr ClusterStateCache :=
  db ← open_db io db;
  match newest (List.filter (fun r => (sr_timestamp r <=? as_i64 timestamp)%Z) (snapshots db)) with
  | Some row => state_of (sr_data row)
  | None => Err (bail "No snapshot found for the requested time")
  end.
Definition db_all_snapshots (io : Io) db : Result AnyErr (list N) :=
  db ← open_db io db;
  Ok (as_u64 <$> sort_by Z.compare (sr_timestamp <$> snapshots db)).

(** ** The queue *)
Fixpoint insert_entries (now : Z) (entries : list PersistedQueueEntry) (rows : list (QueueRow J)) :
    Result AnyErr (list (QueueRow J)) :=
  match entries with
  | [] => Ok rows
  | e :: es =>
      json ← entry_json e;
      if bool_decide (pe_id e ∈ qr_id <$> rows) then Err (bail "UNIQUE constraint failed: op_queue.id")
      else insert_entries now es (rows ++ [mkQueueRow (pe_id e) json now])
  end.
Definition save_queue (io : Io) (now : N) (entries : list PersistedQueueEntry) db : Result AnyErr unit * CacheDb J :=
  transaction io db (fun db =>
    rows ← insert_entries (as_i64 now) entries [];
    Ok (db <| queue_rows := rows |>)).
(** The rows by time of saving, then by id. *)
Definition cmp_row (a b : QueueRow J) : comparison :=
  then_cmp (Z.compare (qr_saved_at a) (qr_saved_at b)) (String.compare (qr_id a) (qr_id b)).
Definition load_queue (io : Io) db : Result AnyErr (list PersistedQueueEntry) :=
  db ← open_db io db;
  Ok (omap (fun r => result_ok (entry_of (qr_entry r))) (sort_by cmp_row (queue_rows db))).

(** [QUEUE_SEQ] and [QUEUE_WRITTEN]: numbers of snapshots, and the newest one
    written. *)
Definition next_queue_seq (seq : N) : N := (seq + 1)%N.
Definition save_queue_snapshot (io : Io) (now : N) (entries : list PersistedQueueEntry) (seq written : N) db :
    Result AnyErr bool * N * CacheDb J :=
  if (seq <=? written)%N then (Ok false, written, db)
  else match save_queue io now entries db with
       | (Ok _, db) => (Ok true, seq, db)
       | (Err e, db) => (Err e, written, db)
       end.

(** ** The alert window *)
Fixpoint insert_dedup (entries : list (string * string * N)) (rows : list (string * string * Z)) :
    Result AnyErr (list (string * string * Z)) :=
  match entries with
  | [] => Ok rows
  | (rule, target, last_fired) :: es =>
      if bool_decide ((rule, target) ∈ fst <$> rows)
      then Err (bail "UNIQUE constraint failed: alert_dedup.rule, alert_dedup.target")
      else insert_dedup es (rows ++ [(rule, target, as_i64 last_fired)])
  end.
Definition save_alert_dedup (io : Io) (entries : list (string * string * N)) db : Result AnyErr unit * CacheDb J :=
  transaction io db (fun db =>
    rows ← insert_dedup entries [];
    Ok (db <| alert_dedup := rows |>)).
Definition cmp_dedup (a b : string * string * Z) : comparison :=
  then_cmp (String.compare a.1.1 b.1.1) (String.compare a.1.2 b.1.2).
Definition load_alert_dedup (io : Io) db : Result AnyErr (list (string * string * N)) :=
  db ← open_db io db;
  Ok ((fun r : string * string * Z => (r.1, as_u64 r.2)) <$> sort_by cmp_dedup (alert_dedup db)).

(** ** The drift result *)
Fixpoint insert_drift (l : list (string * N)) (rows : list (string * Z)) : Result AnyErr (list (string * Z)) :=
  match l with
  | [] => Ok rows
  | (family, count) :: l' =>
      if bool_decide (family ∈ fst <$> rows) then Err (bail "UNIQUE constraint failed: reconcile_drift.family")
      else insert_drift l' (rows ++ [(family, Z.of_N count)])
  end.
Definition save_reconcile_status (io : Io) (status : ReconcileStatus) db : Result AnyErr unit * CacheDb J :=
  transaction io db (fun db =>
    drift ← insert_drift (by_family status) [];
    Ok (db <| reconcile_status := Some (as_i64 (last_check_ts status), if in_sync status then 1 else 0,
                                        Z.of_N (total_changes status), summary status)%Z |>
           <| reconcile_drift := drift |>)).
Definition load_reconcile_status (io : Io) db : Result AnyErr (option ReconcileStatus) :=
  db ← open_db io db;
  match reconcile_status db with
  | None => Ok None
  | Some (ts, sync, total, summary) =>
      let rows := sort_by (cmp_on fst String.compare) (reconcile_drift db) in
      Ok (Some (mkReconcileStatus (as_u64 ts) (negb (sync =? 0)%Z) (as_u32 total) summary
                  ((fun r : string * Z => (r.1, as_u32 r.2)) <$> rows)))
  end.
End cache.

(** ** The queue across restarts: the controller's side of tui/mod.rs

    A [Session] is the interface's state beside the database and the two
    process-wide counters of app/cache.rs.  The controller publishes a numbered
    snapshot of a changed queue, a background task writes published snapshots
    in any order and possibly late, and [ExecuteQueue] writes its own snapshot
    before anything is sent.  The process may end between any two events and
    start again from the database.

    [dispatched] records the operations handed to the dispatch of
    [ExecuteQueue]; [since] and [horizon] bound the clock readings of this
    process and of all so far. *)
Record Session (J : Type) := mkSession {
  app : AppState;
  db : CacheDb J;
  queue_seq : N;
  queue_written : N;
  published : list (N * list PersistedQueueEntry);
  since : N;
  horizon : N;
  dispatched : list string;
}.
Arguments mkSession {J}. Arguments app {J}. Arguments db {J}. Arguments queue_seq {J}. Arguments queue_written {J}.
Arguments published {J}. Arguments since {J}. Arguments horizon {J}. Arguments dispatched {J}.
#[export] Instance Session_fields J : Fields (Session J) := fun r =>
  mkSession (app r) (db r) (queue_seq r) (queue_written r) (published r) (since r) (horizon r) (dispatched r).

Inductive Event :=
  (** the reducer on an action, with the clock after the call *)
  | EvAct (env : Env) (io : Io) (now : N) (until : N) (a : Action)
  | EvPublish
  | EvWrite (io : Io) (now : N) (i : nat)
  (** the process ends; the interface starts again in a new process or in the
      same one (a switch of profile) *)
  | EvRestart (same_process : bool) (io : Io) (now : N) (label : string) (profiles : list string) (secure : bool)
      (at_micros : N).

Section session.
Context {J : Type} `{!Serde J} (newest : list (SnapRow J) -> option (SnapRow J)).
Implicit Types s : Session J.

Definition entries_of (st : AppState) : list PersistedQueueEntry := omap to_persisted (op_queue st).

(** The loop's save of a changed queue. *)
Definition publish s : Session J :=
  if queue_dirty (app s) then
    let seq := next_queue_seq (queue_seq s) in
    s <| queue_seq := seq |> <| published := published s ++ [(seq, entries_of (app s))] |>
      <| app := (app s) <| queue_dirty := false |> |>
  else s.
(** [queue_writer] *)
Definition write_published (io : Io) (now : N) (i : nat) s : Session J :=
  match published s !! i with
  | None => s
  | Some (seq, entries) =>
      let '(_, written, d) := save_queue_snapshot io now entries seq (queue_written s) (db s) in
      s <| queue_written := written |> <| db := d |>
  end.
(** [SideEffect::ExecuteQueue]: write ahead, then dispatch; refuse when the
    write fails. *)
Definition dispatch_queue (io : Io) (now : N) (ops : list QueuedOp) s : Session J :=
  let seq := next_queue_seq (queue_seq s) in
  let '(r, written, d) := save_queue_snapshot io now (entries_of (app s)) seq (queue_written s) (db s) in
  let s := s <| queue_seq := seq |> <| queue_written := written |> <| db := d |> in
  match r with
  | Ok _ => s <| dispatched := dispatched s ++ (op_id <$> ops) |>
  | Err _ => s
  end.
Definition act (env : Env) (io : Io) (now until : N) (a : Action) s : Session J :=
  let '(st, e) := update env (app s) a in
  let s := s <| app := st |> <| horizon := N.max (horizon s) until |> in
  match e with
  | Some (SeExecuteQueue ops) => dispatch_queue io now ops s
  | _ => s
  end.

(** The state the interface starts with. *)
Definition boot (io : Io) (now : N) (label : string) (profiles : list string) (secure : bool) (d : CacheDb J) :
    AppState :=
  let st := AppState_default <| profile_label := label |> <| available_profiles := profiles |>
              <| secure_mode := secure |> in
  let st := match load_state newest io d with
            | Ok c => st <| nodes := cc_nodes c |> <| guests := cc_guests c |> <| storage := cc_storage c |>
                         <| is_loading := false |>
            | Err _ => st
            end in
  let st := match load_queue io d with
            | Ok [] | Err _ => st
            | Ok persisted => st <| op_queue := from_persisted <$> persisted |>
            end in
  match db_state_at newest io (now - 24 * 3600)%N d with
  | Ok past =>
      st <| storage_trend := foldl (fun m p => <[sp_storage p := (cc_timestamp past, sp_used p)]> m)
                               (storage_trend st) (cc_storage past) |>
  | Err _ => st
  end.
Definition restart (same_process : bool) (io : Io) (now : N) (label : string) (profiles : list string) (secure : bool)
    (at_micros : N) s : Session J :=
  let st := boot io now label profiles secure (db s) in
  let '(ops, seq, written) :=
    if same_process then (op_seq (app s), queue_seq s, queue_written s) else (0%N, 0%N, 0%N) in
  s <| app := st <| op_seq := ops |> |> <| queue_seq := seq |> <| queue_written := written |>
    <| published := [] |> <| since := at_micros |> <| horizon := N.max (horizon s) at_micros |>.

Definition session_step (ev : Event) s : Session J :=
  match ev with
  | EvAct env io now until a => act env io now until a s
  | EvPublish => publish s
  | EvWrite io now i => write_published io now i s
  | EvRestart same io now label profiles secure at_micros => restart same io now label profiles secure at_micros s
  end.
Definition session_run (evs : list Event) s : Session J := foldl (fun s ev => session_step ev s) s evs.
(** An installation's first start. *)
Definition first_session : Session J := mkSession AppState_default empty_db 0 0 [] 0 0 [].

(** ** What is asked of the events *)
(** Nothing puts an operation back to pending: the controller reports
    [Success] and [Error] only. *)
Fixpoint tame (a : Action) : bool :=
  match a with
  | AcConfirmRequest _ a => tame a
  | AcQueueOpStatusChanged _ Pending => false
  | _ => true
  end.
(** The wall clock does not go back: within a process it is past the start, and
    a process starts after the readings of the ones before. *)
Fixpoint clocked (since horizon : N) (evs : list Event) : Prop :=
  match evs with
  | [] => True
  | EvAct env _ _ until _ :: evs' =>
      (forall n, since <= op_micros env n < until)%N /\ clocked since (N.max horizon until) evs'
  | EvRestart _ _ _ _ _ _ at_micros :: evs' => (horizon <= at_micros)%N /\ clocked at_micros (N.max horizon at_micros) evs'
  | _ :: evs' => clocked since horizon evs'
  end.
Definition tame_event (ev : Event) : bool := match ev with EvAct _ _ _ _ a => tame a | _ => true end.
End session.
