(* ===== verification/QueueStoreSpec.v ===== *)
(** * A queued operation is dispatched at most once, across restarts

    [Inv] ties the queue in memory, the rows on disk and the snapshots not yet
    written: an operation that was handed to the dispatch is pending in none of
    them that can still matter. *)

From S2P Require Import Prelude.
From S2P Require Import ApiError.
From S2P Require Import Guest.
From S2P Require Import SortBy.
From S2P Require Import Alerts.
From S2P Require Import AppModel.
From S2P Require Import AppUpdate.
From S2P Require Import AppSpec.
From S2P Require Import AppRunSpec.
From S2P Require Import AppCache.

(** ** Names of operations *)
Definition op_name (m n : N) : string := pretty m +:+ "-" +:+ pretty n.
Lemma pretty_go_no_dash x s : has_char "-" s = false -> has_char "-" (pretty_N_go x s) = false.
Proof.
  revert s. induction (N.lt_wf_0 x) as [x _ IH]; intros s Hs. destruct (decide (x = 0)%N) as [->|Hx].
  - by rewrite pretty_N_go_0.
  - rewrite pretty_N_go_step by lia. apply IH; [by apply N.div_lt; lia|]. simpl. rewrite Hs, orb_false_r.
    unfold pretty_N_char. by repeat case_match.
Qed.
Lemma pretty_no_dash (n : N) : has_char "-" (pretty n) = false.
Proof. unfold pretty, pretty_N. case_decide; [done|]. by apply pretty_go_no_dash. Qed.
Lemma op_name_inj m n m' n' : op_name m n = op_name m' n' -> m = m' /\ n = n'.
Proof.
  unfold op_name. intros H. apply (f_equal (split_char "-")) in H. simpl in H.
  rewrite !split_char_app, !split_char_none in H by apply pretty_no_dash. injection H as Hm Hn.
  by apply (inj pretty) in Hm; apply (inj pretty) in Hn.
Qed.
Lemma new_ops_id env force gs n acts op :
  op ∈ new_ops env force gs n acts ->
  exists k, (n <= k < n + N.of_nat (length acts))%N /\ op_id op = op_name (op_micros env k) k.
Proof.
  intros [i Hi]%list_elem_of_lookup. unfold new_ops in Hi. rewrite list_lookup_imap in Hi.
  destruct (acts !! i) as [x|] eqn:E; simplify_eq/=. apply lookup_lt_Some in E.
  exists (n + N.of_nat i)%N. split; [lia|]. destruct force; unfold QueuedOp_new_force, QueuedOp_new; by destruct (describe_op x gs).
Qed.
Lemma new_ops_nodup env force gs n acts : NoDup (op_id <$> new_ops env force gs n acts).
Proof.
  apply NoDup_alt. intros i j x Hi Hj. unfold new_ops in *. rewrite list_lookup_fmap, list_lookup_imap in Hi, Hj.
  destruct (acts !! i) as [xi|]; [|done]. destruct (acts !! j) as [xj|]; [|done].
  assert (forall k a, op_id ((if force then QueuedOp_new_force else QueuedOp_new) env a gs k) = op_name (op_micros env k) k) as He.
  { intros k a. destruct force; unfold QueuedOp_new_force, QueuedOp_new; by destruct (describe_op a gs). }
  injection Hi as Hi. injection Hj as Hj. rewrite He in Hi, Hj. rewrite <- Hj in Hi.
  apply op_name_inj in Hi as [_ Hi]. lia.
Qed.

(** ** Pending operations *)
Definition queue_ids (q : list QueuedOp) : list string := op_id <$> q.
Definition pending_in (id : string) (q : list QueuedOp) : Prop := exists op, op ∈ q /\ op_id op = id /\ op_status op = Pending.
Definition pending_entry (id : string) (es : list PersistedQueueEntry) : Prop :=
  exists e, e ∈ es /\ pe_id e = id /\ pe_status e = PsPending.

Lemma entries_of_ids st id : id ∈ pe_id <$> entries_of st -> id ∈ queue_ids (op_queue st).
Proof.
  intros (e & -> & (op & Hop & He)%list_elem_of_omap)%list_elem_of_fmap. apply list_elem_of_fmap. exists op.
  split; [|done]. unfold to_persisted in He. destruct (persisted_action _); simplify_eq/=; done.
Qed.
Lemma entries_of_pending st id : pending_entry id (entries_of st) -> pending_in id (op_queue st).
Proof.
  intros (e & (op & Hop & He)%list_elem_of_omap & Hid & Hp). exists op. split; [done|].
  unfold to_persisted in He. destruct (persisted_action _); simplify_eq/=. split; [done|].
  by destruct (op_status op).
Qed.
Lemma no_pending_running id q : ~ pending_in id (mark_running <$> q).
Proof.
  intros (op & (op0 & -> & _)%list_elem_of_fmap & _ & Hp). unfold mark_running, is_pending_op in Hp.
  destruct (op_status op0) eqn:E; simpl in Hp; congruence.
Qed.

(** What a call of the reducer does to the names and to the pending ones. *)
Definition fresh_name (env : Env) (n n' : N) (id : string) : Prop :=
  exists k, (n <= k < n')%N /\ id = op_name (op_micros env k) k.
Lemma qstep_names env gs glass a q n q' n' e :
  qstep env gs glass a q n q' n' e -> tame a = true ->
  (n <= n')%N /\
  (forall id, id ∈ queue_ids q' -> id ∈ queue_ids q \/ fresh_name env n n' id) /\
  (forall id, pending_in id q' -> pending_in id q \/ fresh_name env n n' id).
Proof.
  destruct 1 as [q' e Hs He|force acts Hf| |i s q' Ha Hq]; intros Ht.
  - split; [done|]. apply sublist_submseteq in Hs as Hsm. split.
    + intros id. left. eapply elem_of_submseteq; [done|]. apply sublist_submseteq. unfold queue_ids. by apply fmap_sublist.
    + intros id (op & Hop & H). left. exists op. split; [by eapply elem_of_submseteq|done].
  - split; [lia|]. split.
    + intros id. unfold queue_ids. rewrite fmap_app, elem_of_app. intros [H|(op & -> & Hop)%list_elem_of_fmap]; [by left|].
      right. apply new_ops_id in Hop as (k & Hk & ->). by exists k.
    + intros id (op & [Hop|Hop]%elem_of_app & <- & Hp); [left; by exists op|].
      right. apply new_ops_id in Hop as (k & Hk & ->). by exists k.
  - split; [done|]. split.
    + intros id H. left. unfold queue_ids in *. rewrite <- list_fmap_compose in H.
      apply list_elem_of_fmap in H as (op & -> & Hop). apply list_elem_of_fmap. exists op. split; [|done].
      unfold mark_running. simpl. by destruct (is_pending_op op).
    + intros id Hp. by apply no_pending_running in Hp.
  - split; [done|]. apply change_first_spec in Hq as (l1 & x & l2 & -> & -> & _). split.
    + intros id. left. unfold queue_ids in *. rewrite fmap_app, fmap_cons in *. done.
    + intros id (op & [Hop|[->|Hop]%elem_of_cons]%elem_of_app & Hid & Hp).
      * left. exists op. set_solver.
      * exfalso. subst a. simpl in Hp. by subst s.
      * left. exists op. set_solver.
Qed.
Lemma qstep_nodup env gs glass a q n q' n' e :
  qstep env gs glass a q n q' n' e -> (forall id, id ∈ queue_ids q -> ~ fresh_name env n n' id) ->
  NoDup (queue_ids q) -> NoDup (queue_ids q').
Proof.
  destruct 1 as [q' e Hs He|force acts Hf| |i s q' Ha Hq]; intros Hfr Hnd; unfold queue_ids in *.
  - eapply sublist_NoDup; [exact Hnd|by apply fmap_sublist].
  - rewrite fmap_app. apply NoDup_app. split; [done|]. split; [|apply new_ops_nodup].
    intros id Hid (op & -> & Hop)%list_elem_of_fmap. apply new_ops_id in Hop as (k & Hk & Hop).
    apply (Hfr _ Hid). by exists k.
  - rewrite <- list_fmap_compose. erewrite list_fmap_ext; [done|]. intros i op _. unfold mark_running. simpl.
    by destruct (is_pending_op op).
  - apply change_first_spec in Hq as (l1 & x & l2 & -> & -> & _). by rewrite fmap_app, fmap_cons in *.
Qed.

(** ** The database *)
Section store.
Context {J : Type} `{!Serde J, !SerdeOk J} (newest : list (SnapRow J) -> option (SnapRow J)).
Implicit Types s : Session J.

Definition row_reads (r : QueueRow J) : Prop := exists e, entry_of (qr_entry r) = Ok e /\ pe_id e = qr_id r.
Record rows_ok (rows : list (QueueRow J)) : Prop := mkRowsOk {
  rows_nodup : NoDup (qr_id <$> rows);
  rows_read : Forall row_reads rows;
}.
Definition stored (rows : list (QueueRow J)) : list PersistedQueueEntry :=
  omap (fun r => result_ok (entry_of (qr_entry r))) rows.

Lemma open_db_rows io (d d' : CacheDb J) : open_db io d = Ok d' -> queue_rows d' = queue_rows d.
Proof.
  unfold open_db, migrate_schema. destruct (io_open io); [done|]. repeat case_match; intros; by simplify_eq.
Qed.
Lemma insert_entries_ok now es rows rows' :
  insert_entries now es rows = Ok rows' -> rows_ok rows ->
  rows_ok rows' /\ stored rows' = stored rows ++ es.
Proof.
  revert rows. induction es as [|e es IH]; intros rows; simpl; [intros [= <-]; by rewrite app_nil_r|].
  destruct (entry_json e) as [j|] eqn:Ej; [|done]. cbn. case_bool_decide as Hin; [done|]. intros H [Hn Hr].
  apply entry_roundtrip in Ej. apply IH in H as [Hok Hst].
  - split; [done|]. rewrite Hst. unfold stored. rewrite omap_app. cbn. rewrite Ej. cbn. by rewrite <- app_assoc.
  - split.
    + rewrite fmap_app. apply NoDup_app. split; [done|]. split; [|apply NoDup_singleton].
      intros x Hx Hx'. apply list_elem_of_singleton in Hx' as ->. done.
    + apply Forall_app. split; [done|]. apply Forall_singleton. by exists e.
Qed.
Lemma save_queue_cases io now es (d : CacheDb J) :
  rows_ok (queue_rows d) ->
  match save_queue io now es d with
  | (Ok _, d') => rows_ok (queue_rows d') /\ stored (queue_rows d') = es
  | (Err _, d') => queue_rows d' = queue_rows d
  end.
Proof.
  intros Hok. unfold save_queue, transaction. destruct (open_db io d) as [d0|] eqn:Eo; [|done].
  apply open_db_rows in Eo. destruct (insert_entries (as_i64 now) es []) as [rows|] eqn:E; cbn; [|done].
  destruct (io_write io); [done|]. apply insert_entries_ok in E; [|by split; [apply NoDup_nil|apply Forall_nil]]. cbn. done.
Qed.
Lemma stored_ids rows : rows_ok rows -> pe_id <$> stored rows = qr_id <$> rows.
Proof.
  intros [_ Hr]. unfold stored. induction Hr as [|r rows (e & He & Hid) _ IH]; [done|]. cbn. rewrite He. cbn. by rewrite Hid, IH.
Qed.
#[local] Instance cmp_row_Cmp : Cmp (cmp_row (J := J)).
Proof. unfold cmp_row. apply then_cmp_Cmp; [apply (cmp_on_Cmp qr_saved_at Z.compare)|apply (cmp_on_Cmp qr_id String.compare)]; apply _. Qed.
Lemma load_queue_stored io (d : CacheDb J) es :
  rows_ok (queue_rows d) -> load_queue io d = Ok es -> es ≡ₚ stored (queue_rows d).
Proof.
  intros Hok. unfold load_queue. destruct (open_db io d) as [d0|] eqn:Eo; [|done]. cbn. intros [= <-].
  apply open_db_rows in Eo as <-. unfold stored. by rewrite sort_by_Permutation.
Qed.
Lemma restored_pending id es : pending_in id (from_persisted <$> es) -> pending_entry id es.
Proof.
  intros (op & (e & -> & He)%list_elem_of_fmap & Hid & Hp). exists e. split; [done|]. split; [done|].
  cbn in Hp. by destruct (pe_status e).
Qed.

(** ** The invariant *)
Definition known s (id : string) : Prop :=
  exists m n, id = op_name m n /\ (m < horizon s)%N /\ ((m < since s)%N \/ (n < op_seq (app s))%N).
Definition settled s (id : string) : Prop :=
  ~ pending_in id (op_queue (app s)) /\ ~ pending_entry id (stored (queue_rows (db s))) /\
  forall k es, (k, es) ∈ published s -> (queue_written s < k)%N -> ~ pending_entry id es.
Record Inv s : Prop := mkInv {
  i_force : force_next_destructive (app s) = false;
  i_mode : match mode (app s) with MoConfirm _ a => tame a = true | _ => True end;
  i_nodup : NoDup (queue_ids (op_queue (app s)));
  i_rows : rows_ok (queue_rows (db s));
  i_seq : (queue_written s <= queue_seq s)%N /\ forall k es, (k, es) ∈ published s -> (k <= queue_seq s)%N;
  i_known_queue id : id ∈ queue_ids (op_queue (app s)) -> known s id;
  i_known_rows id : id ∈ pe_id <$> stored (queue_rows (db s)) -> known s id;
  i_known_published k es id : (k, es) ∈ published s -> id ∈ pe_id <$> es -> known s id;
  i_known_dispatched id : id ∈ dispatched s -> known s id;
  i_settled id : id ∈ dispatched s -> settled s id;
  i_once : NoDup (dispatched s);
}.

Lemma known_mono s s' id :
  (horizon s <= horizon s')%N -> (since s <= since s')%N -> (op_seq (app s) <= op_seq (app s'))%N -> known s id -> known s' id.
Proof. intros Hh Hs Ho (m & n & -> & Hm & H). exists m, n. split; [done|]. split; [lia|]. lia. Qed.

Lemma inv_first : Inv first_session.
Proof.
  split; cbn; try done; try (by intros; set_solver); try apply NoDup_nil_2.
  split; [apply NoDup_nil_2|apply Forall_nil_2].
Qed.

Lemma inv_publish s : Inv s -> Inv (publish s).
Proof.
  intros [Hf Hm Hn Hr [Hw Hp] Kq Kr Kp Kd Hs Ho]. unfold publish. destruct (queue_dirty (app s)); [|by split].
  split; cbn; try done.
  - split; [unfold next_queue_seq; lia|]. intros k es [H|H%list_elem_of_singleton]%elem_of_app.
    + apply Hp in H. unfold next_queue_seq. lia.
    + by simplify_eq.
  - intros k es id [H|H%list_elem_of_singleton]%elem_of_app Hid; [by eapply Kp|]. simplify_eq.
    by apply Kq, entries_of_ids.
  - intros id Hid. destruct (Hs id Hid) as (H1 & H2 & H3). split; [done|]. split; [done|].
    intros k es [H|H%list_elem_of_singleton]%elem_of_app Hk; [by eapply H3|]. simplify_eq.
    intros Hpe. by apply H1, entries_of_pending.
Qed.

(** A write of a snapshot all of whose names are known and in which no
    dispatched operation is pending. *)
Lemma inv_write io now es seq s r w d :
  Inv s -> save_queue_snapshot io now es seq (queue_written s) (db s) = (r, w, d) ->
  (seq <= queue_seq s)%N -> (forall id, id ∈ pe_id <$> es -> known s id) ->
  ((queue_written s < seq)%N -> forall id, id ∈ dispatched s -> ~ pending_entry id es) ->
  Inv (s <| queue_written := w |> <| db := d |>).
Proof.
  intros [Hf Hm Hn Hr [Hw Hp] Kq Kr Kp Kd Hs Ho] Hsave Hle Hk Hpend. unfold save_queue_snapshot in Hsave.
  destruct (seq <=? queue_written s)%N eqn:E.
  { simplify_eq. assert (s <| queue_written := queue_written s |> <| db := db s |> = s) as -> by (by destruct s). by split. }
  apply N.leb_gt in E. specialize (Hpend E). pose proof (save_queue_cases io now es (db s) Hr) as Hc.
  destruct (save_queue io now es (db s)) as [[[]|e] d']; simplify_eq.
  - destruct Hc as [Hok Hst]. split; cbn; try done.
    + intros id. rewrite Hst. apply Hk.
    + intros id Hid. destruct (Hs id Hid) as (H1 & H2 & H3). split; [done|]. cbn. rewrite Hst. split; [by apply Hpend|].
      intros k es' Hin Hlt. apply (H3 k); [done|lia].
  - split; cbn; rewrite ?Hc; try done. intros id Hid. unfold settled. cbn. rewrite Hc. by apply Hs.
Qed.
Lemma inv_write_published io now i s : Inv s -> Inv (write_published io now i s).
Proof.
  intros HI. unfold write_published. destruct (published s !! i) as [[seq es]|] eqn:E; [|done].
  apply list_elem_of_lookup_2 in E. destruct (save_queue_snapshot _ _ _ _ _ _) as [[r w] d] eqn:Es.
  eapply inv_write; [done|done|..].
  - by eapply (proj2 (i_seq _ HI)).
  - intros id. by eapply (i_known_published _ HI).
  - intros Hlt id Hid. destruct (i_settled _ HI id Hid) as (_ & _ & H). by eapply H.
Qed.

(** ** The reducer *)
#[local] Opaque update.
Lemma origin_tame st a a0 :
  origin st a a0 -> tame a = true -> match mode st with MoConfirm _ a => tame a = true | _ => True end -> tame a0 = true.
Proof.
  intros [->|[Hi|[d Hd]]] Ht Hm; [done| |by rewrite Hd in Hm]. by destruct a0.
Qed.
Lemma not_fresh s env until n' id :
  (forall n, since s <= op_micros env n < until)%N -> known s id -> ~ fresh_name env (op_seq (app s)) n' id.
Proof.
  intros Hc (m & n & -> & _ & H) (k & Hk & Heq). apply op_name_inj in Heq as [-> ->]. specialize (Hc k). lia.
Qed.
Lemma fresh_known s env until st id :
  (forall n, since s <= op_micros env n < until)%N ->
  fresh_name env (op_seq (app s)) (op_seq st) id -> known (s <| app := st |> <| horizon := N.max (horizon s) until |>) id.
Proof.
  intros Hc (k & Hk & ->). exists (op_micros env k), k. specialize (Hc k). split; [done|]. cbn. split; [lia|]. right. lia.
Qed.
Lemma inv_update env until a s :
  (forall n, since s <= op_micros env n < until)%N -> tame a = true -> Inv s ->
  Inv (s <| app := (update env (app s) a).1 |> <| horizon := N.max (horizon s) until |>).
Proof.
  intros Hc Ht [Hf Hm Hn Hr Hsq Kq Kr Kp Kd Hs Ho].
  destruct (update_queue env (app s) a Hf) as (a0 & Hor & Hq). pose proof (origin_tame _ _ _ Hor Ht Hm) as Ht0.
  pose proof (qstep_names _ _ _ _ _ _ _ _ _ Hq Ht0) as (Hle & Hids & Hpend).
  assert (forall id, known s id -> known (s <| app := (update env (app s) a).1 |> <| horizon := N.max (horizon s) until |>) id)
    as Hmono by (intros id; apply known_mono; cbn; lia).
  split; cbn; try done.
  - by apply update_force.
  - pose proof (update_confirm env (app s) a) as Hcf. destruct (mode (update env (app s) a).1) as [| | | | | |d a'| | | |]; try done.
    destruct Hcf as [Hcf|[(a1 & Hor1 & ->)|[vmid ->]]]; [by rewrite Hcf in Hm| |done].
    by apply (origin_tame _ _ _ Hor1 Ht Hm).
  - eapply qstep_nodup; [exact Hq| |done]. intros id Hid. eapply not_fresh; [exact Hc|by apply Kq].
  - intros id [Hid|Hid]%Hids; [by apply Hmono, Kq|by eapply fresh_known].
  - intros id Hid. by apply Hmono, Kr.
  - intros k es id H1 H2. by eapply Hmono, Kp.
  - intros id Hid. by apply Hmono, Kd.
  - intros id Hid. destruct (Hs id Hid) as (H1 & H2 & H3). split; [|done]. cbn. intros [Hp|Hp]%Hpend; [done|].
    by eapply not_fresh; [exact Hc|by apply Kd|].
Qed.

Lemma inv_dispatch io now ops s :
  Inv s -> (forall id, ~ pending_in id (op_queue (app s))) -> NoDup (op_id <$> ops) ->
  (forall id, id ∈ op_id <$> ops -> known s id /\ id ∉ dispatched s) ->
  Inv (dispatch_queue io now ops s).
Proof.
  intros HI Hnp Hnd Hops. unfold dispatch_queue.
  destruct (save_queue_snapshot io now (entries_of (app s)) (next_queue_seq (queue_seq s)) (queue_written s) (db s))
    as [[r w] d] eqn:E.
  assert (Inv (s <| queue_seq := next_queue_seq (queue_seq s) |>)) as HI1.
  { destruct HI as [Hf Hm Hn Hr [Hw Hp] Kq Kr Kp Kd Hs Ho]. split; cbn; try done.
    unfold next_queue_seq. split; [lia|]. intros k es H%Hp. lia. }
  assert (Inv (s <| queue_seq := next_queue_seq (queue_seq s) |> <| queue_written := w |> <| db := d |>)) as HI2.
  { eapply inv_write; [exact HI1|exact E|cbn; lia| |].
    - intros id Hid. apply (i_known_queue _ HI), entries_of_ids, Hid.
    - intros _ id _ Hp. by eapply Hnp, entries_of_pending. }
  destruct r as [b|err]; [|done]. destruct HI2 as [Hf Hm Hn Hr Hsq Kq Kr Kp Kd Hs Ho]. split; cbn in *; try done.
  - intros id [H|H]%elem_of_app; [by apply Kd|]. by apply Hops in H as [].
  - intros id [H|H]%elem_of_app; [by apply Hs|]. split; [apply Hnp|]. cbn.
    unfold save_queue_snapshot in E. destruct (i_seq _ HI) as [Hle Hpub].
    assert (next_queue_seq (queue_seq s) <=? queue_written s = false)%N as Hlt
      by (apply N.leb_gt; unfold next_queue_seq; lia).
    rewrite Hlt in E. pose proof (save_queue_cases io now (entries_of (app s)) (db s) (i_rows _ HI)) as Hc.
    destruct (save_queue io now (entries_of (app s)) (db s)) as [[[]|e] d']; simplify_eq. destruct Hc as [_ ->]. split.
    + intros Hp. by eapply Hnp, entries_of_pending.
    + intros k es Hk%Hpub Hgt. unfold next_queue_seq in Hgt. lia.
  - apply NoDup_app. split; [done|]. split; [|done]. intros id Hid H%Hops. tauto.
Qed.
Lemma qstep_dispatch env gs glass a q n q' n' ops :
  qstep env gs glass a q n q' n' (Some (SeExecuteQueue ops)) ->
  q' = mark_running <$> q /\ n' = n /\ ops = List.filter is_pending_op q.
Proof. by inversion 1. Qed.
Lemma inv_act env io now until a s :
  (forall n, since s <= op_micros env n < until)%N -> tame a = true -> Inv s -> Inv (act env io now until a s).
Proof.
  intros Hc Ht HI. pose proof (inv_update env until a s Hc Ht HI) as HI1.
  destruct (update_queue env (app s) a (i_force _ HI)) as (a0 & _ & Hq). unfold act.
  destruct (update env (app s) a) as [st e]. cbn [fst snd] in *.
  destruct e as [[]|]; try done. apply qstep_dispatch in Hq as (Hq & Hseq & ->).
  assert (forall op, op ∈ List.filter is_pending_op (op_queue (app s)) -> op ∈ op_queue (app s) /\ pending_in (op_id op) (op_queue (app s))) as Hin.
  { intros op [Hop Hp]%list_elem_of_In%List.filter_In. apply list_elem_of_In in Hop. split; [done|]. exists op.
    unfold is_pending_op in Hp. by destruct (op_status op). }
  apply inv_dispatch; [done|..].
  - intros id. cbn. rewrite Hq. apply no_pending_running.
  - eapply sublist_NoDup; [apply (i_nodup _ HI)|]. by apply fmap_sublist, AppSpec.filter_sublist.
  - intros id (op & -> & Hop)%list_elem_of_fmap. apply Hin in Hop as [Hop Hp]. split.
    + eapply known_mono; [..|apply (i_known_queue _ HI), list_elem_of_fmap; by exists op]; cbn; lia.
    + intros Hd. by apply (i_settled _ HI) in Hd as [Hd _].
Qed.

(** ** Restarts *)
Lemma boot_fields io now label profiles secure d :
  force_next_destructive (boot newest io now label profiles secure d) = false /\
  mode (boot newest io now label profiles secure d) = MoNormal /\
  op_queue (boot newest io now label profiles secure d) =
    match load_queue io d with Ok es => from_persisted <$> es | Err _ => [] end.
Proof.
  unfold boot. cbv zeta. destruct (load_state newest io d); destruct (load_queue io d) as [[]|];
    by destruct (db_state_at newest io (now - 24 * 3600) d).
Qed.
Lemma inv_restart same io now label profiles secure at_micros s :
  (horizon s <= at_micros)%N -> Inv s -> Inv (restart newest same io now label profiles secure at_micros s).
Proof.
  intros Hh [Hf Hm Hn Hr [Hw Hp] Kq Kr Kp Kd Hs Ho].
  destruct (boot_fields io now label profiles secure (db s)) as (Bf & Bm & Bq).
  assert (forall id ops st seq w, known s id ->
    known (s <| app := st <| op_seq := ops |> |> <| queue_seq := seq |> <| queue_written := w |>
             <| published := [] |> <| since := at_micros |> <| horizon := N.max (horizon s) at_micros |>) id) as Hk.
  { intros id ops st seq w (m & n & -> & Hlt & _). exists m, n. split; [done|]. cbn. split; [lia|]. left. lia. }
  pose proof (load_queue_stored io (db s)) as Hl.
  assert (forall id, id ∈ queue_ids (op_queue (boot newest io now label profiles secure (db s))) ->
    id ∈ pe_id <$> stored (queue_rows (db s))) as Hids.
  { intros id. rewrite Bq. destruct (load_queue io (db s)) as [es|]; [|by intros ?%elem_of_nil].
    rewrite <- (Hl es Hr eq_refl). unfold queue_ids. by rewrite <- list_fmap_compose. }
  assert (forall id, pending_in id (op_queue (boot newest io now label profiles secure (db s))) ->
    pending_entry id (stored (queue_rows (db s)))) as Hpend.
  { intros id. rewrite Bq. destruct (load_queue io (db s)) as [es|]; [|by intros (? & ?%elem_of_nil & _)].
    intros (e & He & H)%restored_pending. exists e. by rewrite <- (Hl es Hr eq_refl). }
  assert (NoDup (queue_ids (op_queue (boot newest io now label profiles secure (db s))))) as Hnd.
  { rewrite Bq. destruct (load_queue io (db s)) as [es|]; [|apply NoDup_nil_2]. unfold queue_ids.
    rewrite <- list_fmap_compose. change (NoDup (pe_id <$> es)). rewrite (Hl es Hr eq_refl), (stored_ids _ Hr).
    by apply rows_nodup. }
  assert (forall id, id ∈ dispatched s -> ~ pending_in id (op_queue (boot newest io now label profiles secure (db s)))) as Hset.
  { intros id Hid Hpe%Hpend. by destruct (Hs id Hid) as (_ & H & _). }
  unfold restart. destruct same; cbv zeta; (split; cbn; rewrite ?Bm; try done);
    try (by intros id Hid; apply Hk; auto); try (by intros k es ?%elem_of_nil); try (by intros k es id ?%elem_of_nil).
  all: try (intros id Hid; split; cbn; [by apply Hset|]; split; [by apply Hs|]; by intros k es ?%elem_of_nil).
  all: try (split; [done|]; by intros k es ?%elem_of_nil).
Qed.

Lemma inv_run evs s :
  Inv s -> clocked (since s) (horizon s) evs -> forallb tame_event evs = true -> Inv (session_run newest evs s).
Proof.
  revert s. induction evs as [|ev evs IH]; intros s HI Hc Ht; [done|]. simpl in Ht. apply andb_true_iff in Ht as [Ht Hts].
  simpl. destruct ev as [env io now until a| |io now i|same io now label profiles secure t]; cbn [session_step clocked] in *.
  - destruct Hc as [Hclk Hc]. apply IH; [by apply inv_act| |done].
    assert (since (act env io now until a s) = since s /\ horizon (act env io now until a s) = N.max (horizon s) until) as [-> ->];
      [|done].
    unfold act. destruct (update env (app s) a) as [st [[]|]]; try done. unfold dispatch_queue.
    by destruct (save_queue_snapshot _ _ _ _ _ _) as [[[] w] d].
  - apply IH; [by apply inv_publish| |done]. unfold publish. by destruct (queue_dirty (app s)).
  - apply IH; [by apply inv_write_published| |done]. unfold write_published.
    destruct (published s !! i) as [[seq es]|]; [|done]. by destruct (save_queue_snapshot _ _ _ _ _ _) as [[r w] d].
  - destruct Hc as [Hclk Hc]. apply IH; [by apply inv_restart| |done]. unfold restart. by destruct same.
Qed.
End store.

(** C18: Over any history of the interface, with saves that fail, background
    writes that come late and processes that end at any moment and start again
    from the database, no queued operation is handed to the dispatch twice.  The
    clock must not go back, and no event sets an operation back to pending. *)
Theorem queue_op_dispatched_once {J} `{!Serde J, !SerdeOk J} (newest : list (SnapRow J) -> option (SnapRow J)) evs :
  clocked 0 0 evs -> forallb tame_event evs = true ->
  NoDup (dispatched (session_run newest evs first_session)).
Proof. intros Hc Ht. apply i_once, inv_run; [apply inv_first|done|done]. Qed.

(** *** An instance: rows hold the values themselves *)
#[export] Instance plain_serde : Serde (ClusterStateCache + PersistedQueueEntry) := {|
  state_json := fun c => Ok (inl c);
  state_of := fun j => match j with inl c => Ok c | inr _ => Err (bail "expected a cluster state") end;
  entry_json := fun e => Ok (inr e);
  entry_of := fun j => match j with inr e => Ok e | inl _ => Err (bail "expected a queue entry") end;
|}.
#[export] Instance plain_serde_ok : SerdeOk (ClusterStateCache + PersistedQueueEntry).
Proof. by split; intros ? ? [= <-]. Qed.

Definition env_at (t : N) : Env :=
  mkEnv 0 0 (fun _ => t) (fun _ => Ok []) (fun _ _ => Err (bail "none")) (fun s => s) (fun _ _ => None)
    elements (fun m => snd <$> map_to_list m).
Definition at_ (t : N) (a : Action) : Event := EvAct (env_at t) io_fine 0 (t + 1) a.
(** Two migrations are queued and saved, the second snapshot is written late,
    the queue runs, the process dies, and the restored queue runs again. *)
Definition crash_history : list Event :=
  [at_ 10 (AcEnqueueOperation (AcMigrateGuest 100 "pve2")); EvPublish;
   at_ 20 (AcEnqueueOperation (AcDeleteGuest 101)); EvPublish;
   at_ 30 AcExecuteQueue; EvWrite io_fine 0 0; EvWrite io_fine 0 1;
   EvRestart false io_fine 0 "home" [] false 40;
   at_ 50 (AcEnqueueOperation (AcStartGuest 102)); at_ 60 AcExecuteQueue].
Lemma queue_op_dispatched_once_witness :
  clocked 0 0 crash_history /\ forallb tame_event crash_history = true /\
  dispatched (session_run List.head crash_history first_session) = ["10-0"; "20-1"; "50-0"] /\
  NoDup (dispatched (session_run List.head crash_history first_session)).
Proof.
  split; [cbn; split_and!; intros; lia|]. split; [reflexivity|]. split; [vm_compute; reflexivity|].
  apply (queue_op_dispatched_once (J := ClusterStateCache + PersistedQueueEntry) List.head crash_history);
    [cbn; split_and!; intros; lia|reflexivity].
Defined.
