(* ===== verification/Patch.v ===== *)
(** * Rolling patches: app/patch.rs and cli/patch.rs

    The orchestrator talks to the cluster's API, to the nodes over SSH and to
    the audit log.  Their answers are a [Backend], indexed by the number of the
    call, so that any sequence of answers is possible; a [PatchWorld] records
    the commands sent, the audit entries and the reported phases, and holds the
    clock in milliseconds. *)

From S2P Require Import Prelude.
From S2P Require Import ApiError.
From S2P Require Import Incident.
From S2P Require Import GuestPreflight.
From S2P Require Import SortBy.
From S2P Require Import Alerts.
From S2P Require Import Ha.

(** ** Types *)
Record AptUpgradable := mkApt {
  apt_package : string;
  apt_old_version : string;
  apt_new_version : string;
  apt_section : string;
  apt_priority : string;
}.
Definition is_kernel (p : string) : bool :=
  starts_with "pve-kernel" p || starts_with "proxmox-kernel" p || starts_with "linux-image" p.
Definition requires_reboot (a : AptUpgradable) : bool :=
  is_kernel (apt_package a)
  || bool_decide (apt_package a ∈ ["intel-microcode"; "amd64-microcode"; "libc6"; "systemd"]).
Definition is_security (a : AptUpgradable) : bool := contains "security" (apt_section a).

Record NodeStatusDetail := mkDetail { nd_uptime : N; nd_kversion : string; nd_pveversion : string }.
Record ExecResult := mkExec { ex_stdout : string; ex_stderr : string; ex_exit_code : option N }.
Definition exec_ok (r : ExecResult) : bool := bool_decide (ex_exit_code r = Some 0%N).

Inductive RebootPolicy := Auto | Always | Never.
Record PatchStrategy := mkStrategy {
  max_concurrent : N;
  reboot_policy : RebootPolicy;
  upgrade_timeout : N;
  reboot_wait_timeout : N;
  dry_run : bool;
}.
Definition PatchStrategy_default : PatchStrategy := mkStrategy 1 Auto 1800000 600000 false.

Inductive Phase :=
  | PhPending
  | PhRefresh
  | PhInventory
  | PhUpgrade
  | PhReboot
  | PhWaitReboot
  | PhDone (rebooted : bool) (packages_upgraded : N)
  | PhSkipped (reason : string)
  | PhFailed (phase error : string).

Record NodePlan := mkNodePlan {
  np_node : string;
  np_upgradable : list AptUpgradable;
  np_kernel_pending : bool;
  np_security_pending : bool;
  np_reboot_required : bool;
  np_status : Phase;
  np_kernel_before : option string;
  np_kernel_after : option string;
}.
#[export] Instance NodePlan_fields : Fields NodePlan := fun r =>
  mkNodePlan (np_node r) (np_upgradable r) (np_kernel_pending r) (np_security_pending r) (np_reboot_required r)
    (np_status r) (np_kernel_before r) (np_kernel_after r).
Record PatchPlan := mkPatchPlan { pp_nodes : list NodePlan; pp_summary : list (string * string) }.

Definition from_inventory (node : string) (upgradable : list AptUpgradable) : NodePlan :=
  {| np_node := node; np_upgradable := upgradable;
     np_kernel_pending := existsb (fun p => is_kernel (apt_package p)) upgradable;
     np_security_pending := existsb is_security upgradable;
     np_reboot_required := existsb requires_reboot upgradable;
     np_status := match upgradable with [] => PhSkipped "no upgrades available" | _ => PhPending end;
     np_kernel_before := None; np_kernel_after := None |}.
Definition failed_plan (node phase : string) (e : AnyErr) : NodePlan :=
  mkNodePlan node [] false false false (PhFailed phase (show_err e)) None None.

Definition pkg_count (n : NodePlan) : N := N.min (N.of_nat (length (np_upgradable n))) u32_max.
(** [sum::<u32>]: panics on overflow in a debug build, wraps in a release one. *)
Definition total_packages (p : PatchPlan) : N :=
  (foldr (fun n acc => pkg_count n + acc) 0 (pp_nodes p) mod (u32_max + 1))%N.
Definition should_reboot (policy : RebootPolicy) (n : NodePlan) : bool :=
  match policy with Always => true | Auto => np_reboot_required n | Never => false end.
Definition is_skipped (p : Phase) : bool := match p with PhSkipped _ => true | _ => false end.
Definition is_failed (p : Phase) : bool := match p with PhFailed _ _ => true | _ => false end.
Definition nodes_rebooting (p : PatchPlan) (policy : RebootPolicy) : list string :=
  np_node <$> List.filter (fun n => negb (is_skipped (np_status n)) && should_reboot policy n) (pp_nodes p).

(** ** The world *)
Record Backend := mkBackend {
  be_nodes : nat -> Result AnyErr (list Alerts.Node);
  be_refresh : nat -> string -> Result AnyErr unit;
  be_upgradable : nat -> string -> Result AnyErr (list AptUpgradable);
  be_detail : nat -> string -> Result AnyErr NodeStatusDetail;
  be_ssh : nat -> string -> string -> Result AnyErr ExecResult;
  be_audit : nat -> string -> Result AnyErr unit;
  (** milliseconds a call takes *)
  be_took : nat -> N;
}.
Record PatchWorld := mkPatchWorld {
  pw_calls : nat;
  pw_clock : N;
  pw_ssh : list (string * string);
  pw_audit : list (string * string);
  pw_progress : list (string * Phase);
}.
#[export] Instance PatchWorld_fields : Fields PatchWorld := fun r =>
  mkPatchWorld (pw_calls r) (pw_clock r) (pw_ssh r) (pw_audit r) (pw_progress r).

(** A failure: an audit refusal, which ends the command, an ordinary error, or
    a panic. *)
Inductive PErr := PeRefused (e : AnyErr) | PeErr (e : AnyErr) | PePanic.

Section orchestrator.
Context (be : Backend) (st : PatchStrategy).

Definition call {A} (f : nat -> A) (w : PatchWorld) : A * PatchWorld :=
  (f (pw_calls w), w <| pw_clock := (pw_clock w + be_took be (pw_calls w))%N |> <| pw_calls := S (pw_calls w) |>).
Definition sleep (ms : N) (w : PatchWorld) : PatchWorld := w <| pw_clock := (pw_clock w + ms)%N |>.
Definition report (node : string) (p : Phase) (w : PatchWorld) : PatchWorld :=
  w <| pw_progress := pw_progress w ++ [(node, p)] |>.
Definition outcome (node entry : string) (w : PatchWorld) : PatchWorld :=
  w <| pw_audit := pw_audit w ++ [(node, entry)] |>.
Definition ssh (node cmd : string) (w : PatchWorld) : Result AnyErr ExecResult * PatchWorld :=
  let '(r, w) := call (fun k => be_ssh be k node cmd) w in
  (r, w <| pw_ssh := pw_ssh w ++ [(node, cmd)] |>).

(** ** [plan] *)
Fixpoint plan_nodes (names : list string) (w : PatchWorld) : list NodePlan * PatchWorld :=
  match names with
  | [] => ([], w)
  | node :: rest =>
      let '(r, w) := call (fun k => be_refresh be k node) w in
      match r with
      | Err e => let '(l, w) := plan_nodes rest w in (failed_plan node "refresh" e :: l, w)
      | Ok _ =>
          let '(r, w) := call (fun k => be_upgradable be k node) w in
          let '(l, w) := plan_nodes rest w in
          (match r with
           | Err e => failed_plan node "inventory" e
           | Ok pkgs => from_inventory node pkgs
           end :: l, w)
      end
  end.
Definition bool_str (b : bool) : string := if b then "true" else "false".
Definition policy_debug (p : RebootPolicy) : string :=
  match p with Auto => "Auto" | Always => "Always" | Never => "Never" end.
Definition plan (only_nodes : option (list string)) (w : PatchWorld) : Result AnyErr PatchPlan * PatchWorld :=
  let '(r, w) := call (be_nodes be) w in
  match r with
  | Err e => (Err (context "listing nodes" e), w)
  | Ok nodes_in =>
      let names := Alerts.node <$> List.filter (fun n => bool_decide (Alerts.status n = Online)) nodes_in in
      let names := match only_nodes with
                   | Some filter => List.filter (fun n => bool_decide (n ∈ filter)) names
                   | None => names
                   end in
      let names := sort_by String.compare names in
      let '(plans, w) := plan_nodes names w in
      (Ok (mkPatchPlan plans [("max_concurrent", pretty (max_concurrent st));
                              ("reboot_policy", policy_debug (reboot_policy st));
                              ("dry_run", bool_str (dry_run st))]), w)
  end.

(** ** The steps of [apply] *)
(** [&s[s.len() - n..]]: panics inside a character. *)
Definition tail_str (s : string) (n : nat) : option string :=
  let len := String.length s in
  if bool_decide (len <= n) then Some s
  else
    let t := String.substring (len - n) n s in
    match t with
    | String a _ => if is_continuation a then None else Some t
    | "" => Some t
    end.

Definition UPGRADE_CMD : string :=
  "DEBIAN_FRONTEND=noninteractive apt-get -y -o Dpkg::Options::="
  +:+ String (ascii_of_N 34) "--force-confold" +:+ String (ascii_of_N 34) " -o Dpkg::Options::="
  +:+ String (ascii_of_N 34) "--force-confdef" +:+ String (ascii_of_N 34) " dist-upgrade".
Definition REBOOT_CMD : string := "systemctl reboot --no-block".

(** [scrub_secrets] of the transport error is not read anywhere and left out of
    the entry. *)
Definition run_upgrade (node : string) (w : PatchWorld) : Result PErr unit * PatchWorld :=
  let '(r, w) := call (fun k => be_audit be k node) w in
  match r with
  | Err e => (Err (PeRefused e), w)
  | Ok _ =>
      let w := outcome node "sent" w in
      let '(r, w) := ssh node UPGRADE_CMD w in
      match r with
      | Err e => (Err (PeErr e), outcome node "error transport" w)
      | Ok res =>
          if exec_ok res then (Ok tt, outcome node "ok 0" w)
          else
            let code := match ex_exit_code res with Some c => pretty c | None => "signal" end in
            let w := outcome node ("error " +:+ code) w in
            match tail_str (ex_stderr res) 500 with
            | None => (Err PePanic, w)
            | Some t =>
                let debug := match ex_exit_code res with Some c => "Some(" +:+ pretty c +:+ ")" | None => "None" end in
                (Err (PeErr (bail ("apt dist-upgrade exited with " +:+ debug +:+ " on " +:+ node
                                   +:+ String (ascii_of_N 10) "stderr (last 500 chars):"
                                   +:+ String (ascii_of_N 10) t))), w)
            end
      end
  end.
Definition run_reboot (node : string) (w : PatchWorld) : Result AnyErr unit * PatchWorld :=
  let '(r, w) := ssh node REBOOT_CMD w in
  match r with
  | Ok _ => (Ok tt, w)
  | Err e =>
      let msg := match err_chain e with m :: _ => m | [] => "" end in
      if contains "timed out" msg || contains "connection" msg then (Ok tt, w) else (Err e, w)
  end.

Definition POLL_MS : N := 5000.
Definition is_online (node : string) (r : Result AnyErr (list Alerts.Node)) : bool :=
  match r with
  | Ok nodes => match List.find (fun n => bool_decide (Alerts.node n = node)) nodes with
                | Some n => bool_decide (Alerts.status n = Online)
                | None => false
                end
  | Err _ => false
  end.
(** The loop; [None] is running out of fuel, which [wait_terminates] excludes. *)
Fixpoint wait_loop (fuel : nat) (node : string) (deadline : N) (saw_offline : bool) (w : PatchWorld) :
    option (Result AnyErr NodeStatusDetail * PatchWorld) :=
  match fuel with
  | 0 => None
  | S fuel' =>
      if (pw_clock w <? deadline)%N then
        let w := sleep POLL_MS w in
        let '(r, w) := call (be_nodes be) w in
        if negb (is_online node r) then wait_loop fuel' node deadline true w
        else if negb saw_offline then wait_loop fuel' node deadline saw_offline w
        else
          let '(r, w) := call (fun k => be_detail be k node) w in
          match r with
          | Ok detail => Some (Ok detail, w)
          | Err _ => wait_loop fuel' node deadline saw_offline w
          end
      else Some (Err (bail (node +:+ " did not come back within " +:+ pretty (reboot_wait_timeout st / 1000)%N +:+ "s")), w)
  end.
Definition wait_fuel : nat := N.to_nat (reboot_wait_timeout st / POLL_MS) + 2.
Definition wait_for_reboot (node : string) (w : PatchWorld) : Result AnyErr NodeStatusDetail * PatchWorld :=
  default (Err (bail ""), w) (wait_loop wait_fuel node (pw_clock w + reboot_wait_timeout st)%N false w).

(** ** [apply] *)
(** One node: its plan afterwards, and whether the run goes on. *)
Inductive NodeEnd := Continue | Stop | Raise (e : PErr).
Definition set_status (node : string) (p : Phase) (n : NodePlan) (w : PatchWorld) : NodePlan * PatchWorld :=
  (n <| np_status := p |>, report node p w).
Definition reboot_node (n : NodePlan) (w : PatchWorld) : NodeEnd * bool * NodePlan * PatchWorld :=
  let node := np_node n in
  let '(n, w) := set_status node PhReboot n w in
  if dry_run st then (Continue, false, n, w)
  else
    let '(r, w) := run_reboot node w in
    match r with
    | Err e => let '(n, w) := set_status node (PhFailed "reboot" (show_err e)) n w in (Stop, false, n, w)
    | Ok _ =>
        let '(n, w) := set_status node PhWaitReboot n w in
        let '(r, w) := wait_for_reboot node w in
        match r with
        | Ok post => (Continue, true, n <| np_kernel_after := Some (nd_kversion post) |>, w)
        | Err e => let '(n, w) := set_status node (PhFailed "wait_reboot" (show_err e)) n w in (Stop, false, n, w)
        end
    end.
Definition apply_node (n : NodePlan) (w : PatchWorld) : NodeEnd * NodePlan * PatchWorld :=
  let node := np_node n in
  if is_skipped (np_status n) || is_failed (np_status n) then (Continue, n, report node (np_status n) w)
  else
    let '(d, w) := call (fun k => be_detail be k node) w in
    let n := n <| np_kernel_before := nd_kversion <$> result_ok d |> in
    let '(n, w) := set_status node PhUpgrade n w in
    let '(r, w) := if dry_run st then (Ok tt, w) else run_upgrade node w in
    match r with
    | Err (PeErr e) => let '(n, w) := set_status node (PhFailed "upgrade" (show_err e)) n w in (Stop, n, w)
    | Err e => (Raise e, n, w)
    | Ok _ =>
        let '(e, rebooted, n, w) :=
          if should_reboot (reboot_policy st) n then reboot_node n w else (Continue, false, n, w) in
        match e with
        | Continue => let '(n, w) := set_status node (PhDone rebooted (pkg_count n)) n w in (Continue, n, w)
        | _ => (e, n, w)
        end
    end.
Fixpoint apply_nodes (nodes : list NodePlan) (w : PatchWorld) : Result PErr (list NodePlan) * PatchWorld :=
  match nodes with
  | [] => (Ok [], w)
  | n :: rest =>
      let '(e, n, w) := apply_node n w in
      match e with
      | Raise e => (Err e, w)
      | Stop => (Ok (n :: rest), w)
      | Continue =>
          let '(r, w) := apply_nodes rest w in
          (match r with Ok l => Ok (n :: l) | Err e => Err e end, w)
      end
  end.
Definition apply_plan (p : PatchPlan) (w : PatchWorld) : Result PErr PatchPlan * PatchWorld :=
  if negb (max_concurrent st =? 1)%N then
    (Err (PeErr (bail ("max_concurrent=" +:+ pretty (max_concurrent st)
       +:+ " is not supported: patch execution is serial by design (concurrent node reboots risk HA quorum loss). "
       +:+ "Use max_concurrent=1, or run multiple `proxxx patch apply` invocations over disjoint node sets for parallelism."))), w)
  else
    let '(r, w) := apply_nodes (pp_nodes p) w in
    (match r with Ok l => Ok (mkPatchPlan l (pp_summary p)) | Err e => Err e end, w).

(** ** cli/patch.rs *)
Definition only_of (node : list string) : option (list string) := match node with [] => None | _ => Some node end.
Definition execute_apply (node : list string) (w : PatchWorld) : Result PErr (PatchPlan * N) * PatchWorld :=
  let '(r, w) := plan (only_of node) w in
  match r with
  | Err e => (Err (PeErr e), w)
  | Ok p =>
      let '(r, w) := apply_plan p w in
      (match r with
       | Ok p => Ok (p, if existsb (fun n => is_failed (np_status n)) (pp_nodes p) then 1%N else 0%N)
       | Err e => Err e
       end, w)
  end.
End orchestrator.

(** [check_apt_changelog] *)
Definition check_apt_changelog (package text : string) : Result AnyErr string :=
  let ls := GuestPreflight.lines text in
  let rc := List.find (fun l => negb (is_empty (trim l))) (rev ls)
            ≫= fun l => strip_prefix "RC: " (trim l)
            ≫= fun code => parse_i32 (trim code) in
  match rc with
  | Some code =>
      if (code =? 0)%Z then Ok text
      else
        let message := join "; " (List.filter (fun l => negb (is_empty (trim l)) && negb (starts_with "RC: " (trim l))) ls) in
        if contains "Unable to locate package" text || contains "No packages found" text
        then Err (of_api (NotFound ("package " +:+ package +:+ " is not known to apt on this node (" +:+ message +:+ ")")))
        else Err (bail ("apt changelog for " +:+ package +:+ " failed with RC " +:+ pretty code +:+ ": " +:+ message))
  | None => Ok text
  end.

(** * What a patch run does

    The wait for a reboot ends ([wait_terminates]); nodes are worked on one
    after the other, and a failure leaves the rest alone ([patch_serial]). *)
Section spec.
Context (be : Backend) (st : PatchStrategy).

(** ** The wait *)
Lemma wait_loop_ends fuel node deadline saw w :
  (deadline <= pw_clock w + POLL_MS * N.of_nat fuel)%N -> exists r, wait_loop be st (S fuel) node deadline saw w = Some r.
Proof.
  revert saw w. induction fuel as [|fuel IH]; intros saw w H.
  - simpl. assert (pw_clock w <? deadline = false)%N as -> by (apply N.ltb_ge; lia). eauto.
  - remember (S fuel) as k eqn:Ek. cbn [wait_loop]. destruct (pw_clock w <? deadline)%N; [|eauto]. subst k. unfold POLL_MS, call in *.
    cbv beta iota zeta. destruct (negb (is_online _ _)); [apply IH; cbn; lia|]. destruct (negb saw); [apply IH; cbn; lia|].
    destruct (be_detail be _ _); [eauto|]. apply IH. cbn. lia.
Qed.
(** The fuel of [wait_for_reboot] is enough. *)
Lemma wait_terminates node w :
  exists r, wait_loop be st (wait_fuel st) node (pw_clock w + reboot_wait_timeout st)%N false w = Some r.
Proof.
  unfold wait_fuel. rewrite Nat.add_comm. apply wait_loop_ends.
  pose proof (N.div_mod (reboot_wait_timeout st) POLL_MS ltac:(done)) as Hd.
  pose proof (N.mod_lt (reboot_wait_timeout st) POLL_MS ltac:(done)). unfold POLL_MS in *. lia.
Qed.

(** ** Frames: only [ssh] sends *)
Lemma wait_loop_ssh fuel node deadline saw w r w' :
  wait_loop be st fuel node deadline saw w = Some (r, w') -> pw_ssh w' = pw_ssh w.
Proof.
  revert saw w. induction fuel as [|fuel IH]; intros saw w; [done|]. cbn [wait_loop].
  destruct (pw_clock w <? deadline)%N; [|by intros [= _ <-]]. unfold call. cbv beta iota zeta.
  destruct (negb (is_online _ _)); [by intros ->%IH|]. destruct (negb saw); [by intros ->%IH|].
  destruct (be_detail be _ _); [by intros [= _ <-]|by intros ->%IH].
Qed.
Lemma wait_ssh node w : pw_ssh (wait_for_reboot be st node w).2 = pw_ssh w.
Proof.
  unfold wait_for_reboot. destruct (wait_terminates node w) as [[r w'] E]. rewrite E. by eapply wait_loop_ssh.
Qed.
Definition sends (w w' : PatchWorld) (l : list (string * string)) : Prop := pw_ssh w' = pw_ssh w ++ l.
Lemma run_upgrade_sends node w r w' :
  run_upgrade be node w = (r, w') ->
  match r with
  | Ok _ | Err (PeErr _) | Err PePanic => sends w w' [(node, UPGRADE_CMD)]
  | Err (PeRefused _) => sends w w' []
  end.
Proof.
  unfold run_upgrade, sends. cbn. destruct (be_audit be _ _); [|intros [= <- <-]; cbn; by rewrite app_nil_r]. cbn.
  destruct (be_ssh be _ _ _) as [res|e]; [|by intros [= <- <-]].
  destruct (exec_ok res); [by intros [= <- <-]|]. by destruct (tail_str _ _); intros [= <- <-].
Qed.
Lemma run_reboot_sends node w r w' : run_reboot be node w = (r, w') -> sends w w' [(node, REBOOT_CMD)].
Proof.
  unfold run_reboot, sends. cbn. destruct (be_ssh be _ _ _) as [res|e]; [by intros [= <- <-]|].
  by destruct (contains "timed out" _ || _); intros [= <- <-].
Qed.

#[local] Opaque run_upgrade run_reboot wait_for_reboot.

(** ** One node *)
Definition runnable (n : NodePlan) : bool := negb (is_skipped (np_status n) || is_failed (np_status n)).
(** The commands of a node that goes through; none for one that the plan passes over. *)
Definition cmds (n : NodePlan) : list (string * string) :=
  if dry_run st || negb (runnable n) then []
  else (np_node n, UPGRADE_CMD) :: (if should_reboot (reboot_policy st) n then [(np_node n, REBOOT_CMD)] else []).
(** The three ways a node comes out of a run: patched, passed over since the
    plan skipped it or had failed on it, or failed in the run. *)
Definition patched (n n' : NodePlan) : Prop :=
  runnable n = true /\ np_node n' = np_node n /\
  np_status n' = PhDone (negb (dry_run st) && should_reboot (reboot_policy st) n) (pkg_count n).
Definition passed_over (n n' : NodePlan) : Prop := runnable n = false /\ n' = n.
Definition stopped (n n' : NodePlan) : Prop :=
  np_node n' = np_node n /\ runnable n = true /\ is_failed (np_status n') = true.

Lemma reboot_node_spec n w e rb n' w' :
  reboot_node be st n w = (e, rb, n', w') ->
  np_node n' = np_node n /\ np_upgradable n' = np_upgradable n /\
  sends w w' (if dry_run st then [] else [(np_node n, REBOOT_CMD)]) /\
  match e with
  | Continue => rb = negb (dry_run st)
  | Stop => is_failed (np_status n') = true
  | Raise _ => False
  end.
Proof.
  unfold reboot_node, set_status. destruct (dry_run st) eqn:Ed.
  { intros [= <- <- <- <-]. unfold sends. cbn. by rewrite app_nil_r. }
  destruct (run_reboot be (np_node n) (report (np_node n) PhReboot w)) as [r w1] eqn:Er.
  apply run_reboot_sends in Er. destruct r as [[]|err]; [|by intros [= <- <- <- <-]].
  pose proof (wait_ssh (np_node n) (report (np_node n) PhWaitReboot w1)) as Hw.
  destruct (wait_for_reboot be st (np_node n) (report (np_node n) PhWaitReboot w1)) as [r w2].
  unfold sends in *. cbn in Hw, Er. destruct r as [post|err]; intros [= <- <- <- <-]; cbn; by rewrite Hw.
Qed.
#[local] Opaque reboot_node.
Lemma apply_node_spec n w e n' w' :
  apply_node be st n w = (e, n', w') ->
  match e with
  | Continue => (patched n n' \/ passed_over n n') /\ sends w w' (cmds n)
  | Stop => stopped n n' /\ exists l, l `prefix_of` cmds n /\ sends w w' l
  | Raise _ => runnable n = true /\ exists l, l `prefix_of` cmds n /\ sends w w' l
  end.
Proof.
  unfold apply_node, patched, passed_over, stopped, cmds, runnable.
  destruct (is_skipped (np_status n) || is_failed (np_status n)) eqn:Er; cbn [negb].
  { intros [= <- <- <-]. rewrite orb_true_r. unfold sends. cbn. rewrite app_nil_r. split; [by right|done]. }
  cbn. rewrite orb_false_r. unfold set_status. cbv beta iota zeta.
  set (n1 := n <| np_kernel_before := _ |> <| np_status := PhUpgrade |>). set (w1 := report _ PhUpgrade _).
  assert (pw_ssh w1 = pw_ssh w) as Hw1 by done.
  destruct (if dry_run st then (Ok tt, w1) else run_upgrade be (np_node n) w1) as [r w2] eqn:Eu.
  assert (match r with
          | Ok _ | Err (PeErr _) | Err PePanic => sends w w2 (if dry_run st then [] else [(np_node n, UPGRADE_CMD)])
          | Err (PeRefused _) => sends w w2 []
          end) as Hs.
  { destruct (dry_run st); [simplify_eq; unfold sends; by rewrite app_nil_r|].
    apply run_upgrade_sends in Eu. unfold sends in *. rewrite Hw1 in Eu. by destruct r as [|[]]. }
  clear Eu. destruct r as [[]|[er|er|]].
  - change (should_reboot (reboot_policy st) n1) with (should_reboot (reboot_policy st) n).
    destruct (should_reboot (reboot_policy st) n) eqn:Esr.
    + destruct (reboot_node be st n1 w2) as [[[e0 rb] n2] w3] eqn:Eb.
      apply reboot_node_spec in Eb as (Hn & Hu & Hsend & He).
      assert (sends w w3 (if dry_run st then [] else [(np_node n, UPGRADE_CMD); (np_node n, REBOOT_CMD)])) as Hs3.
      { unfold sends in *. rewrite Hsend, Hs, <- app_assoc. by destruct (dry_run st). }
      destruct e0; [| |done]; unfold set_status; cbv beta iota zeta; intros [= <- <- <-].
      * subst rb. cbn. unfold pkg_count. rewrite Hu. rewrite andb_true_r. split; [left; by repeat split|done].
      * repeat split; try done. exists (if dry_run st then [] else [(np_node n, UPGRADE_CMD); (np_node n, REBOOT_CMD)]).
        split; [by destruct (dry_run st)|done].
    + unfold set_status; cbv beta iota zeta; intros [= <- <- <-]. cbn. rewrite andb_false_r. split; [left; by repeat split|]. unfold sends in *. cbn. by destruct (dry_run st).
  - intros [= <- <- <-]. split; [done|]. exists []. split; [apply prefix_nil|done].
  - intros [= <- <- <-]. split; [done|]. eexists. split; [|exact Hs].
    destruct (dry_run st); [apply prefix_nil|]. apply prefix_cons, prefix_nil.
  - intros [= <- <- <-]. split; [done|]. eexists. split; [|exact Hs].
    destruct (dry_run st); [apply prefix_nil|]. apply prefix_cons, prefix_nil.
Qed.

(** ** The run *)
Lemma sends_app w w1 w2 l l' : sends w w1 l -> sends w1 w2 l' -> sends w w2 (l ++ l').
Proof. unfold sends. intros H1 H2. by rewrite H2, H1, app_assoc. Qed.
#[local] Opaque apply_node.
Lemma apply_nodes_spec nodes w r w' :
  apply_nodes be st nodes w = (r, w') ->
  exists done cur rest l,
    nodes = done ++ cur ++ rest /\ length cur <= 1 /\ Forall (fun n => runnable n = true) cur /\ l `prefix_of` (cur ≫= cmds) /\ sends w w' ((done ≫= cmds) ++ l) /\
    match r with
    | Ok nodes' => exists done' cur', nodes' = done' ++ cur' ++ rest /\ Forall2 (fun n n' => patched n n' \/ passed_over n n') done done' /\
                     Forall2 stopped cur cur' /\ (cur = [] -> rest = [])
    | Err _ => cur <> []
    end.
Proof.
  revert w r. induction nodes as [|n nodes IH]; intros w r; cbn [apply_nodes].
  { intros [= <- <-]. exists [], [], [], []. split; [done|]. split; [simpl; lia|]. split; [constructor|]. split; [done|].
    split; [unfold sends; by rewrite app_nil_r|]. by exists [], []. }
  destruct (apply_node be st n w) as [[e n'] w1] eqn:E. apply apply_node_spec in E. destruct e as [| |e].
  - destruct E as [Hf Hs]. destruct (apply_nodes be st nodes w1) as [r1 w2] eqn:E1. intros [= <- <-].
    destruct (IH _ _ E1) as (done & cur & rest & l & -> & Hc & Hrun & Hl & Hs1 & Hr).
    exists (n :: done), cur, rest, l. split; [done|]. split; [done|]. split; [done|]. split; [done|]. split.
    { cbn. rewrite <- app_assoc. by eapply sends_app. }
    destruct r1 as [nodes'|]; [|done]. destruct Hr as (done' & cur' & -> & Hd & Hcur & Hn).
    exists (n' :: done'), cur'. split; [done|]. split; [by constructor|done].
  - destruct E as [Hst (l & Hl & Hs)]. intros [= <- <-]. exists [], [n], nodes, l. split; [done|]. split; [simpl; lia|].
    split; [apply Forall_singleton; apply Hst|]. split; [cbn; by rewrite app_nil_r|]. split; [done|]. exists [], [n']. split; [done|]. split; [done|].
    split; [by constructor|done].
  - destruct E as [Hrun (l & Hl & Hs)]. intros [= <- <-]. exists [], [n], nodes, l. split; [done|]. split; [simpl; lia|].
    split; [by apply Forall_singleton|]. split; [cbn; by rewrite app_nil_r|]. done.
Qed.
End spec.


(** *** A two-node run: the second upgrade fails *)
Definition up (n : string) : Alerts.Node := mkNode n Online (F64.f64_of_N 0) 0 0 0 0 0 0.
Definition apt (p : string) : AptUpgradable := mkApt p "1" "2" "" "".
Definition demo_backend : Backend := {|
  be_nodes := fun k => if Nat.even k then Err (bail "no route") else Ok [up "pve1"; up "pve2"];
  be_refresh := fun _ _ => Ok tt; be_upgradable := fun _ _ => Ok [apt "libc6"];
  be_detail := fun _ _ => Ok (mkDetail 5 "6.8" "8.2");
  be_ssh := fun _ n c => if bool_decide (n = "pve2") then Ok (mkExec "" "E: broken" (Some 100%N)) else Ok (mkExec "" "" (Some 0%N));
  be_audit := fun _ _ => Ok tt; be_took := fun _ => 10%N |}.
Definition demo_plan : PatchPlan :=
  mkPatchPlan [from_inventory "pve1" [apt "libc6"]; from_inventory "pve2" [apt "bash"]; from_inventory "pve3" [apt "bash"]] [].
Definition world0 : PatchWorld := mkPatchWorld 0 0 [] [] [].

(** ** What the code does not promise *)

(** A node that failed while planning does not stop the rest: the ones after
    it are upgraded. *)
Example planned_failure_is_passed_over :
  let p := mkPatchPlan [failed_plan "pve1" "refresh" (bail "no route"); from_inventory "pve3" [apt "bash"]] [] in
  pw_ssh (apply_plan demo_backend PatchStrategy_default p world0).2 = [("pve3", UPGRADE_CMD)].
Proof. vm_compute. reflexivity. Qed.

(** One unanswered poll before the node goes down is taken for the reboot: the
    node is reported as rebooted although it was online in every list. *)
Example dropped_poll_counts_as_reboot :
  let be := {| be_nodes := fun k => match k with 0 => Err (bail "connection reset") | _ => Ok [up "pve1"] end;
               be_refresh := be_refresh demo_backend; be_upgradable := be_upgradable demo_backend;
               be_detail := be_detail demo_backend; be_ssh := be_ssh demo_backend; be_audit := be_audit demo_backend;
               be_took := be_took demo_backend |} in
  is_ok (wait_for_reboot be PatchStrategy_default "pve1" world0).1 = true.
Proof. vm_compute. reflexivity. Qed.

(** A failed upgrade whose error text has a character across the cut of
    [tail] panics instead of reporting the failure. *)
Fixpoint repeat_str (n : nat) (s : string) : string := match n with 0 => "" | S n => s +:+ repeat_str n s end.
Example failed_upgrade_can_panic :
  let be := {| be_nodes := be_nodes demo_backend;
               be_refresh := be_refresh demo_backend; be_upgradable := be_upgradable demo_backend;
               be_detail := be_detail demo_backend;
               be_ssh := fun _ _ _ => Ok (mkExec "" ("é" +:+ repeat_str 499 "x") (Some 100%N));
               be_audit := be_audit demo_backend; be_took := be_took demo_backend |} in
  (run_upgrade be "pve1" world0).1 = Err PePanic.
Proof. vm_compute. reflexivity. Qed.
