(* ===== verification/TuiHitl.v ===== *)
(** * The terminal interface's gate and dispatch: tui/mod.rs, hitl/mod.rs

    [check_hitl] decides whether an effect runs at once or waits for people;
    [HitlCoordinator] collects their presses; [dispatch_side_effect] turns an
    effect into requests, and [exec_queued_op] runs one operation of the queue
    after its own pre-flight.  A task spawned by the code is a value here
    ([Job]), run by [run_job]. *)

From S2P Require Import Prelude.
From S2P Require Import ApiError.
From S2P Require Import Guest.
From S2P Require Import GuestPreflight.
From S2P Require Import Mac.
From S2P Require Import HitlPending.
From S2P Require Import HitlCallback.
From S2P Require Import HitlDaemon.
From S2P Require Import AppModel.

(** ** Which effects are gated *)
Definition DESTRUCTIVE_ACTIONS : list string :=
  ["stop"; "delete"; "restart"; "migrate"; "exec"; "move_disk"; "resize_disk"; "suspend"; "task_stop";
   "backup_stop"; "template"; "snapshot_delete"; "patch_apply"; "node_stopall"; "node_suspendall";
   "vm_raw_set"; "vm_sendkey"; "vm_unlink"; "ct_raw_set"; "qga_write"; "ssh_cmd"; "ha_group_delete";
   "backup_job_delete"; "firewall_alias_update"; "firewall_alias_delete"; "firewall_group_delete";
   "firewall_ipset_add_cidr"; "firewall_ipset_delete"; "firewall_ipset_remove_cidr"; "firewall_options_set";
   "guest_firewall_alias_update"; "guest_firewall_alias_delete"; "guest_firewall_options_set";
   "cluster_mapping_pci_delete"; "cluster_mapping_usb_delete"; "node_subscription_delete"; "node_cert_delete";
   "pool_remove_members"; "pool_delete"; "metric_server_delete"; "notification_endpoint_delete";
   "notification_matcher_delete"; "storage_def_update"; "storage_def_delete"; "storage_delete"; "pbs_restore";
   "acme_account_delete"; "acme_plugin_delete"; "corosync_node_add"; "corosync_node_remove"; "cluster_join";
   "qdevice_setup"; "qdevice_update"; "qdevice_delete"; "user_update"; "user_delete"; "group_delete";
   "acl_unset"; "access_password"; "token_revoke"; "token_bootstrap_rotate"; "schedule_remove"; "state_apply";
   "reconcile_converge"].
Definition is_destructive_action (action : string) : bool := bool_decide (action ∈ DESTRUCTIVE_ACTIONS).

Record HitlTarget := mkHitlTarget { ht_action : string; ht_vmid : N }.
Definition hitl_action (effect : SideEffect) : option HitlTarget :=
  match effect with
  | SeStartGuest vmid => Some (mkHitlTarget "start" vmid)
  | SeStopGuest vmid _ => Some (mkHitlTarget "stop" vmid)
  | SeRestartGuest vmid => Some (mkHitlTarget "restart" vmid)
  | SeDeleteGuest vmid => Some (mkHitlTarget "delete" vmid)
  | SeCreateSnapshot vmid _ => Some (mkHitlTarget "snapshot" vmid)
  | SeMigrateGuest _ vmid _ => Some (mkHitlTarget "migrate" vmid)
  | SeExecuteGuestCommand _ vmid _ _ => Some (mkHitlTarget "exec" vmid)
  | SeDownloadIso _ _ _ _ _ _ => Some (mkHitlTarget "download_iso" 0)
  | SeMoveDisk _ vmid _ _ _ _ => Some (mkHitlTarget "move_disk" vmid)
  | SeResizeDisk _ vmid _ _ _ => Some (mkHitlTarget "resize_disk" vmid)
  | SeQuit | SeFetchTaskLog _ _ | SeExecuteQueue _ | SeConfigGrep _ | SeOpenSshSession _
  | SeSetSshPassphraseAndOpen _ _ | SeCloseSshSession | SeFetchSnapshotTree _ | SeFetchHaConsoleData
  | SeFetchHardwareData _ | SeSwitchProfile _ => None
  end.
Definition queued_action_hitl_target (action : Action) : option HitlTarget :=
  match action with
  | AcStartGuest vmid => Some (mkHitlTarget "start" vmid)
  | AcStopGuest vmid _ => Some (mkHitlTarget "stop" vmid)
  | AcRestartGuest vmid => Some (mkHitlTarget "restart" vmid)
  | AcDeleteGuest vmid => Some (mkHitlTarget "delete" vmid)
  | AcMigrateGuest vmid _ => Some (mkHitlTarget "migrate" vmid)
  | AcExecuteGuestCommand vmid _ => Some (mkHitlTarget "exec" vmid)
  | AcMoveDisk vmid _ _ _ => Some (mkHitlTarget "move_disk" vmid)
  | AcResizeDisk vmid _ _ => Some (mkHitlTarget "resize_disk" vmid)
  | _ => None
  end.

(** ** [HitlCoordinator]

    Times are in milliseconds of a monotonic clock.  [oneshot::Sender::send] is
    the last component of an operation's result. *)
Record PendingTuiEntry := mkTuiEntry { te_require : N; te_expires_at : N; te_approvers : gset Z }.
Notation HitlCoordinator := (gmap string PendingTuiEntry).
Inductive TuiCoordOutcome :=
  | TcExpiredOrUnknown
  | TcDenied
  | TcAwaitingApprovals (have need : nat) (duplicate : bool)
  | TcApproved.

Definition register_with_quorum_and_ttl (now : N) (txn_id : string) (require ttl : N) (c : HitlCoordinator) :
    HitlCoordinator :=
  <[txn_id := mkTuiEntry (N.max require 1) (now + ttl) ∅]> c.
Definition register_with_quorum (now : N) (txn_id : string) (require : N) (c : HitlCoordinator) : HitlCoordinator :=
  register_with_quorum_and_ttl now txn_id require (Z.to_N DEFAULT_HITL_TTL_SECS * 1000) c.
Definition register (now : N) (txn_id : string) (c : HitlCoordinator) : HitlCoordinator :=
  register_with_quorum now txn_id 1 c.
Definition unregister (txn_id : string) (c : HitlCoordinator) : HitlCoordinator := delete txn_id c.
Definition is_pending (now : N) (txn_id : string) (c : HitlCoordinator) : bool * HitlCoordinator :=
  match c !! txn_id with
  | Some entry => if (now <? te_expires_at entry)%N then (true, c) else (false, delete txn_id c)
  | None => (false, c)
  end.
Definition resolve (now : N) (txn_id : string) (approved : bool) (c : HitlCoordinator) :
    bool * HitlCoordinator * option bool :=
  match c !! txn_id with
  | Some e => if (now <? te_expires_at e)%N then (true, delete txn_id c, Some approved) else (false, delete txn_id c, None)
  | None => (false, c, None)
  end.
Definition apply_callback (now : N) (txn_id : string) (decision : CallbackDecision) (approver_id : Z)
    (c : HitlCoordinator) : TuiCoordOutcome * HitlCoordinator * option bool :=
  match c !! txn_id with
  | None => (TcExpiredOrUnknown, c, None)
  | Some entry =>
      if (te_expires_at entry <=? now)%N then (TcExpiredOrUnknown, delete txn_id c, None)
      else
        match decision with
        | Deny => (TcDenied, delete txn_id c, Some false)
        | Approve =>
            let fresh := negb (bool_decide (approver_id ∈ te_approvers entry)) in
            let approvers := {[approver_id]} ∪ te_approvers entry in
            let have := size approvers in
            let need := N.to_nat (N.max (te_require entry) 1) in
            if bool_decide (need <= have) then (TcApproved, delete txn_id c, Some true)
            else (TcAwaitingApprovals have need (negb fresh),
                  <[txn_id := mkTuiEntry (te_require entry) (te_expires_at entry) approvers]> c, None)
        end
  end.

(** [handle_tui_callback_query]: what the person is answered, and the decision
    that is delivered, with its request. *)
Section poller.
Context {M : Mac}.
Definition outcome_text (o : TuiCoordOutcome) : string :=
  match o with
  | TcExpiredOrUnknown => "⚠️ Expired or unknown request"
  | TcDenied => "🚫 Denied"
  | TcAwaitingApprovals have need duplicate =>
      if duplicate then "You already approved — " +:+ pretty have +:+ "/" +:+ pretty need
      else "Recorded — " +:+ pretty have +:+ "/" +:+ pretty need +:+ " approvals"
  | TcApproved => "✅ Approved"
  end.
Definition handle_tui_callback_query (tg : TelegramGateway) (now : N) (cb : CallbackQuery) (c : HitlCoordinator) :
    option string * HitlCoordinator * option (string * bool) :=
  match verify_callback tg cb with
  | Err rej => (answer_text rej, c, None)
  | Ok verified =>
      let '(o, c, sent) := apply_callback now (vc_txn_id verified) (vc_decision verified) (vc_approver_id verified) c in
      (Some (outcome_text o), c, (fun b => (vc_txn_id verified, b)) <$> sent)
  end.
End poller.

(** ** [check_hitl] *)
Record HitlRequest := mkHitlRequest {
  hr_txn_id : string;
  hr_channel : string;
  hr_require : N;
  hr_desc : string;
  hr_reason : string;
  hr_action : string;
  hr_target : string;
  hr_effect : SideEffect;
}.
Inductive Gate := Proceed (effect : SideEffect) | Intercept (request : HitlRequest).

(** The policy that applies, and whether people must be asked. *)
Definition policy_for (policies : list Policy) (st : AppState) (action : string) (vmid : N) : option Policy :=
  let tags := match find_guest_in (guests st) vmid with Some g => tag_list g | None => [] end in
  check_policies policies action (pretty vmid) tags.
Definition secure_required (st : AppState) (action : string) : bool := secure_mode st && is_destructive_action action.

Definition check_hitl (policies : list Policy) (st : AppState) (skip_hitl : bool) (txn_id : string)
    (action : string) (vmid : N) (effect : SideEffect) : Gate :=
  if skip_hitl then Proceed effect
  else
    let policy_match := policy_for policies st action vmid in
    let secure := secure_required st action in
    if bool_decide (is_Some policy_match) || secure then
      let channel := if secure then "telegram"
                     else match policy_match with Some pm => po_channel pm | None => "telegram" end in
      let require := match policy_match with Some pm => po_require pm | None => 1%N end in
      Intercept {| hr_txn_id := txn_id; hr_channel := channel; hr_require := require;
                   hr_desc := "Operation " +:+ action +:+ " on " +:+ pretty vmid +:+ " requires approval via " +:+ channel;
                   hr_reason := "TUI requested " +:+ action +:+ " on guest " +:+ pretty vmid;
                   hr_action := action; hr_target := pretty vmid; hr_effect := effect |}
    else Proceed effect.

(** ** Messages to the controller

    The messages of the approval task, of the cluster requests and of the queue;
    those that carry fetched data are not sent by anything here. *)
Inductive DataMsg :=
  | DmError (e : string)
  | DmHitlRequested (txn_id description : string)
  | DmHitlApproved (txn_id : string) (approved : bool) (effect : SideEffect)
  | DmTaskStarted (upid : string)
  | DmGuestTaskFinished (vmid : N)
  | DmQueueOpStatusChanged (id : string) (status : OpStatus)
  | DmShutdownTimeout (vmid elapsed_secs : N)
  | DmGuestStatusPolled (vmid : N) (status : string) (elapsed_secs : N).

(** The spawned approval task, given how Telegram took the request and what the
    coordinator delivered within two minutes. *)
Definition denied_ops (effect : SideEffect) : list DataMsg :=
  match effect with
  | SeExecuteQueue ops =>
      (fun op => DmQueueOpStatusChanged (op_id op) (Error "HITL approval denied or timed out")) <$> ops
  | _ => []
  end.
Inductive AskResult := NoTelegram | SendFailed | Asked (answer : option bool).
Definition hitl_approval (r : HitlRequest) (asked : AskResult) : list DataMsg :=
  let approved := match asked with Asked (Some b) => b | _ => false end in
  DmHitlRequested (hr_txn_id r) (hr_desc r)
    :: (if approved then [] else denied_ops (hr_effect r)) ++ [DmHitlApproved (hr_txn_id r) approved (hr_effect r)].

(** ** Requests to the cluster *)
Inductive TuiCall :=
  | ClStart (node : string) (vmid : N) (gt : GuestType)
  | ClStop (node : string) (vmid : N) (gt : GuestType) (force : bool)
  | ClShutdown (node : string) (vmid : N) (gt : GuestType) (timeout_secs : N)
  | ClRestart (node : string) (vmid : N) (gt : GuestType)
  | ClSnapshot (node : string) (vmid : N) (gt : GuestType) (name : string)
  | ClDelete (node : string) (vmid : N) (gt : GuestType)
  | ClMigrate (node : string) (vmid : N) (gt : GuestType) (target : string) (online with_local_disks restart : bool)
  | ClExec (node : string) (vmid : N) (gt : GuestType) (command : string)
  | ClMoveDisk (node : string) (vmid : N) (gt : GuestType) (disk target_storage : string) (delete_source : bool)
  | ClResizeDisk (node : string) (vmid : N) (gt : GuestType) (disk size : string)
  | ClDownload (node storage url filename : string) (checksum : option (string * string)) (content : string).

(** A spawned task: waiting for approval, one request with what it reports, or
    a batch of the queue. *)
Inductive Job :=
  | JApproval (r : HitlRequest)
  | JCall (c : TuiCall)
  | JQueue (ops : list QueuedOp).

Definition is_qemu (gt : GuestType) : bool := match gt with Qemu => true | Lxc => false end.
Definition is_lxc (gt : GuestType) : bool := match gt with Qemu => false | Lxc => true end.
Definition migrate_call (node : string) (vmid : N) (gt : GuestType) (target : string) : TuiCall :=
  ClMigrate node vmid gt target (is_qemu gt) true (is_lxc gt).
Definition stop_call (node : string) (vmid : N) (gt : GuestType) (force : bool) : TuiCall :=
  if force then ClStop node vmid gt true else ClShutdown node vmid gt 60.

(** The operations of a batch that run at once and those that are asked for;
    [txn] gives the request id of each position. *)
Fixpoint split_batch (policies : list Policy) (st : AppState) (skip_hitl : bool) (txn : nat -> string)
    (ops : list QueuedOp) : list QueuedOp * list HitlRequest :=
  match ops with
  | [] => ([], [])
  | op :: rest =>
      let '(immediate, asked) := split_batch policies st skip_hitl (fun i => txn (S i)) rest in
      match queued_action_hitl_target (op_action op) with
      | Some target =>
          match check_hitl policies st skip_hitl (txn 0) (ht_action target) (ht_vmid target) (SeExecuteQueue [op]) with
          | Proceed (SeExecuteQueue unblocked) => (unblocked ++ immediate, asked)
          | Proceed _ => (immediate, asked)
          | Intercept r => (immediate, r :: asked)
          end
      | None => (op :: immediate, asked)
      end
  end.

(** The arms of an effect that passed the gate; the ones that only read are
    left out. *)
Definition effect_jobs (policies : list Policy) (st : AppState) (skip_hitl : bool) (txn : nat -> string)
    (saved : bool) (effect : SideEffect) : list Job * list DataMsg :=
  let on vmid (f : Guest -> TuiCall) : list Job * list DataMsg :=
    match find_guest_in (guests st) vmid with Some g => ([JCall (f g)], []) | None => ([], []) end in
  match effect with
  | SeStartGuest vmid => on vmid (fun g => ClStart (g_node g) vmid (g_guest_type g))
  | SeStopGuest vmid force => on vmid (fun g => stop_call (g_node g) vmid (g_guest_type g) force)
  | SeRestartGuest vmid => on vmid (fun g => ClRestart (g_node g) vmid (g_guest_type g))
  | SeCreateSnapshot vmid name => on vmid (fun g => ClSnapshot (g_node g) vmid (g_guest_type g) name)
  | SeDeleteGuest vmid => on vmid (fun g => ClDelete (g_node g) vmid (g_guest_type g))
  | SeMigrateGuest node vmid target_node =>
      match find_guest_in (guests st) vmid with
      | Some g => ([JCall (migrate_call node vmid (g_guest_type g) target_node)], [])
      | None => ([], [DmError ("migrate " +:+ pretty vmid +:+ ": guest type unknown, refresh and retry")])
      end
  | SeExecuteGuestCommand node vmid gt command => ([JCall (ClExec node vmid gt command)], [])
  | SeDownloadIso node s url filename checksum content =>
      ([JCall (ClDownload node s url filename checksum content)], [])
  | SeMoveDisk node vmid gt disk target_storage delete_source =>
      ([JCall (ClMoveDisk node vmid gt disk target_storage delete_source)], [])
  | SeResizeDisk node vmid gt disk size => ([JCall (ClResizeDisk node vmid gt disk size)], [])
  | SeExecuteQueue ops =>
      if negb saved then ([], [])
      else
        let '(immediate, asked) := split_batch policies st skip_hitl txn ops in
        ((JApproval <$> asked) ++ match immediate with [] => [] | _ => [JQueue immediate] end, [])
  | _ => ([], [])
  end.
Definition dispatch_side_effect (policies : list Policy) (st : AppState) (skip_hitl : bool) (txn : nat -> string)
    (saved : bool) (effect : SideEffect) : list Job * list DataMsg :=
  match hitl_action effect with
  | Some target =>
      match check_hitl policies st skip_hitl (txn 0) (ht_action target) (ht_vmid target) effect with
      | Intercept r => ([JApproval r], [])
      | Proceed effect => effect_jobs policies st skip_hitl txn saved effect
      end
  | None => effect_jobs policies st skip_hitl txn saved effect
  end.

(** ** Running a queued operation *)
Definition preflight_of (action : Action) : option Op :=
  match action with
  | AcDeleteGuest _ => Some OpDelete
  | AcStopGuest _ _ => Some OpStop
  | AcRestartGuest _ => Some OpRestart
  | AcMigrateGuest _ _ => Some OpMigrate
  | AcMoveDisk _ _ _ _ => Some OpMoveDisk
  | AcResizeDisk _ _ _ => Some OpResizeDisk
  | _ => None
  end.
Definition queued_call (action : Action) (node : string) (vmid : N) (gt : GuestType) : option TuiCall :=
  match action with
  | AcStartGuest _ => Some (ClStart node vmid gt)
  | AcStopGuest _ force => Some (stop_call node vmid gt force)
  | AcRestartGuest _ => Some (ClRestart node vmid gt)
  | AcMigrateGuest _ target_node => Some (migrate_call node vmid gt target_node)
  | AcExecuteGuestCommand _ command => Some (ClExec node vmid gt command)
  | AcMoveDisk _ disk target_storage delete_source => Some (ClMoveDisk node vmid gt disk target_storage delete_source)
  | AcResizeDisk _ disk size => Some (ClResizeDisk node vmid gt disk size)
  | AcDeleteGuest _ => Some (ClDelete node vmid gt)
  | _ => None
  end.
Definition severe_detail (risks : list (Risk * RiskLevel)) : string :=
  join "; " (describe <$> (fst <$> List.filter (fun rl => bool_decide (snd rl = Severe)) risks)).

(** [lookup] is [find_guest_full_with], [pve] the cluster's answer. *)
Definition exec_queued_op (lookup : N -> Result AnyErr Guest) (pve : TuiCall -> Result AnyErr string)
    (op : QueuedOp) : list TuiCall * OpStatus :=
  match queued_action_hitl_target (op_action op) with
  | None => ([], Error "Invalid Action")
  | Some target =>
      let vmid := ht_vmid target in
      match lookup vmid with
      | Err e => ([], Error (show_err e))
      | Ok g =>
          let risks := match preflight_of (op_action op) with
                       | Some p => if op_bypass_preflight op then [] else assess p g
                       | None => []
                       end in
          if bool_decide (max_level risks = Severe) then ([], Error ("preflight refused: " +:+ severe_detail risks))
          else
            match queued_call (op_action op) (g_node g) vmid (g_guest_type g) with
            | None => ([], Error "action not dispatchable from the operation queue")
            | Some c =>
                match pve c with
                | Ok _ => ([c], Success)
                | Err e => ([c], Error (show_outer e))
                end
            end
      end
  end.
Definition exec_queue (lookup : nat -> N -> Result AnyErr Guest) (pve : nat -> TuiCall -> Result AnyErr string)
    (ops : list QueuedOp) : list (list TuiCall * DataMsg) :=
  imap (fun i op => let '(cs, s) := exec_queued_op (lookup i) (pve i) op in (cs, DmQueueOpStatusChanged (op_id op) s)) ops.

(** ** Waiting for a shutdown *)
Inductive WaitOutcome := WoStopped (elapsed_secs : N) | WoTimeout (elapsed_secs : N).
Definition status_lower (s : GuestStatus) : string :=
  match s with
  | Running => "running" | Stopped => "stopped" | Paused => "paused" | Suspended => "suspended" | Unknown => "unknown"
  end.
(** [status k] is the answer of the [k]-th poll and how long it took, in
    milliseconds; [elapsed] is read before the poll. *)
Fixpoint wait_for_stopped (fuel : nat) (status : nat -> Result AnyErr GuestStatus * N) (max_wait poll_interval : N)
    (k : nat) (now : N) : option (WaitOutcome * list (string * N)) :=
  match fuel with
  | 0 => None
  | S fuel' =>
      let elapsed := (now + poll_interval)%N in
      let '(r, took) := status k in
      match r with
      | Ok Stopped => Some (WoStopped (elapsed / 1000), [("stopped", (elapsed / 1000)%N)])
      | _ =>
          let seen := match r with Ok s => status_lower s | Err _ => "unknown" end in
          let tick := (seen, (elapsed / 1000)%N) in
          if (max_wait <=? elapsed)%N then Some (WoTimeout (elapsed / 1000), [tick])
          else '(o, l) ← wait_for_stopped fuel' status max_wait poll_interval (S k) (elapsed + took)%N;
               Some (o, tick :: l)
      end
  end.
Definition stop_wait_fuel : nat := 21.
Definition MAX_WAIT_MS : N := 60000.
Definition STOP_POLL_MS : N := 3000.

(** What a single request reports. *)
Definition call_failed (c : TuiCall) (e : AnyErr) : string :=
  let why verb vmid := verb +:+ " " +:+ pretty (vmid : N) +:+ " failed: " +:+ show_outer e in
  match c with
  | ClStart _ v _ => why "start" v
  | ClStop _ v _ _ | ClShutdown _ v _ _ => why "stop" v
  | ClRestart _ v _ => why "restart" v
  | ClSnapshot _ v _ _ => why "snapshot of" v
  | ClDelete _ v _ => why "delete" v
  | ClMigrate _ v _ _ _ _ _ => why "migrate" v
  | ClExec _ v _ _ => why "command in" v
  | ClMoveDisk _ v _ _ _ _ => why "move disk of" v
  | ClResizeDisk _ v _ _ _ => why "resize disk of" v
  | ClDownload _ _ _ _ _ _ => "ISO download: " +:+ show_outer e
  end.
Definition shutdown_wait (c : TuiCall) (status : nat -> Result AnyErr GuestStatus * N) : list DataMsg :=
  match c with
  | ClShutdown _ v _ _ =>
      match wait_for_stopped stop_wait_fuel status MAX_WAIT_MS STOP_POLL_MS 0 0 with
      | None => []
      | Some (o, ticks) =>
          ((fun t => DmGuestStatusPolled v t.1 t.2) <$> ticks)
          ++ match o with WoTimeout secs => [DmShutdownTimeout v secs] | WoStopped _ => [] end
      end
  | _ => []
  end.
Definition finished_msg (c : TuiCall) : list DataMsg :=
  match c with
  | ClStart _ v _ | ClStop _ v _ _ | ClShutdown _ v _ _ | ClRestart _ v _ => [DmGuestTaskFinished v]
  | _ => []
  end.
Definition run_call (pve : TuiCall -> Result AnyErr string) (status : nat -> Result AnyErr GuestStatus * N) (c : TuiCall) :
    list DataMsg :=
  match pve c with
  | Ok upid =>
      match c with ClExec _ _ _ _ => [] | _ => [DmTaskStarted upid] end ++ shutdown_wait c status
  | Err e => [DmError (call_failed c e)]
  end ++ finished_msg c.
