(* ===== verification/TuiHitlSpec.v ===== *)
(** * What the terminal interface's gate promises

    [tui_runs_only_approved]: over any history, restarts included, a request to
    the cluster comes either from an effect no policy and no secure mode holds
    back, or from one that enough people approved since the last start.  [queued_op_preflighted]: an operation of the
    queue reaches the cluster only past its pre-flight. *)

From S2P Require Import Prelude.
From S2P Require Import ApiError.
From S2P Require Import Guest.
From S2P Require Import GuestPreflight.
From S2P Require Import Mac.
From S2P Require Import HitlPending.
From S2P Require Import HitlCallback.
From S2P Require Import AppModel.
From S2P Require Import TuiHitl.

(** ** One dispatch *)
Definition ungated (policies : list Policy) (st : AppState) (t : HitlTarget) : Prop :=
  policy_for policies st (ht_action t) (ht_vmid t) = None /\ secure_required st (ht_action t) = false.
Lemma check_hitl_proceed policies st txn a v e e' :
  check_hitl policies st false txn a v e = Proceed e' -> e' = e /\ ungated policies st (mkHitlTarget a v).
Proof.
  unfold check_hitl, ungated. cbv zeta. cbn. destruct (policy_for policies st a v); cbn; [done|].
  destruct (secure_required st a); cbn; [done|]. by intros [= ->].
Qed.
Lemma check_hitl_skip policies st txn a v e : check_hitl policies st true txn a v e = Proceed e.
Proof. done. Qed.

(** What a job stands for. *)
Definition job_free (policies : list Policy) (st : AppState) (effect : SideEffect) (j : Job) : Prop :=
  match j with
  | JApproval _ => True
  | JCall _ => exists t, hitl_action effect = Some t /\ ungated policies st t
  | JQueue ops => forall op t, op ∈ ops -> queued_action_hitl_target (op_action op) = Some t -> ungated policies st t
  end.
Lemma split_batch_free policies st txn ops :
  forall op t, op ∈ (split_batch policies st false txn ops).1 -> queued_action_hitl_target (op_action op) = Some t ->
  ungated policies st t.
Proof.
  revert txn. induction ops as [|o ops IH]; intros txn op t; cbn [split_batch]; [by intros ?%elem_of_nil|].
  specialize (IH (fun i => txn (S i))). destruct (split_batch policies st false (fun i => txn (S i)) ops) as [im asked].
  cbn in IH. destruct (queued_action_hitl_target (op_action o)) as [t0|] eqn:Et.
  - destruct (check_hitl _ _ _ _ _ _ _) as [e|r] eqn:Ec; [|apply IH].
    apply check_hitl_proceed in Ec as [-> Hu]. cbn. intros [->|Hin]%elem_of_cons Ht; [|by eapply IH].
    rewrite Et in Ht. injection Ht as <-. by destruct t0.
  - cbn. intros [->|Hin]%elem_of_cons Ht; [congruence|by eapply IH].
Qed.
Lemma effect_jobs_free policies st txn saved effect j :
  j ∈ (effect_jobs policies st false txn saved effect).1 ->
  match j with
  | JCall _ => is_Some (hitl_action effect)
  | JApproval _ => True
  | JQueue ops => forall op t, op ∈ ops -> queued_action_hitl_target (op_action op) = Some t -> ungated policies st t
  end.
Proof.
  destruct effect; cbn; try (intros ?%elem_of_nil; done);
    try (destruct (find_guest_in _ _); cbn; [|by intros ?%elem_of_nil]); try (intros ->%list_elem_of_singleton; by eexists).
  destruct saved; cbn; [|by intros ?%elem_of_nil]. pose proof (split_batch_free policies st txn ops) as Hf.
  destruct (split_batch policies st false txn ops) as [im asked]. cbn in *.
  intros [(r & -> & _)%list_elem_of_fmap|H]%elem_of_app; [done|].
  destruct im; [by apply elem_of_nil in H|]. apply list_elem_of_singleton in H as ->. done.
Qed.
Lemma dispatch_free policies st txn saved effect j :
  j ∈ (dispatch_side_effect policies st false txn saved effect).1 -> job_free policies st effect j.
Proof.
  unfold dispatch_side_effect, job_free. destruct (hitl_action effect) as [t|] eqn:Et.
  - destruct (check_hitl _ _ _ _ _ _ _) as [e|r] eqn:Ec.
    + apply check_hitl_proceed in Ec as [-> Hu]. intros H%effect_jobs_free. destruct j; try done.
      exists t. split; [done|]. by destruct t.
    + by intros ->%list_elem_of_singleton.
  - intros H%effect_jobs_free. destruct j; try done. rewrite Et in H. by destruct H.
Qed.

(** The guest action a request of the gate is for, and the number of people the
    policy of that action asks for. *)
Definition request_target (effect : SideEffect) : option HitlTarget :=
  match effect with SeExecuteQueue [op] => queued_action_hitl_target (op_action op) | _ => hitl_action effect end.
Definition gated (policies : list Policy) (st : AppState) (r : HitlRequest) : Prop :=
  exists t, request_target (hr_effect r) = Some t /\
    hr_require r = match policy_for policies st (ht_action t) (ht_vmid t) with Some pm => po_require pm | None => 1%N end.
Lemma check_hitl_intercept policies st skip txn t e r :
  request_target e = Some t -> check_hitl policies st skip txn (ht_action t) (ht_vmid t) e = Intercept r -> gated policies st r.
Proof.
  intros Ht. unfold check_hitl. destruct skip; [done|]. cbv zeta. destruct (_ || _); [|done]. intros [= <-]. by exists t.
Qed.
Lemma split_batch_gated policies st skip txn ops r :
  r ∈ (split_batch policies st skip txn ops).2 -> gated policies st r.
Proof.
  revert txn. induction ops as [|o ops IH]; intros txn; cbn [split_batch]; [by intros ?%elem_of_nil|].
  specialize (IH (fun i => txn (S i))). destruct (split_batch policies st skip (fun i => txn (S i)) ops) as [im asked].
  cbn in IH. destruct (queued_action_hitl_target (op_action o)) as [t0|] eqn:Et; [|apply IH].
  destruct (check_hitl _ _ _ _ _ _ _) as [e|r'] eqn:Ec; [destruct e; apply IH|].
  cbn. intros [->|Hin]%elem_of_cons; [|by apply IH]. by eapply check_hitl_intercept, Ec.
Qed.
Lemma hitl_target_is_request effect t : hitl_action effect = Some t -> request_target effect = Some t.
Proof. by destruct effect. Qed.
Lemma dispatch_gated policies st skip txn saved effect r :
  JApproval r ∈ (dispatch_side_effect policies st skip txn saved effect).1 -> gated policies st r.
Proof.
  assert (JApproval r ∈ (effect_jobs policies st skip txn saved effect).1 -> gated policies st r) as He.
  { destruct effect; cbn; try (intros ?%elem_of_nil; done);
      try (destruct (find_guest_in _ _); cbn; [|by intros ?%elem_of_nil]); try (by intros ?%list_elem_of_singleton).
    destruct saved; cbn; [|by intros ?%elem_of_nil]. pose proof (split_batch_gated policies st skip txn ops r) as Hf.
    destruct (split_batch policies st skip txn ops) as [im asked]. cbn in *.
    intros [(r' & [= <-] & Hr)%list_elem_of_fmap|H]%elem_of_app; [by apply Hf|].
    destruct im; [by apply elem_of_nil in H|]. by apply list_elem_of_singleton in H. }
  unfold dispatch_side_effect. destruct (hitl_action effect) as [t|] eqn:Et; [|done].
  destruct (check_hitl _ _ _ _ _ _ _) as [e|r'] eqn:Ec.
  - assert (e = effect) as ->; [|done]. revert Ec. unfold check_hitl. destruct skip; [by intros [= ->]|]. cbv zeta.
    destruct (_ || _); [done|]. by intros [= ->].
  - intros [= ->]%list_elem_of_singleton. eapply check_hitl_intercept, Ec. by apply hitl_target_is_request.
Qed.

(** ** Histories *)
Inductive TuiEvent :=
  (** an effect of the reducer, in the state it left; [sent r] says whether
      Telegram took the message *)
  | TeDispatch (st : AppState) (saved : bool) (txn : nat -> string) (effect : SideEffect) (sent : HitlRequest -> bool)
      (now : N)
  (** a press, with the state in which an approved effect then runs *)
  | TeCallback (cb : CallbackQuery) (now : N) (st : AppState) (saved : bool) (txn : nat -> string)
  (** the task's two minutes are over *)
  | TeTimeout (txn_id : string)
  (** the program ends, in whatever way, and is started again: the coordinator
      and the tasks that wait are gone *)
  | TeRestart.
Record TuiGate := mkTuiGate {
  tg_coord : HitlCoordinator;
  tg_waiting : gmap string HitlRequest;
  tg_ran : list (Job * option HitlRequest);
}.

Section history.
Context {M : Mac} (tg : TelegramGateway) (policies : list Policy).

(** The approval task up to its wait: it registers, sends, and unregisters when
    the message does not go out. *)
Definition ask (sent : HitlRequest -> bool) (now : N) (g : TuiGate) (r : HitlRequest) : TuiGate :=
  if sent r then
    mkTuiGate (register_with_quorum now (hr_txn_id r) (hr_require r) (tg_coord g))
      (<[hr_txn_id r := r]> (tg_waiting g)) (tg_ran g)
  else mkTuiGate (unregister (hr_txn_id r) (tg_coord g)) (tg_waiting g) (tg_ran g).
Definition start_job (sent : HitlRequest -> bool) (now : N) (by_ : option HitlRequest) (g : TuiGate) (j : Job) : TuiGate :=
  match j with
  | JApproval r => ask sent now g r
  | _ => mkTuiGate (tg_coord g) (tg_waiting g) (tg_ran g ++ [(j, by_)])
  end.
Definition tui_step (g : TuiGate) (ev : TuiEvent) : TuiGate :=
  match ev with
  | TeDispatch st saved txn effect sent now =>
      foldl (start_job sent now None) g (dispatch_side_effect policies st false txn saved effect).1
  | TeCallback cb now st saved txn =>
      let '(_, c, delivered) := handle_tui_callback_query tg now cb (tg_coord g) in
      match delivered with
      | None => mkTuiGate c (tg_waiting g) (tg_ran g)
      | Some (txn_id, approved) =>
          let g' := mkTuiGate c (delete txn_id (tg_waiting g)) (tg_ran g) in
          match tg_waiting g !! txn_id with
          | Some r => if (approved : bool)
                      then foldl (start_job (fun _ => false) now (Some r)) g'
                             (dispatch_side_effect policies st true txn saved (hr_effect r)).1
                      else g'
          | None => g'
          end
      end
  | TeTimeout txn_id => mkTuiGate (unregister txn_id (tg_coord g)) (delete txn_id (tg_waiting g)) (tg_ran g)
  | TeRestart => mkTuiGate ∅ ∅ (tg_ran g)
  end.
Definition tui_run (evs : list TuiEvent) : TuiGate := foldl tui_step (mkTuiGate ∅ ∅ []) evs.

(** What happened since the program was started last. *)
Definition session (evs : list TuiEvent) : list TuiEvent :=
  foldl (fun l ev => match ev with TeRestart => [] | _ => l ++ [ev] end) [] evs.

(** A verified approval of a request by a person. *)
Definition pressed (evs : list TuiEvent) (txn_id : string) (a : Z) : Prop :=
  exists cb now st saved txn v, TeCallback cb now st saved txn ∈ evs /\ verify_callback tg cb = Ok v /\
    vc_txn_id v = txn_id /\ vc_decision v = Approve /\ vc_approver_id v = a.
Definition quorum (evs : list TuiEvent) (r : HitlRequest) : Prop :=
  exists approvers : gset Z, (N.to_nat (N.max (hr_require r) 1) <= size approvers) /\
    forall a, a ∈ approvers -> pressed evs (hr_txn_id r) a.
(** The request was made by an effect of the reducer and asks for the number of
    people its policy demanded then. *)
Definition asked_for (evs : list TuiEvent) (r : HitlRequest) : Prop :=
  exists st saved txn effect sent now, TeDispatch st saved txn effect sent now ∈ evs /\ gated policies st r.
Definition justified (evs : list TuiEvent) (x : Job * option HitlRequest) : Prop :=
  match x.2 with
  | None => exists st saved txn effect sent now, TeDispatch st saved txn effect sent now ∈ evs /\
              x.1 ∈ (dispatch_side_effect policies st false txn saved effect).1 /\ job_free policies st effect x.1
  | Some r => exists before, before `prefix_of` evs /\ asked_for (session before) r /\ quorum (session before) r /\
              exists st saved txn, x.1 ∈ (dispatch_side_effect policies st true txn saved (hr_effect r)).1
  end.
Record GateInv (evs : list TuiEvent) (g : TuiGate) : Prop := mkGateInv {
  gi_coord txn_id e : tg_coord g !! txn_id = Some e ->
    exists r, tg_waiting g !! txn_id = Some r /\ hr_txn_id r = txn_id /\ te_require e = N.max (hr_require r) 1 /\
      forall a, a ∈ te_approvers e -> pressed (session evs) txn_id a;
  gi_waiting txn_id r : tg_waiting g !! txn_id = Some r -> hr_txn_id r = txn_id /\ asked_for (session evs) r;
  gi_ran : Forall (justified evs) (tg_ran g);
}.

Lemma session_snoc evs ev : ev <> TeRestart -> session (evs ++ [ev]) = session evs ++ [ev].
Proof. intros H. unfold session. rewrite foldl_app. cbn. by destruct ev. Qed.
Lemma elem_of_session evs ev : ev <> TeRestart -> ev ∈ session (evs ++ [ev]).
Proof. intros H. rewrite session_snoc by done. apply elem_of_app. right. by left. Qed.
Lemma pressed_mono evs ev txn_id a : pressed evs txn_id a -> pressed (evs ++ [ev]) txn_id a.
Proof.
  intros (cb & now & st & saved & txn & v & H & Hv). exists cb, now, st, saved, txn, v. split; [|done].
  apply elem_of_app. by left.
Qed.
Lemma asked_mono evs ev r : asked_for evs r -> asked_for (evs ++ [ev]) r.
Proof.
  intros (st & saved & txn & effect & sent & now & Hin & H). exists st, saved, txn, effect, sent, now.
  split; [|done]. apply elem_of_app. by left.
Qed.
Lemma justified_mono evs ev x : justified evs x -> justified (evs ++ [ev]) x.
Proof.
  unfold justified. destruct (x.2) as [r|].
  - intros (before & Hb & H). exists before. split; [|done]. by apply prefix_app_r.
  - intros (st & saved & txn & effect & sent & now & Hin & H). exists st, saved, txn, effect, sent, now.
    split; [|done]. apply elem_of_app. by left.
Qed.
Lemma gate_mono evs ev g : ev <> TeRestart -> GateInv evs g -> GateInv (evs ++ [ev]) g.
Proof.
  intros Hev [Hc Hw Hr]. split; rewrite ?(session_snoc _ _ Hev).
  - intros txn_id e H. destruct (Hc _ _ H) as (r & H1 & H2 & H3 & H4). exists r. split_and!; try done.
    intros a Ha. by apply pressed_mono, H4.
  - intros txn_id r H. destruct (Hw _ _ H). split; [done|]. by apply asked_mono.
  - eapply Forall_impl; [done|]. intros x. apply justified_mono.
Qed.
Lemma ask_inv evs sent now g r :
  (sent r = true -> asked_for (session evs) r) -> GateInv evs g -> GateInv evs (ask sent now g r).
Proof.
  intros Ha [Hc Hw Hr]. unfold ask. destruct (sent r).
  - split; cbn; [| |done].
    + unfold register_with_quorum, register_with_quorum_and_ttl. intros txn_id e.
      destruct (decide (txn_id = hr_txn_id r)) as [->|Hne].
      * rewrite !lookup_insert_eq. intros He. apply Some_inj in He as <-. exists r. split_and!; [done..|].
        intros a Hin. by apply not_elem_of_empty in Hin.
      * rewrite !lookup_insert_ne by done. apply Hc.
    + intros txn_id r'. destruct (decide (txn_id = hr_txn_id r)) as [->|Hne].
      * rewrite lookup_insert_eq. intros [= <-]. by auto.
      * rewrite lookup_insert_ne by done. apply Hw.
  - split; cbn; [|done|done]. intros txn_id e. unfold unregister. intros [_ H]%lookup_delete_Some. by apply Hc.
Qed.
Lemma jobs_inv evs sent now by_ jobs g :
  GateInv evs g -> (forall j, j ∈ jobs -> match j with JApproval r => sent r = true -> asked_for (session evs) r | _ => justified evs (j, by_) end) ->
  GateInv evs (foldl (start_job sent now by_) g jobs).
Proof.
  revert g. induction jobs as [|j jobs IH]; intros g HI Hj; [done|]. cbn. apply IH; [|intros; apply Hj; by right].
  specialize (Hj j ltac:(by left)). destruct j; cbn; [by apply ask_inv| |];
    destruct HI as [Hc Hw Hr]; (split; cbn; [done|done|]); apply Forall_app; (split; [done|by apply Forall_singleton]).
Qed.
Lemma tui_callback_inv evs cb now st saved txn g :
  GateInv (evs ++ [TeCallback cb now st saved txn]) g ->
  GateInv (evs ++ [TeCallback cb now st saved txn]) (tui_step g (TeCallback cb now st saved txn)).
Proof.
  set (evs' := evs ++ _). intros HI. pose proof HI as [Hc Hw Hr]. cbn [tui_step]. unfold handle_tui_callback_query.
  destruct (verify_callback tg cb) as [v|rej] eqn:Ev; [|by split].
  assert (vc_decision v = Approve -> pressed (session evs') (vc_txn_id v) (vc_approver_id v)) as Hpress.
  { intros Hd. exists cb, now, st, saved, txn, v. split; [|done]. by apply elem_of_session. }
  assert (forall g0 : TuiGate, tg_coord g0 = delete (vc_txn_id v) (tg_coord g) -> tg_ran g0 = tg_ran g ->
    (tg_waiting g0 = tg_waiting g \/ tg_waiting g0 = delete (vc_txn_id v) (tg_waiting g)) -> GateInv evs' g0) as Hdel.
  { intros g0 H1 H2 H3. split.
    - intros t e He. rewrite H1 in He. apply lookup_delete_Some in He as [Hne He]. destruct (Hc _ _ He) as (r & Hr1 & Hr2).
      exists r. split; [|done]. destruct H3 as [->| ->]; [done|]. by rewrite lookup_delete_ne.
    - intros t r Hr1. destruct H3 as [H3|H3]; rewrite H3 in Hr1; [by apply Hw|]. apply lookup_delete_Some in Hr1 as [_ ?]. by apply Hw.
    - by rewrite H2. }
  unfold apply_callback. destruct (tg_coord g !! vc_txn_id v) as [entry|] eqn:Ee; [|by split].
  destruct (te_expires_at entry <=? now)%N; [apply Hdel; by auto|].
  destruct (Hc _ _ Ee) as (r & Hr1 & Hr2 & Hr3 & Hr4).
  destruct (vc_decision v) eqn:Ed.
  - destruct (bool_decide _) eqn:Eq; cbn [fmap option_fmap option_map].
    + rewrite Hr1. apply jobs_inv; [apply Hdel; by auto|]. intros j Hj. destruct j; [done|..];
        (exists evs'; split; [done|]);
        (split; [by destruct (Hw _ _ Hr1)|]); (split; [|by exists st, saved, txn]); exists ({[vc_approver_id v]} ∪ te_approvers entry);
        apply bool_decide_eq_true in Eq; rewrite Hr3 in Eq; (split; [rewrite N.max_l in Eq by lia; lia|]);
        intros a [->%elem_of_singleton|Ha]%elem_of_union; rewrite ?Hr2; auto.
    + split; cbn; [|done|done]. intros t e. destruct (decide (t = vc_txn_id v)) as [->|Hne].
      * rewrite lookup_insert_eq. intros [= <-]. exists r. split_and!; try done.
        intros a [->%elem_of_singleton|Ha]%elem_of_union; auto.
      * rewrite lookup_insert_ne by done. apply Hc.
  - cbn [fmap option_fmap option_map]. rewrite Hr1. apply Hdel; cbn; auto.
Qed.
Lemma tui_run_inv evs : GateInv evs (tui_run evs).
Proof.
  induction evs as [|ev evs IH] using rev_ind.
  { split; cbn; [done|done|apply Forall_nil_2]. }
  unfold tui_run. rewrite foldl_app. cbn [foldl]. fold (tui_run evs).
  assert (ev = TeRestart \/ ev <> TeRestart) as [->|Hev] by (destruct ev; first [by left|by right]).
  { destruct IH as [_ _ Hr]. split; cbn; [done|done|]. eapply Forall_impl; [done|]. intros x. apply justified_mono. }
  apply (gate_mono _ ev _ Hev) in IH. destruct ev as [st saved txn effect sent now|cb now st saved txn|txn_id|]; [| | |done].
  - cbn [tui_step]. apply jobs_inv; [done|]. intros j Hj.
    assert (justified (evs ++ [TeDispatch st saved txn effect sent now]) (j, None)) as H; cycle 1.
    { destruct j; try done. intros _. exists st, saved, txn, effect, sent, now.
      split; [by apply elem_of_session|]. by eapply dispatch_gated. }
    exists st, saved, txn, effect, sent, now. split; [apply elem_of_app; right; by left|]. split; [done|].
    by eapply dispatch_free.
  - by apply tui_callback_inv.
  - destruct IH as [Hc Hw Hr]. cbn. split; cbn; [| |done].
    + unfold unregister. intros t e [Hne He]%lookup_delete_Some. destruct (Hc _ _ He) as (r & Hr1 & Hr2). exists r.
      split; [|done]. by rewrite lookup_delete_ne.
    + intros t r [_ H]%lookup_delete_Some. by apply Hw.
Qed.
End history.

(** C21: Over any history of dispatched effects, presses on Telegram, timeouts
    and restarts of the program, a request reaches the cluster from the terminal
    interface either because neither a policy nor secure mode held its effect
    back when it was dispatched, or because at least as many different people as
    the policy of its action demanded when it was dispatched (one, without a
    policy) pressed its signed approve button, each press verified (chat,
    signature, list of approvers), and what then runs is the effect that was
    asked for.  The dispatch and the presses all belong to the run of the
    program in which the request is made: a restart drops what was waiting, and
    no press from before it counts afterwards. *)
Theorem tui_runs_only_approved {M : Mac} tg policies evs :
  Forall (justified tg policies evs) (tg_ran (tui_run tg policies evs)).
Proof. apply tui_run_inv. Qed.

(** *** Two people delete a guest *)
Section demo.
#[local] Existing Instance demo_mac.
Definition two_eyes : list Policy := [{| po_action := "delete"; po_target := "*"; po_channel := "telegram"; po_require := 2 |}].
Definition one_guest : Guest := {|
  g_vmid := 100; g_name := "web"; g_status := Stopped; g_guest_type := Qemu; g_node := "pve1"; g_cpus := 2;
  g_mem := 1; g_maxmem := 2; g_disk := 0; g_maxdisk := 0; g_uptime := 0; g_tags := ""; g_lock := "";
  g_hastate := ""; g_template := false; g_netin := 0; g_netout := 0 |}.
Definition one_state : AppState := AppState_default <| guests := [one_guest] |>.
Definition press_by (who : Z) : TuiEvent :=
  TeCallback {| cb_id := "1"; cb_from := {| user_id := who; user_username := None; user_first_name := "Ann" |};
                cb_message := Some {| msg_chat := Some {| chat_id := -42 |}; msg_message_id := 5 |};
                cb_data := Some (build_approval_keyboard demo_gateway "7f").1 |} 10 one_state true (fun _ => "8a").
Definition asked : TuiEvent := TeDispatch one_state true (fun _ => "7f") (SeDeleteGuest 100) (fun _ => true) 0.
Example one_press_is_not_enough : tg_ran (tui_run demo_gateway two_eyes [asked; press_by 11; press_by 11]) = [].
Proof. vm_compute. reflexivity. Qed.
Example two_presses_run_it :
  fst <$> tg_ran (tui_run demo_gateway two_eyes [asked; press_by 11; press_by 12]) = [JCall (ClDelete "pve1" 100 Qemu)].
Proof. vm_compute. reflexivity. Qed.
Example a_restart_drops_the_request :
  tg_ran (tui_run demo_gateway two_eyes [asked; press_by 11; TeRestart; press_by 12; asked; press_by 12]) = [].
Proof. vm_compute. reflexivity. Qed.
End demo.

(** ** The queue *)
(** A queued operation makes at most one request, to the node and of the
    kind the guest has now, and, unless it carries the break-glass override, only
    when the live guest has nothing that blocks it (a lock, HA that would undo it,
    a delete of a running guest); it is reported as a success exactly when that
    request was made and accepted. *)
Lemma queued_op_preflighted lookup pve op cs s :
  exec_queued_op lookup pve op = (cs, s) ->
  (forall c, c ∈ cs -> exists t g, queued_action_hitl_target (op_action op) = Some t /\ lookup (ht_vmid t) = Ok g /\
     queued_call (op_action op) (g_node g) (ht_vmid t) (g_guest_type g) = Some c /\
     (op_bypass_preflight op = true \/ forall p, preflight_of (op_action op) = Some p -> ~ blocked p g)) /\
  length cs <= 1 /\ (s = Success <-> exists c upid, cs = [c] /\ pve c = Ok upid).
Proof.
  assert (forall s0 : OpStatus, s0 <> Success -> s0 = Success <-> exists c upid, ([] : list TuiCall) = [c] /\ pve c = Ok upid) as Hno.
  { intros s0 H. split; [done|]. by intros (c & upid & [=] & _). }
  unfold exec_queued_op. destruct (queued_action_hitl_target (op_action op)) as [t|];
    [|intros [= <- <-]; split; [by intros c ?%elem_of_nil|]; split; [simpl; lia|by apply Hno]].
  destruct (lookup (ht_vmid t)) as [g|e] eqn:El;
    [|intros [= <- <-]; split; [by intros c ?%elem_of_nil|]; split; [simpl; lia|by apply Hno]].
  cbv zeta. case_bool_decide as Hsev;
    [intros [= <- <-]; split; [by intros c ?%elem_of_nil|]; split; [simpl; lia|by apply Hno]|].
  destruct (queued_call _ _ _ _) as [c|] eqn:Ec;
    [|intros [= <- <-]; split; [by intros c ?%elem_of_nil|]; split; [simpl; lia|by apply Hno]].
  assert (op_bypass_preflight op = true \/ forall p, preflight_of (op_action op) = Some p -> ~ blocked p g) as Hp.
  { destruct (op_bypass_preflight op); [by left|right]. intros p Hp Hb. rewrite Hp in Hsev.
    apply Hsev, max_of_severe. by apply assess_severe. }
  destruct (pve c) as [upid|e] eqn:Ep; intros [= <- <-].
  - split; [intros c' ->%list_elem_of_singleton; by exists t, g|]. split; [simpl; lia|]. split; [|done]. intros _. by exists c, upid.
  - split; [intros c' ->%list_elem_of_singleton; by exists t, g|]. split; [simpl; lia|]. split; [done|].
    intros (c' & upid & [= <-] & H). congruence.
Qed.
Lemma queued_op_preflighted_witness :
  let op := mkQueuedOp "1-0" (AcDeleteGuest 100) "" "" OpRunning 0 false in
  let r := exec_queued_op (fun _ => Ok one_guest) (fun _ => Ok "UPID") op in
  r = ([ClDelete "pve1" 100 Qemu], Success) /\ length r.1 <= 1.
Proof.
  cbv zeta. split; [reflexivity|].
  exact (proj1 (proj2 (queued_op_preflighted (fun _ => Ok one_guest) (fun _ => Ok "UPID")
    (mkQueuedOp "1-0" (AcDeleteGuest 100) "" "" OpRunning 0 false) _ _ eq_refl))).
Defined.

(** The wait for a graceful shutdown ends within its fuel. *)
Lemma wait_for_stopped_ends fuel status max_wait k now :
  (max_wait <= now + STOP_POLL_MS * N.of_nat fuel)%N -> fuel <> 0 ->
  exists r, wait_for_stopped fuel status max_wait STOP_POLL_MS k now = Some r.
Proof.
  unfold STOP_POLL_MS. revert k now. induction fuel as [|fuel IH]; intros k now H Hf; [done|]. cbn [wait_for_stopped].
  destruct (status k) as [r took]. destruct (max_wait <=? now + 3000)%N eqn:E.
  - destruct r as [[]|]; eauto.
  - apply N.leb_gt in E. destruct (IH (S k) (now + 3000 + took)%N) as [[o l] Hr]; [lia|intros ->; lia|].
    rewrite Hr. destruct r as [[]|]; cbn; eauto.
Qed.
Lemma stop_wait_ends status :
  exists r, wait_for_stopped stop_wait_fuel status MAX_WAIT_MS STOP_POLL_MS 0 0 = Some r.
Proof. apply wait_for_stopped_ends; [vm_compute; done|done]. Qed.
