(* ===== verification/GuestLookup.v ===== *)
(** * Locating a guest: the lookups of cli/common.rs

    Every command that names a guest by its number first asks the cluster where
    it is.  [GuestLookupGateway] is the trait of that name; [lk_node_guests k n]
    is the answer to the [k]-th listing of a node's guests, so that a node may
    answer differently when it is asked again.  [ClusterResource.to_guest] is
    from api/types/cluster.rs; the processor load, which no check reads, is left
    out as in [Guest]. *)

From S2P Require Import Prelude.
From S2P Require Import ApiError.
From S2P Require Import Guest.
From S2P Require Import GuestPreflight.
From S2P Require Import Alerts.

(** ** api/types/cluster.rs *)
Record ClusterResource := mkClusterResource {
  cr_id : string;
  cr_type : string;
  cr_node : string;
  cr_status : string;
  cr_vmid : N;
  cr_storage : string;
  cr_pool : string;
  cr_name : string;
  cr_maxcpu : N;
  cr_mem : N;
  cr_maxmem : N;
  cr_disk : N;
  cr_maxdisk : N;
  cr_uptime : N;
  cr_tags : string;
  cr_template : N;
  cr_plugintype : string;
  cr_lock : string;
  cr_hastate : string;
  cr_netin : N;
  cr_netout : N;
}.
Definition resource_guest_type (t : string) : option GuestType :=
  if bool_decide (t = "qemu") then Some Qemu else if bool_decide (t = "lxc") then Some Lxc else None.
Definition resource_status (s : string) : GuestStatus :=
  if bool_decide (s = "running") then Running
  else if bool_decide (s = "stopped") then Stopped
  else if bool_decide (s = "paused") then Paused
  else if bool_decide (s = "suspended") then Suspended
  else Guest.Unknown.
Definition to_guest (r : ClusterResource) : option Guest :=
  guest_type ← resource_guest_type (cr_type r);
  Some {| g_vmid := cr_vmid r; g_name := cr_name r; g_status := resource_status (cr_status r);
          g_guest_type := guest_type; g_node := cr_node r; g_cpus := cr_maxcpu r; g_mem := cr_mem r;
          g_maxmem := cr_maxmem r; g_disk := cr_disk r; g_maxdisk := cr_maxdisk r; g_uptime := cr_uptime r;
          g_tags := cr_tags r; g_lock := cr_lock r; g_hastate := cr_hastate r;
          g_template := negb (cr_template r =? 0)%N; g_netin := cr_netin r; g_netout := cr_netout r |}.

(** ** cli/common.rs *)
Record GuestLookupGateway := mkLookup {
  lk_resources : Result AnyErr (list ClusterResource);
  lk_nodes : Result AnyErr (list Alerts.Node);
  lk_node_guests : nat -> string -> Result AnyErr (list Guest);
}.
Record LocatedGuest := mkLocated { lg_guest : Guest; lg_raw_status : string }.

Definition has_vmid (vmid : N) (g : Guest) : bool := (g_vmid g =? vmid)%N.
Definition not_found_in_cluster (vmid : N) : AnyErr :=
  of_api (NotFound ("guest " +:+ pretty vmid +:+ " not found in cluster")).

(** [chain().any(NotFound)] and [is_some_and(!is_not_found)] *)
Definition err_not_found (e : AnyErr) : bool := match err_api e with Some (NotFound _) => true | _ => false end.
Definition err_typed (e : AnyErr) : bool := bool_decide (is_Some (err_api e)) && negb (err_not_found e).

Definition wrap_node_query_error (vmid : N) (node status : string) (err : AnyErr) : AnyErr :=
  let msg := "guest " +:+ pretty vmid +:+ " is on node '" +:+ node +:+ "' (status: " +:+ status
             +:+ "), which cannot be queried: " +:+ show_outer err in
  if err_not_found err then bail msg else context msg err.

Section lookup.
Context (client : GuestLookupGateway) (vmid : N).

Definition find_guest_via_cluster_resources : Result AnyErr (option LocatedGuest) :=
  match lk_resources client with
  | Err e => Err e
  | Ok resources =>
      Ok (r ← List.find (fun r => (cr_vmid r =? vmid)%N) resources;
          guest ← to_guest r;
          Some (mkLocated guest (if is_empty (cr_status r) then "unknown" else cr_status r)))
  end.

(** The loop of the walk, from the [k]-th listing on: the guest, or what failed
    and the first failure the interface knows. *)
Fixpoint walk (k : nat) (nodes : list Alerts.Node) (node_errors : list string) (first_typed_err : option AnyErr) :
    Guest + list string * option AnyErr :=
  match nodes with
  | [] => inr (node_errors, first_typed_err)
  | n :: rest =>
      match lk_node_guests client k (node n) with
      | Ok guests =>
          match List.find (has_vmid vmid) guests with
          | Some g => inl g
          | None => walk (S k) rest node_errors first_typed_err
          end
      | Err e =>
          walk (S k) rest (node_errors ++ [node n +:+ ": " +:+ show_outer e])
            (match first_typed_err with
             | Some _ => first_typed_err
             | None => if err_typed e then Some e else None
             end)
      end
  end.
Definition with_cause (cause : option AnyErr) (msg : string) : AnyErr :=
  match cause with Some cause => context msg cause | None => bail msg end.
Definition node_error_detail (node_errors : list string) : string :=
  pretty (length node_errors) +:+ " node(s) returned errors: " +:+ join "; " node_errors.
Definition find_guest_full_via_walk (k : nat) (located : option LocatedGuest) : Result AnyErr Guest :=
  match lk_nodes client with
  | Err e => Err e
  | Ok nodes =>
      match walk k nodes [] None with
      | inl g => Ok g
      | inr (node_errors, first_typed_err) =>
          match located with
          | Some loc =>
              let detail := match node_errors with [] => "" | _ => "; " +:+ node_error_detail node_errors end in
              Err (with_cause first_typed_err
                     ("guest " +:+ pretty vmid +:+ " is on node '" +:+ g_node (lg_guest loc) +:+ "' (status: "
                      +:+ lg_raw_status loc +:+ "), which cannot be queried" +:+ detail))
          | None =>
              match node_errors with
              | [] => Err (not_found_in_cluster vmid)
              | _ => Err (with_cause first_typed_err
                            ("Guest " +:+ pretty vmid +:+ " not found; " +:+ node_error_detail node_errors))
              end
          end
      end
  end.

Definition find_guest_full_with : Result AnyErr Guest :=
  match find_guest_via_cluster_resources with
  | Ok (Some loc) =>
      let node := g_node (lg_guest loc) in
      match lk_node_guests client 0 node with
      | Ok guests =>
          match List.find (has_vmid vmid) guests with
          | Some g => Ok g
          | None => find_guest_full_via_walk 1 (Some loc)
          end
      | Err e => Err (wrap_node_query_error vmid node (lg_raw_status loc) e)
      end
  | Ok None => Err (not_found_in_cluster vmid)
  | Err _ => find_guest_full_via_walk 0 None
  end.
Definition node_and_type (g : Guest) : string * GuestType := (g_node g, g_guest_type g).
Definition find_guest_with : Result AnyErr (string * GuestType) :=
  match find_guest_via_cluster_resources with
  | Ok (Some loc) =>
      if bool_decide (lg_raw_status loc = "unknown") then
        let node := g_node (lg_guest loc) in
        match lk_node_guests client 0 node with
        | Ok guests =>
            if existsb (has_vmid vmid) guests then Ok (node_and_type (lg_guest loc))
            else g ← find_guest_full_via_walk 1 (Some loc); Ok (node_and_type g)
        | Err e => Err (wrap_node_query_error vmid node (lg_raw_status loc) e)
        end
      else Ok (node_and_type (lg_guest loc))
  | Ok None => Err (not_found_in_cluster vmid)
  | Err _ => g ← find_guest_full_via_walk 0 None; Ok (node_and_type g)
  end.
End lookup.

(** ** Facts *)
Lemma wrap_not_found vmid node status e : err_not_found (wrap_node_query_error vmid node status e) = false.
Proof. unfold wrap_node_query_error. by destruct (err_not_found e) eqn:E. Qed.
Lemma err_typed_not_found e : err_typed e = true -> err_not_found e = false.
Proof. unfold err_typed. by intros [_ ?%negb_true_iff]%andb_prop. Qed.
Lemma with_cause_not_found cause msg :
  (forall e, cause = Some e -> err_not_found e = false) -> err_not_found (with_cause cause msg) = false.
Proof. destruct cause as [e|]; [|done]. intros H. exact (H e eq_refl). Qed.

(** The [k]-th listing and those after it, node by node. *)
Definition listing (client : GuestLookupGateway) (k : nat) (nodes : list Alerts.Node) (i : nat) :
    option (Result AnyErr (list Guest)) :=
  (fun n => lk_node_guests client (k + i) (node n)) <$> nodes !! i.
Lemma listing_cons client k n nodes i : listing client k (n :: nodes) (S i) = listing client (S k) nodes i.
Proof. unfold listing. cbn. by rewrite Nat.add_succ_r. Qed.

(** A guest that one node lists is found, whatever the other nodes answer. *)
Lemma walk_finds client vmid k nodes errs typed i guests g :
  listing client k nodes i = Some (Ok guests) -> g ∈ guests -> g_vmid g = vmid ->
  exists g', walk client vmid k nodes errs typed = inl g'.
Proof.
  revert k errs typed i. induction nodes as [|n nodes IH]; intros k errs typed i Hi Hg Hv; [done|]. cbn [walk].
  destruct i as [|i].
  - unfold listing in Hi. cbn in Hi. rewrite Nat.add_0_r in Hi. injection Hi as ->.
    destruct (List.find (has_vmid vmid) guests) as [g'|] eqn:Ef; [by eexists|].
    apply list_elem_of_In, (List.find_none _ _ Ef g) in Hg. unfold has_vmid in Hg. by rewrite Hv, N.eqb_refl in Hg.
  - rewrite listing_cons in Hi. destruct (lk_node_guests client k (node n)) as [gs|e]; [destruct (List.find _ gs); [by eexists|]|];
      by eapply IH.
Qed.
Lemma walk_sound client vmid k nodes errs typed g :
  walk client vmid k nodes errs typed = inl g ->
  g_vmid g = vmid /\ exists i guests, listing client k nodes i = Some (Ok guests) /\ g ∈ guests.
Proof.
  revert k errs typed. induction nodes as [|n nodes IH]; intros k errs typed; [done|]. cbn [walk].
  destruct (lk_node_guests client k (node n)) as [gs|e] eqn:E; [destruct (List.find _ gs) as [g'|] eqn:Ef|].
  - intros [= ->]. apply List.find_some in Ef as [Hin Hv]. split; [by apply N.eqb_eq|]. exists 0, gs.
    unfold listing. cbn. rewrite Nat.add_0_r, E. split; [done|]. by apply list_elem_of_In.
  - intros (Hv & i & l & Hl)%IH. split; [done|]. exists (S i), l. by rewrite listing_cons.
  - intros (Hv & i & l & Hl)%IH. split; [done|]. exists (S i), l. by rewrite listing_cons.
Qed.
(** A walk that finds nothing without an error has heard every node. *)
Lemma walk_none client vmid k nodes errs typed errs' typed' :
  walk client vmid k nodes errs typed = inr (errs', typed') ->
  (forall e, typed = Some e -> err_not_found e = false) ->
  (forall e, typed' = Some e -> err_not_found e = false) /\
  (exists l, errs' = errs ++ l) /\
  (errs' = errs -> forall i r, listing client k nodes i = Some r ->
     exists guests, r = Ok guests /\ Forall (fun g => g_vmid g <> vmid) guests).
Proof.
  revert k errs typed. induction nodes as [|n nodes IH]; intros k errs typed; cbn [walk].
  { intros [= <- <-] Ht. split; [done|]. split; [by exists []; rewrite app_nil_r|]. intros _ i r H. unfold listing in H. by rewrite lookup_nil in H. }
  destruct (lk_node_guests client k (node n)) as [gs|e] eqn:E.
  - destruct (List.find _ gs) eqn:Ef; [done|]. intros H Ht. destruct (IH _ _ _ H Ht) as (H1 & H2 & H3).
    split; [done|]. split; [done|]. intros He [|i] r.
    + unfold listing. cbn. rewrite Nat.add_0_r, E. intros [= <-]. exists gs. split; [done|]. apply Forall_forall.
      intros g Hg%list_elem_of_In Hv. pose proof (List.find_none _ _ Ef g Hg) as Hn. unfold has_vmid in Hn.
      by rewrite Hv, N.eqb_refl in Hn.
    + rewrite listing_cons. by apply H3.
  - intros H Ht. destruct (IH _ _ _ H) as (H1 & [l H2] & H3).
    { intros e'. destruct typed as [e''|]; [apply Ht|]. destruct (err_typed e) eqn:Ee; [|done]. intros [= <-]. by apply err_typed_not_found. }
    split; [done|]. split; [exists ([node n +:+ ": " +:+ show_outer e] ++ l); by rewrite app_assoc|].
    intros ->. exfalso. clear -H2. apply (f_equal length) in H2. rewrite !length_app in H2. simpl in H2. lia.
Qed.

(** ** What an answer means *)
(** The cluster, or each of its nodes, has said that there is no such guest. *)
Definition known_absent (client : GuestLookupGateway) (vmid : N) : Prop :=
  (exists rs, lk_resources client = Ok rs /\
     forall r g, List.find (fun r => (cr_vmid r =? vmid)%N) rs = Some r -> to_guest r <> Some g) \/
  (exists e ns, lk_resources client = Err e /\ lk_nodes client = Ok ns /\
     forall i r, listing client 0 ns i = Some r ->
       exists guests, r = Ok guests /\ Forall (fun g => g_vmid g <> vmid) guests).
Definition heard (client : GuestLookupGateway) (g : Guest) : Prop :=
  exists k n guests, lk_node_guests client k n = Ok guests /\ g ∈ guests.
Lemma listing_heard client k ns i guests g : listing client k ns i = Some (Ok guests) -> g ∈ guests -> heard client g.
Proof. intros (n & _ & H)%fmap_Some Hg. by exists (k + i), (node n), guests. Qed.

(** The walk on its own. *)
Lemma via_walk_spec client vmid k located :
  match find_guest_full_via_walk client vmid k located with
  | Ok g => g_vmid g = vmid /\ heard client g
  | Err e =>
      (err_not_found e = true -> lk_nodes client = Err e \/
         located = None /\ exists ns, lk_nodes client = Ok ns /\ forall i r, listing client k ns i = Some r ->
           exists guests, r = Ok guests /\ Forall (fun g => g_vmid g <> vmid) guests) /\
      (forall ns i guests, lk_nodes client = Ok ns -> listing client k ns i = Some (Ok guests) ->
         Forall (fun g => g_vmid g <> vmid) guests)
  end.
Proof.
  unfold find_guest_full_via_walk. destruct (lk_nodes client) as [ns|e]; [|split; [by left|done]].
  destruct (walk client vmid k ns [] None) as [g|[errs typed]] eqn:Ew.
  { apply walk_sound in Ew as (Hv & i & l & Hl & Hg). split; [done|]. by eapply listing_heard. }
  assert (forall ns0 i guests, (Ok ns : Result AnyErr _) = Ok ns0 -> listing client k ns0 i = Some (Ok guests) ->
            Forall (fun g => g_vmid g <> vmid) guests) as Hmiss.
  { intros ns0 i guests [= <-] Hl. apply Forall_forall. intros g Hg Hv.
    destruct (walk_finds client vmid k ns [] None i guests g Hl Hg Hv) as [g' Hg']. congruence. }
  destruct (walk_none _ _ _ _ _ _ _ _ Ew) as (Ht & _ & Hall); [done|].
  destruct located as [loc|].
  { split; [|done]. by rewrite with_cause_not_found. }
  destruct errs as [|x errs]; (split; [|done]).
  - intros _. right. split; [done|]. exists ns. split; [done|]. by apply Hall.
  - by rewrite with_cause_not_found.
Qed.

(** C37: The lookup never mistakes an unreachable node for a missing guest.
    What it returns is a guest of that number that a node lists.  "Not found" is
    the answer only in three cases: the cluster's own list was read and has no
    guest of that number; that list could not be read, the list of nodes was,
    and every node answered without the guest; or the request for the list of
    nodes was itself answered "not found", which is passed on.  When the
    cluster's list cannot be read, a guest that any node that answers lists is
    found, whatever the other nodes answer.  When it can be read and places the
    guest on a node whose listing then fails, the answer is that error (not
    "not found"), and no other node is asked. *)
Theorem not_found_is_certain client vmid :
  match find_guest_full_with client vmid with
  | Ok g => g_vmid g = vmid /\ heard client g
  | Err e =>
      (err_not_found e = true -> known_absent client vmid \/ lk_nodes client = Err e) /\
      (forall e0 ns i guests, lk_resources client = Err e0 -> lk_nodes client = Ok ns ->
         listing client 0 ns i = Some (Ok guests) -> Forall (fun g => g_vmid g <> vmid) guests)
  end /\
  (forall rs r g e, lk_resources client = Ok rs -> List.find (fun r => (cr_vmid r =? vmid)%N) rs = Some r ->
     to_guest r = Some g -> lk_node_guests client 0 (g_node g) = Err e ->
     exists e', find_guest_full_with client vmid = Err e' /\ err_not_found e' = false).
Proof.
  split.
  2: { intros rs r g e H1 H2 H3 H4. unfold find_guest_full_with, find_guest_via_cluster_resources. rewrite H1, H2. cbn.
       rewrite H3. cbn. rewrite H4. eexists. split; [done|]. apply wrap_not_found. }
  unfold find_guest_full_with, find_guest_via_cluster_resources. destruct (lk_resources client) as [rs|e0] eqn:Er.
  - destruct (List.find _ rs) as [r|] eqn:Ef; cbn.
    2: { split; [|done]. intros _. left. left. exists rs. split; [done|]. intros r g H. congruence. }
    destruct (to_guest r) as [g|] eqn:Eg; cbn.
    2: { split; [|done]. intros _. left. left. exists rs. split; [done|]. intros r' g'. rewrite Ef. intros [= <-]. by rewrite Eg. }
    destruct (lk_node_guests client 0 (g_node g)) as [gs|e] eqn:El; cbn.
    2: { split; [|done]. by rewrite wrap_not_found. }
    destruct (List.find (has_vmid vmid) gs) as [g'|] eqn:Eg'.
    { apply List.find_some in Eg' as [Hin Hv]. split; [by apply N.eqb_eq|]. exists 0, (g_node g), gs. split; [done|].
      by apply list_elem_of_In. }
    pose proof (via_walk_spec client vmid 1 (Some (mkLocated g (if is_empty (cr_status r) then "unknown" else cr_status r)))) as H.
    destruct (find_guest_full_via_walk _ _ _ _) as [g0|e]; [done|]. destruct H as [H _]. split; [|done].
    intros [?|[? _]]%H; [by right|done].
  - pose proof (via_walk_spec client vmid 0 None) as H. destruct (find_guest_full_via_walk _ _ _ _) as [g0|e]; [done|].
    destruct H as [H1 H2]. split; [|intros ? ns i guests _; apply H2].
    intros [?|(_ & ns & Hn & Hall)]%H1; [by right|]. left. right. by exists e0, ns.
Qed.

(** The lookup that only names the node and the kind. *)
Lemma find_guest_not_found client vmid e :
  find_guest_with client vmid = Err e -> err_not_found e = true -> known_absent client vmid \/ lk_nodes client = Err e.
Proof.
  unfold find_guest_with, find_guest_via_cluster_resources. destruct (lk_resources client) as [rs|e0] eqn:Er.
  - destruct (List.find _ rs) as [r|] eqn:Ef; cbn.
    2: { intros _ _. left. left. exists rs. split; [done|]. intros r g H. congruence. }
    destruct (to_guest r) as [g|] eqn:Eg; cbn.
    2: { intros _ _. left. left. exists rs. split; [done|]. intros r' g'. rewrite Ef. intros [= <-]. by rewrite Eg. }
    case_bool_decide; [|done]. destruct (lk_node_guests client 0 (g_node g)) as [gs|e1] eqn:El; cbn.
    2: { intros [= <-]. by rewrite wrap_not_found. }
    destruct (existsb _ gs); [done|].
    pose proof (via_walk_spec client vmid 1 (Some (mkLocated g (if is_empty (cr_status r) then "unknown" else cr_status r)))) as H0.
    destruct (find_guest_full_via_walk _ _ _ _) as [g0|e1]; [done|]. destruct H0 as [H0 _].
    intros [= <-] [?|[? _]]%H0; [by right|done].
  - pose proof (via_walk_spec client vmid 0 None) as H. destruct (find_guest_full_via_walk _ _ _ _) as [g0|e1]; [done|].
    destruct H as [H1 H2]. intros [= <-] [?|(_ & ns & Hn & Hall)]%H1; [by right|]. left. right. by exists e0, ns.
Qed.
