(* ===== verification/Batch.v ===== *)
(** * Batches of guest operations: cli/common.rs

    [proxxx start 100 101 102 --policy rolling=2] and its siblings act on a list
    of guests: [execute_batch_op_full] scans the cluster, holds back what a
    policy covers, and sends the rest, all at once or, under [--strict], one by
    one; [execute_batch_op_with_policy] runs it on a pilot or in waves.

    The world is the daemon's: the cluster with the calls that were made, and the
    table of approval requests.  [WaveEnv] is what surrounds one scan-and-send:
    the answers of the nodes in the order they came in, the Telegram gateway, the
    database, and [we_order], the order in which the spawned calls reach the
    cluster and come back.  A spawned task does not panic here.

    The rows of the result are records; [row_json] is how they are printed. *)

From S2P Require Import Prelude.
From S2P Require Import Json.
From S2P Require Import ApiError.
From S2P Require Import Guest.
From S2P Require Import GuestPreflight.
From S2P Require Import HitlPending.
From S2P Require Import HitlCallback.
From S2P Require Import Gateway.
From S2P Require Import HitlOps.
From S2P Require Import HitlDaemon.
From S2P Require Import McpDispatch.

(** ** Small helpers *)
Definition require_yes (yes : bool) (what : string) : Result AnyErr unit :=
  if yes then Ok () else Err (bail (what +:+ " is destructive — re-run with --yes to confirm")).

Fixpoint parse_kv_pairs (kvs : list string) : Result AnyErr (list (string * string)) :=
  match kvs with
  | [] => Ok []
  | kv :: rest =>
      match split_once "=" kv with
      | None => Err (bail ("raw-set arg '" +:+ kv +:+ "' missing '=' separator (use `key=value`)"))
      | Some (k, v) =>
          if is_empty k then Err (bail ("raw-set arg '" +:+ kv +:+ "' has empty key"))
          else out ← parse_kv_pairs rest; Ok ((k, v) :: out)
      end
  end.
Definition require_non_empty_params (params : list (string * string)) : Result AnyErr unit :=
  match params with
  | [] => Err (bail "no config keys passed — pass at least one --flag or use `raw-set`")
  | _ => Ok ()
  end.

Record PendingConfigEntry := mkPendingConfig {
  pc_key : string; pc_value : option Value; pc_pending : option Value; pc_delete : option N }.
Definition classify_pending (answer : Result AnyErr (list PendingConfigEntry)) (requested : list string) :
    list string * list string * option string :=
  match answer with
  | Err e => (requested, [], Some (show_outer e))
  | Ok resp =>
      let queued e := bool_decide (is_Some (pc_pending e)) || bool_decide (is_Some (pc_delete e)) in
      let pending_keys := pc_key <$> List.filter queued resp in
      let is_pending k := bool_decide (k ∈ pending_keys) in
      (List.filter (fun k => negb (is_pending k)) requested, List.filter is_pending requested, None)
  end.

(** ** [BatchPolicy] *)
Inductive BatchPolicy := PolicyFull | PolicyCanary (percent : N) | PolicyRolling (wave_size : N).
Definition USIZE_MAX : N := u64_max.

Definition BatchPolicy_parse (s : string) : Result AnyErr BatchPolicy :=
  let s := trim s in
  let low := to_ascii_lowercase s in
  if bool_decide (low = "full") then Ok PolicyFull
  else match strip_prefix "canary" low with
  | Some rest =>
      if is_empty rest then Ok (PolicyCanary 5)
      else match strip_prefix "=" rest with
           | Some n =>
               match parse_uint 255 n with
               | Some p => if (1 <=? p)%N && (p <=? 100)%N then Ok (PolicyCanary p)
                           else Err (bail ("canary percent must be 1–100, got " +:+ n))
               | None => Err (bail ("canary percent must be 1–100, got " +:+ n))
               end
           | None => Err (bail ("unrecognised policy: " +:+ s))
           end
  | None =>
      match strip_prefix "rolling" low with
      | Some rest =>
          if is_empty rest then Ok (PolicyRolling 10)
          else match strip_prefix "=" rest with
               | Some n =>
                   match parse_uint USIZE_MAX n with
                   | Some k => if (1 <=? k)%N then Ok (PolicyRolling k)
                               else Err (bail ("rolling wave-size must be ≥ 1, got " +:+ n))
                   | None => Err (bail ("rolling wave-size must be ≥ 1, got " +:+ n))
                   end
               | None => Err (bail ("unrecognised policy: " +:+ s))
               end
      | None => Err (bail ("unrecognised batch policy '" +:+ s +:+ "' (valid: full, canary[=N%], rolling[=K])"))
      end
  end.

(** [div_ceil(100)] *)
Definition canary_pilot_count (n percent : N) : N := N.min n (N.max 1 ((n * percent + 99) / 100)).

(** ** Rows *)
Inductive RowStatus :=
  | RsSuccess (upid : string)
  | RsError (txn_id : option string) (message : string)
  | RsRejected (reason : string)
  | RsPendingHitl (txn_id message : string)
  | RsSkipped (reason : string).
Record BatchRow := mkRow { br_vmid : N; br_status : RowStatus }.
Definition status_str (s : RowStatus) : string :=
  match s with
  | RsSuccess _ => "success"
  | RsError _ _ => "error"
  | RsRejected _ => "rejected"
  | RsPendingHitl _ _ => "pending_hitl"
  | RsSkipped _ => "skipped"
  end.
Definition row_detail (s : RowStatus) : list (string * Value) :=
  match s with
  | RsSuccess upid => [("upid", JString upid)]
  | RsError None message => [("message", JString message)]
  | RsError (Some id) message => [("txn_id", JString id); ("message", JString message)]
  | RsRejected reason | RsSkipped reason => [("reason", JString reason)]
  | RsPendingHitl id message => [("txn_id", JString id); ("message", JString message)]
  end.
Definition row_json (r : BatchRow) : Value :=
  JObject (("vmid", json_n (br_vmid r)) :: ("status", JString (status_str (br_status r))) :: row_detail (br_status r)).
(** [r.get("status") == Some("error")] *)
Definition is_error_row (r : BatchRow) : bool := bool_decide (status_str (br_status r) = "error").

Definition EXIT_HITL_PENDING : Z := 9.
Definition batch_exit_code (has_failure hitl_pending : bool) : Z :=
  if has_failure then 2 else if hitl_pending then EXIT_HITL_PENDING else 0.

(** ** One scan-and-send *)
Record WaveEnv := mkWaveEnv {
  (** [get_nodes], then [get_guests] of each node, as the answers came in *)
  we_scan : Result AnyErr (list (string * Result AnyErr (list Guest)));
  we_telegram : TelegramSetup;
  (** the id the store draws for a request on a guest, and the time *)
  we_request_id : N -> string;
  we_now : Z;
  (** the database: opening it, the insert, and closing the row *)
  we_disk_open : N -> Result AnyErr unit;
  we_disk_insert : N -> Result AnyErr unit;
  we_disk_mark : N -> Result AnyErr unit;
  (** [request_approval]: action, target, reason, id, require *)
  we_request_approval : string -> string -> string -> string -> N -> Result AnyErr unit;
  we_order : list (N * string * GuestType) -> list (N * string * GuestType);
}.

Definition guest_map (scan : list (string * Result AnyErr (list Guest))) : gmap N Guest :=
  foldl (fun m s => match s.2 with Ok guests => foldl (fun m g => <[g_vmid g := g]> m) m guests | Err _ => m end) ∅ scan.
Definition unreachable_nodes (scan : list (string * Result AnyErr (list Guest))) : list string :=
  omap (fun s => match s.2 with Err e => Some (s.1 +:+ ": " +:+ show_outer e) | Ok _ => None end) scan.

Definition action_str (op : BatchOp) : string :=
  match op with
  | BatchStart => "start" | BatchStop _ _ => "stop" | BatchRestart => "restart"
  | BatchSuspend => "suspend" | BatchResume => "resume"
  end.
Definition starts (op : BatchOp) : bool := match op with BatchStart | BatchRestart => true | _ => false end.
Definition batch_params (op : BatchOp) : Value :=
  match op with
  | BatchStop force timeout_secs => JObject [("force", JBool force); ("timeout_secs", json_n timeout_secs)]
  | _ => JObject []
  end.
Definition debug_vmids (l : list N) : string := "[" +:+ join ", " (pretty <$> l) +:+ "]".

Record BatchAcc := mkAcc {
  ba_results : list BatchRow;
  ba_failed : bool;
  ba_pending : bool;
  ba_spawned : list (N * string * GuestType);
}.
Definition push_row (r : BatchRow) (failed pending : bool) (a : BatchAcc) : BatchAcc :=
  mkAcc (ba_results a ++ [r]) (ba_failed a || failed) (ba_pending a || pending) (ba_spawned a).
Definition spawn_op (t : N * string * GuestType) (a : BatchAcc) : BatchAcc :=
  mkAcc (ba_results a) (ba_failed a) (ba_pending a) (ba_spawned a ++ [t]).

Section batch.
Context {W : Type} {G : Gateway W} {JT : JsonText}.
Context (policies : list Policy) (op : BatchOp) (strict : bool).
Local Notation M := (SM (DaemonWorld W) AnyErr).

(** [match m.await { Ok => .., Err => .. }]: the error is a value. *)
Definition attempt {A} (m : M A) : M (Result AnyErr A) := fun w => let '(r, w') := m w in (Ok r, w').

(** A target a policy covers: record, ask, report; nothing is sent. *)
Definition ask_first (env : WaveEnv) (vmid : N) (guest : Guest) (policy : Policy) (a : BatchAcc) : M BatchAcc :=
  match we_telegram env with
  | TgReady =>
      if is_empty (g_node guest)
      then throw (bail ("cannot record HITL request for guest " +:+ pretty vmid +:+ ": guest has no resolved node"))
      else
        let new_req := with_binding (g_node guest) (g_guest_type guest) (batch_params op)
                         (NewPendingRequest_new (action_str op) (Some vmid) (po_require policy)) in
        on_table (open_at_with_now (we_disk_open env vmid) (we_now env)) ;;
        req ← on_table (insert_at (we_disk_insert env vmid) (we_request_id env vmid) new_req (we_now env));
        let id := pr_id req in
        match we_request_approval env (action_str op) (pretty vmid) ("CLI requested batch op: " +:+ action_str op) id
                (po_require policy) with
        | Err e =>
            let message := "requires " +:+ pretty (po_require policy) +:+ " approval(s), but the approval request could not "
                           +:+ "be sent: " +:+ show_err e +:+ ". The operation was not run." in
            on_table (mark_failed (we_disk_mark env vmid) id message) ;;
            mret (push_row (mkRow vmid (RsError (Some id) message)) true false a)
        | Ok _ =>
            mret (push_row (mkRow vmid (RsPendingHitl id ("Operation requires " +:+ pretty (po_require policy)
                                          +:+ " approval(s) via " +:+ po_channel policy))) false true a)
        end
  | _ =>
      mret (push_row (mkRow vmid (RsError None ("requires " +:+ pretty (po_require policy) +:+ " approval(s) via "
               +:+ po_channel policy +:+ " (policy " +:+ po_action policy +:+ " " +:+ po_target policy
               +:+ "), but no [telegram] section is configured, so no approval request can be sent. "
               +:+ "The operation was not run."))) true false a)
  end.

Definition send_strict (vmid : N) (guest : Guest) (a : BatchAcc) : M BatchAcc :=
  res ← attempt (on_cluster (exec_cli_batch_op (g_node guest) vmid (g_guest_type guest) op));
  match res with
  | Ok upid => mret (push_row (mkRow vmid (RsSuccess upid)) false false a)
  | Err e => throw (bail ("Strict mode: Operation failed for guest " +:+ pretty vmid +:+ ": " +:+ show_outer e))
  end.

(** The body of the loop over the targets. *)
Definition target_step (env : WaveEnv) (scan : list (string * Result AnyErr (list Guest))) (vmid : N) (a : BatchAcc) : M BatchAcc :=
  match guest_map scan !! vmid with
  | Some guest =>
      if g_template guest && starts op
      then mret (push_row (mkRow vmid (RsRejected ("guest " +:+ pretty vmid +:+ " is a template — cannot "
                   +:+ action_str op +:+ ". Use `proxxx clone " +:+ pretty vmid
                   +:+ " --name <new>` to produce a startable copy."))) true false a)
      else match check_policies policies (action_str op) (pretty vmid) (tag_list guest) with
           | Some policy => ask_first env vmid guest policy a
           | None =>
               if strict then send_strict vmid guest a
               else mret (spawn_op (vmid, g_node guest, g_guest_type guest) a)
           end
  | None =>
      let message := match unreachable_nodes scan with
                     | [] => "Guest not found"
                     | us => "cannot determine: guest not seen, and " +:+ pretty (length us)
                             +:+ " node(s) could not be listed (" +:+ join "; " us
                             +:+ "). It may exist on an unreachable node."
                     end in
      mret (push_row (mkRow vmid (RsError None message)) true false a)
  end.
Fixpoint target_loop (env : WaveEnv) (scan : list (string * Result AnyErr (list Guest))) (vmids : list N) (a : BatchAcc) : M BatchAcc :=
  match vmids with
  | [] => mret a
  | vmid :: rest => a ← target_step env scan vmid a; target_loop env scan rest a
  end.

(** The spawned calls, in the order they reach the cluster. *)
Fixpoint run_spawned (ts : list (N * string * GuestType)) : M (list BatchRow) :=
  match ts with
  | [] => mret []
  | (vmid, node, gt) :: rest =>
      res ← attempt (on_cluster (exec_cli_batch_op node vmid gt op));
      rows ← run_spawned rest;
      mret (mkRow vmid (match res with Ok upid => RsSuccess upid | Err e => RsError None (show_outer e) end) :: rows)
  end.

Definition strict_checks (scan : list (string * Result AnyErr (list Guest))) (vmids : list N) : Result AnyErr unit :=
  if strict then
    match unreachable_nodes scan with
    | [] =>
        match List.filter (fun v => bool_decide (guest_map scan !! v = None)) vmids with
        | [] => Ok ()
        | missing => Err (bail ("Strict mode: Guests not found: " +:+ debug_vmids missing))
        end
    | us => Err (bail ("Strict mode: cannot determine guest placement — " +:+ pretty (length us)
                  +:+ " node(s) could not be listed (" +:+ join "; " us
                  +:+ "). Refusing rather than reporting guests on those nodes as missing."))
    end
  else Ok ().
Definition telegram_ready (env : WaveEnv) : Result AnyErr unit :=
  match we_telegram env with TgBroken e => Err e | _ => Ok () end.

Definition execute_batch_op_full (env : WaveEnv) (vmids : list N) : M (list BatchRow * Z) :=
  scan ← lift (we_scan env);
  lift (telegram_ready env) ;;
  lift (strict_checks scan vmids) ;;
  a ← target_loop env scan vmids (mkAcc [] false false []);
  rows ← run_spawned (we_order env (ba_spawned a));
  mret (ba_results a ++ rows, batch_exit_code (ba_failed a || existsb is_error_row rows) (ba_pending a)).

(** ** Policies; [envs k] surrounds the [k]-th scan-and-send *)
Definition skipped_rows (reason : string) (vmids : list N) : list BatchRow := (fun v => mkRow v (RsSkipped reason)) <$> vmids.

Definition run_canary (envs : nat -> WaveEnv) (vmids : list N) (percent : N) : M (list BatchRow * Z) :=
  let pilot_count := N.to_nat (canary_pilot_count (N.of_nat (length vmids)) percent) in
  let pilot := take pilot_count vmids in
  let rest := drop pilot_count vmids in
  '(pilot_arr, pilot_code) ← execute_batch_op_full (envs 0) pilot;
  if existsb is_error_row pilot_arr || (2 <=? pilot_code)%Z
  then mret (pilot_arr ++ skipped_rows "canary pilot failed — remainder aborted" rest, 2%Z)
  else match rest with
       | [] => mret (pilot_arr, pilot_code)
       | _ =>
           '(rest_arr, rest_code) ← execute_batch_op_full (envs 1) rest;
           mret (pilot_arr ++ rest_arr,
                 if negb (pilot_code =? 0)%Z || negb (rest_code =? 0)%Z then Z.max pilot_code rest_code else 0%Z)
       end.

(** [vmids.chunks(k)]; the fuel is the length of the list. *)
Fixpoint chunks_fuel {A} (fuel k : nat) (l : list A) : list (list A) :=
  match fuel, l with
  | S fuel', _ :: _ => take k l :: chunks_fuel fuel' k (drop k l)
  | _, _ => []
  end.
Definition chunks {A} (k : nat) (l : list A) : list (list A) := chunks_fuel (length l) k l.

Fixpoint rolling_loop (envs : nat -> WaveEnv) (vmids : list N) (wave_size wave_idx : nat) (waves : list (list N))
    (all_results : list BatchRow) (overall_code : Z) : M (list BatchRow * Z) :=
  match waves with
  | [] => mret (all_results, overall_code)
  | wave :: rest =>
      '(wave_arr, wave_code) ← execute_batch_op_full (envs wave_idx) wave;
      let all_results := all_results ++ wave_arr in
      let overall_code := if negb (wave_code =? 0)%Z then Z.max overall_code wave_code else overall_code in
      if existsb is_error_row wave_arr
      then
        let remaining_start := wave_idx * wave_size + length wave in
        mret (all_results ++ skipped_rows ("rolling wave " +:+ pretty (S wave_idx) +:+ " failed — remainder aborted")
                               (drop remaining_start vmids),
              if (overall_code =? 0)%Z then 2%Z else overall_code)
      else rolling_loop envs vmids wave_size (S wave_idx) rest all_results overall_code
  end.

(** A wave size beyond the list is one wave, as the whole list is. *)
Definition execute_batch_op_with_policy (envs : nat -> WaveEnv) (vmids : list N) (policy : BatchPolicy) : M (list BatchRow * Z) :=
  match policy with
  | PolicyFull => execute_batch_op_full (envs 0) vmids
  | PolicyCanary percent => run_canary envs vmids percent
  | PolicyRolling wave_size =>
      let k := N.to_nat (N.min wave_size (N.of_nat (S (length vmids)))) in
      rolling_loop envs vmids k 0 (chunks k vmids) [] 0
  end.
End batch.
