(* ===== verification/BatchSpec.v ===== *)
(** * Batches: what is sent, what is reported, where a run stops

    One scan-and-send is described by a postcondition ([full_wp]); the policies
    compose it over waves ([policy_wp]). *)

From S2P Require Import Prelude.
From S2P Require Import Json.
From S2P Require Import ApiError.
From S2P Require Import Guest.
From S2P Require Import HitlPending.
From S2P Require Import HitlCallback.
From S2P Require Import Gateway.
From S2P Require Import HitlOps.
From S2P Require Import HitlDaemon.
From S2P Require Import McpDispatch.
From S2P Require Import Batch.

Notation Target := (N * string * GuestType)%type.
Notation Scan := (list (string * Result AnyErr (list Guest))).
Definition vm (t : Target) : N := t.1.1.
Definition call_of (op : BatchOp) (t : Target) : MutCall :=
  let '(v, node, gt) := t in
  match op with
  | BatchStart => StartGuest node v gt
  | BatchStop true _ => StopGuest node v gt true
  | BatchStop false timeout_secs => ShutdownGuest node v gt timeout_secs
  | BatchRestart => RestartGuest node v gt
  | BatchSuspend => SuspendGuest node v gt
  | BatchResume => ResumeGuest node v gt
  end.

(** ** Rows *)
Definition row_bad (r : BatchRow) : bool := match br_status r with RsError _ _ | RsRejected _ => true | _ => false end.
Definition row_waits (r : BatchRow) : bool := match br_status r with RsPendingHitl _ _ => true | _ => false end.
Definition row_success (r : BatchRow) : bool := match br_status r with RsSuccess _ => true | _ => false end.
(** A row of a target that was tried. *)
Definition row_tried (r : BatchRow) : bool := row_success r || row_bad r || row_waits r.
Lemma error_row_bad r : is_error_row r = true -> row_bad r = true.
Proof. unfold is_error_row, row_bad. by destruct (br_status r). Qed.

(** ** [chunks] *)
Lemma chunks_fuel_enough {A} fuel k (l : list A) : 1 <= k -> length l <= fuel -> chunks_fuel fuel k l = chunks k l.
Proof.
  intros Hk. unfold chunks. remember (length l) as n eqn:En. assert (length l <= n) as Hn by lia. clear En.
  revert fuel n Hn. induction l as [l IH] using (well_founded_induction (Wf_nat.well_founded_ltof _ length)).
  intros fuel n Hn Hf. destruct fuel, n, l; simpl in *; try lia; try done. f_equal. apply IH.
  - unfold Wf_nat.ltof. simpl. destruct k; [lia|]. simpl. rewrite length_drop. lia.
  - destruct k; [lia|]. simpl. rewrite length_drop. lia.
  - lia.
Qed.
Lemma chunks_unfold {A} k (l : list A) :
  1 <= k -> chunks k l = match l with [] => [] | _ => take k l :: chunks k (drop k l) end.
Proof.
  intros Hk. destruct l as [|x l]; [done|]. unfold chunks at 1. cbn [length chunks_fuel]. f_equal.
  apply chunks_fuel_enough; [done|]. destruct k; [lia|]. simpl. rewrite length_drop. lia.
Qed.

Lemma concat_chunks {A} k (l : list A) : 1 <= k -> concat (chunks k l) = l.
Proof.
  intros Hk. induction l as [l IH] using (well_founded_induction (Wf_nat.well_founded_ltof _ length)).
  rewrite chunks_unfold by done. destruct l as [|x l]; [done|]. cbn [concat]. rewrite IH, take_drop; [done|].
  unfold Wf_nat.ltof. rewrite length_drop. simpl. lia.
Qed.

Section spec.
Context {W : Type} {G : Gateway W} {JT : JsonText}.
Context (policies : list Policy) (op : BatchOp) (strict : bool).
Implicit Types w : DaemonWorld W.

(** A call that may be made: the guest as the scan has it, not a template to be
    started, and covered by no policy. *)
Definition allowed (scan : Scan) (t : Target) : Prop :=
  exists g, guest_map scan !! vm t = Some g /\ t = (vm t, g_node g, g_guest_type g) /\
    check_policies policies (action_str op) (pretty (vm t)) (tag_list g) = None /\ g_template g && starts op = false.
Definition sends w w' (l : list Target) : Prop := calls (cluster w') = calls (cluster w) ++ (call_of op <$> l).
Lemma sends_nil w w' : calls (cluster w') = calls (cluster w) -> sends w w' [].
Proof. intros H. unfold sends. by rewrite H, app_nil_r. Qed.
Lemma sends_trans w w1 w2 l l' : sends w w1 l -> sends w1 w2 l' -> sends w w2 (l ++ l').
Proof. unfold sends. intros H1 H2. by rewrite H2, H1, fmap_app, app_assoc. Qed.

Lemma exec_wp t w :
  wp (attempt (on_cluster (exec_cli_batch_op t.1.2 t.1.1 t.2 op))) w
    (fun r w' => sends w w' [t] /\ exists x, r = Ok x).
Proof.
  destruct t as [[v n] gt]. unfold wp, attempt, on_cluster, sends. cbn [fst snd].
  destruct op as [|[]|  | |]; unfold exec_cli_batch_op, issue;
    (destruct (answer _ _) as [r p]; cbn; split; [done|by eexists]).
Qed.

(** ** The loop over the targets *)
Inductive Grows (scan : Scan) (vs : list N) (a a' : BatchAcc) (sent : list Target) : Prop :=
  mkGrows (rows : list BatchRow) (spawned : list Target)
    (gr_results : ba_results a' = ba_results a ++ rows)
    (gr_spawned : ba_spawned a' = ba_spawned a ++ spawned)
    (gr_failed : ba_failed a' = ba_failed a || existsb row_bad rows)
    (gr_pending : ba_pending a' = ba_pending a || existsb row_waits rows)
    (gr_report : (br_vmid <$> rows) ++ (vm <$> spawned) ≡ₚ vs)
    (gr_sent : (vm <$> sent) ++ (vm <$> spawned) ⊆+ vs)
    (gr_allowed : Forall (allowed scan) spawned)
    (gr_tried : Forall (fun r => row_tried r = true) rows)
    (gr_success : Forall (fun r => row_success r = true -> br_vmid r ∈ vm <$> sent) rows).
Lemma grows_nil scan a : Grows scan [] a a [].
Proof. apply (mkGrows _ _ _ _ _ [] []); cbn; rewrite ?app_nil_r, ?orb_false_r; done || apply Forall_nil_2. Qed.
Lemma grows_trans scan vs vs' a a1 a2 sent sent' :
  Grows scan vs a a1 sent -> Grows scan vs' a1 a2 sent' -> Grows scan (vs ++ vs') a a2 (sent ++ sent').
Proof.
  intros [r1 s1 A1 A2 A3 A4 A5 A6 A7 A8 A9] [r2 s2 B1 B2 B3 B4 B5 B6 B7 B8 B9].
  apply (mkGrows _ _ _ _ _ (r1 ++ r2) (s1 ++ s2)).
  - by rewrite B1, A1, app_assoc.
  - by rewrite B2, A2, app_assoc.
  - by rewrite B3, A3, existsb_app, orb_assoc.
  - by rewrite B4, A4, existsb_app, orb_assoc.
  - rewrite !fmap_app, <-A5, <-B5. solve_Permutation.
  - rewrite !fmap_app. etrans; [|apply submseteq_app; [exact A6|exact B6]].
    apply Permutation_submseteq. solve_Permutation.
  - by apply Forall_app.
  - by apply Forall_app.
  - apply Forall_app. split; eapply Forall_impl; try done; intros r H Hs; rewrite fmap_app; apply elem_of_app;
      [left|right]; by apply H.
Qed.

(** One row and nothing sent. *)
Lemma grows_row scan v s failed pending a :
  failed = row_bad (mkRow v s) -> pending = row_waits (mkRow v s) -> row_tried (mkRow v s) = true ->
  row_success (mkRow v s) = false -> Grows scan [v] a (push_row (mkRow v s) failed pending a) [].
Proof.
  intros -> -> Ht Hs. apply (mkGrows _ _ _ _ _ [mkRow v s] []); cbn [push_row ba_results ba_spawned ba_failed ba_pending existsb];
    rewrite ?orb_false_r, ?app_nil_r; try done.
  - apply submseteq_nil_l.
  - by apply Forall_singleton.
  - apply Forall_singleton. by rewrite Hs.
Qed.

Lemma on_table_wp {A} (f : Table -> Result AnyErr A * Table) w (Q : Result AnyErr A -> DaemonWorld W -> Prop) :
  (forall r w', calls (cluster w') = calls (cluster w) -> Q r w') -> wp (on_table f) w Q.
Proof. intros H. unfold wp, on_table. destruct (f (table w)). by apply H. Qed.

Definition step_post (scan : Scan) (vs : list N) (a : BatchAcc) w (r : Result AnyErr BatchAcc) w' : Prop :=
  exists sent, sends w w' sent /\ Forall (allowed scan) sent /\
    match r with Ok a' => Grows scan vs a a' sent | Err _ => (vm <$> sent) ⊆+ vs end.
Lemma step_post_quiet scan vs a w r w' :
  calls (cluster w') = calls (cluster w) -> match r with Ok a' => Grows scan vs a a' [] | Err _ => True end ->
  step_post scan vs a w r w'.
Proof.
  intros Hc Hr. exists []. split; [by apply sends_nil|]. split; [apply Forall_nil_2|]. destruct r; [done|]. apply submseteq_nil_l.
Qed.

Lemma ask_first_wp scan env v g pol a w : wp (ask_first op env v g pol a) w (step_post scan [v] a w).
Proof.
  unfold ask_first. destruct (we_telegram env); [|by apply wp_ret, step_post_quiet, grows_row..].
  destruct (is_empty (g_node g)); [by apply wp_throw, step_post_quiet|]. cbv zeta.
  apply wp_bind, on_table_wp. intros [u|e] w1 H1; [|by apply step_post_quiet].
  apply wp_bind, on_table_wp. intros [req|e] w2 H2; [|apply step_post_quiet; [congruence|done]].
  destruct (we_request_approval _ _ _ _ _ _).
  - apply wp_ret, step_post_quiet; [congruence|]. by apply grows_row.
  - apply wp_bind, on_table_wp. intros [u'|e'] w3 H3; [apply wp_ret|]; apply step_post_quiet; try congruence; try done.
    by apply grows_row.
Qed.
Lemma target_step_wp scan env v a w : wp (target_step policies op strict env scan v a) w (step_post scan [v] a w).
Proof.
  unfold target_step. destruct (guest_map scan !! v) as [g|] eqn:Eg; [|by apply wp_ret, step_post_quiet, grows_row].
  destruct (g_template g && starts op) eqn:Et; [by apply wp_ret, step_post_quiet, grows_row|].
  destruct (check_policies _ _ _ _) as [pol|] eqn:Ep; [apply ask_first_wp|].
  assert (allowed scan (v, g_node g, g_guest_type g)) as Ha by (by exists g).
  destruct strict.
  - unfold send_strict. apply wp_bind. eapply wp_mono; [apply (exec_wp (v, g_node g, g_guest_type g))|].
    intros r w1 [Hs [[upid|e] ->]]; [apply wp_ret|apply wp_throw]; exists [(v, g_node g, g_guest_type g)];
      (split; [done|]); (split; [by apply Forall_singleton|]); [|done].
    apply (mkGrows _ _ _ _ _ [mkRow v (RsSuccess upid)] []); cbn; rewrite ?orb_false_r, ?app_nil_r; try done.
    + by apply Forall_singleton.
    + apply Forall_singleton. intros _. by left.
  - apply wp_ret, step_post_quiet; [done|]. apply (mkGrows _ _ _ _ _ [] [(v, g_node g, g_guest_type g)]); cbn;
      rewrite ?orb_false_r, ?app_nil_r; try done. by apply Forall_singleton.
Qed.
Lemma target_loop_wp scan env vs a w : wp (target_loop policies op strict env scan vs a) w (step_post scan vs a w).
Proof.
  revert a w. induction vs as [|v vs IH]; intros a w; cbn [target_loop].
  { apply wp_ret, step_post_quiet; [done|apply grows_nil]. }
  apply wp_bind. eapply wp_mono; [apply target_step_wp|]. intros [a1|e] w1 (s1 & Hs1 & Ha1 & H1); cbn beta iota.
  2: { exists s1. split; [done|]. split; [done|]. etrans; [done|]. apply submseteq_skip, submseteq_nil_l. }
  eapply wp_mono; [apply IH|]. intros r w2 (s2 & Hs2 & Ha2 & H2). exists (s1 ++ s2).
  split; [by eapply sends_trans|]. split; [by apply Forall_app|]. change (v :: vs) with ([v] ++ vs).
  destruct r; [by eapply grows_trans|]. rewrite fmap_app. apply submseteq_app; [|done].
  destruct H1 as [? s ? ? ? ? ? H1]. etrans; [|exact H1]. apply submseteq_inserts_r. done.
Qed.

(** ** The spawned calls *)
Lemma run_spawned_wp ts w :
  wp (run_spawned op ts) w (fun r w' => sends w w' ts /\ exists rows, r = Ok rows /\
    br_vmid <$> rows = vm <$> ts /\ Forall (fun r => row_tried r = true) rows /\
    existsb is_error_row rows = existsb row_bad rows /\ existsb row_waits rows = false).
Proof.
  revert w. induction ts as [|[[v n] gt] ts IH]; intros w; cbn [run_spawned].
  { apply wp_ret. split; [by apply sends_nil|]. exists []. split_and!; try done. }
  apply wp_bind. eapply wp_mono; [apply (exec_wp (v, n, gt))|]. intros r w1 [Hs [x ->]]. cbn beta iota.
  apply wp_bind. eapply wp_mono; [apply IH|]. intros r w2 [Hs2 (rows & -> & Hv & Ht & He & Hw)]. cbn beta iota.
  apply wp_ret. split; [by eapply (sends_trans _ _ _ [_])|]. eexists. split; [done|]. cbn [fmap list_fmap].
  rewrite Hv. split; [done|]. cbn [existsb]. rewrite He, Hw. split; [constructor; [by destruct x|done]|].
  by destruct x.
Qed.

(** ** One scan-and-send *)
Definition allowed_in (env : WaveEnv) (t : Target) : Prop := exists scan, we_scan env = Ok scan /\ allowed scan t.
Record Reported (vs : list N) (sent : list Target) (rows : list BatchRow) (code : Z) : Prop := mkReported {
  rp_report : br_vmid <$> rows ≡ₚ vs;
  rp_code : code = batch_exit_code (existsb row_bad rows) (existsb row_waits rows);
  rp_tried : Forall (fun r => row_tried r = true) rows;
  rp_success : Forall (fun r => row_success r = true -> br_vmid r ∈ vm <$> sent) rows;
}.
Lemma full_wp env vs w :
  (forall l, we_order env l ≡ₚ l) ->
  wp (execute_batch_op_full policies op strict env vs) w (fun r w' => exists sent, sends w w' sent /\
    Forall (allowed_in env) sent /\ (vm <$> sent) ⊆+ vs /\
    match r with Ok (rows, code) => Reported vs sent rows code | Err _ => True end).
Proof.
  intros Hord. unfold execute_batch_op_full. apply wp_bind, wp_lift.
  assert (forall e : AnyErr, exists sent, sends w w sent /\ Forall (allowed_in env) sent /\ (vm <$> sent) ⊆+ vs /\ True) as Hq.
  { intros _. exists []. split; [by apply sends_nil|]. split; [apply Forall_nil_2|]. split; [apply submseteq_nil_l|done]. }
  destruct (we_scan env) as [scan|e] eqn:Es; [|by apply Hq]. apply wp_bind, wp_lift.
  destruct (telegram_ready env) as [[]|e]; [|by apply Hq]. apply wp_bind, wp_lift.
  destruct (strict_checks strict scan vs) as [[]|e]; [|by apply Hq]. clear Hq.
  assert (forall l, Forall (allowed scan) l -> Forall (allowed_in env) l) as Hal.
  { intros l Hl. eapply Forall_impl; [exact Hl|]. intros t Ht. by exists scan. }
  apply wp_bind. eapply wp_mono; [apply target_loop_wp|]. intros [a|e] w1 (s1 & Hs1 & Ha1 & H1); cbn beta iota.
  2: { exists s1. split; [done|]. split; [by apply Hal|done]. }
  destruct H1 as [rows sp R1 R2 R3 R4 R5 R6 R7 R8 R9]. cbn in R1, R2, R3, R4. rewrite R2.
  apply wp_bind. eapply wp_mono; [apply run_spawned_wp|].
  intros r w2 [Hs2 (rows2 & -> & Hv & Ht & He & Hw)]. cbn beta iota. apply wp_ret.
  exists (s1 ++ we_order env sp). split; [by eapply sends_trans|].
  split. { apply Forall_app. split; [by apply Hal|]. apply Hal. by rewrite Hord. }
  split. { rewrite fmap_app. rewrite (Hord sp). done. }
  rewrite R1, R3, R4, He. split.
  - rewrite fmap_app, Hv, (Hord sp). done.
  - by rewrite !existsb_app, Hw, orb_false_r.
  - by apply Forall_app.
  - apply Forall_app. split.
    + eapply Forall_impl; [done|]. intros r H Hr. rewrite fmap_app. apply elem_of_app. left. by apply H.
    + apply Forall_forall. intros r Hr _. rewrite fmap_app, <-Hv. apply elem_of_app. right. apply list_elem_of_fmap. by exists r.
Qed.

(** ** Waves *)
Definition all_success (rows : list BatchRow) : Prop := Forall (fun r => row_success r = true) rows.
Definition policy_ok (p : BatchPolicy) : Prop :=
  match p with PolicyFull => True | PolicyCanary percent => (1 <= percent <= 100)%N | PolicyRolling k => (1 <= k)%N end.
(** A wave for what is left of the targets, if anything is. *)
Definition rest_wave (rest : list N) : list (list N) := match rest with [] => [] | _ => [rest] end.
(** The waves a policy plans: everything; a pilot and the rest; slices. *)
Definition waves_of (policy : BatchPolicy) (vs : list N) : list (list N) :=
  match policy with
  | PolicyFull => [vs]
  | PolicyCanary percent =>
      let n := N.to_nat (canary_pilot_count (N.of_nat (length vs)) percent) in
      take n vs :: rest_wave (drop n vs)
  | PolicyRolling size => chunks (N.to_nat (N.min size (N.of_nat (S (length vs))))) vs
  end.
(** The rows after which a wave is the last one: a pilot that is not a success
    throughout, a slice with a row of status [error]. *)
Definition stops (policy : BatchPolicy) (rows : list BatchRow) : bool :=
  match policy with
  | PolicyFull => false
  | PolicyCanary _ => negb (forallb row_success rows)
  | PolicyRolling _ => existsb is_error_row rows
  end.

(** A wave that was run: its targets, the calls it made, the rows it reported. *)
Record Wave := mkWave { wv_targets : list N; wv_sent : list Target; wv_rows : list BatchRow }.
Definition wave_told (v : Wave) : Prop :=
  (br_vmid <$> wv_rows v) ≡ₚ wv_targets v /\
  Forall (fun r => row_success r = true -> br_vmid r ∈ vm <$> wv_sent v) (wv_rows v).
(** The waves that were run are the first of those planned.  Each but the last
    reported rows that do not [stop] the run; when some are [left] the last one
    reported rows that do, and the targets of those left are reported as
    skipped.  [acc] and [code0] are what earlier waves reported. *)
Inductive WavesRun (envs : nat -> WaveEnv) (stop : list BatchRow -> bool) (planned : list (list N))
    (acc : list BatchRow) (code0 : Z) w (r : Result AnyErr (list BatchRow * Z)) w' : Prop :=
  mkWavesRun (ran : list Wave) (left : list (list N))
    (wr_split : planned = (wv_targets <$> ran) ++ left)
    (wr_sends : sends w w' (concat (wv_sent <$> ran)))
    (wr_targets : Forall (fun v => (vm <$> wv_sent v) ⊆+ wv_targets v) ran)
    (wr_allowed : Forall (fun v => exists i, Forall (allowed_in (envs i)) (wv_sent v)) ran)
    (wr_told : Forall wave_told (removelast ran))
    (wr_goes_on : Forall (fun v => stop (wv_rows v) = false) (removelast ran))
    (wr_rows : match r with
               | Err _ => True
               | Ok (rows, code) =>
                   exists reason, rows = acc ++ concat (wv_rows <$> ran) ++ skipped_rows reason (concat left) /\
                     Forall wave_told ran /\
                     (left <> [] -> exists v, last ran = Some v /\ stop (wv_rows v) = true) /\
                     (0 <= code)%Z /\
                     (code = 0%Z <-> code0 = 0%Z /\ all_success (concat (wv_rows <$> ran) ++ skipped_rows reason (concat left)))
               end).

Lemma exit_code_zero rows : Forall (fun r => row_tried r = true) rows ->
  batch_exit_code (existsb row_bad rows) (existsb row_waits rows) = 0%Z <-> all_success rows.
Proof.
  intros Ht. unfold batch_exit_code. split.
  - intros H. destruct (existsb row_bad rows) eqn:Eb; [done|]. destruct (existsb row_waits rows) eqn:Ew; [done|].
    apply Forall_forall. intros r Hr. rewrite Forall_forall in Ht. specialize (Ht r Hr).
    assert (forall f, existsb f rows = false -> f r = false) as Hno.
    { intros f Hf. destruct (f r) eqn:E; [|done]. rewrite <-Hf. symmetry. apply existsb_exists. exists r.
      split; [by apply list_elem_of_In|done]. }
    unfold row_tried in Ht. rewrite (Hno _ Eb), (Hno _ Ew), !orb_false_r in Ht. done.
  - intros Hs. assert (forall f, (forall r, row_success r = true -> f r = false) -> existsb f rows = false) as Hno.
    { intros f Hf. destruct (existsb f rows) eqn:E; [|done]. apply existsb_exists in E as (r & Hr%list_elem_of_In & Hfr).
      unfold all_success in Hs. rewrite Forall_forall in Hs. by rewrite Hf in Hfr by (by apply Hs). }
    rewrite !Hno; [done|unfold row_success, row_waits|unfold row_success, row_bad]; intros r; by destruct (br_status r).
Qed.
Lemma error_not_success rows : existsb is_error_row rows = true -> ~ all_success rows.
Proof.
  intros (r & Hr%list_elem_of_In & He%error_row_bad)%existsb_exists Hs. unfold all_success in Hs. rewrite Forall_forall in Hs.
  specialize (Hs r Hr). revert Hs He. unfold row_success, row_bad. by destruct (br_status r).
Qed.
Lemma all_success_app r1 r2 : all_success (r1 ++ r2) <-> all_success r1 /\ all_success r2.
Proof. unfold all_success. apply Forall_app. Qed.
Lemma skipped_not_success reason vs : all_success (skipped_rows reason vs) -> vs = [].
Proof. destruct vs; [done|]. intros H. by apply Forall_cons in H as [? _]. Qed.
Lemma exit_code_nonneg b1 b2 : (0 <= batch_exit_code b1 b2)%Z.
Proof. unfold batch_exit_code, EXIT_HITL_PENDING. destruct b1, b2; lia. Qed.

Lemma not_all_success rows : negb (forallb row_success rows) = true <-> ~ all_success rows.
Proof.
  unfold all_success. rewrite negb_true_iff, <-not_true_iff_false, forallb_forall, Forall_forall.
  by setoid_rewrite list_elem_of_In.
Qed.

Section waves.
Context (envs : nat -> WaveEnv) (Hord : forall i l, we_order (envs i) l ≡ₚ l) (stop : list BatchRow -> bool).
Local Notation full i vs := (execute_batch_op_full policies op strict (envs i) vs).
Local Notation WavesRun := (WavesRun envs stop).

(** The last wave: an error ends the run, or what is left over is skipped. *)
Lemma waves_err wave left acc code0 sent i w w1 e :
  sends w w1 sent -> Forall (allowed_in (envs i)) sent -> (vm <$> sent) ⊆+ wave ->
  WavesRun (wave :: left) acc code0 w (Err e) w1.
Proof.
  intros Hs Ha Ht. apply (mkWavesRun _ _ _ _ _ _ _ _ [mkWave wave sent []] left); simpl; rewrite ?app_nil_r; try done.
  - by apply Forall_singleton.
  - apply Forall_singleton. by exists i.
Qed.
Lemma waves_last wave left acc code0 sent rows code i w w1 reason code' :
  sends w w1 sent -> Forall (allowed_in (envs i)) sent -> (vm <$> sent) ⊆+ wave -> Reported wave sent rows code ->
  (left <> [] -> stop rows = true) -> (0 <= code')%Z ->
  (code' = 0%Z <-> code0 = 0%Z /\ all_success (rows ++ skipped_rows reason (concat left))) ->
  WavesRun (wave :: left) acc code0 w (Ok (acc ++ rows ++ skipped_rows reason (concat left), code')) w1.
Proof.
  intros Hs Ha Ht HR Hn Hp Hz.
  apply (mkWavesRun _ _ _ _ _ _ _ _ [mkWave wave sent rows] left); simpl; rewrite ?app_nil_r; try done.
  - by apply Forall_singleton.
  - apply Forall_singleton. by exists i.
  - exists reason. destruct HR. split; [done|]. split; [by apply Forall_singleton|]. split; [|done].
    intros Hne. eexists. split; [done|]. by apply Hn.
Qed.
(** A wave that does not stop the run, and what follows it. *)
Lemma waves_cons wave planned acc code0 sent rows code i w w1 r w2 code1 :
  sends w w1 sent -> Forall (allowed_in (envs i)) sent -> (vm <$> sent) ⊆+ wave -> Reported wave sent rows code ->
  stop rows = false -> (code1 = 0%Z <-> code0 = 0%Z /\ code = 0%Z) ->
  WavesRun planned (acc ++ rows) code1 w1 r w2 -> WavesRun (wave :: planned) acc code0 w r w2.
Proof.
  intros Hs Ha Ht [R1 R2 R3 R4] He Hcode [ran left S1 S2 S3 S4 S5 S6 S7].
  set (v := mkWave wave sent rows).
  assert (forall P : Wave -> Prop, P v -> Forall P (removelast ran) -> Forall P (removelast (v :: ran))) as Hfirst.
  { intros P Hv HP. destruct ran as [|b ran]; [apply Forall_nil_2|].
    change (removelast (v :: b :: ran)) with (v :: removelast (b :: ran)). by constructor. }
  apply (mkWavesRun _ _ _ _ _ _ _ _ (v :: ran) left).
  - by rewrite S1.
  - cbn [fmap list_fmap concat]. by eapply sends_trans.
  - by constructor.
  - constructor; [by exists i|done].
  - by apply Hfirst.
  - by apply Hfirst.
  - destruct r as [[rows' code']|]; [|done]. destruct S7 as (reason & -> & P1 & P2 & P3 & P4).
    exists reason. cbn [fmap list_fmap concat]. rewrite <-!app_assoc. split; [done|]. split; [by constructor|].
    split. { intros Hne. destruct (P2 Hne) as (part & Hl & Hn). exists part. split; [|done]. by destruct ran. }
    split; [done|]. cbn [wv_rows v]. rewrite P4, Hcode, (all_success_app rows), R2, exit_code_zero by done. tauto.
Qed.
Lemma waves_nil acc code0 w : (0 <= code0)%Z -> WavesRun [] acc code0 w (Ok (acc, code0)) w.
Proof.
  intros H0. apply (mkWavesRun _ _ _ _ _ _ _ _ [] []); cbn; try done.
  - by apply sends_nil.
  - exists "". cbn. rewrite app_nil_r. split; [done|]. split; [constructor|].
    split; [done|]. split; [done|]. by split; [split; [|constructor]|intros [? _]].
Qed.
End waves.

Section runs.
Context (envs : nat -> WaveEnv) (Hord : forall i l, we_order (envs i) l ≡ₚ l).

Lemma rolling_wp k vs idx acc code0 w :
  1 <= k -> (0 <= code0)%Z ->
  wp (rolling_loop policies op strict envs vs k idx (chunks k (drop (idx * k) vs)) acc code0) w
    (WavesRun envs (existsb is_error_row) (chunks k (drop (idx * k) vs)) acc code0 w).
Proof.
  intros Hk. remember (length vs - idx * k) as n eqn:En. revert idx En acc code0 w.
  induction n as [n IH] using lt_wf_ind. intros idx En acc code0 w H0.
  rewrite (chunks_unfold k) by done. set (l := drop (idx * k) vs) in *. destruct l as [|x l0] eqn:El.
  { cbn [rolling_loop]. by apply wp_ret, waves_nil. }
  cbn [rolling_loop]. rewrite <-El. assert (length l = n) as Hl by (subst l n; by rewrite length_drop).
  assert (0 < n) by (rewrite <-Hl, El; simpl; lia).
  assert (drop k l = drop (S idx * k) vs) as Hd by (subst l; rewrite drop_drop; f_equal; lia).
  assert (drop (idx * k + length (take k l)) vs = concat (chunks k (drop k l))) as Hrem.
  { rewrite concat_chunks by done. rewrite <-drop_drop. fold l. rewrite length_take.
    destruct (decide (k <= length l)); [f_equal; lia|]. rewrite !drop_ge; [done|lia..]. }
  apply wp_bind. eapply wp_mono; [by apply full_wp|].
  intros [[rows code]|e] w1 (sent & Hs & Ha & Ht & HR); [|by eapply waves_err].
  assert (0 <= code)%Z by (destruct HR as [_ -> _ _]; apply exit_code_nonneg).
  assert (code = 0%Z <-> all_success rows) as Hz by (destruct HR as [_ -> ? _]; by apply exit_code_zero).
  set (code1 := if negb (code =? 0)%Z then Z.max code0 code else code0).
  assert (0 <= code1)%Z by (unfold code1; destruct (negb _); lia).
  assert (code1 = 0%Z <-> code0 = 0%Z /\ code = 0%Z) as Hc1.
  { unfold code1. destruct (Z.eqb_spec code 0); simpl; lia. }
  cbv beta zeta iota. destruct (existsb is_error_row rows) eqn:Ee.
  - apply wp_ret. rewrite Hrem, <-app_assoc. pose proof (error_not_success _ Ee) as Hn. eapply waves_last; try done.
    + destruct (code1 =? 0)%Z; lia.
    + rewrite all_success_app. destruct (Z.eqb_spec code1 0); [naive_solver lia|naive_solver].
  - rewrite Hd. eapply wp_mono; [apply (IH (length vs - S idx * k)); [subst n; simpl; lia|done|done]|].
    intros r w2 HW. by eapply waves_cons.
Qed.

Lemma policy_wp policy vs w :
  policy_ok policy ->
  wp (execute_batch_op_with_policy policies op strict envs vs policy) w
    (WavesRun envs (stops policy) (waves_of policy vs) [] 0 w).
Proof.
  destruct policy as [|percent|k]; cbn [execute_batch_op_with_policy policy_ok waves_of]; intros Hok.
  - eapply wp_mono; [by apply full_wp|].
    intros [[rows code]|e] w1 (sent & Hs & Ha & Ht & HR); [|by eapply waves_err].
    replace rows with ([] ++ rows ++ skipped_rows "" (concat [])) at 1 by (cbn; by rewrite app_nil_r).
    eapply waves_last; try done; destruct HR as [_ -> ? _].
    + apply exit_code_nonneg.
    + cbn [skipped_rows fmap list_fmap concat]. rewrite app_nil_r, exit_code_zero by done. naive_solver.
  - unfold run_canary. cbv zeta. set (n := N.to_nat _).
    generalize (take n vs) (drop n vs). clear n. intros pilot rest.
    apply wp_bind. eapply wp_mono; [by apply full_wp|].
    intros [[rows code]|e] w1 (sent & Hs & Ha & Ht & HR); [|by eapply waves_err].
    assert (0 <= code)%Z by (destruct HR as [_ -> _ _]; apply exit_code_nonneg).
    assert (code = 0%Z <-> all_success rows) as Hz by (destruct HR as [_ -> ? _]; by apply exit_code_zero).
    assert (code = 0%Z \/ 2 <= code)%Z as Hcode.
    { destruct HR as [_ -> _ _]. unfold batch_exit_code, EXIT_HITL_PENDING. repeat case_match; lia. }
    assert (existsb is_error_row rows || (2 <=? code)%Z = stops (PolicyCanary percent) rows) as Hstop.
    { apply eq_true_iff_eq. cbn [stops]. rewrite not_all_success, orb_true_iff, Z.leb_le. split.
      - intros [He|Hc]; [by apply error_not_success|]. rewrite <-Hz. lia.
      - intros Hn. right. rewrite <-Hz in Hn. lia. }
    cbv beta iota. rewrite Hstop. destruct (stops (PolicyCanary percent) rows) eqn:Ef.
    + assert (~ all_success rows) as Hn by by apply not_all_success.
      apply wp_ret. remember (rest_wave rest) as left eqn:El.
      assert (concat left = rest) as <- by (rewrite El; destruct rest; cbn; by rewrite ?app_nil_r).
      eapply (waves_last _ _ _ _ [] 0); try done. rewrite all_success_app. naive_solver lia.
    + destruct rest as [|x rest0] eqn:Er.
      * apply wp_ret. replace rows with ([] ++ rows ++ skipped_rows "" (concat [])) at 1 by (cbn; by rewrite app_nil_r).
        eapply (waves_last _ _ _ [] [] 0); try done. cbn [skipped_rows fmap list_fmap concat]. rewrite app_nil_r. naive_solver.
      * rewrite <-Er. assert (rest_wave rest = [rest]) as Hrest by (by rewrite Er). rewrite Hrest. apply wp_bind. eapply wp_mono; [by apply full_wp|].
        intros [[rows2 code2]|e] w2 (sent2 & Hs2 & Ha2 & Ht2 & HR2).
        2: { eapply (waves_cons _ _ _ _ [] 0%Z sent rows code 0 w w1 _ w2 code); try done; [naive_solver|]. by eapply waves_err. }
        cbv beta iota. apply wp_ret. eapply (waves_cons _ _ _ _ [] 0%Z sent rows code 0 w w1 _ w2 code); try done; [naive_solver|].
        replace (rows ++ rows2) with (([] ++ rows) ++ rows2 ++ skipped_rows "" (concat [])) by (cbn; by rewrite app_nil_r).
        assert (0 <= code2)%Z by (destruct HR2 as [_ -> _ _]; apply exit_code_nonneg).
        assert (code2 = 0%Z <-> all_success rows2) as Hz2 by (destruct HR2 as [_ -> ? _]; by apply exit_code_zero).
        eapply waves_last; try done; cbn [skipped_rows fmap list_fmap concat]; rewrite ?app_nil_r, <-?Hz2;
          destruct (Z.eqb_spec code 0), (Z.eqb_spec code2 0); simpl; lia.
  - set (k' := N.to_nat _). assert (1 <= k') as Hk' by (subst k'; lia).
    by apply (rolling_wp k' vs 0 [] 0 w).
Qed.
End runs.
End spec.

(** ** Policies from the command line *)
Lemma BatchPolicy_parse_ok s p : BatchPolicy_parse s = Ok p -> policy_ok p.
Proof.
  unfold BatchPolicy_parse. cbv zeta. case_bool_decide; [by intros [= <-]|].
  destruct (strip_prefix "canary" _) as [rest|].
  - destruct (is_empty rest); [intros [= <-]; cbn; lia|]. destruct (strip_prefix "=" rest) as [n|]; [|done].
    destruct (parse_uint 255 n) as [p0|]; [|done]. destruct (_ && _) eqn:E; [|done]. intros [= <-].
    apply andb_prop in E as [?%N.leb_le ?%N.leb_le]. cbn. lia.
  - destruct (strip_prefix "rolling" _) as [rest|]; [|done].
    destruct (is_empty rest); [intros [= <-]; cbn; lia|]. destruct (strip_prefix "=" rest) as [n|]; [|done].
    destruct (parse_uint _ n) as [p0|]; [|done]. destruct (1 <=? p0)%N eqn:E; [|done]. intros [= <-].
    apply N.leb_le in E. cbn. lia.
Qed.
Lemma canary_pilot_bounds n percent :
  (1 <= n)%N -> (1 <= canary_pilot_count n percent <= n)%N.
Proof. unfold canary_pilot_count. lia. Qed.

Lemma concat_waves_of policy vs : policy_ok policy -> concat (waves_of policy vs) = vs.
Proof.
  destruct policy as [|percent|k]; cbn [waves_of policy_ok]; intros Hok.
  - cbn. by rewrite app_nil_r.
  - cbv zeta. set (n := N.to_nat _). rewrite <-(take_drop n vs) at 3.
    destruct (drop n vs) eqn:E; cbn [concat rest_wave]; rewrite ?app_nil_r; done.
  - apply concat_chunks. lia.
Qed.


(** ** Three guests in waves of one *)
Section demo.
#[local] Instance batch_pve : Gateway unit := {|
  answer := fun c w => (match c with StartGuest _ 102 _ => Err (bail "no space") | _ => Ok "UPID:pve1:1" end, w);
  pve_find_guest := fun _ w => (Ok None, w);
  pve_next_free_vmid := fun w => (Ok 1%N, w);
  pve_get_next_vmid := fun w => (Ok 1%N, w);
  pve_task_status := fun _ _ w => (Err (bail "gone"), w);
  clock_ms := fun _ => 0%N;
  sleep_ms := fun _ w => w;
|}.
#[local] Instance batch_json : JsonText := {|
  ids_to_text := fun _ => ""; ids_of_text := fun _ => Some []; value_to_text := fun _ => "" |}.
Definition batch_guest (v : N) : Guest :=
  {| g_vmid := v; g_name := "web"; g_status := Stopped; g_guest_type := Lxc; g_node := "pve1"; g_cpus := 1;
     g_mem := 0; g_maxmem := 0; g_disk := 0; g_maxdisk := 0; g_uptime := 0; g_tags := ""; g_lock := "";
     g_hastate := ""; g_template := false; g_netin := 0; g_netout := 0 |}.
Definition set_template (g : Guest) : Guest :=
  {| g_vmid := g_vmid g; g_name := g_name g; g_status := g_status g; g_guest_type := g_guest_type g; g_node := g_node g;
     g_cpus := g_cpus g; g_mem := g_mem g; g_maxmem := g_maxmem g; g_disk := g_disk g; g_maxdisk := g_maxdisk g;
     g_uptime := g_uptime g; g_tags := g_tags g; g_lock := g_lock g; g_hastate := g_hastate g; g_template := true;
     g_netin := g_netin g; g_netout := g_netout g |}.
Definition batch_env : WaveEnv := {|
  we_scan := Ok [("pve1", Ok [batch_guest 101; batch_guest 102; batch_guest 103])];
  we_telegram := TgReady; we_request_id := pretty; we_now := 0;
  we_disk_open := fun _ => Ok (); we_disk_insert := fun _ => Ok (); we_disk_mark := fun _ => Ok ();
  we_request_approval := fun _ _ _ _ _ => Ok (); we_order := fun l => l |}.
Definition batch_start : DaemonWorld unit := mkDaemonWorld (mkWorld tt []) ∅ [].
Definition batch_run (policies : list Policy) (vs : list N) (p : BatchPolicy) :=
  execute_batch_op_with_policy policies BatchStart false (fun _ => batch_env) vs p batch_start.


(** A slice with a rejected target, here a template to be started, does not
    stop a rolling run; the same target stops a canary run. *)
Definition template_env : WaveEnv := {|
  we_scan := Ok [("pve1", Ok [batch_guest 101; set_template (batch_guest 102); batch_guest 103])];
  we_telegram := TgReady; we_request_id := pretty; we_now := 0;
  we_disk_open := fun _ => Ok (); we_disk_insert := fun _ => Ok (); we_disk_mark := fun _ => Ok ();
  we_request_approval := fun _ _ _ _ _ => Ok (); we_order := fun l => l |}.
Example rejected_rows_do_not_stop_rolling :
  let run := fun p => execute_batch_op_with_policy [] BatchStart false (fun _ => template_env) [102; 103]%N p batch_start in
  calls (cluster (run (PolicyRolling 1)).2) = [StartGuest "pve1" 103 Lxc] /\
  calls (cluster (run (PolicyCanary 1)).2) = [].
Proof. vm_compute. auto. Qed.

(** Approval of the first guest and failure of the second: the wave that waits
    hides the one that failed from the exit code. *)
Example rolling_exit_hides_failure :
  exists rows w', batch_run [{| po_action := "start"; po_target := "101"; po_channel := "telegram"; po_require := 1 |}]
                    [101; 102]%N (PolicyRolling 1) = (Ok (rows, EXIT_HITL_PENDING), w') /\ existsb row_bad rows = true.
Proof. vm_compute. eexists _, _. split; reflexivity. Qed.
End demo.
