(* ===== verification/StateExport.v ===== *)
(** * Exporting the live cluster: state/export.rs

    [export_state] reads the families a selector names from the cluster and
    projects them to declarations, sorted so that two exports of one cluster are
    the same text; [render_export_toml] writes them, with a [key = []] line for
    each exported family that has no members.

    [StateReadView] is the trait of that name: what the cluster answers during
    one export.  The wire types are those of api/types.  The TOML printer is a
    parameter. *)

From S2P Require Import Prelude.
From S2P Require Import Json.
From S2P Require Import ApiError.
From S2P Require Import StateModel.
From S2P Require Import StateDiff.
From S2P Require Import SortBy.
From S2P Require Import AuditLog.
From S2P Require Import Ha.

(** ** Families *)
Inductive Resource :=
  | RsPools | RsAcl | RsStorage | RsBackupJobs | RsFirewallCluster | RsNotifications
  | RsHaResources | RsHaRules | RsMappingsPci | RsMappingsUsb.
#[export] Instance Resource_eq_dec : EqDecision Resource.
Proof. solve_decision. Defined.
Definition Resource_all : list Resource :=
  [RsPools; RsAcl; RsStorage; RsBackupJobs; RsFirewallCluster; RsNotifications; RsHaResources; RsHaRules;
   RsMappingsPci; RsMappingsUsb].
Definition Resource_as_str (r : Resource) : string :=
  match r with
  | RsPools => "pools" | RsAcl => "acl" | RsStorage => "storage" | RsBackupJobs => "backup-jobs"
  | RsFirewallCluster => "firewall-cluster" | RsNotifications => "notifications" | RsHaResources => "ha-resources"
  | RsHaRules => "ha-rules" | RsMappingsPci => "mappings-pci" | RsMappingsUsb => "mappings-usb"
  end.
(** The selector; [low] is its trimmed text in lower case. *)
Definition Resource_parse (low : string) : Result AnyErr (list Resource) :=
  match List.find (fun r => bool_decide (Resource_as_str r = low)) Resource_all with
  | Some r => Ok [r]
  | None =>
      if bool_decide (low = "mappings") then Ok [RsMappingsPci; RsMappingsUsb]
      else if bool_decide (low = "all") then Ok Resource_all
      else Err (bail ("unknown resource '" +:+ low +:+ "' (valid: pools | acl | storage | backup-jobs | firewall-cluster | "
             +:+ "notifications | ha-resources | ha-rules | mappings | mappings-pci | mappings-usb | all)"))
  end.
Definition family_keys (r : Resource) : list string :=
  match r with
  | RsPools => ["pools"]
  | RsAcl => ["acl"]
  | RsStorage => ["storage"]
  | RsBackupJobs => ["backup_jobs"]
  | RsFirewallCluster => ["firewall_options"; "firewall_aliases"; "firewall_ipsets"; "firewall_groups"]
  | RsNotifications => ["notification_matchers"]
  | RsHaResources => ["ha_resources"]
  | RsHaRules => ["ha_rules"]
  | RsMappingsPci => ["mappings_pci"]
  | RsMappingsUsb => ["mappings_usb"]
  end.

(** ** Wire types *)
Record Pool := mkPool { po_poolid : string; po_comment : string }.
Record PoolMember := mkPoolMember {
  pm_id : string; pm_type : string; pm_node : string; pm_vmid : N; pm_storage : string; pm_status : string; pm_name : string }.
Record PoolDetails := mkPoolDetails { pd_poolid : string; pd_comment : string; pd_members : list PoolMember }.
Record AclEntry := mkAclEntry { ae_path : string; ae_kind : string; ae_ugid : string; ae_roleid : string; ae_propagate : bool }.
Record StorageDefinition := mkStorageDefinition {
  sd_storage : string; sd_storage_type : string; sd_content : string; sd_nodes : string; sd_disable : bool;
  sd_shared : bool; sd_digest : string; sd_path : string; sd_pool : string; sd_server : string; sd_export : string;
  sd_datastore : string; sd_fingerprint : string; sd_username : string; sd_vgname : string; sd_thinpool : string }.
Record BackupJob := mkBackupJob {
  bj_id : string; bj_schedule : string; bj_storage : string; bj_mode : string; bj_enabled : bool; bj_all : bool;
  bj_vmid : string; bj_node : string; bj_mailto : string; bj_mailnotification : string; bj_compress : string;
  bj_comment : string; bj_notes_template : string; bj_prune_backups : string; bj_next_run : N }.
Record FirewallOptions := mkFirewallOptions {
  fo_enable : option bool; fo_policy_in : option string; fo_policy_out : option string; fo_policy_forward : option string;
  fo_ebtables : option bool; fo_log_ratelimit : option string; fo_digest : string }.
Record FirewallAlias := mkFirewallAlias { fa_name : string; fa_cidr : string; fa_comment : string; fa_ipversion : N; fa_digest : string }.
Record FirewallIpset := mkFirewallIpset { fi_name : string; fi_comment : string; fi_digest : string }.
Record FirewallIpsetCidr := mkFirewallIpsetCidr { fc_cidr : string; fc_comment : string; fc_nomatch : bool; fc_digest : string }.
Record FirewallSecurityGroup := mkFirewallSecurityGroup { fg_group : string; fg_comment : string; fg_digest : string }.
Record NotificationMatcher := mkNotificationMatcher {
  nw_name : string; nw_comment : string; nw_origin : string; nw_target : list string; nw_match_field : list string;
  nw_match_severity : list string; nw_mode : string; nw_invert_match : bool; nw_disable : bool }.
Record ClusterMappingPci := mkMappingPci { mp_id : string; mp_description : string; mp_mdev : bool; mp_map : list string; mp_digest : string }.
Record ClusterMappingUsb := mkMappingUsb { mu_id : string; mu_description : string; mu_map : list string; mu_digest : string }.
Record ApiVersion := mkApiVersion { av_version : string; av_release : string; av_repoid : string }.

Record StateReadView := mkView {
  list_pools_view : Result AnyErr (list Pool);
  get_pool_view : string -> Result AnyErr PoolDetails;
  list_acl_view : Result AnyErr (list AclEntry);
  list_cluster_storages_view : Result AnyErr (list StorageDefinition);
  list_backup_jobs_view : Result AnyErr (list BackupJob);
  get_cluster_firewall_options_view : Result AnyErr FirewallOptions;
  list_cluster_firewall_aliases_view : Result AnyErr (list FirewallAlias);
  list_cluster_firewall_ipsets_view : Result AnyErr (list FirewallIpset);
  list_cluster_firewall_ipset_cidrs_view : string -> Result AnyErr (list FirewallIpsetCidr);
  list_cluster_firewall_groups_view : Result AnyErr (list FirewallSecurityGroup);
  list_notification_matchers_view : Result AnyErr (list NotificationMatcher);
  list_ha_resources_view : Result AnyErr (list HaResource);
  list_ha_rules_view : Result AnyErr (list HaRule);
  list_cluster_mapping_pci_view : Result AnyErr (list ClusterMappingPci);
  list_cluster_mapping_usb_view : Result AnyErr (list ClusterMappingUsb);
  get_api_version_view : Result AnyErr ApiVersion;
}.

(** ** Projections *)
(** [with_context] / [context] on a result. *)
Definition with_context {A} (c : string) (r : Result AnyErr A) : Result AnyErr A :=
  match r with Ok a => Ok a | Err e => Err (context c e) end.
(** [sort_by(|a, b| a.key.cmp(&b.key))] and [sort()] *)
Definition sort_key {A} (key : A -> string) (l : list A) : list A := sort_by (cmp_on key String.compare) l.
Definition sort_strings (l : list string) : list string := sort_by String.compare l.

Definition pool_member_to_ref (m : PoolMember) : option string :=
  if bool_decide (pm_type m = "qemu") then Some ("qemu/" +:+ pretty (pm_vmid m))
  else if bool_decide (pm_type m = "lxc") then Some ("lxc/" +:+ pretty (pm_vmid m))
  else if bool_decide (pm_type m = "storage") then Some ("storage/" +:+ pm_storage m)
  else None.
Definition pool_decl (p : Pool) (detail : PoolDetails) : PoolDecl :=
  {| pool_poolid := po_poolid p; pool_comment := pd_comment detail;
     pool_members := sort_strings (omap pool_member_to_ref (pd_members detail)) |}.
Definition acl_decl (e : AclEntry) : AclDecl :=
  {| acl_path := ae_path e; acl_kind := ae_kind e; acl_ugid := ae_ugid e; acl_roleid := ae_roleid e;
     acl_propagate := ae_propagate e |}.
Definition cmp_acl (a b : AclDecl) : comparison :=
  then_cmp (then_cmp (then_cmp (cmp_on acl_path String.compare a b) (cmp_on acl_kind String.compare a b))
              (cmp_on acl_ugid String.compare a b)) (cmp_on acl_roleid String.compare a b).
Definition storage_decl (s : StorageDefinition) : StorageDecl :=
  {| st_storage := sd_storage s; st_storage_type := sd_storage_type s; st_content := normalize_csv (sd_content s);
     st_nodes := normalize_csv (sd_nodes s); st_disable := sd_disable s; st_shared := sd_shared s; st_path := sd_path s;
     st_pool := sd_pool s; st_server := sd_server s; st_export := sd_export s; st_datastore := sd_datastore s;
     st_fingerprint := sd_fingerprint s; st_username := sd_username s; st_vgname := sd_vgname s;
     st_thinpool := sd_thinpool s |}.
Definition job_decl (j : BackupJob) : BackupJobDecl :=
  {| job_id := bj_id j; job_schedule := bj_schedule j; job_storage := bj_storage j; job_mode := bj_mode j;
     job_enabled := bj_enabled j; job_all := bj_all j; job_vmid := bj_vmid j; job_node := bj_node j;
     job_mailto := bj_mailto j; job_compress := bj_compress j; job_comment := bj_comment j;
     job_notes_template := bj_notes_template j; job_prune_backups := bj_prune_backups j |}.
Definition options_decl (o : FirewallOptions) : FirewallOptionsDecl :=
  {| fwo_enable := fo_enable o; fwo_policy_in := fo_policy_in o; fwo_policy_out := fo_policy_out o;
     fwo_policy_forward := fo_policy_forward o; fwo_ebtables := fo_ebtables o; fwo_log_ratelimit := fo_log_ratelimit o |}.
Definition alias_decl (a : FirewallAlias) : FirewallAliasDecl :=
  {| alias_name := fa_name a; alias_cidr := fa_cidr a; alias_comment := fa_comment a |}.
Definition pci_decl (p : ClusterMappingPci) : MappingPciDecl :=
  {| pci_id := mp_id p; pci_description := mp_description p; pci_mdev := mp_mdev p; pci_map := sort_strings (mp_map p) |}.
Definition usb_decl (u : ClusterMappingUsb) : MappingUsbDecl :=
  {| usb_id := mu_id u; usb_description := mu_description u; usb_map := sort_strings (mu_map u) |}.
Definition cidr_decl (c : FirewallIpsetCidr) : FirewallIpsetCidrDecl :=
  {| cidr_cidr := fc_cidr c; cidr_comment := fc_comment c; cidr_nomatch := fc_nomatch c |}.
Definition ipset_decl (s : FirewallIpset) (cidrs : list FirewallIpsetCidr) : FirewallIpsetDecl :=
  {| ipset_name := fi_name s; ipset_comment := fi_comment s; ipset_cidrs := cidr_decl <$> sort_key fc_cidr cidrs |}.
Definition group_decl (g : FirewallSecurityGroup) : FirewallGroupDecl :=
  {| group_group := fg_group g; group_comment := fg_comment g |}.
Definition matcher_decl (m : NotificationMatcher) : NotificationMatcherDecl :=
  {| nm_name := nw_name m; nm_comment := nw_comment m; nm_target := sort_strings (nw_target m);
     nm_match_field := sort_strings (nw_match_field m); nm_match_severity := sort_strings (nw_match_severity m);
     nm_mode := nw_mode m; nm_invert_match := nw_invert_match m; nm_disable := nw_disable m |}.
Definition ha_resource_decl (r : HaResource) : HaResourceDecl :=
  {| ha_sid := Ha.hr_sid r; ha_state := Ha.hr_state r; ha_max_restart := Ha.hr_max_restart r;
     ha_max_relocate := Ha.hr_max_relocate r; ha_failback := true; ha_auto_rebalance := true; ha_comment := Ha.hr_comment r |}.
Definition rule_decl (r : HaRule) : HaRuleDecl :=
  {| hr_rule := hu_rule r; hr_rule_type := hu_rule_type r; hr_resources := dedup (sort_strings (nonempty_pieces (hu_resources r)));
     StateModel.hr_comment := hu_comment r; hr_disable := hu_disable r; hr_nodes := hu_nodes r; hr_strict := hu_strict r;
     hr_affinity := hu_affinity r |}.

(** ** One export per family *)
Section export.
Context (client : StateReadView).

Definition export_pools : Result AnyErr (list PoolDecl) :=
  pools ← with_context "listing pools" (list_pools_view client);
  mapM (fun p => detail ← with_context ("reading pool '" +:+ po_poolid p +:+ "'") (get_pool_view client (po_poolid p));
                 Ok (pool_decl p detail)) (sort_key po_poolid pools).
Definition export_acl : Result AnyErr (list AclDecl) :=
  entries ← with_context "listing ACL" (list_acl_view client);
  Ok (sort_by cmp_acl (acl_decl <$> entries)).
Definition export_storage : Result AnyErr (list StorageDecl) :=
  storages ← with_context "listing cluster storages" (list_cluster_storages_view client);
  Ok (storage_decl <$> sort_key sd_storage storages).
Definition export_backup_jobs : Result AnyErr (list BackupJobDecl) :=
  jobs ← with_context "listing backup jobs" (list_backup_jobs_view client);
  Ok (job_decl <$> sort_key bj_id jobs).
Definition export_firewall_options : Result AnyErr FirewallOptionsDecl :=
  o ← with_context "reading firewall options" (get_cluster_firewall_options_view client);
  Ok (options_decl o).
Definition export_firewall_aliases : Result AnyErr (list FirewallAliasDecl) :=
  aliases ← with_context "listing firewall aliases" (list_cluster_firewall_aliases_view client);
  Ok (alias_decl <$> sort_key fa_name aliases).
Definition export_mappings_pci : Result AnyErr (list MappingPciDecl) :=
  m ← with_context "listing PCI mappings" (list_cluster_mapping_pci_view client);
  Ok (pci_decl <$> sort_key mp_id m).
Definition export_mappings_usb : Result AnyErr (list MappingUsbDecl) :=
  m ← with_context "listing USB mappings" (list_cluster_mapping_usb_view client);
  Ok (usb_decl <$> sort_key mu_id m).
Definition export_firewall_ipsets : Result AnyErr (list FirewallIpsetDecl) :=
  ipsets ← with_context "listing firewall ipsets" (list_cluster_firewall_ipsets_view client);
  mapM (fun s => cidrs ← with_context ("listing CIDRs of ipset '" +:+ fi_name s +:+ "'")
                           (list_cluster_firewall_ipset_cidrs_view client (fi_name s));
                 Ok (ipset_decl s cidrs)) (sort_key fi_name ipsets).
Definition export_firewall_groups : Result AnyErr (list FirewallGroupDecl) :=
  groups ← with_context "listing firewall groups" (list_cluster_firewall_groups_view client);
  Ok (group_decl <$> sort_key fg_group groups).
Definition export_notification_matchers : Result AnyErr (list NotificationMatcherDecl) :=
  matchers ← with_context "listing notification matchers" (list_notification_matchers_view client);
  Ok (matcher_decl <$> sort_key nw_name matchers).
Definition export_ha_resources : Result AnyErr (list HaResourceDecl) :=
  resources ← with_context "listing HA resources" (list_ha_resources_view client);
  Ok (ha_resource_decl <$> sort_key Ha.hr_sid resources).
Definition export_ha_rules : Result AnyErr (list HaRuleDecl) :=
  rules ← with_context "listing HA rules" (list_ha_rules_view client);
  Ok (rule_decl <$> sort_key hu_rule rules).

(** ** [export_state] *)
#[export] Instance ClusterState_fields : Fields ClusterState := fun s =>
  {| cs_meta := cs_meta s; cs_declared_families := cs_declared_families s; cs_pools := cs_pools s; cs_acl := cs_acl s;
     cs_storage := cs_storage s; cs_backup_jobs := cs_backup_jobs s; cs_firewall_options := cs_firewall_options s;
     cs_firewall_aliases := cs_firewall_aliases s; cs_firewall_ipsets := cs_firewall_ipsets s;
     cs_firewall_groups := cs_firewall_groups s; cs_notification_matchers := cs_notification_matchers s;
     cs_ha_resources := cs_ha_resources s; cs_ha_rules := cs_ha_rules s; cs_mappings_pci := cs_mappings_pci s;
     cs_mappings_usb := cs_mappings_usb s |}.
Definition export_family (r : Resource) (s : ClusterState) : Result AnyErr ClusterState :=
  match r with
  | RsPools => x ← with_context "exporting pools" export_pools; Ok (s <| cs_pools := x |>)
  | RsAcl => x ← with_context "exporting acl" export_acl; Ok (s <| cs_acl := x |>)
  | RsStorage => x ← with_context "exporting storage" export_storage; Ok (s <| cs_storage := x |>)
  | RsBackupJobs => x ← with_context "exporting backup-jobs" export_backup_jobs; Ok (s <| cs_backup_jobs := x |>)
  | RsFirewallCluster =>
      o ← with_context "exporting firewall options" export_firewall_options;
      a ← with_context "exporting firewall aliases" export_firewall_aliases;
      i ← with_context "exporting firewall ipsets" export_firewall_ipsets;
      g ← with_context "exporting firewall groups" export_firewall_groups;
      Ok (s <| cs_firewall_options := Some o |> <| cs_firewall_aliases := a |> <| cs_firewall_ipsets := i |>
            <| cs_firewall_groups := g |>)
  | RsNotifications =>
      x ← with_context "exporting notification matchers" export_notification_matchers;
      Ok (s <| cs_notification_matchers := x |>)
  | RsHaResources => x ← with_context "exporting HA resources" export_ha_resources; Ok (s <| cs_ha_resources := x |>)
  | RsHaRules => x ← with_context "exporting HA rules" export_ha_rules; Ok (s <| cs_ha_rules := x |>)
  | RsMappingsPci => x ← with_context "exporting PCI mappings" export_mappings_pci; Ok (s <| cs_mappings_pci := x |>)
  | RsMappingsUsb => x ← with_context "exporting USB mappings" export_mappings_usb; Ok (s <| cs_mappings_usb := x |>)
  end.
Fixpoint export_families (rs : list Resource) (s : ClusterState) : Result AnyErr ClusterState :=
  match rs with
  | [] => Ok s
  | r :: rest => s ← export_family r s; export_families rest s
  end.
(** [now] and [version] are the clock and [CARGO_PKG_VERSION]. *)
Definition export_meta (now : N) (version profile : string) : StateMeta :=
  {| meta_schema_version := CURRENT_STATE_SCHEMA; meta_profile := profile; meta_exported_at := chrono_now now;
     meta_exported_from_proxxx := version;
     meta_pve_version := match get_api_version_view client with Ok v => av_version v | Err _ => "" end |}.
Definition export_state (now : N) (version : string) (resources : list Resource) (profile : string) : Result AnyErr ClusterState :=
  export_families resources (ClusterState_default <| cs_meta := Some (export_meta now version profile) |>).
End export.

(** ** Rendering *)
(** The top-level keys a state serialises to: empty lists and absent options
    are skipped. *)
Definition key_if_some {A} (k : string) (o : option A) : gset string := match o with Some _ => {[k]} | None => ∅ end.
Definition key_if_any {A} (k : string) (l : list A) : gset string := match l with [] => ∅ | _ => {[k]} end.
Definition present_keys (s : ClusterState) : gset string :=
  key_if_some "meta" (cs_meta s) ∪ key_if_any "pools" (cs_pools s) ∪ key_if_any "acl" (cs_acl s)
  ∪ key_if_any "storage" (cs_storage s) ∪ key_if_any "backup_jobs" (cs_backup_jobs s)
  ∪ key_if_some "firewall_options" (cs_firewall_options s) ∪ key_if_any "firewall_aliases" (cs_firewall_aliases s)
  ∪ key_if_any "firewall_ipsets" (cs_firewall_ipsets s) ∪ key_if_any "firewall_groups" (cs_firewall_groups s)
  ∪ key_if_any "notification_matchers" (cs_notification_matchers s) ∪ key_if_any "ha_resources" (cs_ha_resources s)
  ∪ key_if_any "ha_rules" (cs_ha_rules s) ∪ key_if_any "mappings_pci" (cs_mappings_pci s)
  ∪ key_if_any "mappings_usb" (cs_mappings_usb s).
Definition nl : string := String (ascii_of_nat 10) "".
Definition missing_keys (s : ClusterState) (resources : list Resource) : list string :=
  List.filter (fun k => negb (bool_decide (k ∈ present_keys s))) (resources ≫= family_keys).
Definition with_heads (heads : list string) (body : string) : string :=
  match heads with
  | [] => body
  | _ => String.concat "" ((fun k => k +:+ " = []" +:+ nl) <$> heads) +:+ nl +:+ body
  end.
Definition render_export_toml (to_string_pretty : ClusterState -> Result AnyErr string) (s : ClusterState)
    (resources : list Resource) : Result AnyErr string :=
  body ← to_string_pretty s;
  Ok (with_heads (missing_keys s resources) body).
