(* ===== verification/StateExportSpec.v ===== *)
(** * An exported document is in sync with the cluster it was exported from

    Two reads of an unchanged cluster may differ in the order of lists, in the
    order of the parts of comma lists and in the fields that are not exported
    (digests, the next run of a job); [same_cluster] says so field by field.  The
    exports of two such reads are equal, and a rendered export, loaded and
    compared with a second read, shows no change. *)

From S2P Require Import Prelude.
From S2P Require Import Json.
From S2P Require Import ApiError.
From S2P Require Import StateModel.
From S2P Require Import StateSerde.
From S2P Require Import StateDiff.
From S2P Require Import StateDiffSpec.
From S2P Require Import StateLoad.
From S2P Require Import SortBy.
From S2P Require Import Ha.
From S2P Require Import StateExport.

(** ** Sorting by an identity *)
(** The same elements up to [R], in another order. *)
Definition same_list {A} (R : A -> A -> Prop) (l l' : list A) : Prop := exists k, l ≡ₚ k /\ Forall2 R k l'.
Lemma same_list_eq {A} (l l' : list A) : l ≡ₚ l' -> same_list eq l l'.
Proof. intros H. exists l'. split; [done|]. clear H. induction l'; by constructor. Qed.

Lemma sort_insert_Forall2 {A} (R : A -> A -> Prop) (key : A -> string) x x' l l' :
  (forall a b, R a b -> key a = key b) -> R x x' -> Forall2 R l l' ->
  Forall2 R (sort_insert (cmp_on key String.compare) x l) (sort_insert (cmp_on key String.compare) x' l').
Proof.
  intros Hk Hx. induction 1 as [|y y' l l' Hy Hl IH]; cbn [sort_insert]; [by repeat constructor|].
  unfold cmp_on in *. rewrite <-(Hk _ _ Hx), <-(Hk _ _ Hy). destruct (String.compare _ _); by repeat constructor.
Qed.
Lemma sort_key_Forall2 {A} (R : A -> A -> Prop) (key : A -> string) l l' :
  (forall a b, R a b -> key a = key b) -> Forall2 R l l' -> Forall2 R (sort_key key l) (sort_key key l').
Proof.
  intros Hk. induction 1 as [|y y' l l' Hy Hl IH]; [constructor|]. cbn. by apply sort_insert_Forall2.
Qed.
Lemma NoDup_fmap_inj_on {A B} (f : A -> B) l x y : NoDup (f <$> l) -> x ∈ l -> y ∈ l -> f x = f y -> x = y.
Proof.
  intros Hn (i & Hi)%list_elem_of_lookup (j & Hj)%list_elem_of_lookup Hf.
  assert (i = j) as ->; [|congruence]. eapply NoDup_lookup; [exact Hn|by rewrite list_lookup_fmap, Hi|].
  rewrite list_lookup_fmap, Hj. cbn. by rewrite Hf.
Qed.
Lemma sort_key_same {A} (R : A -> A -> Prop) (key : A -> string) l l' :
  (forall a b, R a b -> key a = key b) -> NoDup (key <$> l) -> same_list R l l' ->
  Forall2 R (sort_key key l) (sort_key key l').
Proof.
  intros Hk Hn (k & Hp & HR). replace (sort_key key l) with (sort_key key k); [by apply sort_key_Forall2|].
  symmetry. apply (sort_by_unique (cmp_on key String.compare)); [|done]. intros x y Hx Hy E.
  apply String.compare_eq_iff in E. by eapply NoDup_fmap_inj_on.
Qed.
Lemma project_same {A D} (R : A -> A -> Prop) (key : A -> string) (proj : A -> D) l l' :
  (forall a b, R a b -> key a = key b /\ proj a = proj b) -> NoDup (key <$> l) -> same_list R l l' ->
  proj <$> sort_key key l = proj <$> sort_key key l'.
Proof.
  intros HR Hn Hs. assert (Forall2 R (sort_key key l) (sort_key key l')) as H.
  { apply sort_key_same; [|done..]. intros a b H. by apply HR. }
  induction H as [|x y k k' Hxy _ IH]; [done|]. cbn. f_equal; [by apply HR|done].
Qed.
Lemma sort_strings_same l l' : l ≡ₚ l' -> sort_strings l = sort_strings l'.
Proof. intros H. apply (sort_by_unique String.compare); [|done]. intros x y _ _. by intros ?%String.compare_eq_iff. Qed.
Lemma NoDup_sort_key {A} (key : A -> string) l : NoDup (key <$> l) -> NoDup (key <$> sort_key key l).
Proof.
  intros H. assert (key <$> sort_key key l ≡ₚ key <$> l) as ->; [|done].
  apply fmap_Permutation, (sort_by_Permutation (cmp_on key String.compare)).
Qed.

(** ** The same cluster, read twice *)
Definition csv_same (a b : string) : Prop := split_char "," a ≡ₚ split_char "," b.
Lemma csv_same_normal a b : csv_same a b -> normalize_csv a = normalize_csv b.
Proof.
  unfold csv_same, normalize_csv. intros H. assert (a = "" <-> b = "") as He.
  { split; intros ->; cbn in H; [symmetry in H|]; apply Permutation_singleton_r in H;
      [rewrite <-(join_split_char "," b), H|rewrite <-(join_split_char "," a), H]; done. }
  unfold is_empty. destruct (decide (a = "")) as [Ha|Ha].
  - rewrite !bool_decide_true; [done|by apply He|done].
  - rewrite !bool_decide_false; [|by rewrite <-He|done]. f_equal. unfold sort_unstable.
    apply (StronglySorted_unique String.le); [apply StronglySorted_merge_sort; apply _..|]. by rewrite !merge_sort_Permutation.
Qed.

Definition same_member (a b : PoolMember) : Prop := pm_type a = pm_type b /\ pm_vmid a = pm_vmid b /\ pm_storage a = pm_storage b.
Definition same_details (a b : PoolDetails) : Prop :=
  pd_comment a = pd_comment b /\ same_list same_member (pd_members a) (pd_members b).
Definition same_storage (a b : StorageDefinition) : Prop :=
  sd_storage a = sd_storage b /\ sd_storage_type a = sd_storage_type b /\ csv_same (sd_content a) (sd_content b) /\
  csv_same (sd_nodes a) (sd_nodes b) /\ sd_disable a = sd_disable b /\ sd_shared a = sd_shared b /\ sd_path a = sd_path b /\
  sd_pool a = sd_pool b /\ sd_server a = sd_server b /\ sd_export a = sd_export b /\ sd_datastore a = sd_datastore b /\
  sd_fingerprint a = sd_fingerprint b /\ sd_username a = sd_username b /\ sd_vgname a = sd_vgname b /\
  sd_thinpool a = sd_thinpool b.
Definition same_job (a b : BackupJob) : Prop := job_decl a = job_decl b.
Definition same_alias (a b : FirewallAlias) : Prop :=
  fa_name a = fa_name b /\ fa_cidr a = fa_cidr b /\ fa_comment a = fa_comment b.
Definition same_cidr (a b : FirewallIpsetCidr) : Prop :=
  fc_cidr a = fc_cidr b /\ fc_comment a = fc_comment b /\ fc_nomatch a = fc_nomatch b.
Definition same_ipset (a b : FirewallIpset) : Prop := fi_name a = fi_name b /\ fi_comment a = fi_comment b.
Definition same_group (a b : FirewallSecurityGroup) : Prop := fg_group a = fg_group b /\ fg_comment a = fg_comment b.
Definition same_matcher (a b : NotificationMatcher) : Prop :=
  nw_name a = nw_name b /\ nw_comment a = nw_comment b /\ nw_target a ≡ₚ nw_target b /\
  nw_match_field a ≡ₚ nw_match_field b /\ nw_match_severity a ≡ₚ nw_match_severity b /\ nw_mode a = nw_mode b /\
  nw_invert_match a = nw_invert_match b /\ nw_disable a = nw_disable b.
Definition same_rule (a b : HaRule) : Prop :=
  hu_rule a = hu_rule b /\ hu_rule_type a = hu_rule_type b /\
  nonempty_pieces (hu_resources a) ≡ₚ nonempty_pieces (hu_resources b) /\ hu_comment a = hu_comment b /\
  hu_disable a = hu_disable b /\ hu_nodes a = hu_nodes b /\ hu_strict a = hu_strict b /\ hu_affinity a = hu_affinity b.
Definition same_ha_resource (a b : HaResource) : Prop :=
  Ha.hr_sid a = Ha.hr_sid b /\ Ha.hr_state a = Ha.hr_state b /\ Ha.hr_max_restart a = Ha.hr_max_restart b /\
  Ha.hr_max_relocate a = Ha.hr_max_relocate b /\ Ha.hr_comment a = Ha.hr_comment b.
Definition same_pci (a b : ClusterMappingPci) : Prop :=
  mp_id a = mp_id b /\ mp_description a = mp_description b /\ mp_mdev a = mp_mdev b /\ mp_map a ≡ₚ mp_map b.
Definition same_usb (a b : ClusterMappingUsb) : Prop :=
  mu_id a = mu_id b /\ mu_description a = mu_description b /\ mu_map a ≡ₚ mu_map b.

(** Two answers that were given are related. *)
Definition answers {A} (R : A -> A -> Prop) (r r' : Result AnyErr A) : Prop :=
  forall a a', r = Ok a -> r' = Ok a' -> R a a'.
Record same_cluster (c c' : StateReadView) : Prop := mkSame {
  sc_pools : answers (same_list (fun a b => po_poolid a = po_poolid b)) (list_pools_view c) (list_pools_view c');
  sc_pool id : answers same_details (get_pool_view c id) (get_pool_view c' id);
  sc_acl : answers Permutation (list_acl_view c) (list_acl_view c');
  sc_storages : answers (same_list same_storage) (list_cluster_storages_view c) (list_cluster_storages_view c');
  sc_jobs : answers (same_list same_job) (list_backup_jobs_view c) (list_backup_jobs_view c');
  sc_options : answers (fun a b => options_decl a = options_decl b) (get_cluster_firewall_options_view c)
                 (get_cluster_firewall_options_view c');
  sc_aliases : answers (same_list same_alias) (list_cluster_firewall_aliases_view c) (list_cluster_firewall_aliases_view c');
  sc_ipsets : answers (same_list same_ipset) (list_cluster_firewall_ipsets_view c) (list_cluster_firewall_ipsets_view c');
  sc_cidrs n : answers (same_list same_cidr) (list_cluster_firewall_ipset_cidrs_view c n)
                 (list_cluster_firewall_ipset_cidrs_view c' n);
  sc_groups : answers (same_list same_group) (list_cluster_firewall_groups_view c) (list_cluster_firewall_groups_view c');
  sc_matchers : answers (same_list same_matcher) (list_notification_matchers_view c) (list_notification_matchers_view c');
  sc_ha_resources : answers (same_list same_ha_resource) (list_ha_resources_view c) (list_ha_resources_view c');
  sc_ha_rules : answers (same_list same_rule) (list_ha_rules_view c) (list_ha_rules_view c');
  sc_pci : answers (same_list same_pci) (list_cluster_mapping_pci_view c) (list_cluster_mapping_pci_view c');
  sc_usb : answers (same_list same_usb) (list_cluster_mapping_usb_view c) (list_cluster_mapping_usb_view c');
}.
(** PVE's identities are unique. *)
Definition unique_by {A K} (key : A -> K) (r : Result AnyErr (list A)) : Prop := forall l, r = Ok l -> NoDup (key <$> l).
Record unique_ids (c : StateReadView) : Prop := mkUnique {
  ui_pools : unique_by po_poolid (list_pools_view c);
  ui_acl : unique_by (fun e => acl_check_key (acl_decl e)) (list_acl_view c);
  ui_storages : unique_by sd_storage (list_cluster_storages_view c);
  ui_jobs : unique_by bj_id (list_backup_jobs_view c);
  ui_aliases : unique_by fa_name (list_cluster_firewall_aliases_view c);
  ui_ipsets : unique_by fi_name (list_cluster_firewall_ipsets_view c);
  ui_cidrs n : unique_by fc_cidr (list_cluster_firewall_ipset_cidrs_view c n);
  ui_groups : unique_by fg_group (list_cluster_firewall_groups_view c);
  ui_matchers : unique_by nw_name (list_notification_matchers_view c);
  ui_ha_resources : unique_by Ha.hr_sid (list_ha_resources_view c);
  ui_ha_rules : unique_by hu_rule (list_ha_rules_view c);
  ui_pci : unique_by mp_id (list_cluster_mapping_pci_view c);
  ui_usb : unique_by mu_id (list_cluster_mapping_usb_view c);
}.

(** ** Each family *)
Lemma with_context_Ok {A} m (r : Result AnyErr A) a : with_context m r = Ok a <-> r = Ok a.
Proof. destruct r; cbn; naive_solver. Qed.
(** An export that reads a list and projects it. *)
Lemma listed_same {A D} (R : A -> A -> Prop) (key : A -> string) (proj : A -> D) msg r r' l l' :
  (forall a b, R a b -> key a = key b /\ proj a = proj b) -> unique_by key r -> answers (same_list R) r r' ->
  (x ← with_context msg r; Ok (proj <$> sort_key key x)) = Ok l ->
  (x ← with_context msg r'; Ok (proj <$> sort_key key x)) = Ok l' -> l = l'.
Proof.
  intros HR Hu Ha. destruct r as [x|], r' as [x'|]; cbn; try done. intros [= <-] [= <-].
  eapply project_same; [done|by apply Hu|by apply Ha].
Qed.
Lemma listed_keys {A D} (key : A -> string) (proj : A -> D) (dkey : D -> string) msg r l :
  (forall a, dkey (proj a) = key a) -> unique_by key r ->
  (x ← with_context msg r; Ok (proj <$> sort_key key x)) = Ok l -> NoDup (dkey <$> l).
Proof.
  intros Hk Hu. destruct r as [x|]; cbn; [|done]. intros [= <-]. rewrite <-list_fmap_compose.
  replace ((dkey ∘ proj) <$> sort_key key x) with (key <$> sort_key key x); [apply NoDup_sort_key; by apply Hu|].
  apply list_fmap_ext. intros i y _. symmetry. apply Hk.
Qed.
Lemma mapM_same {A D} (R : A -> A -> Prop) (f g : A -> Result AnyErr D) l l' k k' :
  Forall2 R l l' -> (forall a b x y, R a b -> f a = Ok x -> g b = Ok y -> x = y) ->
  mapM f l = Ok k -> mapM g l' = Ok k' -> k = k'.
Proof.
  intros H Hfg. revert k k'. induction H as [|a b l l' Hab _ IH]; intros k k'; cbn; [by intros [= <-] [= <-]|].
  destruct (f a) as [x|] eqn:Ef; cbn; [|done]. destruct (g b) as [y|] eqn:Eg; cbn; [|done].
  destruct (mapM f l) as [xs|]; cbn; [|done]. destruct (mapM g l') as [ys|]; cbn; [|done]. intros [= <-] [= <-].
  f_equal; [by eapply Hfg|by apply IH].
Qed.
Lemma mapM_keys {A D} (f : A -> Result AnyErr D) (key : A -> string) (dkey : D -> string) l k :
  (forall a d, f a = Ok d -> dkey d = key a) -> mapM f l = Ok k -> dkey <$> k = key <$> l.
Proof.
  intros Hf. revert k. induction l as [|a l IH]; intros k; cbn; [by intros [= <-]|].
  destruct (f a) as [d|] eqn:Ef; cbn; [|done]. destruct (mapM f l) as [ds|]; cbn; [|done]. intros [= <-].
  cbn. f_equal; [by apply Hf|by apply IH].
Qed.
Lemma same_list_omap {A B} (R : A -> A -> Prop) (f : A -> option B) l l' :
  (forall a b, R a b -> f a = f b) -> same_list R l l' -> omap f l ≡ₚ omap f l'.
Proof.
  intros HR (k & -> & H). apply reflexive_eq. induction H as [|a b k l' Hab _ IH]; [done|]. cbn.
  rewrite (HR _ _ Hab), IH. done.
Qed.

Section same.
Context (c c' : StateReadView) (Hs : same_cluster c c') (Hu : unique_ids c).
Local Ltac projects := unfold same_storage, same_job, same_alias, same_group, same_matcher, same_rule, same_ha_resource,
  same_pci, same_usb, storage_decl, job_decl, alias_decl, group_decl, matcher_decl, rule_decl, ha_resource_decl,
  pci_decl, usb_decl; intros a b H; destruct_and?; split; [congruence|];
  f_equal; eauto using csv_same_normal, sort_strings_same; f_equal; eauto using sort_strings_same.

Lemma pools_same l l' : export_pools c = Ok l -> export_pools c' = Ok l' -> l = l'.
Proof.
  unfold export_pools. pose proof (sc_pools _ _ Hs) as Ha. pose proof (ui_pools _ Hu) as Hn.
  destruct (list_pools_view c) as [x|], (list_pools_view c') as [x'|]; cbn; try done.
  eapply mapM_same; [apply sort_key_same; [|by apply Hn|by apply Ha]; done|].
  cbn. intros a b d d' Hab. rewrite <-Hab. pose proof (sc_pool _ _ Hs (po_poolid a)) as Hd.
  destruct (get_pool_view c (po_poolid a)) as [y|], (get_pool_view c' (po_poolid a)) as [y'|]; cbn; try done.
  intros [= <-] [= <-]. destruct (Hd y y') as [Hc Hm]; [done..|]. unfold pool_decl. rewrite Hab, Hc. f_equal.
  apply sort_strings_same. eapply same_list_omap; [|done]. intros m m' (H1 & H2 & H3). unfold pool_member_to_ref.
  by rewrite H1, H2, H3.
Qed.
Lemma ipsets_same l l' : export_firewall_ipsets c = Ok l -> export_firewall_ipsets c' = Ok l' -> l = l'.
Proof.
  unfold export_firewall_ipsets. pose proof (sc_ipsets _ _ Hs) as Ha. pose proof (ui_ipsets _ Hu) as Hn.
  destruct (list_cluster_firewall_ipsets_view c) as [x|], (list_cluster_firewall_ipsets_view c') as [x'|]; cbn; try done.
  eapply mapM_same; [apply (sort_key_same same_ipset); [|by apply Hn|by apply Ha]; by intros ?? [??]|].
  cbn. intros a b d d' [Hab Hc]. rewrite <-Hab. pose proof (sc_cidrs _ _ Hs (fi_name a)) as Hd. pose proof (ui_cidrs _ Hu (fi_name a)) as Hdn.
  destruct (list_cluster_firewall_ipset_cidrs_view c (fi_name a)) as [y|], (list_cluster_firewall_ipset_cidrs_view c' (fi_name a)) as [y'|];
    cbn; try done.
  intros [= <-] [= <-]. unfold ipset_decl. rewrite Hab, Hc. f_equal.
  apply (project_same same_cidr); [|by apply Hdn|by apply Hd]. intros u v (H1 & H2 & H3). unfold cidr_decl. split; [done|]. by rewrite H1, H2, H3.
Qed.
Lemma acl_same l l' : export_acl c = Ok l -> export_acl c' = Ok l' -> l = l'.
Proof.
  unfold export_acl. pose proof (sc_acl _ _ Hs) as Ha. pose proof (ui_acl _ Hu) as Hn.
  destruct (list_acl_view c) as [x|], (list_acl_view c') as [x'|]; cbn; try done. intros [= <-] [= <-].
  assert (Cmp cmp_acl) by (unfold cmp_acl; apply _).
  apply (sort_by_unique cmp_acl); [|by rewrite (Ha x x')]. intros a b Hx Hy E.
  eapply (NoDup_fmap_inj_on acl_check_key); [|done..|].
  - rewrite <-list_fmap_compose. by apply Hn.
  - unfold cmp_acl in E. rewrite !then_cmp_eq in E. destruct E as (((E1 & E2) & E3) & E4). unfold cmp_on in *.
    apply String.compare_eq_iff in E1, E2, E3, E4. unfold acl_check_key. congruence.
Qed.
Lemma storage_same l l' : export_storage c = Ok l -> export_storage c' = Ok l' -> l = l'.
Proof. eapply listed_same; [|apply Hu|apply Hs]. projects. Qed.
Lemma jobs_same l l' : export_backup_jobs c = Ok l -> export_backup_jobs c' = Ok l' -> l = l'.
Proof. eapply listed_same; [|apply Hu|apply Hs]. intros a b H. split; [by injection H|done]. Qed.
Lemma options_same l l' : export_firewall_options c = Ok l -> export_firewall_options c' = Ok l' -> l = l'.
Proof.
  unfold export_firewall_options. pose proof (sc_options _ _ Hs) as Ha.
  destruct (get_cluster_firewall_options_view c), (get_cluster_firewall_options_view c'); cbn; try done.
  intros [= <-] [= <-]. by apply Ha.
Qed.
Lemma aliases_same l l' : export_firewall_aliases c = Ok l -> export_firewall_aliases c' = Ok l' -> l = l'.
Proof. eapply listed_same; [|apply Hu|apply Hs]. projects. Qed.
Lemma groups_same l l' : export_firewall_groups c = Ok l -> export_firewall_groups c' = Ok l' -> l = l'.
Proof. eapply listed_same; [|apply Hu|apply Hs]. projects. Qed.
Lemma matchers_same l l' : export_notification_matchers c = Ok l -> export_notification_matchers c' = Ok l' -> l = l'.
Proof. eapply listed_same; [|apply Hu|apply Hs]. projects. Qed.
Lemma ha_resources_same l l' : export_ha_resources c = Ok l -> export_ha_resources c' = Ok l' -> l = l'.
Proof. eapply listed_same; [|apply Hu|apply Hs]. projects. Qed.
Lemma ha_rules_same l l' : export_ha_rules c = Ok l -> export_ha_rules c' = Ok l' -> l = l'.
Proof. eapply listed_same; [|apply Hu|apply Hs]. projects. Qed.
Lemma pci_same l l' : export_mappings_pci c = Ok l -> export_mappings_pci c' = Ok l' -> l = l'.
Proof. eapply listed_same; [|apply Hu|apply Hs]. projects. Qed.
Lemma usb_same l l' : export_mappings_usb c = Ok l -> export_mappings_usb c' = Ok l' -> l = l'.
Proof. eapply listed_same; [|apply Hu|apply Hs]. projects. Qed.
End same.

(** ** The whole state *)
Definition exported (c : StateReadView) (r : Resource) (s : ClusterState) : Prop :=
  match r with
  | RsPools => export_pools c = Ok (cs_pools s)
  | RsAcl => export_acl c = Ok (cs_acl s)
  | RsStorage => export_storage c = Ok (cs_storage s)
  | RsBackupJobs => export_backup_jobs c = Ok (cs_backup_jobs s)
  | RsFirewallCluster =>
      (exists o, export_firewall_options c = Ok o /\ cs_firewall_options s = Some o) /\
      export_firewall_aliases c = Ok (cs_firewall_aliases s) /\ export_firewall_ipsets c = Ok (cs_firewall_ipsets s) /\
      export_firewall_groups c = Ok (cs_firewall_groups s)
  | RsNotifications => export_notification_matchers c = Ok (cs_notification_matchers s)
  | RsHaResources => export_ha_resources c = Ok (cs_ha_resources s)
  | RsHaRules => export_ha_rules c = Ok (cs_ha_rules s)
  | RsMappingsPci => export_mappings_pci c = Ok (cs_mappings_pci s)
  | RsMappingsUsb => export_mappings_usb c = Ok (cs_mappings_usb s)
  end.
Definition blank (r : Resource) (s : ClusterState) : Prop :=
  match r with
  | RsPools => cs_pools s = []
  | RsAcl => cs_acl s = []
  | RsStorage => cs_storage s = []
  | RsBackupJobs => cs_backup_jobs s = []
  | RsFirewallCluster =>
      cs_firewall_options s = None /\ cs_firewall_aliases s = [] /\ cs_firewall_ipsets s = [] /\ cs_firewall_groups s = []
  | RsNotifications => cs_notification_matchers s = []
  | RsHaResources => cs_ha_resources s = []
  | RsHaRules => cs_ha_rules s = []
  | RsMappingsPci => cs_mappings_pci s = []
  | RsMappingsUsb => cs_mappings_usb s = []
  end.
Lemma bind_context_Ok {A B} m (r : Result AnyErr A) (k : A -> Result AnyErr B) b :
  (x ← with_context m r; k x) = Ok b -> exists a, r = Ok a /\ k a = Ok b.
Proof. destruct r; cbn; [|done]. by eexists. Qed.
Lemma export_family_spec c r s s' :
  export_family c r s = Ok s' ->
  exported c r s' /\ cs_meta s' = cs_meta s /\ cs_declared_families s' = cs_declared_families s /\
  forall r', r' <> r -> (exported c r' s -> exported c r' s') /\ (blank r' s -> blank r' s').
Proof.
  destruct r; cbn [export_family].
  5: { intros (o & Ho & (a & Ha & (i & Hi & (g & Hg & [= <-])%bind_context_Ok)%bind_context_Ok)%bind_context_Ok)%bind_context_Ok.
       cbn. split; [split_and!; [by exists o|done..]|]. split; [done|]. split; [done|]. intros r' Hr. destruct r'; try done; by split. }
  all: intros (x & Hx & [= <-])%bind_context_Ok; cbn; (split; [done|]); (split; [done|]); (split; [done|]);
    intros r' Hr; destruct r'; try done; by split.
Qed.
Lemma export_families_spec c rs s s' :
  export_families c rs s = Ok s' ->
  cs_meta s' = cs_meta s /\ cs_declared_families s' = cs_declared_families s /\
  forall r, (r ∈ rs \/ exported c r s -> exported c r s') /\ (r ∉ rs -> blank r s -> blank r s').
Proof.
  revert s. induction rs as [|r0 rs IH]; intros s; cbn [export_families].
  { intros [= <-]. split; [done|]. split; [done|]. intros r. split; [|done]. by intros [?%elem_of_nil|?]. }
  destruct (export_family c r0 s) as [s1|] eqn:E; cbn; [|done]. apply export_family_spec in E as (E1 & E2 & E3 & E4).
  intros (H1 & H2 & H3)%IH. split; [congruence|]. split; [congruence|]. intros r. destruct (H3 r) as [H4 H5]. split.
  - intros Hr. apply H4. destruct (decide (r = r0)) as [->|Hne]; [by right|].
    destruct Hr as [[?|?]%elem_of_cons|He]; [done|by left|]. right. by apply E4.
  - intros [Hne Hni]%not_elem_of_cons Hb. apply H5; [done|]. by apply E4.
Qed.
Lemma export_state_spec c now version rs profile s :
  export_state c now version rs profile = Ok s ->
  cs_meta s = Some (export_meta c now version profile) /\ cs_declared_families s = None /\
  forall r, (r ∈ rs -> exported c r s) /\ (r ∉ rs -> blank r s).
Proof.
  intros (H1 & H2 & H3)%export_families_spec. split; [done|]. split; [done|]. intros r. destruct (H3 r) as [H4 H5].
  split; [by auto|]. intros Hn. apply H5; [done|]. by destruct r.
Qed.

(** The resource a family belongs to. *)
Definition resource_for (f : family) : Resource :=
  match f with
  | Pools => RsPools | Acl => RsAcl | Storage => RsStorage | BackupJobs => RsBackupJobs
  | FirewallAliases | FirewallIpsets | FirewallGroups => RsFirewallCluster
  | NotificationMatchers => RsNotifications | HaResources => RsHaResources | HaRules => RsHaRules
  | MappingsPci => RsMappingsPci | MappingsUsb => RsMappingsUsb
  end.

(** Storage declarations are exported in normal form. *)
Lemma storage_exported_normal c l : export_storage c = Ok l -> storage_normal <$> by_key st_storage l = by_key st_storage l.
Proof.
  unfold export_storage. destruct (list_cluster_storages_view c) as [x|]; cbn; [|done]. intros [= <-].
  apply map_eq. intros k. rewrite lookup_fmap. destruct (by_key _ _ !! k) as [d|] eqn:E; [|done]. cbn. f_equal.
  apply by_key_Some in E as [(s & -> & _)%list_elem_of_fmap _]. unfold storage_normal, storage_decl. cbn.
  by rewrite !normalize_csv_idem.
Qed.
Lemma families_same c c' f s s' :
  same_cluster c c' -> unique_ids c -> exported c (resource_for f) s -> exported c' (resource_for f) s' -> in_sync f s s'.
Proof.
  intros Hs Hu. destruct f; cbn [resource_for exported in_sync];
    try (intros (_ & Ha & Hi & Hg) (_ & Ha' & Hi' & Hg')); try (intros H H').
  - by rewrite (pools_same c c' Hs Hu _ _ H H').
  - by rewrite (acl_same c c' Hs Hu _ _ H H').
  - rewrite (storage_exported_normal _ _ H). by rewrite (storage_same c c' Hs Hu _ _ H H').
  - by rewrite (jobs_same c c' Hs Hu _ _ H H').
  - by rewrite (aliases_same c c' Hs Hu _ _ Ha Ha').
  - by rewrite (ipsets_same c c' Hs Hu _ _ Hi Hi').
  - by rewrite (groups_same c c' Hs Hu _ _ Hg Hg').
  - by rewrite (matchers_same c c' Hs Hu _ _ H H').
  - by rewrite (ha_resources_same c c' Hs Hu _ _ H H').
  - by rewrite (ha_rules_same c c' Hs Hu _ _ H H').
  - by rewrite (pci_same c c' Hs Hu _ _ H H').
  - by rewrite (usb_same c c' Hs Hu _ _ H H').
Qed.
Lemma satisfied_by_refl o : satisfied_by o o = true.
Proof.
  assert (forall A `{EqDecision A} (x : option A), opt_satisfied x x = true) as H; [|unfold satisfied_by; by rewrite !H].
  intros A ? x. unfold opt_satisfied. rewrite (bool_decide_true (x = x)) by done. apply orb_true_r.
Qed.

(** ** Rendering and loading *)
Lemma elem_of_key_if_some {A} k k' (o : option A) : k ∈ key_if_some k' o <-> k = k' /\ o <> None.
Proof. unfold key_if_some. destruct o; set_solver. Qed.
Lemma elem_of_key_if_any {A} k k' (l : list A) : k ∈ key_if_any k' l <-> k = k' /\ l <> [].
Proof. unfold key_if_any. destruct l; set_solver. Qed.
Lemma present_key s k r :
  k ∈ present_keys s -> k ∈ family_keys r -> ~ blank r s.
Proof.
  unfold present_keys. rewrite !elem_of_union, !elem_of_key_if_some, !elem_of_key_if_any. intros Hk Hr Hb.
  destruct r; cbn in Hr, Hb; rewrite ?elem_of_cons, elem_of_nil in Hr; destruct_or?; destruct_and?; subst; try done; congruence.
Qed.
Lemma options_present s k : cs_firewall_options s <> None -> k = "firewall_options" -> k ∈ present_keys s.
Proof.
  intros H ->. unfold present_keys. rewrite !elem_of_union, !elem_of_key_if_some. tauto.
Qed.
Lemma family_keys_inj r r' k : k ∈ family_keys r -> k ∈ family_keys r' -> r = r'.
Proof.
  intros Hk Hk'. destruct (decide (r = r')) as [|Hne]; [done|exfalso].
  assert (Forall (fun k => k ∉ family_keys r') (family_keys r)) as HF.
  { apply (bool_decide_unpack _). by destruct r, r'. }
  rewrite Forall_forall in HF. by eapply HF.
Qed.
Lemma all_resources r : r ∈ Resource_all.
Proof. apply (bool_decide_unpack _). by destruct r. Qed.
Lemma section_in_keys f r : section_of f ∈ family_keys r <-> r = resource_for f.
Proof.
  assert (section_of f ∈ family_keys (resource_for f)) as H by (apply (bool_decide_unpack _); by destruct f).
  split; [|by intros ->]. intros Hr. by eapply family_keys_inj.
Qed.
Lemma family_keys_NoDup rs : NoDup rs -> NoDup (rs ≫= family_keys).
Proof.
  induction 1 as [|r rs Hr Hn IH]; [constructor|]. rewrite bind_cons. apply NoDup_app. split.
  { apply (bool_decide_unpack _). by destruct r. }
  split; [|done]. intros k Hk (r' & Hk' & Hr')%list_elem_of_bind.
  assert (r = r') by (by eapply family_keys_inj). congruence.
Qed.

(** What the loader relies on of the TOML reader: a printed state, below
    [key = []] lines for lists it does not hold, reads back as that state with
    those keys added. *)
Definition toml_reads_back (to_string_pretty : ClusterState -> Result AnyErr string)
    (parse : string -> Result string ClusterState) (table_keys : string -> Result string (option (gset string))) : Prop :=
  forall s heads body, to_string_pretty s = Ok body -> cs_declared_families s = None -> NoDup heads ->
    (forall k, k ∈ heads -> k ∉ present_keys s /\ exists f, k = section_of f) ->
    parse (with_heads heads body) = Ok s /\
    table_keys (with_heads heads body) = Ok (Some (present_keys s ∪ list_to_set heads)).

Lemma exported_unique c s :
  unique_ids c -> (forall r, exported c r s \/ blank r s) -> unique_identities s.
Proof.
  intros Hu H. unfold unique_identities.
  pose proof (H RsPools) as H1. pose proof (H RsAcl) as H2. pose proof (H RsStorage) as H3. pose proof (H RsBackupJobs) as H4.
  pose proof (H RsFirewallCluster) as H5. pose proof (H RsNotifications) as H6. pose proof (H RsHaResources) as H7.
  pose proof (H RsHaRules) as H8. pose proof (H RsMappingsPci) as H9. pose proof (H RsMappingsUsb) as H10.
  cbn [exported blank] in *. split_and!.
  - destruct H1 as [H1| ->]; [|constructor]. revert H1. unfold export_pools. pose proof (ui_pools _ Hu) as Hp.
    destruct (list_pools_view c) as [x|]; cbn; [|done]. intros Hm. apply (mapM_keys _ po_poolid pool_poolid) in Hm as ->.
    + apply NoDup_sort_key. by apply Hp.
    + intros a d. destruct (get_pool_view c (po_poolid a)); cbn; [|done]. by intros [= <-].
  - destruct H2 as [H2| ->]; [|constructor]. revert H2. unfold export_acl. pose proof (ui_acl _ Hu) as Hp.
    destruct (list_acl_view c) as [x|]; cbn; [|done]. intros [= <-]. assert (Cmp cmp_acl) by (unfold cmp_acl; apply _).
    rewrite (sort_by_Permutation cmp_acl). rewrite <-list_fmap_compose. by apply Hp.
  - destruct H3 as [H3| ->]; [|constructor]. eapply (listed_keys sd_storage storage_decl st_storage); [done|apply Hu|exact H3].
  - destruct H4 as [H4| ->]; [|constructor]. eapply (listed_keys bj_id job_decl job_id); [done|apply Hu|exact H4].
  - destruct H5 as [(_ & H5 & _)|(_ & -> & _)]; [|constructor]. eapply (listed_keys fa_name alias_decl alias_name); [done|apply Hu|exact H5].
  - destruct H5 as [(_ & _ & H5 & _)|(_ & _ & -> & _)]; [|constructor]. revert H5. unfold export_firewall_ipsets.
    pose proof (ui_ipsets _ Hu) as Hp.
    destruct (list_cluster_firewall_ipsets_view c) as [x|]; cbn; [|done]. intros Hm. apply (mapM_keys _ fi_name ipset_name) in Hm as ->.
    + apply NoDup_sort_key. by apply Hp.
    + intros a d. destruct (list_cluster_firewall_ipset_cidrs_view c (fi_name a)); cbn; [|done]. by intros [= <-].
  - destruct H5 as [(_ & _ & _ & H5)|(_ & _ & _ & ->)]; [|constructor]. eapply (listed_keys fg_group group_decl group_group); [done|apply Hu|exact H5].
  - destruct H6 as [H6| ->]; [|constructor]. eapply (listed_keys nw_name matcher_decl nm_name); [done|apply Hu|exact H6].
  - destruct H7 as [H7| ->]; [|constructor]. eapply (listed_keys Ha.hr_sid ha_resource_decl ha_sid); [done|apply Hu|exact H7].
  - destruct H8 as [H8| ->]; [|constructor]. eapply (listed_keys hu_rule rule_decl hr_rule); [done|apply Hu|exact H8].
  - destruct H9 as [H9| ->]; [|constructor]. eapply (listed_keys mp_id pci_decl pci_id); [done|apply Hu|exact H9].
  - destruct H10 as [H10| ->]; [|constructor]. eapply (listed_keys mu_id usb_decl usb_id); [done|apply Hu|exact H10].
Qed.

(** The keys that get a [key = []] line are lists the state does not hold. *)
Lemma missing_keys_spec c rs s :
  (forall r, r ∈ rs -> exported c r s) -> NoDup rs ->
  NoDup (missing_keys s rs) /\
  (forall k, k ∈ missing_keys s rs <-> k ∉ present_keys s /\ exists r, r ∈ rs /\ k ∈ family_keys r) /\
  (forall k, k ∈ missing_keys s rs -> exists f, k = section_of f).
Proof.
  intros He Hn. assert (forall k, k ∈ missing_keys s rs <-> k ∉ present_keys s /\ exists r, r ∈ rs /\ k ∈ family_keys r) as Hk.
  { intros k. unfold missing_keys. rewrite list_elem_of_In, filter_In, <-list_elem_of_In, list_elem_of_bind, negb_true_iff, bool_decide_eq_false.
    naive_solver. }
  split; [by apply NoDup_ListNoDup, List.NoDup_filter, NoDup_ListNoDup, family_keys_NoDup|].
  split; [done|]. intros k (Hno & r & Hr & Hkr)%Hk. destruct r; cbn in Hkr; rewrite ?elem_of_cons, elem_of_nil in Hkr;
    destruct_or?; subst; try done.
  all: try (by exists Pools); try (by exists Acl); try (by exists Storage); try (by exists BackupJobs);
    try (by exists FirewallAliases); try (by exists FirewallIpsets); try (by exists FirewallGroups);
    try (by exists NotificationMatchers); try (by exists HaResources); try (by exists HaRules); try (by exists MappingsPci);
    try (by exists MappingsUsb).
  destruct (He _ Hr) as [(o & _ & Ho) _]. destruct Hno. apply options_present; [by rewrite Ho|done].
Qed.

(** C4: What was exported loads and is in sync.  The text of an export, of any
    selection of families, is accepted by the loader; the loaded document manages
    exactly the families that were exported, those without members included; and
    comparing it with a later read of the unchanged cluster, whatever order the
    cluster then answers in, shows no change.  PVE's identities are assumed
    unique and the TOML reader to read back what its printer wrote. *)
Theorem export_round_trip to_string_pretty parse table_keys c c' now version rs profile now' version' profile' s live text :
  toml_reads_back to_string_pretty parse table_keys -> same_cluster c c' -> unique_ids c -> NoDup rs -> rs <> [] ->
  export_state c now version rs profile = Ok s -> render_export_toml to_string_pretty s rs = Ok text ->
  export_state c' now' version' Resource_all profile' = Ok live ->
  exists d, from_toml_str parse table_keys text = Ok d /\ diff d live = [] /\
    forall f, manages d (section_of f) = true <-> resource_for f ∈ rs.
Proof.
  intros Htoml Hs Hu Hn Hne (Hm & Hd & He)%export_state_spec Ht (_ & _ & Hl)%export_state_spec.
  unfold render_export_toml in Ht. destruct (to_string_pretty s) as [body|] eqn:Eb; [|done]. injection Ht as <-.
  destruct (missing_keys_spec c rs s) as (Hmn & Hmk & Hmf); [intros r; apply He|done|].
  destruct (Htoml s (missing_keys s rs) body Eb Hd Hmn) as [Hp Hk].
  { intros k Hk. split; [by apply Hmk|by apply Hmf]. }
  set (ks := present_keys s ∪ list_to_set (missing_keys s rs)) in *.
  assert (forall r k, k ∈ family_keys r -> (k ∈ ks <-> r ∈ rs)) as Hks.
  { intros r k Hkr. subst ks. rewrite elem_of_union, elem_of_list_to_set, Hmk. split.
    - intros [Hpk|(_ & r' & Hr' & Hkr')].
      + destruct (decide (r ∈ rs)) as [|Hno]; [done|]. destruct (present_key s k r Hpk Hkr). by apply He.
      + by rewrite (family_keys_inj r r' k).
    - intros Hr. destruct (decide (k ∈ present_keys s)); [by left|]. right. split; [done|]. by exists r. }
  exists (record_declared_families s (Some ks)). split.
  { apply from_toml_str_checks; [done..|]. split; [|split].
    - apply (exported_unique c); [done|]. intros r. destruct (decide (r ∈ rs)); [left|right]; by apply He.
    - unfold schema_too_new. by rewrite Hm.
    - destruct rs as [|r rs]; [done|]. assert (exists k, k ∈ family_keys r /\ k <> "meta") as (k & Hkr & Hkm).
      { destruct r; eexists; (split; [by left|done]). }
      exists k. split; [|done]. apply (Hks r); [done|by left]. }
  assert (forall f, manages (record_declared_families s (Some ks)) (section_of f) = true <-> resource_for f ∈ rs) as Hman.
  { intros f. unfold manages. cbn. rewrite bool_decide_eq_true. apply Hks. by apply section_in_keys. }
  split; [|done]. apply diff_nil. split.
  - intros f. unfold block. destruct (manages _ _) eqn:Em; [|done]. apply Hman in Em. apply changes_nil.
    assert (in_sync f s live) as H; [|by destruct f].
    apply (families_same c c'); [done|done|by apply He|]. apply Hl, all_resources.
  - apply options_nil. unfold options_in_sync. cbn. intros o Ho.
    destruct (decide (RsFirewallCluster ∈ rs)) as [Hr|Hr]; [|destruct (proj2 (He RsFirewallCluster) Hr) as [Hno _]; congruence].
    destruct (proj1 (He RsFirewallCluster) Hr) as [(o1 & Ho1 & Hs1) _].
    destruct (proj1 (Hl RsFirewallCluster)) as [(o2 & Ho2 & Hs2) _]; [apply all_resources|].
    exists o2. split; [done|]. rewrite (options_same c c' Hs _ _ Ho1 Ho2) in Hs1. replace o with o2 by congruence.
    apply satisfied_by_refl.
Qed.

(** ** A cluster with one pool and two storages, read twice *)
#[local] Instance StateMeta_eq_dec : EqDecision StateMeta.
Proof. solve_decision. Defined.
#[local] Instance ClusterState_eq_dec : EqDecision ClusterState.
Proof. solve_decision. Defined.
Definition demo_storage (id content digest : string) : StorageDefinition :=
  mkStorageDefinition id "dir" content "" false false digest "/srv" "" "" "" "" "" "" "" "".
Definition demo_view (members : list PoolMember) (storages : list StorageDefinition) : StateReadView := {|
  list_pools_view := Ok [mkPool "dev" ""];
  get_pool_view := fun _ => Ok (mkPoolDetails "dev" "web" members);
  list_acl_view := Ok []; list_cluster_storages_view := Ok storages; list_backup_jobs_view := Ok [];
  get_cluster_firewall_options_view := Ok (mkFirewallOptions (Some true) None None None None None "d");
  list_cluster_firewall_aliases_view := Ok []; list_cluster_firewall_ipsets_view := Ok [];
  list_cluster_firewall_ipset_cidrs_view := fun _ => Ok []; list_cluster_firewall_groups_view := Ok [];
  list_notification_matchers_view := Ok []; list_ha_resources_view := Ok []; list_ha_rules_view := Ok [];
  list_cluster_mapping_pci_view := Ok []; list_cluster_mapping_usb_view := Ok []; get_api_version_view := Err (bail "forbidden") |}.
Definition demo_vm (v : N) : PoolMember := mkPoolMember "" "qemu" "pve1" v "" "" "".
Definition demo_read1 : StateReadView :=
  demo_view [demo_vm 100; demo_vm 200] [demo_storage "nfs" "iso,backup" "a1"; demo_storage "local" "iso" "a1"].
Definition demo_read2 : StateReadView :=
  demo_view [demo_vm 200; demo_vm 100] [demo_storage "local" "iso" "b2"; demo_storage "nfs" "backup,iso" "b2"].
Definition demo_resources : list Resource := [RsPools; RsStorage; RsBackupJobs].
Definition demo_state : ClusterState :=
  match export_state demo_read1 0 "1.0" demo_resources "lab" with Ok s => s | Err _ => ClusterState_default end.

(** A printer and a reader for that one state. *)
Definition demo_print (s : ClusterState) : Result AnyErr string :=
  if bool_decide (s = demo_state) then Ok "B" else Err (bail "unsupported").
Definition demo_families : list string :=
  ["pools"; "acl"; "storage"; "backup_jobs"; "firewall_aliases"; "firewall_ipsets"; "firewall_groups";
   "notification_matchers"; "ha_resources"; "ha_rules"; "mappings_pci"; "mappings_usb"].
Definition demo_lines (text : string) : list string := split_char (ascii_of_nat 10) text.
Definition demo_parse (text : string) : Result string ClusterState :=
  if bool_decide (last (demo_lines text) = Some "B") then Ok demo_state else Err "expected a table".
Definition demo_key (line : string) : option string :=
  List.find (fun k => bool_decide (line = k +:+ " = []")) demo_families.
Definition demo_keys (text : string) : Result string (option (gset string)) :=
  Ok (Some (present_keys demo_state ∪ list_to_set (omap demo_key (demo_lines text)))).
Lemma demo_lines_heads heads :
  (forall k, k ∈ heads -> exists f, k = section_of f) ->
  demo_lines (with_heads heads "B") = ((fun k => k +:+ " = []") <$> heads) ++ (match heads with [] => [] | _ => [""] end) ++ ["B"].
Proof.
  intros Hf. destruct heads as [|k0 heads0]; [done|]. unfold with_heads. set (heads := k0 :: heads0) in *. clearbody heads. clear k0 heads0.
  induction heads as [|k heads IH]; [done|].
  assert (forall x l, String.concat "" (x :: l) = x +:+ String.concat "" l) as Hc.
  { intros x [|y l]; [by rewrite string_app_nil_r|done]. }
  cbn [fmap list_fmap]. rewrite Hc. rewrite <-!string_app_assoc.
  match goal with |- context [nl +:+ (String.concat "" ?l +:+ ?r)] =>
    change (nl +:+ (String.concat "" l +:+ r)) with (String (ascii_of_nat 10) (String.concat "" l +:+ r)) end.
  unfold demo_lines. rewrite (string_app_assoc k " = []").
  rewrite split_char_app; [|destruct (Hf k) as [f ->]; [by left|by destruct f]].
  cbn [app]. f_equal. apply IH. intros k' Hk'. apply Hf. by right.
Qed.
Lemma demo_reads_back : toml_reads_back demo_print demo_parse demo_keys.
Proof.
  intros s heads body Hp _ _ Hk. unfold demo_print in Hp. case_bool_decide as Hs; [|done]. injection Hp as <-. subst s.
  assert (forall k, k ∈ heads -> exists f, k = section_of f) as Hf by (intros k ?; by apply Hk).
  unfold demo_parse, demo_keys. rewrite demo_lines_heads by done. split.
  - rewrite bool_decide_true; [done|]. by rewrite !last_app.
  - do 3 f_equal. rewrite !omap_app. assert (omap demo_key ((fun k => k +:+ " = []") <$> heads) = heads) as ->.
    + clear Hk. induction heads as [|k heads IH]; [done|]. cbn [fmap list_fmap omap list_omap].
      assert (demo_key (k +:+ " = []") = Some k) as ->. { destruct (Hf k) as [f ->]; [by left|]. by destruct f. }
      f_equal. apply IH. intros ? ?. apply Hf. by right.
    + rewrite list_to_set_app_L. destruct heads; set_solver.
Qed.
Lemma demo_same : same_cluster demo_read1 demo_read2.
Proof.
  assert (forall A (R : A -> A -> Prop), answers (same_list R) (Ok []) (Ok [])) as Hnil.
  { intros A R a a' [= <-] [= <-]. exists []. by split; [|constructor]. }
  split; cbn; try (intros; apply Hnil); try (by intros a a' [= <-] [= <-]).
  - intros a a' [= <-] [= <-]. exists [mkPool "dev" ""]. split; [done|]. by repeat constructor.
  - intros id a a' [= <-] [= <-]. split; [done|]. exists [demo_vm 200; demo_vm 100]. split; [apply Permutation_swap|]. by repeat constructor.
  - intros a a' [= <-] [= <-]. exists [demo_storage "local" "iso" "a1"; demo_storage "nfs" "iso,backup" "a1"].
    split; [apply Permutation_swap|]. repeat constructor; cbn; try done.
Qed.
Lemma demo_unique : unique_ids demo_read1.
Proof.
  assert (forall A K (key : A -> K), unique_by key (Ok [])) as Hnil by (intros A K key l [= <-]; constructor).
  split; cbn; try (intros; apply Hnil); intros l [= <-]; by apply (bool_decide_unpack _).
Qed.
Lemma export_round_trip_witness :
  exists text d live, render_export_toml demo_print demo_state demo_resources = Ok text /\
    export_state demo_read2 60 "1.0" Resource_all "lab" = Ok live /\
    from_toml_str demo_parse demo_keys text = Ok d /\ diff d live = [].
Proof.
  destruct (render_export_toml demo_print demo_state demo_resources) as [text|] eqn:Et; [|by vm_compute in Et].
  destruct (export_state demo_read2 60 "1.0" Resource_all "lab") as [live|] eqn:El; [|by vm_compute in El].
  destruct (export_round_trip demo_print demo_parse demo_keys demo_read1 demo_read2 0 "1.0" demo_resources "lab"
              60 "1.0" "lab" demo_state live text demo_reads_back demo_same demo_unique) as (d & Hd & Hn & _).
  - by apply (bool_decide_unpack _).
  - done.
  - vm_compute. reflexivity.
  - exact Et.
  - exact El.
  - exists text, d, live. exact (conj eq_refl (conj eq_refl (conj Hd Hn))).
Defined.
