(* ===== verification/Utf8.v ===== *)
(** * Text as the standard library reads it: UTF-8, words and lines

    [String::from_utf8_lossy] and the check behind [BufRead::lines], on bytes.
    [utf8_head] reads one character or one maximal invalid sequence; the two
    readers iterate it, with the length of the input as fuel (each turn takes at
    least one byte).  [split_whitespace] and [file_lines] are [str::split_whitespace]
    and [BufRead::lines]. *)

From S2P Require Import Prelude.

Definition byte_in (lo hi : N) (a : ascii) : bool :=
  let n := N_of_ascii a in ((lo <=? n) && (n <=? hi))%N.
Definition is_cont : ascii -> bool := byte_in 128 191.

(** The bytes a second position may hold after a first byte of a three- or
    four-byte character: no overlong form, no surrogate, nothing past U+10FFFF. *)
Definition second_of_three (a b : ascii) : bool :=
  let n := N_of_ascii a in
  if (n =? 224)%N then byte_in 160 191 b else if (n =? 237)%N then byte_in 128 159 b else is_cont b.
Definition second_of_four (a b : ascii) : bool :=
  let n := N_of_ascii a in
  if (n =? 240)%N then byte_in 144 191 b else if (n =? 244)%N then byte_in 128 143 b else is_cont b.

(** Whether the sequence at the front is a character, its bytes, and the rest. *)
Definition utf8_head (s : string) : option (bool * string * string) :=
  match s with
  | "" => None
  | String a r =>
      let bad1 := (false, String a "", r) in
      Some
        (if byte_in 0 127 a then (true, String a "", r)
         else if byte_in 194 223 a then
           match r with
           | String b r2 => if is_cont b then (true, String a (String b ""), r2) else bad1
           | "" => bad1
           end
         else if byte_in 224 239 a then
           match r with
           | String b r2 =>
               if second_of_three a b then
                 let bad2 := (false, String a (String b ""), r2) in
                 match r2 with
                 | String c r3 => if is_cont c then (true, String a (String b (String c "")), r3) else bad2
                 | "" => bad2
                 end
               else bad1
           | "" => bad1
           end
         else if byte_in 240 244 a then
           match r with
           | String b r2 =>
               if second_of_four a b then
                 let bad2 := (false, String a (String b ""), r2) in
                 match r2 with
                 | String c r3 =>
                     if is_cont c then
                       let bad3 := (false, String a (String b (String c "")), r3) in
                       match r3 with
                       | String d r4 =>
                           if is_cont d then (true, String a (String b (String c (String d ""))), r4) else bad3
                       | "" => bad3
                       end
                     else bad2
                 | "" => bad2
                 end
               else bad1
           | "" => bad1
           end
         else bad1)
  end.

(** U+FFFD *)
Definition REPLACEMENT : string := byte 239 +:+ byte 191 +:+ byte 189.

Fixpoint lossy_fuel (fuel : nat) (s : string) : string :=
  match fuel, utf8_head s with
  | S fuel', Some (ok, c, r) => (if ok : bool then c else REPLACEMENT) +:+ lossy_fuel fuel' r
  | _, _ => ""
  end.
Definition from_utf8_lossy (s : string) : string := lossy_fuel (String.length s) s.

Fixpoint utf8_fuel (fuel : nat) (s : string) : bool :=
  match fuel, utf8_head s with
  | S fuel', Some (ok, _, r) => ok && utf8_fuel fuel' r
  | _, _ => true
  end.
Definition is_utf8 (s : string) : bool := utf8_fuel (String.length s) s.

(** ** Words and lines *)
(** [str::split_whitespace] *)
Definition piece (cur : string) : list string := if is_empty cur then [] else [cur].
Fixpoint split_ws_fuel (fuel : nat) (cur s : string) : list string :=
  match fuel, s with
  | S fuel', String a r =>
      match strip_white s with
      | Some r' => piece cur ++ split_ws_fuel fuel' "" r'
      | None => split_ws_fuel fuel' (cur +:+ String a "") r
      end
  | _, _ => piece cur
  end.
Definition split_whitespace (s : string) : list string := split_ws_fuel (String.length s) "" s.

(** [BufRead::lines]: the line feed and one carriage return before it are taken
    off, and a last line that is empty is none. *)
Definition newline : ascii := "010"%char.
Definition strip_cr (l : string) : string :=
  match rsplit_once "013"%char l with Some (h, "") => h | _ => l end.
Fixpoint finish_lines (ls : list string) : list string :=
  match ls with
  | [] => []
  | [l] => piece l
  | l :: rest => strip_cr l :: finish_lines rest
  end.
Definition file_lines (s : string) : list string := finish_lines (split_char newline s).

Definition is_ascii_byte (a : ascii) : bool := byte_in 0 127 a.
Fixpoint all_bytes (p : ascii -> bool) (s : string) : bool :=
  match s with "" => true | String a r => p a && all_bytes p r end.

Lemma all_bytes_app p a b : all_bytes p (a +:+ b) = all_bytes p a && all_bytes p b.
Proof. induction a as [|x a IH]; [done|]. simpl. by rewrite IH, andb_assoc. Qed.
Lemma all_bytes_impl (p q : ascii -> bool) s :
  (forall a, p a = true -> q a = true) -> all_bytes p s = true -> all_bytes q s = true.
Proof. intros Hpq. induction s as [|a s IH]; [done|]. simpl. rewrite !andb_true_iff. naive_solver. Qed.


(** The sequence read is the front of the input and is not empty. *)
Lemma utf8_head_split s ok c r : utf8_head s = Some (ok, c, r) -> s = c +:+ r /\ (0 < String.length c <= 4)%nat.
Proof.
  destruct s as [|a s]; [done|]. unfold utf8_head. intros E. injection E as E. revert E.
  repeat (case_match; try (intros [= <- <- <-]; simpl; split; [done|lia])).
Qed.

Lemma lossy_valid n s : (String.length s <= n)%nat -> utf8_fuel n s = true -> lossy_fuel n s = s.
Proof.
  revert s. induction n as [|n IH]; intros s Hn H; [by destruct s; simpl in Hn; [|lia]|].
  cbn [utf8_fuel lossy_fuel] in *. destruct (utf8_head s) as [[[ok c] r]|] eqn:E; [|by destruct s].
  apply utf8_head_split in E as [-> Hc]. apply andb_true_iff in H as [-> H].
  rewrite string_length_app in Hn. f_equal. apply IH; [lia|done].
Qed.

(** What is valid is read unchanged. *)
Lemma from_utf8_lossy_id s : is_utf8 s = true -> from_utf8_lossy s = s.
Proof. apply lossy_valid. done. Qed.

(** Replacement at most triples the length. *)
Lemma lossy_length n s : (String.length (lossy_fuel n s) <= 3 * String.length s)%nat.
Proof.
  revert s. induction n as [|n IH]; intros s; [simpl; lia|]. cbn [lossy_fuel].
  destruct (utf8_head s) as [[[ok c] r]|] eqn:E; [|simpl; lia].
  apply utf8_head_split in E as [-> Hc]. rewrite !string_length_app.
  specialize (IH r). destruct ok; [|change (String.length REPLACEMENT) with 3%nat]; lia.
Qed.

Lemma is_utf8_ascii s : all_bytes is_ascii_byte s = true -> is_utf8 s = true.
Proof.
  unfold is_utf8. induction s as [|a s IH]; [done|]. cbn [all_bytes String.length utf8_fuel utf8_head].
  unfold is_ascii_byte at 1. intros [Ha Hs]%andb_true_iff. rewrite Ha. auto.
Qed.

(** Lines are what a separator separates, wherever it falls. *)
Lemma split_char_mid c a b : split_char c (a +:+ String c b) = split_char c a ++ split_char c b.
Proof.
  induction a as [|x a IH]; [cbn; by rewrite Ascii.eqb_refl|]. cbn [String.append split_char]. rewrite IH.
  destruct (Ascii.eqb x c); [done|]. pose proof (split_char_nonempty c a). by destruct (split_char c a).
Qed.
Lemma finish_lines_closed ls : finish_lines (ls ++ [""]) = strip_cr <$> ls.
Proof.
  induction ls as [|l ls IH]; [done|]. destruct ls as [|l' ls]; [done|].
  change (finish_lines ((l :: l' :: ls) ++ [""])) with (strip_cr l :: finish_lines ((l' :: ls) ++ [""])).
  by rewrite IH.
Qed.
Lemma strip_cr_none l : has_char "013"%char l = false -> strip_cr l = l.
Proof. intros H. unfold strip_cr. by rewrite rsplit_once_none. Qed.

(** ** Visible text *)
Definition visible : ascii -> bool := byte_in 33 126.
Definition word (s : string) : bool := negb (is_empty s) && all_bytes visible s.

Lemma visible_not_white a r : visible a = true -> strip_white (String a r) = None.
Proof. destruct a as [[] [] [] [] [] [] [] []]; (discriminate 1 || (intros _; vm_compute; reflexivity)). Qed.
Lemma space_is_white r : strip_white (String " " r) = Some r.
Proof. vm_compute. reflexivity. Qed.
Lemma visible_ascii a : visible a = true -> is_ascii_byte a = true.
Proof. unfold visible, is_ascii_byte, byte_in. rewrite !andb_true_iff, !N.leb_le. lia. Qed.

Fixpoint last_byte (s : string) : option ascii :=
  match s with "" => None | String a "" => Some a | String _ r => last_byte r end.
Lemma last_byte_app a b : last_byte (a +:+ b) = match b with "" => last_byte a | _ => last_byte b end.
Proof.
  destruct b as [|x b]; [by rewrite string_app_nil_r|].
  induction a as [|y a IH]; [done|]. simpl. rewrite IH. by destruct a.
Qed.

Lemma strip_white_last s r v : strip_white s = Some r -> last_byte s = Some v -> visible v = true -> last_byte r = Some v.
Proof.
  unfold strip_white. intros E Hl Hv.
  assert (Hw : exists w, w ∈ white_space /\ s = w +:+ r).
  { revert E. induction white_space as [|w ws IH]; [done|]. cbn [omap list_omap].
    destruct (strip_prefix w s) as [r'|] eqn:Ew.
    - intros [= ->]. exists w. split; [left|]. by apply strip_prefix_Some.
    - intros E. destruct (IH E) as (w' & Hin & ->). exists w'. split; [by right|done]. }
  destruct Hw as (w & Hin & ->). rewrite last_byte_app in Hl. destruct r; [|done]. exfalso.
  assert (Hf : forallb (fun w => match last_byte w with Some a => negb (visible a) | None => true end) white_space = true)
    by (vm_compute; reflexivity).
  rewrite forallb_forall in Hf. specialize (Hf w (proj1 (list_elem_of_In _ _) Hin)).
  rewrite Hl, Hv in Hf. done.
Qed.
Lemma trim_start_last n s v :
  last_byte s = Some v -> visible v = true -> last_byte (trim_start_fuel n s) = Some v.
Proof.
  revert s. induction n as [|n IH]; intros s Hl Hv; [done|]. cbn [trim_start_fuel].
  destruct (strip_white s) as [r|] eqn:E; [|done]. apply IH; [|done]. by eapply strip_white_last.
Qed.
Lemma trim_end_id s v : last_byte s = Some v -> visible v = true -> trim_end s = s.
Proof.
  induction s as [|a s IH]; [done|]. intros Hl Hv. cbn [trim_end].
  pose proof (trim_start_last (String.length (String a s)) (String a s) v Hl Hv) as Hs.
  change (trim_start_fuel (String.length (String a s)) (String a s)) with (trim_start (String a s)) in Hs.
  destruct (trim_start (String a s)) as [|b t] eqn:E; [done|]. unfold is_empty.
  rewrite bool_decide_false by done. f_equal. destruct s as [|c s]; [done|]. by apply IH.
Qed.
(** Text between two visible bytes is not trimmed. *)
Lemma trim_id a s v : visible a = true -> last_byte (String a s) = Some v -> visible v = true -> trim (String a s) = String a s.
Proof.
  intros Ha Hl Hv. unfold trim, trim_start. cbn [String.length trim_start_fuel].
  rewrite visible_not_white by done. by apply (trim_end_id _ v).
Qed.
Lemma last_visible t : word t = true -> exists v, last_byte t = Some v /\ visible v = true.
Proof.
  unfold word. intros [Hn Hv]%andb_true_iff. induction t as [|a t IH]; [done|].
  cbn [all_bytes] in Hv. apply andb_true_iff in Hv as [Ha Ht]. destruct t as [|b t]; [by exists a|].
  apply IH; done.
Qed.
