(* ===== verification/KnownHosts.v ===== *)
(** * The host keys proxxx trusts: ssh/known_hosts.rs

    A [KnownHosts] is the map in memory; the file it was loaded from is beside
    it in [Disk].  [trust] changes both: the map at once, the file by one appended
    line, which the file system may refuse or cut short ([Append]).  A key blob is
    its bytes.  The digest comes from the sha2 and hex crates and is the parameter
    [sha256_hex]; the fingerprints are a remark at the end of a line. *)

From S2P Require Import Prelude.
From S2P Require Import ApiError.
From S2P Require Import Utf8.

Record HostKey := mkHostKey { key_type : string; key_blob : string }.
#[export] Instance HostKey_eq_dec : EqDecision HostKey.
Proof. solve_decision. Defined.

Inductive HostMatch := Unknown | Match | Mismatch.
#[export] Instance HostMatch_eq_dec : EqDecision HostMatch.
Proof. solve_decision. Defined.

(** ** base64 *)
Definition u8_shl (a n : N) : N := N.land (N.shiftl a n) 255.
Definition ALPH : string := "ABCDEFGHIJKLMNOPQRSTUVWXYZabcdefghijklmnopqrstuvwxyz0123456789+/".
(** [ALPH[i] as char]; an index past the end would panic, see [alph_in_range]. *)
Definition alph (i : N) : ascii := default "?"%char (String.get (N.to_nat i) ALPH).

Definition sextet0 (b0 : N) : N := N.shiftr b0 2.
Definition sextet1 (b0 b1 : N) : N := N.lor (u8_shl (N.land b0 3) 4) (N.shiftr b1 4).
Definition sextet2 (b1 b2 : N) : N := N.lor (u8_shl (N.land b1 15) 2) (N.shiftr b2 6).
Definition sextet3 (b2 : N) : N := N.land b2 63.

Fixpoint base64_encode (bytes : string) : string :=
  match bytes with
  | "" => ""
  | String c0 "" =>
      let b0 := N_of_ascii c0 in
      String (alph (sextet0 b0)) (String (alph (u8_shl (N.land b0 3) 4)) "==")
  | String c0 (String c1 "") =>
      let b0 := N_of_ascii c0 in let b1 := N_of_ascii c1 in
      String (alph (sextet0 b0)) (String (alph (sextet1 b0 b1)) (String (alph (u8_shl (N.land b1 15) 2)) "="))
  | String c0 (String c1 (String c2 rest)) =>
      let b0 := N_of_ascii c0 in let b1 := N_of_ascii c1 in let b2 := N_of_ascii c2 in
      String (alph (sextet0 b0)) (String (alph (sextet1 b0 b1))
        (String (alph (sextet2 b1 b2)) (String (alph (sextet3 b2)) (base64_encode rest))))
  end.

Definition val (a : ascii) : option N :=
  let c := N_of_ascii a in
  if byte_in 65 90 a then Some (c - 65)%N
  else if byte_in 97 122 a then Some (c - 97 + 26)%N
  else if byte_in 48 57 a then Some (c - 48 + 52)%N
  else if (c =? 43)%N then Some 62%N
  else if (c =? 47)%N then Some 63%N
  else None.

Definition octet0 (v0 v1 : N) : N := N.lor (u8_shl v0 2) (N.shiftr v1 4).
Definition octet1 (v1 v2 : N) : N := N.lor (u8_shl v1 4) (N.shiftr v2 2).
Definition octet2 (v2 v3 : N) : N := N.lor (u8_shl v2 6) v3.

Definition is_ascii_whitespace (a : ascii) : bool :=
  let n := N_of_ascii a in ((n =? 32) || (n =? 9) || (n =? 10) || (n =? 12) || (n =? 13))%N.
Definition kept (a : ascii) : bool := negb (Ascii.eqb a "="%char) && negb (is_ascii_whitespace a).
Fixpoint filter_bytes (p : ascii -> bool) (s : string) : string :=
  match s with "" => "" | String a r => if p a then String a (filter_bytes p r) else filter_bytes p r end.

Fixpoint decode_quads (bytes : string) : option string :=
  match bytes with
  | String c0 (String c1 (String c2 (String c3 rest))) =>
      v0 ← val c0; v1 ← val c1; v2 ← val c2; v3 ← val c3;
      out ← decode_quads rest;
      Some (String (ascii_of_N (octet0 v0 v1)) (String (ascii_of_N (octet1 v1 v2))
              (String (ascii_of_N (octet2 v2 v3)) out)))
  | String c0 (String c1 (String c2 "")) =>
      v0 ← val c0; v1 ← val c1; v2 ← val c2;
      Some (String (ascii_of_N (octet0 v0 v1)) (String (ascii_of_N (octet1 v1 v2)) ""))
  | String c0 (String c1 "") =>
      v0 ← val c0; v1 ← val c1; Some (String (ascii_of_N (octet0 v0 v1)) "")
  | _ => Some ""
  end.
Definition base64_decode (s : string) : Result AnyErr string :=
  ok_or (bail "invalid base64") (decode_quads (filter_bytes kept s)).

(** ** Reading the file *)
(** One line: an entry, or nothing for a remark and for what cannot be read. *)
Definition parse_line (line : string) : option (string * HostKey) :=
  let trimmed := trim line in
  if is_empty trimmed || starts_with "#" trimmed then None
  else
    match split_whitespace trimmed with
    | host :: key_type :: b64 :: _ =>
        match base64_decode b64 with
        | Ok key_blob => Some (host, mkHostKey key_type key_blob)
        | Err _ => None
        end
    | _ => None
    end.
Definition insert_line (line : string) (entries : gmap string HostKey) : gmap string HostKey :=
  match parse_line line with Some (h, k) => <[h := k]> entries | None => entries end.
Fixpoint load_lines (lineno : nat) (ls : list string) (entries : gmap string HostKey) :
    Result AnyErr (gmap string HostKey) :=
  match ls with
  | [] => Ok entries
  | line :: rest =>
      if is_utf8 line then load_lines (S lineno) rest (insert_line line entries)
      else Err (context ("reading known_hosts line " +:+ pretty (lineno + 1)%nat)
                  (bail "stream did not contain valid UTF-8"))
  end.

Record KnownHosts := mkKnownHosts { path : string; entries : gmap string HostKey }.

(** The file: missing, not to be opened, or its bytes. *)
Inductive FileView := Missing | Unreadable (e : AnyErr) | Content (bytes : string).
Definition load (path : string) (f : FileView) : Result AnyErr KnownHosts :=
  match f with
  | Missing => Ok (mkKnownHosts path ∅)
  | Unreadable e => Err (context ("opening known_hosts " +:+ path) e)
  | Content bytes => entries ← load_lines 0 (file_lines bytes) ∅; Ok (mkKnownHosts path entries)
  end.

(** ** Deciding and remembering *)
Definition host_id (host : string) (port : N) : string :=
  if (port =? 22)%N then host else host +:+ ":" +:+ pretty port.

Definition check (k : KnownHosts) (host : string) (port : N) (key : HostKey) : HostMatch :=
  match entries k !! host_id host port with
  | None => Unknown
  | Some known => if decide (known = key) then Match else Mismatch
  end.

(** What the file system does with the append: all of the line, no file, or the
    first [n] bytes. *)
Inductive Append := Appended | OpenFailed (e : AnyErr) | WriteFailed (n : nat) (e : AnyErr).

Record Known := mkKnown { store : KnownHosts; disk : option string }.

Section trust.
Context (sha256_hex : string -> string).
Definition fingerprint (key : HostKey) : string := "sha256:" +:+ sha256_hex (key_blob key).

Definition entry_line (id : string) (key : HostKey) : string :=
  id +:+ " " +:+ key_type key +:+ " " +:+ base64_encode (key_blob key) +:+ " # " +:+ fingerprint key
  +:+ String newline "".

Definition appended (bytes : string) (d : option string) : option string := Some (default "" d +:+ bytes).
Definition trust (io : Append) (host : string) (port : N) (key : HostKey) : SM Known AnyErr unit := fun k =>
  let id := host_id host port in
  let store' := mkKnownHosts (path (store k)) (<[id := key]> (entries (store k))) in
  let line := entry_line id key in
  match io with
  | Appended => (Ok (), mkKnown store' (appended line (disk k)))
  | OpenFailed e =>
      (Err (context ("opening known_hosts for write " +:+ path (store k)) e), mkKnown store' (disk k))
  | WriteFailed n e =>
      (Err (context "writing known_hosts entry" e),
       mkKnown store' (appended (String.substring 0 n line) (disk k)))
  end.
End trust.

Definition file_view (d : option string) : FileView :=
  match d with None => Missing | Some b => Content b end.

(** ** base64 comes back *)
Definition upto (n : nat) : list N := N.of_nat <$> seq 0 n.
Lemma upto_spec n x : (x < N.of_nat n)%N -> List.In x (upto n).
Proof.
  intros H. apply list_elem_of_In. apply list_elem_of_fmap. exists (N.to_nat x).
  split; [lia|]. apply elem_of_seq. lia.
Qed.
Lemma check_upto n (p : N -> bool) : forallb p (upto n) = true -> forall x, (x < N.of_nat n)%N -> p x = true.
Proof. intros H x Hx. rewrite forallb_forall in H. by apply H, upto_spec. Qed.
Lemma check_upto2 n m (p : N -> N -> bool) :
  forallb (fun x => forallb (p x) (upto m)) (upto n) = true ->
  forall x y, (x < N.of_nat n)%N -> (y < N.of_nat m)%N -> p x y = true.
Proof. intros H x y Hx Hy. apply (check_upto m); [|done]. by apply (check_upto n _ H). Qed.

Lemma N_of_ascii_lt a : (N_of_ascii a < 256)%N.
Proof. apply N_ascii_bounded. Qed.

(** Every index is within the alphabet, and the alphabet is read back. *)
Lemma sextets_in_range b0 b1 :
  (b0 < 256)%N -> (b1 < 256)%N ->
  (sextet0 b0 < 64 /\ sextet1 b0 b1 < 64 /\ sextet2 b0 b1 < 64 /\ sextet3 b0 < 64
   /\ u8_shl (N.land b0 3) 4 < 64 /\ u8_shl (N.land b0 15) 2 < 64)%N.
Proof.
  intros H0 H1.
  pose proof (check_upto2 256 256 (fun b0 b1 => ((sextet0 b0 <? 64) && (sextet1 b0 b1 <? 64) && (sextet2 b0 b1 <? 64)
    && (sextet3 b0 <? 64) && (u8_shl (N.land b0 3) 4 <? 64) && (u8_shl (N.land b0 15) 2 <? 64))%N)
    ltac:(vm_compute; reflexivity) b0 b1 H0 H1) as H.
  rewrite !andb_true_iff, !N.ltb_lt in H. tauto.
Qed.
Definition alph_ok (i : N) : bool :=
  match val (alph i) with Some v => (v =? i)%N | None => false end && kept (alph i) && byte_in 33 126 (alph i).
Lemma alph_read i : (i < 64)%N -> val (alph i) = Some i /\ kept (alph i) = true /\ byte_in 33 126 (alph i) = true.
Proof.
  intros Hi. pose proof (check_upto 64 alph_ok ltac:(vm_compute; reflexivity) i Hi) as H.
  unfold alph_ok in H. rewrite !andb_true_iff in H. destruct H as [[Hv Hk] Hb].
  destruct (val (alph i)); [|done]. apply N.eqb_eq in Hv as ->. done.
Qed.

(** The three octets of a quad, whatever the neighbours are. *)
Lemma octet0_back b0 b1 : (b0 < 256)%N -> (b1 < 256)%N -> octet0 (sextet0 b0) (sextet1 b0 b1) = b0.
Proof.
  intros H0 H1. apply N.eqb_eq.
  exact (check_upto2 256 256 (fun b0 b1 => octet0 (sextet0 b0) (sextet1 b0 b1) =? b0)%N
           ltac:(vm_compute; reflexivity) b0 b1 H0 H1).
Qed.
Lemma octet2_back b1 b2 : (b1 < 256)%N -> (b2 < 256)%N -> octet2 (sextet2 b1 b2) (sextet3 b2) = b2.
Proof.
  intros H0 H1. apply N.eqb_eq.
  exact (check_upto2 256 256 (fun b1 b2 => octet2 (sextet2 b1 b2) (sextet3 b2) =? b2)%N
           ltac:(vm_compute; reflexivity) b1 b2 H0 H1).
Qed.
Lemma octet1_back b0 b1 b2 :
  (b0 < 256)%N -> (b1 < 256)%N -> (b2 < 256)%N -> octet1 (sextet1 b0 b1) (sextet2 b1 b2) = b1.
Proof.
  intros H0 H1 H2.
  assert (E : octet1 (sextet1 b0 b1) (sextet2 b1 b2) =
              octet1 (N.lor (u8_shl (N.land b0 3) 4) (N.shiftr b1 4)) (N.lor (u8_shl (N.land b1 15) 2) (N.shiftr b2 6)))
    by done.
  rewrite E. clear E.
  assert (Hx : (N.land b0 3 < N.of_nat 4)%N)
    by (change 3%N with (N.ones 2); rewrite N.land_ones; apply N.mod_lt; done).
  assert (Hy : (N.shiftr b2 6 < N.of_nat 4)%N)
    by (rewrite N.shiftr_div_pow2; apply N.Div0.div_lt_upper_bound; simpl; lia).
  revert Hx Hy. generalize (N.land b0 3), (N.shiftr b2 6). intros x y Hx Hy.
  apply N.eqb_eq. revert b1 H1 x y Hx Hy.
  pose proof (check_upto 256 (fun b1 => forallb (fun x => forallb (fun y =>
     octet1 (N.lor (u8_shl x 4) (N.shiftr b1 4)) (N.lor (u8_shl (N.land b1 15) 2) y) =? b1)%N (upto 4)) (upto 4))
     ltac:(vm_compute; reflexivity)) as H.
  intros b1 H1 x y Hx Hy. exact (check_upto2 4 4 _ (H b1 H1) x y Hx Hy).
Qed.

Lemma decode_quads_encode bs : decode_quads (filter_bytes kept (base64_encode bs)) = Some bs.
Proof.
  revert bs. fix IH 1. intros [|c0 [|c1 [|c2 rest]]]; [done|..].
  - pose proof (N_of_ascii_lt c0) as H0. destruct (sextets_in_range _ 0 H0 ltac:(done)) as (R0 & _ & _ & _ & R1 & _).
    cbn [base64_encode]. destruct (alph_read _ R0) as (V0 & K0 & _), (alph_read _ R1) as (V1 & K1 & _).
    cbn [filter_bytes]. rewrite K0, K1. change (kept "=") with false. cbv iota. cbn [decode_quads].
    rewrite V0, V1. cbn [mbind option_bind]. do 2 f_equal.
    pose proof (octet0_back _ 0 H0 ltac:(done)) as E. unfold sextet1 in E.
    change (N.shiftr 0 4) with 0%N in E. rewrite N.lor_0_r in E. rewrite E. apply ascii_N_embedding.
  - pose proof (N_of_ascii_lt c0) as H0. pose proof (N_of_ascii_lt c1) as H1.
    destruct (sextets_in_range _ _ H0 H1) as (R0 & R1 & _), (sextets_in_range _ _ H1 H0) as (_ & _ & _ & _ & _ & R2).
    cbn [base64_encode].
    destruct (alph_read _ R0) as (V0 & K0 & _), (alph_read _ R1) as (V1 & K1 & _), (alph_read _ R2) as (V2 & K2 & _).
    cbn [filter_bytes]. rewrite K0, K1, K2. change (kept "=") with false. cbv iota. cbn [decode_quads].
    rewrite V0, V1, V2. cbn [mbind option_bind]. rewrite octet0_back by done.
    pose proof (octet1_back _ _ 0 H0 H1 ltac:(done)) as E. unfold sextet2 in E.
    change (N.shiftr 0 6) with 0%N in E. rewrite N.lor_0_r in E. rewrite E. by rewrite !ascii_N_embedding.
  - pose proof (N_of_ascii_lt c0) as H0. pose proof (N_of_ascii_lt c1) as H1. pose proof (N_of_ascii_lt c2) as H2.
    destruct (sextets_in_range _ _ H0 H1) as (R0 & R1 & _), (sextets_in_range _ _ H1 H2) as (_ & _ & R2 & _),
      (sextets_in_range _ _ H2 H2) as (_ & _ & _ & R3 & _).
    cbn [base64_encode].
    destruct (alph_read _ R0) as (V0 & K0 & _), (alph_read _ R1) as (V1 & K1 & _), (alph_read _ R2) as (V2 & K2 & _),
      (alph_read _ R3) as (V3 & K3 & _).
    cbn [filter_bytes]. rewrite K0, K1, K2, K3. cbn [decode_quads].
    rewrite V0, V1, V2, V3, IH. cbn [mbind option_bind].
    rewrite octet0_back, octet1_back, octet2_back by done. by rewrite !ascii_N_embedding.
Qed.
Lemma base64_roundtrip bs : base64_decode (base64_encode bs) = Ok bs.
Proof. unfold base64_decode. by rewrite decode_quads_encode. Qed.
