(* ===== verification/SshSession.v ===== *)
(** * One SSH connection: ssh/session.rs

    [HostKeyVerifier] is the trait of that name; [PolicyVerifier] is its
    non-interactive implementation.  [verify_server_key_bytes] and
    [check_server_key] run inside the russh handshake; what russh does around
    them is [Peer]: the dial, the key the server presents, the rest of the
    handshake and the answer to the authentication.  russh fails the connection
    when [check_server_key] answers [false]. *)

From S2P Require Import Prelude.
From S2P Require Import ApiError.
From S2P Require Import Utf8.
From S2P Require Import KnownHosts.

(** ** config/mod.rs: the policy *)
Inductive HostKeyPolicy := Tofu | Strict | Off.
Definition HostKeyPolicy_parse (s : string) : option HostKeyPolicy :=
  let s := to_ascii_lowercase (trim s) in
  if bool_decide (s = "tofu") || bool_decide (s = "accept-new") then Some Tofu
  else if bool_decide (s = "strict") || bool_decide (s = "yes") then Some Strict
  else if bool_decide (s = "off") || bool_decide (s = "no") then Some Off
  else None.
Definition HostKeyPolicy_from_str (s : string) : HostKeyPolicy := default Strict (HostKeyPolicy_parse s).

(** ** The verifier *)
Inductive HostKeyDecision := Accept (remember : bool) | Reject.

Class HostKeyVerifier (V : Type) := verify : V -> string -> N -> HostKey -> HostMatch -> HostKeyDecision.

(** What the handler needs of a verifier so that a pinned key stays pinned: a
    changed key is refused and a new one is accepted only to be remembered. *)
Class Pins {V} `{!HostKeyVerifier V} (v : V) : Prop := {
  pins_mismatch host port key : verify v host port key Mismatch = Reject;
  pins_unknown host port key r : verify v host port key Unknown = Accept r -> r = true;
}.

Record PolicyVerifier := mkPolicyVerifier { policy : HostKeyPolicy }.
Definition policy_verify (v : PolicyVerifier) (host : string) (port : N) (key : HostKey) (status : HostMatch) : HostKeyDecision :=
  match policy v, status with
  | Off, _ => Accept false
  | Strict, Match => Accept false
  | Strict, _ => Reject
  | Tofu, Match => Accept false
  | Tofu, Unknown => Accept true
  | Tofu, Mismatch => Reject
  end.
#[export] Instance PolicyVerifier_verify : HostKeyVerifier PolicyVerifier := policy_verify.
Lemma policy_pins p : p <> Off -> Pins (mkPolicyVerifier p).
Proof. by destruct p; intros ?; split; try done; intros * [= <-]. Qed.

(** ** The handler *)
Inductive PublicKeyOrCertificate :=
  | PublicKey (algorithm : string) (to_bytes : Result AnyErr string)
  | Certificate.

Section handler.
Context (sha256_hex : string -> string) {V : Type} `{!HostKeyVerifier V} (verifier : V).

(** Under the read lock of the store, and then without it: the key, if there is
    one, and the decision of the verifier. *)
Definition decide_server_key (host : string) (port : N) (key_type : string) (key_bytes : Result AnyErr string) (w : Known) :
    option (HostKey * HostKeyDecision) :=
  match key_bytes with
  | Err _ => None
  | Ok blob =>
      if is_empty blob then None
      else
        let key := mkHostKey key_type blob in
        let status := check (store w) host port key in
        Some (key, verify verifier host port key status)
  end.
(** Under the write lock. *)
Definition act_on_decision (host : string) (port : N) (io : Append) (decided : option (HostKey * HostKeyDecision)) :
    SM Known AnyErr bool := fun w =>
  match decided with
  | None | Some (_, Reject) => (Ok false, w)
  | Some (key, Accept remember) =>
      if remember then (Ok true, (trust sha256_hex io host port key w).2) else (Ok true, w)
  end.
(** With nothing between the two locks; [concurrent_first_contact] shows what
    can come between. *)
Definition verify_server_key_bytes (host : string) (port : N) (io : Append) (key_type : string)
    (key_bytes : Result AnyErr string) : SM Known AnyErr bool := fun w =>
  act_on_decision host port io (decide_server_key host port key_type key_bytes w) w.
Definition check_server_key (host : string) (port : N) (io : Append) (server_public_key : PublicKeyOrCertificate) :
    SM Known AnyErr bool :=
  match server_public_key with
  | PublicKey algorithm to_bytes => verify_server_key_bytes host port io algorithm to_bytes
  | Certificate => mret false
  end.
End handler.

(** ** Connecting *)
Inductive Algorithm := Ed25519 | Ecdsa | Rsa | Dsa | OtherAlgorithm.
#[export] Instance Algorithm_eq_dec : EqDecision Algorithm.
Proof. solve_decision. Defined.
(** [rsa_bits] is the modulus of an RSA key. *)
Record PrivateKey := mkPrivateKey { algorithm : Algorithm; rsa_bits : option N }.

Definition MIN_RSA_KEY_BITS : N := 2048.
Definition check_client_key_strength (key : PrivateKey) (key_path : string) : Result AnyErr unit :=
  match rsa_bits key with
  | Some bits =>
      if (bits <? MIN_RSA_KEY_BITS)%N then
        Err (bail ("SSH key " +:+ key_path +:+ " is a " +:+ pretty bits +:+ "-bit RSA key; proxxx needs at least "
                   +:+ pretty MIN_RSA_KEY_BITS +:+ " bits (the NIST minimum through 2030). Use an Ed25519 key "
                   +:+ "(ssh-keygen -t ed25519) or RSA of " +:+ pretty MIN_RSA_KEY_BITS +:+ " bits or more."))
      else Ok ()
  | None => Ok ()
  end ;;
  if bool_decide (algorithm key = Dsa) then
    Err (bail ("SSH key " +:+ key_path +:+ " is a DSA key (1024 bits), below the NIST minimum through 2030. "
               +:+ "Use an Ed25519 key (ssh-keygen -t ed25519)."))
  else Ok ().

Inductive HashAlg := Sha512.
Inductive AuthResult := AuthSuccess | AuthFailure (debug : string).

(** The server as the client meets it in one attempt. *)
Inductive Dial :=
  | DialTimedOut
  | DialFailed (e : AnyErr)
  | Presents (key : PublicKeyOrCertificate) (rest : Result AnyErr unit).
Record Peer := mkPeer {
  dial : Dial;
  peer_io : Append;
  authenticate_publickey : string -> option HashAlg -> Result AnyErr AuthResult;
}.
Record SshSession := mkSession { ss_host : string; ss_port : N; ss_user : string; ss_peer : Peer }.

Section connect.
Context (sha256_hex : string -> string) {V : Type} `{!HostKeyVerifier V} (verifier : V).

Definition at_port (host : string) (port : N) : string := host +:+ ":" +:+ pretty port.
Definition handshake (host : string) (port : N) (p : Peer) : SM Known AnyErr unit :=
  let failed e := context ("ssh connect " +:+ at_port host port) e in
  match dial p with
  | DialTimedOut => throw (bail ("ssh connect " +:+ at_port host port +:+ " timed out after 20s"))
  | DialFailed e => throw (failed e)
  | Presents key rest =>
      ok ← check_server_key sha256_hex verifier host port (peer_io p) key;
      if ok : bool then
        match rest with Ok _ => mret () | Err e => throw (failed e) end
      else throw (failed (bail "Unknown server key"))
  end.

Definition hash_alg (key : PrivateKey) : option HashAlg := if bool_decide (algorithm key = Rsa) then Some Sha512 else None.
Definition ssh_connect (host : string) (port : N) (user key_path : string)
    (load_secret_key : Result AnyErr PrivateKey) (p : Peer) : SM Known AnyErr SshSession :=
  key_pair ← lift (match load_secret_key with
                   | Ok k => Ok k
                   | Err e => Err (context ("loading SSH key " +:+ key_path) e)
                   end);
  lift (check_client_key_strength key_pair key_path) ;;
  handshake host port p ;;
  match authenticate_publickey p user (hash_alg key_pair) with
  | Err e => throw (context ("ssh auth " +:+ user +:+ "@" +:+ host) e)
  | Ok AuthSuccess => mret (mkSession host port user p)
  | Ok (AuthFailure other) =>
      throw (bail ("ssh publickey auth rejected by " +:+ at_port host port +:+ " for user " +:+ user +:+ ": " +:+ other))
  end.
End connect.

(** * Host keys stay pinned, and survive a restart

    Theorems over every sequence of handshakes: with a verifier that [Pins], the
    keys the store holds are the only ones accepted for their hosts, and a store
    whose lines were all written is what a later [load] reads. *)
(** ** Words of a line *)
Lemma split_ws_word t n cur rest :
  all_bytes visible t = true ->
  split_ws_fuel (String.length t + S n) cur (t +:+ String " " rest) = piece (cur +:+ t) ++ split_ws_fuel n "" rest.
Proof.
  revert cur. induction t as [|a t IH]; intros cur H.
  - rewrite string_app_nil_r. cbn [String.append String.length Nat.add split_ws_fuel]. by rewrite space_is_white.
  - cbn [all_bytes] in H. apply andb_true_iff in H as [Ha Ht].
    cbn [String.append String.length Nat.add split_ws_fuel]. rewrite visible_not_white by done.
    rewrite IH by done. by rewrite <- string_app_assoc.
Qed.
Lemma piece_word t : word t = true -> piece t = [t].
Proof. unfold word, piece. by destruct (is_empty t). Qed.
Lemma word_visible t : word t = true -> all_bytes visible t = true.
Proof. unfold word. by intros [_ H]%andb_true_iff. Qed.

Lemma split_three a b c rest :
  word a = true -> word b = true -> word c = true ->
  exists more, split_whitespace (a +:+ " " +:+ b +:+ " " +:+ c +:+ String " " rest) = a :: b :: c :: more.
Proof.
  intros Ha Hb Hc. unfold split_whitespace.
  set (s3 := c +:+ String " " rest). set (s2 := b +:+ " " +:+ s3).
  assert (E : String.length (a +:+ " " +:+ s2) = String.length a + S (String.length b + S (String.length c + S (String.length rest)))).
  { subst s2 s3. rewrite !string_length_app. cbn [String.length]. lia. }
  rewrite E. change (a +:+ " " +:+ s2) with (a +:+ String " " s2).
  rewrite split_ws_word by (by apply word_visible). subst s2. change (b +:+ " " +:+ s3) with (b +:+ String " " s3).
  rewrite split_ws_word by (by apply word_visible). subst s3.
  rewrite split_ws_word by (by apply word_visible).
  cbn [String.append]. rewrite !piece_word by done. by eexists.
Qed.

Lemma base64_visible bs : all_bytes visible (base64_encode bs) = true.
Proof.
  revert bs. fix IH 1. intros [|c0 [|c1 [|c2 rest]]]; [done|..]; cbn [base64_encode all_bytes].
  all: pose proof (N_of_ascii_lt c0) as H0.
  - destruct (sextets_in_range _ 0 H0 ltac:(done)) as (R0 & _ & _ & _ & R1 & _). unfold visible.
    destruct (alph_read _ R0) as (_ & _ & ->), (alph_read _ R1) as (_ & _ & ->). done.
  - pose proof (N_of_ascii_lt c1) as H1. unfold visible.
    destruct (sextets_in_range _ _ H0 H1) as (R0 & R1 & _), (sextets_in_range _ _ H1 H0) as (_ & _ & _ & _ & _ & R2).
    destruct (alph_read _ R0) as (_ & _ & ->), (alph_read _ R1) as (_ & _ & ->), (alph_read _ R2) as (_ & _ & ->). done.
  - pose proof (N_of_ascii_lt c1) as H1. pose proof (N_of_ascii_lt c2) as H2.
    destruct (sextets_in_range _ _ H0 H1) as (R0 & R1 & _), (sextets_in_range _ _ H1 H2) as (_ & _ & R2 & _),
      (sextets_in_range _ _ H2 H2) as (_ & _ & _ & R3 & _).
    rewrite IH. unfold visible. destruct (alph_read _ R0) as (_ & _ & ->), (alph_read _ R1) as (_ & _ & ->),
      (alph_read _ R2) as (_ & _ & ->), (alph_read _ R3) as (_ & _ & ->). done.
Qed.
Lemma base64_word bs : is_empty bs = false -> word (base64_encode bs) = true.
Proof.
  intros H. unfold word. rewrite base64_visible, andb_true_r.
  destruct bs as [|c0 [|c1 [|c2 rest]]]; done.
Qed.

(** ** The line of an entry is read back *)
Definition good_host (id : string) : bool := word id && negb (starts_with "#" id).
Definition good_key (k : HostKey) : bool := word (key_type k) && negb (is_empty (key_blob k)).

(** The hash is printed in hexadecimal. *)
Definition hex_digest (sha256_hex : string -> string) : Prop := forall b, word (sha256_hex b) = true.

Section line.
Context (sha256_hex : string -> string) (Hhex : hex_digest sha256_hex).
Variables (id : string) (key : HostKey).
Hypothesis (Hid : good_host id = true) (Hkey : good_key key = true).

Definition entry_text : string :=
  id +:+ " " +:+ key_type key +:+ " " +:+ base64_encode (key_blob key) +:+ String " " ("# " +:+ fingerprint sha256_hex key).
Lemma entry_line_text : entry_line sha256_hex id key = entry_text +:+ String newline "".
Proof. unfold entry_line, entry_text. by rewrite <- ?string_app_assoc; cbn [String.append]; rewrite <- ?string_app_assoc. Qed.

Lemma entry_text_last : exists v, last_byte entry_text = Some v /\ visible v = true.
Proof.
  unfold entry_text, fingerprint. destruct (last_visible (sha256_hex (key_blob key)) (Hhex _)) as (v & Hv & Hvis).
  exists v. split; [|done].
  assert (Hne : exists x t, sha256_hex (key_blob key) = String x t).
  { pose proof (Hhex (key_blob key)) as Hw. destruct (sha256_hex (key_blob key)); [done|eauto]. }
  destruct Hne as (x & t & Ex).
  assert (L : forall p, last_byte (p +:+ sha256_hex (key_blob key)) = Some v).
  { intros p. rewrite last_byte_app, Ex, <- Ex. done. }
  match goal with |- last_byte ?s = _ => assert (Es : exists p, s = p +:+ sha256_hex (key_blob key)) end.
  { exists (id +:+ " " +:+ key_type key +:+ " " +:+ base64_encode (key_blob key) +:+ " # sha256:").
    by rewrite <- ?string_app_assoc; cbn [String.append]; rewrite <- ?string_app_assoc. }
  destruct Es as [p ->]. apply L.
Qed.

Lemma parse_entry : parse_line entry_text = Some (id, key).
Proof.
  unfold good_host, good_key in *. apply andb_true_iff in Hid as [Hw Hh]. apply andb_true_iff in Hkey as [Ht Hb].
  apply negb_true_iff in Hh, Hb.
  destruct (split_three id (key_type key) (base64_encode (key_blob key)) ("# " +:+ fingerprint sha256_hex key)
              Hw Ht (base64_word _ Hb)) as [more Em].
  destruct entry_text_last as (v & Hl & Hv).
  fold entry_text in Em. unfold parse_line.
  assert (Htrim : trim entry_text = entry_text /\ is_empty entry_text = false /\ starts_with "#" entry_text = false).
  { clear Em. revert Hl. unfold entry_text. unfold word in Hw. apply andb_true_iff in Hw as [Hn Hvis].
    destruct id as [|a i]; [done|]. cbn [all_bytes] in Hvis. apply andb_true_iff in Hvis as [Ha _].
    cbn [String.append]. intros Hl. split; [by apply (trim_id _ _ v)|]. split; [done|].
    unfold starts_with in *. cbn [strip_prefix] in *. by destruct (Ascii.eqb "#" a). }
  destruct Htrim as (-> & -> & ->). rewrite Em. cbn [orb]. rewrite base64_roundtrip. by destruct key.
Qed.

Definition line_byte (a : ascii) : bool := visible a || Ascii.eqb a " ".
Lemma word_line t : word t = true -> all_bytes line_byte t = true.
Proof. intros H. apply (all_bytes_impl visible); [|by apply word_visible]. unfold line_byte. by intros a ->. Qed.
Lemma entry_text_bytes : all_bytes line_byte entry_text = true.
Proof.
  unfold good_host, good_key in *. apply andb_true_iff in Hid as [Hw _]. apply andb_true_iff in Hkey as [Ht Hb].
  apply negb_true_iff in Hb. unfold entry_text, fingerprint.
  rewrite !all_bytes_app, (word_line id), (word_line (key_type key)), (word_line (base64_encode _)) by (done || by apply base64_word).
  cbn [all_bytes]. rewrite !all_bytes_app, (word_line (sha256_hex _)) by apply Hhex. done.
Qed.
Lemma line_bytes_free c t : line_byte c = false -> all_bytes line_byte t = true -> has_char c t = false.
Proof.
  intros Hc. induction t as [|a t IH]; [done|]. cbn [all_bytes has_char]. intros [Ha Ht]%andb_true_iff.
  rewrite IH by done. rewrite orb_false_r. destruct (Ascii.eqb_spec a c) as [->|]; [congruence|done].
Qed.
Lemma entry_text_utf8 : is_utf8 entry_text = true.
Proof.
  apply is_utf8_ascii, (all_bytes_impl line_byte); [|apply entry_text_bytes].
  unfold line_byte. intros a [Ha|Ha]%orb_true_iff; [by apply visible_ascii|]. by apply Ascii.eqb_eq in Ha as ->.
Qed.
End line.

(** ** Appending a line to the file *)
(** The file is missing, empty, or ends with a line feed. *)
Definition closed (d : option string) : Prop :=
  match d with None => True | Some b => b = "" \/ exists c, b = c +:+ String newline "" end.

Lemma file_lines_append b l :
  b = "" \/ (exists c, b = c +:+ String newline "") -> has_char newline l = false -> has_char "013"%char l = false ->
  file_lines (b +:+ l +:+ String newline "") = file_lines b ++ [l].
Proof.
  intros Hb Hl Hr. unfold file_lines. destruct Hb as [->|[c ->]].
  - cbn [String.append]. rewrite split_char_mid, split_char_none by done.
    change (split_char newline "") with [""]. rewrite finish_lines_closed. cbn. by rewrite strip_cr_none.
  - rewrite <- (string_app_assoc c). cbn [String.append]. rewrite !split_char_mid, (split_char_none _ l) by done.
    change (split_char newline "") with [""]. rewrite (app_assoc _ [l]), !finish_lines_closed.
    rewrite fmap_app. cbn. by rewrite strip_cr_none.
Qed.
Lemma load_lines_snoc n ls l m :
  load_lines n (ls ++ [l]) m = (m' ← load_lines n ls m; load_lines (n + length ls) [l] m').
Proof.
  revert n m. induction ls as [|x ls IH]; intros n m; [cbn [app length]; by rewrite Nat.add_0_r|].
  cbn [app length]. rewrite <- Nat.add_succ_comm. cbn [load_lines]. destruct (is_utf8 x); [|done]. apply IH.
Qed.

(** ** Sequences of handshakes *)
Record Attempt := mkAttempt { at_host : string; at_tcp_port : N; at_io : Append; at_key : PublicKeyOrCertificate }.
Definition attempt_id (a : Attempt) : string := host_id (at_host a) (at_tcp_port a).
(** The key an attempt shows, when it can be compared at all. *)
Definition presented (a : Attempt) : option HostKey :=
  match at_key a with
  | PublicKey alg (Ok blob) => if is_empty blob then None else Some (mkHostKey alg blob)
  | _ => None
  end.

Section attempts.
Context (sha256_hex : string -> string) {V : Type} `{!HostKeyVerifier V} (verifier : V).

Definition attempt (a : Attempt) : SM Known AnyErr bool :=
  check_server_key sha256_hex verifier (at_host a) (at_tcp_port a) (at_io a) (at_key a).
Definition accepted (r : Result AnyErr bool) : bool := match r with Ok b => b | Err _ => false end.
Fixpoint attempts (l : list Attempt) (w : Known) : list bool * Known :=
  match l with
  | [] => ([], w)
  | a :: rest =>
      let '(r, w1) := attempt a w in
      let '(rs, w2) := attempts rest w1 in
      (accepted r :: rs, w2)
  end.

(** One handshake: the answer, and the one way the store changes. *)
Lemma attempt_cases a w :
  attempt a w =
  match presented a with
  | None => (Ok false, w)
  | Some key =>
      match verify verifier (at_host a) (at_tcp_port a) key (check (store w) (at_host a) (at_tcp_port a) key) with
      | Reject => (Ok false, w)
      | Accept true => (Ok true, (trust sha256_hex (at_io a) (at_host a) (at_tcp_port a) key w).2)
      | Accept false => (Ok true, w)
      end
  end.
Proof.
  unfold attempt, presented, check_server_key, verify_server_key_bytes, decide_server_key, act_on_decision.
  destruct (at_key a) as [alg [blob|e]|]; [|done|done]. destruct (is_empty blob); [done|].
  destruct (verify _ _ _ _ _) as [[]|]; done.
Qed.
Lemma trust_store io host port key w :
  store (trust sha256_hex io host port key w).2 = mkKnownHosts (path (store w)) (<[host_id host port := key]> (entries (store w))).
Proof. by destruct io. Qed.

Context {P : Pins verifier}.
Lemma attempt_pins a w r w1 :
  attempt a w = (r, w1) ->
  entries (store w) ⊆ entries (store w1)
  /\ (accepted r = true -> exists k, presented a = Some k /\ entries (store w1) !! attempt_id a = Some k).
Proof.
  rewrite attempt_cases. destruct (presented a) as [key|]; [|by intros [= <- <-]].
  unfold check. fold (attempt_id a). destruct (entries (store w) !! attempt_id a) as [known|] eqn:E.
  - destruct (decide (known = key)) as [->|Hne].
    + destruct (verify _ _ _ _ _) as [[]|]; intros [= <- <-]; [..|done]; rewrite ?trust_store; cbn [entries].
      * fold (attempt_id a). rewrite insert_id by done. eauto.
      * eauto.
    + rewrite pins_mismatch. by intros [= <- <-].
  - destruct (verify _ _ _ _ _) as [remember|] eqn:Ev; [|by intros [= <- <-]].
    apply pins_unknown in Ev as ->. intros [= <- <-]. rewrite trust_store. cbn [entries]. fold (attempt_id a).
    split; [by apply insert_subseteq|]. exists key. by rewrite lookup_insert_eq.
Qed.
Lemma attempts_pin l w rs w2 :
  attempts l w = (rs, w2) ->
  entries (store w) ⊆ entries (store w2)
  /\ forall i a, l !! i = Some a -> rs !! i = Some true ->
       exists k, presented a = Some k /\ entries (store w2) !! attempt_id a = Some k.
Proof.
  revert w rs. induction l as [|a l IH]; intros w rs; cbn [attempts]; [by intros [= <- <-]|].
  destruct (attempt a w) as [r w1] eqn:Ea, (attempts l w1) as [rs' w2'] eqn:El. intros [= <- <-].
  destruct (attempt_pins _ _ _ _ Ea) as [Hs1 Ha], (IH _ _ El) as [Hs2 Hl].
  split; [by etrans|]. intros [|i] b; cbn [lookup list_lookup].
  - intros [= <-] [= Hb]. destruct (Ha Hb) as (k & -> & Hk).
    exists k. split; [done|]. by eapply lookup_weaken.
  - apply Hl.
Qed.
End attempts.

(** A host that is known with the key it shows is let in. *)
Lemma policy_match sha256_hex p a k w :
  presented a = Some k -> entries (store w) !! attempt_id a = Some k ->
  attempt sha256_hex (mkPolicyVerifier p) a w = (Ok true, w).
Proof.
  intros Hp Hk. rewrite attempt_cases, Hp. unfold check. fold (attempt_id a). rewrite Hk, decide_True by done.
  by destruct p.
Qed.
Lemma policy_known_let_in sha256_hex p l w i a k :
  p <> Off -> l !! i = Some a -> presented a = Some k -> entries (store w) !! attempt_id a = Some k ->
  (attempts sha256_hex (mkPolicyVerifier p) l w).1 !! i = Some true.
Proof.
  intros Hp. revert w i. induction l as [|b l IH]; intros w i; [done|]. cbn [attempts].
  destruct (attempt sha256_hex (mkPolicyVerifier p) b w) as [r w1] eqn:Eb.
  destruct (attempts sha256_hex (mkPolicyVerifier p) l w1) as [rs w2] eqn:El.
  pose proof (policy_pins p Hp) as P. destruct (attempt_pins _ _ _ _ _ _ Eb) as [Hs _].
  destruct i as [|i]; cbn [lookup list_lookup fst].
  - intros [= ->] Ha Hk. rewrite (policy_match _ _ _ _ _ Ha Hk) in Eb. by injection Eb as <- <-.
  - intros Hi Ha Hk. specialize (IH w1 i Hi Ha (lookup_weaken _ _ _ _ Hk Hs)). by rewrite El in IH.
Qed.
Lemma strict_keeps sha256_hex l w : (attempts sha256_hex (mkPolicyVerifier Strict) l w).2 = w.
Proof.
  revert w. induction l as [|a l IH]; intros w; [done|]. cbn [attempts].
  assert (E : (attempt sha256_hex (mkPolicyVerifier Strict) a w).2 = w).
  { rewrite attempt_cases. destruct (presented a); [|done]. by destruct (check _ _ _ _). }
  destruct (attempt sha256_hex (mkPolicyVerifier Strict) a w) as [r w1]. cbn [snd] in E. subst w1.
  specialize (IH w). by destruct (attempts _ _ l w).
Qed.


(** A session exists only after its server's key was accepted, with a client key
    that is strong enough and an authentication that succeeded. *)
Lemma connect_accepted sha256_hex {V} `{!HostKeyVerifier V} (v : V) host port user key_path load p w s w' :
  ssh_connect sha256_hex v host port user key_path load p w = (Ok s, w') ->
  exists key rest pk, dial p = Presents key rest
    /\ check_server_key sha256_hex v host port (peer_io p) key w = (Ok true, w')
    /\ load = Ok pk /\ check_client_key_strength pk key_path = Ok ()
    /\ authenticate_publickey p user (hash_alg pk) = Ok AuthSuccess.
Proof.
  unfold ssh_connect, handshake. cbv [mbind SM_bind lift]. destruct load as [pk|e]; [|done].
  destruct (check_client_key_strength pk key_path) as [[]|e] eqn:Es; [|done].
  destruct (dial p) as [|e|key rest] eqn:Ed; [done..|].
  destruct (check_server_key sha256_hex v host port (peer_io p) key w) as [[[]|e] w1] eqn:Ec; [|done..].
  destruct rest as [[]|e]; [|done]. cbv [mret SM_ret].
  destruct (authenticate_publickey p user (hash_alg pk)) as [[|other]|e] eqn:Ea; [|done..].
  intros [= <- <-]. by exists key, (Ok ()), pk.
Qed.

(** ** Reloading *)
Definition readable (a : Attempt) : bool :=
  good_host (attempt_id a) && match presented a with Some k => good_key k | None => true end
  && match at_io a with Appended => true | _ => false end.
Definition in_sync (w : Known) : Prop := closed (disk w) /\ load (path (store w)) (file_view (disk w)) = Ok (store w).

Lemma load_append sha256_hex w id key :
  hex_digest sha256_hex -> good_host id = true -> good_key key = true -> in_sync w ->
  in_sync (mkKnown (mkKnownHosts (path (store w)) (<[id := key]> (entries (store w))))
             (appended (entry_line sha256_hex id key) (disk w))).
Proof.
  intros Hhex Hid Hkey [Hc Hl]. unfold in_sync, appended. cbn [disk store path file_view closed]. split.
  { right. exists (default "" (disk w) +:+ entry_text sha256_hex id key).
    by rewrite entry_line_text, <- string_app_assoc. }
  rewrite entry_line_text. pose proof (entry_text_bytes sha256_hex Hhex id key Hid Hkey) as Hb.
  assert (Hld : load_lines 0 (file_lines (default "" (disk w))) ∅ = Ok (entries (store w))).
  { revert Hl. destruct (disk w) as [b|]; cbn [file_view load].
    - change (default "" (Some b)) with b. destruct (load_lines _ _ _) as [m|e]; [|done]. cbn [mbind Result_bind].
      intros [= <-]. done.
    - by intros [= <-]. }
  unfold load. rewrite file_lines_append; [|by destruct (disk w); [|left]|by apply line_bytes_free..].
  rewrite load_lines_snoc, Hld. cbn [mbind Result_bind load_lines].
  rewrite (entry_text_utf8 sha256_hex Hhex id key Hid Hkey). cbn [mbind Result_bind].
  unfold insert_line. by rewrite (parse_entry sha256_hex Hhex id key Hid Hkey).
Qed.

Lemma attempt_in_sync sha256_hex {V} `{!HostKeyVerifier V} (v : V) a w :
  hex_digest sha256_hex -> readable a = true -> in_sync w -> in_sync (attempt sha256_hex v a w).2.
Proof.
  intros Hhex Hr Hw. rewrite attempt_cases. unfold readable in Hr. rewrite !andb_true_iff in Hr.
  destruct Hr as [[Hid Hk] Hio], (presented a) as [key|]; [|done].
  destruct (verify _ _ _ _ _) as [[]|]; [|done..]. destruct (at_io a); [|done..]. by apply load_append.
Qed.

(** What was trusted is still known after a restart: if the file ends with a
    line feed and reads as the store does, then after any sequence of handshakes
    with readable host names and key types whose lines were all written, loading
    the file again gives the very store in memory, with the keys' bytes intact
    through base64. *)
Lemma trusted_keys_survive_restart sha256_hex {V} `{!HostKeyVerifier V} (v : V) l w :
  hex_digest sha256_hex -> forallb readable l = true -> in_sync w ->
  in_sync (attempts sha256_hex v l w).2.
Proof.
  intros Hhex. revert w. induction l as [|a l IH]; intros w Hl Hw; [done|].
  cbn [forallb] in Hl. apply andb_true_iff in Hl as [Ha Hl]. cbn [attempts].
  pose proof (attempt_in_sync sha256_hex v a w Hhex Ha Hw) as H1.
  destruct (attempt sha256_hex v a w) as [r w1]. specialize (IH w1 Hl H1).
  by destruct (attempts sha256_hex v l w1).
Qed.

(** ** Concrete runs *)
Definition zero_digest (b : string) : string := "0000".
Definition ed25519_key (blob : string) : PublicKeyOrCertificate := PublicKey "ssh-ed25519" (Ok blob).
Definition pve1 (blob : string) : Attempt := mkAttempt "pve1" 22 Appended (ed25519_key blob).
Definition pve2 (blob : string) : Attempt := mkAttempt "10.0.0.2" 2222 Appended (ed25519_key blob).
Definition fresh : Known := mkKnown (mkKnownHosts "known_hosts" ∅) None.
Definition sample_attempts : list Attempt :=
  [pve1 "key one"; pve2 "k2"; pve1 "key two"; mkAttempt "pve1" 22 Appended Certificate; pve1 "key one"].

Example sample_answers :
  (attempts zero_digest (mkPolicyVerifier Tofu) sample_attempts fresh).1 = [true; true; false; false; true].
Proof. vm_compute. reflexivity. Qed.

(** Two handshakes at once with a host that is not known: both look before
    either remembers, and two different keys are accepted, the last one stays. *)
Example concurrent_first_contact :
  let tofu := mkPolicyVerifier Tofu in
  let one := decide_server_key tofu "pve1" 22 "ssh-ed25519" (Ok "key one") fresh in
  let two := decide_server_key tofu "pve1" 22 "ssh-ed25519" (Ok "key two") fresh in
  let '(a1, w1) := act_on_decision zero_digest "pve1" 22 Appended one fresh in
  let '(a2, w2) := act_on_decision zero_digest "pve1" 22 Appended two w1 in
  a1 = Ok true /\ a2 = Ok true /\ entries (store w2) !! "pve1" = Some (mkHostKey "ssh-ed25519" "key two").
Proof. vm_compute. auto. Qed.

Lemma trusted_keys_survive_restart_witness :
  in_sync (attempts zero_digest (mkPolicyVerifier Tofu) sample_attempts fresh).2.
Proof.
  apply (trusted_keys_survive_restart zero_digest (mkPolicyVerifier Tofu)).
  - intros b. reflexivity.
  - vm_compute. reflexivity.
  - split; [exact I|reflexivity].
Defined.

(** A file edited by hand that does not end with a line feed takes the next host
    into its last line: it is unknown again after a restart. *)
Example unterminated_file_loses_host :
  let edited := String.substring 0 43 (entry_line zero_digest "pve1" (mkHostKey "ssh-ed25519" "key one")) in
  match load "known_hosts" (Content edited) with
  | Ok k0 =>
      let w := (attempts zero_digest (mkPolicyVerifier Tofu) [pve2 "k2"] (mkKnown k0 (Some edited))).2 in
      match load "known_hosts" (file_view (disk w)) with
      | Ok k1 => check k1 "10.0.0.2" 2222 (mkHostKey "ssh-ed25519" "k2") = Unknown
                 /\ check (store w) "10.0.0.2" 2222 (mkHostKey "ssh-ed25519" "k2") = Match
      | Err _ => False
      end
  | Err _ => False
  end.
Proof. vm_compute. split; reflexivity. Qed.

(** Two addresses with one identity: the port of the one is the end of the other. *)
Example host_id_collision : host_id "fe80::1" 22 = host_id "fe80:" 1.
Proof. reflexivity. Qed.
