(* ===== verification/SshExec.v ===== *)
(** * Running a command over SSH: ssh/exec.rs

    The channel is what russh hands over: whether it opens, whether the request
    is taken, the messages with the time each arrives, and the time the channel
    ends, if it does.  A run reports the lines it delivered and how it came to
    its end; a deadline cuts it where the messages are late. *)

From S2P Require Import Prelude.
From S2P Require Import ApiError.
From S2P Require Import Utf8.

Record ExecResult := mkExecResult { stdout : string; stderr : string; exit_code : option N }.
Definition exec_ok (r : ExecResult) : bool := bool_decide (exit_code r = Some 0%N).

(** [timeout] in seconds. *)
Record ExecOptions := mkExecOptions { timeout : option N; max_capture_bytes : N }.
Definition ExecOptions_default : ExecOptions := mkExecOptions (Some 60%N) (4 * 1024 * 1024)%N.

Inductive StreamLine := Stdout (s : string) | Stderr (s : string).
Definition stream_line (is_stdout : bool) (s : string) : StreamLine := if is_stdout then Stdout s else Stderr s.

Inductive ChannelMsg :=
  | Data (data : string)
  | ExtendedData (data : string) (ext : N)
  | ExitStatus (exit_status : N)
  | Eof
  | Close
  | OtherMsg.

(** ** Lines *)
(** The [while let Some(pos)] of [push_lines]: the lines, and what stays. *)
Fixpoint drain (fuel : nat) (line_buf : string) : list string * string :=
  match fuel, split_once (String newline "") line_buf with
  | S fuel', Some (line, rest) =>
      let '(lines, tail) := drain fuel' rest in (from_utf8_lossy (strip_cr line) :: lines, tail)
  | _, _ => ([], line_buf)
  end.
Definition capture_chunk (max_capture : N) (capture chunk : string) : string :=
  let len := N.of_nat (String.length capture) in
  if (len <? max_capture)%N then
    let remaining := (max_capture - len)%N in
    let take := N.min (N.of_nat (String.length chunk)) remaining in
    capture +:+ from_utf8_lossy (String.substring 0 (N.to_nat take) chunk)
  else capture.
Record Side := mkSide { line_buf : string; capture : string }.
Definition push_lines (chunk : string) (max_capture : N) (is_stdout : bool) (s : Side) : list StreamLine * Side :=
  let capture' := capture_chunk max_capture (capture s) chunk in
  let buf := line_buf s +:+ chunk in
  let '(lines, tail) := drain (S (String.length buf)) buf in
  (stream_line is_stdout <$> lines, mkSide tail capture').
Definition flush_buf (is_stdout : bool) (s : Side) : list StreamLine * Side :=
  if is_empty (line_buf s) then ([], s)
  else ([stream_line is_stdout (from_utf8_lossy (strip_cr (line_buf s)))], mkSide "" (capture s)).

(** ** The loop over the channel *)
Record Run := mkRun { out : Side; err : Side; code : option N }.
Definition start_run : Run := mkRun (mkSide "" "") (mkSide "" "") None.

(** One message: the lines it delivers, and [None] where it ends the loop. *)
Definition handle_msg (max_capture : N) (msg : ChannelMsg) (r : Run) : list StreamLine * option Run :=
  match msg with
  | Data data =>
      let '(ls, out') := push_lines data max_capture true (out r) in (ls, Some (mkRun out' (err r) (code r)))
  | ExtendedData data ext =>
      if (ext =? 1)%N then
        let '(ls, err') := push_lines data max_capture false (err r) in (ls, Some (mkRun (out r) err' (code r)))
      else ([], Some r)
  | ExitStatus exit_status => ([], Some (mkRun (out r) (err r) (Some exit_status)))
  | Eof =>
      let '(l1, out') := flush_buf true (out r) in
      let '(l2, err') := flush_buf false (err r) in
      (l1 ++ l2, Some (mkRun out' err' (code r)))
  | Close => ([], None)
  | OtherMsg => ([], Some r)
  end.
Definition finish_run (r : Run) : ExecResult := mkExecResult (capture (out r)) (capture (err r)) (code r).

(** The messages in their order: the lines, the run, and whether it was closed. *)
Fixpoint msg_loop (max_capture : N) (msgs : list ChannelMsg) (r : Run) : list StreamLine * (Run * bool) :=
  match msgs with
  | [] => ([], (r, false))
  | m :: rest =>
      match handle_msg max_capture m r with
      | (ls, Some r') => let '(ls', e) := msg_loop max_capture rest r' in (ls ++ ls', e)
      | (ls, None) => (ls, (r, true))
      end
  end.

Record Channel := mkChannel {
  open_channel : Result AnyErr unit;
  request_exec : Result AnyErr unit;
  arrivals : list (N * ChannelMsg);
  ends_at : option N;
}.

(** How a command ends: with an answer at a time, cut by the deadline, or never. *)
Inductive Ending := Answered (r : Result AnyErr ExecResult) | TimedOut | Never.

Definition in_time (deadline : option N) (t : N) : bool := match deadline with Some d => (t <=? d)%N | None => true end.
Fixpoint before (deadline : option N) (l : list (N * ChannelMsg)) : list ChannelMsg * bool :=
  match l with
  | [] => ([], true)
  | (t, m) :: rest =>
      if in_time deadline t then let '(ms, all) := before deadline rest in (m :: ms, all) else ([], false)
  end.
Definition exec_inner_stream (deadline : option N) (max_capture : N) (ch : Channel) : list StreamLine * Ending :=
  match open_channel ch with
  | Err e => ([], Answered (Err (context "opening ssh channel" e)))
  | Ok _ =>
      match request_exec ch with
      | Err e => ([], Answered (Err (context "requesting exec" e)))
      | Ok _ =>
          let '(msgs, all) := before deadline (arrivals ch) in
          let '(lines, (r, closed)) := msg_loop max_capture msgs start_run in
          let late := match deadline with Some _ => TimedOut | None => Never end in
          (lines,
           if closed then Answered (Ok (finish_run r))
           else match all, ends_at ch with
                | true, Some t => if in_time deadline t then Answered (Ok (finish_run r)) else late
                | _, _ => late
                end)
      end
  end.

(** [exec] and [exec_stream]: no result where the command never ends. *)
Definition run_exec (opts : ExecOptions) (ch : Channel) : option (Result AnyErr ExecResult) :=
  match (exec_inner_stream (timeout opts) (max_capture_bytes opts) ch).2 with
  | Answered r => Some r
  | TimedOut => Some (Err (context "ssh exec timed out" (bail "deadline has elapsed")))
  | Never => None
  end.
Definition run_exec_stream (opts : ExecOptions) (ch : Channel) : list StreamLine * option (Result AnyErr (option N)) :=
  let '(lines, e) := exec_inner_stream (timeout opts) (max_capture_bytes opts) ch in
  (lines,
   match e with
   | Answered (Ok r) => Some (Ok (exit_code r))
   | Answered (Err e) => Some (Err e)
   | TimedOut => Some (Err (context "ssh exec_stream timed out" (bail "deadline has elapsed")))
   | Never => None
   end).

(** ** The lines do not depend on the chunks *)
(** The reference: the pieces between line feeds, and the last one apart. *)
Definition text_line (l : string) : string := from_utf8_lossy (strip_cr l).
Fixpoint but_last (ls : list string) : list string :=
  match ls with [] => [] | [_] => [] | l :: rest => l :: but_last rest end.
Definition last_piece (ls : list string) : string := default "" (last ls).

Lemma split_once_newline s :
  match split_once (String newline "") s with
  | Some (l, r) => split_char newline s = l :: split_char newline r /\ (String.length r < String.length s)%nat
  | None => split_char newline s = [s]
  end.
Proof.
  induction s as [|a s IH]; [done|]. cbn [split_once split_char]. cbn [strip_prefix].
  destruct (Ascii.eqb_spec newline a) as [<-|Hne]; [rewrite Ascii.eqb_refl; split; [done|simpl; lia]|].
  destruct (Ascii.eqb_spec a newline) as [->|]; [done|].
  destruct (split_once (String newline "") s) as [[l r]|].
  - destruct IH as [-> Hl]. split; [done|simpl; lia].
  - by rewrite IH.
Qed.
Lemma but_last_cons l ls : ls <> [] -> but_last (l :: ls) = l :: but_last ls.
Proof. by destruct ls. Qed.
Lemma last_piece_cons l ls : ls <> [] -> last_piece (l :: ls) = last_piece ls.
Proof. by destruct ls. Qed.
Lemma drain_reference n s :
  (String.length s < n)%nat ->
  drain n s = (text_line <$> but_last (split_char newline s), last_piece (split_char newline s)).
Proof.
  revert s. induction n as [|n IH]; intros s Hn; [lia|]. cbn [drain].
  pose proof (split_once_newline s) as H. destruct (split_once (String newline "") s) as [[l r]|].
  - destruct H as [-> Hr]. rewrite IH by lia. pose proof (split_char_nonempty newline r).
    by rewrite but_last_cons, last_piece_cons by done.
  - by rewrite H.
Qed.

(** Splitting goes on where the last piece was left. *)
Lemma split_char_resume s c :
  split_char newline (s +:+ c) =
  but_last (split_char newline s) ++ split_char newline (last_piece (split_char newline s) +:+ c).
Proof.
  induction s as [|a s IH]; [done|]. cbn [String.append split_char].
  pose proof (split_char_nonempty newline s) as Hne. destruct (Ascii.eqb_spec a newline) as [->|Ha].
  - rewrite IH. by rewrite but_last_cons, last_piece_cons.
  - rewrite IH. destruct (split_char newline s) as [|w [|w2 ws]]; [done|..].
    + change (last_piece [w]) with w. change (last_piece [String a w]) with (String a w).
      cbn [but_last app String.append split_char]. destruct (Ascii.eqb_spec a newline); [done|].
      pose proof (split_char_nonempty newline (w +:+ c)). by destruct (split_char newline (w +:+ c)).
    + done.
Qed.
Lemma but_last_app l1 l2 : l2 <> [] -> but_last (l1 ++ l2) = l1 ++ but_last l2.
Proof.
  intros H. induction l1 as [|x l1 IH]; [done|]. cbn [app]. rewrite but_last_cons by (by destruct l1).
  by rewrite IH.
Qed.
Lemma last_piece_app l1 l2 : l2 <> [] -> last_piece (l1 ++ l2) = last_piece l2.
Proof.
  intros H. induction l1 as [|x l1 IH]; [done|]. cbn [app]. by rewrite last_piece_cons by (by destruct l1).
Qed.
Lemma last_piece_free s : has_char newline (last_piece (split_char newline s)) = false.
Proof.
  unfold last_piece. destruct (last (split_char newline s)) as [p|] eqn:E; [|done].
  pose proof (split_char_parts newline s) as H. rewrite Forall_forall in H. apply H. by apply last_Some_elem_of.
Qed.

(** ** One side of the output *)
Definition on_side (b : bool) (l : StreamLine) : option string :=
  match l, b with Stdout s, true => Some s | Stderr s, false => Some s | _, _ => None end.
Definition texts (b : bool) (ls : list StreamLine) : list string := omap (on_side b) ls.
Definition sent_by (b : bool) (m : ChannelMsg) : string :=
  match m, b with
  | Data d, true => d
  | ExtendedData d ext, false => if (ext =? 1)%N then d else ""
  | _, _ => ""
  end.
Fixpoint sent (b : bool) (ms : list ChannelMsg) : string :=
  match ms with [] => "" | m :: rest => sent_by b m +:+ sent b rest end.
Definition side (b : bool) (r : Run) : Side := if b then out r else err r.

Lemma texts_app b l1 l2 : texts b (l1 ++ l2) = texts b l1 ++ texts b l2.
Proof. apply omap_app. Qed.
Lemma texts_side b b' ls : texts b (stream_line b' <$> ls) = if Bool.eqb b b' then ls else [].
Proof.
  induction ls as [|l ls IH]; [by destruct b, b'|]. rewrite fmap_cons. unfold texts in *. cbn [omap list_omap].
  destruct b, b'; cbn [stream_line on_side Bool.eqb] in *; by rewrite IH.
Qed.

Definition plain (m : ChannelMsg) : bool := match m with Eof | Close => false | _ => true end.
(** A message that neither ends the loop nor the output advances each side by
    what it sent there. *)
Lemma handle_plain max m r b :
  plain m = true -> has_char newline (line_buf (side b r)) = false ->
  exists ls r', handle_msg max m r = (ls, Some r')
    /\ texts b ls = text_line <$> but_last (split_char newline (line_buf (side b r) +:+ sent_by b m))
    /\ line_buf (side b r') = last_piece (split_char newline (line_buf (side b r) +:+ sent_by b m)).
Proof.
  intros Hm Hb.
  assert (Hidle : sent_by b m = "" -> [] = text_line <$> but_last (split_char newline (line_buf (side b r) +:+ sent_by b m))
    /\ line_buf (side b r) = last_piece (split_char newline (line_buf (side b r) +:+ sent_by b m))).
  { intros ->. rewrite string_app_nil_r, split_char_none by done. done. }
  destruct m as [d|d ext| | | |]; try done; cbn [handle_msg].
  - unfold push_lines. rewrite drain_reference by lia. eexists _, _. split; [done|]. rewrite texts_side.
    destruct b; [done|]. by apply Hidle.
  - destruct (ext =? 1)%N eqn:Ee.
    + unfold push_lines. rewrite drain_reference by lia. eexists _, _. split; [done|]. rewrite texts_side.
      destruct b; [by apply Hidle|]. cbn [sent_by]. by rewrite Ee.
    + eexists _, _. split; [done|]. apply Hidle. cbn [sent_by]. rewrite Ee. by destruct b.
  - eexists _, _. split; [done|]. destruct (Hidle ltac:(by destruct b)) as [H1 H2]. split; [done|]. by destruct b.
  - eexists _, _. split; [done|]. by apply Hidle; destruct b.
Qed.

Lemma loop_plain max ms r b :
  forallb plain ms = true -> has_char newline (line_buf (side b r)) = false ->
  exists ls r', msg_loop max ms r = (ls, (r', false))
    /\ texts b ls = text_line <$> but_last (split_char newline (line_buf (side b r) +:+ sent b ms))
    /\ line_buf (side b r') = last_piece (split_char newline (line_buf (side b r) +:+ sent b ms)).
Proof.
  revert r. induction ms as [|m ms IH]; intros r Hms Hb.
  - eexists _, _. split; [done|]. cbn [sent]. by rewrite string_app_nil_r, split_char_none.
  - cbn [forallb] in Hms. apply andb_true_iff in Hms as [Hm Hms].
    destruct (handle_plain max m r b Hm Hb) as (ls & r1 & E1 & T1 & B1).
    assert (Hb1 : has_char newline (line_buf (side b r1)) = false) by (rewrite B1; apply last_piece_free).
    destruct (IH r1 Hms Hb1) as (ls2 & r2 & E2 & T2 & B2).
    eexists _, _. cbn [msg_loop sent]. rewrite E1, E2. split; [done|].
    rewrite texts_app, T1, T2, B2, B1, string_app_assoc.
    rewrite (split_char_resume (line_buf (side b r) +:+ sent_by b m) (sent b ms)).
    rewrite but_last_app, last_piece_app, fmap_app by apply split_char_nonempty. done.
Qed.

(** ** What is captured *)
Lemma substring_all n s : (String.length s <= n)%nat -> String.substring 0 n s = s.
Proof. revert n. induction s as [|a s IH]; intros [|n] H; simpl in *; [done..|lia|]. by rewrite IH by lia. Qed.
Lemma substring_length n s : String.length (String.substring 0 n s) = (n `min` String.length s)%nat.
Proof. revert n. induction s as [|a s IH]; intros [|n]; simpl; [done..|]. by rewrite IH. Qed.
Lemma substring_app n a b :
  String.substring 0 n (a +:+ b) = String.substring 0 n a +:+ String.substring 0 (n - String.length a) b.
Proof. revert n. induction a as [|x a IH]; intros [|n]; cbn; [done|by destruct n|by destruct b|]. by rewrite IH. Qed.
Lemma substring_bytes p n s : all_bytes p s = true -> all_bytes p (String.substring 0 n s) = true.
Proof.
  revert n. induction s as [|a s IH]; intros [|n]; [done..|]. cbn. intros [-> H]%andb_true_iff. by apply IH.
Qed.

(** The captured text is at most three times the cap (each invalid byte becomes
    three), and for ASCII it is the front of what was sent. *)
Definition captured (max : N) (c all : string) : Prop :=
  (String.length c <= 3 * N.to_nat max)%nat
  /\ (all_bytes is_ascii_byte all = true -> c = String.substring 0 (N.to_nat max) all).

Lemma captured_step max c all chunk :
  captured max c all -> captured max (capture_chunk max c chunk) (all +:+ chunk).
Proof.
  intros [Hl Ha]. unfold capture_chunk.
  destruct (N.ltb_spec (N.of_nat (String.length c)) max) as [Hlt|Hge]; split.
  - rewrite string_length_app. unfold from_utf8_lossy.
    match goal with |- context [lossy_fuel ?n ?s] => pose proof (lossy_length n s) as H end.
    rewrite substring_length in H at 2. lia.
  - rewrite all_bytes_app. intros [Hall Hc]%andb_true_iff. specialize (Ha Hall). subst c.
    rewrite from_utf8_lossy_id by (by apply is_utf8_ascii, substring_bytes).
    rewrite substring_length in *. rewrite substring_app. f_equal.
    destruct (decide (String.length chunk <= N.to_nat max - String.length all)%nat) as [Hs|Hs].
    + rewrite !substring_all by lia. done.
    + f_equal. lia.
  - done.
  - rewrite all_bytes_app. intros [Hall Hc]%andb_true_iff. specialize (Ha Hall). subst c.
    rewrite substring_length in Hge. rewrite substring_app.
    replace (N.to_nat max - String.length all)%nat with 0%nat by lia.
    replace (String.substring 0 0 chunk) with "" by (by destruct chunk). by rewrite string_app_nil_r.
Qed.
Lemma handle_captured max m r ls r' b all :
  handle_msg max m r = (ls, Some r') -> captured max (capture (side b r)) all ->
  captured max (capture (side b r')) (all +:+ sent_by b m).
Proof.
  intros E H. destruct m as [d|d ext| | | |]; cbn [handle_msg] in E.
  - unfold push_lines in E. destruct (drain _ _). injection E as <- <-.
    destruct b; cbn [side out err capture sent_by] in *; [by apply captured_step|by rewrite string_app_nil_r].
  - destruct (ext =? 1)%N eqn:Ee.
    + unfold push_lines in E. destruct (drain _ _). injection E as <- <-.
      destruct b; cbn [side out err capture sent_by] in *; [by rewrite string_app_nil_r|].
      rewrite Ee. by apply captured_step.
    + injection E as <- <-. cbn [sent_by]. rewrite Ee. destruct b; by rewrite string_app_nil_r.
  - injection E as <- <-. destruct b; cbn [sent_by]; by rewrite string_app_nil_r.
  - unfold flush_buf in E. 
    destruct (is_empty (line_buf (out r))), (is_empty (line_buf (err r))); injection E as <- <-;
      destruct b; cbn [sent_by]; by rewrite string_app_nil_r.
  - done.
  - injection E as <- <-. destruct b; cbn [sent_by]; by rewrite string_app_nil_r.
Qed.

(** ** A whole run *)
Definition quiet (m : ChannelMsg) : bool := match m with ExitStatus _ | OtherMsg | Close => true | _ => false end.
(** The last status before the channel is closed. *)
Fixpoint final_status (ms : list ChannelMsg) (c : option N) : option N :=
  match ms with
  | [] | Close :: _ => c
  | ExitStatus s :: rest => final_status rest (Some s)
  | _ :: rest => final_status rest c
  end.
Definition reference_lines (bytes : string) : list string :=
  let ps := split_char newline bytes in text_line <$> but_last ps ++ piece (last_piece ps).

Lemma loop_app max l1 l2 r :
  forallb plain l1 = true ->
  msg_loop max (l1 ++ l2) r =
  (let '(ls, (r1, _)) := msg_loop max l1 r in let '(ls2, e) := msg_loop max l2 r1 in (ls ++ ls2, e)).
Proof.
  revert r. induction l1 as [|m l1 IH]; intros r H; cbn [app].
  - cbn [msg_loop]. by destruct (msg_loop max l2 r).
  - cbn [forallb] in H. apply andb_true_iff in H as [Hm H]. cbn [msg_loop].
    destruct (handle_msg max m r) as [ls [r'|]] eqn:E.
    + rewrite IH by done. destruct (msg_loop max l1 r') as [ls1 [r1 c]], (msg_loop max l2 r1). by rewrite app_assoc.
    + destruct m; cbn [handle_msg] in E; try done; repeat case_match; done.
Qed.
Lemma handle_code max m r ls r' : handle_msg max m r = (ls, Some r') -> final_status [m] (code r) = code r'.
Proof.
  destruct m; cbn [handle_msg]; repeat case_match; intros E; try done; by injection E as <- <-.
Qed.
Lemma final_status_cons m ms c : m <> Close -> final_status (m :: ms) c = final_status ms (final_status [m] c).
Proof. by destruct m. Qed.
Lemma loop_code max ms r : code (msg_loop max ms r).2.1 = final_status ms (code r).
Proof.
  revert r. induction ms as [|m ms IH]; intros r; [done|]. cbn [msg_loop].
  destruct (handle_msg max m r) as [ls [r'|]] eqn:E.
  - specialize (IH r'). destruct (msg_loop max ms r') as [ls' [r'' c]]. cbn [fst snd] in *. rewrite IH.
    rewrite final_status_cons by (by destruct m). by rewrite (handle_code _ _ _ _ _ E).
  - destruct m; cbn [handle_msg] in E; try done; repeat case_match; done.
Qed.
Fixpoint until_close (ms : list ChannelMsg) : list ChannelMsg :=
  match ms with [] | Close :: _ => [] | m :: rest => m :: until_close rest end.
Lemma loop_captured max ms r b all :
  captured max (capture (side b r)) all ->
  captured max (capture (side b (msg_loop max ms r).2.1)) (all +:+ sent b (until_close ms)).
Proof.
  revert r all. induction ms as [|m ms IH]; intros r all H; [by rewrite string_app_nil_r|]. cbn [msg_loop].
  destruct (handle_msg max m r) as [ls [r'|]] eqn:E.
  - pose proof (handle_captured _ _ _ _ _ _ _ E H) as H1. specialize (IH r' _ H1).
    destruct (msg_loop max ms r') as [ls' [r'' c]]. cbn [fst snd] in *.
    assert (Hm : until_close (m :: ms) = m :: until_close ms) by (by destruct m).
    rewrite Hm. cbn [sent]. by rewrite string_app_assoc.
  - assert (Hm : m = Close) by (destruct m; cbn [handle_msg] in E; try done; repeat case_match; done).
    subst m. by rewrite string_app_nil_r.
Qed.
Lemma sent_until_close b l1 l2 :
  forallb plain l1 = true -> forallb quiet l2 = true -> sent b (until_close (l1 ++ Eof :: l2)) = sent b l1.
Proof.
  intros H1 H2. induction l1 as [|m l1 IH]; cbn [app].
  - cbn [until_close sent]. assert (sent b (until_close l2) = "") as ->; [|by destruct b].
    induction l2 as [|m l2 IH]; [done|]. cbn [forallb] in H2. apply andb_true_iff in H2 as [Hm H2].
    specialize (IH H2). destruct m, b; cbn [until_close sent sent_by] in *; (done || by rewrite IH).
  - cbn [forallb] in H1. apply andb_true_iff in H1 as [Hm H1].
    assert (E : until_close (m :: l1 ++ Eof :: l2) = m :: until_close (l1 ++ Eof :: l2)) by (by destruct m).
    rewrite E. cbn [sent]. by rewrite IH.
Qed.
Lemma quiet_lines max l2 r : forallb quiet l2 = true -> (msg_loop max l2 r).1 = [].
Proof.
  revert r. induction l2 as [|m l2 IH]; intros r H; [done|]. cbn [forallb] in H.
  apply andb_true_iff in H as [Hm H]. cbn [msg_loop]. destruct m; try done; cbn [handle_msg].
  - specialize (IH (mkRun (out r) (err r) (Some exit_status)) H). by destruct (msg_loop max l2 _).
  - specialize (IH r H). by destruct (msg_loop max l2 r).
Qed.
Lemma eof_lines max r b :
  exists ls r', handle_msg max Eof r = (ls, Some r') /\ texts b ls = text_line <$> piece (line_buf (side b r)).
Proof.
  cbn [handle_msg]. unfold flush_buf, piece.
  destruct b, (is_empty (line_buf (out r))) eqn:E1, (is_empty (line_buf (err r))) eqn:E2;
    eexists _, _; (split; [done|]); cbn [side]; by rewrite ?E1, ?E2.
Qed.
Lemma run_lines max l1 l2 b :
  forallb plain l1 = true -> forallb quiet l2 = true ->
  texts b (msg_loop max (l1 ++ Eof :: l2) start_run).1 = reference_lines (sent b l1).
Proof.
  intros H1 H2. rewrite loop_app by done.
  destruct (loop_plain max l1 start_run b H1 ltac:(by destruct b)) as (ls & r1 & -> & T & B).
  assert (E0 : line_buf (side b start_run) = "") by (by destruct b). rewrite E0 in T, B. cbn [String.append] in T, B.
  destruct (eof_lines max r1 b) as (ls2 & r2 & E2 & T2). cbn [msg_loop]. rewrite E2.
  pose proof (quiet_lines max l2 r2 H2) as Hq. destruct (msg_loop max l2 r2) as [ls3 e]. cbn [fst] in *. subst ls3.
  rewrite app_nil_r, texts_app, T, T2, B. unfold reference_lines. by rewrite fmap_app.
Qed.

(** The output of a command arrives whole: for a command whose messages are in
    time, the lines delivered on each of the two streams are the lines of the
    bytes sent on it, in order, however the bytes were cut into messages and
    however the two streams were interleaved; the last line needs no line feed.
    The exit code is the last one sent before the channel closed.  What is
    captured is the front of the stream up to the cap where it is ASCII, and
    never more than three times the cap. *)
Lemma exec_output_whole opts ch l1 l2 t :
  open_channel ch = Ok () -> request_exec ch = Ok () ->
  before (timeout opts) (arrivals ch) = (l1 ++ Eof :: l2, true) ->
  ends_at ch = Some t -> in_time (timeout opts) t = true ->
  forallb plain l1 = true -> forallb quiet l2 = true ->
  let code := final_status (l1 ++ Eof :: l2) None in
  (forall b, texts b (run_exec_stream opts ch).1 = reference_lines (sent b l1))
  /\ (run_exec_stream opts ch).2 = Some (Ok code)
  /\ exists r, run_exec opts ch = Some (Ok r) /\ exit_code r = code
       /\ captured (max_capture_bytes opts) (stdout r) (sent true l1)
       /\ captured (max_capture_bytes opts) (stderr r) (sent false l1).
Proof.
  intros Ho Hr Hb He Ht H1 H2 code. unfold run_exec_stream, run_exec, exec_inner_stream. rewrite Ho, Hr, Hb, He, Ht.
  pose proof (fun b => run_lines (max_capture_bytes opts) l1 l2 b H1 H2) as Hl.
  pose proof (loop_code (max_capture_bytes opts) (l1 ++ Eof :: l2) start_run) as Hc.
  assert (H0 : forall b, captured (max_capture_bytes opts) (capture (side b start_run)) "")
    by (intros []; (split; [simpl; lia|]); intros _; by destruct (N.to_nat _)).
  pose proof (fun b => loop_captured _ (l1 ++ Eof :: l2) start_run b "" (H0 b)) as Hk.
  destruct (msg_loop _ (l1 ++ Eof :: l2) start_run) as [lines [r closed]]. cbn [fst snd] in *.
  assert (Ea : (if closed then Answered (Ok (finish_run r)) else Answered (Ok (finish_run r))) = Answered (Ok (finish_run r)))
    by (by destruct closed).
  rewrite Ea. cbn [fst snd finish_run exit_code]. rewrite Hc. split; [done|]. split; [done|].
  exists (finish_run r). split; [done|]. split; [done|].
  pose proof (Hk true) as Kt. pose proof (Hk false) as Kf. rewrite sent_until_close in Kt, Kf by done. done.
Qed.

(** ** Concrete runs *)
Definition sample_msgs : list (N * ChannelMsg) :=
  [(1, Data ("one" +:+ String newline "t")); (2, ExtendedData "warn" 1); (3, Data "wo"); (3, ExitStatus 0); (4, Eof); (4, Close)]%N.
Definition sample_channel : Channel := mkChannel (Ok ()) (Ok ()) sample_msgs (Some 4%N).
Lemma exec_output_whole_witness :
  texts true (run_exec_stream ExecOptions_default sample_channel).1 = ["one"; "two"]
  /\ texts false (run_exec_stream ExecOptions_default sample_channel).1 = ["warn"].
Proof.
  destruct (exec_output_whole ExecOptions_default sample_channel
    [Data ("one" +:+ String newline "t"); ExtendedData "warn" 1; Data "wo"; ExitStatus 0] [Close] 4%N
    eq_refl eq_refl eq_refl eq_refl eq_refl eq_refl eq_refl) as (H & _).
  split; [exact (H true)|exact (H false)].
Defined.

(** Bytes that are not UTF-8 make the capture longer than its cap, and a character
    cut between two messages is captured as two replacements. *)
Example capture_over_cap :
  String.length (capture_chunk 4 "" (byte 255 +:+ byte 255 +:+ byte 255 +:+ byte 255)) = 12%nat.
Proof. vm_compute. reflexivity. Qed.
Example capture_cuts_character :
  let e_acute := (byte 195, byte 169) in
  capture_chunk 100 (capture_chunk 100 "" e_acute.1) e_acute.2 = REPLACEMENT +:+ REPLACEMENT
  /\ capture_chunk 100 "" (e_acute.1 +:+ e_acute.2) = e_acute.1 +:+ e_acute.2.
Proof. vm_compute. split; reflexivity. Qed.
