(* ===== verification/SshTarget.v ===== *)
(** * Where SSH goes: the [ssh] block of config/mod.rs

    The table of the profile, its defaults and the resolution of a node's or a
    guest's address.  [url_host] stands for [reqwest::Url::parse(url)?.host_str()],
    [home] for the variable HOME, [config_dir] for the directories crate. *)

From S2P Require Import Prelude.
From S2P Require Import ApiError.
From S2P Require Import Utf8.
From S2P Require Import Ha.

Record GuestSshTarget := mkGuestTarget {
  gt_host : string; gt_port : option N; gt_user : option string; gt_key_path : option string }.
Record SshConfig := mkSshConfig {
  sc_user : string;
  sc_key_path : option string;
  sc_hosts : gmap string string;
  sc_known_hosts : option string;
  sc_strict_host_key_checking : string;
  sc_max_concurrent : N;
  sc_idle_timeout_secs : N;
  sc_exec_timeout_secs : N;
  sc_guests : gmap string GuestSshTarget;
}.
Definition default_ssh_user : string := "root".
Definition default_strict_host_check : string := "tofu".
Definition default_max_concurrent : N := 8.
Definition default_idle_timeout : N := 300.
Definition default_exec_timeout : N := 60.

Record ResolvedGuestSsh := mkResolvedGuest { rg_host : string; rg_port : N; rg_user : string; rg_key_path : string }.
Inductive SshHostSource := ExplicitHosts | ApiUrlFallback | NodeNameFallback.
#[export] Instance SshHostSource_eq_dec : EqDecision SshHostSource.
Proof. solve_decision. Defined.
Record ResolvedNodeSsh := mkResolvedNode { rn_host : string; rn_port : N; rn_source : SshHostSource }.

(** ** Paths: util/path.rs *)
(** [Path::join]: an absolute second part replaces the first. *)
Definition path_join (base rest : string) : string :=
  if starts_with "/" rest then rest
  else if is_empty base || ends_with "/" base then base +:+ rest
  else base +:+ "/" +:+ rest.
Definition expand_tilde_with_home (path : string) (home : option string) : string :=
  let valid_home := h ← home; if is_empty h then None else Some h in
  if bool_decide (path = "~") then default path valid_home
  else match strip_prefix "~/" path with
       | Some stripped => match valid_home with Some h => path_join h stripped | None => path end
       | None => path
       end.

(** ** Addresses *)
Definition strip_suffix_char (c : ascii) (s : string) : option string :=
  match rsplit_once c s with Some (h, "") => Some h | _ => None end.
Fixpoint count_char (c : ascii) (s : string) : nat :=
  match s with "" => 0 | String a r => (if Ascii.eqb a c then 1 else 0) + count_char c r end.
Definition parse_u16 (s : string) : option N := parse_uint 65535 s.

Definition parse_bracketed (spec : string) : option (string * N) :=
  rest ← strip_prefix "[" spec;
  let with_port :=
    '(ipv6, port_str) ← split_once "]:" rest;
    port ← parse_u16 port_str;
    Some (ipv6, port) in
  match with_port with
  | Some r => Some r
  | None => ipv6 ← strip_suffix_char "]" rest; Some (ipv6, 22%N)
  end.
Definition parse_ssh_host_spec (spec : string) : string * N :=
  match parse_bracketed spec with
  | Some r => r
  | None =>
      if (1 <? count_char ":" spec)%nat then (spec, 22%N)
      else
        match rsplit_once ":" spec with
        | Some (h, p) => match parse_u16 p with Some port => (h, port) | None => (spec, 22%N) end
        | None => (spec, 22%N)
        end
  end.

Section resolve.
Context (url_host : string -> option string) (home config_dir : option string).

Definition extract_url_host (url : string) : option string :=
  raw ← trim <$> url_host url;
  let stripped := default raw (s ← strip_prefix "[" raw; strip_suffix_char "]" s) in
  if is_empty stripped then None else Some stripped.

Definition is_node_entry (e : ClusterStatusEntry) : bool :=
  negb (bool_decide (ce_type e = "cluster")) && negb (is_empty (ce_name e)).
Definition api_local_node_from_status (entries : list ClusterStatusEntry) : option string :=
  let node_entries := List.filter is_node_entry entries in
  match List.find ce_local node_entries with
  | Some local_entry => Some (ce_name local_entry)
  | None =>
      let has_cluster_entry := existsb (fun e => bool_decide (ce_type e = "cluster")) entries in
      match has_cluster_entry, node_entries with
      | false, [e] => Some (ce_name e)
      | _, _ => None
      end
  end.

Definition expand_tilde (path : string) : string := expand_tilde_with_home path home.
Definition key_path_resolved (cfg : SshConfig) : option string := expand_tilde <$> sc_key_path cfg.
Definition known_hosts_path (cfg : SshConfig) : Result AnyErr string :=
  match sc_known_hosts cfg with
  | Some p => Ok (expand_tilde p)
  | None =>
      dirs ← ok_or (bail ("cannot resolve the per-user proxxx config directory for known_hosts; set `known_hosts = "
                          +:+ debug_str "<path>" +:+ "` under [ssh] to a file only you can write")) config_dir;
      Ok (path_join dirs "known_hosts")
  end.
Definition resolve_guest (cfg : SshConfig) (vmid : N) : option ResolvedGuestSsh :=
  target ← sc_guests cfg !! pretty vmid;
  key_path ← match gt_key_path target with Some p => Some (expand_tilde p) | None => key_path_resolved cfg end;
  Some (mkResolvedGuest (gt_host target) (default 22%N (gt_port target)) (default (sc_user cfg) (gt_user target)) key_path).

Definition resolve_explicit_host (cfg : SshConfig) (node : string) : option (string * N) :=
  parse_ssh_host_spec <$> sc_hosts cfg !! node.
Definition resolve_host (cfg : SshConfig) (node : string) (api_url api_local_node : option string) : ResolvedNodeSsh :=
  match resolve_explicit_host cfg node with
  | Some (host, port) => mkResolvedNode host port ExplicitHosts
  | None =>
      let by_name := mkResolvedNode node 22 NodeNameFallback in
      if bool_decide (api_local_node = Some node) then
        match api_url ≫= extract_url_host with
        | Some url_host => mkResolvedNode url_host 22 ApiUrlFallback
        | None => by_name
        end
      else by_name
  end.
Definition resolve_host_with_status (cfg : SshConfig) (node api_url : string) (cluster_status : list ClusterStatusEntry) :
    ResolvedNodeSsh :=
  resolve_host cfg node (Some api_url) (api_local_node_from_status cluster_status).
End resolve.

(** ** The destination of ssh(1) *)
Fixpoint has_white (s : string) : bool :=
  match s with
  | "" => false
  | String a r => bool_decide (is_Some (strip_white s)) || Ascii.eqb a "000" || has_white r
  end.
Definition validate_ssh_destination (user host : string) : Result string unit :=
  if is_empty user then Err "ssh user is empty"
  else if is_empty host then Err "ssh host is empty"
  else if starts_with "-" user then Err ("ssh user starts with '-': " +:+ debug_str user)
  else if starts_with "-" host then Err ("ssh host starts with '-': " +:+ debug_str host)
  else if has_char "@" user then Err ("ssh user contains '@': " +:+ debug_str user)
  else if has_white user then Err ("ssh user contains whitespace/NUL: " +:+ debug_str user)
  else if has_white host then Err ("ssh host contains whitespace/NUL: " +:+ debug_str host)
  else Ok ().

(** ** Theorems *)
Lemma count_char_zero c s : has_char c s = false -> count_char c s = 0%nat.
Proof.
  induction s as [|a s IH]; [done|]. cbn [has_char count_char]. intros [-> H]%orb_false_iff. by rewrite IH.
Qed.
Lemma pretty_char_digit x : (x < 10)%N -> digit_value (pretty_N_char x) = Some x.
Proof.
  intros H. destruct x as [|p]; [done|].
  do 4 (destruct p as [p|p|]; try lia; try reflexivity).
Qed.
Lemma parse_digits_pretty max x s :
  (x <= max)%N -> parse_digits max 0 (pretty_N_go x s) = parse_digits max x s.
Proof.
  revert s. induction (N.lt_wf_0 x) as [x _ IH]. intros s Hx.
  destruct (decide (x = 0%N)) as [->|Hne]; [by rewrite pretty_N_go_0|].
  rewrite pretty_N_go_step by lia. rewrite IH; [|apply N.div_lt; lia|].
  2:{ etrans; [|exact Hx]. apply N.Div0.div_le_upper_bound. lia. }
  cbn [parse_digits]. rewrite pretty_char_digit by (by apply N.mod_lt). cbn [mbind option_bind].
  rewrite <- N.Div0.div_mod. by apply N.leb_le in Hx as ->.
Qed.
Definition is_digit (a : ascii) : bool := byte_in 48 57 a.
Lemma pretty_char_is_digit x : is_digit (pretty_N_char x) = true.
Proof. unfold pretty_N_char. by repeat case_match. Qed.
Lemma pretty_go_digits x s : all_bytes is_digit s = true -> all_bytes is_digit (pretty_N_go x s) = true.
Proof.
  revert s. induction (N.lt_wf_0 x) as [x _ IH]. intros s Hs.
  destruct (decide (x = 0%N)) as [->|Hne]; [by rewrite pretty_N_go_0|].
  rewrite pretty_N_go_step by lia. apply IH; [apply N.div_lt; lia|]. cbn [all_bytes].
  by rewrite pretty_char_is_digit.
Qed.
(** A number in decimal is digits, and reads back. *)
Lemma pretty_N_digits (n : N) : all_bytes is_digit (pretty n) = true.
Proof. unfold pretty, pretty_N. case_decide; [done|]. by apply pretty_go_digits. Qed.
Lemma parse_uint_pretty max (n : N) : (n <= max)%N -> parse_uint max (pretty n) = Some n.
Proof.
  intros Hn. unfold parse_uint. pose proof (pretty_N_digits n) as Hd.
  assert (E : parse_digits max 0 (pretty n) = Some n /\ is_empty (pretty n) = false).
  { unfold pretty, pretty_N. case_decide as H0; [subst; split; [by destruct max|done]|].
    split; [by rewrite parse_digits_pretty|]. destruct (pretty_N_go n "") eqn:E; [|done].
    exfalso. pose proof (parse_digits_pretty max n "" Hn) as Hp. rewrite E in Hp. cbn in Hp. congruence. }
  destruct (pretty n) as [|a s]; [by destruct E|]. destruct E as [E _].
  cbn [all_bytes] in Hd. apply andb_true_iff in Hd as [Ha _].
  assert (Hs : strip_prefix "+" (String a s) = None).
  { cbn [strip_prefix]. destruct (Ascii.eqb_spec "+" a) as [<-|]; done. }
  rewrite Hs. exact E.
Qed.
Lemma digits_free c s : is_digit c = false -> all_bytes is_digit s = true -> has_char c s = false.
Proof.
  intros Hc. induction s as [|a s IH]; [done|]. cbn [all_bytes has_char]. intros [Ha Hs]%andb_true_iff.
  rewrite IH by done. rewrite orb_false_r. destruct (Ascii.eqb_spec a c) as [->|]; [congruence|done].
Qed.

(** ** Addresses read back *)
Lemma count_char_app c a b : count_char c (a +:+ b) = (count_char c a + count_char c b)%nat.
Proof. induction a as [|x a IH]; [done|]. cbn. rewrite IH. lia. Qed.
Lemma not_bracketed h : starts_with "[" h = false -> parse_bracketed h = None.
Proof. unfold parse_bracketed, starts_with. by destruct (strip_prefix "[" h). Qed.
Lemma strip_suffix_app c h : strip_suffix_char c (h +:+ String c "") = Some h.
Proof. unfold strip_suffix_char. by rewrite rsplit_once_app. Qed.
Lemma no_port_bracket h : has_char "]" h = false -> split_once "]:" (h +:+ "]") = None.
Proof.
  induction h as [|a h IH]; [done|]. cbn [has_char]. intros [Ha Hh]%orb_false_iff.
  cbn [String.append split_once strip_prefix]. rewrite Ascii.eqb_sym in Ha. by rewrite Ha, IH.
Qed.

(** A configured SSH address means what it is written to mean: a name or IPv4
    address with or without a port, a bracketed IPv6 address with or without a
    port, and a bare IPv6 address are read as that host with that port, 22
    where none is given. *)
Lemma host_spec_read h port :
  (port <= 65535)%N -> starts_with "[" h = false ->
  (has_char ":" h = false ->
     parse_ssh_host_spec (h +:+ ":" +:+ pretty port) = (h, port) /\ parse_ssh_host_spec h = (h, 22%N))
  /\ (has_char "]" h = false ->
     parse_ssh_host_spec ("[" +:+ h +:+ "]:" +:+ pretty port) = (h, port)
     /\ parse_ssh_host_spec ("[" +:+ h +:+ "]") = (h, 22%N))
  /\ ((1 < count_char ":" h)%nat -> parse_ssh_host_spec h = (h, 22%N)).
Proof.
  intros Hp Hb. pose proof (digits_free ":" (pretty port) eq_refl (pretty_N_digits port)) as Hd.
  unfold parse_ssh_host_spec, parse_u16. rewrite (not_bracketed h Hb). split; [|split].
  - intros Hc. assert (Hb' : starts_with "[" (h +:+ ":" +:+ pretty port) = false).
    { unfold starts_with in *. destruct h as [|a h]; [done|]. cbn [strip_prefix String.append] in *.
      by destruct (Ascii.eqb "[" a). }
    rewrite (not_bracketed _ Hb'), count_char_app. cbn [String.append count_char].
    rewrite (count_char_zero ":" h), (count_char_zero ":" (pretty port)) by done. cbn [Ascii.eqb].
    rewrite rsplit_once_app, parse_uint_pretty by done. by rewrite rsplit_once_none.
  - intros Hc. unfold parse_bracketed. rewrite !strip_prefix_app. cbn [mbind option_bind].
    pose proof (split_once_sep2 "]" ":" h (pretty port)) as Hs. cbn [String.append] in *.
    rewrite Hs by done. cbn [mbind option_bind]. unfold parse_u16. rewrite parse_uint_pretty by done. split; [done|].
    by rewrite no_port_bracket, strip_suffix_app.
  - intros Hc. by apply Nat.ltb_lt in Hc as ->.
Qed.
Lemma host_spec_read_witness :
  parse_ssh_host_spec "[fe80::1]:2222" = ("fe80::1", 2222%N) /\ parse_ssh_host_spec "fe80::1" = ("fe80::1", 22%N).
Proof.
  destruct (host_spec_read "fe80::1" 2222 ltac:(done) eq_refl) as (_ & H2 & H3).
  exact (conj (proj1 (H2 eq_refl)) (H3 ltac:(vm_compute; lia))).
Defined.

(** The node answering the API is taken from its own entry where there is one; a
    cluster without it, or with several nodes, names none. *)
Lemma api_local_node_sound entries n :
  api_local_node_from_status entries = Some n ->
  exists e, e ∈ entries /\ ce_name e = n /\ is_node_entry e = true
    /\ (ce_local e = true \/ List.filter is_node_entry entries = [e] /\ Forall (fun e => ce_type e <> "cluster") entries).
Proof.
  unfold api_local_node_from_status. destruct (List.find ce_local _) as [e|] eqn:E.
  - intros [= <-]. apply List.find_some in E as [Hin Hl]. apply List.filter_In in Hin as [Hin Hn].
    exists e. rewrite list_elem_of_In. auto.
  - destruct (existsb _ entries) eqn:Ec; [done|]. destruct (List.filter is_node_entry entries) as [|e [|]] eqn:Ef; try done.
    intros [= <-]. assert (Hin : List.In e (List.filter is_node_entry entries)) by (rewrite Ef; by left).
    apply List.filter_In in Hin as [Hin Hn]. exists e. rewrite list_elem_of_In. do 3 (split; [done|]). right. split; [done|].
    apply Forall_forall. intros x Hx%list_elem_of_In Hc.
    assert (existsb (fun e => bool_decide (ce_type e = "cluster")) entries = true); [|congruence].
    apply existsb_exists. exists x. split; [done|]. by apply bool_decide_eq_true.
Qed.

(** A destination that passes has neither part empty or starting as an option,
    and its user part has no [@]: the host part may still hold one, and then
    ssh(1) takes the text after it as the host. *)
Lemma validated_destination user host :
  validate_ssh_destination user host = Ok () ->
  user <> "" /\ host <> "" /\ starts_with "-" user = false /\ starts_with "-" host = false
  /\ has_char "@" user = false /\ has_white user = false /\ has_white host = false.
Proof.
  unfold validate_ssh_destination, is_empty. repeat case_match; try done. intros _.
  repeat match goal with H : bool_decide _ = false |- _ => apply bool_decide_eq_false in H end. done.
Qed.
Example at_sign_in_host_passes :
  validate_ssh_destination "root" "10.0.0.1@evil" = Ok ()
  /\ rsplit_once "@" "root@10.0.0.1@evil" = Some ("root@10.0.0.1", "evil").
Proof. vm_compute. split; reflexivity. Qed.
