(* ===== verification/SshPool.v ===== *)
(** * The pool of SSH sessions: ssh/mod.rs

    The pool is generic in how a session is opened, as [session_for_with] is:
    [SessionConnector] and [SessionOps] are the traits of those names as one class,
    over a world [W] ([exec_stream] reports its lines into it).  The pool keeps the sessions by node and the API-local node,
    which is asked for once.  The calls happen in sequence; two callers that open
    the same node at once both connect, and the later one is kept.  The semaphore
    bounds how many run at a time and is not modelled. *)

From S2P Require Import Prelude.
From S2P Require Import ApiError.
From S2P Require Import Utf8.
From S2P Require Import Ha.
From S2P Require Import SshTarget.
From S2P Require Import SshExec.

(** ** Error texts *)
Definition is_name_lookup_error (e : AnyErr) : bool :=
  let msg := to_ascii_lowercase (show_err e) in
  contains "failed to lookup address information" msg
  || contains "nodename nor servname provided" msg
  || contains "name or service not known" msg
  || contains "temporary failure in name resolution" msg
  || contains "no such host is known" msg
  || contains "no address associated with hostname" msg.
Definition enrich_node_connect_error (node : string) (target : ResolvedNodeSsh) (e : AnyErr) : AnyErr :=
  if bool_decide (rn_source target = NodeNameFallback) && is_name_lookup_error e then
    context ("no SSH host configured for node '" +:+ node +:+ "' and name lookup for '" +:+ rn_host target +:+ ":"
             +:+ pretty (rn_port target) +:+ "' failed: add 'hosts = { " +:+ node +:+ " = " +:+ debug_str "<ip>:22"
             +:+ " }' under [profiles.<profile>.ssh]") e
  else e.

(** ** Identity *)
Definition first_label (s : string) : string := default "" (head (split_char "." s)).
Definition debug_code (c : option N) : string :=
  match c with Some n => "Some(" +:+ pretty n +:+ ")" | None => "None" end.
Definition verify_remote_hostname_output (expected_node host : string) (port : N) (res : ExecResult) : Result AnyErr unit :=
  let place := host +:+ ":" +:+ pretty port in
  if negb (exec_ok res) then
    Err (bail ("SSH identity check failed for node '" +:+ expected_node +:+ "' on " +:+ place +:+ " (`hostname` exited "
               +:+ debug_code (exit_code res) +:+ "): " +:+ trim (stderr res)))
  else
    let raw_remote := trim (stdout res) in
    let remote_short := trim (first_label raw_remote) in
    let expected_short := trim (first_label expected_node) in
    if is_empty remote_short
       || (negb (eq_ignore_ascii_case raw_remote expected_node) && negb (eq_ignore_ascii_case remote_short expected_short))
    then Err (bail ("SSH target identity mismatch for node '" +:+ expected_node +:+ "': connected to " +:+ place
                    +:+ " (via profile URL fallback), but remote hostname is '" +:+ raw_remote +:+ "' (expected '"
                    +:+ expected_node +:+ "'). The profile URL may point to a VIP or load balancer; "
                    +:+ "configure an explicit address under [ssh]:" +:+ String newline "" +:+ "hosts = { "
                    +:+ expected_node +:+ " = " +:+ debug_str "<ip>:22" +:+ " }"))
    else Ok ().

(** ** The interface to a session *)
Class SessionConnector (W S : Type) := {
  connect : string -> N -> SM W AnyErr S;
  exec : S -> string -> ExecOptions -> SM W AnyErr ExecResult;
  exec_stream : S -> string -> ExecOptions -> SM W AnyErr (option N);
  idle_for : S -> W -> N;
}.

Record SshPool (W S : Type) := mkPool {
  sessions : gmap string S;
  local_node : option (option string);
  world : W;
  status_calls : nat;
}.
Arguments mkPool {W S} _ _ _ _.
Arguments sessions {W S} _.
Arguments local_node {W S} _.
Arguments world {W S} _.
Arguments status_calls {W S} _.

(** A call into the world of the connector. *)
Definition in_world {W S A} (m : SM W AnyErr A) : SM (SshPool W S) AnyErr A := fun p =>
  let '(r, w') := m (world p) in (r, mkPool (sessions p) (local_node p) w' (status_calls p)).

Definition HOSTNAME_OPTS : ExecOptions := mkExecOptions (Some 10%N) 4096.

Section pool.
Context {W S : Type} {C : SessionConnector W S}.
Context (url_host : string -> option string) (cfg : SshConfig) (api_url : option string).
(** [cluster_status k] answers the [k]-th request; [None] is a pool without a gateway. *)
Context (cluster_status : option (nat -> Result AnyErr (list ClusterStatusEntry))).

Definition get_or_init_local_node : SM (SshPool W S) AnyErr (option string) := fun p =>
  match local_node p with
  | Some l => (Ok l, p)
  | None =>
      let '(l, calls) :=
        match cluster_status with
        | None => (None, status_calls p)
        | Some api =>
            (match api (status_calls p) with Ok entries => api_local_node_from_status entries | Err _ => None end,
             Datatypes.S (status_calls p))
        end in
      (Ok l, mkPool (sessions p) (Some l) (world p) calls)
  end.
Definition resolve_node_target (node : string) : SM (SshPool W S) AnyErr ResolvedNodeSsh :=
  match resolve_explicit_host cfg node with
  | Some (host, port) => mret (mkResolvedNode host port ExplicitHosts)
  | None =>
      l ← get_or_init_local_node;
      mret (resolve_host url_host cfg node api_url l)
  end.

Definition check_fallback_hostname (node : string) (target : ResolvedNodeSsh) (s : S) : SM W AnyErr unit :=
  if bool_decide (rn_source target = ApiUrlFallback) then fun w =>
    match exec s "hostname" HOSTNAME_OPTS w with
    | (Ok id_res, w') => (verify_remote_hostname_output node (rn_host target) (rn_port target) id_res, w')
    | (Err e, w') =>
        (Err (context ("running SSH hostname identity check on " +:+ rn_host target +:+ ":" +:+ pretty (rn_port target)
                       +:+ " for node '" +:+ node +:+ "'") e), w')
    end
  else mret ().

Definition cache (node : string) (s : S) : SM (SshPool W S) AnyErr unit := fun p =>
  (Ok (), mkPool (<[node := s]> (sessions p)) (local_node p) (world p) (status_calls p)).
Definition open_session (node : string) : SM (SshPool W S) AnyErr S :=
  target ← resolve_node_target node;
  session ← in_world (fun w => match connect (rn_host target) (rn_port target) w with
                               | (Ok s, w') => (Ok s, w')
                               | (Err e, w') => (Err (enrich_node_connect_error node target e), w')
                               end);
  in_world (check_fallback_hostname node target session) ;;
  cache node session ;;
  mret session.
Definition session_for (node : string) : SM (SshPool W S) AnyErr S := fun p =>
  match sessions p !! node with
  | Some s => if (idle_for s (world p) <? sc_idle_timeout_secs cfg)%N then (Ok s, p) else open_session node p
  | None => open_session node p
  end.
Definition pool_exec (node command : string) (opts : ExecOptions) : SM (SshPool W S) AnyErr ExecResult :=
  session ← session_for node;
  in_world (exec session command opts).
Definition pool_exec_stream (node command : string) (opts : ExecOptions) : SM (SshPool W S) AnyErr (option N) :=
  session ← session_for node;
  in_world (exec_stream session command opts).
Definition drop_session (node : string) (p : SshPool W S) : SshPool W S :=
  mkPool (delete node (sessions p)) (local_node p) (world p) (status_calls p).
End pool.

(** [SshPool::new] starts empty; [with_local_node] seeds the cell. *)
Definition pool_new {W S} (seed : option (option string)) (w : W) : SshPool W S := mkPool ∅ seed w 0.

(** ** Every command runs where it was meant to *)
(** The name a machine gives for itself stands for the node. *)
Definition names_node (node name : string) : Prop :=
  trim (first_label name) <> ""
  /\ (eq_ignore_ascii_case name node = true
      \/ eq_ignore_ascii_case (trim (first_label name)) (trim (first_label node)) = true).

(** What the pool relies on: a session leads to the address that was dialled,
    hostname prints the name of the machine, and a call runs no command but its
    own. *)
Class Honest {W S} (C : SessionConnector W S) (target : S -> string * N) (machine : S -> string)
    (ran : W -> list (S * string)) : Prop := {
  connect_target h p w s w' : connect h p w = (Ok s, w') -> target s = (h, p);
  connect_ran h p w r w' : connect h p w = (r, w') -> ran w' = ran w;
  hostname_prints s o w res w' :
    exec s "hostname" o w = (Ok res, w') -> exec_ok res = true -> trim (stdout res) = machine s;
  exec_ran s c o w r w' : exec s c o w = (r, w') -> ran w' = ran w \/ ran w' = ran w ++ [(s, c)];
  exec_stream_ran s c o w r w' : exec_stream s c o w = (r, w') -> ran w' = ran w \/ ran w' = ran w ++ [(s, c)];
}.

(** ** The operations of a pool, in sequence *)
Inductive PoolOp := OpExec (node command : string) (opts : ExecOptions) | OpStream (node command : string) (opts : ExecOptions)
  | OpDrop (node : string).
Definition op_command (o : PoolOp) : option (string * string) :=
  match o with OpExec n c _ | OpStream n c _ => Some (n, c) | OpDrop _ => None end.

Section spec.
Context {W S : Type} {C : SessionConnector W S} (target : S -> string * N) (machine : S -> string)
  (ran : W -> list (S * string)) {H : Honest C target machine ran}.
Context (url_host : string -> option string) (cfg : SshConfig) (api_url : option string).
Context (cluster_status : option (nat -> Result AnyErr (list ClusterStatusEntry))).

Definition run_op (o : PoolOp) (p : SshPool W S) : SshPool W S :=
  match o with
  | OpExec n c opts => (pool_exec url_host cfg api_url cluster_status n c opts p).2
  | OpStream n c opts => (pool_exec_stream url_host cfg api_url cluster_status n c opts p).2
  | OpDrop n => drop_session n p
  end.

(** Where a session for [node] may lead: the configured address, else the node's
    own name, else the host of the URL when the machine says it is the node. *)
Definition leads_to (node : string) (s : S) : Prop :=
  match resolve_explicit_host cfg node with
  | Some hp => target s = hp
  | None =>
      target s = (node, 22%N)
      \/ exists url h, api_url = Some url /\ extract_url_host url_host url = Some h
           /\ target s = (h, 22%N) /\ names_node node (machine s)
  end.
Definition sound (p : SshPool W S) : Prop :=
  map_Forall leads_to (sessions p) /\ (status_calls p <= 1)%nat /\ (local_node p = None -> status_calls p = 0%nat).

(** A command that was run is the probe of an identity check, or one of [todo] on a
    session that leads to its node. *)
Definition allowed (todo : list PoolOp) (x : S * string) : Prop :=
  x.2 = "hostname" \/ exists o n, o ∈ todo /\ op_command o = Some (n, x.2) /\ leads_to n x.1.
Definition probes (w w' : W) : Prop := exists l, ran w' = ran w ++ l /\ Forall (fun x => x.2 = "hostname") l.

Lemma probes_refl w : probes w w.
Proof. exists []. by rewrite app_nil_r. Qed.
Lemma probes_trans w1 w2 w3 : probes w1 w2 -> probes w2 w3 -> probes w1 w3.
Proof.
  intros (l1 & E1 & F1) (l2 & E2 & F2). exists (l1 ++ l2). split; [by rewrite E2, E1, app_assoc|by apply Forall_app].
Qed.

Lemma verified_names node h p res :
  verify_remote_hostname_output node h p res = Ok () -> exec_ok res = true /\ names_node node (trim (stdout res)).
Proof.
  unfold verify_remote_hostname_output, names_node. destruct (exec_ok res); [|done]. cbn [negb].
  destruct (is_empty (trim (first_label (trim (stdout res))))) eqn:E; [done|]. cbn [orb].
  apply bool_decide_eq_false in E. intros Hv. split; [done|]. split; [done|]. revert Hv.
  destruct (eq_ignore_ascii_case (trim (stdout res)) node); [by left|].
  destruct (eq_ignore_ascii_case _ (trim (first_label node))); [by right|done].
Qed.
Lemma check_fallback_spec node t s w r w' :
  check_fallback_hostname node t s w = (r, w') ->
  probes w w' /\ (r = Ok () -> rn_source t = ApiUrlFallback -> names_node node (machine s)).
Proof.
  unfold check_fallback_hostname. case_bool_decide as Hs; [|by intros [= <- <-]; split; [apply probes_refl|]].
  destruct (exec s "hostname" HOSTNAME_OPTS w) as [q w1] eqn:E.
  assert (Hp : probes w w1).
  { destruct (exec_ran _ _ _ _ _ _ E) as [E1|E1]; [exists []; by rewrite E1, app_nil_r|]. exists [(s, "hostname")].
    split; [done|]. by repeat constructor. }
  destruct q as [res|e]; intros [= <- <-]; (split; [done|]); [|done]. intros Hv _.
  apply verified_names in Hv as [Ho Hn]. by rewrite (hostname_prints _ _ _ _ _ E Ho) in Hn.
Qed.

Definition counted (p : SshPool W S) : Prop := (status_calls p <= 1)%nat /\ (local_node p = None -> status_calls p = 0%nat).
Definition named (node : string) (t : ResolvedNodeSsh) : Prop :=
  match resolve_explicit_host cfg node with
  | Some (h, pt) => t = mkResolvedNode h pt ExplicitHosts
  | None =>
      t = mkResolvedNode node 22 NodeNameFallback
      \/ exists url h, api_url = Some url /\ extract_url_host url_host url = Some h
           /\ t = mkResolvedNode h 22 ApiUrlFallback
  end.
Lemma resolve_host_named node l : named node (resolve_host url_host cfg node api_url l).
Proof.
  unfold named, resolve_host. destruct (resolve_explicit_host cfg node) as [[h pt]|]; [done|].
  case_bool_decide; [|by left]. destruct api_url as [url|]; [|by left]. cbn [mbind option_bind].
  destruct (extract_url_host url_host url) as [h|] eqn:E; [|by left]. right. eauto.
Qed.
Lemma resolve_node_target_spec node p :
  exists t p', resolve_node_target url_host cfg api_url cluster_status node p = (Ok t, p')
    /\ sessions p' = sessions p /\ world p' = world p /\ (counted p -> counted p') /\ named node t.
Proof.
  unfold resolve_node_target. destruct (resolve_explicit_host cfg node) as [[h pt]|] eqn:E.
  - eexists _, p. split; [done|]. do 3 (split; [done|]). unfold named. by rewrite E.
  - cbv [mbind SM_bind get_or_init_local_node mret SM_ret]. pose proof (fun l => resolve_host_named node l) as Hn.
    destruct (local_node p) as [l|] eqn:El; [by eexists _, p|].
    destruct cluster_status as [api|]; eexists _, _; (split; [done|]); (split; [done|]); (split; [done|]); (split; [|done]);
      intros [H1 H2]; specialize (H2 El); unfold counted; cbn [status_calls local_node]; (split; [lia|done]).
Qed.
Lemma named_leads node t s :
  named node t -> target s = (rn_host t, rn_port t) -> (rn_source t = ApiUrlFallback -> names_node node (machine s)) ->
  leads_to node s.
Proof.
  unfold named, leads_to. destruct (resolve_explicit_host cfg node) as [[h pt]|]; [by intros ->|].
  intros [->|(url & h & Hu & Hh & ->)] Ht Hn; [by left|]. right. exists url, h. auto.
Qed.

(** A session handed out leads to its node; the only commands run on the way are
    the probes. *)
Lemma open_session_spec node p r p' :
  open_session (C := C) url_host cfg api_url cluster_status node p = (r, p') -> sound p ->
  sound p' /\ probes (world p) (world p') /\ (forall s, r = Ok s -> leads_to node s).
Proof.
  intros E [Hs Hc]. unfold open_session in E.
  destruct (resolve_node_target_spec node p) as (t & p1 & E1 & S1 & W1 & C1 & N1).
  cbv [mbind SM_bind] in E. rewrite E1 in E. unfold in_world in E. rewrite W1, S1 in E. specialize (C1 Hc).
  destruct (connect (rn_host t) (rn_port t) (world p)) as [q w1] eqn:Ec.
  pose proof (connect_ran _ _ _ _ _ Ec) as R1.
  assert (P1 : probes (world p) w1) by (exists []; by rewrite R1, app_nil_r).
  destruct q as [s|e]; [|by injection E as <- <-]. cbn [world sessions local_node status_calls] in E.
  destruct (check_fallback_hostname node t s w1) as [q2 w2] eqn:Ef. cbn [world sessions local_node status_calls] in E.
  destruct (check_fallback_spec _ _ _ _ _ _ Ef) as [P2 V2].
  pose proof (probes_trans _ _ _ P1 P2) as P12.
  destruct q2 as [[]|e]; [|by injection E as <- <-]. cbn in E. injection E as <- <-.
  assert (L : leads_to node s).
  { eapply named_leads; [done|by eapply connect_target|auto]. }
  split; [|split; [done|by intros ? [= <-]]]. split; [|done]. by apply map_Forall_insert_2.
Qed.
Lemma session_for_spec node p r p' :
  session_for (C := C) url_host cfg api_url cluster_status node p = (r, p') -> sound p ->
  sound p' /\ probes (world p) (world p') /\ (forall s, r = Ok s -> leads_to node s).
Proof.
  unfold session_for. intros E Hp. destruct (sessions p !! node) as [s|] eqn:Es; [|by eapply open_session_spec].
  destruct (_ <? _)%N; [|by eapply open_session_spec]. injection E as <- <-.
  split; [done|]. split; [apply probes_refl|]. intros ? [= <-]. by apply (proj1 Hp).
Qed.

Lemma probes_allowed todo l : Forall (fun x : S * string => x.2 = "hostname") l -> Forall (allowed todo) l.
Proof. intros F. apply (Forall_impl _ _ _ F). intros x Hx. left. exact Hx. Qed.
#[local] Hint Resolve probes_allowed : core.
Lemma ran_after node c s w w' todo o :
  probes w w' \/ (exists w1, probes w w1 /\ (ran w' = ran w1 \/ ran w' = ran w1 ++ [(s, c)]) /\ leads_to node s) ->
  o ∈ todo -> op_command o = Some (node, c) ->
  exists l, ran w' = ran w ++ l /\ Forall (allowed todo) l.
Proof.
  intros [(l & E & F)|(w1 & (l & E & F) & E2 & L)] Ho Hc; [exists l; auto|].
  destruct E2 as [E2|E2]; [exists l; rewrite E2; auto|].
  exists (l ++ [(s, c)]). rewrite E2, E, app_assoc. split; [done|]. apply Forall_app. split; [auto|].
  apply Forall_singleton. right. by exists o, node.
Qed.
Lemma run_op_spec o todo p :
  o ∈ todo -> sound p ->
  sound (run_op o p) /\ exists l, ran (world (run_op o p)) = ran (world p) ++ l /\ Forall (allowed todo) l.
Proof.
  intros Ho Hp. assert (Hin : forall w' (q : SshPool W S), sound q -> sound (mkPool (sessions q) (local_node q) w' (status_calls q)))
    by done.
  destruct o as [n c opts|n c opts|n]; cbn [run_op].
  - unfold pool_exec. cbv [mbind SM_bind]. destruct (session_for _ _ _ _ _ _) as [r p1] eqn:E.
    destruct (session_for_spec _ _ _ _ E Hp) as (H1 & P1 & L1). destruct r as [s|e].
    + unfold in_world. destruct (exec s c opts (world p1)) as [q w1] eqn:Ee. cbn [snd world]. split; [by apply Hin|].
      eapply ran_after; [right|done|done]. exists (world p1). split; [done|]. split; [by eapply exec_ran|auto].
    + cbn [snd]. split; [done|]. destruct P1 as (l & El & F). exists l. auto.
  - unfold pool_exec_stream. cbv [mbind SM_bind]. destruct (session_for _ _ _ _ _ _) as [r p1] eqn:E.
    destruct (session_for_spec _ _ _ _ E Hp) as (H1 & P1 & L1). destruct r as [s|e].
    + unfold in_world. destruct (exec_stream s c opts (world p1)) as [q w1] eqn:Ee. cbn [snd world]. split; [by apply Hin|].
      eapply ran_after; [right|done|done]. exists (world p1). split; [done|]. split; [by eapply exec_stream_ran|auto].
    + cbn [snd]. split; [done|]. destruct P1 as (l & El & F). exists l. auto.
  - split; [|exists []; by rewrite app_nil_r]. destruct Hp as [Hs Hc]. split; [|done].
    by apply map_Forall_delete.
Qed.
Lemma run_ops_spec ops todo p :
  (forall o, o ∈ ops -> o ∈ todo) -> sound p ->
  let p' := foldl (fun p o => run_op o p) p ops in
  sound p' /\ exists l, ran (world p') = ran (world p) ++ l /\ Forall (allowed todo) l.
Proof.
  revert p. induction ops as [|o ops IH]; intros p Ho Hp; cbn [foldl].
  - split; [done|]. exists []. by rewrite app_nil_r.
  - destruct (run_op_spec o todo p (Ho o ltac:(left)) Hp) as (H1 & l1 & E1 & F1).
    destruct (IH (run_op o p) (fun o' Hi => Ho o' (list_elem_of_further _ _ _ Hi)) H1) as (H2 & l2 & E2 & F2).
    split; [done|]. exists (l1 ++ l2). rewrite E2, E1, app_assoc. split; [done|]. by apply Forall_app.
Qed.

(** C26: Commands run on the machine they name: over any sequence of operations of a
    new pool, every command run over SSH is the identity probe or one that was
    asked for, run on a session that leads to the node it was asked for: to the
    configured address, else to the node's own name, else to the host of the
    API URL and then only where the machine's own host name is that node's.
    The cluster is asked for its status at most once. *)
Theorem commands_reach_their_node ops w :
  ran w = [] ->
  let p := foldl (fun p o => run_op o p) (pool_new None w) ops in
  Forall (allowed ops) (ran (world p)) /\ map_Forall leads_to (sessions p) /\ (status_calls p <= 1)%nat.
Proof.
  intros Hw p.
  assert (H0 : sound (pool_new None w)) by (split; [apply map_Forall_empty|split; [simpl; lia|done]]).
  destruct (run_ops_spec ops ops (pool_new None w) (fun o Ho => Ho) H0) as ((H1 & H2 & _) & l & El & F).
  fold p in H1, H2, El. cbn [world pool_new] in El. rewrite Hw in El. rewrite El. done.
Qed.
End spec.

(** ** A small network *)
(** Machines by address; the world is the log of what ran. *)
Definition dial_table : list (string * N * string) := [("10.0.0.1", 22%N, "pve1.lan"); ("10.0.0.2", 22%N, "pve2")].
Definition machine_at (hp : string * N) : option string :=
  snd <$> List.find (fun e => bool_decide (e.1 = hp)) dial_table.
Definition Lan : Type := list ((string * N * string) * string).
#[export] Instance lan_connector : SessionConnector Lan (string * N * string) := {
  connect h p w := match machine_at (h, p) with Some m => (Ok (h, p, m), w) | None => (Err (bail "connection refused"), w) end;
  exec s c _ w :=
    (Ok (mkExecResult (if bool_decide (c = "hostname") then s.2 else "done") "" (Some 0%N)), w ++ [(s, c)]);
  exec_stream s c _ w := (Ok (Some 0%N), w ++ [(s, c)]);
  idle_for _ _ := 0%N;
}.
#[export] Instance lan_honest : Honest lan_connector fst (fun s => trim s.2) (fun w => w).
Proof.
  split.
  - intros h p w s w'. unfold connect, lan_connector. destruct (machine_at (h, p)); [|done]. by intros [= <- <-].
  - intros h p w r w'. unfold connect, lan_connector. destruct (machine_at (h, p)); by intros [= <- <-].
  - intros s o w res w'. unfold exec, lan_connector. rewrite bool_decide_true by done. by intros [= <- <-].
  - intros s c o w r w'. unfold exec, lan_connector. intros [= <- <-]. by right.
  - intros s c o w r w'. unfold exec_stream, lan_connector. intros [= <- <-]. by right.
Qed.
Definition lan_cfg : SshConfig :=
  mkSshConfig default_ssh_user None {["pve2" := "10.0.0.2"]} None default_strict_host_check default_max_concurrent
    default_idle_timeout default_exec_timeout ∅.
Definition lan_url_host (u : string) : option string := if bool_decide (u = "https://10.0.0.1:8006") then Some "10.0.0.1" else None.
Definition lan_status (k : nat) : Result AnyErr (list ClusterStatusEntry) :=
  Ok [mkClusterStatusEntry "cluster" "lab" false true 2 false; mkClusterStatusEntry "node" "pve1" true false 0 true].
Definition lan_ops : list PoolOp :=
  [OpExec "pve1" "uptime" ExecOptions_default; OpStream "pve2" "pveversion" ExecOptions_default; OpDrop "pve1";
   OpExec "pve1" "zfs list" ExecOptions_default].
Definition lan_run : SshPool Lan (string * N * string) :=
  foldl (fun p o => run_op lan_url_host lan_cfg (Some "https://10.0.0.1:8006") (Some lan_status) o p) (pool_new None []) lan_ops.
Example lan_commands :
  (fun x => (x.1.2, x.2)) <$> world lan_run =
  [("pve1.lan", "hostname"); ("pve1.lan", "uptime"); ("pve2", "pveversion"); ("pve1.lan", "hostname"); ("pve1.lan", "zfs list")].
Proof. vm_compute. reflexivity. Qed.
Lemma commands_reach_their_node_witness :
  Forall (allowed fst (fun s => trim s.2) lan_url_host lan_cfg (Some "https://10.0.0.1:8006") lan_ops) (world lan_run).
Proof.
  destruct (commands_reach_their_node fst (fun s => trim s.2) (fun w => w) lan_url_host lan_cfg
    (Some "https://10.0.0.1:8006") (Some lan_status) lan_ops [] eq_refl) as [F _].
  unfold lan_run. exact F.
Defined.
