(* ===== verification/TlsPin.v ===== *)
(** * Pinned certificates: api/tls_pin.rs

    Fingerprints as text, the constant-time comparison, the verifier of a pinned
    leaf, and the file a first connection leaves.  A digest is its 32 bytes.
    SHA-256 and the decoding of plain hexadecimal are the crates' ([sha256],
    [hex_decode]); the URL is parsed by reqwest ([url_parts]: host and port). *)

From S2P Require Import Prelude.
From S2P Require Import ApiError.
From S2P Require Import Utf8.
From S2P Require Import SshTarget.

(** ** Comparison *)
(** The loop over both digests, folding the differences into one byte. *)
Fixpoint ct_diff (diff : N) (a b : list N) : N :=
  match a, b with
  | x :: a', y :: b' => ct_diff (N.lor diff (N.lxor x y)) a' b'
  | _, _ => diff
  end.
Definition ct_eq_32 (a b : list N) : bool := (ct_diff 0 a b =? 0)%N.

(** ** Fingerprints *)
Definition hex_upper (n : N) : ascii := if (n <? 10)%N then ascii_of_N (48 + n) else ascii_of_N (55 + n).
(** [{b:02X}] *)
Definition byte_02X (b : N) : string := String (hex_upper (N.div b 16)) (String (hex_upper (N.modulo b 16)) "").
Definition format_colon_fingerprint (bytes : list N) : string := join ":" (byte_02X <$> bytes).

Definition hex_value (a : ascii) : option N :=
  let n := N_of_ascii a in
  if byte_in 48 57 a then Some (n - 48)%N
  else if byte_in 65 70 a then Some (n - 55)%N
  else if byte_in 97 102 a then Some (n - 87)%N
  else None.
(** [u8::from_str_radix(part, 16)]: like every integer parser it takes a leading [+]. *)
Fixpoint parse_hex (acc : N) (s : string) : option N :=
  match s with
  | "" => Some acc
  | String a r =>
      d ← hex_value a;
      let acc' := (16 * acc + d)%N in
      if (acc' <=? 255)%N then parse_hex acc' r else None
  end.
Definition u8_from_hex (s : string) : option N :=
  let s := default s (strip_prefix "+" s) in if is_empty s then None else parse_hex 0 s.

Definition fp_key : string := "config key `pbs.fingerprint` is ".
Definition fp_form : string := "(expected SHA-256 format " +:+ debug_str "AB:CD:...:EF" +:+ ")".
Fixpoint parse_segments (raw : string) (idx : nat) (parts : list string) : Result AnyErr (list N) :=
  match parts with
  | [] => Ok []
  | part :: rest =>
      let here := fp_key +:+ debug_str raw +:+ ": segment #" +:+ pretty idx +:+ " (" +:+ debug_str part +:+ ") " in
      if negb (String.length part =? 2)%nat then Err (bail (here +:+ "must be exactly 2 hex digits " +:+ fp_form))
      else
        match u8_from_hex part with
        | None => Err (bail (here +:+ "contains non-hex characters " +:+ fp_form))
        | Some b => bs ← parse_segments raw (S idx) rest; Ok (b :: bs)
        end
  end.

Section pin.
Context (hex_decode : string -> Result string (list N)) (sha256 : string -> list N).

Definition parse_sha256_fingerprint (raw : string) : Result AnyErr (list N) :=
  let trimmed := trim raw in
  if is_empty trimmed then
    Err (bail ("config key `pbs.fingerprint` is empty — expected a SHA-256 fingerprint (32 colon-separated hex byte pairs like "
               +:+ debug_str "AB:CD:...:EF" +:+ " or 64 hex digits), or omit `fingerprint` when not pinning"))
  else if has_char ":" trimmed then
    let parts := split_char ":" trimmed in
    if negb (length parts =? 32)%nat then
      Err (bail (fp_key +:+ debug_str raw +:+ ", which has " +:+ pretty (length parts)
                 +:+ " colon-separated byte(s) instead of 32 " +:+ fp_form))
    else parse_segments raw 0 parts
  else if negb (String.length trimmed =? 64)%nat then
    Err (bail (fp_key +:+ debug_str raw +:+ ", which is " +:+ pretty (String.length trimmed)
               +:+ " character(s) long (expected 32 colon-separated hex byte pairs " +:+ debug_str "AB:CD:...:EF"
               +:+ " or 64 hex digits)"))
  else
    match hex_decode trimmed with
    | Ok bs => Ok bs
    | Err e =>
        Err (bail (fp_key +:+ debug_str raw +:+ ", which is not valid hex (" +:+ e
                   +:+ "); expected 32 colon-separated hex byte pairs " +:+ debug_str "AB:CD:...:EF" +:+ " or 64 hex digits"))
    end.

(** ** The verifier *)
Inductive PinSource := TofuFile (cluster_url path : string) | ConfigFingerprint.
Record PinnedLeafVerifier := mkPinned { expected_sha256 : list N; pin_source : PinSource }.
Definition from_der (cert_der cluster_url path : string) : PinnedLeafVerifier :=
  mkPinned (sha256 cert_der) (TofuFile cluster_url path).
Definition from_fingerprint (d : list N) : PinnedLeafVerifier := mkPinned d ConfigFingerprint.
(** The answer; the text of a refusal only reports the two digests. *)
Definition verify_server_cert (v : PinnedLeafVerifier) (end_entity : string) : bool :=
  ct_eq_32 (sha256 end_entity) (expected_sha256 v).

(** ** The file of a first connection *)
Definition safe_host_char (a : ascii) : bool :=
  byte_in 48 57 a || byte_in 65 90 a || byte_in 97 122 a || Ascii.eqb a "." || Ascii.eqb a "-".
Fixpoint safe_host (h : string) : string :=
  match h with "" => "" | String a r => String (if safe_host_char a then a else "_"%char) (safe_host r) end.
Definition pinned_cert_path_in (url_parts : string -> Result AnyErr (option string * option N)) (cluster_url base_dir : string) :
    Result AnyErr string :=
  match url_parts cluster_url with
  | Err e => Err (context "invalid URL for cert pin path" e)
  | Ok (None, _) => Err (bail ("URL has no host: " +:+ cluster_url))
  | Ok (Some host, port) => Ok (path_join base_dir (safe_host host +:+ "_" +:+ pretty (default 443%N port) +:+ ".der"))
  end.
End pin.

(** ** Theorems *)
Definition is_digest (d : list N) : Prop := length d = 32%nat /\ Forall (fun b => (b < 256)%N) d.

Lemma ct_diff_zero a b diff : length a = length b -> ct_diff diff a b = 0%N <-> diff = 0%N /\ a = b.
Proof.
  revert b diff. induction a as [|x a IH]; intros [|y b] diff H; try done; cbn [ct_diff].
  - naive_solver.
  - injection H as H. rewrite (IH b _ H), N.lor_eq_0_iff, N.lxor_eq_0_iff. naive_solver.
Qed.
Lemma ct_eq_spec a b : length a = length b -> ct_eq_32 a b = true <-> a = b.
Proof. intros H. unfold ct_eq_32. rewrite N.eqb_eq, ct_diff_zero by done. naive_solver. Qed.

Definition hex_back (b : N) : bool :=
  match u8_from_hex (byte_02X b) with Some x => (x =? b)%N | None => false end
  && negb (has_char ":" (byte_02X b)) && all_bytes (byte_in 48 70) (byte_02X b).
Lemma byte_02X_back b :
  (b < 256)%N -> u8_from_hex (byte_02X b) = Some b /\ has_char ":" (byte_02X b) = false.
Proof.
  intros Hb.
  assert (H : forallb hex_back (N.of_nat <$> seq 0 256) = true) by (vm_compute; reflexivity).
  rewrite forallb_forall in H. specialize (H b).
  assert (Hin : List.In b (N.of_nat <$> seq 0 256)).
  { apply list_elem_of_In, list_elem_of_fmap. exists (N.to_nat b). split; [lia|]. apply elem_of_seq. lia. }
  specialize (H Hin). unfold hex_back in H. rewrite !andb_true_iff, negb_true_iff in H. destruct H as [[H1 H2] _].
  destruct (u8_from_hex (byte_02X b)); [|done]. apply N.eqb_eq in H1 as ->. done.
Qed.
Lemma parse_segments_back raw i d :
  Forall (fun b => (b < 256)%N) d -> parse_segments raw i (byte_02X <$> d) = Ok d.
Proof.
  revert i. induction d as [|b d IH]; intros i H; [done|]. apply Forall_cons in H as [Hb Hd].
  rewrite fmap_cons. cbn [parse_segments]. change (String.length (byte_02X b)) with 2%nat. cbn [Nat.eqb negb].
  destruct (byte_02X_back b Hb) as [-> _]. by rewrite IH.
Qed.

Lemma join_last sep l x : join sep (l ++ [x]) = match l with [] => x | _ => join sep l +:+ sep +:+ x end.
Proof.
  induction l as [|y l IH]; [done|]. cbn [app]. rewrite join_cons_ne by (by destruct l). rewrite IH.
  destruct l as [|z l]; [done|]. rewrite (join_cons_ne sep y) by done. by rewrite !string_app_assoc.
Qed.
Definition hex_char (a : ascii) : bool := visible a && negb (Ascii.eqb a ":").
Lemma byte_02X_ends b : (b < 256)%N -> exists x y, byte_02X b = String x (String y "") /\ visible x = true /\ visible y = true.
Proof.
  intros Hb. unfold byte_02X. eexists _, _. split; [done|].
  assert (H : forall n, (n < 16)%N -> visible (hex_upper n) = true).
  { intros n Hn. assert (Hf : forallb (fun n => visible (hex_upper n)) (N.of_nat <$> seq 0 16) = true) by (vm_compute; reflexivity).
    rewrite forallb_forall in Hf. apply Hf, list_elem_of_In, list_elem_of_fmap. exists (N.to_nat n).
    split; [lia|]. apply elem_of_seq. lia. }
  split; apply H; [apply N.Div0.div_lt_upper_bound; lia|by apply N.mod_lt].
Qed.
Lemma format_trim d : d <> [] -> Forall (fun b => (b < 256)%N) d -> trim (format_colon_fingerprint d) = format_colon_fingerprint d
  /\ is_empty (format_colon_fingerprint d) = false.
Proof.
  intros Hne Hd. unfold format_colon_fingerprint.
  assert (Hfirst : exists a r, join ":" (byte_02X <$> d) = String a r /\ visible a = true).
  { destruct d as [|b d]; [done|]. apply Forall_cons in Hd as [Hb _]. destruct (byte_02X_ends b Hb) as (x & y & E & Hx & _).
    rewrite fmap_cons, E, join_head_cons. eauto. }
  assert (Hlast : exists v, last_byte (join ":" (byte_02X <$> d)) = Some v /\ visible v = true).
  { destruct d as [|b d] using rev_ind; [done|]. apply Forall_app in Hd as [_ Hd]. apply Forall_cons in Hd as [Hb _].
    destruct (byte_02X_ends b Hb) as (x & y & E & _ & Hy). rewrite fmap_app. cbn [fmap list_fmap]. rewrite E, join_last.
    exists y. split; [|done]. destruct (byte_02X <$> d); [done|]. by rewrite !last_byte_app. }
  destruct Hfirst as (a & r & E & Ha), Hlast as (v & Hl & Hv). rewrite E in *. split; [by apply (trim_id _ _ v)|done].
Qed.

(** C33: A configured fingerprint pins exactly one certificate digest: what is
    printed for a digest is read back as that digest, and the verifier built
    from it accepts a certificate exactly when its SHA-256 is that digest, the
    branch-free comparison deciding equality. *)
Theorem fingerprint_pins hex_decode sha256 d :
  is_digest d -> (forall cert, length (sha256 cert) = 32%nat) ->
  parse_sha256_fingerprint hex_decode (format_colon_fingerprint d) = Ok d
  /\ forall cert, verify_server_cert sha256 (from_fingerprint d) cert = true <-> sha256 cert = d.
Proof.
  intros [Hl Hb] Hs. split.
  - unfold parse_sha256_fingerprint. assert (Hne : d <> []) by (by destruct d).
    destruct (format_trim d Hne Hb) as [-> ->].
    assert (Hparts : split_char ":" (format_colon_fingerprint d) = byte_02X <$> d).
    { apply split_char_join; [by destruct d|]. apply Forall_fmap. eapply Forall_impl; [exact Hb|].
      intros b Hlt. by apply byte_02X_back. }
    assert (Hc : has_char ":" (format_colon_fingerprint d) = true).
    { destruct (has_char ":" (format_colon_fingerprint d)) eqn:E; [done|].
      apply split_char_none in E. rewrite Hparts in E. apply (f_equal length) in E. rewrite length_fmap, Hl in E. done. }
    rewrite Hc, Hparts, length_fmap, Hl. cbn [Nat.eqb negb]. by apply parse_segments_back.
  - intros cert. unfold verify_server_cert, from_fingerprint. cbn [expected_sha256]. apply ct_eq_spec. by rewrite Hs, Hl.
Qed.
Lemma fingerprint_pins_witness :
  parse_sha256_fingerprint (fun _ => Err "no") (format_colon_fingerprint (repeat 171%N 32)) = Ok (repeat 171%N 32).
Proof.
  apply (fingerprint_pins (fun _ => Err "no") (fun _ => repeat 171%N 32)).
  - split; [reflexivity|]. repeat constructor.
  - reflexivity.
Defined.
(** A sign is taken for a hexadecimal digit. *)
Example plus_sign_accepted : u8_from_hex "+A" = Some 10%N.
Proof. reflexivity. Qed.
