(* ===== verification/Config.v ===== *)
(** * Loading a profile: config/mod.rs

    [toml::Value] is [Value] (its dates, which no key takes, left out); tables
    list their keys in order.  The text is parsed by the toml crate, which is the
    parameter [toml_from_str].  The [Deserialize] of each struct follows its
    attributes.  Loading also logs warnings, which are not modelled. *)

From S2P Require Import Prelude.
From S2P Require Import Json.
From S2P Require Import ApiError.
From S2P Require Import HitlCallback.
From S2P Require Import Alerts.
From S2P Require Import SshSession.
From S2P Require Import SshTarget.
From S2P Require Import TlsPin.

(** ** The structs *)
Record TelegramConfig := mkTelegramConfig {
  tc_bot_token : option string; tc_bot_token_file : option string; tc_chat_id : string;
  tc_allowed_approvers : option (list Z); tc_profile_name : option string }.
Record PbsConfig := mkPbsConfig {
  pb_url : string; pb_user : string; pb_token_id : string; pb_token_secret : option string;
  pb_token_secret_file : option string; pb_verify_tls : bool; pb_fingerprint : option string;
  pb_rate_limit : option N; pb_profile_name : option string }.
Record ReconcileConfig := mkReconcileConfig {
  rc_source : string; rc_path : string; rc_interval_secs : N; rc_auto_converge : bool; rc_converge_prune : bool;
  rc_allowed_families : option (list string); rc_max_unmanned_changes : option N }.
Record ProfileConfig := mkProfileConfig {
  pf_url : string; pf_user : string; pf_auth : string; pf_token_id : option string;
  pf_token_secret : option string; pf_token_secret_file : option string; pf_password : option string;
  pf_verify_tls : bool; pf_tls_pin_mode : option string; pf_read_only : bool; pf_rate_limit : option N;
  pf_policies : option (list Policy); pf_telegram : option TelegramConfig; pf_ssh : option SshConfig;
  pf_pbs : option PbsConfig; pf_alerts : option (list AlertRuleConfig); pf_mcp_token : option string;
  pf_reconcile : option ReconcileConfig; pf_profile_name : option string }.

Definition default_auth : string := "token".
Definition default_verify_tls : bool := true.
Definition default_verify_tls_pbs : bool := true.
Definition default_reconcile_path : string := "state.toml".
Definition default_reconcile_interval : N := 300.
Definition default_for_secs : N := 60.
Definition default_storage_threshold : N := 90.
Definition default_severity : string := "warning".
Definition default_dedup_secs : N := 300.

(** ** Their [Deserialize] *)
Definition de_req {A} (k : string) (f : Value -> Result string A) (m : list (string * Value)) : Result string A :=
  match jget k m with Some v => f v | None => Err ("missing field `" +:+ k +:+ "`") end.
Definition de_opt {A} (k : string) (f : Value -> Result string A) (m : list (string * Value)) : Result string (option A) :=
  de_field k None (de_as_opt f) m.
Definition de_uint (max : Z) (v : Value) : Result string N :=
  match v with
  | JNumber z => if bool_decide (0 <= z <= max)%Z then Ok (Z.to_N z) else Err "invalid value: integer out of range"
  | _ => Err "invalid type: expected an integer"
  end.
Definition de_u64 : Value -> Result string N := de_uint i64_max.
Definition de_u16 : Value -> Result string N := de_uint 65535.
Definition de_u8 : Value -> Result string N := de_uint 255.
Definition de_i64 (v : Value) : Result string Z :=
  match v with JNumber z => Ok z | _ => Err "invalid type: expected an integer" end.
(** A table as a map. *)
Fixpoint de_entries {A} (f : Value -> Result string A) (m : list (string * Value)) : Result string (list (string * A)) :=
  match m with
  | [] => Ok []
  | (k, v) :: rest => a ← f v; r ← de_entries f rest; Ok ((k, a) :: r)
  end.
Definition de_as_map {A} (f : Value -> Result string A) (v : Value) : Result string (gmap string A) :=
  match v with JObject m => l ← de_entries f m; Ok (list_to_map l) | _ => Err "invalid type: expected a map" end.

Definition Policy_from_value : Value -> Result string Policy :=
  de_object ["action"; "target"; "channel"; "require"] (fun m =>
    action ← de_req "action" de_as_str m;
    target ← de_req "target" de_as_str m;
    channel ← de_req "channel" de_as_str m;
    require ← de_req "require" de_u8 m;
    Ok {| po_action := action; po_target := target; po_channel := channel; po_require := require |}).
Definition AlertRuleConfig_from_value : Value -> Result string AlertRuleConfig :=
  de_object ["name"; "when"; "trigger"; "for_secs"; "threshold_percent"; "storage"; "severity"; "route"; "dedup_secs"] (fun m =>
    name ← de_req "name" de_as_str m;
    when ← match jget "when" m, jget "trigger" m with
           | Some _, Some _ => Err "duplicate field `when`"
           | Some v, None | None, Some v => de_as_str v
           | None, None => Err "missing field `when`"
           end;
    for_secs ← de_field "for_secs" default_for_secs de_u64 m;
    threshold_percent ← de_field "threshold_percent" default_storage_threshold de_u8 m;
    storage ← de_field "storage" "" de_as_str m;
    severity ← de_field "severity" default_severity de_as_str m;
    route ← de_req "route" (de_as_list de_as_str) m;
    dedup_secs ← de_field "dedup_secs" default_dedup_secs de_u64 m;
    Ok (mkAlertRuleConfig name when for_secs threshold_percent storage severity route dedup_secs)).
Definition TelegramConfig_from_value : Value -> Result string TelegramConfig :=
  de_object ["bot_token"; "bot_token_file"; "chat_id"; "allowed_approvers"] (fun m =>
    bot_token ← de_opt "bot_token" de_as_str m;
    bot_token_file ← de_opt "bot_token_file" de_as_str m;
    chat_id ← de_req "chat_id" de_as_str m;
    allowed_approvers ← de_opt "allowed_approvers" (de_as_list de_i64) m;
    Ok (mkTelegramConfig bot_token bot_token_file chat_id allowed_approvers None)).
Definition GuestSshTarget_from_value : Value -> Result string GuestSshTarget :=
  de_object ["host"; "port"; "user"; "key_path"] (fun m =>
    host ← de_req "host" de_as_str m;
    port ← de_opt "port" de_u16 m;
    user ← de_opt "user" de_as_str m;
    key_path ← de_opt "key_path" de_as_str m;
    Ok (mkGuestTarget host port user key_path)).
Definition SshConfig_from_value : Value -> Result string SshConfig :=
  de_object ["user"; "key_path"; "hosts"; "known_hosts"; "strict_host_key_checking"; "max_concurrent";
             "idle_timeout_secs"; "exec_timeout_secs"; "guests"] (fun m =>
    user ← de_field "user" default_ssh_user de_as_str m;
    key_path ← de_opt "key_path" de_as_str m;
    hosts ← de_field "hosts" ∅ (de_as_map de_as_str) m;
    known_hosts ← de_opt "known_hosts" de_as_str m;
    strict ← de_field "strict_host_key_checking" default_strict_host_check de_as_str m;
    max_concurrent ← de_field "max_concurrent" default_max_concurrent de_as_u32 m;
    idle ← de_field "idle_timeout_secs" default_idle_timeout de_u64 m;
    exec ← de_field "exec_timeout_secs" default_exec_timeout de_u64 m;
    guests ← de_field "guests" ∅ (de_as_map GuestSshTarget_from_value) m;
    Ok (mkSshConfig user key_path hosts known_hosts strict max_concurrent idle exec guests)).
Definition PbsConfig_from_value : Value -> Result string PbsConfig :=
  de_object ["url"; "user"; "token_id"; "token_secret"; "token_secret_file"; "verify_tls"; "fingerprint"; "rate_limit"] (fun m =>
    url ← de_req "url" de_as_str m;
    user ← de_req "user" de_as_str m;
    token_id ← de_req "token_id" de_as_str m;
    token_secret ← de_opt "token_secret" de_as_str m;
    token_secret_file ← de_opt "token_secret_file" de_as_str m;
    verify_tls ← de_field "verify_tls" default_verify_tls_pbs de_as_bool m;
    fingerprint ← de_opt "fingerprint" de_as_str m;
    rate_limit ← de_opt "rate_limit" de_as_u32 m;
    Ok (mkPbsConfig url user token_id token_secret token_secret_file verify_tls fingerprint rate_limit None)).
Definition ReconcileConfig_from_value : Value -> Result string ReconcileConfig :=
  de_object ["source"; "path"; "interval_secs"; "auto_converge"; "converge_prune"; "allowed_families";
             "max_unmanned_changes"] (fun m =>
    source ← de_req "source" de_as_str m;
    path ← de_field "path" default_reconcile_path de_as_str m;
    interval_secs ← de_field "interval_secs" default_reconcile_interval de_u64 m;
    auto_converge ← de_field "auto_converge" false de_as_bool m;
    converge_prune ← de_field "converge_prune" false de_as_bool m;
    allowed_families ← de_opt "allowed_families" (de_as_list de_as_str) m;
    max_unmanned_changes ← de_opt "max_unmanned_changes" de_as_u32 m;
    Ok (mkReconcileConfig source path interval_secs auto_converge converge_prune allowed_families max_unmanned_changes)).
Definition profile_fields : list string :=
  ["url"; "user"; "auth"; "token_id"; "token_secret"; "token_secret_file"; "password"; "verify_tls"; "tls_pin_mode";
   "read_only"; "rate_limit"; "policies"; "telegram"; "ssh"; "pbs"; "alerts"; "mcp_token"; "reconcile"].
Definition ProfileConfig_from_value : Value -> Result string ProfileConfig :=
  de_object profile_fields (fun m =>
    url ← de_req "url" de_as_str m;
    user ← de_req "user" de_as_str m;
    auth ← de_field "auth" default_auth de_as_str m;
    token_id ← de_opt "token_id" de_as_str m;
    token_secret ← de_opt "token_secret" de_as_str m;
    token_secret_file ← de_opt "token_secret_file" de_as_str m;
    password ← de_opt "password" de_as_str m;
    verify_tls ← de_field "verify_tls" default_verify_tls de_as_bool m;
    tls_pin_mode ← de_opt "tls_pin_mode" de_as_str m;
    read_only ← de_field "read_only" false de_as_bool m;
    rate_limit ← de_opt "rate_limit" de_as_u32 m;
    policies ← de_opt "policies" (de_as_list Policy_from_value) m;
    telegram ← de_opt "telegram" TelegramConfig_from_value m;
    ssh ← de_opt "ssh" SshConfig_from_value m;
    pbs ← de_opt "pbs" PbsConfig_from_value m;
    alerts ← de_opt "alerts" (de_as_list AlertRuleConfig_from_value) m;
    mcp_token ← de_opt "mcp_token" de_as_str m;
    reconcile ← de_opt "reconcile" ReconcileConfig_from_value m;
    Ok (mkProfileConfig url user auth token_id token_secret token_secret_file password verify_tls tls_pin_mode read_only
          rate_limit policies telegram ssh pbs alerts mcp_token reconcile None)).

(** ** Validation *)
Inductive ConfigError :=
  | NotFound (path : string)
  | Io (path source : string)
  | Toml (path source : string)
  | UnknownProfile (profile known : string)
  | NoDefaultProfile (available example : string)
  | IgnoredTopLevelKeys (path keys : string)
  | DefaultsParse (path source : string)
  | ProfileParse (profile : option string) (path source : string)
  | InvalidValue (msg : string)
  | MissingPbsConfig (profile : option string)
  | ProfileMismatch (source_desc declared target : string).
Definition CONFIG_EXIT_CODE : Z := 3.

Definition AUTH_VALUES : list string := ["token"; "password"].
Definition known_pin_mode (mode : string) : bool := is_empty (trim mode) || eq_ignore_ascii_case mode "tofu".
Definition ACCEPTED : list string := ["tofu"; "strict"; "off"; "accept-new"; "yes"; "no"].

Section config.
Context (hex_decode : string -> Result string (list N)).

Definition pinned_verifier (pbs : PbsConfig) : Result AnyErr (option PinnedLeafVerifier) :=
  match pb_fingerprint pbs with
  | None => Ok None
  | Some fp => digest ← parse_sha256_fingerprint hex_decode fp; Ok (Some (from_fingerprint digest))
  end.

Definition validate_enum_like_fields (cfg : ProfileConfig) : Result ConfigError unit :=
  if negb (bool_decide (pf_auth cfg ∈ AUTH_VALUES)) then
    Err (InvalidValue ("config key `auth` is " +:+ debug_str (pf_auth cfg)
           +:+ ", which is not a recognised value. Accepted: " +:+ join " | " AUTH_VALUES
           +:+ ". Note the comparison is case-sensitive."))
  else
    match pf_tls_pin_mode cfg with
    | Some mode =>
        if known_pin_mode mode then Ok ()
        else Err (InvalidValue ("config key `tls_pin_mode` is " +:+ debug_str mode
               +:+ ", which is not a recognised value. Accepted: " +:+ debug_str "tofu"
               +:+ " (case-insensitive), or omit the key entirely for no pinning. Refusing rather than silently running "
               +:+ "unpinned — you set this key because the default trust posture was not enough."))
    | None => Ok ()
    end ;;
    match pf_pbs cfg with
    | Some pbs =>
        match pinned_verifier pbs with Ok _ => Ok () | Err e => Err (InvalidValue (default "" (head (err_chain e)))) end
    | None => Ok ()
    end ;;
    match pf_ssh cfg with
    | Some ssh =>
        match HostKeyPolicy_parse (sc_strict_host_key_checking ssh) with
        | Some _ => Ok ()
        | None => Err (InvalidValue ("config key `ssh.strict_host_key_checking` is "
                    +:+ debug_str (sc_strict_host_key_checking ssh) +:+ ", which is not a recognised value. Accepted: "
                    +:+ join " | " ACCEPTED +:+ " (case-insensitive). Refusing rather than guessing a host-key trust policy (#375)."))
        end
    | None => Ok ()
    end.

(** ** The [defaults] table *)
Definition TOP_LEVEL_SECRET_KEYS : list string := ["token_secret"; "token_secret_file"; "password"; "mcp_token"].
Definition PBS_SECRET_KEYS : list string := ["token_secret"; "token_secret_file"].
Definition TELEGRAM_SECRET_KEYS : list string := ["bot_token"; "bot_token_file"].

(** The schemas: every key optional, none unknown; what the checks below read. *)
Definition check_opt {A} (k : string) (f : Value -> Result string A) (m : list (string * Value)) : Result string unit :=
  _ ← de_opt k f m; Ok ().
Definition DefaultsTelegramSchema : Value -> Result string unit :=
  de_object ["chat_id"; "allowed_approvers"] (fun m =>
    check_opt "chat_id" de_as_str m ;; check_opt "allowed_approvers" (de_as_list de_i64) m).
Definition DefaultsPbsSchema : Value -> Result string (option string) :=
  de_object ["url"; "user"; "token_id"; "verify_tls"; "fingerprint"; "rate_limit"] (fun m =>
    check_opt "url" de_as_str m ;; check_opt "user" de_as_str m ;; check_opt "token_id" de_as_str m ;;
    check_opt "verify_tls" de_as_bool m ;;
    fingerprint ← de_opt "fingerprint" de_as_str m;
    check_opt "rate_limit" de_as_u32 m ;;
    Ok fingerprint).
Definition DefaultsReconcileSchema : Value -> Result string unit :=
  de_object ["source"; "path"; "interval_secs"; "auto_converge"; "converge_prune"; "allowed_families";
             "max_unmanned_changes"] (fun m =>
    check_opt "source" de_as_str m ;; check_opt "path" de_as_str m ;; check_opt "interval_secs" de_u64 m ;;
    check_opt "auto_converge" de_as_bool m ;; check_opt "converge_prune" de_as_bool m ;;
    check_opt "allowed_families" (de_as_list de_as_str) m ;; check_opt "max_unmanned_changes" de_as_u32 m).
Record DefaultsConfigSchema := mkDefaults {
  df_auth : option string; df_tls_pin_mode : option string; df_pbs_fingerprint : option (option string) }.
Definition defaults_fields : list string :=
  ["user"; "auth"; "token_id"; "verify_tls"; "tls_pin_mode"; "read_only"; "rate_limit"; "policies"; "telegram"; "ssh";
   "pbs"; "alerts"; "reconcile"].
Definition DefaultsConfigSchema_from_value : Value -> Result string DefaultsConfigSchema :=
  de_object defaults_fields (fun m =>
    check_opt "user" de_as_str m ;;
    auth ← de_opt "auth" de_as_str m;
    check_opt "token_id" de_as_str m ;;
    check_opt "verify_tls" de_as_bool m ;;
    tls_pin_mode ← de_opt "tls_pin_mode" de_as_str m;
    check_opt "read_only" de_as_bool m ;;
    check_opt "rate_limit" de_as_u32 m ;;
    check_opt "policies" (de_as_list Policy_from_value) m ;;
    check_opt "telegram" DefaultsTelegramSchema m ;;
    check_opt "ssh" SshConfig_from_value m ;;
    fingerprint ← de_opt "pbs" DefaultsPbsSchema m;
    check_opt "alerts" (de_as_list AlertRuleConfig_from_value) m ;;
    check_opt "reconcile" DefaultsReconcileSchema m ;;
    Ok (mkDefaults auth tls_pin_mode fingerprint)).

Definition has_key (k : string) (m : list (string * Value)) : bool := bool_decide (is_Some (jget k m)).
(** [table.get(k).and_then(as_table)] *)
Definition sub_table (k : string) (m : list (string * Value)) : list (string * Value) :=
  match jget k m with Some (JObject t) => t | _ => [] end.
Definition forbidden (refusal : string -> string) (keys : list string) (m : list (string * Value)) : Result ConfigError unit :=
  match List.find (fun k => has_key k m) keys with
  | Some k => Err (InvalidValue (refusal k))
  | None => Ok ()
  end.
Definition top_refusal (config_path k : string) : string :=
  "secret key `" +:+ k +:+ "` is not allowed in `[defaults]` (" +:+ config_path
  +:+ "): credentials must be configured per-profile under `[profiles.<name>]`, via `PROXXX_*` environment variables, "
  +:+ "or in the OS keychain so one secret is not silently shared across every node".
Definition pbs_refusal (config_path k : string) : string :=
  "secret key `pbs." +:+ k +:+ "` is not allowed in `[defaults]` (" +:+ config_path
  +:+ "): credentials must be configured per-profile under `[profiles.<name>.pbs]`, via `PROXXX_PBS_TOKEN_SECRET`, "
  +:+ "or in the OS keychain".
Definition telegram_refusal (config_path k : string) : string :=
  "secret key `telegram." +:+ k +:+ "` is not allowed in `[defaults]` (" +:+ config_path
  +:+ "): credentials must be configured per-profile under `[profiles.<name>.telegram]`, via `PROXXX_TELEGRAM_BOT_TOKEN`, "
  +:+ "or in the OS keychain".
Definition validate_defaults_value (defaults_val : Value) (config_path : string) : Result ConfigError (list (string * Value)) :=
  match defaults_val with
  | JObject table =>
      (if has_key "url" table then
         Err (InvalidValue ("`url` is not allowed in `[defaults]` (" +:+ config_path
                +:+ "): each profile under `[profiles.<name>]` must declare its own cluster `url`"))
       else Ok ()) ;;
      forbidden (top_refusal config_path) TOP_LEVEL_SECRET_KEYS table ;;
      forbidden (pbs_refusal config_path) PBS_SECRET_KEYS (sub_table "pbs" table) ;;
      forbidden (telegram_refusal config_path) TELEGRAM_SECRET_KEYS (sub_table "telegram" table) ;;
      match DefaultsConfigSchema_from_value defaults_val with
      | Err source => Err (DefaultsParse config_path source)
      | Ok parsed =>
          match df_auth parsed with
          | Some auth => if bool_decide (auth ∈ AUTH_VALUES) then Ok ()
                         else Err (InvalidValue ("`[defaults]` key `auth` is " +:+ debug_str auth
                                +:+ ", which is not a recognised value. Accepted: " +:+ join " | " AUTH_VALUES
                                +:+ ". Note the comparison is case-sensitive."))
          | None => Ok ()
          end ;;
          match df_tls_pin_mode parsed with
          | Some mode => if known_pin_mode mode then Ok ()
                         else Err (InvalidValue ("`[defaults]` key `tls_pin_mode` is " +:+ debug_str mode
                                +:+ ", which is not a recognised value. Accepted: " +:+ debug_str "tofu"
                                +:+ " (case-insensitive), or omit the key entirely for no pinning."))
          | None => Ok ()
          end ;;
          match df_pbs_fingerprint parsed with
          | Some (Some fp) =>
              if is_empty (trim fp) then Ok ()
              else match parse_sha256_fingerprint hex_decode fp with
                   | Ok _ => Ok ()
                   | Err e => Err (InvalidValue ("invalid `[defaults.pbs]` fingerprint " +:+ debug_str fp +:+ ": "
                                     +:+ default "" (head (err_chain e))))
                   end
          | _ => Ok ()
          end ;;
          Ok table
      end
  | _ => Err (InvalidValue ("config key `defaults` in " +:+ config_path
                +:+ " must be a `[defaults]` table, not a scalar or array"))
  end.

(** ** Merging and choosing a profile *)
Fixpoint set_key (k : string) (v : Value) (m : list (string * Value)) : list (string * Value) :=
  match m with
  | [] => [(k, v)]
  | (k', v') :: rest => if bool_decide (k = k') then (k, v) :: rest else (k', v') :: set_key k v rest
  end.
Fixpoint fill_missing (defaults profile : list (string * Value)) : list (string * Value) :=
  match defaults with
  | [] => profile
  | (k, v) :: rest => fill_missing rest (if has_key k profile then profile else set_key k v profile)
  end.
Fixpoint merge_defaults_into_profile (defaults profile : list (string * Value)) : list (string * Value) :=
  match defaults with
  | [] => profile
  | (key, default_val) :: rest =>
      merge_defaults_into_profile rest
        (match jget key profile with
         | None => set_key key default_val profile
         | Some (JObject profile_subtable) =>
             match default_val with
             | JObject default_subtable => set_key key (JObject (fill_missing default_subtable profile_subtable)) profile
             | _ => profile
             end
         | Some _ => profile
         end)
  end.

Definition profile_names (raw : Value) : list string :=
  match vget "profiles" raw with Some (JObject t) => sort_unstable String.le (fst <$> t) | _ => [] end.

Definition PROFILE_ONLY_TOP_LEVEL_KEYS : list string := ["default"; "profiles"; "defaults"].
Definition ignored_keys (m : list (string * Value)) : list string :=
  List.filter (fun k => negb (bool_decide (k ∈ PROFILE_ONLY_TOP_LEVEL_KEYS))) (fst <$> m).
Definition reject_ignored_top_level_keys (raw : Value) (config_path : string) : Result ConfigError unit :=
  match vget "url" raw, raw with
  | Some _, _ => Ok ()
  | None, JObject table =>
      match ignored_keys table with
      | [] => Ok ()
      | ignored => Err (IgnoredTopLevelKeys config_path (join ", " ((fun k => "`" +:+ k +:+ "`") <$> ignored)))
      end
  | None, _ => Ok ()
  end.

Definition effective_profile (raw : Value) (profile_name : option string) : option string :=
  match profile_name with
  | Some n => Some n
  | None =>
      match vget "default" raw ≫= as_str with
      | Some n => Some n
      | None =>
          match vget "url" raw with
          | Some _ => None
          | None => match profile_names raw with [n] => Some n | _ => None end
          end
      end
  end.

Definition remove_key (k : string) (m : list (string * Value)) : list (string * Value) :=
  List.filter (fun kv => negb (bool_decide (kv.1 = k))) m.
Definition profile_value (raw : Value) (config_path : string) (defaults_table : option (list (string * Value)))
    (effective : option string) : Result ConfigError Value :=
  match effective with
  | Some name =>
      match vget "profiles" raw ≫= vget name with
      | None =>
          let known := profile_names raw in
          Err (UnknownProfile name (match known with [] => "(none defined)" | _ => join ", " known end))
      | Some pval =>
          let merged :=
            match defaults_table, pval with
            | Some defaults, JObject profile_map => JObject (merge_defaults_into_profile defaults profile_map)
            | _, _ => pval
            end in
          reject_ignored_top_level_keys raw config_path ;;
          Ok merged
      end
  | None =>
      let flat_present := bool_decide (is_Some (vget "url" raw)) || bool_decide (is_Some (vget "user" raw)) in
      match flat_present, profile_names raw with
      | false, n :: ns => Err (NoDefaultProfile (join ", " (n :: ns)) n)
      | _, _ =>
          Ok (match raw with JObject t => JObject (remove_key "defaults" (remove_key "profiles" t)) | v => v end)
      end
  end.

Definition stamp_name (effective : option string) (cfg : ProfileConfig) : ProfileConfig :=
  mkProfileConfig (pf_url cfg) (pf_user cfg) (pf_auth cfg) (pf_token_id cfg) (pf_token_secret cfg) (pf_token_secret_file cfg)
    (pf_password cfg) (pf_verify_tls cfg) (pf_tls_pin_mode cfg) (pf_read_only cfg) (pf_rate_limit cfg) (pf_policies cfg)
    ((fun t => mkTelegramConfig (tc_bot_token t) (tc_bot_token_file t) (tc_chat_id t) (tc_allowed_approvers t) effective)
       <$> pf_telegram cfg)
    (pf_ssh cfg)
    ((fun p => mkPbsConfig (pb_url p) (pb_user p) (pb_token_id p) (pb_token_secret p) (pb_token_secret_file p)
                 (pb_verify_tls p) (pb_fingerprint p) (pb_rate_limit p) effective) <$> pf_pbs cfg)
    (pf_alerts cfg) (pf_mcp_token cfg) (pf_reconcile cfg) effective.

(** The file: missing, not to be read, or its text. *)
Inductive ConfigFile := NoFile | ReadError (e : string) | Text (content : string).
Context (toml_from_str : string -> Result string Value).
Definition load_raw (config_path : string) (f : ConfigFile) : Result ConfigError Value :=
  match f with
  | NoFile => Err (NotFound config_path)
  | ReadError e => Err (Io config_path e)
  | Text content => match toml_from_str content with Ok raw => Ok raw | Err e => Err (Toml config_path e) end
  end.
Definition defaults_of (raw : Value) (config_path : string) : Result ConfigError (option (list (string * Value))) :=
  match vget "defaults" raw with
  | Some defaults_val => t ← validate_defaults_value defaults_val config_path; Ok (Some t)
  | None => Ok None
  end.
Definition load_config_from_path (config_path : string) (f : ConfigFile) (profile_name : option string) :
    Result ConfigError ProfileConfig :=
  raw ← load_raw config_path f;
  defaults_table ← defaults_of raw config_path;
  let effective := effective_profile raw profile_name in
  value ← profile_value raw config_path defaults_table effective;
  match ProfileConfig_from_value value with
  | Err source => Err (ProfileParse effective config_path source)
  | Ok cfg0 =>
      let cfg := stamp_name effective cfg0 in
      validate_enum_like_fields cfg ;;
      Ok cfg
  end.
Definition list_profiles (config_path : string) (f : ConfigFile) : Result ConfigError (list string) :=
  match f with
  | NoFile => Ok []
  | _ => raw ← load_raw config_path f; _ ← defaults_of raw config_path; Ok (profile_names raw)
  end.
End config.

Inductive AuthType := Token | Password.
Definition auth_method (cfg : ProfileConfig) : AuthType := if bool_decide (pf_auth cfg = "password") then Password else Token.
Definition profile_label (cfg : ProfileConfig) : string :=
  match pf_profile_name cfg with Some name => if is_empty name then "default" else name | None => "default" end.

(** * What a loaded profile holds

    Lookups in a merged table, and the two promises of config/mod.rs: a secret or
    an address is never taken from the table all profiles share, and a value that
    would silently change the behaviour is refused when the file is loaded. *)
(** ** Lookups after merging *)
Lemma jget_set_key k k' v m : jget k (set_key k' v m) = if bool_decide (k = k') then Some v else jget k m.
Proof.
  induction m as [|[k1 v1] m IH]; cbn [set_key jget].
  - by case_bool_decide.
  - destruct (bool_decide_reflect (k' = k1)) as [<-|Hne]; cbn [jget].
    + by destruct (bool_decide (k = k')).
    + rewrite IH. destruct (bool_decide_reflect (k = k1)) as [->|]; [|done]. by rewrite bool_decide_eq_false_2.
Qed.
Lemma has_key_spec k m : has_key k m = bool_decide (is_Some (jget k m)).
Proof. done. Qed.

Lemma jget_fill_missing k d p :
  jget k (fill_missing d p) = match jget k p with Some v => Some v | None => jget k d end.
Proof.
  revert p. induction d as [|[k1 v1] d IH]; intros p; cbn [fill_missing jget]; [by destruct (jget k p)|].
  rewrite IH. unfold has_key. case_bool_decide as Hh.
  - destruct (jget k p) eqn:E; [done|]. case_bool_decide as Ek; [|done]. subst k1. by rewrite E in Hh; destruct Hh.
  - rewrite jget_set_key. case_bool_decide as Ek; [subst k1; by destruct (jget k p) eqn:E; [destruct Hh; eauto|]|].
    done.
Qed.

(** The value of a key in the merged table. *)
Definition merged_value (own dflt : option Value) : option Value :=
  match own, dflt with
  | None, _ => dflt
  | Some (JObject ps), Some (JObject ds) => Some (JObject (fill_missing ds ps))
  | Some v, _ => Some v
  end.
Lemma jget_not_key k (d : list (string * Value)) : k ∉ d.*1 -> jget k d = None.
Proof.
  induction d as [|[k1 v1] d IH]; [done|]. rewrite fmap_cons. cbn [fst jget]. rewrite not_elem_of_cons. intros [Hne Hd].
  rewrite bool_decide_eq_false_2 by done. by apply IH.
Qed.
Lemma jget_merge k d p :
  NoDup d.*1 -> jget k (merge_defaults_into_profile d p) = merged_value (jget k p) (jget k d).
Proof.
  revert p. induction d as [|[k1 v1] d IH]; intros p Hd.
  - cbn. by destruct (jget k p) as [[]|].
  - rewrite fmap_cons in Hd. cbn [fst] in Hd. apply NoDup_cons in Hd as [Hn Hd].
    cbn [merge_defaults_into_profile]. rewrite IH by done. cbn [jget].
    destruct (decide (k = k1)) as [->|Hne].
    + rewrite bool_decide_eq_true_2 by done. rewrite (jget_not_key k1 d Hn).
      destruct (jget k1 p) as [[| | | | |ps]|] eqn:E; try (rewrite E; done).
      * destruct v1; rewrite ?jget_set_key, ?bool_decide_eq_true_2 by done; try (rewrite E; done). done.
      * rewrite jget_set_key, bool_decide_eq_true_2 by done. by destruct v1.
    + rewrite bool_decide_eq_false_2 by done. f_equal.
      destruct (jget k1 p) as [[]|]; try done; try (destruct v1; try done);
        by rewrite jget_set_key, bool_decide_eq_false_2 by done.
Qed.

(** ** Reading a struct *)
Lemma de_object_Ok {A} known (f : list (string * Value) -> Result string A) v a :
  de_object known f v = Ok a -> exists m, v = JObject m /\ f m = Ok a.
Proof. unfold de_object. destruct v; try done. destruct (known_fields known m); [|done]. eauto. Qed.

(** An optional string of a table. *)
Definition text_at (k : string) (m : list (string * Value)) : option string := jget k m ≫= as_str.
Lemma de_opt_str k m o : de_opt k de_as_str m = Ok o -> o = text_at k m.
Proof.
  unfold de_opt, de_field, text_at. destruct (jget k m) as [v|]; [|by intros [= <-]].
  unfold de_as_opt. destruct v; cbn; by intros [= <-].
Qed.
Lemma de_req_str k m s : de_req k de_as_str m = Ok s -> text_at k m = Some s.
Proof. unfold de_req, text_at. destruct (jget k m) as [[]|]; cbn; by intros [= <-]. Qed.

(** Membership in a list of names. *)
Ltac listed := by apply (bool_decide_unpack _); vm_compute.

(** Takes apart the reading of a struct, one field at a time. *)
Ltac split_fields H :=
  lazymatch type of H with
  | (_ ≫= _) = Ok _ => let a := fresh "a" in let E := fresh "F" in apply bind_Ok in H as (a & E & H); split_fields H
  | _ => idtac
  end.

Lemma TelegramConfig_texts v t :
  TelegramConfig_from_value v = Ok t ->
  exists m, v = JObject m /\ tc_bot_token t = text_at "bot_token" m /\ tc_bot_token_file t = text_at "bot_token_file" m.
Proof.
  intros (m & -> & H)%de_object_Ok. exists m. split_fields H. injection H as <-. split; [done|].
  split; by apply de_opt_str.
Qed.
Lemma PbsConfig_texts v p :
  PbsConfig_from_value v = Ok p ->
  exists m, v = JObject m /\ pb_token_secret p = text_at "token_secret" m
    /\ pb_token_secret_file p = text_at "token_secret_file" m.
Proof.
  intros (m & -> & H)%de_object_Ok. exists m. split_fields H. injection H as <-. split; [done|].
  split; by apply de_opt_str.
Qed.
Lemma de_opt_Some {A} k (f : Value -> Result string A) m a :
  de_opt k f m = Ok (Some a) -> exists v, jget k m = Some v /\ f v = Ok a.
Proof.
  unfold de_opt, de_field. destruct (jget k m) as [v|]; [|done]. unfold de_as_opt. intros H. exists v. split; [done|].
  destruct v; try done; by apply bind_Ok in H as (x & Hx & [= <-]).
Qed.
Lemma ProfileConfig_texts v cfg :
  ProfileConfig_from_value v = Ok cfg ->
  exists m, v = JObject m /\ text_at "url" m = Some (pf_url cfg)
    /\ pf_token_secret cfg = text_at "token_secret" m /\ pf_token_secret_file cfg = text_at "token_secret_file" m
    /\ pf_password cfg = text_at "password" m /\ pf_mcp_token cfg = text_at "mcp_token" m
    /\ (forall p, pf_pbs cfg = Some p -> exists pv, jget "pbs" m = Some pv /\ PbsConfig_from_value pv = Ok p)
    /\ (forall t, pf_telegram cfg = Some t -> exists tv, jget "telegram" m = Some tv /\ TelegramConfig_from_value tv = Ok t).
Proof.
  intros (m & -> & H)%de_object_Ok. exists m. split_fields H. injection H as <-.
  split; [done|]. split; [by apply de_req_str|]. do 4 (split; [by apply de_opt_str|]).
  cbn [pf_pbs pf_telegram]. split; intros x ->; by apply de_opt_Some.
Qed.

(** ** The shared table *)
Lemma forbidden_Ok msg keys m k : forbidden msg keys m = Ok () -> k ∈ keys -> jget k m = None.
Proof.
  unfold forbidden. destruct (List.find _ keys) as [x|] eqn:E; [done|]. intros _ Hk.
  pose proof (List.find_none _ _ E k (proj1 (list_elem_of_In _ _) Hk)) as H. unfold has_key in H.
  apply bool_decide_eq_false in H. destruct (jget k m); [destruct H; eauto|done].
Qed.
Lemma validated_defaults hex v path t :
  validate_defaults_value hex v path = Ok t ->
  v = JObject t /\ (forall k, k ∈ "url" :: TOP_LEVEL_SECRET_KEYS -> jget k t = None)
  /\ (forall k, k ∈ PBS_SECRET_KEYS -> jget k (sub_table "pbs" t) = None)
  /\ (forall k, k ∈ TELEGRAM_SECRET_KEYS -> jget k (sub_table "telegram" t) = None).
Proof.
  unfold validate_defaults_value. destruct v as [| | | | |table]; try done. intros H.
  destruct (has_key "url" table) eqn:Eu; [done|]. cbn [mbind Result_bind] in H.
  apply bind_Ok in H as ([] & F1 & H). apply bind_Ok in H as ([] & F2 & H). apply bind_Ok in H as ([] & F3 & H).
  destruct (DefaultsConfigSchema_from_value (JObject table)) as [parsed|]; [|done].
  apply bind_Ok in H as ([] & _ & H). apply bind_Ok in H as ([] & _ & H). apply bind_Ok in H as ([] & _ & H).
  injection H as <-. split; [done|]. split.
  - intros k [->|Hk]%elem_of_cons.
    + unfold has_key in Eu. apply bool_decide_eq_false in Eu. destruct (jget "url" table); [destruct Eu; eauto|done].
    + by eapply forbidden_Ok.
  - split; intros k Hk; by eapply forbidden_Ok.
Qed.

(** A key the shared table lacks has the profile's own value, and so has one in a
    table both have. *)
Lemma merged_own k d p : NoDup d.*1 -> jget k d = None -> jget k (merge_defaults_into_profile d p) = jget k p.
Proof. intros Hd Hk. rewrite jget_merge, Hk by done. unfold merged_value. by destruct (jget k p) as [[]|]. Qed.
Lemma merged_own_sub sub k d p m :
  NoDup d.*1 -> jget k (sub_table sub d) = None ->
  jget sub (merge_defaults_into_profile d p) = Some (JObject m) -> jget k m = jget k (sub_table sub p).
Proof.
  intros Hd Hk Hm. rewrite jget_merge in Hm by done. unfold merged_value, sub_table in *.
  destruct (jget sub p) as [[]|]; destruct (jget sub d) as [[]|]; try done; try injection Hm as <-; try done.
  rewrite jget_fill_missing, Hk. by case_match.
Qed.

(** ** A load that succeeds *)
Section load.
Context (hex : string -> Result string (list N)) (toml : string -> Result string Value).

(** No table of a TOML document has a key twice. *)
Definition toml_keys_distinct : Prop :=
  forall text raw d, toml text = Ok raw -> vget "defaults" raw = Some (JObject d) -> NoDup d.*1.

Lemma load_inv path f pn cfg :
  load_config_from_path hex toml path f pn = Ok cfg ->
  exists text raw dt v cfg0, f = Text text /\ toml text = Ok raw /\ defaults_of hex raw path = Ok dt
    /\ profile_value raw path dt (effective_profile raw pn) = Ok v /\ ProfileConfig_from_value v = Ok cfg0
    /\ cfg = stamp_name (effective_profile raw pn) cfg0 /\ validate_enum_like_fields hex cfg = Ok ().
Proof.
  unfold load_config_from_path. intros H. apply bind_Ok in H as (raw & Hr & H). apply bind_Ok in H as (dt & Hd & H).
  apply bind_Ok in H as (v & Hv & H). destruct (ProfileConfig_from_value v) as [cfg0|] eqn:Ec; [|done].
  apply bind_Ok in H as ([] & Hval & [= <-]). unfold load_raw in Hr. destruct f as [|e|text]; try done.
  destruct (toml text) as [raw'|] eqn:Et; [|done]. injection Hr as ->. by exists text, raw, dt, v, cfg0.
Qed.
Lemma profile_value_inv raw path dt name v :
  profile_value raw path dt (Some name) = Ok v ->
  exists pval, (vget "profiles" raw ≫= vget name) = Some pval /\ reject_ignored_top_level_keys raw path = Ok ()
    /\ v = match dt, pval with
           | Some d, JObject p => JObject (merge_defaults_into_profile d p)
           | _, _ => pval
           end.
Proof.
  unfold profile_value. destruct (vget "profiles" raw ≫= vget name) as [pval|]; [|done].
  intros H. apply bind_Ok in H as ([] & Hr & [= <-]). by exists pval.
Qed.

(** What the profile's own table says of an address or secret. *)
Record own_secrets (pm : list (string * Value)) (cfg : ProfileConfig) : Prop := mkOwn {
  own_url : text_at "url" pm = Some (pf_url cfg);
  own_token_secret : pf_token_secret cfg = text_at "token_secret" pm;
  own_token_secret_file : pf_token_secret_file cfg = text_at "token_secret_file" pm;
  own_password : pf_password cfg = text_at "password" pm;
  own_mcp_token : pf_mcp_token cfg = text_at "mcp_token" pm;
  own_pbs p : pf_pbs cfg = Some p ->
    pb_token_secret p = text_at "token_secret" (sub_table "pbs" pm)
    /\ pb_token_secret_file p = text_at "token_secret_file" (sub_table "pbs" pm);
  own_telegram t : pf_telegram cfg = Some t ->
    tc_bot_token t = text_at "bot_token" (sub_table "telegram" pm)
    /\ tc_bot_token_file t = text_at "bot_token_file" (sub_table "telegram" pm);
}.

(** The table a profile is read from agrees with the profile's own on them. *)
Definition agrees (m pm : list (string * Value)) : Prop :=
  (forall k, k ∈ "url" :: TOP_LEVEL_SECRET_KEYS -> jget k m = jget k pm)
  /\ (forall k t, k ∈ PBS_SECRET_KEYS -> jget "pbs" m = Some (JObject t) -> jget k t = jget k (sub_table "pbs" pm))
  /\ (forall k t, k ∈ TELEGRAM_SECRET_KEYS -> jget "telegram" m = Some (JObject t) ->
        jget k t = jget k (sub_table "telegram" pm)).
Lemma agrees_own m pm cfg effective :
  agrees m pm -> ProfileConfig_from_value (JObject m) = Ok cfg -> own_secrets pm (stamp_name effective cfg).
Proof.
  intros (A & P & T) H. apply ProfileConfig_texts in H as (m' & [= <-] & U & S1 & S2 & S3 & S4 & HP & HT).
  unfold text_at in *. rewrite !A in * by listed.
  split; cbn [stamp_name pf_url pf_token_secret pf_token_secret_file pf_password pf_mcp_token pf_pbs pf_telegram]; try done.
  - intros p (p0 & Hp & ->)%fmap_Some. cbn [pb_token_secret pb_token_secret_file].
    destruct (HP p0 Hp) as (pv & Hv & (t & -> & -> & ->)%PbsConfig_texts). unfold text_at.
    by rewrite !(P _ t) by (done || listed).
  - intros t0 (t1 & Ht & ->)%fmap_Some. cbn [tc_bot_token tc_bot_token_file].
    destruct (HT t1 Ht) as (tv & Hv & (t & -> & -> & ->)%TelegramConfig_texts). unfold text_at.
    by rewrite !(T _ t) by (done || listed).
Qed.

Lemma same_agrees m : agrees m m.
Proof. split; [done|]. unfold sub_table. split; intros k t _ ->; done. Qed.

(** C31: A secret or an address belongs to one profile: when a named profile is
    loaded, its URL, token, token file, password, MCP token and the credentials
    of its backup server and Telegram bot are those of its own table (absent
    where that has none), whatever the [defaults] table shared by all profiles
    holds. *)
Theorem secrets_not_inherited path text pn cfg name :
  toml_keys_distinct -> load_config_from_path hex toml path (Text text) pn = Ok cfg -> pf_profile_name cfg = Some name ->
  exists raw pm, toml text = Ok raw /\ (vget "profiles" raw ≫= vget name) = Some (JObject pm) /\ own_secrets pm cfg.
Proof.
  intros Hnd H Hn. apply load_inv in H as (text' & raw & dt & v & cfg0 & [= <-] & Ht & Hd & Hv & Hc & -> & _).
  change (effective_profile raw pn = Some name) in Hn. rewrite Hn in *.
  apply profile_value_inv in Hv as (pval & Hp & _ & Ev). exists raw.
  destruct (ProfileConfig_texts _ _ Hc) as (m & Em & _). subst v.
  unfold defaults_of in Hd. destruct (vget "defaults" raw) as [dv|] eqn:Edv.
  - apply bind_Ok in Hd as (d & Hval & [= <-]). apply validated_defaults in Hval as (-> & D1 & D2 & D3).
    specialize (Hnd _ _ _ Ht Edv). destruct pval as [| | | | |pm]; try done.
    exists pm. split; [done|]. split; [done|]. eapply agrees_own; [|exact Hc]. split; [|split].
    + intros k Hk. apply merged_own; [done|]. by apply D1.
    + intros k t Hk. apply merged_own_sub; [done|]. by apply D2.
    + intros k t Hk. apply merged_own_sub; [done|]. by apply D3.
  - injection Hd as <-. subst pval. exists m. split; [done|]. split; [done|].
    eapply agrees_own; [apply same_agrees|exact Hc].
Qed.

Lemma validated_fields cfg :
  validate_enum_like_fields hex cfg = Ok () ->
  pf_auth cfg ∈ AUTH_VALUES
  /\ (forall mode, pf_tls_pin_mode cfg = Some mode -> known_pin_mode mode = true)
  /\ (forall pbs fp, pf_pbs cfg = Some pbs -> pb_fingerprint pbs = Some fp -> exists d, parse_sha256_fingerprint hex fp = Ok d)
  /\ (forall ssh, pf_ssh cfg = Some ssh ->
        HostKeyPolicy_parse (sc_strict_host_key_checking ssh) = Some (HostKeyPolicy_from_str (sc_strict_host_key_checking ssh))).
Proof.
  unfold validate_enum_like_fields. case_bool_decide as Ha; [|done]. cbn [negb]. intros H.
  apply bind_Ok in H as ([] & H1 & H). apply bind_Ok in H as ([] & H2 & H3). split; [done|]. split; [|split].
  - intros mode E. rewrite E in H1. by destruct (known_pin_mode mode).
  - intros pbs fp E Ef. rewrite E in H2. unfold pinned_verifier in H2. rewrite Ef in H2.
    destruct (parse_sha256_fingerprint hex fp); [eauto|done].
  - intros ssh E. rewrite E in H3. unfold HostKeyPolicy_from_str. by destruct (HostKeyPolicy_parse _).
Qed.
Lemma no_ignored_keys raw path :
  reject_ignored_top_level_keys raw path = Ok () -> vget "url" raw = None ->
  forall t k, raw = JObject t -> k ∈ t.*1 -> k ∈ PROFILE_ONLY_TOP_LEVEL_KEYS.
Proof.
  unfold reject_ignored_top_level_keys. intros H Hu t k -> Hk. rewrite Hu in H.
  destruct (ignored_keys t) eqn:E; [|done]. destruct (decide (k ∈ PROFILE_ONLY_TOP_LEVEL_KEYS)) as [|Hn]; [done|].
  assert (Hin : List.In k (ignored_keys t)); [|by rewrite E in Hin].
  apply List.filter_In. split; [by apply list_elem_of_In|]. by rewrite bool_decide_eq_false_2.
Qed.

(** C32: A profile that loads means what it says.  Every choice among named values
    is one of them, so no misspelling falls back to a default (the host key
    policy, the authentication, the pinning, the fingerprint); the profile, with its
    PBS and Telegram tables, carries the name that was asked for (keychain
    entries are looked up under it), and it is read from a table in which each key has the
    profile's own value, or the [defaults] one where it has none (tables merged
    one level deep); in a file of profiles no other key of the top level is
    left unread. *)
Theorem loaded_profile_meant path text pn cfg :
  toml_keys_distinct -> load_config_from_path hex toml path (Text text) pn = Ok cfg ->
  exists raw, toml text = Ok raw /\ pf_profile_name cfg = effective_profile raw pn
    /\ (forall pbs, pf_pbs cfg = Some pbs -> pb_profile_name pbs = effective_profile raw pn)
    /\ (forall tg, pf_telegram cfg = Some tg -> tc_profile_name tg = effective_profile raw pn)
    /\ pf_auth cfg ∈ AUTH_VALUES
    /\ (forall mode, pf_tls_pin_mode cfg = Some mode -> known_pin_mode mode = true)
    /\ (forall pbs fp, pf_pbs cfg = Some pbs -> pb_fingerprint pbs = Some fp -> exists d, parse_sha256_fingerprint hex fp = Ok d)
    /\ (forall ssh, pf_ssh cfg = Some ssh ->
          HostKeyPolicy_parse (sc_strict_host_key_checking ssh) = Some (HostKeyPolicy_from_str (sc_strict_host_key_checking ssh)))
    /\ (forall name, pf_profile_name cfg = Some name ->
          exists pm m cfg0, (vget "profiles" raw ≫= vget name) = Some (JObject pm)
            /\ ProfileConfig_from_value (JObject m) = Ok cfg0 /\ cfg = stamp_name (Some name) cfg0
            /\ (forall k, jget k m = merged_value (jget k pm) (vget "defaults" raw ≫= vget k))
            /\ (vget "url" raw = None -> forall t k, raw = JObject t -> k ∈ t.*1 -> k ∈ PROFILE_ONLY_TOP_LEVEL_KEYS)).
Proof.
  intros Hnd H. apply load_inv in H as (text' & raw & dt & v & cfg0 & [= <-] & Ht & Hd & Hv & Hc & -> & Hval).
  exists raw. split; [done|]. split; [done|]. apply validated_fields in Hval as (V1 & V2 & V3 & V4).
  split; [by intros pbs (p & _ & ->)%fmap_Some_1|]. split; [by intros tg (t & _ & ->)%fmap_Some_1|].
  do 4 (split; [done|]). intros name Hn. change (effective_profile raw pn = Some name) in Hn. rewrite Hn in *.
  apply profile_value_inv in Hv as (pval & Hp & Hr & Ev).
  destruct (ProfileConfig_texts _ _ Hc) as (m & Em & _). subst v.
  assert (Hi := no_ignored_keys raw path Hr). unfold defaults_of in Hd. destruct (vget "defaults" raw) as [dv|] eqn:Edv.
  - apply bind_Ok in Hd as (d & Hvd & [= <-]). apply validated_defaults in Hvd as (-> & _). destruct pval as [| | | | |pm]; try done.
    injection Em as <-. exists pm, (merge_defaults_into_profile d pm), cfg0. do 3 (split; [done|]). split; [|done].
    intros k. cbn [mbind option_bind vget]. by apply jget_merge, (Hnd _ _ _ Ht Edv).
  - injection Hd as <-. subst pval. exists m, m, cfg0. do 3 (split; [done|]). split; [|done].
    intros k. cbn. unfold merged_value. by destruct (jget k m) as [[]|].
Qed.
End load.

(** ** A concrete file *)
Definition sample_raw : Value := JObject
  [("defaults", JObject [("user", JString "root@pam"); ("ssh", JObject [("user", JString "ops"); ("max_concurrent", JNumber 4)])]);
   ("profiles", JObject
      [("lab", JObject [("url", JString "https://lab:8006"); ("token_secret", JString "s3cret");
                        ("ssh", JObject [("strict_host_key_checking", JString "yes")])])])].
Definition sample_toml (text : string) : Result string Value := if is_empty text then Err "empty" else Ok sample_raw.
Definition no_hex (s : string) : Result string (list N) := Err "no hex".
Definition sample_cfg : Result ConfigError ProfileConfig := load_config_from_path no_hex sample_toml "config.toml" (Text "x") None.
Example sample_loads :
  match sample_cfg with
  | Ok cfg => pf_user cfg = "root@pam" /\ pf_profile_name cfg = Some "lab" /\ pf_token_secret cfg = Some "s3cret"
      /\ (sc_user <$> pf_ssh cfg) = Some "ops" /\ (sc_strict_host_key_checking <$> pf_ssh cfg) = Some "yes"
  | Err _ => False
  end.
Proof. vm_compute. repeat split; reflexivity. Qed.
Lemma sample_keys_distinct : toml_keys_distinct sample_toml.
Proof.
  intros text raw d Ht Hd. unfold sample_toml in Ht. destruct (is_empty text); [done|]. injection Ht as <-.
  injection Hd as <-. apply (bool_decide_unpack _). by vm_compute.
Qed.
Lemma secrets_not_inherited_witness : exists pm cfg, sample_cfg = Ok cfg /\ own_secrets pm cfg.
Proof.
  destruct sample_cfg as [cfg|e] eqn:E; [|vm_compute in E; discriminate E].
  destruct (secrets_not_inherited no_hex sample_toml "config.toml" "x" None cfg "lab" sample_keys_distinct E) as (raw & pm & _ & _ & H).
  - vm_compute in E. injection E as <-. reflexivity.
  - exists pm, cfg. split; [reflexivity|exact H].
Defined.
Lemma loaded_profile_meant_witness : exists cfg, sample_cfg = Ok cfg /\ pf_auth cfg ∈ AUTH_VALUES.
Proof.
  destruct sample_cfg as [cfg|e] eqn:E; [|vm_compute in E; discriminate E].
  destruct (loaded_profile_meant no_hex sample_toml "config.toml" "x" None cfg sample_keys_distinct E) as (raw & _ & _ & _ & _ & H & _).
  exists cfg. split; [reflexivity|exact H].
Defined.
