(* ===== verification/Secrets.v ===== *)
(** * Where a credential comes from: the resolvers of config/mod.rs

    The process sees its environment, the secret files and the keychain through
    [SecretSources]; a file is seen with its permission bits and its text.  The
    keychain is the keyring crate's; a build without one answers nothing. *)

From S2P Require Import Prelude.
From S2P Require Import ApiError.
From S2P Require Import SshTarget.
From S2P Require Import Config.

Inductive EnvVar := NotPresent | NotUnicode | Present (raw : string).
(** A path: nothing there, or its mode (if it can be asked for) and its text. *)
Inductive SecretFile := Absent | Exists (mode : option N) (text : Result string string).
Inductive KeychainEntryOutcome := Found (secret : string) | EntryNotFound | Empty | AccessDenied (msg : string) | EntryError (msg : string).

Record SecretSources := mkSources {
  env_var : string -> EnvVar;
  home_dir : option string;
  file_at : string -> SecretFile;
  keychain_compiled : bool;
  keychain_entry : string -> KeychainEntryOutcome;
  keychain_join : option string;
}.

(** ** Environment *)
Definition ENV_SECRET_MAX_BYTES : N := 64 * 1024.
Definition env_var_secret_checked (e : EnvVar) : Result string string :=
  match e with
  | NotPresent => Err "unset"
  | NotUnicode => Err "invalid UTF-8"
  | Present raw =>
      if (ENV_SECRET_MAX_BYTES <? N.of_nat (String.length raw))%N then Err "exceeds 64 KiB cap"
      else if is_empty raw then Err "empty"
      else Ok raw
  end.

(** ** Files *)
Inductive SecretFileCheck :=
  | Loaded (secret : string)
  | NotConfigured (diagnostic : string)
  | Failed (diagnostic : string) (security_header : option string) (blocks_fallback : bool).

(** [{mode:04o}] of nine bits *)
Definition octal_digit (n : N) : string := String (ascii_of_N (48 + n)) "".
Definition mode_04o (m : N) : string :=
  "0" +:+ octal_digit (N.land (N.shiftr m 6) 7) +:+ octal_digit (N.land (N.shiftr m 3) 7) +:+ octal_digit (N.land m 7).

Definition check_secret_file (src : SecretSources) (field_name : string) (raw_path : option string) : SecretFileCheck :=
  match raw_path with
  | None => NotConfigured (field_name +:+ " (not configured)")
  | Some file_path =>
      let expanded := expand_tilde (home_dir src) file_path in
      let diag what := field_name +:+ " '" +:+ file_path +:+ "' (expanded: '" +:+ expanded +:+ "': " +:+ what +:+ ")" in
      match file_at src expanded with
      | Absent => Failed (diag "missing") None true
      | Exists mode text =>
          let bits := N.land (default 0%N mode) 511 in
          if bool_decide (is_Some mode) && negb (N.land bits 63 =? 0)%N then
            Failed (diag ("bad permissions " +:+ mode_04o bits +:+ " — unsafe permissions, must be 0600 or stricter"))
              (Some ("Security Error: " +:+ field_name +:+ " '" +:+ file_path +:+ "' (" +:+ expanded
                     +:+ ") has unsafe permissions " +:+ mode_04o bits +:+ ". Must be 0600 or stricter.")) true
          else
            match text with
            | Ok content =>
                let trimmed := trim content in
                if is_empty trimmed then Failed (diag "empty") None false else Loaded trimmed
            | Err e => Failed (diag ("read error: " +:+ e)) None true
            end
      end
  end.
Definition read_secret_file_checked (src : SecretSources) (path : string) : Result AnyErr string :=
  match check_secret_file src "token_secret_file" (Some path) with
  | Loaded secret => Ok secret
  | Failed _ (Some sec) _ => Err (bail sec)
  | Failed diagnostic None _ | NotConfigured diagnostic => Err (bail diagnostic)
  end.

(** ** Keychain *)
Definition keyring_candidates (item : string) (profile : option string) : list string :=
  match profile with
  | Some p => if is_empty p then [item] else [p +:+ "/" +:+ item; item]
  | None => [item]
  end.
Definition diagnostic_reason (o : KeychainEntryOutcome) : string :=
  match o with
  | Found _ => "found"
  | EntryNotFound => "not found"
  | Empty => "empty"
  | AccessDenied msg => if is_empty msg then "access denied" else "access denied: " +:+ msg
  | EntryError msg => "error: " +:+ msg
  end.
Inductive KeychainLookupOutcome := KeyFound (secret : string) | Unavailable (summary : string).
Fixpoint query_accounts (entry : string -> KeychainEntryOutcome) (names per_account : list string) : KeychainLookupOutcome :=
  match names with
  | [] => Unavailable ("keychain (service `proxxx`, accounts [" +:+ join ", " per_account +:+ "])")
  | name :: rest =>
      match entry name with
      | Found secret => KeyFound secret
      | outcome => query_accounts entry rest (per_account ++ ["`" +:+ name +:+ "` (" +:+ diagnostic_reason outcome +:+ ")"])
      end
  end.
Definition keyring_query_scoped (src : SecretSources) (item : string) (profile : option string) : KeychainLookupOutcome :=
  let candidates := keyring_candidates item profile in
  let accounts what := "keychain (service `proxxx`, accounts [" +:+ join ", " candidates +:+ "]: " +:+ what +:+ ")" in
  if negb (keychain_compiled src) then Unavailable (accounts "no keychain store in this build")
  else match keychain_join src with
       | Some join_err => Unavailable (accounts ("join error: " +:+ join_err))
       | None => query_accounts (keychain_entry src) candidates []
       end.

(** ** The resolvers *)
Fixpoint number_from (idx : nat) (tried : list string) : list string :=
  match tried with [] => [] | item :: rest => (pretty idx +:+ ". " +:+ item) :: number_from (S idx) rest end.
Definition format_sources_tried_error (headline : string) (security_header : option string) (tried : list string) : AnyErr :=
  let numbered := join "; " (number_from 1 tried) in
  match security_header with
  | Some sec => bail (sec +:+ " " +:+ headline +:+ ". Sources tried in order: " +:+ numbered)
  | None => bail (headline +:+ ". Sources tried in order: " +:+ numbered)
  end.

(** A source answers with a secret, or with the sources tried so far and what to say of it. *)
Definition Step : Type := list string -> string + list string.
Definition given (what : string) (none : string) (o : option string) : Step := fun tried =>
  match o with
  | Some s => if is_empty s then inr (tried ++ [what +:+ " (empty)"]) else inl s
  | None => inr (tried ++ [what +:+ " (" +:+ none +:+ ")"])
  end.
Definition from_env (src : SecretSources) (name : string) : Step := fun tried =>
  match env_var_secret_checked (env_var src name) with
  | Ok val => inl val
  | Err reason => inr (tried ++ ["env var " +:+ name +:+ " (" +:+ reason +:+ ")"])
  end.

Section resolvers.
Context (src : SecretSources).

Definition ignored_keychain (item : string) (profile : option string) (file_key : string) : string :=
  "keychain (service `proxxx`, accounts [" +:+ join ", " (keyring_candidates item profile) +:+ "]: ignored because "
  +:+ file_key +:+ " failed)".

(** The file, and then the keychain, as the two token resolvers end. *)
Definition file_then_keychain (headline file_key item : string) (file profile : option string) (tried : list string) :
    Result AnyErr string :=
  let keychain blocks_fallback tried :=
    match keyring_query_scoped src item profile with
    | KeyFound val =>
        if blocks_fallback : bool
        then Err (format_sources_tried_error headline None (tried ++ [ignored_keychain item profile file_key]))
        else Ok val
    | Unavailable summary => Err (format_sources_tried_error headline None (tried ++ [summary]))
    end in
  match check_secret_file src file_key file with
  | Loaded secret => Ok secret
  | NotConfigured diagnostic => keychain false (tried ++ [diagnostic])
  | Failed diagnostic (Some sec) _ => Err (format_sources_tried_error headline (Some sec) (tried ++ [diagnostic]))
  | Failed diagnostic None blocks => keychain blocks (tried ++ [diagnostic])
  end.

Definition try (s : Step) (k : list string -> Result AnyErr string) (tried : list string) : Result AnyErr string :=
  match s tried with inl secret => Ok secret | inr tried' => k tried' end.

Definition resolve_token_secret (cfg : ProfileConfig) (cli_secret : option string) : Result AnyErr string :=
  try (given "CLI flag --token-secret" "not given" cli_secret)
    (try (from_env src "PROXXX_TOKEN_SECRET")
      (try (given "inline token_secret" "absent" (pf_token_secret cfg))
        (file_then_keychain "Token secret not found" "token_secret_file" "token_secret"
           (pf_token_secret_file cfg) (pf_profile_name cfg)))) [].
Definition resolve_pbs_token_secret (pbs : PbsConfig) (cli_secret : option string) : Result AnyErr string :=
  try (given "CLI flag --token-secret, `proxxx pbs` commands only" "not given" cli_secret)
    (try (from_env src "PROXXX_PBS_TOKEN_SECRET")
      (try (given "inline pbs.token_secret" "absent" (pb_token_secret pbs))
        (file_then_keychain "PBS token secret not found" "pbs.token_secret_file" "pbs_token_secret"
           (pb_token_secret_file pbs) (pb_profile_name pbs)))) [].
Definition resolve_password (cfg : ProfileConfig) : Result AnyErr string :=
  try (from_env src "PROXXX_PASSWORD")
    (try (given "inline password" "absent" (pf_password cfg))
      (fun tried =>
         match keyring_query_scoped src "password" (pf_profile_name cfg) with
         | KeyFound val => Ok val
         | Unavailable summary => Err (format_sources_tried_error "Password not found" None (tried ++ [summary]))
         end)) [].
Definition resolve_bot_token (tg : TelegramConfig) : Result AnyErr string :=
  let headline := "Telegram bot token not found" in
  let inline_then_keychain blocks_fallback tried :=
    let ignored :=
      match tc_bot_token tg with
      | Some s =>
          if is_empty s then inr (tried ++ ["inline telegram.bot_token (empty)"])
          else if blocks_fallback : bool
               then inr (tried ++ ["inline telegram.bot_token (ignored because telegram.bot_token_file failed)"])
               else inl s
      | None => inr (tried ++ ["inline telegram.bot_token (absent)"])
      end in
    match ignored with
    | inl s => Ok s
    | inr tried =>
        match keyring_query_scoped src "telegram_bot_token" (tc_profile_name tg) with
        | KeyFound val =>
            if blocks_fallback
            then Err (format_sources_tried_error headline None
                        (tried ++ [ignored_keychain "telegram_bot_token" (tc_profile_name tg) "telegram.bot_token_file"]))
            else Ok val
        | Unavailable summary => Err (format_sources_tried_error headline None (tried ++ [summary]))
        end
    end in
  try (from_env src "PROXXX_TELEGRAM_BOT_TOKEN")
    (fun tried =>
       match check_secret_file src "telegram.bot_token_file" (tc_bot_token_file tg) with
       | Loaded secret => Ok secret
       | NotConfigured diagnostic => inline_then_keychain false (tried ++ [diagnostic])
       | Failed diagnostic (Some sec) _ => Err (format_sources_tried_error headline (Some sec) (tried ++ [diagnostic]))
       | Failed diagnostic None blocks => inline_then_keychain blocks (tried ++ [diagnostic])
       end) [].
End resolvers.

(** * Which secret is used, and that failing reveals none *)
(** ** The order of the sources *)
(** What a source says: a secret, nothing, or that nothing after it may be used. *)
Inductive Offer := Offers (s : string) | Nothing | Blocks.
Fixpoint pick (l : list Offer) : option string :=
  match l with
  | [] | Blocks :: _ => None
  | Offers s :: _ => Some s
  | Nothing :: rest => pick rest
  end.
Definition given_offer (o : option string) : Offer :=
  match o with Some s => if is_empty s then Nothing else Offers s | None => Nothing end.
(** A variable that is set, not empty and within the cap. *)
Definition env_offer (e : EnvVar) : Offer :=
  match e with
  | Present raw => if is_empty raw || (65536 <? N.of_nat (String.length raw))%N then Nothing else Offers raw
  | _ => Nothing
  end.
(** A configured file must be there, private and readable; an empty one is as none. *)
Definition file_offer (home : option string) (files : string -> SecretFile) (path : option string) : Offer :=
  match path with
  | None => Nothing
  | Some p =>
      match files (expand_tilde home p) with
      | Exists mode (Ok text) =>
          if match mode with Some m => negb (N.land m 63 =? 0)%N | None => false end then Blocks
          else if is_empty (trim text) then Nothing else Offers (trim text)
      | _ => Blocks
      end
  end.
(** The profile's own entry first, then the shared one. *)
Fixpoint first_entry (entry : string -> KeychainEntryOutcome) (names : list string) : Offer :=
  match names with
  | [] => Nothing
  | n :: rest => match entry n with Found s => Offers s | _ => first_entry entry rest end
  end.
Definition keychain_offer (src : SecretSources) (item : string) (profile : option string) : Offer :=
  if keychain_compiled src && negb (bool_decide (is_Some (keychain_join src)))
  then first_entry (keychain_entry src) (keyring_candidates item profile) else Nothing.

Lemma land_511_63 m : N.land (N.land m 511) 63 = N.land m 63.
Proof. by rewrite <- N.land_assoc. Qed.

Lemma env_offer_ok e : match env_var_secret_checked e with Ok s => env_offer e = Offers s | Err _ => env_offer e = Nothing end.
Proof.
  unfold env_var_secret_checked, env_offer. destruct e as [| |raw]; [done..|].
  change ENV_SECRET_MAX_BYTES with 65536%N. destruct (_ <? _)%N; [by rewrite orb_true_r|].
  by destruct (is_empty raw).
Qed.
Lemma file_offer_ok src field path :
  match check_secret_file src field path with
  | Loaded s => file_offer (home_dir src) (file_at src) path = Offers s
  | NotConfigured _ => file_offer (home_dir src) (file_at src) path = Nothing
  | Failed _ (Some _) b => b = true /\ file_offer (home_dir src) (file_at src) path = Blocks
  | Failed _ None b => file_offer (home_dir src) (file_at src) path = if b then Blocks else Nothing
  end.
Proof.
  unfold check_secret_file, file_offer. destruct path as [p|]; [|done].
  destruct (file_at src (expand_tilde (home_dir src) p)) as [|mode text]; [done|].
  assert (Em : bool_decide (is_Some mode) && negb (N.land (N.land (default 0%N mode) 511) 63 =? 0)%N
               = match mode with Some m => negb (N.land m 63 =? 0)%N | None => false end).
  { rewrite land_511_63. destruct mode; [|done]. by rewrite bool_decide_eq_true_2 by eauto. }
  rewrite Em. destruct (match mode with Some m => _ | None => _ end).
  - split; [done|]. by destruct text.
  - destruct text as [text|e]; [|done]. by destruct (is_empty (trim text)).
Qed.
Lemma query_first entry names acc :
  match query_accounts entry names acc with KeyFound s => first_entry entry names = Offers s | Unavailable _ => first_entry entry names = Nothing end.
Proof. revert acc. induction names as [|n names IH]; intros acc; [done|]. cbn. destruct (entry n); try done; apply IH. Qed.
Lemma keychain_offer_ok src item profile :
  match keyring_query_scoped src item profile with
  | KeyFound s => keychain_offer src item profile = Offers s
  | Unavailable _ => keychain_offer src item profile = Nothing
  end.
Proof.
  unfold keyring_query_scoped, keychain_offer. destruct (keychain_compiled src); [|done]. cbn [negb andb].
  destruct (keychain_join src); [by rewrite bool_decide_eq_true_2 by eauto|].
  rewrite bool_decide_eq_false_2 by (by intros []). apply query_first.
Qed.

Lemma try_given what none o k tried offers :
  (forall t, result_ok (k t) = pick offers) -> result_ok (try (given what none o) k tried) = pick (given_offer o :: offers).
Proof. intros Hk. unfold try, given. destruct o as [s|]; [|apply Hk]. cbn. destruct (is_empty s); [apply Hk|done]. Qed.
Lemma try_env src name k tried offers :
  (forall t, result_ok (k t) = pick offers) -> result_ok (try (from_env src name) k tried) = pick (env_offer (env_var src name) :: offers).
Proof.
  intros Hk. unfold try, from_env. pose proof (env_offer_ok (env_var src name)) as H.
  destruct (env_var_secret_checked (env_var src name)); rewrite H; [done|apply Hk].
Qed.
Lemma file_then_keychain_pick src headline file_key item file profile tried :
  result_ok (file_then_keychain src headline file_key item file profile tried) =
  pick [file_offer (home_dir src) (file_at src) file; keychain_offer src item profile].
Proof.
  unfold file_then_keychain. pose proof (file_offer_ok src file_key file) as Hf.
  pose proof (keychain_offer_ok src item profile) as Hk.
  destruct (check_secret_file src file_key file) as [s|d|d [sec|] b].
  - by rewrite Hf.
  - rewrite Hf. destruct (keyring_query_scoped src item profile); cbn; by rewrite Hk.
  - destruct Hf as [_ ->]. done.
  - rewrite Hf. destruct b, (keyring_query_scoped src item profile); cbn; rewrite ?Hk; done.
Qed.

(** For the Telegram bot the file comes before the inline token, as the guide to the configuration says; the warning
    about a shadowed token and the comment on [TelegramConfig] say otherwise ([telegram_file_wins]). *)
Lemma bot_token_order src tg :
  result_ok (resolve_bot_token src tg) =
    pick [env_offer (env_var src "PROXXX_TELEGRAM_BOT_TOKEN"); file_offer (home_dir src) (file_at src) (tc_bot_token_file tg);
          given_offer (tc_bot_token tg); keychain_offer src "telegram_bot_token" (tc_profile_name tg)].
Proof.
  apply try_env. intros t. pose proof (file_offer_ok src "telegram.bot_token_file" (tc_bot_token_file tg)) as Hf.
  pose proof (keychain_offer_ok src "telegram_bot_token" (tc_profile_name tg)) as Hk.
  destruct (check_secret_file _ _ _) as [s|d|d [sec|] b].
  - by rewrite Hf.
  - rewrite Hf. unfold given_offer. destruct (tc_bot_token tg) as [s|]; [destruct (is_empty s)|];
      destruct (keyring_query_scoped _ _ _); cbn; rewrite ?Hk; done.
  - destruct Hf as [_ ->]. done.
  - rewrite Hf. unfold given_offer. destruct b, (tc_bot_token tg) as [s|]; try destruct (is_empty s);
      destruct (keyring_query_scoped _ _ _); cbn; rewrite ?Hk; done.
Qed.

(** C28: the secret of an API token, of a backup-server token and the password
    are taken from the first of their sources that holds one, in the order
    command line, environment, inline value, file, keychain (the password has
    no command-line flag and no file).  A configured secret file that is
    missing, unreadable or open to others is never passed over for the
    keychain. *)
Theorem secret_source_order src cfg pbs cli :
  let file := file_offer (home_dir src) (file_at src) in
  let env name := env_offer (env_var src name) in
  result_ok (resolve_token_secret src cfg cli) =
    pick [given_offer cli; env "PROXXX_TOKEN_SECRET"; given_offer (pf_token_secret cfg);
          file (pf_token_secret_file cfg); keychain_offer src "token_secret" (pf_profile_name cfg)]
  /\ result_ok (resolve_pbs_token_secret src pbs cli) =
    pick [given_offer cli; env "PROXXX_PBS_TOKEN_SECRET"; given_offer (pb_token_secret pbs);
          file (pb_token_secret_file pbs); keychain_offer src "pbs_token_secret" (pb_profile_name pbs)]
  /\ result_ok (resolve_password src cfg) =
    pick [env "PROXXX_PASSWORD"; given_offer (pf_password cfg); keychain_offer src "password" (pf_profile_name cfg)].
Proof.
  intros file env. split; [|split].
  - apply try_given. intros t. apply try_env. intros t'. apply try_given. intros t''. apply file_then_keychain_pick.
  - apply try_given. intros t. apply try_env. intros t'. apply try_given. intros t''. apply file_then_keychain_pick.
  - apply try_env. intros t. apply try_given. intros t'. pose proof (keychain_offer_ok src "password" (pf_profile_name cfg)) as Hk.
    destruct (keyring_query_scoped _ _ _); cbn; by rewrite Hk.
Qed.

(** ** Failing reveals nothing *)
(** Two views of the world that differ only in what the secrets are. *)
Definition alike_text (a b : option string) : Prop :=
  match a, b with Some x, Some y => is_empty x = is_empty y | None, None => True | _, _ => False end.
Definition alike_env (a b : EnvVar) : Prop :=
  match a, b with
  | Present x, Present y =>
      is_empty x = is_empty y
      /\ (65536 <? N.of_nat (String.length x))%N = (65536 <? N.of_nat (String.length y))%N
  | NotPresent, NotPresent | NotUnicode, NotUnicode => True
  | _, _ => False
  end.
Definition alike_file (a b : SecretFile) : Prop :=
  match a, b with
  | Absent, Absent => True
  | Exists m (Ok x), Exists m' (Ok y) => m = m' /\ is_empty (trim x) = is_empty (trim y)
  | Exists m (Err e), Exists m' (Err e') => m = m' /\ e = e'
  | _, _ => False
  end.
Definition alike_entry (a b : KeychainEntryOutcome) : Prop :=
  match a, b with Found _, Found _ => True | Found _, _ | _, Found _ => False | _, _ => a = b end.
Record alike_sources (a b : SecretSources) : Prop := mkAlike {
  al_env n : alike_env (env_var a n) (env_var b n);
  al_home : home_dir a = home_dir b;
  al_file p : alike_file (file_at a p) (file_at b p);
  al_compiled : keychain_compiled a = keychain_compiled b;
  al_entry n : alike_entry (keychain_entry a n) (keychain_entry b n);
  al_join : keychain_join a = keychain_join b;
}.
(** Both succeed, or both fail with the same words. *)
Definition same_failure (r1 r2 : Result AnyErr string) : Prop :=
  match r1, r2 with Ok _, Ok _ => True | Err e1, Err e2 => e1 = e2 | _, _ => False end.

Section alike.
Context (a b : SecretSources) (Hab : alike_sources a b).

Lemma alike_check field p :
  match check_secret_file a field p, check_secret_file b field p with
  | Loaded _, Loaded _ => True
  | Loaded _, _ | _, Loaded _ => False
  | x, y => x = y
  end.
Proof.
  unfold check_secret_file. destruct p as [p|]; [|done]. rewrite <- (al_home _ _ Hab).
  pose proof (al_file _ _ Hab (expand_tilde (home_dir a) p)) as H. unfold alike_file in H.
  destruct (file_at a _) as [|m [x|e]], (file_at b _) as [|m' [y|e']]; try done; destruct H as [<- H].
  - destruct (_ && _); [done|]. rewrite H. by destruct (is_empty (trim y)).
  - subst e'. by destruct (_ && _).
Qed.
Lemma alike_query names acc :
  match query_accounts (keychain_entry a) names acc, query_accounts (keychain_entry b) names acc with
  | KeyFound _, KeyFound _ => True
  | Unavailable x, Unavailable y => x = y
  | _, _ => False
  end.
Proof.
  revert acc. induction names as [|n names IH]; intros acc; [done|]. cbn [query_accounts].
  pose proof (al_entry _ _ Hab n) as H. unfold alike_entry in H.
  destruct (keychain_entry a n), (keychain_entry b n); try done; simplify_eq; apply IH.
Qed.
Lemma alike_keychain item profile :
  match keyring_query_scoped a item profile, keyring_query_scoped b item profile with
  | KeyFound _, KeyFound _ => True
  | Unavailable x, Unavailable y => x = y
  | _, _ => False
  end.
Proof.
  unfold keyring_query_scoped. rewrite <- (al_compiled _ _ Hab), <- (al_join _ _ Hab).
  destruct (keychain_compiled a); [|done]. cbn [negb]. destruct (keychain_join a); [done|]. apply alike_query.
Qed.
Lemma alike_try_given what none o1 o2 k1 k2 tried :
  alike_text o1 o2 -> (forall t, same_failure (k1 t) (k2 t)) ->
  same_failure (try (given what none o1) k1 tried) (try (given what none o2) k2 tried).
Proof.
  intros Ho Hk. unfold try, given. destruct o1 as [x|], o2 as [y|]; try done.
  cbn in Ho. rewrite Ho. destruct (is_empty y); [apply Hk|done].
Qed.
Lemma alike_try_env name k1 k2 tried :
  (forall t, same_failure (k1 t) (k2 t)) -> same_failure (try (from_env a name) k1 tried) (try (from_env b name) k2 tried).
Proof.
  intros Hk. unfold try, from_env, env_var_secret_checked. pose proof (al_env _ _ Hab name) as H. unfold alike_env in H.
  change ENV_SECRET_MAX_BYTES with 65536%N.
  destruct (env_var a name), (env_var b name); try done; try apply Hk. destruct H as [H1 H2]. rewrite H1, H2. clear H1 H2.
  destruct (_ <? _)%N; [apply Hk|]. destruct (is_empty _); [apply Hk|done].
Qed.
Lemma alike_file_then_keychain headline file_key item file profile tried :
  same_failure (file_then_keychain a headline file_key item file profile tried)
               (file_then_keychain b headline file_key item file profile tried).
Proof.
  unfold file_then_keychain. pose proof (alike_check file_key file) as Hf. pose proof (alike_keychain item profile) as Hk.
  destruct (check_secret_file a file_key file) as [s|d|d [sec|] bl], (check_secret_file b file_key file);
    try done; try injection Hf as <-; try done; subst; try done;
    destruct (keyring_query_scoped a item profile), (keyring_query_scoped b item profile); try done; subst; try done;
    by repeat case_match.
Qed.

(** Configurations that differ in the inline secrets alone. *)
Definition alike_profiles (c1 c2 : ProfileConfig) : Prop :=
  alike_text (pf_token_secret c1) (pf_token_secret c2) /\ alike_text (pf_password c1) (pf_password c2)
  /\ pf_token_secret_file c1 = pf_token_secret_file c2 /\ pf_profile_name c1 = pf_profile_name c2.
Definition alike_pbs (c1 c2 : PbsConfig) : Prop :=
  alike_text (pb_token_secret c1) (pb_token_secret c2)
  /\ pb_token_secret_file c1 = pb_token_secret_file c2 /\ pb_profile_name c1 = pb_profile_name c2.
Definition alike_telegram (c1 c2 : TelegramConfig) : Prop :=
  alike_text (tc_bot_token c1) (tc_bot_token c2)
  /\ tc_bot_token_file c1 = tc_bot_token_file c2 /\ tc_profile_name c1 = tc_profile_name c2.

Lemma alike_bot_token tg1 tg2 : alike_telegram tg1 tg2 -> same_failure (resolve_bot_token a tg1) (resolve_bot_token b tg2).
Proof.
  intros (Ht & Hf & Hn). unfold resolve_bot_token. rewrite <- Hf, <- Hn. apply alike_try_env. intros tried.
  pose proof (alike_check "telegram.bot_token_file" (tc_bot_token_file tg1)) as Hc.
  pose proof (alike_keychain "telegram_bot_token" (tc_profile_name tg1)) as Hk.
  set (m1 := keyring_query_scoped a _ _) in *. set (m2 := keyring_query_scoped b _ _) in *. clearbody m1 m2.
  set (f1 := check_secret_file a _ _) in *. set (f2 := check_secret_file b _ _) in *. clearbody f1 f2.
  unfold alike_text in Ht. cbv zeta.
  destruct (tc_bot_token tg1) as [x|], (tc_bot_token tg2) as [y|]; try done; [rewrite Ht; destruct (is_empty y)|];
    destruct m1, m2; try done; subst;
    destruct f1 as [s|d|d [sec|] bl], f2 as [s'|d'|d' [sec'|] bl']; try done; simplify_eq/=; try done; repeat case_match; by simplify_eq.
Qed.

(** C29: A resolution of any of the four credentials that fails says nothing of
    a secret: its error is the same whatever the secrets on the command line,
    in the environment, the files, the keychain and the configuration are, as
    long as the same ones are present, empty, too long or unreadable; and
    whether it fails is the same. *)
Theorem failing_reveals_no_secret cfg1 cfg2 pbs1 pbs2 tg1 tg2 cli1 cli2 :
  alike_text cli1 cli2 -> alike_profiles cfg1 cfg2 -> alike_pbs pbs1 pbs2 -> alike_telegram tg1 tg2 ->
  same_failure (resolve_token_secret a cfg1 cli1) (resolve_token_secret b cfg2 cli2)
  /\ same_failure (resolve_pbs_token_secret a pbs1 cli1) (resolve_pbs_token_secret b pbs2 cli2)
  /\ same_failure (resolve_password a cfg1) (resolve_password b cfg2)
  /\ same_failure (resolve_bot_token a tg1) (resolve_bot_token b tg2).
Proof.
  intros Hc (Ht & Hp & Hf & Hn) (Hbt & Hbf & Hbn) Htg. split; [|split; [|split; [|by apply alike_bot_token]]].
  - unfold resolve_token_secret. rewrite <- Hf, <- Hn. apply alike_try_given; [done|]. intros t.
    apply alike_try_env. intros t'. apply alike_try_given; [done|]. intros t''. apply alike_file_then_keychain.
  - unfold resolve_pbs_token_secret. rewrite <- Hbf, <- Hbn. apply alike_try_given; [done|]. intros t.
    apply alike_try_env. intros t'. apply alike_try_given; [done|]. intros t''. apply alike_file_then_keychain.
  - unfold resolve_password. rewrite <- Hn. apply alike_try_env. intros t. apply alike_try_given; [done|]. intros t'.
    pose proof (alike_keychain "password" (pf_profile_name cfg1)) as Hk.
    destruct (keyring_query_scoped a _ _), (keyring_query_scoped b _ _); try done. by subst.
Qed.
End alike.

(** ** Concrete sources *)
Definition plain_cfg (inline file : option string) : ProfileConfig :=
  mkProfileConfig "https://lab:8006" "root@pam" "token" None inline file None true None false None None None None None None None
    None (Some "lab").
Definition sources_with (secret : string) (mode : N) : SecretSources :=
  mkSources (fun _ => NotPresent) (Some "/root") (fun p => if bool_decide (p = "/root/t") then Exists (Some mode) (Ok secret) else Absent)
    true (fun n => if bool_decide (n = "lab/token_secret") then Found secret else EntryNotFound) None.
Example private_file_used : resolve_token_secret (sources_with "s3cret" 384) (plain_cfg None (Some "~/t")) None = Ok "s3cret".
Proof. vm_compute. reflexivity. Qed.
Example open_file_blocks_keychain : result_ok (resolve_token_secret (sources_with "s3cret" 420) (plain_cfg None (Some "~/t")) None) = None.
Proof. vm_compute. reflexivity. Qed.
Definition plain_pbs (inline : option string) : PbsConfig := mkPbsConfig "https://pbs:8007" "u@pbs" "t" inline None true None None (Some "lab").
Definition plain_telegram (inline : option string) : TelegramConfig := mkTelegramConfig inline (Some "~/t") "1" None (Some "lab").
Lemma failing_reveals_no_secret_witness :
  let a := sources_with "first" 420 in let b := sources_with "second" 420 in let cfg := plain_cfg None (Some "~/t") in
  same_failure (resolve_token_secret a cfg None) (resolve_token_secret b cfg None)
  /\ same_failure (resolve_pbs_token_secret a (plain_pbs (Some "x")) None) (resolve_pbs_token_secret b (plain_pbs (Some "y")) None)
  /\ same_failure (resolve_password a cfg) (resolve_password b cfg)
  /\ same_failure (resolve_bot_token a (plain_telegram (Some "x"))) (resolve_bot_token b (plain_telegram (Some "y"))).
Proof.
  apply (failing_reveals_no_secret (sources_with "first" 420) (sources_with "second" 420)); try done.
  split; try done; intros x; cbn; by case_bool_decide.
Defined.

(** For the Telegram bot the file is read before the inline token: the warning that
    the inline one wins is not what happens. *)
Definition both_tokens : TelegramConfig := plain_telegram (Some "inline").
Example telegram_file_wins : resolve_bot_token (sources_with "from file" 384) both_tokens = Ok "from file".
Proof. vm_compute. reflexivity. Qed.
