(* ===== verification/Durable.v ===== *)
(** * Writing a file that is never half there: util/durable.rs

    A disk is its names, each version of the directory since it was last flushed,
    and its inodes.  [write_private_atomic] is a writer that goes from one system
    call to the next, any of which may fail; any number of writers, of any number
    of processes, are interleaved.  After a crash the directory is one of the
    versions since the last flush, and a file that was not flushed may hold
    anything.  All files are in one directory, and a message names a path relative to it. *)

From S2P Require Import Prelude.
From S2P Require Import ApiError.
From S2P Require Import Utf8.
From S2P Require Import SshTarget.

(** ** The disk *)
Record Inode := mkInode { content : string; perm : N; synced : bool }.
Notation Dir := (gmap string nat).
Record Disk := mkDisk { cur : Dir; older : list Dir; inodes : gmap nat Inode; next_ino : nat }.
Definition versions (d : Disk) : list Dir := cur d :: older d.
Definition set_dir (v : Dir) (d : Disk) : Disk := mkDisk v (versions d) (inodes d) (next_ino d).

(** System calls, where they succeed. *)
Definition create_new (name : string) (mode : N) (d : Disk) : option (nat * Disk) :=
  match cur d !! name with
  | Some _ => None
  | None =>
      let ino := next_ino d in
      Some (ino, mkDisk (<[name := ino]> (cur d)) (versions d) (<[ino := mkInode "" mode false]> (inodes d)) (S ino))
  end.
Definition write_bytes (ino : nat) (bytes : string) (d : Disk) : Disk :=
  mkDisk (cur d) (older d) (alter (fun i => mkInode (content i +:+ bytes) (perm i) false) ino (inodes d)) (next_ino d).
Definition sync_file (ino : nat) (d : Disk) : Disk :=
  mkDisk (cur d) (older d) (alter (fun i => mkInode (content i) (perm i) true) ino (inodes d)) (next_ino d).
Definition rename (from to : string) (d : Disk) : option Disk :=
  match cur d !! from with Some ino => Some (set_dir (<[to := ino]> (delete from (cur d))) d) | None => None end.
Definition sync_dir (d : Disk) : Disk := mkDisk (cur d) [] (inodes d) (next_ino d).
Definition remove_file (name : string) (d : Disk) : Disk := set_dir (delete name (cur d)) d.

(** ** The writer *)
Definition unique_temp_tag (pid n : N) : string := pretty pid +:+ "." +:+ pretty n.
Definition temp_name (name : string) (k : N * N) : string :=
  "." +:+ name +:+ "." +:+ unique_temp_tag k.1 k.2 +:+ ".tmp".

#[global] Arguments temp_name : simpl never.

(** Where a writer is: the call it makes next. *)
Inductive Pc :=
  | CreateParent | RemoveStale | OpenTemp
  | WriteAll (ino : nat) | SyncAll (ino : nat) | Rename (ino : nat)
  | SyncParent | RemoveTemp (e : AnyErr) | Finished (r : Result AnyErr unit).
Record Writer := mkWriter { target : string; bytes : string; pc : Pc }.

(** What the system does with the next call: it succeeds, or fails after writing
    [n] bytes.  A directory that cannot be opened ([cannot_open]) is not synced. *)
Inductive Reply := Done | Fails (n : nat) (e : AnyErr) | CannotOpen.

Definition write_private_atomic_step (k : N * N) (reply : Reply) (w : Writer) (d : Disk) : Writer * Disk :=
  let tmp := temp_name (target w) k in
  let go p := mkWriter (target w) (bytes w) p in
  let fail what e := go (RemoveTemp (context (what +:+ tmp) e)) in
  match pc w with
  | CreateParent =>
      match reply with
      | Fails _ e => (go (Finished (Err (context "create directory ." e))), d)
      | _ => (go RemoveStale, d)
      end
  | RemoveStale =>
      match reply with Fails _ _ => (go OpenTemp, d) | _ => (go OpenTemp, remove_file tmp d) end
  | OpenTemp =>
      match reply with
      | Fails _ e => (fail "create temp file " e, d)
      | _ => match create_new tmp 384 d with
             | Some (ino, d') => (go (WriteAll ino), d')
             | None => (fail "create temp file " (bail "File exists"), d)
             end
      end
  | WriteAll ino =>
      match reply with
      | Fails n e => (fail "write temp file " e, write_bytes ino (String.substring 0 n (bytes w)) d)
      | _ => (go (SyncAll ino), write_bytes ino (bytes w) d)
      end
  | SyncAll ino =>
      match reply with Fails _ e => (fail "fsync temp file " e, d) | _ => (go (Rename ino), sync_file ino d) end
  | Rename ino =>
      match reply with
      | Fails _ e => (go (RemoveTemp (context ("rename " +:+ tmp +:+ " → " +:+ target w) e)), d)
      | _ => match rename tmp (target w) d with
             | Some d' => (go SyncParent, d')
             | None => (go (RemoveTemp (context ("rename " +:+ tmp +:+ " → " +:+ target w) (bail "No such file"))), d)
             end
      end
  | SyncParent =>
      match reply with
      | Done => (go (Finished (Ok ())), sync_dir d)
      | CannotOpen => (go (Finished (Ok ())), d)
      | Fails _ e => (go (RemoveTemp (context "fsync directory ." e)), d)
      end
  | RemoveTemp e =>
      match reply with Fails _ _ => (go (Finished (Err e)), d) | _ => (go (Finished (Err e)), remove_file tmp d) end
  | Finished r => (w, d)
  end.

(** ** Many writers *)
Record System := mkSystem { disk : Disk; counters : gmap N N; writers : gmap (N * N) Writer }.
Inductive Event :=
  | Spawn (pid : N) (to : string) (payload : string)
  | Step (k : N * N) (reply : Reply).
Definition spawn (pid : N) (to payload : string) (s : System) : System :=
  let n := default 0%N (counters s !! pid) in
  mkSystem (disk s) (<[pid := (n + 1)%N]> (counters s)) (<[(pid, n) := mkWriter to payload CreateParent]> (writers s)).
Definition sys_step (s : System) (e : Event) : System :=
  match e with
  | Spawn pid to payload => spawn pid to payload s
  | Step k reply =>
      match writers s !! k with
      | Some w =>
          let '(w', d') := write_private_atomic_step k reply w (disk s) in
          mkSystem d' (counters s) (<[k := w']> (writers s))
      | None => s
      end
  end.

(** ** Crashes *)
(** What a name may hold after a crash: the directory is one of its versions, and a
    file that was flushed is as it was. *)
Inductive after_crash (d : Disk) (name : string) : option string -> Prop :=
  | crash_none v : v ∈ versions d -> v !! name = None -> after_crash d name None
  | crash_file v ino i text : v ∈ versions d -> v !! name = Some ino -> inodes d !! ino = Some i ->
      (synced i = true -> text = content i) -> after_crash d name (Some text).
Definition read (d : Disk) (name : string) : option Inode := cur d !! name ≫= (fun ino => inodes d !! ino).

(** ** Temp names *)
Definition is_temp_name (s : string) : bool :=
  match rsplit_once "." s with Some (_, ext) => bool_decide (ext = "tmp") | None => false end.
Lemma temp_name_split name k :
  temp_name name k = ((("." +:+ name) +:+ String "." (pretty k.1)) +:+ String "." (pretty k.2)) +:+ String "." "tmp".
Proof.
  unfold temp_name, unique_temp_tag. rewrite <- !string_app_assoc. cbn [String.append]. by rewrite <- ?string_app_assoc.
Qed.
Lemma temp_name_is_temp name k : is_temp_name (temp_name name k) = true.
Proof. unfold is_temp_name. by rewrite temp_name_split, rsplit_once_app. Qed.
Lemma temp_name_inj n1 k1 n2 k2 : temp_name n1 k1 = temp_name n2 k2 -> k1 = k2 /\ n1 = n2.
Proof.
  intros E. rewrite !temp_name_split in E. apply (f_equal (rsplit_once ".")) in E.
  rewrite !rsplit_once_app in E by done. injection E as E. apply (f_equal (rsplit_once ".")) in E.
  rewrite !rsplit_once_app in E by (apply digits_free; [done|apply pretty_N_digits]). injection E as E E2.
  apply (f_equal (rsplit_once ".")) in E.
  rewrite !rsplit_once_app in E by (apply digits_free; [done|apply pretty_N_digits]). injection E as E E1.
  apply (inj pretty) in E1, E2. destruct k1, k2. by simplify_eq/=.
Qed.

(** * Old or new, never between: the invariant of the writers of util/durable.rs *)
Section inv.
Context (d0 : Disk).

(** The inode holds all of what some writer of [t] was given, private and flushed. *)
Definition payload (s : System) (t : string) (ino : nat) : Prop :=
  exists k w, writers s !! k = Some w /\ target w = t /\ inodes (disk s) !! ino = Some (mkInode (bytes w) 384 true).
(** Or it is the file that was there before. *)
Definition good (s : System) (t : string) (ino : nat) : Prop :=
  cur d0 !! t = Some ino /\ inodes (disk s) !! ino = inodes d0 !! ino \/ payload s t ino.
Definition placed (s : System) (t : string) : Prop := exists ino, cur (disk s) !! t = Some ino /\ payload s t ino.
Definition settled (s : System) (t : string) : Prop :=
  forall v, v ∈ versions (disk s) -> exists ino, v !! t = Some ino /\ payload s t ino.

Definition owns (p : Pc) : option nat :=
  match p with WriteAll ino | SyncAll ino | Rename ino => Some ino | _ => None end.
(** How far the file of a writer is. *)
Definition progress (w : Writer) (i : Inode) : Prop :=
  perm i = 384%N
  /\ match pc w with
     | WriteAll _ => content i = ""
     | SyncAll _ => content i = bytes w
     | Rename _ => content i = bytes w /\ synced i = true
     | _ => True
     end.

Record Inv (s : System) : Prop := mkInv {
  inv_bound v name ino : v ∈ versions (disk s) -> v !! name = Some ino -> (ino < next_ino (disk s))%nat;
  inv_good v t ino : v ∈ versions (disk s) -> is_temp_name t = false -> v !! t = Some ino -> good s t ino;
  inv_own k w ino : writers s !! k = Some w -> owns (pc w) = Some ino ->
    cur (disk s) !! temp_name (target w) k = Some ino
    /\ (forall v name, v ∈ versions (disk s) -> v !! name = Some ino -> name = temp_name (target w) k)
    /\ exists i, inodes (disk s) !! ino = Some i /\ progress w i;
  inv_target k w : writers s !! k = Some w -> is_temp_name (target w) = false;
  inv_key pid n w : writers s !! (pid, n) = Some w -> (n < default 0 (counters s !! pid))%N;
  inv_placed k w : writers s !! k = Some w -> pc w = SyncParent -> placed s (target w);
}.

Lemma temp_ne t name k : is_temp_name t = false -> t <> temp_name name k.
Proof. intros H ->. by rewrite temp_name_is_temp in H. Qed.

(** A step keeps the invariant and what is settled. *)
Definition Stepped (s s' : System) : Prop :=
  Inv s' /\ forall t, is_temp_name t = false -> settled s t -> settled s' t.

(** ** Updating a writer *)
Definition put (s : System) (k : N * N) (w : Writer) (d : Disk) : System := mkSystem d (counters s) (<[k := w]> (writers s)).

(** A writer keeps its target and payload. *)
Definition same_job (w w' : Writer) : Prop := target w' = target w /\ bytes w' = bytes w.

(** The inode is not the one being written. *)
Lemma not_owned s k w o v t ino :
  Inv s -> writers s !! k = Some w -> owns (pc w) = Some o -> v ∈ versions (disk s) -> is_temp_name t = false ->
  v !! t = Some ino -> ino <> o.
Proof.
  intros Hi Hk Ho Hv Ht E ->. destruct (inv_own _ Hi _ _ _ Hk Ho) as (_ & Hn & _).
  by apply (temp_ne t (target w) k Ht), (Hn v).
Qed.

Lemma payload_put s k w w' d t ino :
  writers s !! k = Some w -> same_job w w' -> inodes d !! ino = inodes (disk s) !! ino ->
  payload s t ino -> payload (put s k w' d) t ino.
Proof.
  intros Hk [Ht Hb] Ei (k1 & w1 & H1 & Et & E1). destruct (decide (k1 = k)) as [->|Hne].
  - assert (w1 = w) as -> by congruence. exists k, w'. cbn. rewrite lookup_insert_eq, Ei, Hb. split; [done|]. split; [congruence|done].
  - exists k1, w1. cbn. rewrite lookup_insert_ne by done. by rewrite Ei.
Qed.
Lemma good_put s k w w' d t ino :
  writers s !! k = Some w -> same_job w w' -> inodes d !! ino = inodes (disk s) !! ino ->
  good s t ino -> good (put s k w' d) t ino.
Proof.
  intros Hk Hj Ei [[H1 H2]|H]; [left; cbn; by rewrite Ei|right; by eapply payload_put].
Qed.

(** Everything but what concerns the disk survives an update of one writer. *)
Lemma inv_put s k w w' d :
  Inv s -> writers s !! k = Some w -> same_job w w' ->
  (forall v name ino, v ∈ versions d -> v !! name = Some ino -> (ino < next_ino d)%nat) ->
  (forall v t ino, v ∈ versions d -> is_temp_name t = false -> v !! t = Some ino -> good (put s k w' d) t ino) ->
  (forall ino, owns (pc w') = Some ino ->
     cur d !! temp_name (target w) k = Some ino
     /\ (forall v name, v ∈ versions d -> v !! name = Some ino -> name = temp_name (target w) k)
     /\ exists i, inodes d !! ino = Some i /\ progress w' i) ->
  (forall k1 w1 ino, k1 <> k -> writers s !! k1 = Some w1 -> owns (pc w1) = Some ino ->
     cur d !! temp_name (target w1) k1 = Some ino
     /\ (forall v name, v ∈ versions d -> v !! name = Some ino -> name = temp_name (target w1) k1)
     /\ inodes d !! ino = inodes (disk s) !! ino) ->
  (forall t, is_temp_name t = false -> placed s t -> placed (put s k w' d) t) ->
  (pc w' = SyncParent -> placed (put s k w' d) (target w)) ->
  (forall v, v ∈ versions d -> v = cur d \/ v ∈ versions (disk s)) ->
  (forall v t ino, v ∈ versions (disk s) -> is_temp_name t = false -> v !! t = Some ino ->
     inodes d !! ino = inodes (disk s) !! ino) ->
  Stepped s (put s k w' d).
Proof.
  intros Hi Hk Hj B G O O' P P' HV HI. split.
  2:{ intros t Htt Hs v [->|Hv]%HV.
      - destruct (P t Htt (Hs (cur (disk s)) ltac:(left))) as (ino & E & Hp). eauto.
      - destruct (Hs v Hv) as (ino & E & Hp). exists ino. split; [done|]. eapply payload_put; [done..| |done]. by eapply HI. }
  destruct Hj as [Ht Hb]. split; cbn [put disk writers counters].
  - exact B.
  - exact G.
  - intros k1 w1 ino H1 Ho. destruct (decide (k1 = k)) as [->|Hne].
    + rewrite lookup_insert_eq in H1. injection H1 as <-. rewrite Ht. by apply O.
    + rewrite lookup_insert_ne in H1 by done. destruct (O' _ _ _ Hne H1 Ho) as (C1 & C2 & ->).
      destruct (inv_own _ Hi _ _ _ H1 Ho) as (_ & _ & C3). done.
  - intros k1 w1. destruct (decide (k1 = k)) as [->|Hne]; [rewrite lookup_insert_eq|rewrite lookup_insert_ne by done].
    + intros [= <-]. rewrite Ht. by apply (inv_target _ Hi k).
    + by apply (inv_target _ Hi).
  - intros pid n w1. destruct (decide ((pid, n) = k)) as [<-|Hne]; [intros _; by apply (inv_key _ Hi pid n w)|].
    rewrite lookup_insert_ne by done. by apply (inv_key _ Hi).
  - intros k1 w1. destruct (decide (k1 = k)) as [->|Hne]; [rewrite lookup_insert_eq|rewrite lookup_insert_ne by done].
    + intros [= <-] Hp. rewrite Ht. by apply P'.
    + intros H1 Hp. apply P; [by apply (inv_target _ Hi k1)|]. by apply (inv_placed _ Hi k1).
Qed.

(** ** The calls *)
(** Nothing on the disk changes. *)
Lemma inv_stay s k w w' :
  Inv s -> writers s !! k = Some w -> same_job w w' -> owns (pc w') = None -> pc w' <> SyncParent ->
  Stepped s (put s k w' (disk s)).
Proof.
  intros Hi Hk Hj Ho Hs. eapply inv_put; try done.
  - by apply inv_bound.
  - intros v t ino Hv Ht E. eapply good_put; [done..|]. by eapply inv_good.
  - intros ino E. by rewrite Ho in E.
  - intros k1 w1 ino _ H1 H2. destruct (inv_own _ Hi _ _ _ H1 H2) as (A & B & _). done.
  - intros t _ (ino & E & Hp). exists ino. split; [done|]. by eapply payload_put.
  - intros v Hv. by right.
Qed.
Lemma temp_other name1 k1 name2 k2 : k1 <> k2 -> temp_name name1 k1 <> temp_name name2 k2.
Proof. intros Hne E. by apply temp_name_inj in E as [? _]. Qed.

(** The temp file is removed by a writer that no longer holds one. *)
Lemma inv_remove s k w w' :
  Inv s -> writers s !! k = Some w -> same_job w w' -> owns (pc w') = None -> pc w' <> SyncParent ->
  Stepped s (put s k w' (remove_file (temp_name (target w) k) (disk s))).
Proof.
  intros Hi Hk Hj Ho Hs. set (tmp := temp_name (target w) k).
  assert (Hv : forall v name ino, v ∈ versions (remove_file tmp (disk s)) -> v !! name = Some ino ->
    exists v0, v0 ∈ versions (disk s) /\ v0 !! name = Some ino).
  { intros v name ino [->|Hv]%elem_of_cons E; [|eauto]. cbn in E. apply lookup_delete_Some in E as [_ E].
    exists (cur (disk s)). split; [by left|done]. }
  eapply inv_put; try done.
  - intros v name ino H E. destruct (Hv _ _ _ H E) as (v0 & H0 & E0). by apply (inv_bound _ Hi v0 name).
  - intros v t ino H Ht E. destruct (Hv _ _ _ H E) as (v0 & H0 & E0). eapply good_put; [done..|]. by eapply inv_good.
  - intros ino E. by rewrite Ho in E.
  - intros k1 w1 ino Hne H1 H2. destruct (inv_own _ Hi _ _ _ H1 H2) as (A & B & _). split; [|split; [|done]].
    + cbn. rewrite lookup_delete_ne; [done|]. by apply temp_other.
    + intros v name H E. destruct (Hv _ _ _ H E) as (v0 & H0 & E0). by apply (B v0).
  - intros t Ht (ino & E & Hp). exists ino. split; [|by eapply payload_put].
    cbn. rewrite lookup_delete_ne; [done|]. by apply not_eq_sym, temp_ne.
  - intros v [->|Hv0]%elem_of_cons; [by left|by right].
Qed.

(** The directory is flushed. *)
Lemma inv_sync_dir s k w w' :
  Inv s -> writers s !! k = Some w -> same_job w w' -> owns (pc w') = None -> pc w' <> SyncParent ->
  Stepped s (put s k w' (sync_dir (disk s))).
Proof.
  intros Hi Hk Hj Ho Hs.
  assert (Hv : forall v, v ∈ versions (sync_dir (disk s)) -> v ∈ versions (disk s)).
  { intros v [->|Hv]%elem_of_cons; [by left|]. by apply elem_of_nil in Hv. }
  eapply inv_put; try done.
  - intros v name ino H. by apply (inv_bound _ Hi), Hv.
  - intros v t ino H Ht E. eapply good_put; [done..|]. by eapply inv_good; [|apply Hv|..].
  - intros ino E. by rewrite Ho in E.
  - intros k1 w1 ino _ H1 H2. destruct (inv_own _ Hi _ _ _ H1 H2) as (A & B & _).
    split; [done|]. split; [|done]. intros v name H. by apply B, Hv.
  - intros t _ (ino & E & Hp). exists ino. split; [done|]. by eapply payload_put.
  - intros v Hv0. right. by apply Hv.
Qed.

(** The writer changes its own inode. *)
Lemma inv_alter s k w w' o f :
  Inv s -> writers s !! k = Some w -> same_job w w' -> owns (pc w) = Some o ->
  (owns (pc w') = Some o \/ owns (pc w') = None) -> pc w' <> SyncParent ->
  (forall i, progress w i -> progress w' (f i)) ->
  Stepped s (put s k w' (mkDisk (cur (disk s)) (older (disk s)) (alter f o (inodes (disk s))) (next_ino (disk s)))).
Proof.
  intros Hi Hk Hj Ho Ho' Hs Hf. destruct (inv_own _ Hi _ _ _ Hk Ho) as (A & B & i & Ei & Hp).
  eapply inv_put; try done.
  - by apply inv_bound.
  - intros v t ino Hv Ht E. assert (ino <> o) by (by eapply not_owned).
    eapply good_put; [done..| |by eapply inv_good]. cbn. by rewrite lookup_alter_ne.
  - intros ino E. destruct Ho' as [Ho'|Ho']; [|by rewrite Ho' in E]. assert (ino = o) as -> by congruence.
    split; [done|]. split; [done|]. exists (f i). cbn. rewrite lookup_alter_eq, Ei. split; [done|]. by apply Hf.
  - intros k1 w1 ino Hne H1 H2. destruct (inv_own _ Hi _ _ _ H1 H2) as (A1 & B1 & _).
    split; [done|]. split; [done|]. cbn. rewrite lookup_alter_ne; [done|]. intros <-.
    apply (temp_other (target w) k (target w1) k1 ltac:(done)). symmetry. apply (B (cur (disk s))); [by left|done].
  - intros t Ht (ino & E & Hpl). assert (ino <> o) by (by eapply not_owned; [| | |left| |]).
    exists ino. split; [done|]. eapply payload_put; [done..| |done]. cbn. by rewrite lookup_alter_ne.
  - intros v Hv. by right.
  - intros v t ino Hv Ht E. cbn. rewrite lookup_alter_ne; [done|]. apply not_eq_sym. by eapply not_owned.
Qed.

(** A new temp file. *)
Lemma inv_create s k w w' o d :
  Inv s -> writers s !! k = Some w -> same_job w w' -> create_new (temp_name (target w) k) 384 (disk s) = Some (o, d) ->
  pc w' = WriteAll o -> Stepped s (put s k w' d).
Proof.
  intros Hi Hk Hj E Hpc. unfold create_new in E. set (tmp := temp_name (target w) k) in *.
  destruct (cur (disk s) !! tmp) eqn:Et; [done|]. injection E as <- <-.
  assert (Hf : forall v name ino, v ∈ versions (disk s) -> v !! name = Some ino -> ino <> next_ino (disk s)).
  { intros v name ino Hv E ->. pose proof (inv_bound _ Hi v name _ Hv E). lia. }
  eapply inv_put; try done.
  - intros v name ino [->|Hv]%elem_of_cons; cbn.
    + intros [[_ <-]|[_ E]]%lookup_insert_Some; [lia|]. assert (ino < next_ino (disk s))%nat; [|lia].
      by apply (inv_bound _ Hi (cur (disk s)) name); [left|].
    + intros E. assert (ino < next_ino (disk s))%nat; [|lia]. by apply (inv_bound _ Hi v name).
  - assert (Hg : forall v t ino, v ∈ versions (disk s) -> is_temp_name t = false -> v !! t = Some ino ->
      good (put s k w' (mkDisk (<[tmp:=next_ino (disk s)]> (cur (disk s))) (versions (disk s))
        (<[next_ino (disk s):=mkInode "" 384 false]> (inodes (disk s))) (S (next_ino (disk s))))) t ino).
    { intros v t ino Hv Ht E. eapply good_put; [done..| |by eapply inv_good].
      cbn. rewrite lookup_insert_ne; [done|]. symmetry. by eapply Hf. }
    intros v t ino [->|Hv]%elem_of_cons Ht E; [|by eapply Hg].
    cbn in E. apply lookup_insert_Some in E as [[<- _]|[_ E]]; [by apply (temp_ne tmp (target w) k) in Ht|].
    apply (Hg (cur (disk s))); [by left|done..].
  - intros ino E. rewrite Hpc in E. injection E as <-. split; [cbn; by rewrite lookup_insert_eq|]. split.
    + intros v name [->|Hv]%elem_of_cons E; [|by apply Hf in E]. cbn in E.
      apply lookup_insert_Some in E as [[<- _]|[_ E]]; [done|]. by apply (Hf (cur (disk s))) in E; [|left].
    + exists (mkInode "" 384 false). cbn. rewrite lookup_insert_eq. split; [done|]. unfold progress. by rewrite Hpc.
  - intros k1 w1 ino Hne H1 H2. destruct (inv_own _ Hi _ _ _ H1 H2) as (A & B & _). split; [|split].
    + cbn. rewrite lookup_insert_ne; [done|]. by apply temp_other.
    + intros v name [->|Hv]%elem_of_cons E; [|by apply (B v)]. cbn in E.
      apply lookup_insert_Some in E as [[_ <-]|[_ E]]; [|by apply (B (cur (disk s))); [left|]].
      exfalso. by apply (Hf (cur (disk s)) _ _ ltac:(left) A).
    + cbn. rewrite lookup_insert_ne; [done|]. symmetry. by apply (Hf (cur (disk s)) _ _ ltac:(left) A).
  - intros t Ht (ino & E & Hp). exists ino. split.
    + cbn. rewrite lookup_insert_ne; [done|]. by apply not_eq_sym, temp_ne.
    + eapply payload_put; [done..| |done]. cbn. rewrite lookup_insert_ne; [done|]. symmetry.
      by apply (Hf (cur (disk s)) t); [left|].
  - by rewrite Hpc.
  - intros v [->|Hv]%elem_of_cons; [by left|by right].
  - intros v t ino Hv Ht E. cbn. rewrite lookup_insert_ne; [done|]. apply not_eq_sym. by eapply Hf.
Qed.
(** The temp file takes the name of the target. *)
Lemma inv_rename s k w w' o d :
  Inv s -> writers s !! k = Some w -> same_job w w' -> pc w = Rename o ->
  rename (temp_name (target w) k) (target w) (disk s) = Some d -> pc w' = SyncParent -> Stepped s (put s k w' d).
Proof.
  intros Hi Hk Hj Ho E Hpc. assert (Hown : owns (pc w) = Some o) by (by rewrite Ho).
  destruct (inv_own _ Hi _ _ _ Hk Hown) as (A & B & i & Ei & Hp).
  unfold rename in E. rewrite A in E. injection E as <-. pose proof (inv_target _ Hi _ _ Hk) as Ht.
  set (tmp := temp_name (target w) k) in *. set (v' := <[target w := o]> (delete tmp (cur (disk s)))).
  assert (Hv' : forall name ino, v' !! name = Some ino ->
     name = target w /\ ino = o \/ name <> target w /\ cur (disk s) !! name = Some ino).
  { intros name ino [[<- <-]|[Hne E]]%lookup_insert_Some; [by left|]. apply lookup_delete_Some in E as [_ E]. right. auto. }
  assert (Hpay : payload (put s k w' (set_dir v' (disk s))) (target w) o).
  { exists k, w'. cbn. rewrite lookup_insert_eq. destruct Hj as [-> ->]. split; [done|]. split; [done|].
    rewrite Ei. unfold progress in Hp. rewrite Ho in Hp. destruct i, Hp as [Hp1 [Hp2 Hp3]]. simpl in *. by subst. }
  assert (Hkeep : forall t ino, payload s t ino -> payload (put s k w' (set_dir v' (disk s))) t ino)
    by (intros t ino; by apply (payload_put _ _ _ _ _ _ _ Hk Hj)).
  eapply inv_put; try done.
  - intros v name ino [->|Hv]%elem_of_cons E; [|by apply (inv_bound _ Hi v name)].
    destruct (Hv' _ _ E) as [[_ ->]|[_ E']]; [|by apply (inv_bound _ Hi (cur (disk s)) name); [left|]].
    by apply (inv_bound _ Hi (cur (disk s)) tmp); [left|].
  - intros v t ino [->|Hv]%elem_of_cons Htt E; [|by eapply good_put; [done..|eapply inv_good]].
    destruct (Hv' _ _ E) as [[-> ->]|[_ E']]; [by right|].
    eapply good_put; [done..|]. by eapply (inv_good _ Hi (cur (disk s))); [left|..].
  - intros ino E. by rewrite Hpc in E.
  - intros k1 w1 ino Hne H1 H2. destruct (inv_own _ Hi _ _ _ H1 H2) as (A1 & B1 & _). split; [|split; [|done]].
    + cbn. unfold v'. rewrite lookup_insert_ne by (by apply temp_ne). rewrite lookup_delete_ne; [done|]. by apply temp_other.
    + intros v name [->|Hv]%elem_of_cons E; [|by apply (B1 v)].
      destruct (Hv' _ _ E) as [[-> ->]|[_ E']]; [|by apply (B1 (cur (disk s))); [left|]].
      exfalso. apply (temp_other (target w) k (target w1) k1); [done|]. apply (B1 (cur (disk s))); [by left|done].
  - intros t Htt (ino & E & Hpl). destruct (decide (t = target w)) as [->|Hne].
    + exists o. cbn. unfold v'. by rewrite lookup_insert_eq.
    + exists ino. cbn. unfold v'. rewrite lookup_insert_ne by done. rewrite lookup_delete_ne; [auto|].
      by apply not_eq_sym, temp_ne.
  - intros _. exists o. cbn. unfold v'. by rewrite lookup_insert_eq.
  - intros v [->|Hv]%elem_of_cons; [by left|by right].
Qed.

Lemma inv_step s k reply w :
  Inv s -> writers s !! k = Some w ->
  Stepped s (put s k (write_private_atomic_step k reply w (disk s)).1 (write_private_atomic_step k reply w (disk s)).2).
Proof.
  intros Hi Hk.
  assert (J : forall p, same_job w (mkWriter (target w) (bytes w) p)) by done.
  unfold write_private_atomic_step. destruct (pc w) as [| | |o|o|o| |e|r] eqn:Ep.
  - destruct reply; by apply inv_stay with w.
  - destruct reply; first [by apply inv_remove|by apply inv_stay with w].
  - destruct (create_new (temp_name (target w) k) 384 (disk s)) as [[o d]|] eqn:Ec.
    + destruct reply; first [by eapply inv_create|by apply inv_stay with w].
    + destruct reply; by apply inv_stay with w.
  - destruct reply; (eapply inv_alter; [done..|by rewrite Ep|by (left + right)|done|]);
      intros i [H1 H2]; rewrite Ep in H2; unfold progress; cbn [perm content synced pc]; by rewrite ?H2.
  - destruct reply; try by apply inv_stay with w.
    all: eapply inv_alter; [done..|by rewrite Ep|by left|done|].
    all: intros i [H1 H2]; rewrite Ep in H2; unfold progress; cbn [perm content synced pc]; by rewrite ?H2.
  - destruct (rename (temp_name (target w) k) (target w) (disk s)) as [d|] eqn:Er.
    + destruct reply; first [by eapply inv_rename|by apply inv_stay with w].
    + destruct reply; by apply inv_stay with w.
  - destruct reply; first [by eapply inv_sync_dir|by apply inv_stay with w].
  - destruct reply; first [by apply inv_remove|by apply inv_stay with w].
  - destruct w as [t b p]. simpl in Ep. subst. by apply inv_stay with (mkWriter t b (Finished r)).
Qed.

(** A new writer. *)
Lemma inv_spawn s pid to text : Inv s -> is_temp_name to = false -> Stepped s (spawn pid to text s).
Proof.
  intros Hi Hto. set (n := default 0%N (counters s !! pid)).
  assert (Hfresh : writers s !! (pid, n) = None).
  { destruct (writers s !! (pid, n)) as [w|] eqn:E; [|done]. pose proof (inv_key _ Hi _ _ _ E). subst n. lia. }
  assert (Hp : forall t ino, payload s t ino -> payload (spawn pid to text s) t ino).
  { intros t ino (k & w & E & H). exists k, w. cbn. fold n. rewrite lookup_insert_ne by (intros <-; by rewrite Hfresh in E). done. }
  split; [|intros t _ Hs v Hv; destruct (Hs v Hv) as (ino & E & H); by eauto].
  assert (Hw : forall k w, writers (spawn pid to text s) !! k = Some w ->
     k = (pid, n) /\ w = mkWriter to text CreateParent \/ writers s !! k = Some w).
  { intros k w. cbn. fold n. intros [[<- <-]|[_ E]]%lookup_insert_Some; auto. }
  split.
  - exact (inv_bound _ Hi).
  - intros v t ino Hv Ht E. destruct (inv_good _ Hi v t ino Hv Ht E) as [H|H]; [by left|right; auto].
  - intros k w ino [[-> ->]|E]%Hw Ho; [done|]. exact (inv_own _ Hi _ _ _ E Ho).
  - intros k w [[-> ->]|E]%Hw; [done|]. exact (inv_target _ Hi _ _ E).
  - intros p m w [[[= -> ->] ->]|E]%Hw; cbn; fold n.
    + rewrite lookup_insert_eq. simpl. lia.
    + pose proof (inv_key _ Hi _ _ _ E). destruct (decide (p = pid)) as [->|Hne].
      * rewrite lookup_insert_eq. simpl. subst n. lia.
      * by rewrite lookup_insert_ne.
  - intros k w [[-> ->]|E]%Hw Hpc; [done|]. destruct (inv_placed _ Hi _ _ E Hpc) as (ino & E1 & E2). exists ino. auto.
Qed.

(** ** Runs *)
(** No writer is asked to write a name of the form of a temp name. *)
Definition plain (e : Event) : Prop := match e with Spawn _ to _ => is_temp_name to = false | Step _ _ => True end.
Lemma step_stepped s e : Inv s -> plain e -> Stepped s (sys_step s e).
Proof.
  intros Hi Hp. destruct e as [pid to text|k reply]; [by apply inv_spawn|]. cbn.
  destruct (writers s !! k) as [w|] eqn:E; [|by split].
  pose proof (inv_step s k reply w Hi E) as H. by destruct (write_private_atomic_step k reply w (disk s)).
Qed.
Lemma run_stepped s evs : Inv s -> Forall plain evs -> Stepped s (foldl sys_step s evs).
Proof.
  intros Hi Hp. revert s Hi. induction Hp as [|e evs He _ IH]; intros s Hi; [by split|]. cbn.
  destruct (step_stepped s e Hi He) as [H1 H2]. destruct (IH _ H1) as [H3 H4]. split; [done|]. auto.
Qed.

(** The directory is flushed and names inodes that are in use. *)
Definition at_rest : Prop := older d0 = [] /\ forall name ino, cur d0 !! name = Some ino -> (ino < next_ino d0)%nat.
Definition boot_system : System := mkSystem d0 ∅ ∅.
Lemma inv_start : at_rest -> Inv boot_system.
Proof.
  intros [Ho Hb].
  assert (Hv : forall v, v ∈ versions (disk boot_system) -> v = cur d0).
  { intros v. unfold versions, boot_system, disk. rewrite Ho. by intros ->%list_elem_of_singleton. }
  split; try done.
  - intros v name ino ->%Hv. by apply Hb.
  - intros v t ino ->%Hv _ E. by left.
Qed.

(** A name that was there stays in every version. *)
Definition covered (d d' : Disk) : Prop :=
  forall v', v' ∈ versions d' -> exists v, v ∈ versions d /\ forall t, is_temp_name t = false -> is_Some (v !! t) -> is_Some (v' !! t).
Lemma covered_same d i n : covered d (mkDisk (cur d) (older d) i n).
Proof. intros v Hv. eauto. Qed.
Lemma covered_refl d : covered d d.
Proof. intros v Hv. eauto. Qed.
Lemma covered_versions d v i n :
  (forall t, is_temp_name t = false -> is_Some (cur d !! t) -> is_Some (v !! t)) -> covered d (mkDisk v (versions d) i n).
Proof. intros H v' [->|Hv]%elem_of_cons; [exists (cur d); split; [by left|done]|eauto]. Qed.
Lemma covered_remove d name k : covered d (remove_file (temp_name name k) d).
Proof.
  apply covered_versions. intros t Ht [ino E]. rewrite lookup_delete_ne; [by rewrite E|]. by apply not_eq_sym, temp_ne.
Qed.
Lemma covered_step k reply w d : covered d (write_private_atomic_step k reply w d).2.
Proof.
  unfold write_private_atomic_step. destruct (pc w); try (destruct reply; first [apply covered_refl|apply covered_remove|apply covered_same]).
  - unfold create_new. destruct (cur d !! _); [destruct reply; apply covered_refl|].
    destruct reply; try apply covered_refl; apply covered_versions; intros t Ht [i E];
      destruct (decide (t = temp_name (target w) k)) as [->|Hne];
      rewrite ?lookup_insert_eq, ?lookup_insert_ne by done; rewrite ?E; eauto.
  - unfold rename. destruct (cur d !! _); [|destruct reply; apply covered_refl].
    destruct reply; try apply covered_refl; apply covered_versions; intros t Ht [i E];
      destruct (decide (t = target w)) as [->|Hne];
      rewrite ?lookup_insert_eq, ?lookup_insert_ne by done; eauto;
      rewrite lookup_delete_ne by (by apply not_eq_sym, temp_ne); eauto.
  - destruct reply; try apply covered_refl. intros v [->|Hv]%elem_of_cons; [exists (cur d); split; [by left|done]|].
    by apply elem_of_nil in Hv.
Qed.
Lemma covered_run s evs : covered (disk s) (disk (foldl sys_step s evs)).
Proof.
  revert s. induction evs as [|e evs IH]; intros s; [apply covered_refl|]. cbn. intros v' Hv.
  destruct (IH _ v' Hv) as (v1 & H1 & K1).
  assert (Hc : covered (disk s) (disk (sys_step s e))).
  { destruct e as [pid to text|k reply]; [apply covered_refl|]. cbn. destruct (writers s !! k) as [w|]; [|apply covered_refl].
    pose proof (covered_step k reply w (disk s)). by destruct (write_private_atomic_step k reply w (disk s)). }
  destruct (Hc v1 H1) as (v & H & K). exists v. split; [done|]. auto.
Qed.

(** Every writer was spawned. *)
Lemma same_job_step k reply w d : same_job w (write_private_atomic_step k reply w d).1.
Proof.
  unfold write_private_atomic_step. destruct (pc w), reply; try done;
    first [destruct (create_new _ _ d) as [[]|]|destruct (rename _ _ d)]; done.
Qed.
Lemma spawned evs k w :
  writers (foldl sys_step boot_system evs) !! k = Some w -> exists pid, Spawn pid (target w) (bytes w) ∈ evs.
Proof.
  revert k w. induction evs as [|e evs IH] using rev_ind; intros k w; [done|]. rewrite foldl_snoc.
  set (s := foldl sys_step boot_system evs) in *. intros H.
  assert (Hold : forall k w, writers s !! k = Some w -> exists pid, Spawn pid (target w) (bytes w) ∈ evs ++ [e]).
  { intros k1 w1 E. destruct (IH _ _ E) as [pid Hin]. exists pid. apply elem_of_app. by left. }
  destruct e as [pid to text|k1 reply]; cbn in H.
  - apply lookup_insert_Some in H as [[<- <-]|[_ H]]; [|by eapply Hold].
    exists pid. apply elem_of_app. right. by left.
  - destruct (writers s !! k1) as [w1|] eqn:E; [|by eapply Hold].
    pose proof (same_job_step k1 reply w1 (disk s)) as [J1 J2].
    destruct (write_private_atomic_step k1 reply w1 (disk s)) as [w2 d2]. simpl in *.
    apply lookup_insert_Some in H as [[<- <-]|[_ H]]; [|by eapply Hold]. rewrite J1, J2. by eapply Hold.
Qed.
Lemma payload_spawned evs t ino :
  payload (foldl sys_step boot_system evs) t ino ->
  exists pid text, Spawn pid t text ∈ evs /\ inodes (disk (foldl sys_step boot_system evs)) !! ino = Some (mkInode text 384 true).
Proof. intros (k & w & E & <- & Ei). destruct (spawned _ _ _ E) as [pid H]. eauto. Qed.
End inv.

(** The writer's last call returns: what it wrote is settled. *)
Lemma sync_settles d0 s k w :
  Inv d0 s -> writers s !! k = Some w -> pc w = SyncParent -> settled (sys_step s (Step k Done)) (target w).
Proof.
  intros Hi Hk Hp. destruct (inv_placed _ _ Hi _ _ Hk Hp) as (ino & E & Hpay). unfold sys_step. rewrite Hk.
  unfold write_private_atomic_step. rewrite Hp. intros v [->|Hv]%elem_of_cons; [|by apply elem_of_nil in Hv].
  exists ino. split; [done|]. by apply (payload_put s k w (mkWriter (target w) (bytes w) (Finished (Ok ()))) (sync_dir (disk s))).
Qed.

(** After a crash a settled name holds all of what one of its writers was given. *)
Lemma settled_crash d0 evs t text :
  settled (foldl sys_step (boot_system d0) evs) t -> after_crash (disk (foldl sys_step (boot_system d0) evs)) t text ->
  exists pid bs, text = Some bs /\ Spawn pid t bs ∈ evs.
Proof.
  intros Hs H. destruct H as [v Hv E|v ino i text Hv E Ei Ht]; destruct (Hs v Hv) as (o & Eo & Hpay); simplify_eq.
  destruct (payload_spawned _ _ _ _ Hpay) as (pid & bs & Hin & Eb). exists pid, bs. simplify_eq. by rewrite Ht.
Qed.

(** Durable writes, from a directory at rest and however the calls of the writers interleave and fail. *)
Record Atomic (d0 : Disk) (evs : list Event) (t : string) : Prop := mkAtomic {
  at_read i : read (disk (foldl sys_step (boot_system d0) evs)) t = Some i ->
    read d0 t = Some i \/ exists pid text, Spawn pid t text ∈ evs /\ i = mkInode text 384 true;
  at_crash text : after_crash (disk (foldl sys_step (boot_system d0) evs)) t text ->
    after_crash d0 t text \/ exists pid bs, text = Some bs /\ Spawn pid t bs ∈ evs;
  at_durable evs1 evs2 k w text :
    evs = evs1 ++ Step k Done :: evs2 ->
    writers (foldl sys_step (boot_system d0) evs1) !! k = Some w -> pc w = SyncParent -> target w = t ->
    after_crash (disk (foldl sys_step (boot_system d0) evs)) t text ->
    exists pid bs, text = Some bs /\ Spawn pid t bs ∈ evs
}.

(** C20: a file written with write_private_atomic is read, at every moment and after a crash at any moment, as it was before
    the writers started or as all of what one of its writers was given with mode 0600, never a part of it or a mix, whatever
    the interleaving of the writers and whichever of their calls fail; and once one of them has flushed the directory, a
    crash never brings the earlier file back. *)
Theorem writes_are_atomic_and_durable d0 evs t :
  at_rest d0 -> Forall plain evs -> is_temp_name t = false -> Atomic d0 evs t.
Proof.
  intros Hr Hp Ht. pose proof (inv_start d0 Hr) as H0. destruct (run_stepped d0 _ _ H0 Hp) as [Hi _].
  split.
  - intros i E. unfold read in E. apply bind_Some in E as (ino & Ec & Ei).
    destruct (inv_good _ _ Hi (cur _) t ino ltac:(left) Ht Ec) as [[E1 E2]|Hpay].
    + left. unfold read. rewrite E1. simpl. congruence.
    + right. destruct (payload_spawned _ _ _ _ Hpay) as (pid & text & Hin & E). exists pid, text. split; [done|]. congruence.
  - intros text H. destruct H as [v Hv E|v ino i text Hv E Ei Hs].
    + left. destruct (covered_run (boot_system d0) evs v Hv) as (v0 & Hv0 & Hc). apply crash_none with v0; [done|].
      destruct (v0 !! t) eqn:E0; [|done]. destruct (Hc t Ht ltac:(by rewrite E0)). congruence.
    + destruct (inv_good _ _ Hi v t ino Hv Ht E) as [[E1 E2]|Hpay].
      * left. apply crash_file with (cur d0) ino i; [by left|done|congruence|done].
      * right. destruct (payload_spawned _ _ _ _ Hpay) as (pid & bs & Hin & Eb). exists pid, bs. simplify_eq. by rewrite Hs.
  - intros evs1 evs2 k w text -> Hk Hpc <- H. apply settled_crash in H; [done|]. rewrite foldl_app. cbn [foldl].
    apply Forall_app in Hp as [Hp1 Hp2]. apply Forall_cons in Hp2 as [_ Hp2].
    destruct (run_stepped d0 _ _ H0 Hp1) as [Hi1 _]. destruct (step_stepped d0 _ (Step k Done) Hi1 ltac:(done)) as [Hi2 _].
    apply (run_stepped d0 _ _ Hi2 Hp2); [by apply (inv_target _ _ Hi1 k)|]. by eapply sync_settles.
Qed.

Module WritersDemo.
Definition d0 : Disk := mkDisk {["freeze.lock" := 0%nat]} [] {[0%nat := mkInode "old" 420 true]} 1.
Definition k0 : N * N := (7, 0)%N.
Definition k1 : N * N := (7, 1)%N.
(** The second writer fails after a byte, between the calls of the first. *)
Definition first_calls : list Event :=
  [Spawn 7 "freeze.lock" "AAA"; Spawn 7 "freeze.lock" "BBB"; Step k0 Done; Step k1 Done; Step k0 (Fails 0 (bail "none"));
   Step k1 Done; Step k0 Done; Step k1 Done; Step k0 Done; Step k1 (Fails 1 (bail "disk full")); Step k0 Done;
   Step k0 Done; Step k1 Done].
Definition evs : list Event := first_calls ++ [Step k0 Done].
Definition end_disk : Disk := disk (foldl sys_step (boot_system d0) evs).
End WritersDemo.

Lemma writes_are_atomic_and_durable_witness :
  read WritersDemo.end_disk "freeze.lock" = Some (mkInode "AAA" 384 true)
  /\ forall text, after_crash WritersDemo.end_disk "freeze.lock" text ->
     exists pid bs, text = Some bs /\ Spawn pid "freeze.lock" bs ∈ WritersDemo.evs.
Proof.
  split; [vm_compute; reflexivity|]. intros text.
  assert (W : exists w, writers (foldl sys_step (boot_system WritersDemo.d0) WritersDemo.first_calls) !! WritersDemo.k0 = Some w
    /\ pc w = SyncParent /\ target w = "freeze.lock") by (eexists; repeat split; vm_compute; reflexivity).
  destruct W as (w & W1 & W2 & W3).
  assert (A : Atomic WritersDemo.d0 WritersDemo.evs "freeze.lock").
  { apply writes_are_atomic_and_durable; [split; [reflexivity|]|repeat constructor|reflexivity].
    intros name ino E. unfold cur, WritersDemo.d0 in E. apply lookup_singleton_Some in E as [_ <-]. simpl. lia. }
  exact (at_durable _ _ _ A WritersDemo.first_calls [] WritersDemo.k0 w text eq_refl W1 W2 W3).
Defined.
