(* ===== verification/Redact.v ===== *)
(** * Keeping credentials out of logs and of the audit trail

    The scrubber of util/panic_hook.rs and [redact_params_json] of audit/mod.rs.
    The JSON writer is a parameter. *)

From S2P Require Import Prelude.
From S2P Require Import Json.

(** ** The scrubber *)
Definition KEY_VALUE_MARKERS : list string :=
  ["PVEAuthCookie="; "PVEAPIToken="; "PBSAPIToken="; "tokenid="; "password="; "token_secret=";
   "csrfpreventiontoken="; "vncticket="].
Definition BEARER : string := "authorization: bearer ".

(** [&s[..n]] and [&s[n..]] *)
Fixpoint str_take (n : nat) (s : string) : string :=
  match n, s with S n', String a s' => String a (str_take n' s') | _, _ => "" end.
Fixpoint str_drop (n : nat) (s : string) : string :=
  match n, s with S n', String _ s' => str_drop n' s' | _, _ => s end.

Definition utf8_char_len (b : ascii) : nat :=
  let n := N_of_ascii b in
  if (n <? 192)%N then 1 else if (n <? 224)%N then 2 else if (n <? 240)%N then 3 else 4.
Definition is_stop (b : ascii) : bool :=
  bool_decide (b ∈ [" "; ";"; "&"; ascii_of_N 34; "'"; ascii_of_N 10; ascii_of_N 13; "/"]%char).
(** The rest after the value run. *)
Fixpoint skip_value_run (s : string) : string :=
  match s with String b s' => if is_stop b then s else skip_value_run s' | "" => "" end.

(** What is copied before a value run that starts here, if one does. *)
Definition bot_digit (s : string) : bool :=
  match s with
  | String _ (String _ (String _ (String d _))) =>
      starts_with "bot" (to_ascii_lowercase s) && (let n := N_of_ascii d in (48 <=? n) && (n <=? 57))%N
  | _ => false
  end.
Definition marker_len (s : string) : option nat :=
  match List.find (fun m => starts_with (to_ascii_lowercase m) (to_ascii_lowercase s)) KEY_VALUE_MARKERS with
  | Some m => Some (String.length m)
  | None =>
      if starts_with BEARER (to_ascii_lowercase s) then Some (String.length BEARER)
      else if bot_digit s then Some 3 else None
  end.

(** The loop; each pass consumes at least one byte. *)
Fixpoint scrub_loop (fuel : nat) (s : string) : string :=
  match fuel, s with
  | S fuel', String b _ =>
      match marker_len s with
      | Some n => str_take n s +:+ "[REDACTED]" +:+ scrub_loop fuel' (skip_value_run (str_drop n s))
      | None => let n := utf8_char_len b in str_take n s +:+ scrub_loop fuel' (str_drop n s)
      end
  | _, _ => ""
  end.
Definition scrub_secrets (input : string) : string := scrub_loop (String.length input) input.

(** ** Parameters *)
Definition SECRET_KEY_SUBSTRINGS : list string := ["password"; "secret"; "token"; "ticket"; "key"; "cookie"].
Definition is_secret_key (key : string) : bool :=
  let lower := to_ascii_lowercase key in
  if bool_decide (lower = "tokenid" \/ lower = "token_id") then false
  else existsb (fun needle => contains needle lower) SECRET_KEY_SUBSTRINGS.
Definition redact_param_value (key value : string) : string :=
  if is_secret_key key then "[REDACTED]" else scrub_secrets value.

(** [serde_json::Map::insert]: the keys are in byte order, and a key that is there gets the new value. *)
Fixpoint map_insert (k : string) (v : Value) (m : list (string * Value)) : list (string * Value) :=
  match m with
  | [] => [(k, v)]
  | (k', v') :: m' =>
      match String.compare k k' with
      | Lt => (k, v) :: m
      | Eq => (k, v) :: m'
      | Gt => (k', v') :: map_insert k v m'
      end
  end.
Definition redact_pair (m : list (string * Value)) (p : string * string) : list (string * Value) :=
  let key := if bool_decide (p.1 = "profile") then "_form_profile" else p.1 in
  map_insert key (JString (redact_param_value p.1 p.2)) m.
Definition redact_params (params : list (string * string)) (profile_label : string) : Value :=
  JObject (foldl redact_pair [("profile", JString profile_label)] params).
Definition redact_params_json (to_string : Value -> string) (params : list (string * string)) (profile_label : string) : string :=
  to_string (redact_params params profile_label).

(** ** What it keeps out *)

(** Two parameter lists that differ only in the values of secret keys. *)
Definition same_but_secrets (p q : string * string) : Prop := p.1 = q.1 /\ (is_secret_key p.1 = false -> p.2 = q.2).
Lemma redact_pair_same m p q : same_but_secrets p q -> redact_pair m p = redact_pair m q.
Proof.
  destruct p as [k v], q as [k' v']. intros [E H]. simpl in *. subst k'. unfold redact_pair, redact_param_value. simpl.
  destruct (is_secret_key k); [done|]. by rewrite H.
Qed.
Lemma redact_params_same ps qs label : Forall2 same_but_secrets ps qs -> redact_params ps label = redact_params qs label.
Proof.
  intros H. unfold redact_params. f_equal. generalize [("profile", JString label)].
  induction H as [|p q ps qs Hpq _ IH]; intros m; [done|]. simpl. by rewrite (redact_pair_same _ _ _ Hpq).
Qed.

Example scrubs_header :
  scrub_secrets "GET failed (Authorization: PVEAPIToken=root@pam!rw=9b1c)" = "GET failed (Authorization: PVEAPIToken=[REDACTED]".
Proof. vm_compute. reflexivity. Qed.
(** A ticket is base64, whose alphabet has the slash: the run ends at it and the rest is kept. *)
Example ticket_tail_kept :
  scrub_secrets "Cookie: PVEAuthCookie=PVE:root@pam:6A18::ZDPS/gsMq4" = "Cookie: PVEAuthCookie=[REDACTED]/gsMq4".
Proof. vm_compute. reflexivity. Qed.
(** Of a repeated key, only the last value is recorded. *)
Example repeated_keys_lost :
  redact_params [("match-severity", "error"); ("match-severity", "warning")] "prod"
  = JObject [("match-severity", JString "warning"); ("profile", JString "prod")].
Proof. vm_compute. reflexivity. Qed.
