(* ===== verification/ApiClient.v ===== *)
(** * The API client: api/client.rs, api/auth.rs and the audit context of audit/mod.rs

    [PxClient] sends its requests through four verbs.  Each builds the request,
    authenticates it, retries it ([send_with_retry] of [Transport]) and reads
    the answer; the three that change the cluster first pass the read-only lock,
    the incident freeze and the write-ahead audit record.

    A method of the client is a program [Http]: the requests it makes and what
    it does with each answer.  [run] executes one with the verbs.  [Env] is what
    lies outside the process: the network, the clocks, the lock files, the
    reloaded configuration, the sources of secrets and whether the audit
    database takes a row.  [cw_sent] holds each request that left the process
    and the audit log at that moment. *)

From S2P Require Import Prelude.
From S2P Require Import Json.
From S2P Require Import ApiError.
From S2P Require Import UrlPath.
From S2P Require Import Transport.
From S2P Require Import StateApply.
From S2P Require Import Incident.
From S2P Require Import Mac.
From S2P Require Import AuditLog.
From S2P Require Import Alerts.
From S2P Require Import Utf8.
From S2P Require Import Config.
From S2P Require Import Secrets.
From S2P Require Import Redact.

(** ** Requests *)
Inductive Method := GET | POST | PUT | DELETE.
#[export] Instance Method_eq_dec : EqDecision Method.
Proof. solve_decision. Defined.
Definition Method_as_str (m : Method) : string :=
  match m with GET => "GET" | POST => "POST" | PUT => "PUT" | DELETE => "DELETE" end.

(** A piece of a [format!]: text of the template, a value put in encoded, or a
    value put in as it is. *)
Inductive Piece :=
  | Lit (s : string) | Seg (s : string) | Enc (s : string) | Num (n : N) | Int (z : Z) | Raw (s : string).
Definition show_piece (p : Piece) : string :=
  match p with
  | Lit s | Raw s => s
  | Seg s => urlenc_segment s
  | Enc s => urlenc s
  | Num n => pretty n
  | Int z => pretty z
  end.
Fixpoint show_pieces (ps : list Piece) : string :=
  match ps with [] => "" | p :: ps' => show_piece p +:+ show_pieces ps' end.
Fixpoint show_query (first : bool) (q : list (string * Piece)) : string :=
  match q with
  | [] => ""
  | (k, v) :: q' => (if first then "?" else "&") +:+ k +:+ "=" +:+ show_piece v +:+ show_query false q'
  end.
Record Path := mkPath { p_route : list Piece; p_query : list (string * Piece) }.
Definition show_path (p : Path) : string := show_pieces (p_route p) +:+ show_query true (p_query p).

Inductive Payload := NoPayload | Form (params : Params) | Multipart (content filename : string).
Record HttpRequest := mkRequest {
  rq_method : Method; rq_url : string; rq_headers : list (string * string); rq_payload : Payload }.

(** ** Errors: a refusal before anything leaves, or a failure *)
Record ReadOnlyRefusal := mkReadOnly { ro_profile : string; ro_path : string }.
Inductive Refusal := IsReadOnly (r : ReadOnlyRefusal) | IsFrozen (r : FreezeRefusal) | NotAudited (r : AuditWriteRefusal).
Definition Refusal_display (r : Refusal) : string :=
  match r with
  | IsReadOnly r =>
      "refusing mutation on " +:+ ro_path r +:+ " — profile '" +:+ ro_profile r +:+ "' is configured read-only "
      +:+ "(read_only = true). Remove the flag from this profile in config.toml to "
      +:+ "allow writes (or point it at a writable profile)."
  | IsFrozen r =>
      "refusing mutation — " +:+ fr_scope r +:+ " is FROZEN (reason: " +:+ fr_reason r +:+ ", since "
      +:+ pretty (fr_frozen_at r) +:+ "). Run `proxxx incident thaw --reason '...'` to lift the freeze, or wait for "
      +:+ "the TTL to expire."
  | NotAudited r => "audit log refused mutation `" +:+ wr_action r +:+ "`: " +:+ wr_reason r
  end.
Definition REFUSAL_EXIT_CODE : Z := 8.
Inductive CallError := Refused (r : Refusal) | Failed (e : AnyErr).
(** [anyhow::Error], the refusal downcast lost *)
Definition to_any (e : CallError) : AnyErr := match e with Refused r => bail (Refusal_display r) | Failed e => e end.
Definition err_context (c : string) (e : CallError) : CallError := Failed (context c (to_any e)).
Definition is_Failed {A} (r : Result AnyErr A) : Result CallError A := match r with Ok a => Ok a | Err e => Err (Failed e) end.

(** ** Programs over the client *)
Inductive Http (A : Type) :=
  | Return (r : Result CallError A)
  | Request (m : Method) (path : Path) (params : Params) (k : Result CallError Value -> Http A)
  | PostWithin (path : Path) (params : Params) (k : option (Result CallError Value) -> Http A)
  | UploadFile (path : Path) (content_type filename : string) (k : Result CallError Value -> Http A)
  | Now (k : N -> Http A)
  | Sleep (ms : N) (k : Http A).
Arguments Return {A} r.
Arguments Request {A} m path params k.
Arguments PostWithin {A} path params k.
Arguments UploadFile {A} path content_type filename k.
Arguments Now {A} k.
Arguments Sleep {A} ms k.

(** [attempt p] gives the error of [p] as a value; a bind stops at it ([?]). *)
Fixpoint http_bind {A B} (p : Http A) (f : Result CallError A -> Http B) : Http B :=
  match p with
  | Return r => f r
  | Request m path params k => Request m path params (fun r => http_bind (k r) f)
  | PostWithin path params k => PostWithin path params (fun r => http_bind (k r) f)
  | UploadFile path c n k => UploadFile path c n (fun r => http_bind (k r) f)
  | Now k => Now (fun t => http_bind (k t) f)
  | Sleep ms k => Sleep ms (http_bind k f)
  end.
#[export] Instance Http_ret : MRet Http := fun A a => Return (Ok a).
#[export] Instance Http_bind : MBind Http := fun A B f p =>
  http_bind p (fun r => match r with Ok a => f a | Err e => Return (Err e) end).
Definition attempt {A} (p : Http A) : Http (Result CallError A) := http_bind p (fun r => Return (Ok r)).
Definition failed {A} (e : AnyErr) : Http A := Return (Err (Failed e)).

(** ** Typed answers *)
(** A derived [Deserialize]; [de_missing] is the value of an absent field, for the types that have one. *)
Class De (A : Type) := { de_value : Value -> Result string A; de_missing : option A }.
#[export] Instance De_Value : De Value := {| de_value := Ok; de_missing := None |}.
#[export] Instance De_string : De string :=
  {| de_value := fun v => match v with JString s => Ok s | _ => Err "invalid type, expected a string" end; de_missing := None |}.
#[export] Instance De_option {A} `{De A} : De (option A) :=
  {| de_value := fun v => match v with JNull => Ok None | _ => a ← de_value v; Ok (Some a) end; de_missing := Some None |}.
Fixpoint de_all {A} `{De A} (l : list Value) : Result string (list A) :=
  match l with [] => Ok [] | v :: l' => a ← de_value v; r ← de_all l'; Ok (a :: r) end.
#[export] Instance De_list {A} `{De A} : De (list A) :=
  {| de_value := fun v => match v with JArray l => de_all l | _ => Err "invalid type, expected a sequence" end; de_missing := None |}.
Fixpoint de_map {A} `{De A} (m : list (string * Value)) : Result string (list (string * A)) :=
  match m with [] => Ok [] | (k, v) :: m' => a ← de_value v; r ← de_map m'; Ok ((k, a) :: r) end.

(** [ApiResponse<T>] *)
Definition ApiResponse {A} `{De A} (v : Value) : Result string A :=
  match v with
  | JObject m =>
      match jget "data" m with
      | Some d => de_value d
      | None => match de_missing with Some a => Ok a | None => Err "missing field `data`" end
      end
  | _ => Err "invalid type, expected struct ApiResponse"
  end.
Definition typed {A} `{De A} (path : Path) (r : Result CallError Value) : Result CallError A :=
  match r with
  | Err e => Err e
  | Ok v => match ApiResponse v with Ok a => Ok a | Err e => Err (Failed (of_api (Parse (show_path path) e))) end
  end.
Definition api_get {A} `{De A} (path : Path) : Http A := Request GET path [] (fun r => Return (typed path r)).
Definition api_post {A} `{De A} (path : Path) (params : Params) : Http A := Request POST path params (fun r => Return (typed path r)).
Definition api_put {A} `{De A} (path : Path) (params : Params) : Http A := Request PUT path params (fun r => Return (typed path r)).
Definition api_delete {A} `{De A} (path : Path) : Http A := Request DELETE path [] (fun r => Return (typed path r)).

(** ** Authentication: api/auth.rs *)
Inductive AuthMethod :=
  | TokenAuth (user token_id token_secret : string)
  | PasswordAuth (ticket csrf_token : string) (expires_at : N).
Definition from_token (user token_id token_secret : string) : AuthMethod := TokenAuth user token_id token_secret.
Definition apply_auth (a : AuthMethod) : list (string * string) :=
  match a with
  | TokenAuth user token_id secret => [("Authorization", "PVEAPIToken=" +:+ user +:+ "!" +:+ token_id +:+ "=" +:+ secret)]
  | PasswordAuth ticket csrf _ => [("cookie", "PVEAuthCookie=" +:+ ticket); ("CSRFPreventionToken", csrf)]
  end.
Definition auth_header_pairs (a : AuthMethod) : list (string * string) :=
  match a with
  | TokenAuth user token_id secret => [("Authorization", "PVEAPIToken=" +:+ user +:+ "!" +:+ token_id +:+ "=" +:+ secret)]
  | PasswordAuth ticket _ _ => [("Cookie", "PVEAuthCookie=" +:+ ticket)]
  end.
(** Two minutes before the end; times in milliseconds. *)
Definition needs_refresh (now : N) (a : AuthMethod) : bool :=
  match a with TokenAuth _ _ _ => false | PasswordAuth _ _ expires_at => (expires_at <? now + 120000)%N end.

(** ** What is outside *)
(** Where the call under [tokio::time::timeout] is when its time is up. *)
Inductive Cut := BeforeSend | InFlight | ReadingBody.
Class Env (W : Type) := {
  http : HttpRequest -> W -> (ReqwestError + Response) * W;
  now_ms : W -> N;
  unix_secs : W -> N;
  subsec_nanos : W -> N;
  pass_ms : N -> W -> W;
  lock_files : W -> Fs;
  reloaded : W -> ProfileConfig;
  secret_sources : W -> SecretSources;
  audit_disk : W -> Result AnyErr unit;
  fresh_key : W -> list ascii;
  time_is_up : W -> option Cut;
}.
(** Text codecs. *)
Class Codecs := {
  json_from_str : string -> Result string Value;
  json_to_string : Value -> string;
  lock_from_toml : string -> Result string FreezeState;
  gunzip : string -> Result string string;
  show_status : N -> string;
}.

Record PxClient := mkPxClient {
  base_url : string;
  profile_config : ProfileConfig;
  max_attempts : N;
  live_attached : bool;
  lock_locations : Locations;
  operator_label : string;
}.
Definition with_single_attempt (c : PxClient) : PxClient :=
  mkPxClient (base_url c) (profile_config c) 1 (live_attached c) (lock_locations c) (operator_label c).
Definition attach_live_config (c : PxClient) : PxClient :=
  mkPxClient (base_url c) (profile_config c) (max_attempts c) true (lock_locations c) (operator_label c).

(** The client beside what is outside: [cw_sent] is each request that left, with the audit log of that moment. *)
Record CW (W : Type) := mkCW { cw_env : W; cw_auth : AuthMethod; cw_audit : AuditWorld; cw_sent : list (HttpRequest * Db) }.
Arguments mkCW {W} _ _ _ _.
Arguments cw_env {W} _.
Arguments cw_auth {W} _.
Arguments cw_audit {W} _.
Arguments cw_sent {W} _.

(** ** A node name PVE cannot resolve *)
Definition unresolved_node_name (err : ApiError) : option string :=
  match err with
  | Other path status body =>
      if negb (status =? 500)%N then None
      else match split_char "/" path with
           | e :: n :: _ :: _ =>
               if bool_decide (e = "" /\ n = "nodes") then
                 '(_, rest) ← split_once "hostname lookup '" body;
                 '(name, _) ← split_once "'" rest;
                 if is_empty name then None else Some name
               else None
           | _ => None
           end
  | _ => None
  end.

Section client.
Context {W : Type} `{E : Env W} {K : Codecs} {M : Mac} `{De Node} (c : PxClient).

Definition pve_message (body : string) : string :=
  trim (default body (match json_from_str body with Ok v => vget "message" v ≫= as_str | Err _ => None end)).
Definition classify_unresolved_node (err : ApiError) (nodes : list Node) : ApiError :=
  match unresolved_node_name err, err with
  | Some name, Other path status body =>
      match List.find (fun n => bool_decide (Alerts.node n = name)) nodes with
      | None => ApiError.NotFound (path +:+ ": node " +:+ name +:+ " is not a member of this cluster")
      | Some n =>
          if bool_decide (Alerts.status n <> Online)
          then Other path status ("node " +:+ name +:+ " is a cluster member but offline or unreachable (" +:+ pve_message body +:+ ")")
          else Other path status body
      end
  | _, _ => err
  end.

Notation CM A := (CW W -> A * CW W).
Definition set_env (w : W) (s : CW W) : CW W := mkCW w (cw_auth s) (cw_audit s) (cw_sent s).
Definition set_auth (a : AuthMethod) (s : CW W) : CW W := mkCW (cw_env s) a (cw_audit s) (cw_sent s).
Definition set_audit (a : AuditWorld) (s : CW W) : CW W := mkCW (cw_env s) (cw_auth s) a (cw_sent s).

(** One request over the wire. *)
Definition transmit (rq : HttpRequest) : CM (ReqwestError + Response) := fun s =>
  let '(r, w) := http rq (cw_env s) in
  (r, mkCW w (cw_auth s) (cw_audit s) (cw_sent s ++ [(rq, default [] (aw_db (cw_audit s)))])).

(** [Response::text] with [unwrap_or_default] *)
Fixpoint all_chunks (l : list (ReqwestError + string)) : option string :=
  match l with [] => Some "" | inl _ :: _ => None | inr ch :: l' => r ← all_chunks l'; Some (ch +:+ r) end.
Definition response_text (b : Body) : string :=
  match all_chunks (body_chunks b) with Some s => from_utf8_lossy s | None => "" end.
Definition is_success (status : N) : bool := (200 <=? status)%N && (status <=? 299)%N.

(** ** Logging in *)
Fixpoint take_chars (n : nat) (s : string) : string :=
  match n with
  | S n' => match utf8_head s with Some (_, ch, r) => ch +:+ take_chars n' r | None => "" end
  | 0 => ""
  end.
Definition ticket_path : string := "/api2/json/access/ticket".
Definition login_request (user password : string) : HttpRequest :=
  mkRequest POST (base_url c +:+ ticket_path) [] (Form [("username", user); ("password", password)]).
Definition ticket_of (v : Value) : option (string * string) :=
  d ← vget "data" v; t ← vget "ticket" d ≫= as_str; f ← vget "CSRFPreventionToken" d ≫= as_str; Some (t, f).
Definition login (user password : string) : CM (Result AnyErr AuthMethod) := fun s =>
  let '(r, s1) := transmit (login_request user password) s in
  match r with
  | inl e => (Err (context "Failed to connect to Proxmox" {| err_chain := re_text e :: re_causes e; err_api := None |}), s1)
  | inr resp =>
      if negb (is_success (resp_status resp)) then
        let snippet := take_chars 1024 (response_text (resp_body resp)) in
        (Err (bail ("Authentication failed: " +:+ show_status (resp_status resp) +:+ " from " +:+ base_url c +:+ ticket_path
                    +:+ (if is_empty snippet then "" else " — " +:+ snippet))), s1)
      else
        match all_chunks (body_chunks (resp_body resp)) with
        | None => (Err (context "Failed to parse auth response" (bail "error decoding response body")), s1)
        | Some text =>
            match json_from_str text with
            | Err e => (Err (context "Failed to parse auth response" (bail e)), s1)
            | Ok v =>
                match ticket_of v with
                | None => (Err (context "Failed to parse auth response" (bail "missing field")), s1)
                | Some (ticket, csrf) => (Ok (PasswordAuth ticket csrf (now_ms (cw_env s1) + 7200000)), s1)
                end
            end
        end
  end.
Definition relogin : SM (CW W) AnyErr () := fun s =>
  match resolve_password (secret_sources (cw_env s)) (profile_config c) with
  | Err e => (Err e, s)
  | Ok password =>
      match login (pf_user (profile_config c)) password s with
      | (Err e, s1) => (Err e, s1)
      | (Ok a, s1) => (Ok (), set_auth a s1)
      end
  end.
Definition ensure_auth : SM (CW W) AnyErr () := fun s =>
  if needs_refresh (now_ms (cw_env s)) (cw_auth s) then relogin s else (Ok (), s).
Definition force_reauth : SM (CW W) AnyErr () := fun s =>
  match cw_auth s with
  | TokenAuth _ _ _ => (Err (bail "token auth rejected by server (401); secret may be wrong"), s)
  | PasswordAuth _ _ _ => relogin s
  end.
Definition auth_headers : SM (CW W) AnyErr (list (string * string)) := fun s =>
  match ensure_auth s with (Err e, s1) => (Err e, s1) | (Ok _, s1) => (Ok (auth_header_pairs (cw_auth s1)), s1) end.

(** ** Sending *)
Definition url_of (path : string) : string := base_url c +:+ "/api2/json" +:+ path.
Definition send_once (m : Method) (path : string) (payload : Payload) : CM (ReqwestError + Response) := fun s =>
  transmit (mkRequest m (url_of path) (apply_auth (cw_auth s)) payload) s.
Definition send_request (i : RequestIdempotency) (m : Method) (path : string) (payload : Payload) :
    CM (Result AnyErr Response) := fun s =>
  match send_with_retry ensure_auth force_reauth (send_once m path payload) (fun s => subsec_nanos (cw_env s))
          (max_attempts c) i path (attempts_bound (max_attempts c)) s with
  | Some r => (run_result r, run_world r)
  | None => (Err (bail "out of attempts"), s)
  end.
(** The body of a success, parsed. *)
Definition read_json (path : string) (b : Body) : Result AnyErr Value :=
  text ← read_bounded_body gunzip path b;
  match json_from_str text with Ok v => Ok v | Err e => Err (of_api (Parse path e)) end.

Definition get_unrefined (path : string) : CM (Result AnyErr Value) := fun s =>
  match send_request Idempotent GET path NoPayload s with
  | (Err e, s1) => (Err e, s1)
  | (Ok resp, s1) =>
      if negb (is_success (resp_status resp))
      then (Err (of_api (from_status show_status (resp_status resp) path (response_text (resp_body resp)))), s1)
      else (read_json path (resp_body resp), s1)
  end.
Definition refine_node_lookup_error (err : ApiError) : CM ApiError := fun s =>
  match unresolved_node_name err with
  | None => (err, s)
  | Some _ =>
      match get_unrefined "/nodes" s with
      | (Err _, s1) => (err, s1)
      | (Ok v, s1) => match ApiResponse v with Ok nodes => (classify_unresolved_node err nodes, s1) | Err _ => (err, s1) end
      end
  end.
Definition get (path : string) : CM (Result CallError Value) := fun s =>
  match get_unrefined path s with
  | (Ok v, s1) => (Ok v, s1)
  | (Err e, s1) =>
      match err_api e with
      | Some api => let '(api', s2) := refine_node_lookup_error api s1 in (Err (Failed (of_api api')), s2)
      | None => (Err (Failed e), s1)
      end
  end.

(** ** The gates of a mutation *)
Definition effective_read_only (s : CW W) : bool :=
  pf_read_only (if live_attached c then reloaded (cw_env s) else profile_config c).
Definition guard_read_only (path : string) (s : CW W) : Result Refusal () :=
  if effective_read_only s
  then Err (IsReadOnly (mkReadOnly (default "(default)" (pf_profile_name (profile_config c))) path))
  else Ok ().
Definition guard_not_frozen (s : CW W) : Result Refusal () :=
  match check_not_frozen_for lock_from_toml (lock_files (cw_env s)) (unix_secs (cw_env s)) (lock_locations c)
          (pf_profile_name (profile_config c)) with
  | Ok _ => Ok ()
  | Err r => Err (IsFrozen r)
  end.

Record MutationAuditCtx := mkAuditCtx {
  ac_action : string; ac_node : option string; ac_vmid : option N; ac_params_json : string }.
Definition audit_ctx (m : Method) (path : string) (params : Params) : MutationAuditCtx :=
  let '(node, vmid) := parse_pve_path path in
  let vmid :=
    match vmid with
    | Some _ => vmid
    | None => '(_, v) ← List.find (fun p => eq_ignore_ascii_case p.1 "vmid") params; parse_uint u32_max v
    end in
  mkAuditCtx (Method_as_str m +:+ " " +:+ path) node vmid
    (redact_params_json json_to_string params (profile_label (profile_config c))).
Definition write_ahead (ctx : MutationAuditCtx) : CM (Result Refusal ()) := fun s =>
  let w := cw_env s in
  match log_mutation_sent (audit_disk w) (fresh_key w) (unix_secs w) (ac_action ctx) (operator_label c) (ac_vmid ctx)
          (ac_node ctx) (ac_params_json ctx) (cw_audit s) with
  | (Ok _, a) => (Ok (), set_audit a s)
  | (Err r, a) => (Err (NotAudited r), set_audit a s)
  end.
Definition outcome (ctx : MutationAuditCtx) (text : string) (s : CW W) : CW W :=
  let w := cw_env s in
  set_audit (record_outcome (audit_disk w) (fresh_key w) (unix_secs w) (ac_action ctx) (operator_label c) (ac_vmid ctx)
               (ac_node ctx) (ac_params_json ctx) text (cw_audit s)) s.
Definition gates (m : Method) (path : string) (params : Params) : CM (Result Refusal MutationAuditCtx) := fun s =>
  match guard_read_only path s with
  | Err r => (Err r, s)
  | Ok _ =>
      match guard_not_frozen s with
      | Err r => (Err r, s)
      | Ok _ =>
          let ctx := audit_ctx m path params in
          match write_ahead ctx s with
          | (Err r, s1) => (Err r, s1)
          | (Ok _, s1) => (Ok ctx, s1)
          end
      end
  end.

(** ** Mutations: [post], [put] and [delete] *)
Definition payload_of (m : Method) (params : Params) : Payload :=
  match m with POST | PUT => Form params | GET | DELETE => NoPayload end.
Definition transport_outcome (e : AnyErr) : string := "error transport: " +:+ scrub_secrets (show_err e).
(** What follows the answer. *)
Definition conclude (ctx : MutationAuditCtx) (path : string) (r : Result AnyErr Response) : CM (Result CallError Value) := fun s =>
  match r with
  | Err e => (Err (Failed e), outcome ctx (transport_outcome e) s)
  | Ok resp =>
      let status := resp_status resp in
      if negb (is_success status) then
        let s1 := outcome ctx ("error " +:+ pretty status) s in
        let err := from_status_with_idempotency show_status status path (response_text (resp_body resp)) Mutation in
        let '(err', s2) := refine_node_lookup_error err s1 in (Err (Failed (of_api err')), s2)
      else
        (is_Failed (read_json path (resp_body resp)), outcome ctx ("ok " +:+ pretty status) s)
  end.
Definition mutate (m : Method) (path : string) (params : Params) : CM (Result CallError Value) := fun s =>
  match gates m path params s with
  | (Err r, s1) => (Err (Refused r), s1)
  | (Ok ctx, s1) => let '(r, s2) := send_request Mutation m path (payload_of m params) s1 in conclude ctx path r s2
  end.
(** [tokio::time::timeout] around a [post]: the call is dropped where it is. *)
Definition post_within (path : string) (params : Params) : CM (option (Result CallError Value)) := fun s =>
  match time_is_up (cw_env s) with
  | None => let '(r, s1) := mutate POST path params s in (Some r, s1)
  | Some cut =>
      match gates POST path params s with
      | (Err r, s1) => (Some (Err (Refused r)), s1)
      | (Ok ctx, s1) =>
          match cut with
          | BeforeSend => (None, s1)
          | InFlight => let '(_, s2) := send_request Mutation POST path (payload_of POST params) s1 in (None, s2)
          | ReadingBody =>
              let '(r, s2) := send_request Mutation POST path (payload_of POST params) s1 in
              let '(_, s3) := conclude ctx path r s2 in (None, s3)
          end
      end
  end.
(** [upload_to_storage] sends on its own: once, and past the guard on the path. *)
Definition upload (path content_type filename : string) : CM (Result CallError Value) := fun s =>
  match gates POST path [("content", content_type); ("filename", filename)] s with
  | (Err r, s1) => (Err (Refused r), s1)
  | (Ok ctx, s1) =>
      match ensure_auth s1 with
      | (Err e, s2) => (Err (Failed e), s2)
      | (Ok _, s2) =>
          let '(r, s3) := send_once POST path (Multipart content_type filename) s2 in
          match r with
          | inl e =>
              let err := {| err_chain := re_text e :: re_causes e; err_api := None |} in
              (Err (Failed err), outcome ctx (transport_outcome err) s3)
          | inr resp =>
              let status := resp_status resp in
              if negb (is_success status)
              then (Err (Failed (of_api (from_status show_status status path (response_text (resp_body resp))))),
                    outcome ctx ("error " +:+ pretty status) s3)
              else (is_Failed (read_json path (resp_body resp)), outcome ctx ("ok " +:+ pretty status) s3)
          end
      end
  end.

(** ** Running a program *)
Definition verb (m : Method) (path : string) (params : Params) : CM (Result CallError Value) :=
  match m with GET => get path | _ => mutate m path params end.
Fixpoint run {A} (p : Http A) (s : CW W) : Result CallError A * CW W :=
  match p with
  | Return r => (r, s)
  | Request m path params k => let '(r, s1) := verb m (show_path path) params s in run (k r) s1
  | PostWithin path params k => let '(r, s1) := post_within (show_path path) params s in run (k r) s1
  | UploadFile path ct fn k => let '(r, s1) := upload (show_path path) ct fn s in run (k r) s1
  | Now k => run (k (now_ms (cw_env s))) s
  | Sleep ms k => run k (set_env (pass_ms ms (cw_env s)) s)
  end.
End client.
