(* ===== verification/ApiEndpoints.v ===== *)
(** * The methods of the API client: the [ProxmoxGateway] of api/client.rs

    One program per method of the trait.  Where the answer is only passed on,
    its type is left open: [A] with its derived deserialiser [De]. *)

From S2P Require Import Prelude.
From S2P Require Import Json.
From S2P Require Import ApiError.
From S2P Require Import StateApply.
From S2P Require Import Guest.
From S2P Require Import SortBy.
From S2P Require Import F64.
From S2P Require Import Alerts.
From S2P Require Import McpDispatch.
From S2P Require Import ApiClient.

Definition type_path (t : GuestType) : string := match t with Qemu => "qemu" | Lxc => "lxc" end.
Definition flag (b : bool) : string := if b then "1" else "0".
Definition opt_param (k : string) (o : option string) : Params := match o with Some v => [(k, v)] | None => [] end.
Definition opt_query (k : string) (o : option string) : list
    (string * Piece) := match o with Some v => [(k, Enc v)] | None => [] end.
(** The answer is read and dropped. *)
Definition ignore {A} (p : Http A) : Http unit := p ≫= (fun _ => mret ()).
Definition with_context {A} (c : string) (r : Result CallError A) : Http A :=
  Return (match r with Ok a => Ok a | Err e => Err (err_context c e) end).

Inductive RrdTimeframe := Hour | Day | Week | Month | Year.
Definition RrdTimeframe_as_pve_str (t : RrdTimeframe) : string :=
  match t with Hour => "hour" | Day => "day" | Week => "week" | Month => "month" | Year => "year" end.
Inductive RrdCf := Average | Max.
Definition RrdCf_as_pve_str (c : RrdCf) : string := match c with Average => "AVERAGE" | Max => "MAX" end.

(** A JSON object with any keys. *)
Record JsonMap := mkJsonMap { fields : list (string * Value) }.
#[export] Instance De_JsonMap : De JsonMap :=
  {| de_value := fun v => match v with JObject m => Ok (mkJsonMap m) | _ => Err "invalid type, expected a map" end; de_missing := None |}.

(** A user: the id, and the fields no method reads. *)
Record User := mkUser { us_userid : string; us_rest : Value }.

(** ** ZFS pools *)
Inductive RawZfsNode := mkZfsNode {
  rz_name : string; rz_state : string; rz_read : Value; rz_write : Value; rz_cksum : Value; rz_msg : option string;
  rz_children : list RawZfsNode }.
Record RawZfsDetail := mkZfsDetail {
  rd_name : string; rd_state : string; rd_scan : string; rd_errors : string; rd_children : list RawZfsNode }.
Record ZfsVdev := mkZfsVdev {
  vd_name : string; vd_state : string; vd_read : N; vd_write : N; vd_cksum : N; vd_msg : option string }.
Record ZfsPoolDetail := mkZfsPoolDetail {
  zp_name : string; zp_state : string; zp_scan : string; zp_errors : string; zp_children : list ZfsVdev }.
Definition zfs_count_to_u64 (v : Value) : N :=
  match v with
  | JNumber z => if (0 <=? z)%Z then Z.to_N z else 0
  | JString s => default 0%N (parse_uint u64_max s)
  | _ => 0
  end.
Fixpoint flatten_zfs_node (n : RawZfsNode) : list ZfsVdev :=
  mkZfsVdev (rz_name n) (rz_state n) (zfs_count_to_u64 (rz_read n)) (zfs_count_to_u64 (rz_write n)) (zfs_count_to_u64 (rz_cksum n))
    (rz_msg n)
  :: (fix go (l : list RawZfsNode) := match l with [] => [] | x :: l' => flatten_zfs_node x ++ go l' end) (rz_children n).
Fixpoint flatten_zfs_children (nodes : list RawZfsNode) : list ZfsVdev :=
  match nodes with [] => [] | n :: rest => flatten_zfs_node n ++ flatten_zfs_children rest end.

Definition get_nodes `{De Node} : Http (list Node) :=
  nodes ← api_get (mkPath [Lit "/nodes"] []);
  mret (sort_by (fun a b => String.compare (Alerts.node a) (Alerts.node b)) nodes).
Definition label_guest (node : string) (t : GuestType) (g : Guest) : Guest :=
  Build_Guest (g_vmid g) (g_name g) (g_status g) t node (g_cpus g) (g_mem g) (g_maxmem g) (g_disk g) (g_maxdisk g)
    (g_uptime g) (g_tags g) (g_lock g) (g_hastate g) (g_template g) (g_netin g) (g_netout g).
(** Both lists are asked for, whatever the first answer is. *)
Definition get_guests `{De Guest} (node : string) : Http (list Guest) :=
  qemu_result ← attempt (api_get (mkPath [Lit "/nodes/"; Seg node; Lit "/qemu"] []));
  lxc_result ← attempt (api_get (mkPath [Lit "/nodes/"; Seg node; Lit "/lxc"] []));
  qemu ← with_context "listing QEMU guests" qemu_result;
  lxc ← with_context "listing LXC guests" lxc_result;
  mret ((label_guest node Qemu <$> qemu) ++ (label_guest node Lxc <$> lxc)).
Definition is_wrong_hierarchy (e : CallError) : bool :=
  match err_api (to_any e) with
  | Some (ApiError.NotFound _) => true
  | Some (Other _ status _) => (status =? 500)%N
  | _ => false
  end.
Definition get_guest_status `{De Guest} (node : string) (vmid : N) : Http Guest :=
  r ← attempt (api_get (mkPath [Lit "/nodes/"; Seg node; Lit "/qemu/"; Num vmid; Lit "/status/current"] []));
  match r with
  | Ok g => mret (label_guest node Qemu g)
  | Err e =>
      if negb (is_wrong_hierarchy e)
      then Return (Err (err_context ("querying QEMU status for guest " +:+ pretty vmid +:+ " on node " +:+ node) e))
      else
        g ← api_get (mkPath [Lit "/nodes/"; Seg node; Lit "/lxc/"; Num vmid; Lit "/status/current"] []);
        mret (label_guest node Lxc g)
  end.
Definition get_storage_pools `{De StoragePool} (node : string) : Http (list StoragePool) :=
  pools ← api_get (mkPath [Lit "/nodes/"; Seg node; Lit "/storage"] []);
  mret ((fun p => mkStoragePool (sp_storage p) node (sp_type p) (sp_used p) (sp_avail p) (sp_total p) (sp_active p)
                    (sp_content p) (sp_shared p))
        <$> sort_by (fun a b => String.compare (sp_storage a) (sp_storage b)) pools).
Definition get_task_log {A} `{De A} (node upid : string) (start limit : N) : Http (nat * list A) :=
  data ← api_get (A := list A) (mkPath [Lit "/nodes/"; Seg node; Lit "/tasks/"; Seg upid; Lit "/log"]
    [("start", Num start); ("limit", Num limit)]);
  mret (length data, data).
(** The value of a key as text; [to_string] is the JSON writer. *)
Definition config_text (to_string : Value -> string) (v : Value) : string := match v with JString s => s | _ => to_string v end.
Definition get_guest_config `{Codecs} (node : string) (vmid : N) (guest_type : GuestType) : Http (list (string * string)) :=
  cfg ← api_get (A := JsonMap) (mkPath [Lit "/nodes/"; Seg node; Lit "/"; Lit (type_path guest_type); Lit "/"; Num vmid; Lit "/config"]
    []);
  mret ((fun kv => (kv.1, config_text json_to_string kv.2)) <$> fields cfg).
Definition newest_first (a b : TaskInfo) : comparison :=
  then_cmp (N.compare (ti_starttime b) (ti_starttime a)) (String.compare (ti_upid a) (ti_upid b)).
Definition get_cluster_tasks `{De TaskInfo} : Http (list TaskInfo) :=
  tasks ← api_get (mkPath [Lit "/cluster/tasks"] []);
  mret (sort_by newest_first tasks).
Definition get_task_status {A} `{De A} (node : string) (upid : string) : Http A :=
  api_get (mkPath [Lit "/nodes/"; Seg node; Lit "/tasks/"; Seg upid; Lit "/status"] []).
Definition start_guest (node : string) (vmid : N) (guest_type : GuestType) : Http string :=
  api_post (mkPath [Lit "/nodes/"; Seg node; Lit "/"; Lit (type_path guest_type); Lit "/"; Num vmid; Lit "/status/start"]
    []) [].
(** [force] is not sent. *)
Definition stop_guest (node : string) (vmid : N) (guest_type : GuestType) (force : bool) : Http string :=
  api_post (mkPath [Lit "/nodes/"; Seg node; Lit "/"; Lit (type_path guest_type); Lit "/"; Num vmid; Lit "/status/stop"] []) [].
Definition shutdown_guest (node : string) (vmid : N) (guest_type : GuestType) (timeout_secs : N) : Http string :=
  let params :=
    match guest_type with
    | Qemu => [("timeout", pretty timeout_secs); ("forceStop", "1")]
    | Lxc => [("timeout", pretty timeout_secs)]
    end in
  api_post (mkPath [Lit "/nodes/"; Seg node; Lit "/"; Lit (type_path guest_type); Lit "/"; Num vmid; Lit "/status/shutdown"]
    []) params.
Definition restart_guest (node : string) (vmid : N) (guest_type : GuestType) : Http string :=
  api_post (mkPath [Lit "/nodes/"; Seg node; Lit "/"; Lit (type_path guest_type); Lit "/"; Num vmid; Lit "/status/reboot"]
    []) [].
Definition suspend_guest (node : string) (vmid : N) (guest_type : GuestType) : Http string :=
  api_post (mkPath [Lit "/nodes/"; Seg node; Lit "/"; Lit (type_path guest_type); Lit "/"; Num vmid; Lit "/status/suspend"]
    []) [].
Definition resume_guest (node : string) (vmid : N) (guest_type : GuestType) : Http string :=
  api_post (mkPath [Lit "/nodes/"; Seg node; Lit "/"; Lit (type_path guest_type); Lit "/"; Num vmid; Lit "/status/resume"]
    []) [].
Definition startall_node (node : string) : Http string :=
  api_post (mkPath [Lit "/nodes/"; Seg node; Lit "/startall"] []) [].
Definition stopall_node (node : string) : Http string :=
  api_post (mkPath [Lit "/nodes/"; Seg node; Lit "/stopall"] []) [].
Definition suspendall_node (node : string) : Http string :=
  api_post (mkPath [Lit "/nodes/"; Seg node; Lit "/suspendall"] []) [].
Definition node_apt_repositories (node : string) : Http Value :=
  api_get (mkPath [Lit "/nodes/"; Seg node; Lit "/apt/repositories"] []).
Definition node_apt_changelog (node : string) (package : string) : Http string :=
  api_get (mkPath [Lit "/nodes/"; Seg node; Lit "/apt/changelog"] [("name", Enc package)]).
Definition node_apt_versions {A} `{De A} (node : string) : Http (list A) :=
  api_get (mkPath [Lit "/nodes/"; Seg node; Lit "/apt/versions"] []).
Definition get_guest_rrddata {A} `{De A} (node : string) (vmid : N) (guest_type : GuestType)
    (timeframe : RrdTimeframe) (cf : RrdCf) : Http (list A) :=
  api_get (mkPath [Lit "/nodes/"; Seg node; Lit "/"; Lit (type_path guest_type); Lit "/"; Num vmid; Lit "/rrddata"]
    [("timeframe", Lit (RrdTimeframe_as_pve_str timeframe)); ("cf", Lit (RrdCf_as_pve_str cf))]).
Definition get_node_rrddata {A} `{De A} (node : string) (timeframe : RrdTimeframe) (cf : RrdCf) : Http (list A) :=
  api_get (mkPath [Lit "/nodes/"; Seg node; Lit "/rrddata"]
    [("timeframe", Lit (RrdTimeframe_as_pve_str timeframe)); ("cf", Lit (RrdCf_as_pve_str cf))]).
Definition get_storage_rrddata {A} `{De A} (node : string) (storage : string) (timeframe : RrdTimeframe)
    (cf : RrdCf) : Http (list A) :=
  api_get (mkPath [Lit "/nodes/"; Seg node; Lit "/storage/"; Enc storage; Lit "/rrddata"]
    [("timeframe", Lit (RrdTimeframe_as_pve_str timeframe)); ("cf", Lit (RrdCf_as_pve_str cf))]).
Definition migrate_guest (node : string) (vmid : N) (guest_type : GuestType) (target_node : string)
    (online with_local_disks restart : bool) : Http string :=
  let params :=
    [("target", target_node)]
    ++ match guest_type with
       | Qemu => if online then [("online", "1")] else []
       | Lxc => if restart then [("restart", "1")] else []
       end
    ++ (if with_local_disks then [("with-local-disks", "1")] else []) in
  api_post (mkPath [Lit "/nodes/"; Seg node; Lit "/"; Lit (type_path guest_type); Lit "/"; Num vmid; Lit "/migrate"] []) params.
Definition GuestStatus_debug (s : GuestStatus) : string :=
  match s with Running => "Running" | Stopped => "Stopped" | Paused => "Paused" | Suspended => "Suspended" | Guest.Unknown => "Unknown" end.
(** The guest is looked at again before it is deleted. *)
Definition delete_guest `{De Guest} (node : string) (vmid : N) (guest_type : GuestType) : Http string :=
  let kind := type_path guest_type in
  r ← attempt (api_get (mkPath [Lit "/nodes/"; Seg node; Lit "/"; Lit kind; Lit "/"; Num vmid; Lit "/status/current"] []));
  pre ← with_context ("pre-flight status check for delete of " +:+ kind +:+ " " +:+ pretty vmid) r;
  if bool_decide (g_status pre <> Stopped)
  then failed (bail ("refusing destructive delete: " +:+ kind +:+ " " +:+ pretty vmid +:+ " is now "
                     +:+ GuestStatus_debug (g_status pre) +:+ " (was expected Stopped). Stop the guest first, then retry."))
  else api_delete (mkPath [Lit "/nodes/"; Seg node; Lit "/"; Lit kind; Lit "/"; Num vmid] []).
(** [AgentExecResponse] is its pid. *)
Record AgentExecStatus := mkExecStatus { ex_exited : bool; ex_exitcode : Z; ex_out : string; ex_err : string }.
Record GuestExecResult := mkExecResult { gx_exit_code : Z; gx_stdout : string; gx_stderr : string }.
Definition QGA_EXEC_TIMEOUT : N := 15000.
Definition QGA_POLL_INTERVAL : N := 250.
(** One pass per poll; at least [QGA_POLL_INTERVAL] passes between two, so the deadline ends it. *)
Definition exec_fuel : nat := N.to_nat (QGA_EXEC_TIMEOUT / QGA_POLL_INTERVAL) + 1.
Fixpoint poll_exec `{De AgentExecStatus} (fuel : nat) (vmid : N) (pid : Z) (path : Path) (deadline : N) : Http GuestExecResult :=
  Now (fun now =>
    match fuel with
    | S fuel' =>
        if (deadline <=? now)%N then
          failed (bail ("QEMU guest agent exec on guest " +:+ pretty vmid +:+ " (pid " +:+ pretty pid +:+ ") did not "
                        +:+ "complete within 15s — command still running, abandoning poll"))
        else
          st ← api_get path;
          if ex_exited st then mret (mkExecResult (ex_exitcode st) (ex_out st) (ex_err st))
          else Sleep QGA_POLL_INTERVAL (poll_exec fuel' vmid pid path deadline)
    | 0 => failed (bail "out of fuel")
    end).
Definition execute_guest_command `{Codecs} `{De AgentExecStatus} `{De Z} (node : string) (vmid : N) (guest_type : GuestType)
    (command : string) : Http GuestExecResult :=
  let cmds := json_to_string (JArray [JString "sh"; JString "-c"; JString command]) in
  match guest_type with
  | Qemu =>
      let exec_path := mkPath [Lit "/nodes/"; Seg node; Lit "/qemu/"; Num vmid; Lit "/agent/exec"] [] in
      PostWithin exec_path [("command", cmds)] (fun r =>
        match r with
        | None =>
            failed (bail ("QEMU guest agent on guest " +:+ pretty vmid +:+ " did not respond within 15s "
                          +:+ "— agent likely wedged (kernel hang, Windows update, or QGA not installed)"))
        | Some r =>
            pid ← Return (typed exec_path r);
            Now (fun now =>
              poll_exec exec_fuel vmid pid
                (mkPath [Lit "/nodes/"; Seg node; Lit "/qemu/"; Num vmid; Lit "/agent/exec-status"] [("pid", Int pid)])
                (now + QGA_EXEC_TIMEOUT))
        end)
  | Lxc =>
      failed (bail ("LXC exec via REST is not available in PVE 9+. Use `proxxx serial <vmid>` for an interactive session, "
        +:+ "or run the command over SSH against the host (lxc containers expose their network interfaces under "
        +:+ "`/lxc/{vmid}/interfaces`)"))
  end.
Definition qemu_agent_file_read {A} `{De A} (node : string) (vmid : N) (file : string) : Http A :=
  api_get (mkPath [Lit "/nodes/"; Seg node; Lit "/qemu/"; Num vmid; Lit "/agent/file-read"] [("file", Enc file)]).
Definition qemu_agent_file_write (node : string) (vmid : N) (file : string) (content : string) : Http unit :=
  ignore (A := option string)
    (api_post (mkPath [Lit "/nodes/"; Seg node; Lit "/qemu/"; Num vmid; Lit "/agent/file-write"]
      []) [("file", file); ("content", content)]).
Definition qemu_agent_network_get_interfaces {A} `{De A} (node : string) (vmid : N) : Http (list A) :=
  let path := mkPath [Lit "/nodes/"; Seg node; Lit "/qemu/"; Num vmid; Lit "/agent/network-get-interfaces"] [] in
  data ← api_get (A := Value) path;
  match de_value (default (JArray []) (vget "result" data)) with
  | Ok ifaces => mret ifaces
  | Err e => failed (of_api (Parse (show_path path) e))
  end.
Definition get_node_dns {A} `{De A} (node : string) : Http A :=
  api_get (mkPath [Lit "/nodes/"; Seg node; Lit "/dns"] []).
Definition update_node_dns (node : string) (params : Params) : Http unit :=
  ignore (A := option string) (api_put (mkPath [Lit "/nodes/"; Seg node; Lit "/dns"] []) params).
Definition get_node_hosts {A} `{De A} (node : string) : Http A :=
  api_get (mkPath [Lit "/nodes/"; Seg node; Lit "/hosts"] []).
Definition update_node_hosts (node data : string) (digest : option string) : Http unit :=
  ignore (A := option string)
    (api_post (mkPath [Lit "/nodes/"; Seg node; Lit "/hosts"] []) ([("data", data)] ++ opt_param "digest" digest)).
Definition get_node_journal (node : string) (query : Params) : Http (list string) :=
  api_get (mkPath [Lit "/nodes/"; Seg node; Lit "/journal"] ((fun kv => (kv.1, Enc kv.2)) <$> query)).
Definition get_node_syslog {A} `{De A} (node : string) (query : Params) : Http (list A) :=
  api_get (mkPath [Lit "/nodes/"; Seg node; Lit "/syslog"] ((fun kv => (kv.1, Enc kv.2)) <$> query)).
Definition get_node_time {A} `{De A} (node : string) : Http A :=
  api_get (mkPath [Lit "/nodes/"; Seg node; Lit "/time"] []).
Definition update_node_timezone (node : string) (timezone : string) : Http unit :=
  ignore (A := option string) (api_put (mkPath [Lit "/nodes/"; Seg node; Lit "/time"] []) [("timezone", timezone)]).
Definition wakeonlan_node (node : string) : Http string :=
  api_post (mkPath [Lit "/nodes/"; Seg node; Lit "/wakeonlan"] []) [].
Definition get_node_subscription {A} `{De A} (node : string) : Http A :=
  api_get (mkPath [Lit "/nodes/"; Seg node; Lit "/subscription"] []).
Definition set_node_subscription_key (node : string) (key : string) : Http unit :=
  ignore (A := option string) (api_post (mkPath [Lit "/nodes/"; Seg node; Lit "/subscription"] []) [("key", key)]).
Definition refresh_node_subscription (node : string) : Http unit :=
  ignore (A := option string) (api_put (mkPath [Lit "/nodes/"; Seg node; Lit "/subscription"] []) []).
Definition delete_node_subscription (node : string) : Http unit :=
  ignore (A := option string) (api_delete (mkPath [Lit "/nodes/"; Seg node; Lit "/subscription"] [])).
Definition get_node_certificates_info {A} `{De A} (node : string) : Http (list A) :=
  api_get (mkPath [Lit "/nodes/"; Seg node; Lit "/certificates/info"] []).
Definition upload_node_custom_certificate (node : string) (params : Params) : Http unit :=
  ignore (A := Value) (api_post (mkPath [Lit "/nodes/"; Seg node; Lit "/certificates/custom"] []) params).
Definition delete_node_custom_certificate (node : string) (restart : bool) : Http unit :=
  ignore (A := option string)
    (api_delete (mkPath [Lit "/nodes/"; Seg node; Lit "/certificates/custom"] [("restart", Lit (flag restart))])).
Definition order_node_acme_certificate (node : string) (force : bool) : Http string :=
  api_post (mkPath [Lit "/nodes/"; Seg node; Lit "/certificates/acme/certificate"] []) [("force", flag force)].
Definition get_node_report (node : string) : Http string :=
  api_get (mkPath [Lit "/nodes/"; Seg node; Lit "/report"] []).
Definition list_pools {A} `{De A} : Http (list A) :=
  api_get (mkPath [Lit "/pools"] []).
Definition get_pool {A} `{De A} (poolid : string) : Http A :=
  api_get (mkPath [Lit "/pools/"; Enc poolid] []).
Definition create_pool (params : Params) : Http unit :=
  ignore (A := option string) (api_post (mkPath [Lit "/pools"] []) params).
Definition update_pool (poolid : string) (params : Params) : Http unit :=
  ignore (A := option string) (api_put (mkPath [Lit "/pools/"; Enc poolid] []) params).
Definition delete_pool (poolid : string) : Http unit :=
  ignore (A := option string) (api_delete (mkPath [Lit "/pools/"; Enc poolid] [])).
Definition get_cluster_resources {A} `{De A} (kind : option string) : Http (list A) :=
  api_get (mkPath [Lit "/cluster/resources"] (opt_query "type" kind)).
Definition get_api_version {A} `{De A} : Http A :=
  api_get (mkPath [Lit "/version"] []).
Definition get_node_version {A} `{De A} (node : string) : Http A :=
  api_get (mkPath [Lit "/nodes/"; Seg node; Lit "/version"] []).
Definition get_cluster_options {A} `{De A} : Http A :=
  api_get (mkPath [Lit "/cluster/options"] []).
Definition update_cluster_options (params : Params) : Http unit :=
  ignore (A := option string) (api_put (mkPath [Lit "/cluster/options"] []) params).
Definition get_cluster_log {A} `{De A} (max : option N) : Http (list A) :=
  api_get (mkPath [Lit "/cluster/log"] (opt_query "max" (pretty <$> max))).
Definition create_snapshot (node : string) (vmid : N) (guest_type : GuestType) (name : string) : Http string :=
  api_post (mkPath [Lit "/nodes/"; Seg node; Lit "/"; Lit (type_path guest_type); Lit "/"; Num vmid; Lit "/snapshot"]
    []) [("snapname", name)].
Definition delete_snapshot (node : string) (vmid : N) (guest_type : GuestType) (name : string) : Http string :=
  api_delete (mkPath [Lit "/nodes/"; Seg node; Lit "/"; Lit (type_path guest_type); Lit "/"; Num vmid; Lit "/snapshot/"; Seg name]
    []).
Definition rollback_snapshot (node : string) (vmid : N) (guest_type : GuestType) (name : string) : Http string :=
  api_post (mkPath [Lit "/nodes/"; Seg node; Lit "/"; Lit (type_path guest_type); Lit "/"; Num vmid; Lit "/snapshot/"; Seg name; Lit "/rollback"]
    []) [].
Definition update_guest_config (node : string) (vmid : N) (guest_type : GuestType) (params : Params) : Http (option string) :=
  api_put (mkPath [Lit "/nodes/"; Seg node; Lit "/"; Lit (type_path guest_type); Lit "/"; Num vmid; Lit "/config"] []) params.
Definition regenerate_cloudinit (node : string) (vmid : N) : Http (option string) :=
  api_put (mkPath [Lit "/nodes/"; Seg node; Lit "/qemu/"; Num vmid; Lit "/cloudinit"] []) [].
Definition list_pending_config {A} `{De A} (node : string) (vmid : N) (guest_type : GuestType) : Http (list A) :=
  api_get (mkPath [Lit "/nodes/"; Seg node; Lit "/"; Lit (type_path guest_type); Lit "/"; Num vmid; Lit "/pending"] []).
Definition convert_to_template (node : string) (vmid : N) (guest_type : GuestType) : Http string :=
  data ← api_post (A := option string) (mkPath [Lit "/nodes/"; Seg node; Lit "/"; Lit (type_path guest_type); Lit "/"; Num vmid; Lit "/template"]
    []) [];
  mret (default "" data).
Definition clone_guest (node : string) (vmid : N) (guest_type : GuestType) (newid : N) (name target storage : option string)
    (full : bool) (snapname description : option string) : Http string :=
  let key := match guest_type with Qemu => "name" | Lxc => "hostname" end in
  let params :=
    [("newid", pretty newid)] ++ opt_param key name ++ opt_param "target" target ++ opt_param "storage" storage
    ++ (if full then [("full", "1")] else []) ++ opt_param "snapname" snapname ++ opt_param "description" description in
  api_post (mkPath [Lit "/nodes/"; Seg node; Lit "/"; Lit (type_path guest_type); Lit "/"; Num vmid; Lit "/clone"] []) params.
Definition next_free_vmid : Http N :=
  data ← api_get (A := string) (mkPath [Lit "/cluster/nextid"] []);
  match parse_uint u32_max data with
  | Some n => mret n
  | None => failed (context ("PVE returned non-integer nextid: " +:+ debug_str data) (bail "invalid digit found in string"))
  end.
Definition create_backup (node : string) (vmids : list N) (storage mode : string) (compress : option string) : Http string :=
  let params :=
    [("vmid", join "," (pretty <$> vmids)); ("storage", storage); ("mode", mode)] ++ opt_param "compress" compress in
  api_post (mkPath [Lit "/nodes/"; Seg node; Lit "/vzdump"] []) params.
Definition list_snapshots {A} `{De A} (node : string) (vmid : N) (guest_type : GuestType) : Http (list A) :=
  api_get (mkPath [Lit "/nodes/"; Seg node; Lit "/"; Lit (type_path guest_type); Lit "/"; Num vmid; Lit "/snapshot"] []).
Definition download_to_storage (node storage url filename : string) (checksum_algo checksum_hex : option string)
    (content : string) : Http string :=
  let params :=
    [("url", url); ("filename", filename); ("content", content)]
    ++ match checksum_algo, checksum_hex with
       | Some algo, Some hex => [("checksum", hex); ("checksum-algorithm", algo)]
       | _, _ => []
       end in
  api_post (mkPath [Lit "/nodes/"; Seg node; Lit "/storage/"; Seg storage; Lit "/download-url"] []) params.
(** The filter is put in the query as it is. *)
Definition list_storage_content {A} `{De A} (node storage : string) (content_filter : option string) : Http (list A) :=
  api_get (mkPath [Lit "/nodes/"; Seg node; Lit "/storage/"; Seg storage; Lit "/content"]
             (match content_filter with Some c => [("content", Raw c)] | None => [] end)).
Definition get_spiceproxy {A} `{De A} (node : string) (vmid : N) : Http A :=
  api_post (mkPath [Lit "/nodes/"; Seg node; Lit "/qemu/"; Num vmid; Lit "/spiceproxy"] []) [].
Definition get_termproxy {A} `{De A} (node : string) (vmid : N) (guest_type : GuestType) : Http A :=
  api_post (mkPath [Lit "/nodes/"; Seg node; Lit "/"; Lit (type_path guest_type); Lit "/"; Num vmid; Lit "/termproxy"] []) [].
Definition get_guest_vncproxy {A} `{De A} (node : string) (vmid : N) (guest_type : GuestType) : Http A :=
  api_post (mkPath [Lit "/nodes/"; Seg node; Lit "/"; Lit (type_path guest_type); Lit "/"; Num vmid; Lit "/vncproxy"] []) [].
Definition get_access_permissions (userid api_path : option string) : Http Value :=
  api_get (mkPath [Lit "/access/permissions"] (opt_query "userid" userid ++ opt_query "path" api_path)).
Definition change_user_password (userid : string) (password : string) : Http unit :=
  ignore (A := option string) (api_put (mkPath [Lit "/access/password"] []) [("userid", userid); ("password", password)]).
Definition list_lxc_interfaces {A} `{De A} (node : string) (vmid : N) : Http (list A) :=
  data ← api_get (A := option (list A)) (mkPath [Lit "/nodes/"; Seg node; Lit "/lxc/"; Num vmid; Lit "/interfaces"] []);
  mret (default [] data).
Definition dump_qemu_cloudinit (node : string) (vmid : N) (kind : string) : Http string :=
  api_get (mkPath [Lit "/nodes/"; Seg node; Lit "/qemu/"; Num vmid; Lit "/cloudinit/dump"] [("type", Enc kind)]).
Definition build_guest_vncwebsocket_url (base : string) (node : string) (vmid : N) (guest_type : GuestType) (port : N)
    (ticket : string) : string :=
  let ws_base :=
    match strip_prefix "https://" base with
    | Some rest => "wss://" +:+ rest
    | None => match strip_prefix "http://" base with Some rest => "ws://" +:+ rest | None => base end
    end in
  ws_base +:+ "/api2/json"
  +:+ show_path (mkPath [Lit "/nodes/"; Seg node; Lit "/"; Lit (type_path guest_type); Lit "/"; Num vmid; Lit "/vncwebsocket"]
                   [("port", Num port); ("vncticket", Enc ticket)]).
Definition get_lxc_spiceproxy {A} `{De A} (node : string) (vmid : N) : Http A :=
  api_post (mkPath [Lit "/nodes/"; Seg node; Lit "/lxc/"; Num vmid; Lit "/spiceproxy"] []) [].
Definition lxc_exec_oneshot (node : string) (vmid : N) (command : string) : Http Value :=
  api_post (mkPath [Lit "/nodes/"; Seg node; Lit "/lxc/"; Num vmid; Lit "/exec"] []) [("command", command)].
Definition get_node_termproxy {A} `{De A} (node : string) : Http A :=
  api_post (mkPath [Lit "/nodes/"; Seg node; Lit "/termproxy"] []) [].
Definition get_node_vncshell {A} `{De A} (node : string) : Http A :=
  api_post (mkPath [Lit "/nodes/"; Seg node; Lit "/vncshell"] []) [].
Definition get_node_spiceshell {A} `{De A} (node : string) : Http A :=
  api_post (mkPath [Lit "/nodes/"; Seg node; Lit "/spiceshell"] []) [].
Definition list_backup_jobs {A} `{De A} : Http (list A) :=
  api_get (mkPath [Lit "/cluster/backup"] []).
Definition get_backup_job {A} `{De A} (id : string) : Http A :=
  api_get (mkPath [Lit "/cluster/backup/"; Enc id] []).
Definition create_backup_job (params : Params) : Http unit :=
  ignore (A := option string) (api_post (mkPath [Lit "/cluster/backup"] []) params).
Definition update_backup_job (id : string) (params : Params) : Http unit :=
  ignore (A := option string) (api_put (mkPath [Lit "/cluster/backup/"; Enc id] []) params).
Definition delete_backup_job (id : string) : Http unit :=
  ignore (A := option string) (api_delete (mkPath [Lit "/cluster/backup/"; Enc id] [])).
Definition cluster_backup_info : Http Value :=
  api_get (mkPath [Lit "/cluster/backup-info"] []).
Definition extract_backup_config (node : string) (volume : string) : Http string :=
  api_get (mkPath [Lit "/nodes/"; Seg node; Lit "/vzdump/extractconfig"] [("volume", Enc volume)]).
Definition list_acl {A} `{De A} : Http (list A) :=
  api_get (mkPath [Lit "/access/acl"] []).
Definition list_users {A} `{De A} : Http (list A) :=
  api_get (mkPath [Lit "/access/users"] []).
Definition is_missing_user (e : CallError) : bool :=
  match err_api (to_any e) with
  | Some (Other _ status body) =>
      let lower := to_ascii_lowercase body in
      ((status =? 400) || (status =? 500))%N && (contains "does not exist" lower || contains "no such user" lower)
  | _ => false
  end.
Definition get_user `{De User} (userid : string) : Http User :=
  let path := mkPath [Lit "/access/users/"; Enc userid] [] in
  r ← attempt (api_get path);
  match r with
  | Ok u => mret (if is_empty (us_userid u) then mkUser userid (us_rest u) else u)
  | Err e =>
      if is_missing_user e
      then failed (of_api (ApiError.NotFound (show_path path +:+ ": user '" +:+ userid +:+ "' does not exist")))
      else Return (Err e)
  end.
Definition create_user (userid : string) (password comment email firstname lastname : option string) (enable : option bool)
    (expire : option N) (groups : option string) : Http unit :=
  let params :=
    [("userid", userid)] ++ opt_param "password" password ++ opt_param "comment" comment ++ opt_param "email" email
    ++ opt_param "firstname" firstname ++ opt_param "lastname" lastname ++ opt_param "enable" (flag <$> enable)
    ++ opt_param "expire" (pretty <$> expire) ++ opt_param "groups" groups in
  ignore (A := option string) (api_post (mkPath [Lit "/access/users"] []) params).
Definition update_user (userid : string) (comment email firstname lastname : option string) (enable : option bool)
    (expire : option N) (groups : option string) : Http unit :=
  let params :=
    opt_param "comment" comment ++ opt_param "email" email ++ opt_param "firstname" firstname
    ++ opt_param "lastname" lastname ++ opt_param "enable" (flag <$> enable) ++ opt_param "expire" (pretty <$> expire)
    ++ opt_param "groups" groups in
  ignore (A := option string) (api_put (mkPath [Lit "/access/users/"; Enc userid] []) params).
Definition delete_user (userid : string) : Http unit :=
  ignore (A := option string) (api_delete (mkPath [Lit "/access/users/"; Enc userid] [])).
Definition create_group (groupid : string) (comment : option string) : Http unit :=
  ignore (A := option string)
    (api_post (mkPath [Lit "/access/groups"] []) ([("groupid", groupid)] ++ opt_param "comment" comment)).
Definition delete_group (groupid : string) : Http unit :=
  ignore (A := option string) (api_delete (mkPath [Lit "/access/groups/"; Enc groupid] [])).
Definition create_role (roleid privs : string) : Http unit :=
  ignore (A := option string) (api_post (mkPath [Lit "/access/roles"] []) [("roleid", roleid); ("privs", privs)]).
Definition update_role (roleid privs : string) (append : bool) : Http unit :=
  ignore (A := option string)
    (api_put (mkPath [Lit "/access/roles/"; Enc roleid] []) [("privs", privs); ("append", flag append)]).
Definition delete_role (roleid : string) : Http unit :=
  ignore (A := option string) (api_delete (mkPath [Lit "/access/roles/"; Enc roleid] [])).
Definition modify_acl (path roles : string) (users groups tokens : option string) (propagate delete : bool) : Http unit :=
  let params :=
    [("path", path); ("roles", roles); ("propagate", flag propagate)] ++ opt_param "users" users ++ opt_param "groups" groups
    ++ opt_param "tokens" tokens ++ (if delete then [("delete", "1")] else []) in
  ignore (A := option string) (api_put (mkPath [Lit "/access/acl"] []) params).
Definition list_user_tokens {A} `{De A} (userid : string) : Http (list A) :=
  api_get (mkPath [Lit "/access/users/"; Enc userid; Lit "/token"] []).
Definition list_groups {A} `{De A} : Http (list A) :=
  api_get (mkPath [Lit "/access/groups"] []).
(** [Role], by its id and the rest; so for realms and storage definitions. *)
Definition list_roles {A} `{De A} (roleid : A -> string) : Http (list A) :=
  roles ← api_get (mkPath [Lit "/access/roles"] []);
  mret (sort_by (fun a b => String.compare (roleid a) (roleid b)) roles).
Definition list_realms {A} `{De A} (realm : A -> string) : Http (list A) :=
  realms ← api_get (mkPath [Lit "/access/domains"] []);
  mret (sort_by (fun a b => String.compare (realm a) (realm b)) realms).
Definition list_tfa {A} `{De A} (userid : string) : Http (list A) :=
  api_get (mkPath [Lit "/access/tfa/"; Enc userid] []).
Record TokenCreateResponse := mkTokenCreate { tr_privsep : bool; tr_comment : string; tr_expire : N; tr_value : string }.
Record ApiToken := mkApiToken { at_tokenid : string; at_privsep : bool; at_comment : string; at_expire : N; at_value : option string }.
Definition create_token `{De TokenCreateResponse} (userid tokenid : string) (privsep : bool) (expire : option N)
    (comment : option string) : Http ApiToken :=
  resp ← api_post (mkPath [Lit "/access/users/"; Enc userid; Lit "/token/"; Enc tokenid] [])
    ([("privsep", flag privsep)] ++ opt_param "expire" (pretty <$> expire) ++ opt_param "comment" comment);
  mret (mkApiToken tokenid (tr_privsep resp) (tr_comment resp) (tr_expire resp) (Some (tr_value resp))).
Definition revoke_token (userid : string) (tokenid : string) : Http unit :=
  ignore (A := Value) (api_delete (mkPath [Lit "/access/users/"; Enc userid; Lit "/token/"; Enc tokenid] [])).
Definition delete_storage_content (node storage volid : string) : Http (option string) :=
  api_delete (mkPath [Lit "/nodes/"; Seg node; Lit "/storage/"; Seg storage; Lit "/content/"; Enc volid] []).
(** [file_name] is the last component of the local path as text, [opened] whether the file could be opened. *)
Definition upload_to_storage (node storage local_path : string) (file_name : option string) (opened : Result string unit)
    (content_type : string) (remote_filename : option string) : Http string :=
  match (match remote_filename with Some n => Some n | None => file_name end) with
  | None => failed (bail ("could not derive filename from local path " +:+ local_path))
  | Some filename =>
      match opened with
      | Err e => failed (context ("opening " +:+ local_path +:+ " for upload") (bail e))
      | Ok _ =>
          let path := mkPath [Lit "/nodes/"; Seg node; Lit "/storage/"; Seg storage; Lit "/upload"] [] in
          UploadFile path content_type filename (fun r => Return (typed path r))
      end
  end.
Definition list_pci {A} `{De A} (node : string) : Http (list A) :=
  api_get (mkPath [Lit "/nodes/"; Seg node; Lit "/hardware/pci"] []).
Definition list_cluster_firewall_rules {A} `{De A} : Http (list A) :=
  api_get (mkPath [Lit "/cluster/firewall/rules"] []).
Definition list_node_firewall_rules {A} `{De A} (node : string) : Http (list A) :=
  api_get (mkPath [Lit "/nodes/"; Seg node; Lit "/firewall/rules"] []).
Definition list_guest_firewall_rules {A} `{De A} (node : string) (vmid : N) (guest_type : GuestType) : Http (list A) :=
  api_get (mkPath [Lit "/nodes/"; Seg node; Lit "/"; Lit (type_path guest_type); Lit "/"; Num vmid; Lit "/firewall/rules"] []).
Definition list_cluster_firewall_aliases {A} `{De A} : Http (list A) :=
  api_get (mkPath [Lit "/cluster/firewall/aliases"] []).
Definition create_cluster_firewall_alias (params : Params) : Http unit :=
  ignore (A := option string) (api_post (mkPath [Lit "/cluster/firewall/aliases"] []) params).
Definition update_cluster_firewall_alias (name : string) (params : Params) : Http unit :=
  ignore (A := option string) (api_put (mkPath [Lit "/cluster/firewall/aliases/"; Enc name] []) params).
Definition delete_cluster_firewall_alias (name : string) : Http unit :=
  ignore (A := option string) (api_delete (mkPath [Lit "/cluster/firewall/aliases/"; Enc name] [])).
Definition list_cluster_firewall_groups {A} `{De A} : Http (list A) :=
  api_get (mkPath [Lit "/cluster/firewall/groups"] []).
Definition create_cluster_firewall_group (params : Params) : Http unit :=
  ignore (A := option string) (api_post (mkPath [Lit "/cluster/firewall/groups"] []) params).
Definition delete_cluster_firewall_group (group : string) : Http unit :=
  ignore (A := option string) (api_delete (mkPath [Lit "/cluster/firewall/groups/"; Enc group] [])).
Definition list_cluster_firewall_group_rules {A} `{De A} (group : string) : Http (list A) :=
  api_get (mkPath [Lit "/cluster/firewall/groups/"; Enc group] []).
Definition list_cluster_firewall_ipsets {A} `{De A} : Http (list A) :=
  api_get (mkPath [Lit "/cluster/firewall/ipset"] []).
Definition create_cluster_firewall_ipset (params : Params) : Http unit :=
  ignore (A := option string) (api_post (mkPath [Lit "/cluster/firewall/ipset"] []) params).
Definition delete_cluster_firewall_ipset (name : string) : Http unit :=
  ignore (A := option string) (api_delete (mkPath [Lit "/cluster/firewall/ipset/"; Enc name] [])).
Definition list_cluster_firewall_ipset_cidrs {A} `{De A} (name : string) : Http (list A) :=
  api_get (mkPath [Lit "/cluster/firewall/ipset/"; Enc name] []).
Definition add_cluster_firewall_ipset_cidr (name : string) (params : Params) : Http unit :=
  ignore (A := option string) (api_post (mkPath [Lit "/cluster/firewall/ipset/"; Enc name] []) params).
Definition remove_cluster_firewall_ipset_cidr (name : string) (cidr : string) : Http unit :=
  ignore (A := option string) (api_delete (mkPath [Lit "/cluster/firewall/ipset/"; Enc name; Lit "/"; Enc cidr] [])).
Definition get_cluster_firewall_options {A} `{De A} : Http A :=
  api_get (mkPath [Lit "/cluster/firewall/options"] []).
Definition update_cluster_firewall_options (params : Params) : Http unit :=
  ignore (A := option string) (api_put (mkPath [Lit "/cluster/firewall/options"] []) params).
Definition list_guest_firewall_aliases {A} `{De A} (node : string) (vmid : N) (guest_type : GuestType) : Http (list A) :=
  api_get (mkPath [Lit "/nodes/"; Seg node; Lit "/"; Lit (type_path guest_type); Lit "/"; Num vmid; Lit "/firewall/aliases"]
    []).
Definition create_guest_firewall_alias (node : string) (vmid : N) (guest_type : GuestType) (params : Params) : Http unit :=
  ignore (A := option string)
    (api_post (mkPath [Lit "/nodes/"; Seg node; Lit "/"; Lit (type_path guest_type); Lit "/"; Num vmid; Lit "/firewall/aliases"] []) params).
Definition update_guest_firewall_alias (node : string) (vmid : N) (guest_type : GuestType) (name : string)
    (params : Params) : Http unit :=
  ignore (A := option string)
    (api_put (mkPath [Lit "/nodes/"; Seg node; Lit "/"; Lit (type_path guest_type); Lit "/"; Num vmid; Lit "/firewall/aliases/"; Enc name]
      []) params).
Definition delete_guest_firewall_alias (node : string) (vmid : N) (guest_type : GuestType) (name : string) : Http unit :=
  ignore (A := option string)
    (api_delete (mkPath [Lit "/nodes/"; Seg node; Lit "/"; Lit (type_path guest_type); Lit "/"; Num vmid; Lit "/firewall/aliases/"; Enc name]
      [])).
Definition get_guest_firewall_options {A} `{De A} (node : string) (vmid : N) (guest_type : GuestType) : Http A :=
  api_get (mkPath [Lit "/nodes/"; Seg node; Lit "/"; Lit (type_path guest_type); Lit "/"; Num vmid; Lit "/firewall/options"]
    []).
Definition update_guest_firewall_options (node : string) (vmid : N) (guest_type : GuestType) (params : Params) : Http unit :=
  ignore (A := option string)
    (api_put (mkPath [Lit "/nodes/"; Seg node; Lit "/"; Lit (type_path guest_type); Lit "/"; Num vmid; Lit "/firewall/options"] []) params).
Definition list_cluster_mapping_pci {A} `{De A} : Http (list A) :=
  api_get (mkPath [Lit "/cluster/mapping/pci"] []).
Definition create_cluster_mapping_pci (params : Params) : Http unit :=
  ignore (A := option string) (api_post (mkPath [Lit "/cluster/mapping/pci"] []) params).
Definition update_cluster_mapping_pci (id : string) (params : Params) : Http unit :=
  ignore (A := option string) (api_put (mkPath [Lit "/cluster/mapping/pci/"; Enc id] []) params).
Definition delete_cluster_mapping_pci (id : string) : Http unit :=
  ignore (A := option string) (api_delete (mkPath [Lit "/cluster/mapping/pci/"; Enc id] [])).
Definition list_cluster_mapping_usb {A} `{De A} : Http (list A) :=
  api_get (mkPath [Lit "/cluster/mapping/usb"] []).
Definition create_cluster_mapping_usb (params : Params) : Http unit :=
  ignore (A := option string) (api_post (mkPath [Lit "/cluster/mapping/usb"] []) params).
Definition update_cluster_mapping_usb (id : string) (params : Params) : Http unit :=
  ignore (A := option string) (api_put (mkPath [Lit "/cluster/mapping/usb/"; Enc id] []) params).
Definition delete_cluster_mapping_usb (id : string) : Http unit :=
  ignore (A := option string) (api_delete (mkPath [Lit "/cluster/mapping/usb/"; Enc id] [])).
Definition list_node_network {A} `{De A} (node : string) : Http (list A) :=
  api_get (mkPath [Lit "/nodes/"; Seg node; Lit "/network"] []).
Definition list_usb {A} `{De A} (node : string) : Http (list A) :=
  api_get (mkPath [Lit "/nodes/"; Seg node; Lit "/hardware/usb"] []).
Definition list_node_disks {A} `{De A} (node : string) : Http (list A) :=
  api_get (mkPath [Lit "/nodes/"; Seg node; Lit "/disks/list"] []).
Definition get_disk_smart {A} `{De A} (node : string) (disk : string) : Http A :=
  api_get (mkPath [Lit "/nodes/"; Seg node; Lit "/disks/smart"] [("disk", Enc disk)]).
(** [LvmTree] is its children; absent, there are none. *)
Definition list_node_lvm {A} `{De A} (node : string) : Http (list A) :=
  let path := mkPath [Lit "/nodes/"; Seg node; Lit "/disks/lvm"] [] in
  tree ← api_get (A := JsonMap) path;
  match jget "children" (fields tree) with
  | None => mret []
  | Some v => match de_value v with Ok l => mret l | Err e => failed (of_api (Parse (show_path path) e)) end
  end.
Definition list_node_lvmthin {A} `{De A} (node : string) : Http (list A) :=
  api_get (mkPath [Lit "/nodes/"; Seg node; Lit "/disks/lvmthin"] []).
Definition list_node_zfs {A} `{De A} (node : string) : Http (list A) :=
  api_get (mkPath [Lit "/nodes/"; Seg node; Lit "/disks/zfs"] []).
Definition get_node_zfs_detail `{De RawZfsDetail} (node name : string) : Http ZfsPoolDetail :=
  raw ← api_get (mkPath [Lit "/nodes/"; Seg node; Lit "/disks/zfs/"; Seg name] []);
  mret (mkZfsPoolDetail (rd_name raw) (rd_state raw) (rd_scan raw) (rd_errors raw) (flatten_zfs_children (rd_children raw))).
Record SerialDevice := mkSerial { sd_index : N; sd_target : string }.
Definition serial_device (kv : string * string) : option SerialDevice :=
  rest ← strip_prefix "serial" kv.1;
  index ← parse_uint 255 rest;
  if (index <=? 3)%N then Some (mkSerial index kv.2) else None.
Definition guest_serial_devices `{Codecs} (node : string) (vmid : N) (guest_type : GuestType) : Http (list SerialDevice) :=
  match guest_type with
  | Lxc => mret []
  | Qemu =>
      cfg ← get_guest_config node vmid guest_type;
      mret (sort_by (fun a b => N.compare (sd_index a) (sd_index b)) (omap serial_device cfg))
  end.
Record RrdPoint := mkRrdPoint { rp_time : N; rp_diskread : option f64; rp_diskwrite : option f64 }.
Record DiskIoRate := mkIoRate {
  io_read_bps : f64; io_write_bps : f64; io_read_iops : option f64; io_write_iops : option f64; io_sampled_at : N }.
Definition guest_disk_io_rate `{De RrdPoint} (node : string) (vmid : N) (guest_type : GuestType) : Http (option DiskIoRate) :=
  points ← get_guest_rrddata node vmid guest_type Hour Average;
  mret ((fun p => mkIoRate (default (f64_of_Z 0) (rp_diskread p)) (default (f64_of_Z 0) (rp_diskwrite p)) None None (rp_time p))
        <$> List.find (fun p => bool_decide (is_Some (rp_diskread p)) || bool_decide (is_Some (rp_diskwrite p))) (reverse points)).
Definition list_ha_groups {A} `{De A} : Http (list A) :=
  api_get (mkPath [Lit "/cluster/ha/rules"] []).
Definition list_ha_resources {A} `{De A} : Http (list A) :=
  api_get (mkPath [Lit "/cluster/ha/resources"] []).
Definition ha_manager_status {A} `{De A} : Http A :=
  api_get (mkPath [Lit "/cluster/ha/status/manager_status"] []).
Definition get_ha_status_current {A} `{De A} : Http (list A) :=
  api_get (mkPath [Lit "/cluster/ha/status/current"] []).
Definition list_ha_groups_legacy {A} `{De A} : Http (list A) :=
  api_get (mkPath [Lit "/cluster/ha/groups"] []).
Definition create_ha_group (params : Params) : Http unit :=
  ignore (A := option string) (api_post (mkPath [Lit "/cluster/ha/groups"] []) params).
Definition update_ha_group (group : string) (params : Params) : Http unit :=
  ignore (A := option string) (api_put (mkPath [Lit "/cluster/ha/groups/"; Enc group] []) params).
Definition delete_ha_group (group : string) : Http unit :=
  ignore (A := option string) (api_delete (mkPath [Lit "/cluster/ha/groups/"; Enc group] [])).
Definition list_ha_rules {A} `{De A} : Http (list A) :=
  api_get (mkPath [Lit "/cluster/ha/rules"] []).
Definition create_ha_rule (params : Params) : Http unit :=
  ignore (A := option string) (api_post (mkPath [Lit "/cluster/ha/rules"] []) params).
Definition update_ha_rule (rule : string) (params : Params) : Http unit :=
  ignore (A := option string) (api_put (mkPath [Lit "/cluster/ha/rules/"; Enc rule] []) params).
Definition delete_ha_rule (rule : string) : Http unit :=
  ignore (A := option string) (api_delete (mkPath [Lit "/cluster/ha/rules/"; Enc rule] [])).
Definition create_ha_resource (params : Params) : Http unit :=
  ignore (A := option string) (api_post (mkPath [Lit "/cluster/ha/resources"] []) params).
Definition update_ha_resource (sid : string) (params : Params) : Http unit :=
  ignore (A := option string) (api_put (mkPath [Lit "/cluster/ha/resources/"; Enc sid] []) params).
Definition delete_ha_resource (sid : string) : Http unit :=
  ignore (A := option string) (api_delete (mkPath [Lit "/cluster/ha/resources/"; Enc sid] [])).
Definition NOTIFICATION_TYPES : list string := ["sendmail"; "smtp"; "gotify"; "webhook"].
Fixpoint list_endpoints_of {A} `{De A} (with_type : string -> A -> A) (types : list string) (all : list A) : Http (list A) :=
  match types with
  | [] => mret all
  | t :: rest =>
      data ← api_get (mkPath [Lit "/cluster/notifications/endpoints/"; Enc t] []);
      list_endpoints_of with_type rest (all ++ (with_type t <$> data))
  end.
(** [with_type t e] is [e] with the type [t] where it has none. *)
Definition list_notification_endpoints {A} `{De A} (with_type : string -> A -> A) : Http (list A) :=
  list_endpoints_of with_type NOTIFICATION_TYPES [].
Definition create_notification_endpoint (endpoint_type : string) (params : Params) : Http unit :=
  ignore (A := option string) (api_post (mkPath [Lit "/cluster/notifications/endpoints/"; Enc endpoint_type] []) params).
Definition update_notification_endpoint (endpoint_type : string) (name : string) (params : Params) : Http unit :=
  ignore (A := option string)
    (api_put (mkPath [Lit "/cluster/notifications/endpoints/"; Enc endpoint_type; Lit "/"; Enc name] []) params).
Definition delete_notification_endpoint (endpoint_type : string) (name : string) : Http unit :=
  ignore (A := option string)
    (api_delete (mkPath [Lit "/cluster/notifications/endpoints/"; Enc endpoint_type; Lit "/"; Enc name] [])).
Definition list_notification_matchers {A} `{De A} : Http (list A) :=
  api_get (mkPath [Lit "/cluster/notifications/matchers"] []).
Definition create_notification_matcher (params : Params) : Http unit :=
  ignore (A := option string) (api_post (mkPath [Lit "/cluster/notifications/matchers"] []) params).
Definition update_notification_matcher (name : string) (params : Params) : Http unit :=
  ignore (A := option string) (api_put (mkPath [Lit "/cluster/notifications/matchers/"; Enc name] []) params).
Definition delete_notification_matcher (name : string) : Http unit :=
  ignore (A := option string) (api_delete (mkPath [Lit "/cluster/notifications/matchers/"; Enc name] [])).
Definition list_notification_targets {A} `{De A} : Http (list A) :=
  api_get (mkPath [Lit "/cluster/notifications/targets"] []).
Definition get_guest_rrd_image {A} `{De A} (node : string) (vmid : N) (guest_type : GuestType) (ds : string)
    (timeframe : RrdTimeframe) (cf : RrdCf) : Http A :=
  api_get (mkPath [Lit "/nodes/"; Seg node; Lit "/"; Lit (type_path guest_type); Lit "/"; Num vmid; Lit "/rrd"]
    [("ds", Enc ds); ("timeframe", Enc (RrdTimeframe_as_pve_str timeframe)); ("cf", Enc (RrdCf_as_pve_str cf))]).
Definition list_metric_servers {A} `{De A} : Http (list A) :=
  api_get (mkPath [Lit "/cluster/metrics/server"] []).
Definition get_metric_server {A} `{De A} (id : string) : Http A :=
  api_get (mkPath [Lit "/cluster/metrics/server/"; Enc id] []).
Definition create_metric_server (id : string) (params : Params) : Http unit :=
  ignore (A := option string) (api_post (mkPath [Lit "/cluster/metrics/server/"; Enc id] []) params).
Definition update_metric_server (id : string) (params : Params) : Http unit :=
  ignore (A := option string) (api_put (mkPath [Lit "/cluster/metrics/server/"; Enc id] []) params).
Definition delete_metric_server (id : string) : Http unit :=
  ignore (A := option string) (api_delete (mkPath [Lit "/cluster/metrics/server/"; Enc id] [])).
Definition list_node_tasks {A} `{De A} (node : string) (limit : option N) : Http (list A) :=
  api_get (mkPath [Lit "/nodes/"; Seg node; Lit "/tasks"] (opt_query "limit" (pretty <$> limit))).
Definition stop_node_task (node : string) (upid : string) : Http unit :=
  ignore (A := option string) (api_delete (mkPath [Lit "/nodes/"; Seg node; Lit "/tasks/"; Enc upid] [])).
Definition get_guest_feature {A} `{De A} (node : string) (vmid : N) (guest_type : GuestType) (feature : string) : Http A :=
  api_get (mkPath [Lit "/nodes/"; Seg node; Lit "/"; Lit (type_path guest_type); Lit "/"; Num vmid; Lit "/feature"]
    [("feature", Enc feature)]).
Definition send_qemu_key (node : string) (vmid : N) (key : string) : Http unit :=
  ignore (A := option string)
    (api_put (mkPath [Lit "/nodes/"; Seg node; Lit "/qemu/"; Num vmid; Lit "/sendkey"] []) [("key", key)]).
Definition unlink_qemu_disk (node : string) (vmid : N) (idlist : string) (force : bool) : Http unit :=
  ignore (A := option string)
    (api_put (mkPath [Lit "/nodes/"; Seg node; Lit "/qemu/"; Num vmid; Lit "/unlink"]
      []) [("idlist", idlist); ("force", flag force)]).
Definition list_node_aplinfo {A} `{De A} (node : string) : Http (list A) :=
  api_get (mkPath [Lit "/nodes/"; Seg node; Lit "/aplinfo"] []).
Definition download_node_aplinfo (node : string) (storage : string) (template : string) : Http string :=
  api_post (mkPath [Lit "/nodes/"; Seg node; Lit "/aplinfo"] []) [("storage", storage); ("template", template)].
Definition query_url_metadata {A} `{De A} (node : string) (url : string) : Http A :=
  api_get (mkPath [Lit "/nodes/"; Seg node; Lit "/query-url-metadata"] [("url", Enc url)]).
Definition list_cluster_corosync_nodes {A} `{De A} : Http (list A) :=
  api_get (mkPath [Lit "/cluster/config/nodes"] []).
Definition add_cluster_corosync_node (node : string) (params : Params) : Http unit :=
  ignore (A := option string) (api_post (mkPath [Lit "/cluster/config/nodes/"; Enc node] []) params).
Definition remove_cluster_corosync_node (node : string) : Http unit :=
  ignore (A := option string) (api_delete (mkPath [Lit "/cluster/config/nodes/"; Enc node] [])).
Definition get_cluster_join_info (node : option string) : Http Value :=
  api_get (mkPath [Lit "/cluster/config/join"] (opt_query "node" node)).
Definition join_cluster (params : Params) : Http string :=
  api_post (mkPath [Lit "/cluster/config/join"] []) params.
Definition get_cluster_qdevice : Http Value :=
  api_get (mkPath [Lit "/cluster/config/qdevice"] []).
Definition setup_cluster_qdevice (params : Params) : Http string :=
  api_post (mkPath [Lit "/cluster/config/qdevice"] []) params.
Definition update_cluster_qdevice (params : Params) : Http string :=
  api_put (mkPath [Lit "/cluster/config/qdevice"] []) params.
Definition remove_cluster_qdevice : Http string :=
  api_delete (mkPath [Lit "/cluster/config/qdevice"] []).
Definition get_cluster_totem : Http Value :=
  api_get (mkPath [Lit "/cluster/config/totem"] []).
Definition list_acme_accounts {A} `{De A} : Http (list A) :=
  api_get (mkPath [Lit "/cluster/acme/account"] []).
Definition get_acme_account {A} `{De A} (name : string) : Http A :=
  api_get (mkPath [Lit "/cluster/acme/account/"; Enc name] []).
Definition create_acme_account (params : Params) : Http string :=
  api_post (mkPath [Lit "/cluster/acme/account"] []) params.
Definition update_acme_account (name : string) (params : Params) : Http string :=
  api_put (mkPath [Lit "/cluster/acme/account/"; Enc name] []) params.
Definition delete_acme_account (name : string) : Http string :=
  api_delete (mkPath [Lit "/cluster/acme/account/"; Enc name] []).
Definition list_acme_plugins {A} `{De A} : Http (list A) :=
  api_get (mkPath [Lit "/cluster/acme/plugins"] []).
Definition get_acme_plugin {A} `{De A} (plugin_id : string) : Http A :=
  api_get (mkPath [Lit "/cluster/acme/plugins/"; Enc plugin_id] []).
Definition create_acme_plugin (params : Params) : Http unit :=
  ignore (A := option string) (api_post (mkPath [Lit "/cluster/acme/plugins"] []) params).
Definition update_acme_plugin (plugin_id : string) (params : Params) : Http unit :=
  ignore (A := option string) (api_put (mkPath [Lit "/cluster/acme/plugins/"; Enc plugin_id] []) params).
Definition delete_acme_plugin (plugin_id : string) : Http unit :=
  ignore (A := option string) (api_delete (mkPath [Lit "/cluster/acme/plugins/"; Enc plugin_id] [])).
Definition get_acme_tos (directory : option string) : Http string :=
  api_get (mkPath [Lit "/cluster/acme/tos"] (opt_query "directory" directory)).
Definition list_acme_directories {A} `{De A} : Http (list A) :=
  api_get (mkPath [Lit "/cluster/acme/directories"] []).
Definition get_acme_challenge_schema : Http Value :=
  api_get (mkPath [Lit "/cluster/acme/challenge-schema"] []).
Definition list_cluster_storages {A} `{De A} (storage : A -> string) : Http (list A) :=
  defs ← api_get (mkPath [Lit "/storage"] []);
  mret (sort_by (fun a b => String.compare (storage a) (storage b)) defs).
Definition get_cluster_storage {A} `{De A} (storage : string) : Http A :=
  api_get (mkPath [Lit "/storage/"; Enc storage] []).
Definition create_cluster_storage (params : Params) : Http unit :=
  ignore (A := Value) (api_post (mkPath [Lit "/storage"] []) params).
Definition update_cluster_storage (storage : string) (params : Params) : Http unit :=
  ignore (A := Value) (api_put (mkPath [Lit "/storage/"; Enc storage] []) params).
Definition delete_cluster_storage (storage : string) : Http unit :=
  ignore (A := option string) (api_delete (mkPath [Lit "/storage/"; Enc storage] [])).
Definition cluster_status {A} `{De A} : Http (list A) :=
  api_get (mkPath [Lit "/cluster/status"] []).
Definition list_replication_jobs {A} `{De A} : Http (list A) :=
  api_get (mkPath [Lit "/cluster/replication"] []).
Definition list_replication_status {A} `{De A} (node : string) : Http (list A) :=
  api_get (mkPath [Lit "/nodes/"; Seg node; Lit "/replication"] []).
Definition move_disk_error (node : string) (vmid : N) (disk target_storage : string) (e : CallError) : CallError :=
  let s := show_err (to_any e) in
  if contains "does not support live migration" s || contains "not support online" s then
    Failed (bail ("move_disk for " +:+ disk +:+ " → " +:+ target_storage +:+ ": target storage does not support live migration. Stop guest "
                  +:+ pretty vmid +:+ " (`proxxx stop " +:+ pretty vmid +:+ "`) and retry — offline migration usually works."))
  else if contains "storage" s && contains "not available" s then
    Failed (bail ("move_disk: target storage '" +:+ target_storage +:+ "' is not available on node '" +:+ node
                  +:+ "' (check `pvesm status` on that node)"))
  else if contains "locked" s || contains "VM is locked" s then
    Failed (bail ("move_disk: guest " +:+ pretty vmid +:+ " is locked (likely backup or another move). "
                  +:+ "Wait for the running operation to finish and retry."))
  else e.
Definition move_disk (node : string) (vmid : N) (guest_type : GuestType) (disk target_storage : string) (delete_source : bool) :
    Http string :=
  result ← attempt
    (match guest_type with
     | Qemu =>
         api_post (mkPath [Lit "/nodes/"; Seg node; Lit "/qemu/"; Num vmid; Lit "/move_disk"] [])
           [("disk", disk); ("storage", target_storage); ("delete", flag delete_source)]
     | Lxc =>
         api_post (mkPath [Lit "/nodes/"; Seg node; Lit "/lxc/"; Num vmid; Lit "/move_volume"] [])
           [("volume", disk); ("storage", target_storage); ("delete", flag delete_source)]
     end);
  Return (match result with Ok r => Ok r | Err e => Err (move_disk_error node vmid disk target_storage e) end).
Definition resize_disk (node : string) (vmid : N) (guest_type : GuestType) (disk size : string) : Http string :=
  data ← api_put (A := option string)
    (mkPath [Lit "/nodes/"; Seg node; Lit "/"; Lit (type_path guest_type); Lit "/"; Num vmid; Lit "/resize"]
    []) [("disk", disk); ("size", size)];
  mret (default "synchronous" data).
Definition apt_update_refresh (node : string) : Http string :=
  api_post (mkPath [Lit "/nodes/"; Seg node; Lit "/apt/update"] []) [].
Definition apt_list_upgradable {A} `{De A} (node : string) : Http (list A) :=
  api_get (mkPath [Lit "/nodes/"; Seg node; Lit "/apt/update"] []).
Definition node_status_detail {A} `{De A} (node : string) : Http A :=
  api_get (mkPath [Lit "/nodes/"; Seg node; Lit "/status"] []).
(** [as u32] of a number keeps its low 32 bits; a negative number is not a [u64]. *)
Definition get_next_vmid `{Codecs} : Http N :=
  data ← api_get (A := Value) (mkPath [Lit "/cluster/nextid"] []);
  match data with
  | JString s =>
      match parse_uint u32_max s with
      | Some n => mret n
      | None => failed (context "cluster/nextid: parse error" (bail "invalid digit found in string"))
      end
  | JNumber z => if (z <? 0)%Z then failed (bail "cluster/nextid: not u64") else mret (Z.to_N z mod 2 ^ 32)%N
  | other => failed (bail ("cluster/nextid: unexpected shape " +:+ json_to_string other))
  end.
Definition create_qemu (node : string) (params : Params) : Http string :=
  api_post (mkPath [Lit "/nodes/"; Seg node; Lit "/qemu"] []) params.
Definition create_lxc (node : string) (params : Params) : Http string :=
  api_post (mkPath [Lit "/nodes/"; Seg node; Lit "/lxc"] []) params.
