(* ===== verification/ApiRoutes.v ===== *)
(** * Where the requests of the client go

    What a server reads in a request path: the segments between slashes and the
    pairs of the query, percent-decoded.  A path built from pieces reads back as
    the pieces, whatever the values put in; and every method of the client
    builds its paths so. *)

From S2P Require Import Prelude.
From S2P Require Import Json.
From S2P Require Import ApiError.
From S2P Require Import UrlPath.
From S2P Require Import StateApply.
From S2P Require Import Guest.
From S2P Require Import Alerts.
From S2P Require Import McpDispatch.
From S2P Require Import Utf8.
From S2P Require Import SshTarget.
From S2P Require Import ApiClient.
From S2P Require Import ApiEndpoints.

(** ** The server's side *)
Definition server_route (path : string) : list string :=
  percent_decode <$> split_char "/" (default path (fst <$> split_once "?" path)).
Definition read_pair (kv : string) : string * string :=
  match split_once "=" kv with Some (k, v) => (percent_decode k, percent_decode v) | None => (percent_decode kv, "") end.
Definition server_query (path : string) : list (string * string) :=
  match split_once "?" path with Some (_, q) => read_pair <$> split_char "&" q | None => [] end.

(** ** What the method meant *)
Definition plain (p : Piece) : string :=
  match p with Lit s | Seg s | Enc s | Raw s => s | Num n => pretty n | Int z => pretty z end.
(** Only the slashes of the template end a segment. *)
Fixpoint route_lit (cur s : string) (k : string -> list string) : list string :=
  match s with
  | "" => k cur
  | String a s' => if Ascii.eqb a "/" then cur :: route_lit "" s' k else route_lit (cur +:+ String a "") s' k
  end.
Fixpoint route_from (cur : string) (ps : list Piece) : list string :=
  match ps with
  | [] => [cur]
  | Lit s :: ps' => route_lit cur s (fun cur' => route_from cur' ps')
  | p :: ps' => route_from (cur +:+ plain p) ps'
  end.
Definition intended_route (p : Path) : list string := route_from "" (p_route p).
Definition intended_query (p : Path) : list (string * string) := (fun kv => (kv.1, plain kv.2)) <$> p_query p.

(** ** Pieces that cannot be misread *)
Definition route_ok (p : Piece) : bool :=
  match p with Lit s => all_bytes (fun a => is_unreserved a || Ascii.eqb a "/") s | Raw _ => false | _ => true end.
Definition query_ok (kv : string * Piece) : bool :=
  all_bytes is_unreserved kv.1
  && match kv.2 with Lit s | Raw s => all_bytes is_unreserved s | Seg _ => false | _ => true end.
Definition path_ok (p : Path) : bool := forallb route_ok (p_route p) && forallb query_ok (p_query p).

Definition decodes (e x : string) : Prop := forall t, percent_decode (e +:+ t) = x +:+ percent_decode t.
Lemma decodes_app e1 x1 e2 x2 : decodes e1 x1 -> decodes e2 x2 -> decodes (e1 +:+ e2) (x1 +:+ x2).
Proof. intros H1 H2 t. by rewrite <- string_app_assoc, H1, H2, string_app_assoc. Qed.
Lemma decodes_nil : decodes "" "".
Proof. done. Qed.
Lemma decodes_char a : a <> "%"%char -> decodes (String a "") (String a "").
Proof. intros Ha t. exact (percent_decode_keep a t Ha). Qed.
Lemma decodes_bytes p s : p "%"%char = false -> all_bytes p s = true -> decodes s s.
Proof.
  intros Hp. induction s as [|a s IH]; [done|]. simpl. intros [Ha Hs]%andb_true_iff.
  apply (decodes_app (String a "") (String a "") s s); [|by apply IH]. apply decodes_char. congruence.
Qed.
Lemma decodes_encode keep s : keep "%"%char = false -> decodes (encode_with keep s) s.
Proof.
  intros Hk. induction s as [|b s IH]; [done|]. cbn [encode_with].
  apply (decodes_app _ (String b "") _ s); [|done]. destruct (keep b) eqn:Hb; [apply decodes_char; congruence|].
  intros t. apply percent_decode_byte.
Qed.
Lemma decodes_done e x : decodes e x -> percent_decode e = x.
Proof. intros H. specialize (H ""). by rewrite !string_app_nil_r in H. Qed.

Lemma bytes_no_char p c s : p c = false -> all_bytes p s = true -> has_char c s = false.
Proof.
  intros Hp. induction s as [|a s IH]; [done|]. simpl. intros [Ha Hs]%andb_true_iff. rewrite IH by done.
  destruct (Ascii.eqb_spec a c); [congruence|done].
Qed.
(** Numbers are written with digits and a sign. *)
Lemma digit_unreserved a : is_digit a = true -> is_unreserved a = true.
Proof.
  unfold is_digit, byte_in, is_unreserved, is_alnum. intros ->. by rewrite orb_true_r.
Qed.
Lemma pretty_N_bytes (n : N) : all_bytes is_unreserved (pretty n) = true.
Proof. eapply all_bytes_impl; [apply digit_unreserved|apply pretty_N_digits]. Qed.
Lemma pretty_Z_bytes (z : Z) : all_bytes is_unreserved (pretty z) = true.
Proof. destruct z; [done|exact (pretty_N_bytes (N.pos p))|]. exact (pretty_N_bytes (N.pos p)). Qed.

(** ** Reading the route back *)
Lemma piece_decodes p : route_ok p = true -> decodes (show_piece p) (plain p).
Proof.
  destruct p as [s|s|s|n|z|s]; simpl; [|by intros; apply decodes_encode..| | |done].
  - by apply decodes_bytes.
  - intros _. eapply decodes_bytes; [|apply pretty_N_bytes]. done.
  - intros _. eapply decodes_bytes; [|apply pretty_Z_bytes]. done.
Qed.
Lemma value_no_char p c :
  match p with Seg _ => is_segment_char c = false | Enc _ | Num _ | Int _ => True | _ => False end ->
  is_unreserved c = false -> is_alnum c = false -> c <> "%"%char -> has_char c (show_piece p) = false.
Proof.
  intros Hp Hu Ha Hc. destruct p as [s|s|s|n|z|s]; simpl; try done.
  - by apply encode_has_no.
  - by apply encode_has_no.
  - eapply bytes_no_char; [exact Hu|apply pretty_N_bytes].
  - eapply bytes_no_char; [exact Hu|apply pretty_Z_bytes].
Qed.

Lemma route_lit_read e cur s k rest :
  (forall e' cur', decodes e' cur' -> has_char "/" e' = false ->
     percent_decode <$> split_char "/" (e' +:+ rest) = k cur') ->
  all_bytes (fun a => is_unreserved a || Ascii.eqb a "/") s = true ->
  decodes e cur -> has_char "/" e = false ->
  percent_decode <$> split_char "/" (e +:+ s +:+ rest) = route_lit cur s k.
Proof.
  intros Hk. revert e cur. induction s as [|a s IH]; intros e cur; simpl; [by intros _; apply Hk|].
  intros [Ha Hs]%andb_true_iff He Hn. destruct (Ascii.eqb_spec a "/") as [->|Hne].
  - rewrite split_char_app by done. simpl. rewrite (decodes_done e cur He). f_equal. by apply (IH "" "").
  - replace (e +:+ String a (s +:+ rest)) with ((e +:+ String a "") +:+ s +:+ rest) by (by rewrite <- string_app_assoc).
    apply IH; [done| |].
    + apply decodes_app; [done|]. apply decodes_char. intros ->. done.
    + rewrite has_char_app, Hn. simpl. by destruct (Ascii.eqb_spec a "/").
Qed.
Lemma route_read ps e cur :
  forallb route_ok ps = true -> decodes e cur -> has_char "/" e = false ->
  percent_decode <$> split_char "/" (e +:+ show_pieces ps) = route_from cur ps.
Proof.
  revert e cur. induction ps as [|p ps IH]; intros e cur.
  - intros _ He Hn. simpl. rewrite string_app_nil_r, split_char_none by done. simpl. by rewrite (decodes_done e cur He).
  - cbn [forallb show_pieces]. intros [Hp Hps]%andb_true_iff He Hn.
    assert (Hval : has_char "/" (show_piece p) = false ->
      percent_decode <$> split_char "/" (e +:+ show_piece p +:+ show_pieces ps) = route_from (cur +:+ plain p) ps).
    { intros Hc. rewrite string_app_assoc. apply IH; [done|apply decodes_app; [done|by apply piece_decodes]|].
      by rewrite has_char_app, Hn, Hc. }
    destruct p as [s|s|s|n|z|s]; try (apply Hval, value_no_char; done).
    cbn [show_piece route_from]. apply route_lit_read; [|done..]. intros e' cur'. by apply IH.
Qed.
Lemma pieces_no_mark c ps :
  is_segment_char c = false -> is_unreserved c = false -> is_alnum c = false -> c <> "%"%char -> c <> "/"%char ->
  forallb route_ok ps = true -> has_char c (show_pieces ps) = false.
Proof.
  intros Hs Hu Ha Hp Hsl. induction ps as [|p ps IH]; [done|]. cbn [forallb show_pieces]. intros [H1 H2]%andb_true_iff.
  rewrite has_char_app, IH, orb_false_r by done.
  destruct p as [s|s|s|n|z|s]; try (apply value_no_char; done).
  simpl in *. eapply bytes_no_char; [|exact H1]. simpl. rewrite Hu. by destruct (Ascii.eqb_spec c "/").
Qed.

(** ** Reading the query back *)
Definition show_pair (kv : string * Piece) : string := kv.1 +:+ "=" +:+ show_piece kv.2.
Lemma show_query_join q : q <> [] -> show_query true q = "?" +:+ join "&" (show_pair <$> q).
Proof.
  destruct q as [|[k v] q]; [done|]. intros _. cbn [show_query]. rewrite fmap_cons.
  assert (H : forall x, x +:+ show_query false q = join "&" (x :: (show_pair <$> q))).
  { induction q as [|[k' v'] q IH]; intros x; [apply string_app_nil_r|]. rewrite fmap_cons, join_cons_ne by done. f_equal.
    cbn [show_query]. rewrite <- IH. unfold show_pair. simpl. by rewrite <- !string_app_assoc. }
  rewrite <- H. unfold show_pair. simpl. by rewrite <- !string_app_assoc.
Qed.
Lemma query_value_no_char v c :
  match v with Lit s | Raw s => all_bytes is_unreserved s | Seg _ => false | _ => true end = true ->
  is_unreserved c = false -> is_alnum c = false -> c <> "%"%char -> has_char c (show_piece v) = false.
Proof.
  intros Hv Hu Ha Hp. destruct v as [s|s|s|n|z|s]; try done; try (by apply value_no_char).
  all: exact (bytes_no_char is_unreserved c s Hu Hv).
Qed.
Lemma pair_read kv : query_ok kv = true -> read_pair (show_pair kv) = (kv.1, plain kv.2) /\ has_char "&" (show_pair kv) = false.
Proof.
  destruct kv as [k v]. unfold query_ok, read_pair, show_pair. simpl. intros [Hk Hv]%andb_true_iff.
  assert (Hd : decodes (show_piece v) (plain v)).
  { destruct v as [s|s|s|n|z|s]; try done; try (by apply piece_decodes).
    all: exact (decodes_bytes is_unreserved s eq_refl Hv). }
  split.
  - rewrite split_once_char by exact (bytes_no_char is_unreserved "=" k eq_refl Hk). f_equal; [|by apply decodes_done].
    apply decodes_done. exact (decodes_bytes is_unreserved k eq_refl Hk).
  - rewrite has_char_app. simpl. rewrite query_value_no_char by done. by rewrite (bytes_no_char is_unreserved).
Qed.

Lemma query_read q :
  q <> [] -> forallb query_ok q = true ->
  read_pair <$> split_char "&" (join "&" (show_pair <$> q)) = (fun kv => (kv.1, plain kv.2)) <$> q.
Proof.
  intros Hne Hq. rewrite forallb_forall in Hq. rewrite split_char_join.
  - rewrite <- list_fmap_compose. apply list_fmap_ext. intros i kv Hi. apply pair_read, Hq, list_elem_of_In.
    by eapply list_elem_of_lookup_2.
  - by intros H%fmap_nil_inv.
  - apply Forall_fmap, Forall_forall. intros kv Hin. apply pair_read, Hq. by apply list_elem_of_In.
Qed.

(** A path of such pieces reads back as what was put in; its segments do whatever its query holds. *)
Lemma query_mark q x : show_query true q = x -> q = [] /\ x = "" \/ q <> [] /\ exists y, x = "?" +:+ y.
Proof. intros <-. destruct q as [|[k v] q]; [by left|right]. split; [done|]. by eexists. Qed.
Lemma route_reads_back p : forallb route_ok (p_route p) = true -> server_route (show_path p) = intended_route p.
Proof.
  unfold show_path, server_route, intended_route. intros Hr.
  assert (Hm : has_char "?" (show_pieces (p_route p)) = false) by (by apply pieces_no_mark).
  pose proof (route_read (p_route p) "" "" Hr decodes_nil eq_refl) as HR. simpl in HR.
  destruct (query_mark (p_query p) _ eq_refl) as [[_ ->]|[_ [y ->]]].
  - rewrite string_app_nil_r. destruct (split_once "?" (show_pieces (p_route p))) as [[a b]|] eqn:Es; [|done].
    apply split_once_Some in Es. rewrite Es, !has_char_app in Hm. simpl in Hm. by rewrite orb_true_r in Hm.
  - cbn [String.append]. by rewrite split_once_char by done.
Qed.
Lemma query_reads_back p : path_ok p = true -> server_query (show_path p) = intended_query p.
Proof.
  unfold path_ok, show_path, server_query, intended_query. intros [Hr Hq]%andb_true_iff.
  assert (Hm : has_char "?" (show_pieces (p_route p)) = false) by (by apply pieces_no_mark).
  destruct (decide (p_query p = [])) as [E|E].
  - rewrite E. simpl. rewrite string_app_nil_r. destruct (split_once "?" (show_pieces (p_route p))) as [[a b]|] eqn:Es; [|done].
    apply split_once_Some in Es. rewrite Es, !has_char_app in Hm. simpl in Hm. by rewrite orb_true_r in Hm.
  - rewrite show_query_join by done. cbn [String.append]. rewrite split_once_char by done. by apply query_read.
Qed.

(** ** The requests of a program *)
Fixpoint sends {A} (P : Method -> Path -> Params -> Prop) (p : Http A) : Prop :=
  match p with
  | Return _ => True
  | Request m path params k => P m path params /\ forall r, sends P (k r)
  | PostWithin path params k => P POST path params /\ forall r, sends P (k r)
  | UploadFile path ct fn k => P POST path [("content", ct); ("filename", fn)] /\ forall r, sends P (k r)
  | Now k => forall t, sends P (k t)
  | Sleep _ k => sends P k
  end.
Lemma sends_http_bind {A B} P (p : Http A) (f : Result CallError A -> Http B) :
  sends P p -> (forall r, sends P (f r)) -> sends P (http_bind p f).
Proof.
  intros Hp Hf. induction p as [r|m path params k IH|path params k IH|path ct fn k IH|k IH|ms k IH]; simpl in *.
  - apply Hf.
  - destruct Hp. split; [done|]. auto.
  - destruct Hp. split; [done|]. auto.
  - destruct Hp. split; [done|]. auto.
  - auto.
  - auto.
Qed.
Definition sound_path (m : Method) (path : Path) (params : Params) : Prop := path_ok path = true.
Definition sound_route (m : Method) (path : Path) (params : Params) : Prop := forallb route_ok (p_route path) = true.
(** ** The methods *)
Definition keys_ok (query : Params) : Prop := Forall (fun kv => all_bytes is_unreserved kv.1 = true) query.
(** The methods of the trait that make requests, at any arguments, but for the three that put something of the
    caller into the query as it is: here the content filter and the option names of journal and syslog hold
    unreserved characters only; [any_method] below takes them as they come. *)
Inductive method : forall {A}, Http A -> Prop :=
  | m_get_nodes `{De Node} : method (get_nodes)
  | m_get_guests `{De Guest} (node : string) : method (get_guests node)
  | m_get_guest_status `{De Guest} (node : string) (vmid : N) : method (get_guest_status node vmid)
  | m_get_storage_pools `{De StoragePool} (node : string) : method (get_storage_pools node)
  | m_get_task_log {A} `{De A} (node upid : string) (start limit : N) : method (get_task_log node upid start limit)
  | m_get_guest_config `{Codecs} (node : string) (vmid : N) (guest_type : GuestType) :
      method (get_guest_config node vmid guest_type)
  | m_get_cluster_tasks `{De TaskInfo} : method (get_cluster_tasks)
  | m_get_task_status {A} `{De A} (node : string) (upid : string) : method (get_task_status node upid)
  | m_start_guest (node : string) (vmid : N) (guest_type : GuestType) : method (start_guest node vmid guest_type)
  | m_stop_guest (node : string) (vmid : N) (guest_type : GuestType) (force : bool) :
      method (stop_guest node vmid guest_type force)
  | m_shutdown_guest (node : string) (vmid : N) (guest_type : GuestType) (timeout_secs : N) :
      method (shutdown_guest node vmid guest_type timeout_secs)
  | m_restart_guest (node : string) (vmid : N) (guest_type : GuestType) : method (restart_guest node vmid guest_type)
  | m_suspend_guest (node : string) (vmid : N) (guest_type : GuestType) : method (suspend_guest node vmid guest_type)
  | m_resume_guest (node : string) (vmid : N) (guest_type : GuestType) : method (resume_guest node vmid guest_type)
  | m_startall_node (node : string) : method (startall_node node)
  | m_stopall_node (node : string) : method (stopall_node node)
  | m_suspendall_node (node : string) : method (suspendall_node node)
  | m_node_apt_repositories (node : string) : method (node_apt_repositories node)
  | m_node_apt_changelog (node : string) (package : string) : method (node_apt_changelog node package)
  | m_node_apt_versions {A} `{De A} (node : string) : method (node_apt_versions node)
  | m_get_guest_rrddata {A} `{De A} (node : string) (vmid : N) (guest_type : GuestType) (timeframe : RrdTimeframe) (cf : RrdCf) :
      method (get_guest_rrddata node vmid guest_type timeframe cf)
  | m_get_node_rrddata {A} `{De A} (node : string) (timeframe : RrdTimeframe) (cf : RrdCf) :
      method (get_node_rrddata node timeframe cf)
  | m_get_storage_rrddata {A} `{De A} (node : string) (storage : string) (timeframe : RrdTimeframe) (cf : RrdCf) :
      method (get_storage_rrddata node storage timeframe cf)
  | m_migrate_guest (node : string) (vmid : N) (guest_type : GuestType) (target_node : string) (online with_local_disks restart : bool) :
      method (migrate_guest node vmid guest_type target_node online with_local_disks restart)
  | m_delete_guest `{De Guest} (node : string) (vmid : N) (guest_type : GuestType) : method (delete_guest node vmid guest_type)
  | m_execute_guest_command `{Codecs} `{De AgentExecStatus} `{De Z} (node : string) (vmid : N) (guest_type : GuestType) (command : string) :
      method (execute_guest_command node vmid guest_type command)
  | m_qemu_agent_file_read {A} `{De A} (node : string) (vmid : N) (file : string) : method (qemu_agent_file_read node vmid file)
  | m_qemu_agent_file_write (node : string) (vmid : N) (file : string) (content : string) :
      method (qemu_agent_file_write node vmid file content)
  | m_qemu_agent_network_get_interfaces {A} `{De A} (node : string) (vmid : N) :
      method (qemu_agent_network_get_interfaces node vmid)
  | m_get_node_dns {A} `{De A} (node : string) : method (get_node_dns node)
  | m_update_node_dns (node : string) (params : Params) : method (update_node_dns node params)
  | m_get_node_hosts {A} `{De A} (node : string) : method (get_node_hosts node)
  | m_update_node_hosts (node data : string) (digest : option string) : method (update_node_hosts node data digest)
  | m_get_node_journal (node : string) (query : Params) : keys_ok query -> method (get_node_journal node query)
  | m_get_node_syslog {A} `{De A} (node : string) (query : Params) : keys_ok query -> method (get_node_syslog node query)
  | m_get_node_time {A} `{De A} (node : string) : method (get_node_time node)
  | m_update_node_timezone (node : string) (timezone : string) : method (update_node_timezone node timezone)
  | m_wakeonlan_node (node : string) : method (wakeonlan_node node)
  | m_get_node_subscription {A} `{De A} (node : string) : method (get_node_subscription node)
  | m_set_node_subscription_key (node : string) (key : string) : method (set_node_subscription_key node key)
  | m_refresh_node_subscription (node : string) : method (refresh_node_subscription node)
  | m_delete_node_subscription (node : string) : method (delete_node_subscription node)
  | m_get_node_certificates_info {A} `{De A} (node : string) : method (get_node_certificates_info node)
  | m_upload_node_custom_certificate (node : string) (params : Params) : method (upload_node_custom_certificate node params)
  | m_delete_node_custom_certificate (node : string) (restart : bool) : method (delete_node_custom_certificate node restart)
  | m_order_node_acme_certificate (node : string) (force : bool) : method (order_node_acme_certificate node force)
  | m_get_node_report (node : string) : method (get_node_report node)
  | m_list_pools {A} `{De A} : method (list_pools)
  | m_get_pool {A} `{De A} (poolid : string) : method (get_pool poolid)
  | m_create_pool (params : Params) : method (create_pool params)
  | m_update_pool (poolid : string) (params : Params) : method (update_pool poolid params)
  | m_delete_pool (poolid : string) : method (delete_pool poolid)
  | m_get_cluster_resources {A} `{De A} (kind : option string) : method (get_cluster_resources kind)
  | m_get_api_version {A} `{De A} : method (get_api_version)
  | m_get_node_version {A} `{De A} (node : string) : method (get_node_version node)
  | m_get_cluster_options {A} `{De A} : method (get_cluster_options)
  | m_update_cluster_options (params : Params) : method (update_cluster_options params)
  | m_get_cluster_log {A} `{De A} (max : option N) : method (get_cluster_log max)
  | m_create_snapshot (node : string) (vmid : N) (guest_type : GuestType) (name : string) :
      method (create_snapshot node vmid guest_type name)
  | m_delete_snapshot (node : string) (vmid : N) (guest_type : GuestType) (name : string) :
      method (delete_snapshot node vmid guest_type name)
  | m_rollback_snapshot (node : string) (vmid : N) (guest_type : GuestType) (name : string) :
      method (rollback_snapshot node vmid guest_type name)
  | m_update_guest_config (node : string) (vmid : N) (guest_type : GuestType) (params : Params) :
      method (update_guest_config node vmid guest_type params)
  | m_regenerate_cloudinit (node : string) (vmid : N) : method (regenerate_cloudinit node vmid)
  | m_list_pending_config {A} `{De A} (node : string) (vmid : N) (guest_type : GuestType) :
      method (list_pending_config node vmid guest_type)
  | m_convert_to_template (node : string) (vmid : N) (guest_type : GuestType) :
      method (convert_to_template node vmid guest_type)
  | m_clone_guest (node : string) (vmid : N) (guest_type : GuestType) (newid : N) (name target storage : option string) (full : bool) (snapname description : option string) :
      method (clone_guest node vmid guest_type newid name target storage full snapname description)
  | m_next_free_vmid : method (next_free_vmid)
  | m_create_backup (node : string) (vmids : list N) (storage mode : string) (compress : option string) :
      method (create_backup node vmids storage mode compress)
  | m_list_snapshots {A} `{De A} (node : string) (vmid : N) (guest_type : GuestType) :
      method (list_snapshots node vmid guest_type)
  | m_download_to_storage (node storage url filename : string) (checksum_algo checksum_hex : option string) (content : string) :
      method (download_to_storage node storage url filename checksum_algo checksum_hex content)
  | m_list_storage_content {A} `{De A} (node storage : string) (content_filter : option string) :
      all_bytes is_unreserved (default "" content_filter) = true -> method (list_storage_content node storage content_filter)
  | m_get_spiceproxy {A} `{De A} (node : string) (vmid : N) : method (get_spiceproxy node vmid)
  | m_get_termproxy {A} `{De A} (node : string) (vmid : N) (guest_type : GuestType) :
      method (get_termproxy node vmid guest_type)
  | m_get_guest_vncproxy {A} `{De A} (node : string) (vmid : N) (guest_type : GuestType) :
      method (get_guest_vncproxy node vmid guest_type)
  | m_get_access_permissions (userid api_path : option string) : method (get_access_permissions userid api_path)
  | m_change_user_password (userid : string) (password : string) : method (change_user_password userid password)
  | m_list_lxc_interfaces {A} `{De A} (node : string) (vmid : N) : method (list_lxc_interfaces node vmid)
  | m_dump_qemu_cloudinit (node : string) (vmid : N) (kind : string) : method (dump_qemu_cloudinit node vmid kind)
  | m_get_lxc_spiceproxy {A} `{De A} (node : string) (vmid : N) : method (get_lxc_spiceproxy node vmid)
  | m_lxc_exec_oneshot (node : string) (vmid : N) (command : string) : method (lxc_exec_oneshot node vmid command)
  | m_get_node_termproxy {A} `{De A} (node : string) : method (get_node_termproxy node)
  | m_get_node_vncshell {A} `{De A} (node : string) : method (get_node_vncshell node)
  | m_get_node_spiceshell {A} `{De A} (node : string) : method (get_node_spiceshell node)
  | m_list_backup_jobs {A} `{De A} : method (list_backup_jobs)
  | m_get_backup_job {A} `{De A} (id : string) : method (get_backup_job id)
  | m_create_backup_job (params : Params) : method (create_backup_job params)
  | m_update_backup_job (id : string) (params : Params) : method (update_backup_job id params)
  | m_delete_backup_job (id : string) : method (delete_backup_job id)
  | m_cluster_backup_info : method (cluster_backup_info)
  | m_extract_backup_config (node : string) (volume : string) : method (extract_backup_config node volume)
  | m_list_acl {A} `{De A} : method (list_acl)
  | m_list_users {A} `{De A} : method (list_users)
  | m_get_user `{De User} (userid : string) : method (get_user userid)
  | m_create_user (userid : string) (password comment email firstname lastname : option string) (enable : option bool) (expire : option N) (groups : option string) :
      method (create_user userid password comment email firstname lastname enable expire groups)
  | m_update_user (userid : string) (comment email firstname lastname : option string) (enable : option bool) (expire : option N) (groups : option string) :
      method (update_user userid comment email firstname lastname enable expire groups)
  | m_delete_user (userid : string) : method (delete_user userid)
  | m_create_group (groupid : string) (comment : option string) : method (create_group groupid comment)
  | m_delete_group (groupid : string) : method (delete_group groupid)
  | m_create_role (roleid privs : string) : method (create_role roleid privs)
  | m_update_role (roleid privs : string) (append : bool) : method (update_role roleid privs append)
  | m_delete_role (roleid : string) : method (delete_role roleid)
  | m_modify_acl (path roles : string) (users groups tokens : option string) (propagate delete : bool) :
      method (modify_acl path roles users groups tokens propagate delete)
  | m_list_user_tokens {A} `{De A} (userid : string) : method (list_user_tokens userid)
  | m_list_groups {A} `{De A} : method (list_groups)
  | m_list_roles {A} `{De A} (roleid : A -> string) : method (list_roles roleid)
  | m_list_realms {A} `{De A} (realm : A -> string) : method (list_realms realm)
  | m_list_tfa {A} `{De A} (userid : string) : method (list_tfa userid)
  | m_create_token `{De TokenCreateResponse} (userid tokenid : string) (privsep : bool) (expire : option N) (comment : option string) :
      method (create_token userid tokenid privsep expire comment)
  | m_revoke_token (userid : string) (tokenid : string) : method (revoke_token userid tokenid)
  | m_delete_storage_content (node storage volid : string) : method (delete_storage_content node storage volid)
  | m_upload_to_storage (node storage local_path : string) (file_name : option string) (opened : Result string unit) (content_type : string) (remote_filename : option string) :
      method (upload_to_storage node storage local_path file_name opened content_type remote_filename)
  | m_list_pci {A} `{De A} (node : string) : method (list_pci node)
  | m_list_cluster_firewall_rules {A} `{De A} : method (list_cluster_firewall_rules)
  | m_list_node_firewall_rules {A} `{De A} (node : string) : method (list_node_firewall_rules node)
  | m_list_guest_firewall_rules {A} `{De A} (node : string) (vmid : N) (guest_type : GuestType) :
      method (list_guest_firewall_rules node vmid guest_type)
  | m_list_cluster_firewall_aliases {A} `{De A} : method (list_cluster_firewall_aliases)
  | m_create_cluster_firewall_alias (params : Params) : method (create_cluster_firewall_alias params)
  | m_update_cluster_firewall_alias (name : string) (params : Params) : method (update_cluster_firewall_alias name params)
  | m_delete_cluster_firewall_alias (name : string) : method (delete_cluster_firewall_alias name)
  | m_list_cluster_firewall_groups {A} `{De A} : method (list_cluster_firewall_groups)
  | m_create_cluster_firewall_group (params : Params) : method (create_cluster_firewall_group params)
  | m_delete_cluster_firewall_group (group : string) : method (delete_cluster_firewall_group group)
  | m_list_cluster_firewall_group_rules {A} `{De A} (group : string) : method (list_cluster_firewall_group_rules group)
  | m_list_cluster_firewall_ipsets {A} `{De A} : method (list_cluster_firewall_ipsets)
  | m_create_cluster_firewall_ipset (params : Params) : method (create_cluster_firewall_ipset params)
  | m_delete_cluster_firewall_ipset (name : string) : method (delete_cluster_firewall_ipset name)
  | m_list_cluster_firewall_ipset_cidrs {A} `{De A} (name : string) : method (list_cluster_firewall_ipset_cidrs name)
  | m_add_cluster_firewall_ipset_cidr (name : string) (params : Params) : method (add_cluster_firewall_ipset_cidr name params)
  | m_remove_cluster_firewall_ipset_cidr (name : string) (cidr : string) : method (remove_cluster_firewall_ipset_cidr name cidr)
  | m_get_cluster_firewall_options {A} `{De A} : method (get_cluster_firewall_options)
  | m_update_cluster_firewall_options (params : Params) : method (update_cluster_firewall_options params)
  | m_list_guest_firewall_aliases {A} `{De A} (node : string) (vmid : N) (guest_type : GuestType) :
      method (list_guest_firewall_aliases node vmid guest_type)
  | m_create_guest_firewall_alias (node : string) (vmid : N) (guest_type : GuestType) (params : Params) :
      method (create_guest_firewall_alias node vmid guest_type params)
  | m_update_guest_firewall_alias (node : string) (vmid : N) (guest_type : GuestType) (name : string) (params : Params) :
      method (update_guest_firewall_alias node vmid guest_type name params)
  | m_delete_guest_firewall_alias (node : string) (vmid : N) (guest_type : GuestType) (name : string) :
      method (delete_guest_firewall_alias node vmid guest_type name)
  | m_get_guest_firewall_options {A} `{De A} (node : string) (vmid : N) (guest_type : GuestType) :
      method (get_guest_firewall_options node vmid guest_type)
  | m_update_guest_firewall_options (node : string) (vmid : N) (guest_type : GuestType) (params : Params) :
      method (update_guest_firewall_options node vmid guest_type params)
  | m_list_cluster_mapping_pci {A} `{De A} : method (list_cluster_mapping_pci)
  | m_create_cluster_mapping_pci (params : Params) : method (create_cluster_mapping_pci params)
  | m_update_cluster_mapping_pci (id : string) (params : Params) : method (update_cluster_mapping_pci id params)
  | m_delete_cluster_mapping_pci (id : string) : method (delete_cluster_mapping_pci id)
  | m_list_cluster_mapping_usb {A} `{De A} : method (list_cluster_mapping_usb)
  | m_create_cluster_mapping_usb (params : Params) : method (create_cluster_mapping_usb params)
  | m_update_cluster_mapping_usb (id : string) (params : Params) : method (update_cluster_mapping_usb id params)
  | m_delete_cluster_mapping_usb (id : string) : method (delete_cluster_mapping_usb id)
  | m_list_node_network {A} `{De A} (node : string) : method (list_node_network node)
  | m_list_usb {A} `{De A} (node : string) : method (list_usb node)
  | m_list_node_disks {A} `{De A} (node : string) : method (list_node_disks node)
  | m_get_disk_smart {A} `{De A} (node : string) (disk : string) : method (get_disk_smart node disk)
  | m_list_node_lvm {A} `{De A} (node : string) : method (list_node_lvm node)
  | m_list_node_lvmthin {A} `{De A} (node : string) : method (list_node_lvmthin node)
  | m_list_node_zfs {A} `{De A} (node : string) : method (list_node_zfs node)
  | m_get_node_zfs_detail `{De RawZfsDetail} (node name : string) : method (get_node_zfs_detail node name)
  | m_guest_serial_devices `{Codecs} (node : string) (vmid : N) (guest_type : GuestType) :
      method (guest_serial_devices node vmid guest_type)
  | m_guest_disk_io_rate `{De RrdPoint} (node : string) (vmid : N) (guest_type : GuestType) :
      method (guest_disk_io_rate node vmid guest_type)
  | m_list_ha_groups {A} `{De A} : method (list_ha_groups)
  | m_list_ha_resources {A} `{De A} : method (list_ha_resources)
  | m_ha_manager_status {A} `{De A} : method (ha_manager_status)
  | m_get_ha_status_current {A} `{De A} : method (get_ha_status_current)
  | m_list_ha_groups_legacy {A} `{De A} : method (list_ha_groups_legacy)
  | m_create_ha_group (params : Params) : method (create_ha_group params)
  | m_update_ha_group (group : string) (params : Params) : method (update_ha_group group params)
  | m_delete_ha_group (group : string) : method (delete_ha_group group)
  | m_list_ha_rules {A} `{De A} : method (list_ha_rules)
  | m_create_ha_rule (params : Params) : method (create_ha_rule params)
  | m_update_ha_rule (rule : string) (params : Params) : method (update_ha_rule rule params)
  | m_delete_ha_rule (rule : string) : method (delete_ha_rule rule)
  | m_create_ha_resource (params : Params) : method (create_ha_resource params)
  | m_update_ha_resource (sid : string) (params : Params) : method (update_ha_resource sid params)
  | m_delete_ha_resource (sid : string) : method (delete_ha_resource sid)
  | m_list_notification_endpoints {A} `{De A} (with_type : string -> A -> A) : method (list_notification_endpoints with_type)
  | m_create_notification_endpoint (endpoint_type : string) (params : Params) :
      method (create_notification_endpoint endpoint_type params)
  | m_update_notification_endpoint (endpoint_type : string) (name : string) (params : Params) :
      method (update_notification_endpoint endpoint_type name params)
  | m_delete_notification_endpoint (endpoint_type : string) (name : string) :
      method (delete_notification_endpoint endpoint_type name)
  | m_list_notification_matchers {A} `{De A} : method (list_notification_matchers)
  | m_create_notification_matcher (params : Params) : method (create_notification_matcher params)
  | m_update_notification_matcher (name : string) (params : Params) : method (update_notification_matcher name params)
  | m_delete_notification_matcher (name : string) : method (delete_notification_matcher name)
  | m_list_notification_targets {A} `{De A} : method (list_notification_targets)
  | m_get_guest_rrd_image {A} `{De A} (node : string) (vmid : N) (guest_type : GuestType) (ds : string) (timeframe : RrdTimeframe) (cf : RrdCf) :
      method (get_guest_rrd_image node vmid guest_type ds timeframe cf)
  | m_list_metric_servers {A} `{De A} : method (list_metric_servers)
  | m_get_metric_server {A} `{De A} (id : string) : method (get_metric_server id)
  | m_create_metric_server (id : string) (params : Params) : method (create_metric_server id params)
  | m_update_metric_server (id : string) (params : Params) : method (update_metric_server id params)
  | m_delete_metric_server (id : string) : method (delete_metric_server id)
  | m_list_node_tasks {A} `{De A} (node : string) (limit : option N) : method (list_node_tasks node limit)
  | m_stop_node_task (node : string) (upid : string) : method (stop_node_task node upid)
  | m_get_guest_feature {A} `{De A} (node : string) (vmid : N) (guest_type : GuestType) (feature : string) :
      method (get_guest_feature node vmid guest_type feature)
  | m_send_qemu_key (node : string) (vmid : N) (key : string) : method (send_qemu_key node vmid key)
  | m_unlink_qemu_disk (node : string) (vmid : N) (idlist : string) (force : bool) :
      method (unlink_qemu_disk node vmid idlist force)
  | m_list_node_aplinfo {A} `{De A} (node : string) : method (list_node_aplinfo node)
  | m_download_node_aplinfo (node : string) (storage : string) (template : string) :
      method (download_node_aplinfo node storage template)
  | m_query_url_metadata {A} `{De A} (node : string) (url : string) : method (query_url_metadata node url)
  | m_list_cluster_corosync_nodes {A} `{De A} : method (list_cluster_corosync_nodes)
  | m_add_cluster_corosync_node (node : string) (params : Params) : method (add_cluster_corosync_node node params)
  | m_remove_cluster_corosync_node (node : string) : method (remove_cluster_corosync_node node)
  | m_get_cluster_join_info (node : option string) : method (get_cluster_join_info node)
  | m_join_cluster (params : Params) : method (join_cluster params)
  | m_get_cluster_qdevice : method (get_cluster_qdevice)
  | m_setup_cluster_qdevice (params : Params) : method (setup_cluster_qdevice params)
  | m_update_cluster_qdevice (params : Params) : method (update_cluster_qdevice params)
  | m_remove_cluster_qdevice : method (remove_cluster_qdevice)
  | m_get_cluster_totem : method (get_cluster_totem)
  | m_list_acme_accounts {A} `{De A} : method (list_acme_accounts)
  | m_get_acme_account {A} `{De A} (name : string) : method (get_acme_account name)
  | m_create_acme_account (params : Params) : method (create_acme_account params)
  | m_update_acme_account (name : string) (params : Params) : method (update_acme_account name params)
  | m_delete_acme_account (name : string) : method (delete_acme_account name)
  | m_list_acme_plugins {A} `{De A} : method (list_acme_plugins)
  | m_get_acme_plugin {A} `{De A} (plugin_id : string) : method (get_acme_plugin plugin_id)
  | m_create_acme_plugin (params : Params) : method (create_acme_plugin params)
  | m_update_acme_plugin (plugin_id : string) (params : Params) : method (update_acme_plugin plugin_id params)
  | m_delete_acme_plugin (plugin_id : string) : method (delete_acme_plugin plugin_id)
  | m_get_acme_tos (directory : option string) : method (get_acme_tos directory)
  | m_list_acme_directories {A} `{De A} : method (list_acme_directories)
  | m_get_acme_challenge_schema : method (get_acme_challenge_schema)
  | m_list_cluster_storages {A} `{De A} (storage : A -> string) : method (list_cluster_storages storage)
  | m_get_cluster_storage {A} `{De A} (storage : string) : method (get_cluster_storage storage)
  | m_create_cluster_storage (params : Params) : method (create_cluster_storage params)
  | m_update_cluster_storage (storage : string) (params : Params) : method (update_cluster_storage storage params)
  | m_delete_cluster_storage (storage : string) : method (delete_cluster_storage storage)
  | m_cluster_status {A} `{De A} : method (cluster_status)
  | m_list_replication_jobs {A} `{De A} : method (list_replication_jobs)
  | m_list_replication_status {A} `{De A} (node : string) : method (list_replication_status node)
  | m_move_disk (node : string) (vmid : N) (guest_type : GuestType) (disk target_storage : string) (delete_source : bool) :
      method (move_disk node vmid guest_type disk target_storage delete_source)
  | m_resize_disk (node : string) (vmid : N) (guest_type : GuestType) (disk size : string) :
      method (resize_disk node vmid guest_type disk size)
  | m_apt_update_refresh (node : string) : method (apt_update_refresh node)
  | m_apt_list_upgradable {A} `{De A} (node : string) : method (apt_list_upgradable node)
  | m_node_status_detail {A} `{De A} (node : string) : method (node_status_detail node)
  | m_get_next_vmid `{Codecs} : method (get_next_vmid)
  | m_create_qemu (node : string) (params : Params) : method (create_qemu node params)
  | m_create_lxc (node : string) (params : Params) : method (create_lxc node params).

(** Every method at any arguments; the flag tells whether its query is made of names and values that are
    encoded, or need not be. *)
Inductive any_method : bool -> forall {A}, Http A -> Prop :=
  | any_encoded {A} (p : Http A) : method p -> any_method true p
  | any_content {A} `{De A} (node storage : string) (content_filter : option string) :
      any_method false (list_storage_content node storage content_filter)
  | any_journal (node : string) (query : Params) : any_method false (get_node_journal node query)
  | any_syslog {A} `{De A} (node : string) (query : Params) : any_method false (get_node_syslog node query).

Lemma query_keys_ok query : keys_ok query -> forallb query_ok ((fun kv => (kv.1, Enc kv.2)) <$> query) = true.
Proof.
  intros H. induction H as [|[k v] q Hk _ IH]; [done|]. rewrite fmap_cons. cbn [forallb]. rewrite IH, andb_true_r.
  unfold query_ok. simpl in *. by rewrite Hk.
Qed.
Lemma opt_query_ok k o : all_bytes is_unreserved k = true -> forallb query_ok (opt_query k o) = true.
Proof. intros Hk. destruct o; simpl; [|done]. unfold query_ok. simpl. by rewrite Hk. Qed.

Lemma sends_ignore {A} P (p : Http A) : sends P p -> sends P (ignore p).
Proof. intros H. apply sends_http_bind; [done|]. by intros []. Qed.
Lemma sends_mbind {A B} P (p : Http A) (f : A -> Http B) : sends P p -> (forall a, sends P (f a)) -> sends P (p ≫= f).
Proof. intros Hp Hf. apply sends_http_bind; [done|]. intros []; [apply Hf|done]. Qed.
Lemma sends_attempt {A} P (p : Http A) : sends P p -> sends P (attempt p).
Proof. intros H. by apply sends_http_bind. Qed.
Lemma sends_request {A} P m path params (f : Result CallError Value -> Result CallError A) :
  P m path params -> sends P (Request m path params (fun r => Return (f r))).
Proof. by split. Qed.

Ltac head_of t := lazymatch t with ?f _ => head_of f | _ => t end.
Ltac path_done :=
  unfold sound_path, path_ok; cbn [p_route p_query];
  repeat match goal with
         | t : GuestType |- _ => destruct t
         | t : RrdTimeframe |- _ => destruct t
         | t : RrdCf |- _ => destruct t
         | b : bool |- _ => destruct b
         end;
  first [reflexivity
        |rewrite ?forallb_app; cbn [forallb route_ok];
         rewrite ?query_keys_ok, ?opt_query_ok by first [assumption|reflexivity]; reflexivity].
Ltac sends_step :=
  lazymatch goal with
  | |- sends _ (ignore _) => apply sends_ignore
  | |- sends _ (_ ≫= _) => apply sends_mbind; [|intros ?]
  | |- sends _ (attempt _) => apply sends_attempt
  | |- sends _ (Return _) => exact I
  | |- sends _ (mret _) => exact I
  | |- sends _ (failed _) => exact I
  | |- sends _ (with_context _ _) => exact I
  | |- sends _ (Now _) => intros ?
  | |- sends _ (Sleep _ _) => cbn [sends]
  | |- sends _ (PostWithin _ _ _) => split; [|intros ?]
  | |- sends _ (UploadFile _ _ _ _) => split; [|intros ?]
  | |- sends _ (api_get _) => apply sends_request
  | |- sends _ (api_post _ _) => apply sends_request
  | |- sends _ (api_put _ _) => apply sends_request
  | |- sends _ (api_delete _) => apply sends_request
  | |- sound_path _ _ _ => path_done
  | |- sends _ (match ?x with _ => _ end) => destruct x
  | |- sends _ ?p => let h := head_of p in unfold h; cbv zeta beta
  end.

Lemma poll_exec_sound `{De AgentExecStatus} fuel vmid pid path deadline :
  path_ok path = true -> sends sound_path (poll_exec fuel vmid pid path deadline).
Proof.
  intros Hp. induction fuel as [|fuel IH]; cbn [poll_exec]; intros now; [done|]. destruct (deadline <=? now)%N; [done|].
  apply sends_mbind; [by apply sends_request|]. intros st. by destruct (ex_exited st).
Qed.
Lemma list_endpoints_sound {A} `{De A} (with_type : string -> A -> A) types all :
  sends sound_path (list_endpoints_of with_type types all).
Proof.
  revert all. induction types as [|t types IH]; intros all; [done|]. cbn [list_endpoints_of].
  apply sends_mbind; [by apply sends_request|]. intros data. apply IH.
Qed.
Lemma content_sound {A} `{De A} node storage content_filter :
  all_bytes is_unreserved (default "" content_filter) = true ->
  sends sound_path (list_storage_content (A := A) node storage content_filter).
Proof.
  intros Hc. unfold list_storage_content. apply sends_request. destruct content_filter as [c|]; [|reflexivity].
  unfold sound_path, path_ok, query_ok. simpl in *. by rewrite Hc.
Qed.
Lemma methods_sound {A} (p : Http A) : method p -> sends sound_path p.
Proof.
  intros H. destruct H; repeat first [lazymatch goal with |- sends _ (list_storage_content _ _ _) => by apply content_sound end
    |apply list_endpoints_sound|apply poll_exec_sound; reflexivity|sends_step].
Qed.
Lemma any_method_sound {A} b (p : Http A) : any_method b p -> sends (if b then sound_path else sound_route) p.
Proof.
  intros [A' q Hq|A' HD node storage [c|]|node query|A' HD node query]; [by apply methods_sound|..]; repeat sends_step; reflexivity.
Qed.
