(* ===== verification/ApiClientSpec.v ===== *)
(** * What leaves the process

    By induction on programs: every request that leaves while a program of the
    client runs is a login, the listing of the nodes that explains a failed
    lookup, or one the program makes; and one that changes the cluster leaves
    only when the last row of the audit log is its own record. *)

From S2P Require Import Prelude.
From S2P Require Import Json.
From S2P Require Import ApiError.
From S2P Require Import UrlPath.
From S2P Require Import Transport.
From S2P Require Import StateApply.
From S2P Require Import Incident.
From S2P Require Import Mac.
From S2P Require Import AuditLog.
From S2P Require Import Guest.
From S2P Require Import Alerts.
From S2P Require Import McpDispatch.
From S2P Require Import Utf8.
From S2P Require Import Config.
From S2P Require Import Secrets.
From S2P Require Import Redact.
From S2P Require Import ApiClient.
From S2P Require Import ApiEndpoints.
From S2P Require Import ApiRoutes.

(** The retry loop moves the world only by its three parameters. *)
Lemma send_loop_rel {W} (R : relation W) `{!PreOrder R} (ensure force : SM W AnyErr ()) send nanos max i path fuel a d w tr sl r :
  (forall w, R w (ensure w).2) -> (forall w, R w (force w).2) -> (forall w, R w (send w).2) ->
  send_loop ensure force send nanos max i path fuel a d w tr sl = Some r -> R w (run_world r).
Proof.
  intros He Hf Hs. revert a d w tr sl. induction fuel as [|fuel IH]; intros a d w tr sl; [done|]. cbn [send_loop].
  pose proof (He w) as He1. destruct (ensure w) as [[u|e] w1]; simpl in He1; [|by intros [= <-]].
  pose proof (Hs w1) as Hs1. destruct (send w1) as [res w2]; simpl in Hs1. assert (R w w2) as H2 by (by etrans).
  pose proof (Hf w2) as Hf1.
  destruct res as [e|resp].
  - destruct (_ && _); [|by intros [= <-]]. intros H%IH. by etrans.
  - destruct (_ && _ && _).
    + destruct (force w2) as [[u'|e] w3]; simpl in Hf1; [intros H%IH; etrans; [exact H2|by etrans]|].
      intros [= <-]. simpl. by etrans.
    + destruct (_ && _); [|by intros [= <-]]. intros H%IH. by etrans.
Qed.

(** Two answers the retry loop and the record of the outcome cannot tell apart: the bodies may differ. *)
Inductive alike_answers : ReqwestError + Response -> ReqwestError + Response -> Prop :=
  | both_failed e : alike_answers (inl e) (inl e)
  | both_answered r r' : resp_status r = resp_status r' -> resp_retry_after r = resp_retry_after r' -> alike_answers (inr r) (inr r').
Definition alike_results (r r' : Result AnyErr Response) : Prop :=
  match r, r' with Ok x, Ok x' => resp_status x = resp_status x' | Err e, Err e' => e = e' | _, _ => False end.
(** The retry loop takes worlds it cannot tell apart to such worlds. *)
Lemma send_loop_alike {W} (sim : relation W) (ensure force : SM W AnyErr ()) send send' nanos max i path fuel a d w w' tr tr' sl sl' :
  (forall w w', sim w w' -> (ensure w).1 = (ensure w').1 /\ sim (ensure w).2 (ensure w').2) ->
  (forall w w', sim w w' -> (force w).1 = (force w').1 /\ sim (force w).2 (force w').2) ->
  (forall w w', sim w w' -> alike_answers (send w).1 (send' w').1 /\ sim (send w).2 (send' w').2) -> sim w w' ->
  match send_loop ensure force send nanos max i path fuel a d w tr sl,
        send_loop ensure force send' nanos max i path fuel a d w' tr' sl' with
  | Some x, Some x' => alike_results (run_result x) (run_result x') /\ sim (run_world x) (run_world x')
  | None, None => True
  | _, _ => False
  end.
Proof.
  intros He Hf Hs. revert a d w w' tr tr' sl sl'. induction fuel as [|fuel IH]; intros a d w w' tr tr' sl sl' H; [done|].
  cbn [send_loop]. destruct (He w w' H) as [E1 H1]. destruct (ensure w) as [x w1], (ensure w') as [x' w1'].
  cbn [fst snd] in *. subst x'. destruct x as [u|e]; [|done]. destruct (Hs w1 w1' H1) as [E2 H2].
  destruct (send w1) as [x w2], (send' w1') as [x' w2']. cbn [fst snd] in *. destruct E2 as [e|y y' Est Era].
  - destruct (_ && _); [by apply IH|done].
  - unfold should_retry_response. rewrite <- Est, <- Era. destruct (_ && _ && _).
    + destruct (Hf w2 w2' H2) as [E3 H3]. destruct (force w2) as [z w3], (force w2') as [z' w3']. cbn [fst snd] in *. subst z'.
      destruct z; [by apply IH|done].
    + destruct (_ && _); [by apply IH|done].
Qed.

Section spec.
Context {W : Type} `{E : Env W} {K : Codecs} {M : Mac} `{DN : De Node} (c : PxClient).

Definition db_of (a : AuditWorld) : Db := default [] (aw_db a).
Definition emits (Q : HttpRequest * Db -> Prop) (s s' : CW W) : Prop := exists l, cw_sent s' = cw_sent s ++ l /\ Forall Q l.
#[local] Instance emits_preorder Q : PreOrder (emits Q).
Proof.
  split.
  - intros s. exists []. by rewrite app_nil_r.
  - intros s1 s2 s3 (l1 & E1 & F1) (l2 & E2 & F2). exists (l1 ++ l2). rewrite E2, E1, app_assoc. split; [done|].
    by apply Forall_app.
Qed.
Lemma emits_same Q s s' : cw_sent s' = cw_sent s -> emits Q s s'.
Proof. intros H. exists []. by rewrite app_nil_r. Qed.
Lemma emits_impl (Q Q' : HttpRequest * Db -> Prop) s s' : (forall x, Q x -> Q' x) -> emits Q s s' -> emits Q' s s'.
Proof. intros H (l & E1 & F). exists l. split; [done|]. by eapply Forall_impl. Qed.

(** A step that leaves the audit log as it is; what it sends may depend on the log. *)
Definition quiet (Q : AuditWorld -> HttpRequest * Db -> Prop) (s s' : CW W) : Prop :=
  cw_audit s' = cw_audit s /\ emits (Q (cw_audit s)) s s'.
#[local] Instance quiet_preorder Q : PreOrder (quiet Q).
Proof.
  split; [by split|]. intros s1 s2 s3 [A1 E1] [A2 E2]. split; [congruence|]. rewrite A1 in E2. by etrans.
Qed.
Lemma quiet_impl (Q Q' : AuditWorld -> HttpRequest * Db -> Prop) s s' :
  (forall a x, Q a x -> Q' a x) -> quiet Q s s' -> quiet Q' s s'.
Proof. intros H [A1 E1]. split; [done|]. eapply emits_impl; [apply H|done]. Qed.

(** ** Logins and lookups *)
Definition is_login (rq : HttpRequest) : Prop := rq_method rq = POST /\ rq_url rq = base_url c +:+ ticket_path.
Definition goes (m : Method) (path : string) (payload : Payload) (rq : HttpRequest) : Prop :=
  rq_method rq = m /\ rq_url rq = url_of c path /\ rq_payload rq = payload.

Lemma transmit_quiet rq s : quiet (fun a x => x = (rq, db_of a)) s (transmit rq s).2.
Proof. unfold transmit. destruct (http rq (cw_env s)) as [r w]. split; [done|]. eexists. split; [done|]. by constructor. Qed.
Lemma login_quiet user pw s : quiet (fun _ x => is_login x.1) s (login c user pw s).2.
Proof.
  unfold login. pose proof (transmit_quiet (login_request c user pw) s) as H.
  destruct (transmit (login_request c user pw) s) as [r s1]. simpl in H.
  assert (quiet (fun _ x => is_login x.1) s s1) as H1 by (eapply quiet_impl; [|exact H]; by intros a x ->).
  destruct r as [e|resp]; [done|]. destruct (negb _); [done|]. destruct (all_chunks _); [|done].
  destruct (json_from_str _); [|done]. by destruct (ticket_of _) as [[]|].
Qed.
Lemma relogin_quiet s : quiet (fun _ x => is_login x.1) s (relogin c s).2.
Proof.
  unfold relogin. destruct (resolve_password _ _) as [pw|e]; [|done].
  pose proof (login_quiet (pf_user (profile_config c)) pw s) as H. by destruct (login _ _ _ _) as [[a|e] s1].
Qed.
Lemma ensure_auth_quiet s : quiet (fun _ x => is_login x.1) s (ensure_auth c s).2.
Proof. unfold ensure_auth. destruct (needs_refresh _ _); [apply relogin_quiet|done]. Qed.
Lemma force_reauth_quiet s : quiet (fun _ x => is_login x.1) s (force_reauth c s).2.
Proof. unfold force_reauth. destruct (cw_auth s); [done|apply relogin_quiet]. Qed.

Definition wire (m : Method) (path : string) (payload : Payload) (a : AuditWorld) (x : HttpRequest * Db) : Prop :=
  is_login x.1 \/ goes m path payload x.1 /\ x.2 = db_of a /\ reject_path_traversal path = Ok ().
Lemma send_request_quiet i m path payload s : quiet (wire m path payload) s (send_request c i m path payload s).2.
Proof.
  unfold send_request, send_with_retry. destruct (reject_path_traversal path) as [[]|e] eqn:Et; [|done].
  destruct (send_loop _ _ _ _ _ _ _ _ _ _ _ _ _) as [r|] eqn:Er; [|done]. simpl.
  eapply (send_loop_rel (quiet (wire m path payload))); [..|exact Er].
  - intros w. eapply quiet_impl; [|apply ensure_auth_quiet]. intros a x H. by left.
  - intros w. eapply quiet_impl; [|apply force_reauth_quiet]. intros a x H. by left.
  - intros w. unfold send_once. eapply quiet_impl; [|apply transmit_quiet]. intros a x ->. right. by repeat split.
Qed.
Lemma get_unrefined_quiet path s : quiet (wire GET path NoPayload) s (get_unrefined c path s).2.
Proof.
  unfold get_unrefined. pose proof (send_request_quiet Idempotent GET path NoPayload s) as H.
  destruct (send_request _ _ _ _ _ _) as [[resp|e] s1]; [|done]. by destruct (negb _).
Qed.
Lemma refine_quiet err s : quiet (wire GET "/nodes" NoPayload) s (refine_node_lookup_error c err s).2.
Proof.
  unfold refine_node_lookup_error. destruct (unresolved_node_name err); [|done].
  pose proof (get_unrefined_quiet "/nodes" s) as H. destruct (get_unrefined c "/nodes" s) as [[v|e] s1]; [|done].
  by destruct (ApiResponse v).
Qed.
Definition reading (path : string) (a : AuditWorld) (x : HttpRequest * Db) : Prop :=
  wire GET path NoPayload a x \/ wire GET "/nodes" NoPayload a x.
Lemma get_quiet path s : quiet (reading path) s (get c path s).2.
Proof.
  unfold get. pose proof (get_unrefined_quiet path s) as H.
  destruct (get_unrefined c path s) as [[v|e] s1]; simpl in H.
  - eapply quiet_impl; [|exact H]. intros a x Hx. by left.
  - assert (quiet (reading path) s s1) as H1 by (eapply quiet_impl; [|exact H]; intros a x Hx; by left).
    destruct (err_api e) as [api|]; [|done]. pose proof (refine_quiet api s1) as H2.
    destruct (refine_node_lookup_error c api s1) as [api' s2]. simpl in *. etrans; [exact H1|].
    eapply quiet_impl; [|exact H2]. intros a x Hx. by right.
Qed.

(** ** The gates *)
(** The last row is the write-ahead record of this very request. *)
Definition recorded (m : Method) (path : string) (params : Params) (db : Db) : Prop :=
  exists row, last db = Some row /\ ar_result row = "sent" /\ ar_action row = Method_as_str m +:+ " " +:+ path
    /\ ar_user row = operator_label c
    /\ ar_params_json row = Some (redact_params_json json_to_string params (profile_label (profile_config c))).

Lemma log_mutation_sent_row disk fresh secs action user vmid node params a a' :
  log_mutation_sent disk fresh secs action user vmid node params a = (Ok (), a') ->
  exists row, last (db_of a') = Some row /\ ar_result row = "sent" /\ ar_action row = action /\ ar_user row = user
    /\ ar_params_json row = Some params.
Proof.
  unfold log_mutation_sent, log. destruct (cached_logger fresh a) as [[lg|e] w1]; [|done].
  destruct (0 <? _); [done|]. destruct (verify_tail _ _ _); [|done]. destruct disk; [|done].
  intros [= <-]. eexists. unfold db_of, with_db. simpl. rewrite last_snoc. done.
Qed.
(** Nothing leaves at the gates. *)
Lemma gates_sent m path params s r s1 :
  gates c m path params s = (r, s1) -> cw_sent s1 = cw_sent s /\ cw_env s1 = cw_env s.
Proof.
  unfold gates, write_ahead. destruct (guard_read_only c path s); [|by intros [= <- <-]].
  destruct (guard_not_frozen c s); [|by intros [= <- <-]].
  destruct (log_mutation_sent _ _ _ _ _ _ _ _ _) as [[]]; by intros [= <- <-].
Qed.
Lemma gates_open m path params s ctx s1 :
  gates c m path params s = (Ok ctx, s1) ->
  guard_read_only c path s = Ok () /\ guard_not_frozen c s = Ok () /\ recorded m path params (db_of (cw_audit s1)).
Proof.
  unfold gates, write_ahead. destruct (guard_read_only c path s) as [[]|]; [|done].
  destruct (guard_not_frozen c s) as [[]|]; [|done]. unfold audit_ctx.
  destruct (parse_pve_path path) as [node vmid]. cbn [ac_action ac_node ac_vmid ac_params_json].
  destruct (log_mutation_sent _ _ _ _ _ _ _ _ _) as [[[]|e] a] eqn:El; [|done]. intros [= _ <-].
  split; [done|]. split; [done|]. apply log_mutation_sent_row in El. exact El.
Qed.

(** The context of a call does not depend on the secrets among its parameters. *)
Lemma find_vmid_same ps qs :
  Forall2 same_but_secrets ps qs ->
  List.find (fun p => eq_ignore_ascii_case p.1 "vmid") ps = List.find (fun p => eq_ignore_ascii_case p.1 "vmid") qs.
Proof.
  induction 1 as [|[k v] [k' v'] ps qs [Hk Hv] _ IH]; [done|]. simpl in *. subst k'.
  destruct (eq_ignore_ascii_case k "vmid") eqn:Ek; [|done]. rewrite Hv; [done|].
  unfold eq_ignore_ascii_case in Ek. apply bool_decide_eq_true in Ek. unfold is_secret_key. by rewrite Ek.
Qed.
Lemma audit_ctx_same m path ps qs : Forall2 same_but_secrets ps qs -> audit_ctx c m path ps = audit_ctx c m path qs.
Proof.
  intros H. unfold audit_ctx, redact_params_json. rewrite (find_vmid_same _ _ H), (redact_params_same _ _ _ H). done.
Qed.

(** ** What a run sends *)
Inductive leaves (P : Method -> Path -> Params -> Prop) (x : HttpRequest * Db) : Prop :=
  | leaves_login : is_login x.1 -> leaves P x
  | leaves_lookup : goes GET "/nodes" NoPayload x.1 -> leaves P x
  | leaves_read path params : P GET path params -> goes GET (show_path path) NoPayload x.1 ->
      reject_path_traversal (show_path path) = Ok () -> leaves P x
  | leaves_write m path params : m <> GET -> P m path params -> goes m (show_path path) (payload_of m params) x.1 ->
      recorded m (show_path path) params x.2 -> reject_path_traversal (show_path path) = Ok () -> leaves P x
  | leaves_upload path ct fn : P POST path [("content", ct); ("filename", fn)] ->
      goes POST (show_path path) (Multipart ct fn) x.1 ->
      recorded POST (show_path path) [("content", ct); ("filename", fn)] x.2 -> leaves P x.

Section runs.
Context (P : Method -> Path -> Params -> Prop).

Lemma refine_leaves err s : emits (leaves P) s (refine_node_lookup_error c err s).2.
Proof.
  eapply emits_impl; [|apply refine_quiet]. intros x [H|(H & _)]; [by apply leaves_login|by apply leaves_lookup].
Qed.
Lemma outcome_sent ctx text s : emits (leaves P) s (outcome c ctx text s).
Proof. by apply emits_same. Qed.
Lemma conclude_leaves ctx path r s : emits (leaves P) s (conclude c ctx path r s).2.
Proof.
  unfold conclude. destruct r as [resp|e]; [|apply outcome_sent]. destruct (negb _); [|apply outcome_sent].
  set (s1 := outcome c ctx _ s). pose proof (refine_leaves (from_status_with_idempotency show_status (resp_status resp) path
    (response_text (resp_body resp)) Mutation) s1) as H. destruct (refine_node_lookup_error c _ s1) as [e s2].
  etrans; [apply outcome_sent|exact H].
Qed.
Lemma send_mutation_leaves m path params s ctx s1 s2 r :
  m <> GET -> P m path params -> gates c m (show_path path) params s = (Ok ctx, s1) ->
  send_request c Mutation m (show_path path) (payload_of m params) s1 = (r, s2) -> emits (leaves P) s s2.
Proof.
  intros Hm HP Hg Hs. destruct (gates_sent _ _ _ _ _ _ Hg) as [Es _]. apply gates_open in Hg as (_ & _ & Hr).
  pose proof (send_request_quiet Mutation m (show_path path) (payload_of m params) s1) as [_ H]. rewrite Hs in H.
  etrans; [by apply emits_same|]. eapply emits_impl; [|exact H].
  intros x [Hx|(Hx & Hd & Ht)]; [by apply leaves_login|]. eapply leaves_write; try done. by rewrite Hd.
Qed.
Lemma mutate_leaves m path params s :
  m <> GET -> P m path params -> emits (leaves P) s (mutate c m (show_path path) params s).2.
Proof.
  intros Hm HP. unfold mutate. destruct (gates c m (show_path path) params s) as [[ctx|r] s1] eqn:Eg.
  - destruct (send_request c Mutation m (show_path path) (payload_of m params) s1) as [r s2] eqn:Es.
    etrans; [exact (send_mutation_leaves _ _ _ _ _ _ _ _ Hm HP Eg Es)|apply conclude_leaves].
  - apply gates_sent in Eg as [Eg _]. by apply emits_same.
Qed.
Lemma post_within_leaves path params s : P POST path params -> emits (leaves P) s (post_within c (show_path path) params s).2.
Proof.
  intros HP. unfold post_within. destruct (time_is_up (cw_env s)) as [cut|].
  - destruct (gates c POST (show_path path) params s) as [[ctx|r] s1] eqn:Eg.
    + destruct (gates_sent _ _ _ _ _ _ Eg) as [Es _]. destruct cut; [by apply emits_same|..];
        destruct (send_request c Mutation POST (show_path path) (payload_of POST params) s1) as [r s2] eqn:Er;
        (assert (emits (leaves P) s s2) as H2 by (by eapply (send_mutation_leaves POST); [..|exact Eg|exact Er])); [done|].
      pose proof (conclude_leaves ctx (show_path path) r s2) as H3. destruct (conclude _ _ _ _ _). by etrans.
    + apply gates_sent in Eg as [Eg _]. by apply emits_same.
  - pose proof (mutate_leaves POST path params s) as H. destruct (mutate _ _ _ _ _). by apply H.
Qed.
Lemma upload_leaves path ct fn s :
  P POST path [("content", ct); ("filename", fn)] -> emits (leaves P) s (upload c (show_path path) ct fn s).2.
Proof.
  intros HP. unfold upload. destruct (gates c POST (show_path path) _ s) as [[ctx|r] s1] eqn:Eg.
  2:{ apply gates_sent in Eg as [Eg _]. by apply emits_same. }
  destruct (gates_sent _ _ _ _ _ _ Eg) as [Es _]. apply gates_open in Eg as (_ & _ & Hr).
  pose proof (ensure_auth_quiet s1) as [Ha H1]. destruct (ensure_auth c s1) as [[[]|e] s2]; simpl in Ha, H1.
  2:{ etrans; [by apply emits_same|]. eapply emits_impl; [|exact H1]. intros x Hx. by apply leaves_login. }
  pose proof (transmit_quiet (mkRequest POST (url_of c (show_path path)) (apply_auth (cw_auth s2)) (Multipart ct fn)) s2) as [_ H2].
  unfold send_once. destruct (transmit _ s2) as [r s3]. simpl in H2.
  assert (emits (leaves P) s s3) as H3.
  { etrans; [by apply emits_same|]. etrans; [eapply emits_impl; [|exact H1]; intros x Hx; by apply leaves_login|].
    eapply emits_impl; [|exact H2]. intros x ->. eapply leaves_upload; [done|done|]. simpl. by rewrite Ha. }
  destruct r as [e|resp]; [etrans; [exact H3|apply outcome_sent]|].
  destruct (negb _); (etrans; [exact H3|apply outcome_sent]).
Qed.
Lemma run_leaves {A} (p : Http A) s : sends P p -> emits (leaves P) s (run c p s).2.
Proof.
  revert s. induction p as [r|m path params k IH|path params k IH|path ct fn k IH|k IH|ms k IH]; intros s; cbn [sends run].
  - done.
  - intros [HP Hk]. assert (emits (leaves P) s (verb c m (show_path path) params s).2) as H.
    { destruct m; cbn [verb]; try (by apply mutate_leaves).
      eapply emits_impl; [|apply get_quiet]. intros x [[H|(H & _ & Ht)]|[H|(H & _ & Ht)]];
        [by apply leaves_login|by eapply leaves_read|by apply leaves_login|by apply leaves_lookup]. }
    destruct (verb c m (show_path path) params s) as [r s1]. etrans; [exact H|]. by apply IH.
  - intros [HP Hk]. pose proof (post_within_leaves path params s HP) as H.
    destruct (post_within c (show_path path) params s) as [r s1]. etrans; [exact H|]. by apply IH.
  - intros [HP Hk]. pose proof (upload_leaves path ct fn s HP) as H.
    destruct (upload c (show_path path) ct fn s) as [r s1]. etrans; [exact H|]. by apply IH.
  - intros Hk. by apply IH.
  - intros Hk. etrans; [|by apply IH]. by apply emits_same.
Qed.
End runs.

(** ** What the requests do to the world *)
(** Anything every exchange keeps is kept by a call. *)
Section world.
Context (R : relation W) `{!PreOrder R} (Hhttp : forall rq w, R w (http rq w).2).
Definition keeps (s s' : CW W) : Prop := R (cw_env s) (cw_env s').
#[local] Instance keeps_preorder : PreOrder keeps.
Proof. split; [intros s; unfold keeps; reflexivity|]. intros s1 s2 s3 H1 H2. unfold keeps in *. by etrans. Qed.

Lemma transmit_keeps rq s : keeps s (transmit rq s).2.
Proof. unfold transmit, keeps. pose proof (Hhttp rq (cw_env s)) as H. by destruct (http rq (cw_env s)). Qed.
Lemma relogin_keeps s : keeps s (relogin c s).2.
Proof.
  unfold relogin. destruct (resolve_password _ _) as [pw|e]; [|done]. unfold login.
  pose proof (transmit_keeps (login_request c (pf_user (profile_config c)) pw) s) as H.
  destruct (transmit _ s) as [r s1]. destruct r as [e|resp]; [done|]. destruct (negb _); [done|].
  destruct (all_chunks _); [|done]. destruct (json_from_str _); [|done]. by destruct (ticket_of _) as [[]|].
Qed.
Lemma send_request_keeps i m path payload s : keeps s (send_request c i m path payload s).2.
Proof.
  unfold send_request, send_with_retry. destruct (reject_path_traversal path); [|done].
  destruct (send_loop _ _ _ _ _ _ _ _ _ _ _ _ _) as [r|] eqn:Er; [|done]. eapply (send_loop_rel keeps); [..|exact Er].
  - intros w. unfold ensure_auth. destruct (needs_refresh _ _); [apply relogin_keeps|done].
  - intros w. unfold force_reauth. destruct (cw_auth w); [done|apply relogin_keeps].
  - intros w. apply transmit_keeps.
Qed.
Lemma get_unrefined_keeps path s : keeps s (get_unrefined c path s).2.
Proof.
  unfold get_unrefined. pose proof (send_request_keeps Idempotent GET path NoPayload s) as H.
  destruct (send_request _ _ _ _ _ _) as [[resp|e] s1]; [|done]. by destruct (negb _).
Qed.
Lemma get_keeps path s : keeps s (get c path s).2.
Proof.
  unfold get. pose proof (get_unrefined_keeps path s) as H. destruct (get_unrefined c path s) as [[v|e] s1]; [done|].
  destruct (err_api e) as [api|]; [|done]. unfold refine_node_lookup_error. destruct (unresolved_node_name api); [|done].
  pose proof (get_unrefined_keeps "/nodes" s1) as H1. destruct (get_unrefined c "/nodes" s1) as [[v|e'] s2]; [|by etrans].
  destruct (ApiResponse v); by etrans.
Qed.
End world.

(** ** Under a lock *)
(** The profile is read-only, or the lock of the fleet or its own is there and is not known to have expired. *)
Definition locked (w : W) : Prop :=
  let passes := lets_through lock_from_toml (lock_files w) (unix_secs w) in
  pf_read_only (if live_attached c then reloaded w else profile_config c) = true
  \/ ~ passes (loc_global (lock_locations c))
  \/ exists n, pf_profile_name (profile_config c) = Some n /\ ~ passes (freeze_path_for (lock_locations c) (Some n)).
Definition stays_locked : Prop :=
  forall w, locked w -> (forall rq, locked (http rq w).2) /\ forall ms, locked (pass_ms ms w).
Definition as_locked (w w' : W) : Prop := locked w -> locked w'.
#[local] Instance as_locked_preorder : PreOrder as_locked.
Proof. split; [intros w H; exact H|]. intros w1 w2 w3 H1 H2 H. exact (H2 (H1 H)). Qed.

Section lock.
Context (Hlock : stays_locked).
Lemma get_locked path s : locked (cw_env s) -> locked (cw_env (get c path s).2).
Proof. apply (get_keeps as_locked). intros rq w H. by apply Hlock. Qed.
Lemma frozen_refuses s :
  locked (cw_env s) -> effective_read_only c s = false -> exists r, guard_not_frozen c s = Err r.
Proof.
  unfold locked, effective_read_only, guard_not_frozen. intros [Hr|H] Hf; [congruence|].
  destruct (check_not_frozen_for _ _ _ _ _) as [[]|r] eqn:Ec; [|eauto].
  apply check_for_ok in Ec as [H1 H2]. destruct H as [H|(n & Hn & H)]; [done|]. by destruct H; apply H2.
Qed.
Lemma gates_closed m path params s : locked (cw_env s) -> exists r, gates c m path params s = (Err r, s).
Proof.
  intros Hl. unfold gates, guard_read_only. destruct (effective_read_only c s) eqn:Ee; [eauto|].
  destruct (frozen_refuses s Hl Ee) as [r ->]. eauto.
Qed.

Definition only_reads (s s' : CW W) : Prop :=
  locked (cw_env s') /\ cw_audit s' = cw_audit s /\ emits (fun x => is_login x.1 \/ rq_method x.1 = GET) s s'.
Lemma run_locked {A} (p : Http A) s : locked (cw_env s) -> only_reads s (run c p s).2.
Proof.
  assert (Hrefl : forall s, locked (cw_env s) -> only_reads s s) by (by intros s0 H0; split).
  revert s. induction p as [r|m path params k IH|path params k IH|path ct fn k IH|k IH|ms k IH]; intros s Hl; cbn [run].
  - by apply Hrefl.
  - assert (only_reads s (verb c m (show_path path) params s).2) as (H1 & H2 & H3).
    { destruct m; cbn [verb]; [|unfold mutate; destruct (gates_closed POST (show_path path) params s Hl) as [r ->]; by apply Hrefl
        |unfold mutate; destruct (gates_closed PUT (show_path path) params s Hl) as [r ->]; by apply Hrefl
        |unfold mutate; destruct (gates_closed DELETE (show_path path) params s Hl) as [r ->]; by apply Hrefl].
      destruct (get_quiet (show_path path) s) as [A1 E1]. split; [by apply get_locked|]. split; [done|].
      eapply emits_impl; [|exact E1]. intros x [[H|([H _] & _)]|[H|([H _] & _)]]; auto. }
    destruct (verb c m (show_path path) params s) as [r s1]. destruct (IH r s1 H1) as (H4 & H5 & H6).
    split; [done|]. split; [simpl in *; congruence|]. by etrans.
  - unfold post_within, mutate. destruct (gates_closed POST (show_path path) params s Hl) as [r ->].
    destruct (time_is_up _); by apply IH.
  - unfold upload. destruct (gates_closed POST (show_path path) [("content", ct); ("filename", fn)] s Hl) as [r ->]. by apply IH.
  - by apply IH.
  - destruct (Hlock _ Hl) as [_ Hp]. destruct (IH (set_env (pass_ms ms (cw_env s)) s) (Hp ms)) as (H1 & H2 & H3). done.
Qed.
End lock.

(** ** The end of a poll *)
(** The clock: a sleep takes at least its time, and no answer turns it back. *)
Definition clock_runs : Prop :=
  (forall rq w, now_ms w <= now_ms (http rq w).2)%N /\ (forall ms w, now_ms w + ms <= now_ms (pass_ms ms w))%N.
Definition no_earlier (w w' : W) : Prop := (now_ms w <= now_ms w')%N.
#[local] Instance no_earlier_preorder : PreOrder no_earlier.
Proof. unfold no_earlier. split; [intros w; lia|]. intros w1 w2 w3 H1 H2. lia. Qed.

(** The reading of the poll without fuel: from a state, the moments at which a status was asked for, the result
    and the state at the end. *)
Section poll.
Context `{De AgentExecStatus} (vmid : N) (pid : Z) (path : Path) (deadline : N).
Inductive polled : CW W -> list N -> Result CallError GuestExecResult -> CW W -> Prop :=
  | poll_expired s :
      (deadline <= now_ms (cw_env s))%N ->
      polled s [] (Err (Failed (bail ("QEMU guest agent exec on guest " +:+ pretty vmid +:+ " (pid " +:+ pretty pid
        +:+ ") did not complete within 15s — command still running, abandoning poll")))) s
  | poll_failed s r e s1 :
      (now_ms (cw_env s) < deadline)%N -> get c (show_path path) s = (r, s1) -> typed (A := AgentExecStatus) path r = Err e ->
      polled s [now_ms (cw_env s)] (Err e) s1
  | poll_exited s r st s1 :
      (now_ms (cw_env s) < deadline)%N -> get c (show_path path) s = (r, s1) -> typed path r = Ok st -> ex_exited st = true ->
      polled s [now_ms (cw_env s)] (Ok (mkExecResult (ex_exitcode st) (ex_out st) (ex_err st))) s1
  | poll_again s r st s1 ts res s2 :
      (now_ms (cw_env s) < deadline)%N -> get c (show_path path) s = (r, s1) -> typed path r = Ok st -> ex_exited st = false ->
      polled (set_env (pass_ms QGA_POLL_INTERVAL (cw_env s1)) s1) ts res s2 ->
      polled s (now_ms (cw_env s) :: ts) res s2.

Lemma get_later s r s1 : clock_runs -> get c (show_path path) s = (r, s1) -> (now_ms (cw_env s) <= now_ms (cw_env s1))%N.
Proof. intros [Hh _] Hg. pose proof (get_keeps no_earlier Hh (show_path path) s) as H'. by rewrite Hg in H'. Qed.
(** With a pass for every interval until the deadline the fuel does not run out. *)
Lemma poll_exec_polled fuel s :
  clock_runs -> (deadline + QGA_POLL_INTERVAL <= now_ms (cw_env s) + QGA_POLL_INTERVAL * N.of_nat fuel)%N -> 0 < fuel ->
  exists ts, polled s ts (run c (poll_exec fuel vmid pid path deadline) s).1 (run c (poll_exec fuel vmid pid path deadline) s).2
    /\ length ts < fuel.
Proof.
  intros Hc. revert s. induction fuel as [|fuel IH]; intros s Hd H0; [lia|]. cbn [poll_exec run].
  destruct (N.leb_spec deadline (now_ms (cw_env s))) as [Hle|Hlt].
  { exists []. split; [|simpl; lia]. by apply poll_expired. }
  assert (0 < fuel) as H1 by (destruct fuel; [unfold QGA_POLL_INTERVAL in Hd; lia|lia]).
  unfold mbind, Http_bind, api_get. cbn [http_bind run verb].
  destruct (get c (show_path path) s) as [r s1] eqn:Eg. pose proof (get_later _ _ _ Hc Eg) as Hn.
  destruct (typed (A := AgentExecStatus) path r) as [st|e] eqn:Et.
  2:{ exists [now_ms (cw_env s)]. split; [by eapply poll_failed|simpl; lia]. }
  destruct (ex_exited st) eqn:Ex.
  { exists [now_ms (cw_env s)]. split; [by eapply poll_exited|simpl; lia]. }
  cbn [run]. destruct Hc as [Hh Hp]. specialize (Hp QGA_POLL_INTERVAL (cw_env s1)).
  destruct (IH (set_env (pass_ms QGA_POLL_INTERVAL (cw_env s1)) s1)) as (ts & Hts & Hl); [cbn [cw_env set_env]; lia|done|].
  exists (now_ms (cw_env s) :: ts). split; [by eapply poll_again|simpl; lia].
Qed.
(** Every question is asked before the deadline; when one takes at most [d] and a pause at most [d'], the poll is
    over that much after it. *)
Lemma polled_in_time s ts r s' : polled s ts r s' -> Forall (fun t => t < deadline)%N ts.
Proof. induction 1; repeat constructor; done. Qed.
Lemma polled_ends s ts r s' d d' :
  (forall s, now_ms (cw_env (get c (show_path path) s).2) <= now_ms (cw_env s) + d)%N ->
  (forall w, now_ms (pass_ms QGA_POLL_INTERVAL w) <= now_ms w + d')%N ->
  polled s ts r s' -> (now_ms (cw_env s') <= N.max (now_ms (cw_env s)) (deadline + d + d'))%N.
Proof.
  intros Hd Hd' Hp. induction Hp as [s Hs|s x e s1 Hs Hg _|s x st s1 Hs Hg _ _|s x st s1 ts res s2 Hs Hg _ _ _ IH]; [lia|..];
    specialize (Hd s); rewrite Hg in Hd; cbn [snd] in Hd; [lia..|].
  specialize (Hd' (cw_env s1)). cbn [cw_env set_env] in IH. lia.
Qed.
End poll.
End spec.

(** The requests a program may make, over all answers. *)
Inductive asks {A} : Http A -> Method -> Path -> Params -> Prop :=
  | asks_request m path params k : asks (Request m path params k) m path params
  | asks_within path params k : asks (PostWithin path params k) POST path params
  | asks_upload path ct fn k : asks (UploadFile path ct fn k) POST path [("content", ct); ("filename", fn)]
  | asks_request_k m path params k r m' path' params' : asks (k r) m' path' params' -> asks (Request m path params k) m' path' params'
  | asks_within_k path params k r m' path' params' : asks (k r) m' path' params' -> asks (PostWithin path params k) m' path' params'
  | asks_upload_k path ct fn k r m' path' params' : asks (k r) m' path' params' -> asks (UploadFile path ct fn k) m' path' params'
  | asks_now k t m path params : asks (k t) m path params -> asks (Now k) m path params
  | asks_sleep ms k m path params : asks k m path params -> asks (Sleep ms k) m path params.
Lemma sends_impl {A} (P Q : Method -> Path -> Params -> Prop) (p : Http A) :
  (forall m path params, asks p m path params -> P m path params -> Q m path params) -> sends P p -> sends Q p.
Proof.
  intros H Hp. induction p as [r|m path params k IH|path params k IH|path ct fn k IH|k IH|ms k IH]; simpl in *; [done|..].
  1-3: destruct Hp as [H1 H2]; split; [apply H; [constructor|done]|]; intros r; apply IH; [|done];
    intros; apply H; [by econstructor|done].
  - intros t. apply IH; [|done]. intros. apply H; [by econstructor|done].
  - apply IH; [|done]. intros. apply H; [by econstructor|done].
Qed.
Lemma sends_true {A} (p : Http A) : sends (fun _ _ _ => True) p.
Proof. induction p; simpl; auto. Qed.
Lemma sends_asks {A} (p : Http A) : sends (asks p) p.
Proof. eapply sends_impl; [|apply sends_true]. done. Qed.

(** ** The client *)
(** ** Calls that differ in their secrets *)
Section alike.
Context {W : Type} `{E : Env W} {K : Codecs} {M : Mac} `{DN : De Node} (c : PxClient).
(** Nothing but the requests that left tells the two apart. *)
Definition seen_alike (s s' : CW W) : Prop :=
  cw_env s = cw_env s' /\ cw_auth s = cw_auth s' /\ cw_audit s = cw_audit s'.
(** The cluster gives requests that differ in the secrets of their form alike answers, and is then the same. *)
Definition secrets_unnoticed : Prop := forall m url auth ps qs w, Forall2 same_but_secrets ps qs ->
  alike_answers (http (mkRequest m url auth (Form ps)) w).1 (http (mkRequest m url auth (Form qs)) w).1
  /\ (http (mkRequest m url auth (Form ps)) w).2 = (http (mkRequest m url auth (Form qs)) w).2.

Lemma relogin_alike s s' : seen_alike s s' -> (relogin c s).1 = (relogin c s').1 /\ seen_alike (relogin c s).2 (relogin c s').2.
Proof.
  destruct s as [w a au l], s' as [w' a' au' l']. intros (Hw & Ha & Hu). cbn in Hw, Ha, Hu. subst. unfold relogin. cbn [cw_env].
  destruct (resolve_password _ _) as [pw|e]; [|done]. unfold login, transmit. cbn [cw_env cw_auth cw_audit cw_sent].
  destruct (http _ w') as [x w1]. destruct x as [e|resp]; [done|]. destruct (negb _); [done|].
  destruct (all_chunks _); [|done]. destruct (json_from_str _); [|done]. by destruct (ticket_of _) as [[]|].
Qed.
Lemma transmit_alike rq rq' s s' :
  alike_answers (http rq (cw_env s)).1 (http rq' (cw_env s)).1 -> (http rq (cw_env s)).2 = (http rq' (cw_env s)).2 ->
  seen_alike s s' -> alike_answers (transmit rq s).1 (transmit rq' s').1 /\ seen_alike (transmit rq s).2 (transmit rq' s').2.
Proof.
  destruct s as [w a au l], s' as [w' a' au' l']. intros H1 H2 (Hw & Ha & Hu). cbn in Hw, Ha, Hu, H1, H2. subst. unfold transmit. cbn [cw_env].
  destruct (http rq w') as [x w1], (http rq' w') as [x' w1']. cbn [fst snd] in *. by subst.
Qed.
Lemma alike_refl x : alike_answers x x.
Proof. destruct x; by constructor. Qed.
Lemma send_request_alike i m path ps qs s s' :
  secrets_unnoticed -> Forall2 same_but_secrets ps qs -> seen_alike s s' ->
  alike_results (send_request c i m path (payload_of m ps) s).1 (send_request c i m path (payload_of m qs) s').1
  /\ seen_alike (send_request c i m path (payload_of m ps) s).2 (send_request c i m path (payload_of m qs) s').2.
Proof.
  intros Hu Hp H. unfold send_request, send_with_retry. destruct (reject_path_traversal path) as [[]|err]; [|done].
  assert (He : forall w w', seen_alike w w' -> (ensure_auth c w).1 = (ensure_auth c w').1 /\ seen_alike (ensure_auth c w).2 (ensure_auth c w').2).
  { intros [w a au l] [w' a' au' l'] Hw. pose proof Hw as (E1 & E2 & E3). cbn in E1, E2, E3. subst. unfold ensure_auth.
    cbn [cw_env cw_auth]. destruct (needs_refresh _ _); [by apply relogin_alike|done]. }
  assert (Hf : forall w w', seen_alike w w' -> (force_reauth c w).1 = (force_reauth c w').1 /\ seen_alike (force_reauth c w).2 (force_reauth c w').2).
  { intros [w a au l] [w' a' au' l'] Hw. pose proof Hw as (E1 & E2 & E3). cbn in E1, E2, E3. subst. unfold force_reauth.
    cbn [cw_auth]. destruct a'; [done|by apply relogin_alike]. }
  assert (Hs : forall w w', seen_alike w w' ->
    alike_answers (send_once c m path (payload_of m ps) w).1 (send_once c m path (payload_of m qs) w').1
    /\ seen_alike (send_once c m path (payload_of m ps) w).2 (send_once c m path (payload_of m qs) w').2).
  { intros w w' Hw. pose proof Hw as (_ & E2 & _). unfold send_once. rewrite E2. apply transmit_alike; [..|done];
      destruct m; cbn [payload_of]; first [apply alike_refl|by apply Hu|done]. }
  pose proof (send_loop_alike seen_alike _ _ _ _ (fun s => subsec_nanos (cw_env s)) (max_attempts c) i path
    (attempts_bound (max_attempts c)) 0 false s s' [] [] [] [] He Hf Hs H) as HR.
  by destruct (send_loop _ _ _ _ _ _ _ _ _ _ s _ _), (send_loop _ _ _ _ _ _ _ _ _ _ s' _ _).
Qed.
Lemma refine_audit err s : cw_audit (refine_node_lookup_error c err s).2 = cw_audit s.
Proof. apply refine_quiet. Qed.
Lemma conclude_alike ctx path x x' s s' :
  alike_results x x' -> seen_alike s s' -> cw_audit (conclude c ctx path x s).2 = cw_audit (conclude c ctx path x' s').2.
Proof.
  intros Hx (E1 & _ & E3). assert (Ho : forall text, cw_audit (outcome c ctx text s) = cw_audit (outcome c ctx text s')).
  { intros text. unfold outcome, set_audit. cbn [cw_audit]. by rewrite E1, E3. }
  unfold conclude. destruct x as [y|e], x' as [y'|e']; try done; cbn [alike_results] in Hx; subst; [|apply Ho]. rewrite Hx.
  destruct (negb _); [|apply Ho].
  pose proof (fun err => refine_audit err (outcome c ctx ("error " +:+ pretty (resp_status y')) s)) as H1.
  pose proof (fun err => refine_audit err (outcome c ctx ("error " +:+ pretty (resp_status y')) s')) as H2.
  specialize (H1 (from_status_with_idempotency show_status (resp_status y') path (response_text (resp_body y)) Mutation)).
  specialize (H2 (from_status_with_idempotency show_status (resp_status y') path (response_text (resp_body y')) Mutation)).
  destruct (refine_node_lookup_error c _ (outcome c ctx _ s)), (refine_node_lookup_error c _ (outcome c ctx _ s')). cbn [snd] in *.
  by rewrite H1, H2, Ho.
Qed.
End alike.

Section claims.
#[local] Existing Instance emits_preorder.
Context {W : Type} `{E : Env W} {K : Codecs} {M : Mac} `{DN : De Node} (c : PxClient).

(** C5: whatever program runs, every request that leaves the process is a
    login, a read, or one the program asks for, sent when the last row of
    the audit log is its own write-ahead record: marked as sent, with its
    verb and path, the operator and the redacted parameters. *)
Theorem mutation_leaves_after_its_record {A} (p : Http A) s :
  exists l, cw_sent (run c p s).2 = cw_sent s ++ l
    /\ Forall (fun x => is_login c x.1 \/ rq_method x.1 = GET
         \/ exists m path params, asks p m path params /\ rq_method x.1 = m /\ rq_url x.1 = url_of c (show_path path)
              /\ recorded c m (show_path path) params x.2) l.
Proof.
  destruct (run_leaves c (asks p) p s (sends_asks p)) as (l & Hl & F). exists l. split; [done|].
  eapply Forall_impl; [exact F|].
  intros x [H|[H _]|path params _ [H _] _|m path params _ Ha (H1 & H2 & _) Hr _|path ct fn Ha (H1 & H2 & _) Hr]; auto;
    right; right; eauto 10.
Qed.

(** The request is one the program asks for, and the server reads in its path the segments that were meant,
    and in its query, where that is encoded, the pairs. *)
Definition routed {A} (encoded : bool) (p : Http A) (rq : HttpRequest) : Prop :=
  exists m path params, asks p m path params /\ rq_method rq = m /\ rq_url rq = url_of c (show_path path)
    /\ server_route (show_path path) = intended_route path
    /\ (encoded = true -> server_query (show_path path) = intended_query path)
    /\ (Forall (fun seg => ~ dot_segment seg) (split_char "/" (show_path path))
        \/ exists ct fn, rq_payload rq = Multipart ct fn).
Lemma routed_intro {A} (b : bool) (p : Http A) m path params payload rq :
  asks p m path params -> (if b then sound_path else sound_route) m path params -> goes c m (show_path path) payload rq ->
  (reject_path_traversal (show_path path) = Ok () \/ exists ct fn, payload = Multipart ct fn) -> routed b p rq.
Proof.
  intros Ha Hok (Hm & Hu & <-) Ht. exists m, path, params.
  assert (Hr : sound_route m path params) by (destruct b; [|done]; unfold sound_path, path_ok in Hok; by apply andb_true_iff in Hok as [? _]).
  split_and!; [done..|by apply route_reads_back|intros ->; by apply query_reads_back|].
  destruct Ht as [Ht|Ht]; [left; by apply accepted_path_has_no_dot_segment|by right].
Qed.

(** C6: the requests of the methods of the client go where the method means:
    the segments the server reads in the path of a request, percent-decoded,
    are the pieces the method was called with, whatever characters they hold;
    so are the pairs of its query, unless the method is one of the three
    that put a string of the caller there as it is (the content filter of a
    storage, the option names of journal and syslog) and that string has
    reserved characters; and no segment is [.] or [..], but for an upload.
    What leaves besides is a login and the listing of the nodes. *)
Theorem requests_keep_their_route {A} encoded (p : Http A) s :
  any_method encoded p ->
  exists l, cw_sent (run c p s).2 = cw_sent s ++ l
    /\ Forall (fun x => is_login c x.1 \/ goes c GET "/nodes" NoPayload x.1 \/ routed encoded p x.1) l.
Proof.
  intros Hp.
  assert (Hs : sends (fun m path params => asks p m path params /\ (if encoded then sound_path else sound_route) m path params) p).
  { eapply sends_impl; [|by apply any_method_sound]. by split. }
  destruct (run_leaves c _ p s Hs) as (l & Hl & F). exists l. split; [done|]. eapply Forall_impl; [exact F|].
  intros x [H|H|path params [Ha Ho] Hg Ht|m path params _ [Ha Ho] Hg _ Ht|path ct fn [Ha Ho] Hg _]; auto;
    right; right; eapply routed_intro; eauto.
Qed.

(** C7: while the profile is read-only or a freeze covers it, whatever runs
    sends logins and reads and writes nothing to the audit log; a lock that
    cannot be read or parsed counts. *)
Theorem locked_client_only_reads {A} (p : Http A) s :
  stays_locked c -> locked c (cw_env s) ->
  cw_audit (run c p s).2 = cw_audit s
  /\ exists l, cw_sent (run c p s).2 = cw_sent s ++ l
       /\ Forall (fun x => is_login c x.1 \/ rq_method x.1 = GET) l.
Proof. intros Hs Hl. by destruct (run_locked c Hs p s Hl) as (_ & ? & ?). Qed.

(** C40: the poll for the result of a command run by the guest agent ends: it
    asks for the status at most sixty times, each time before its deadline,
    and is over by the deadline plus the time one question and one pause
    take.  It ends as the loop of the code does, with the exit code and output
    of the answer that says exited, with the error of the first question
    that fails, or, when the deadline has passed, saying that the command is
    still running. *)
Theorem exec_poll_ends `{De AgentExecStatus} vmid pid path s d d' :
  clock_runs ->
  (forall s, now_ms (cw_env (get c (show_path path) s).2) <= now_ms (cw_env s) + d)%N ->
  (forall w, now_ms (pass_ms QGA_POLL_INTERVAL w) <= now_ms w + d')%N ->
  let deadline := (now_ms (cw_env s) + QGA_EXEC_TIMEOUT)%N in
  let '(r, s') := run c (poll_exec exec_fuel vmid pid path deadline) s in
  (now_ms (cw_env s') <= deadline + d + d')%N
  /\ exists ts, polled c vmid pid path deadline s ts r s' /\ length ts <= 60 /\ Forall (fun t => t < deadline)%N ts.
Proof.
  intros Hc Hd Hd' deadline. destruct (poll_exec_polled c vmid pid path deadline exec_fuel s Hc) as (ts & Hp & Hl).
  - change exec_fuel with 61. unfold deadline, QGA_EXEC_TIMEOUT, QGA_POLL_INTERVAL. lia.
  - change exec_fuel with 61. lia.
  - destruct (run c _ s) as [r s']. cbn [fst snd] in Hp. pose proof (polled_ends _ _ _ _ _ _ _ _ _ _ _ Hd Hd' Hp) as He.
    split; [unfold deadline in *; lia|]. exists ts. split; [done|]. change exec_fuel with 61 in Hl.
    split; [lia|by eapply polled_in_time].
Qed.

(** a delete leaves only when the same call read the guest's current
    status and it was stopped; nothing else that changes the cluster leaves. *)
Lemma delete_only_stopped `{De Guest} node vmid t s :
  let status := mkPath [Lit "/nodes/"; Seg node; Lit "/"; Lit (type_path t); Lit "/"; Num vmid; Lit "/status/current"] [] in
  let guest := mkPath [Lit "/nodes/"; Seg node; Lit "/"; Lit (type_path t); Lit "/"; Num vmid] [] in
  exists l, cw_sent (run c (delete_guest node vmid t) s).2 = cw_sent s ++ l
    /\ Forall (fun x => is_login c x.1 \/ rq_method x.1 = GET
         \/ goes c DELETE (show_path guest) NoPayload x.1
            /\ exists pre, typed status (get c (show_path status) s).1 = Ok pre /\ g_status pre = Stopped) l.
Proof.
  intros status guest. unfold delete_guest, mbind, Http_bind, attempt, api_get. cbn [http_bind run verb].
  fold status. destruct (get_quiet c (show_path status) s) as [_ Hq].
  set (Q := fun x : HttpRequest * Db => is_login c x.1 \/ rq_method x.1 = GET \/ _).
  assert (emits Q s (get c (show_path status) s).2) as H1.
  { eapply emits_impl; [|exact Hq]. intros x [[Hx|((Hx & _) & _)]|[Hx|((Hx & _) & _)]]; unfold Q; auto. }
  destruct (get c (show_path status) s) as [r s1]. cbn [fst snd] in *.
  destruct (typed status r) as [pre|e] eqn:Et; [|exact H1]. cbn [with_context http_bind].
  case_bool_decide as Hst; [exact H1|]. fold guest. unfold api_delete. cbn [run verb].
  pose proof (mutate_leaves c (fun m path _ => m = DELETE /\ path = guest) DELETE guest [] s1 ltac:(done) ltac:(done)) as H2.
  destruct (mutate c DELETE (show_path guest) [] s1) as [r2 s2]. cbn [run snd] in *.
  change (emits Q s s2). etransitivity; [exact H1|]. eapply emits_impl; [|exact H2].
  intros x [Hx|[Hx _]|p' q' _ [Hx _] _|m p' q' Hm [-> ->] Hx _ _|p' ct fn [? _] _ _]; unfold Q; [auto..| |done].
  right. right. split; [exact Hx|]. exists pre. split; [done|]. by destruct (decide (g_status pre = Stopped)).
Qed.
End claims.

(** ** A client at work *)
(** The world is a clock, and every answer is the same; the global lock is unreadable, or absent. *)
Section demo.
#[local] Existing Instance demo_mac.
Definition demo_answer : Response :=
  {| resp_status := 200; resp_retry_after := None;
     resp_body := {| body_length := None; body_encoding := None; body_chunks := [inr "{}"] |} |}.
Definition timed_env (round_trip : N) (fs : Fs) : Env N := {|
  http _ w := (inr demo_answer, (w + round_trip)%N);
  now_ms w := w; unix_secs w := (w / 1000)%N; subsec_nanos _ := 0%N; pass_ms ms w := (w + ms)%N;
  lock_files _ := fs; reloaded _ := plain_cfg (Some "s") None; secret_sources _ := sources_with "s" 384;
  audit_disk _ := Ok tt; fresh_key _ := replicate 32 "k"%char; time_is_up _ := None |}.
Definition demo_env : Fs -> Env N := timed_env 5.
#[local] Instance demo_codecs : Codecs := {|
  json_from_str _ := Ok (JObject [("data", JString "UPID:pve1")]); json_to_string _ := "{}";
  lock_from_toml _ := Err "not a lock"; gunzip := Ok; show_status := pretty |}.
#[local] Instance demo_node : De Node := {| de_value _ := Err "not a node"; de_missing := None |}.
#[local] Instance demo_status : De AgentExecStatus := {| de_value _ := Ok (mkExecStatus false 0 "" ""); de_missing := None |}.
Definition demo_client : PxClient :=
  mkPxClient "https://lab:8006" (plain_cfg (Some "s") None) 3 true demo_loc "alice".
Definition demo_start : CW N :=
  mkCW 1700000000000%N (from_token "root@pam" "t" "s") {| aw_db := None; aw_keys := ∅; aw_cache := None |} [].

Lemma requests_keep_their_route_witness :
  exists l, cw_sent (run (E := demo_env ∅) demo_client (create_qemu "a/../b?c" [("vmid", "100")]) demo_start).2 = [] ++ l
    /\ Forall (fun x => is_login demo_client x.1 \/ goes demo_client GET "/nodes" NoPayload x.1
         \/ routed demo_client true (create_qemu "a/../b?c" [("vmid", "100")]) x.1) l.
Proof.
  apply (requests_keep_their_route (E := demo_env ∅) demo_client true (create_qemu "a/../b?c" [("vmid", "100")]) demo_start).
  constructor. constructor.
Defined.
(** It leaves once, with its record before it. *)
Example create_is_sent :
  (fun x : HttpRequest * Db => (rq_url x.1, map ar_action x.2))
    <$> cw_sent (run (E := demo_env ∅) demo_client (create_qemu "a b" [("vmid", "100")]) demo_start).2
  = [("https://lab:8006/api2/json/nodes/a%20b/qemu", ["POST /nodes/a%20b/qemu"])].
Proof. vm_compute. reflexivity. Qed.

Definition locked_fs : Fs := {["/d/freeze.lock" := Readable "?"]}.
Lemma locked_client_only_reads_witness :
  cw_audit (run (E := demo_env locked_fs) demo_client (create_qemu "pve1" []) demo_start).2 = cw_audit demo_start.
Proof.
  assert (Hl : forall w, locked (E := demo_env locked_fs) demo_client w).
  { intros w. right. left. intros [H|(t & f & H & Hf & _)]; [by vm_compute in H|]. by vm_compute in Hf. }
  apply (locked_client_only_reads (E := demo_env locked_fs) demo_client (create_qemu "pve1" []) demo_start).
  - intros w _. split; intros; apply Hl.
  - apply Hl.
Defined.
Lemma exec_poll_ends_witness :
  let path := mkPath [Lit "/agent/exec-status"] [("pid", Int 7)] in
  let deadline := (now_ms (Env := timed_env 0 ∅) (cw_env demo_start) + QGA_EXEC_TIMEOUT)%N in
  let '(r, s') := run (E := timed_env 0 ∅) demo_client (poll_exec exec_fuel 100 7 path deadline) demo_start in
  (now_ms (Env := timed_env 0 ∅) (cw_env s') <= deadline + 0 + 250)%N
  /\ exists ts, polled (E := timed_env 0 ∅) demo_client 100 7 path deadline demo_start ts r s' /\ length ts <= 60 /\ Forall (fun t => t < deadline)%N ts.
Proof.
  apply (exec_poll_ends (E := timed_env 0 ∅) demo_client 100 7 (mkPath [Lit "/agent/exec-status"] [("pid", Int 7)]) demo_start 0 250).
  - split; intros; simpl; lia.
  - intros s. rewrite N.add_0_r. set (R := fun w w' : N => (w' <= w)%N).
    assert (PreOrder R) as HR by (unfold R; split; [intros w; lia|intros w1 w2 w3; lia]).
    apply (get_keeps (E := timed_env 0 ∅) demo_client R). intros rq w. unfold R. simpl. lia.
  - intros w. unfold QGA_POLL_INTERVAL. cbn [now_ms pass_ms timed_env]. lia.
Defined.


(** ** Where the methods fall short *)
(** An upload does not pass the guard on the path: a node named [..] leaves as a dot segment, where a read is refused. *)
Example upload_skips_the_guard :
  rq_url ∘ fst <$> cw_sent (run (E := demo_env ∅) demo_client
    (upload_to_storage ".." "local" "/tmp/a.iso" (Some "a.iso") (Ok tt) "iso" None) demo_start).2
  = ["https://lab:8006/api2/json/nodes/../storage/local/upload"]
  /\ cw_sent (run (E := demo_env ∅) demo_client (list_storage_content (A := Value) ".." "local" None) demo_start).2 = [].
Proof. vm_compute. done. Qed.
(** The content filter goes into the query as it is. *)
Example filter_adds_a_pair :
  server_query (show_path (mkPath [Lit "/content"] [("content", Raw "iso&vmid=1")])) = [("content", "iso"); ("vmid", "1")].
Proof. vm_compute. reflexivity. Qed.
End demo.
