(* ===== verification/McpHttp.v ===== *)
(** * The HTTP server of the tools: mcp/http_server.rs

    The gates of a request: the [Host] and [Origin] headers against the
    authorities of the bind address, then the bearer token against the one
    given on the command line or in the live configuration.  SHA-256 is a
    parameter.  The tool call itself is [call_tool], with the time it is given:
    [None] is a call dropped at the end of it, wherever it was. *)

From S2P Require Import Prelude.
From S2P Require Import Json.
From S2P Require Import ApiError.
From S2P Require Import Utf8.
From S2P Require Import TlsPin.
From S2P Require Import McpTools.

(** ** [str::parse::<IpAddr>] *)
Inductive IpAddr := V4 (octets : list N) | V6 (groups : list N).
(** [Parser::read_number]: the digits are taken as long as there are any. *)
Fixpoint read_digits (digit : ascii -> option N) (radix acc : N) (count : nat) (s : string) : N * nat * string :=
  match s with
  | String a s' =>
      match digit a with
      | Some d => read_digits digit radix (acc * radix + d) (S count) s'
      | None => (acc, count, s)
      end
  | "" => (acc, count, "")
  end.
Definition read_number (digit : ascii -> option N) (radix : N) (max_digits : nat) (zero_prefix : bool) (max : N) (s : string) :
    option (N * string) :=
  let '(n, count, rest) := read_digits digit radix 0 0 s in
  if (count =? 0) || (max_digits <? count) then None
  else if negb zero_prefix && starts_with "0" s && (1 <? count) then None
  else if (n <=? max)%N then Some (n, rest) else None.
Definition read_char (c : ascii) (s : string) : option string :=
  match s with String a s' => if Ascii.eqb a c then Some s' else None | "" => None end.
Definition read_separator {A} (sep : ascii) (index : nat) (inner : string -> option A) (s : string) : option A :=
  match index with 0 => inner s | S _ => read_char sep s ≫= inner end.
Definition read_ipv4_addr (s : string) : option (list N * string) :=
  let octet i := read_separator "." i (read_number digit_value 10 3 false 255) in
  '(a, s1) ← octet 0 s; '(b, s2) ← octet 1 s1; '(c, s3) ← octet 2 s2; '(d, s4) ← octet 3 s3;
  Some ([a; b; c; d], s4).
(** The groups read, whether the last two were an IPv4 address, and the rest. *)
Fixpoint read_groups (limit i : nat) (s : string) : list N * bool * string :=
  match limit with
  | 0 => ([], false, s)
  | S limit' =>
      let embedded := match limit' with 0 => None | S _ => read_separator ":" i read_ipv4_addr s end in
      match embedded with
      | Some ([a; b; c; d], s1) => ([a * 256 + b; c * 256 + d]%N, true, s1)
      | _ =>
          match read_separator ":" i (read_number TlsPin.hex_value 16 4 true 65535) s with
          | Some (g, s1) => let '(gs, v4, s2) := read_groups limit' (S i) s1 in (g :: gs, v4, s2)
          | None => ([], false, s)
          end
      end
  end.
Definition read_ipv6_addr (s : string) : option (list N * string) :=
  let '(head, v4, s1) := read_groups 8 0 s in
  if length head =? 8 then Some (head, s1)
  else if v4 then None
  else
    s2 ← read_char ":" s1; s3 ← read_char ":" s2;
    let '(tail, _, s4) := read_groups (7 - length head) 0 s3 in
    Some (head ++ replicate (8 - length head - length tail) 0%N ++ tail, s4).
Definition parse_ip (s : string) : option IpAddr :=
  '(ip, rest) ← (match read_ipv4_addr s with
                 | Some (o, rest) => Some (V4 o, rest)
                 | None => '(g, rest) ← read_ipv6_addr s; Some (V6 g, rest)
                 end);
  if is_empty rest then Some ip else None.
Definition is_loopback (ip : IpAddr) : bool :=
  match ip with V4 o => bool_decide (head o = Some 127%N) | V6 g => bool_decide (g = [0; 0; 0; 0; 0; 0; 0; 1]%N) end.
Definition is_loopback_bind (bind : string) : bool :=
  eq_ignore_ascii_case bind "localhost" || match parse_ip bind with Some ip => is_loopback ip | None => false end.

(** ** Authorities *)
Definition ends_with_char (c : ascii) (s : string) : bool := bool_decide (last_byte s = Some c).
Definition format_host_port (host : string) (port : N) : string :=
  let h := to_ascii_lowercase (trim host) in
  if starts_with "[" h && ends_with_char "]" h then h +:+ ":" +:+ pretty port
  else if has_char ":" h then "[" +:+ h +:+ "]:" +:+ pretty port
  else h +:+ ":" +:+ pretty port.
Definition u16_max : N := 65535.
Definition insert_allowed_host_entry (raw : string) (default_port : N) (set : gset string) : gset string :=
  let h := to_ascii_lowercase (trim raw) in
  let with_port := ":" +:+ pretty default_port in
  if is_empty h then set
  else if starts_with "[" h then
    if contains "]:" h then {[h]} ∪ set
    else if ends_with_char "]" h then {[h; h +:+ with_port]} ∪ set
    else set
  else
    match rsplit_once ":" h with
    | Some (host_part, port_part) =>
        if negb (has_char ":" host_part) && bool_decide (is_Some (parse_uint u16_max port_part)) then {[h]} ∪ set
        else {["[" +:+ h +:+ "]" +:+ with_port; "[" +:+ h +:+ "]"]} ∪ set
    | None => {[h +:+ with_port; h]} ∪ set
    end.
Definition build_allowed_authorities (bind : string) (port : N) (allowed_hosts : list string) : gset string :=
  let p := pretty port in
  let base : gset string :=
    if is_loopback_bind bind then {["127.0.0.1:" +:+ p; "localhost:" +:+ p; "[::1]:" +:+ p]} else ∅ in
  foldl (fun set entry => insert_allowed_host_entry entry port set) ({[format_host_port bind port]} ∪ base) allowed_hosts.

(** ** Headers *)
(** A header map: names in lower case, values as their bytes. *)
Definition HeaderMap : Type := list (string * string).
Definition get_all (name : string) (hs : HeaderMap) : list string := (filter (fun h => h.1 = name) hs).*2.
(** [HeaderValue::to_str] *)
Definition to_str (v : string) : option string :=
  if all_bytes (fun a => byte_in 32 126 a || Ascii.eqb a "009") v then Some v else None.

Definition BAD_REQUEST : N := 400.
Definition UNAUTHORIZED : N := 401.
Definition FORBIDDEN : N := 403.
Fixpoint drop_bytes (n : nat) (s : string) : string :=
  match n, s with S n', String _ s' => drop_bytes n' s' | _, _ => s end.
Definition strip_ascii_prefix (p s : string) : option string :=
  if starts_with p (to_ascii_lowercase s) then Some (drop_bytes (String.length p) s) else None.
Definition origin_authority (origin : string) : option string :=
  match strip_ascii_prefix "http://" origin with
  | Some a => Some a
  | None => strip_ascii_prefix "https://" origin
  end.
Definition check_origin (allowed : gset string) (hs : HeaderMap) : Result (N * string) unit :=
  match get_all "origin" hs with
  | [] => Ok ()
  | raw :: more =>
      match more with
      | _ :: _ => Err (FORBIDDEN, "Forbidden: multiple Origin headers are not allowed")
      | [] =>
          match to_str raw with
          | None => Err (FORBIDDEN, "Forbidden: invalid Origin header")
          | Some v =>
              let o := trim v in
              let ok := match origin_authority o with
                        | Some auth => negb (is_empty auth) && bool_decide (to_ascii_lowercase auth ∈ allowed)
                        | None => false
                        end in
              if ok then Ok () else Err (FORBIDDEN, "Forbidden: rejected Origin '" +:+ o +:+ "'")
          end
      end
  end.
Definition check_host_and_origin (allowed : gset string) (hs : HeaderMap) : Result (N * string) unit :=
  match get_all "host" hs with
  | [] => Err (BAD_REQUEST, "Bad Request: missing Host header")
  | raw :: more =>
      match more with
      | _ :: _ => Err (BAD_REQUEST, "Bad Request: multiple Host headers are not allowed")
      | [] =>
          match to_str raw with
          | None => Err (BAD_REQUEST, "Bad Request: invalid Host header")
          | Some v =>
              let host := trim v in
              if is_empty host then Err (BAD_REQUEST, "Bad Request: missing Host header")
              else if bool_decide (to_ascii_lowercase host ∉ allowed)
              then Err (FORBIDDEN, "Forbidden: rejected Host '" +:+ host +:+ "'")
              else check_origin allowed hs
          end
      end
  end.

(** ** JSON-RPC *)
Definition ok_result (id result : Value) : Value :=
  JObject [("jsonrpc", JString "2.0"); ("id", id); ("result", result)].
Definition err_result (id : Value) (code : Z) (message : string) : Value :=
  JObject [("jsonrpc", JString "2.0"); ("id", id);
           ("error", JObject [("code", JNumber code); ("message", JString message)])].
Definition VERSION : string := "0.17.0".

(** The tool calls of the server over its world, within a budget in seconds. *)
Class Tools (W : Type) := call_tool : N -> string -> Value -> W -> option (Result AnyErr Value) * W.

Section server.
Context {W : Type} {T : Tools W} (sha256 : string -> list N).

Definition call (id : Value) (params : option Value) (w : W) : Value * W :=
  match params with
  | None => (err_result id (-32602) "Invalid params", w)
  | Some p =>
      match vget "name" p ≫= as_str with
      | None => (err_result id (-32602) "Missing tool name", w)
      | Some name =>
          let args := default (JObject []) (vget "arguments" p) in
          let budget := match List.find (fun t => bool_decide (td_name t = name)) TOOLS with
                        | Some t => td_timeout_secs t
                        | None => DEFAULT_TIMEOUT_SECS
                        end in
          match call_tool budget name args w with
          | (Some (Ok res), w') => (ok_result id res, w')
          | (Some (Err e), w') => (err_result id (-32603) (default "" (head (err_chain e))), w')
          | (None, w') =>
              (err_result id (-32001) ("tool '" +:+ name +:+ "' exceeded " +:+ pretty budget +:+ "s execution budget"), w')
          end
      end
  end.
Definition dispatch_rpc (method : string) (id : Value) (params : option Value) (w : W) : Value * W :=
  if bool_decide (method = "initialize") then
    (ok_result id (JObject [("protocolVersion", JString "2025-03-26");
       ("capabilities", JObject [("tools", JObject [("listChanged", JBool false)])]);
       ("serverInfo", JObject [("name", JString "proxxx-mcp"); ("version", JString VERSION)])]), w)
  else if bool_decide (method = "notifications/initialized") then (JNull, w)
  else if bool_decide (method = "notifications/subscribe") then
    (ok_result id (JObject [("accepted", JBool true);
       ("available_kinds", JArray [JString "task_state_change"; JString "incident"]);
       ("transport_note", JString ("Server-sent notifications stream on the SSE channel (HTTP transport) or "
          +:+ "interleaved with the request/response stream on stdout (stdio transport)."))]), w)
  else if bool_decide (method = "notifications/unsubscribe") then (ok_result id (JObject [("accepted", JBool true)]), w)
  else if bool_decide (method = "ping") then (ok_result id (JObject []), w)
  else if bool_decide (method = "tools/list") then (ok_result id (JObject [("tools", tools_list_schema)]), w)
  else if bool_decide (method = "tools/call") then call id params w
  else (err_result id (-32601) "Method not found", w).

(** ** The state of the server and the token *)
Record McpState := mkMcpState {
  require_token : bool;
  cli_token : option string;
  allowed_authorities : gset string;
}.
Definition token_gate (expected : option string) (bearer : string) (require_token : bool) : bool :=
  match expected with
  | Some tok => if is_empty (trim tok) then negb require_token else ct_eq_32 (sha256 tok) (sha256 bearer)
  | None => negb require_token
  end.
Definition bearer_of (hs : HeaderMap) : string :=
  default "" (v ← head (get_all "authorization" hs); s ← to_str v; strip_prefix "Bearer " s).
(** [mcp_token] is that of the live configuration. *)
Definition auth_ok (st : McpState) (mcp_token : option string) (hs : HeaderMap) : bool :=
  let cli_tok := match cli_token st with Some t => if is_empty (trim t) then None else Some t | None => None end in
  token_gate (match cli_tok with Some t => Some t | None => mcp_token end) (bearer_of hs) (require_token st).

(** ** The routes *)
Inductive Endpoint :=
  | PostMcp (body : Result N Value)  (** or the status of a body axum rejects *)
  | GetMcp
  | GetHealth
  | NoRoute (status : N).
Inductive Answer :=
  | Text (status : N) (text : string)
  | JsonAnswer (status : N) (body : Value)
  | NoContent
  | EventStream
  | Bare (status : N).

Definition handle_single (req : Value) (w : W) : Value * W :=
  let id := default JNull (vget "id" req) in
  match vget "method" req ≫= as_str with
  | None => (err_result id (-32600) "Invalid Request: missing method", w)
  | Some m => dispatch_rpc m id (vget "params" req) w
  end.
Definition is_null (v : Value) : bool := match v with JNull => true | _ => false end.
Fixpoint handle_batch (reqs : list Value) (w : W) : list Value * W :=
  match reqs with
  | [] => ([], w)
  | req :: reqs' =>
      let '(r, w1) := handle_single req w in
      let '(rs, w2) := handle_batch reqs' w1 in
      ((if is_null r then [] else [r]) ++ rs, w2)
  end.
Definition unauthorized : Answer := JsonAnswer UNAUTHORIZED (JObject [("error", JString "Unauthorized")]).
Definition answer_rpc (body : Value) (w : W) : Answer * W :=
  match body with
  | JArray arr =>
      let '(responses, w') := handle_batch arr w in
      (match responses with [] => NoContent | _ => JsonAnswer 200 (JArray responses) end, w')
  | _ =>
      let '(r, w') := handle_single body w in
      (if is_null r then NoContent else JsonAnswer 200 r, w')
  end.
Definition post_mcp (st : McpState) (mcp_token : option string) (hs : HeaderMap) (body : Value) (w : W) : Answer * W :=
  if negb (auth_ok st mcp_token hs) then (unauthorized, w) else answer_rpc body w.
Definition get_mcp_sse (st : McpState) (mcp_token : option string) (hs : HeaderMap) : Answer :=
  if negb (auth_ok st mcp_token hs) then Text UNAUTHORIZED "Unauthorized" else EventStream.
Definition health : Answer :=
  JsonAnswer 200 (JObject [("status", JString "ok"); ("server", JString "proxxx-mcp"); ("version", JString VERSION);
    ("transport", JString "http")]).
Definition require_authorized (st : McpState) (mcp_token : option string) (hs : HeaderMap) (next : W -> Answer * W) (w : W) :
    Answer * W :=
  if auth_ok st mcp_token hs then next w else (unauthorized, w).
Definition require_allowed_host_and_origin (st : McpState) (hs : HeaderMap) (next : W -> Answer * W) (w : W) : Answer * W :=
  match check_host_and_origin (allowed_authorities st) hs with
  | Err (status, msg) => (Text status msg, w)
  | Ok _ => next w
  end.
(** [build_router_from_state], run on a request; the configuration may be reloaded between two reads. *)
Definition route (st : McpState) (reload1 reload2 : option string) (hs : HeaderMap) (e : Endpoint) : W -> Answer * W :=
  require_allowed_host_and_origin st hs
    (match e with
     | PostMcp body =>
         require_authorized st reload1 hs (fun w =>
           match body with Ok v => post_mcp st reload2 hs v w | Err status => (Bare status, w) end)
     | GetMcp => require_authorized st reload1 hs (fun w => (get_mcp_sse st reload2 hs, w))
     | GetHealth => fun w => (health, w)
     | NoRoute status => fun w => (Bare status, w)
     end).

Definition non_blank (t : option string) : bool := match t with Some t => negb (is_empty (trim t)) | None => false end.
Definition build_state (bind : string) (port : N) (allow_insecure_bind : bool) (cli : option string)
    (allowed_hosts : list string) : McpState :=
  mkMcpState (negb (is_loopback_bind bind) && negb allow_insecure_bind) cli
    (build_allowed_authorities bind port allowed_hosts).
(** The checks before the socket is bound. *)
Definition start_http_server (bind : string) (port : N) (allow_insecure_bind : bool) (cli mcp_token : option string)
    (allowed_hosts : list string) : Result AnyErr McpState :=
  let st := build_state bind port allow_insecure_bind cli allowed_hosts in
  if require_token st && negb (non_blank cli || non_blank mcp_token)
  then Err (bail ("Refusing to start the MCP HTTP server on non-loopback bind '" +:+ bind +:+ "' without auth. "
    +:+ "Set `mcp_token` (or pass --token), bind to 127.0.0.1, or pass --insecure-bind to override consciously."))
  else Ok st.

(** ** The stream of notifications *)
Inductive SseItem (Note : Type) := Noted (n : Note) | Lagged (missed : N) | Recheck.
Inductive SseEvent (Note : Type) := ClusterEvent (n : Note) | LaggedEvent (missed : N).
#[global] Arguments Noted {Note} n.
#[global] Arguments Lagged {Note} missed.
#[global] Arguments Recheck {Note}.
#[global] Arguments ClusterEvent {Note} n.
#[global] Arguments LaggedEvent {Note} missed.
(** Each item with the token configured when it is looked at. *)
Fixpoint authorised_events {Note} (st : McpState) (hs : HeaderMap) (items : list (option string * SseItem Note)) : list (SseEvent Note) :=
  match items with
  | [] => []
  | (mcp_token, item) :: items' =>
      if auth_ok st mcp_token hs then
        match item with
        | Recheck => []
        | Noted n => [ClusterEvent n]
        | Lagged k => [LaggedEvent k]
        end ++ authorised_events st hs items'
      else []
  end.
End server.

(** ** Who gets through *)
Definition host_allowed (allowed : gset string) (hs : HeaderMap) : Prop :=
  exists v, get_all "host" hs = [v] /\ is_Some (to_str v) /\ trim v <> "" /\ to_ascii_lowercase (trim v) ∈ allowed.
Definition origin_allowed (allowed : gset string) (hs : HeaderMap) : Prop :=
  get_all "origin" hs = []
  \/ exists v scheme rest, get_all "origin" hs = [v] /\ is_Some (to_str v) /\ trim v = scheme +:+ rest
       /\ to_ascii_lowercase scheme ∈ ["http://"; "https://"] /\ rest <> "" /\ to_ascii_lowercase rest ∈ allowed.
(** The token in force: that of the command line, else that of the configuration; a blank one is none. *)
Definition token_in_force (st : McpState) (mcp_token : option string) : option string :=
  if non_blank (cli_token st) then cli_token st else if non_blank mcp_token then mcp_token else None.

Lemma to_str_id v s : to_str v = Some s -> s = v.
Proof. unfold to_str. destruct (all_bytes _ _); congruence. Qed.
Lemma lowercase_app a b : to_ascii_lowercase (a +:+ b) = to_ascii_lowercase a +:+ to_ascii_lowercase b.
Proof. induction a as [|x a IH]; [done|]. simpl. by rewrite IH. Qed.
Lemma lowercase_length a : String.length (to_ascii_lowercase a) = String.length a.
Proof. induction a as [|x a IH]; [done|]. simpl. by rewrite IH. Qed.
Lemma drop_bytes_app a b : drop_bytes (String.length a) (a +:+ b) = b.
Proof. by induction a. Qed.
Lemma drop_bytes_split p s r :
  to_ascii_lowercase s = p +:+ r -> exists a, s = a +:+ drop_bytes (String.length p) s /\ to_ascii_lowercase a = p.
Proof.
  revert s r. induction p as [|x p IH]; intros s r; [by exists ""|]. destruct s as [|y s]; simpl; intros [= Hx Hs].
  destruct (IH s r Hs) as (a & Ha & Hl). exists (String y a). simpl. by rewrite <-Ha, Hx, Hl.
Qed.
Lemma strip_ascii_prefix_Some p s rest :
  strip_ascii_prefix p s = Some rest <-> exists a, s = a +:+ rest /\ to_ascii_lowercase a = p.
Proof.
  unfold strip_ascii_prefix, starts_with. split.
  - destruct (strip_prefix p (to_ascii_lowercase s)) as [r|] eqn:E; simpl; [|done]. intros [= <-].
    apply strip_prefix_Some in E. by eapply drop_bytes_split.
  - intros (a & -> & <-). rewrite lowercase_app, strip_prefix_app. simpl. by rewrite lowercase_length, drop_bytes_app.
Qed.
Lemma origin_authority_Some o rest :
  origin_authority o = Some rest <-> exists a, o = a +:+ rest /\ to_ascii_lowercase a ∈ ["http://"; "https://"].
Proof.
  unfold origin_authority. destruct (strip_ascii_prefix "http://" o) as [x|] eqn:E.
  - split.
    + intros [= ->]. apply strip_ascii_prefix_Some in E as (a & ? & Ha). exists a. rewrite Ha. split; [done|]. set_solver.
    + intros (a & -> & Ha). apply elem_of_cons in Ha as [Ha|Ha%list_elem_of_singleton].
      * rewrite <-E. apply strip_ascii_prefix_Some. by exists a.
      * exfalso. apply strip_ascii_prefix_Some in E as (b & Hb & Hl). apply (f_equal to_ascii_lowercase) in Hb.
        rewrite !lowercase_app, Ha, Hl in Hb. discriminate Hb.
  - rewrite strip_ascii_prefix_Some. split.
    + intros (a & ? & Ha). exists a. rewrite Ha. split; [done|]. set_solver.
    + intros (a & -> & Ha). apply elem_of_cons in Ha as [Ha|Ha%list_elem_of_singleton]; [|by exists a].
      exfalso. assert (strip_ascii_prefix "http://" (a +:+ rest) = Some rest) as H; [|congruence].
      apply strip_ascii_prefix_Some. by exists a.
Qed.

Lemma check_origin_ok allowed hs : check_origin allowed hs = Ok () <-> origin_allowed allowed hs.
Proof.
  unfold check_origin, origin_allowed. destruct (get_all "origin" hs) as [|v [|v' more]].
  - split; [by left|done].
  - destruct (to_str v) as [s|] eqn:Es.
    2:{ split; [done|]. intros [?|(u & sc & r & [= <-] & [x Hx] & _)]; [done|congruence]. }
    assert (is_Some (to_str v)) as Hv by eauto. apply to_str_id in Es as ->. destruct (origin_authority (trim v)) as [auth|] eqn:Ea.
    + apply origin_authority_Some in Ea as (a & Hva & Ha). destruct (negb (is_empty auth) && _) eqn:Eb.
      * split; [intros _|done]. right. apply andb_true_iff in Eb as [E1 E2%bool_decide_eq_true].
        exists v, a, auth. split_and!; try done. intros ->. done.
      * split; [done|]. intros [?|(u & sc & r & [= <-] & _ & Hu & Hsc & Hr & Hin)]; [done|]. exfalso.
        assert (origin_authority (trim v) = Some r) as H1 by (apply origin_authority_Some; by exists sc).
        assert (origin_authority (trim v) = Some auth) as H2 by (apply origin_authority_Some; by exists a).
        rewrite H1 in H2. injection H2 as ->. apply andb_false_iff in Eb as [Eb|Eb%bool_decide_eq_false]; [|done].
        apply negb_false_iff, bool_decide_eq_true in Eb. done.
    + split; [done|]. intros [?|(u & sc & r & [= <-] & _ & Hu & Hsc & _)]; [done|]. exfalso.
      assert (origin_authority (trim v) = Some r) as H1 by (apply origin_authority_Some; by exists sc). congruence.
  - split; [done|]. intros [?|(u & sc & r & ? & _)]; done.
Qed.
Lemma check_host_and_origin_ok allowed hs :
  check_host_and_origin allowed hs = Ok () <-> host_allowed allowed hs /\ origin_allowed allowed hs.
Proof.
  rewrite <-check_origin_ok. unfold check_host_and_origin, host_allowed. destruct (get_all "host" hs) as [|v [|v' more]].
  - split; [done|]. intros [(u & ? & _) _]. done.
  - destruct (to_str v) as [s|] eqn:Es.
    2:{ split; [done|]. intros [(u & [= <-] & [x Hx] & _) _]. congruence. }
    assert (is_Some (to_str v)) as Hv by eauto. apply to_str_id in Es as ->. unfold is_empty. case_bool_decide as Ht.
    { split; [done|]. intros [(u & [= <-] & _ & Hn & _) _]. done. }
    case_bool_decide as Hin.
    { split; [done|]. intros [(u & [= <-] & _ & _ & Hu) _]. done. }
    split; [|tauto]. intros H. split; [|done]. exists v. by split_and!.
  - split; [done|]. intros [(u & ? & _) _]. done.
Qed.

Section admission.
Context {W : Type} {T : Tools W} (sha256 : string -> list N).

Definition token_shown (st : McpState) (mcp_token : option string) (hs : HeaderMap) : Prop :=
  match token_in_force st mcp_token with
  | Some t => sha256 (bearer_of hs) = sha256 t
  | None => require_token st = false
  end.
Definition admitted (st : McpState) (mcp_token : option string) (hs : HeaderMap) : Prop :=
  host_allowed (allowed_authorities st) hs /\ origin_allowed (allowed_authorities st) hs /\ token_shown st mcp_token hs.
Definition refused (a : Answer) : Prop :=
  (exists text, a = Text BAD_REQUEST text \/ a = Text FORBIDDEN text \/ a = Text UNAUTHORIZED text) \/ a = unauthorized.

Context (Hsha : forall x, length (sha256 x) = 32%nat).

Lemma token_gate_ok t bearer req :
  token_gate sha256 t bearer req = true
  <-> match t with Some t => if is_empty (trim t) then req = false else sha256 bearer = sha256 t | None => req = false end.
Proof.
  unfold token_gate. destruct t as [t|]; [|apply negb_true_iff]. destruct (is_empty (trim t)); [apply negb_true_iff|].
  rewrite ct_eq_spec by (by rewrite !Hsha). done.
Qed.
Lemma auth_ok_iff st tok hs : auth_ok sha256 st tok hs = true <-> token_shown st tok hs.
Proof.
  unfold auth_ok, token_shown, token_in_force, non_blank. rewrite token_gate_ok.
  destruct (cli_token st) as [t|]; [destruct (is_empty (trim t)) eqn:Et; simpl; [|by rewrite Et]|];
    (destruct tok as [t'|]; [|done]; by destruct (is_empty (trim t')) eqn:Et').
Qed.
Lemma auth_not_ok st tok hs : auth_ok sha256 st tok hs = false <-> ~ token_shown st tok hs.
Proof. rewrite <-auth_ok_iff. by destruct (auth_ok sha256 st tok hs). Qed.

Lemma check_refusal allowed hs status msg :
  check_host_and_origin allowed hs = Err (status, msg) -> refused (Text status msg).
Proof.
  unfold check_host_and_origin, check_origin, refused. intros H. left. exists msg.
  repeat case_match; simplify_eq; tauto.
Qed.

(** C15: a request gets past the gates of the HTTP server exactly when its one
    [Host] is an authority of the server, its [Origin], if it has one, is an
    http or https origin of such an authority, and it shows the token in
    force (or none is, and none is required); then the body is answered.
    Otherwise it is refused with 400, 401 or 403 and nothing has run.  A
    stream of events ends for good at the first look that finds the token no
    longer in force. *)
Theorem mcp_http_admission st tok1 tok2 hs body w :
  (admitted st tok1 hs -> token_shown st tok2 hs ->
     route sha256 st tok1 tok2 hs (PostMcp (Ok body)) w = answer_rpc body w
     /\ route sha256 st tok1 tok2 hs GetMcp w = (EventStream, w))
  /\ (~ (admitted st tok1 hs /\ token_shown st tok2 hs) ->
     forall e, e = PostMcp (Ok body) \/ e = GetMcp ->
     exists a, route sha256 st tok1 tok2 hs e w = (a, w) /\ refused a)
  /\ (forall Note (pre post : list (option string * SseItem Note)) item, ~ token_shown st tok1 hs ->
     authorised_events sha256 st hs (pre ++ (tok1, item) :: post) = authorised_events sha256 st hs pre).
Proof.
  unfold route, require_allowed_host_and_origin, require_authorized, post_mcp, get_mcp_sse. split_and!.
  - intros (Hh & Ho & H1) H2. apply auth_ok_iff in H1, H2. rewrite H1, H2.
    destruct (check_host_and_origin_ok (allowed_authorities st) hs) as [_ ->]; done.
  - intros Hn e He. destruct (check_host_and_origin (allowed_authorities st) hs) as [[]|[status msg]] eqn:Ec.
    2:{ exists (Text status msg). split; [done|]. by eapply check_refusal. }
    apply check_host_and_origin_ok in Ec as [Hh Ho].
    destruct (auth_ok sha256 st tok1 hs) eqn:E1; [|destruct He as [->| ->]; eexists; (split; [done|by right])].
    apply auth_ok_iff in E1. assert (auth_ok sha256 st tok2 hs = false) as E2.
    { apply auth_not_ok. intros H2. by destruct Hn. }
    rewrite E2. destruct He as [->| ->]; (eexists; split; [done|]); [by right|]. left. eauto.
  - intros Note pre post item Hn. induction pre as [|[t i] pre IH]; simpl.
    + by apply auth_not_ok in Hn as ->.
    + destruct (auth_ok sha256 st t hs); [|done]. by rewrite IH.
Qed.
End admission.

(** A server on any address, and what it answers to. *)
Section demo.
#[local] Instance counting : Tools nat := fun _ _ _ n => (Some (Ok JNull), S n).
Definition demo_sha (s : string) : list N := replicate 31 0%N ++ [N.of_nat (String.length s)].
Definition lan_server : McpState := build_state "192.168.1.5" 8080 false None [].
Definition ping_hs (host token : string) : HeaderMap := [("host", host); ("authorization", "Bearer " +:+ token)].
Definition call_body : Value := JObject [("id", JNumber 1); ("method", JString "tools/call");
  ("params", JObject [("name", JString "list_nodes")])].

Lemma mcp_http_admission_witness :
  route demo_sha lan_server (Some "s3cret") (Some "s3cret") (ping_hs "192.168.1.5:8080" "s3cret") (PostMcp (Ok call_body)) 0
  = answer_rpc call_body 0.
Proof.
  destruct (mcp_http_admission demo_sha ltac:(intros x; unfold demo_sha; by rewrite length_app, length_replicate)
    lan_server (Some "s3cret") (Some "s3cret") (ping_hs "192.168.1.5:8080" "s3cret") call_body 0) as (H & _ & _).
  apply H; [|vm_compute; reflexivity]. split_and!; [|by left|vm_compute; reflexivity].
  exists "192.168.1.5:8080". split_and!; [vm_compute; reflexivity|eexists; vm_compute; reflexivity|vm_compute; discriminate|].
  apply (bool_decide_unpack _). vm_compute. exact I.
Defined.

(** An exposed server whose token is cleared by a reload denies everybody. *)
Example cleared_token_denies :
  (route (W := nat) demo_sha lan_server (Some "") None (ping_hs "192.168.1.5:8080" "") (PostMcp (Ok call_body)) 0).1 = unauthorized.
Proof. vm_compute. reflexivity. Qed.
Example loopbacks :
  is_loopback_bind <$> ["127.0.0.1"; "127.8.8.8"; "LocalHost"; "::1"; "0:0::0001"; "0.0.0.0"; "::"; "::ffff:127.0.0.1"; ""; "127.1"; "127.0.0.01"; "::1::"]
  = [true; true; true; true; true; false; false; false; false; false; false; false].
Proof. vm_compute. reflexivity. Qed.
(** A name given with a scheme, as in a browser's address bar, allows an authority that no [Host] can be. *)
Example scheme_is_kept :
  elements (build_allowed_authorities "192.168.1.5" 80 ["http://pve.lan"]) =
  elements ({["192.168.1.5:80"; "[http://pve.lan]:80"; "[http://pve.lan]"]} : gset string).
Proof. vm_compute. reflexivity. Qed.
(** A tool call without an id, which JSON-RPC calls a notification, runs and is answered with a null id. *)
Example notification_is_answered :
  handle_single (W := nat) (JObject [("method", JString "tools/call"); ("params", JObject [("name", JString "list_nodes")])]) 0
  = (ok_result JNull JNull, 1).
Proof. vm_compute. reflexivity. Qed.
End demo.
