(* ===== verification/McpStdio.v ===== *)
(** * The stdio server and the notifications: mcp/server.rs and mcp/notifications.rs

    The reader cuts the bytes of standard input into lines, with a cap on each;
    the main loop answers them in order and interleaves the notifications of
    the broker.  The three watchers that feed the broker are step functions on
    what they remember.  The JSON reader is a parameter. *)

From S2P Require Import Prelude.
From S2P Require Import Json.
From S2P Require Import ApiError.
From S2P Require Import Utf8.
From S2P Require Import SortBy.
From S2P Require Import Incident.
From S2P Require Import AppCache.
From S2P Require Import McpTools.
From S2P Require Import McpDispatch.
From S2P Require Import McpHttp.

(** ** Framing *)
Definition MAX_RPC_LINE_BYTES : N := 16 * 1024 * 1024.
Inductive LineEvent := Line (buf : string) | OversizeRejected | Eof.
(** What comes after the bytes that can be read. *)
Inductive Tail := Closed | Broken.

(** [take(n).read_until(b'\n')]: what is read and what is left. *)
Fixpoint read_until (n : N) (s : string) : string * string :=
  if (n =? 0)%N then ("", s)
  else match s with
       | "" => ("", "")
       | String a s' =>
           if Ascii.eqb a newline then (String a "", s')
           else let '(l, rest) := read_until (n - 1) s' in (String a l, rest)
       end.
Definition len (s : string) : N := N.of_nat (String.length s).
Definition ends_line (buf : string) : bool := bool_decide (last_byte buf = Some newline).
(** The read wants more than there is. *)
Definition runs_dry (max : N) (buf : string) : bool := negb (ends_line buf) && (len buf <? max)%N.
Fixpoint drain (fuel : nat) (max : N) (s : string) : string :=
  match fuel with
  | 0 => s
  | S fuel' =>
      let '(buf, rest) := read_until max s in
      if is_empty buf || runs_dry max buf || ends_line buf then rest else drain fuel' max rest
  end.
Fixpoint stdin_reader_loop (fuel : nat) (max : N) (tail : Tail) (s : string) : list LineEvent :=
  match fuel with
  | 0 => []
  | S fuel' =>
      let '(line_buf, rest) := read_until max s in
      match tail, runs_dry max line_buf with
      | Broken, true => [Eof]
      | _, _ =>
          if is_empty line_buf then [Eof]
          else if negb (ends_line line_buf) && (max <=? len line_buf)%N
          then OversizeRejected :: stdin_reader_loop fuel' max tail (drain (S (String.length rest)) max rest)
          else Line line_buf :: stdin_reader_loop fuel' max tail rest
      end
  end.
Definition stdin_events (max : N) (tail : Tail) (s : string) : list LineEvent :=
  stdin_reader_loop (S (String.length s)) max tail s.

(** ** Lines *)
Record RpcRequest := mkRpcRequest { rq_id : option Value; rq_rpc_method : string; rq_params : option Value }.
Definition value_opt (v : Value) : option Value := match v with JNull => None | _ => Some v end.
Definition RpcRequest_from_value (v : Value) : Result string RpcRequest :=
  match v with
  | JObject m =>
      match jget "jsonrpc" m, jget "method" m with
      | Some (JString _), Some (JString meth) => Ok (mkRpcRequest (jget "id" m ≫= value_opt) meth (jget "params" m ≫= value_opt))
      | None, _ => Err "missing field `jsonrpc`"
      | Some (JString _), None => Err "missing field `method`"
      | _, _ => Err "invalid type: expected a string"
      end
  | JArray [JString _; id; JString meth; params] => Ok (mkRpcRequest (value_opt id) meth (value_opt params))
  | _ => Err "invalid type: expected struct RpcRequest"
  end.

Section stdio.
Context {W : Type} {T : Tools W} (from_str : string -> Result string Value).

Definition parse_error (why : string) : Value := err_result JNull (-32700) ("Parse error: " +:+ why).
(** What is written for a line, if anything. *)
Definition handle_line (buf : string) (w : W) : option Value * W :=
  if negb (is_utf8 buf) then (Some (parse_error "invalid UTF-8"), w)
  else
    let line := trim buf in
    if is_empty line then (None, w)
    else
      match from_str line ≫= RpcRequest_from_value with
      | Err e => (Some (parse_error e), w)
      | Ok req =>
          let '(response, w') := dispatch_rpc (rq_rpc_method req) (default JNull (rq_id req)) (rq_params req) w in
          (if is_null response then None else Some response, w')
      end.

Inductive McpNotification :=
  | TaskStateChange (event upid node task_type id user : string) (starttime : Z) (endtime : option Z) (status : option string)
  | IncidentNote (event reason : string)
  | Reconciliation (event profile : string) (drift_total : N) (summary : string).
Definition note_value (n : McpNotification) : Value :=
  match n with
  | TaskStateChange event upid node task_type id user starttime endtime status =>
      JObject [("kind", JString "task_state_change"); ("event", JString event); ("upid", JString upid); ("node", JString node);
        ("type", JString task_type); ("id", JString id); ("user", JString user); ("starttime", JNumber starttime);
        ("endtime", json_opt JNumber endtime); ("status", json_opt JString status)]
  | IncidentNote event reason => JObject [("kind", JString "incident"); ("event", JString event); ("reason", JString reason)]
  | Reconciliation event profile drift_total summary =>
      JObject [("kind", JString "reconciliation"); ("event", JString event); ("profile", JString profile);
        ("drift_total", json_n drift_total); ("summary", JString summary)]
  end.
Definition rpc_envelope (n : McpNotification) : Value :=
  JObject [("jsonrpc", JString "2.0"); ("method", JString "notifications/cluster-event"); ("params", note_value n)].
Definition lagged_envelope (skipped : N) : Value :=
  JObject [("jsonrpc", JString "2.0"); ("method", JString "notifications/lagged");
           ("params", JObject [("missed", json_n skipped)])].

(** What the [select!] of the main loop takes next. *)
Inductive Incoming :=
  | FromStdin (e : LineEvent)
  | StdinGone
  | FromBroker (n : McpNotification)
  | BrokerLagged (skipped : N)
  | BrokerClosed.
(** One round: what is written, and whether the loop goes on. *)
Definition round (i : Incoming) (w : W) : list Value * bool * W :=
  match i with
  | StdinGone | FromStdin Eof | BrokerClosed => ([], false, w)
  | FromStdin OversizeRejected =>
      ([parse_error ("request exceeds " +:+ pretty MAX_RPC_LINE_BYTES +:+ " byte limit")], true, w)
  | FromStdin (Line buf) => let '(r, w') := handle_line buf w in (option_list r, true, w')
  | FromBroker n => ([rpc_envelope n], true, w)
  | BrokerLagged k => ([lagged_envelope k], true, w)
  end.
Fixpoint run_server (ins : list Incoming) (w : W) : list Value * W :=
  match ins with
  | [] => ([], w)
  | i :: ins' =>
      let '(out, go, w1) := round i w in
      if go then let '(outs, w2) := run_server ins' w1 in (out ++ outs, w2) else (out, w1)
  end.
End stdio.

(** ** The watchers *)
Definition u64_as_i64 (n : N) : Z := if (n <? 2 ^ 63)%N then Z.of_N n else (Z.of_N n - 2 ^ 64)%Z.
Definition task_outcome (t : TaskInfo) : string :=
  match ti_status t with
  | None => "completed"
  | Some s => if bool_decide (s = "OK") then "completed" else "failed"
  end.
Definition notif_from (t : TaskInfo) (event : string) : McpNotification :=
  TaskStateChange event (ti_upid t) (ti_node t) (ti_type t) (ti_id t) (ti_user t) (u64_as_i64 (ti_starttime t))
    (u64_as_i64 <$> ti_endtime t) (ti_status t).
Notation Seen := (gmap string TaskInfo).
Definition see (t : TaskInfo) (seen : Seen) : Seen := <[ti_upid t := t]> seen.
Definition announce (seen : Seen) (t : TaskInfo) : list McpNotification :=
  match seen !! ti_upid t with
  | None => [notif_from t (if bool_decide (is_Some (ti_endtime t)) then task_outcome t else "started")]
  | Some old =>
      if bool_decide (ti_endtime old = None /\ is_Some (ti_endtime t)) then [notif_from t (task_outcome t)] else []
  end.
Fixpoint poll_tasks (current : list TaskInfo) (seen : Seen) : list McpNotification * Seen :=
  match current with
  | [] => ([], seen)
  | t :: current' =>
      let '(notes, seen') := poll_tasks current' (see t seen) in (announce seen t ++ notes, seen')
  end.
(** The oldest are dropped; of equal start times, whichever [drain] gives first. *)
Definition cap_seen (seen : Seen) : Seen :=
  if (4096 <? N.of_nat (size seen))%N then
    let entries := sort_by (fun a b => N.compare (ti_starttime a.2) (ti_starttime b.2)) (map_to_list seen) in
    list_to_map (drop (length entries - 2048) entries)
  else seen.
(** A poll that fails changes nothing. *)
Definition task_tick (poll : Result AnyErr (list TaskInfo)) (seen : Seen) : list McpNotification * Seen :=
  match poll with
  | Err _ => ([], seen)
  | Ok current => let '(notes, seen') := poll_tasks current seen in (notes, cap_seen seen')
  end.
Definition first_seen (poll : Result AnyErr (list TaskInfo)) : Seen :=
  match poll with Ok tasks => foldl (fun seen t => see t seen) ∅ tasks | Err _ => ∅ end.
Fixpoint task_poller (polls : list (Result AnyErr (list TaskInfo))) (seen : Seen) : list McpNotification :=
  match polls with
  | [] => []
  | p :: polls' => let '(notes, seen') := task_tick p seen in notes ++ task_poller polls' seen'
  end.

(** The lock is read twice when it has just appeared. *)
Definition incident_tick (poll again : Result AnyErr (option FreezeState)) (was_frozen : bool) : list McpNotification * bool :=
  match poll with
  | Err _ => ([], was_frozen)
  | Ok st =>
      let now_frozen := bool_decide (is_Some st) in
      let reason := match again with Ok (Some s) => fz_reason s | _ => "" end in
      ((if now_frozen && negb was_frozen then [IncidentNote "frozen" reason] else [])
       ++ (if negb now_frozen && was_frozen then [IncidentNote "thawed" ""] else []), now_frozen)
  end.
Fixpoint incident_watcher (polls : list (Result AnyErr (option FreezeState) * Result AnyErr (option FreezeState)))
    (was_frozen : bool) : list McpNotification :=
  match polls with
  | [] => []
  | (p, again) :: polls' => let '(notes, was) := incident_tick p again was_frozen in notes ++ incident_watcher polls' was
  end.

Definition should_publish_reconcile (last : option (bool * N)) (in_sync : bool) (ts : N) : bool :=
  match last with
  | None => negb in_sync
  | Some (prev_sync, prev_ts) => negb (Bool.eqb prev_sync in_sync) || (negb in_sync && negb (ts =? prev_ts)%N)
  end.
Definition reconcile_tick (profile_label : string) (poll : Result AnyErr (option ReconcileStatus)) (last : option (bool * N)) :
    list McpNotification * option (bool * N) :=
  match poll with
  | Ok (Some st) =>
      ((if should_publish_reconcile last (in_sync st) (last_check_ts st)
        then [Reconciliation (if in_sync st then "in_sync" else "drifted") profile_label (total_changes st) (summary st)]
        else []), Some (in_sync st, last_check_ts st))
  | _ => ([], last)
  end.

(** ** Framing, against the lines of the input *)
Section framing.
Context (max : N) (tail : Tail) (Hmax : (0 < max)%N).

(** A line within the cap is delivered, with its line feed; a longer one is
    rejected once.  What is left at the end is delivered when the input was
    closed and not when it failed. *)
Definition frame (p : string) : LineEvent := if (len p <? max)%N then Line (p +:+ String newline "") else OversizeRejected.
Fixpoint frames (parts : list string) : list LineEvent :=
  match parts with
  | [] => [Eof]
  | p :: ps =>
      match ps with
      | [] =>
          (if is_empty p then []
           else if (len p <? max)%N then match tail with Closed => [Line p] | Broken => [] end
           else [OversizeRejected]) ++ [Eof]
      | _ => frame p :: frames ps
      end
  end.

Lemma len_app a b : len (a +:+ b) = (len a + len b)%N.
Proof. unfold len. rewrite string_length_app. lia. Qed.
Lemma last_no_newline p : has_char newline p = false -> ends_line p = false.
Proof.
  unfold ends_line. intros H. apply bool_decide_eq_false. induction p as [|a p IH]; [done|]. simpl in H.
  apply orb_false_iff in H as [Ha Hp]. simpl. destruct p; [|by apply IH]. intros [= ->]. done.
Qed.
Lemma ends_line_app p : ends_line (p +:+ String newline "") = true.
Proof. unfold ends_line. rewrite last_byte_app. by apply bool_decide_eq_true. Qed.

Lemma read_until_line n p s : has_char newline p = false -> (len p < n)%N ->
  read_until n (p +:+ String newline s) = (p +:+ String newline "", s).
Proof.
  revert n. induction p as [|a p IH]; intros n H Hn; unfold len in *; simpl in *; destruct (N.eqb_spec n 0); try lia; [done|].
  apply orb_false_iff in H as [-> Hp]. by rewrite IH by (done || lia).
Qed.
Lemma read_until_end n p : has_char newline p = false -> (len p < n)%N -> read_until n p = (p, "").
Proof.
  revert n. induction p as [|a p IH]; intros n H Hn; unfold len in *; simpl in *; destruct (N.eqb_spec n 0); try lia; [done|].
  apply orb_false_iff in H as [-> Hp]. by rewrite IH by (done || lia).
Qed.
Lemma read_until_long n p t : has_char newline p = false -> (n <= len p)%N ->
  exists a b, p = a +:+ b /\ len a = n /\ read_until n (p +:+ t) = (a, b +:+ t).
Proof.
  revert n. induction p as [|x p IH]; intros n H Hn; simpl in H.
  - exists "", "". unfold len in *. simpl in *. destruct (N.eqb_spec n 0) as [->|]; [|lia].
    split_and!; try done. by destruct t.
  - apply orb_false_iff in H as [Hx Hp]. destruct (N.eqb_spec n 0) as [->|Hn0].
    + exists "", (String x p). done.
    + destruct (IH (n - 1)%N Hp) as (a & b & -> & Ha & Hr); [unfold len in *; simpl in *; lia|].
      exists (String x a), b. split_and!; [done|unfold len in *; simpl; lia|]. simpl.
      destruct (N.eqb_spec n 0); [done|]. by rewrite Hx, Hr.
Qed.
Lemma has_newline_parts a b : has_char newline (a +:+ b) = false -> has_char newline a = false /\ has_char newline b = false.
Proof. rewrite has_char_app. apply orb_false_iff. Qed.
Lemma len_nonempty a : (0 < len a)%N -> is_empty a = false.
Proof. destruct a; [done|]. intros _. done. Qed.
Lemma full_not_dry a : len a = max -> runs_dry max a = false.
Proof. intros Ha. unfold runs_dry. rewrite Ha, N.ltb_irrefl. apply andb_false_r. Qed.

Lemma drain_line fuel p s : has_char newline p = false -> String.length p < fuel -> drain fuel max (p +:+ String newline s) = s.
Proof.
  revert p. induction fuel as [|fuel IH]; intros p Hp Hf; [lia|]. cbn [drain]. destruct (N.ltb_spec (len p) max).
  - rewrite read_until_line by done. by rewrite ends_line_app, !orb_true_r.
  - destruct (read_until_long max p (String newline s) Hp) as (a & b & -> & Ha & ->); [done|].
    apply has_newline_parts in Hp as [Hna Hnb].
    rewrite len_nonempty, full_not_dry, last_no_newline by (done || lia). apply IH; [done|].
    rewrite string_length_app in Hf. unfold len in Ha. lia.
Qed.
Lemma drain_end fuel p : has_char newline p = false -> String.length p < fuel -> drain fuel max p = "".
Proof.
  revert p. induction fuel as [|fuel IH]; intros p Hp Hf; [lia|]. cbn [drain]. destruct (N.ltb_spec (len p) max).
  - rewrite read_until_end by done. destruct (is_empty p); [done|]. unfold runs_dry.
    rewrite last_no_newline by done. by destruct (N.ltb_spec (len p) max); [|lia].
  - destruct (read_until_long max p "" Hp) as (a & b & -> & Ha & Hr); [done|]. rewrite !string_app_nil_r in Hr. rewrite Hr.
    apply has_newline_parts in Hp as [Hna Hnb].
    rewrite len_nonempty, full_not_dry, last_no_newline by (done || lia). apply IH; [done|].
    rewrite string_length_app in Hf. unfold len in Ha. lia.
Qed.

(** A string is its first line, and the rest after a line feed. *)
Lemma first_line s : (has_char newline s = false)
  \/ exists p s', s = p +:+ String newline s' /\ has_char newline p = false.
Proof.
  induction s as [|a s IH]; [by left|]. simpl. destruct (Ascii.eqb_spec a newline) as [->|Ha].
  - right. by exists "", s.
  - destruct IH as [H|(p & s' & -> & H)]; [by left|]. right. exists (String a p), s'. split; [done|]. simpl.
    by destruct (Ascii.eqb_spec a newline).
Qed.

Lemma reader_frames fuel s : String.length s < fuel -> stdin_reader_loop fuel max tail s = frames (split_char newline s).
Proof.
  revert s. induction fuel as [|fuel IH]; intros s Hf; [lia|]. cbn [stdin_reader_loop].
  destruct (first_line s) as [Hs|(p & s' & -> & Hp)].
  - rewrite split_char_none by done. cbn [frames]. destruct (N.ltb_spec (len s) max) as [Hl|Hl].
    + rewrite read_until_end by done. unfold runs_dry. rewrite last_no_newline by done.
      destruct (N.ltb_spec (len s) max); [|lia]. destruct (N.leb_spec max (len s)); [lia|]. simpl.
      destruct tail; destruct (is_empty s) eqn:Ee; try done. f_equal. rewrite IH; [done|]. destruct s; simpl in *; [done|lia].
    + destruct (read_until_long max s "" Hs Hl) as (a & b & -> & Ha & Hr). rewrite !string_app_nil_r in Hr. rewrite Hr.
      apply has_newline_parts in Hs as [Hna Hnb]. pose proof (string_length_app a b) as Hlen.
      rewrite full_not_dry, len_nonempty, last_no_newline by (done || lia). destruct (N.leb_spec max (len a)); [|lia].
      rewrite drain_end by (done || lia). assert (is_empty (a +:+ b) = false) as -> by (apply len_nonempty; rewrite len_app; lia).
      rewrite IH by (unfold len in Ha; simpl; lia). destruct tail; done.
  - rewrite split_char_app by done. pose proof (split_char_nonempty newline s') as Hne.
    rewrite string_length_app in Hf. simpl in Hf.
    assert (frames (p :: split_char newline s') = frame p :: frames (split_char newline s')) as ->.
    { cbn [frames]. by destruct (split_char newline s'). }
    unfold frame. destruct (N.ltb_spec (len p) max) as [Hl|Hl].
    + rewrite read_until_line by done. unfold runs_dry. rewrite ends_line_app. simpl.
      assert (is_empty (p +:+ String newline "") = false) as -> by (apply len_nonempty; rewrite len_app; unfold len; simpl; lia).
      rewrite <-IH by lia. by destruct tail.
    + destruct (read_until_long max p (String newline s') Hp Hl) as (a & b & -> & Ha & ->).
      apply has_newline_parts in Hp as [Hna Hnb]. rewrite string_length_app in Hf.
      rewrite full_not_dry, len_nonempty, last_no_newline by (done || lia). destruct (N.leb_spec max (len a)); [|lia].
      rewrite drain_line by (done || (rewrite string_length_app; simpl; lia)). rewrite <-IH by lia. by destruct tail.
Qed.
End framing.

(** C16: whatever bytes arrive, the reader delivers the lines of the input: each
    line under the cap as it is, each longer one as a single rejection with
    the lines after it intact, what is left unterminated when the input ends,
    and the end itself. *)
Theorem stdin_framed tail s :
  stdin_events MAX_RPC_LINE_BYTES tail s = frames MAX_RPC_LINE_BYTES tail (split_char newline s).
Proof. apply reader_frames; [done|lia]. Qed.

(** ** Answers *)
Inductive response (id : Value) : Value -> Prop :=
  | response_ok r : response id (ok_result id r)
  | response_err code msg : response id (err_result id code msg).
Lemma dispatch_rpc_shape {W} {T : Tools W} m id params w :
  if bool_decide (m = "notifications/initialized") then dispatch_rpc m id params w = (JNull, w)
  else response id (dispatch_rpc m id params w).1
    /\ (m <> "tools/call" -> (dispatch_rpc m id params w).2 = w).
Proof.
  case_bool_decide as Hm; [by subst|]. unfold dispatch_rpc. rewrite (bool_decide_eq_false_2 _ Hm).
  repeat (case_bool_decide; [subst; split; [constructor|done]|]). case_bool_decide as Hc; [|split; [constructor|done]].
  split; [|done]. unfold call. destruct params as [p|]; [|constructor]. destruct (vget "name" p ≫= as_str); [|constructor].
  destruct (call_tool _ _ _ _) as [[[r|e]|] w']; constructor.
Qed.

(** ** Announcing tasks once *)
Definition note_is (u : string) (started : bool) (n : McpNotification) : bool :=
  match n with
  | TaskStateChange event upid _ _ _ _ _ _ _ => bool_decide (upid = u) && Bool.eqb started (bool_decide (event = "started"))
  | _ => false
  end.
Definition announced (u : string) (started : bool) (notes : list McpNotification) : nat :=
  length (List.filter (note_is u started) notes).
Lemma announced_app u b l1 l2 : announced u b (l1 ++ l2) = announced u b l1 + announced u b l2.
Proof. unfold announced. by rewrite List.filter_app, length_app. Qed.

(** A task that was seen to have ended is not seen running again. *)
Fixpoint settled (l : list TaskInfo) (seen : Seen) : Prop :=
  match l with
  | [] => True
  | t :: l' =>
      (forall old, seen !! ti_upid t = Some old -> is_Some (ti_endtime old) -> is_Some (ti_endtime t)) /\ settled l' (see t seen)
  end.
Definition reported (polls : list (Result AnyErr (list TaskInfo))) : list TaskInfo :=
  concat (omap result_ok polls).

Lemma outcome_not_started t : task_outcome t <> "started".
Proof. unfold task_outcome. destruct (ti_status t); [case_bool_decide|]; done. Qed.
Lemma announced_nil u b : announced u b [] = 0.
Proof. done. Qed.
Lemma announced_one u b t event :
  announced u b [notif_from t event] = if bool_decide (ti_upid t = u) && Bool.eqb b (bool_decide (event = "started")) then 1 else 0.
Proof. unfold announced. simpl. by destruct (_ && _). Qed.
Definition ended (u : string) (seen : Seen) : bool :=
  match seen !! u with Some t => bool_decide (is_Some (ti_endtime t)) | None => false end.

Lemma poll_tasks_started u l seen :
  announced u true (poll_tasks l seen).1 <= if bool_decide (is_Some (seen !! u)) then 0 else 1.
Proof.
  revert seen. induction l as [|t l IH]; intros seen; [simpl; rewrite announced_nil; lia|].
  specialize (IH (see t seen)). cbn [poll_tasks]. destruct (poll_tasks l (see t seen)) as [notes seen']. cbn [fst] in *.
  rewrite announced_app. unfold see in IH. destruct (decide (ti_upid t = u)) as [<-|Hu].
  - rewrite lookup_insert_eq in IH. simpl in IH. unfold announce. destruct (seen !! ti_upid t) as [old|] eqn:Es.
    + simpl. case_bool_decide; [|rewrite announced_nil; lia].
      rewrite announced_one, (bool_decide_eq_false_2 (task_outcome t = _)) by apply outcome_not_started.
      rewrite andb_false_r. lia.
    + rewrite announced_one. simpl. case_match; lia.
  - rewrite lookup_insert_ne in IH by done. assert (announced u true (announce seen t) = 0) as ->; [|lia].
    unfold announce. repeat case_match; rewrite ?announced_one, ?(bool_decide_eq_false_2 (ti_upid t = u)) by done; done.
Qed.
Lemma poll_tasks_finished u l seen :
  settled l seen -> announced u false (poll_tasks l seen).1 <= if ended u seen then 0 else 1.
Proof.
  revert seen. induction l as [|t l IH]; intros seen; [simpl; rewrite announced_nil; lia|]. intros [Hs Hl].
  specialize (IH (see t seen) Hl). cbn [poll_tasks]. destruct (poll_tasks l (see t seen)) as [notes seen']. cbn [fst] in *.
  rewrite announced_app. unfold ended, see in *. destruct (decide (ti_upid t = u)) as [<-|Hu].
  - rewrite lookup_insert_eq in IH. unfold announce. destruct (seen !! ti_upid t) as [old|] eqn:Es.
    + specialize (Hs old eq_refl). destruct (decide (ti_endtime old = None /\ is_Some (ti_endtime t))) as [Hb|Hb].
      * rewrite (bool_decide_eq_true_2 _ Hb). destruct Hb as [Ho He]. rewrite (bool_decide_eq_true_2 _ He) in IH.
        rewrite Ho, announced_one. simpl. case_match; lia.
      * rewrite (bool_decide_eq_false_2 _ Hb), announced_nil. simpl. destruct (decide (is_Some (ti_endtime old))) as [Ho|Ho].
        -- rewrite (bool_decide_eq_true_2 _ (Hs Ho)) in IH. lia.
        -- rewrite (bool_decide_eq_false_2 _ Ho). case_match; lia.
    + destruct (ti_endtime t) as [e'|] eqn:Et; simpl in *; rewrite announced_one; [case_match; lia|].
      simpl. rewrite andb_false_r. lia.
  - rewrite lookup_insert_ne in IH by done. assert (announced u false (announce seen t) = 0) as ->; [|lia].
    unfold announce. repeat case_match; rewrite ?announced_one, ?(bool_decide_eq_false_2 (ti_upid t = u)) by done; done.
Qed.

Lemma poll_tasks_app l1 l2 seen :
  (poll_tasks (l1 ++ l2) seen).1 = (poll_tasks l1 seen).1 ++ (poll_tasks l2 (poll_tasks l1 seen).2).1
  /\ (poll_tasks (l1 ++ l2) seen).2 = (poll_tasks l2 (poll_tasks l1 seen).2).2.
Proof.
  revert seen. induction l1 as [|t l1 IH]; intros seen; [done|].
  change ((t :: l1) ++ l2) with (t :: (l1 ++ l2)). cbn [poll_tasks]. destruct (IH (see t seen)) as [H1 H2].
  destruct (poll_tasks (l1 ++ l2) (see t seen)), (poll_tasks l1 (see t seen)). cbn [fst snd] in *. split; [by rewrite H1, app_assoc|done].
Qed.
Lemma poll_tasks_size l seen : size seen <= size (poll_tasks l seen).2.
Proof.
  revert seen. induction l as [|t l IH]; intros seen; [done|]. cbn [poll_tasks]. specialize (IH (see t seen)).
  destruct (poll_tasks l (see t seen)) as [notes seen']. simpl in *. unfold see in IH.
  rewrite map_size_insert in IH. destruct (seen !! ti_upid t); simpl in IH; lia.
Qed.
Lemma poller_flat polls seen :
  (N.of_nat (size (poll_tasks (reported polls) seen).2) <= 4096)%N -> task_poller polls seen = (poll_tasks (reported polls) seen).1.
Proof.
  revert seen. induction polls as [|[l|e] polls IH]; intros seen Hs; [done| |].
  - change (reported (Ok l :: polls)) with (l ++ reported polls) in *. destruct (poll_tasks_app l (reported polls) seen) as [H1 H2].
    rewrite H1. rewrite H2 in Hs. cbn [task_poller task_tick]. pose proof (poll_tasks_size (reported polls) (poll_tasks l seen).2).
    destruct (poll_tasks l seen) as [notes seen']. cbn [fst snd] in *. unfold cap_seen.
    destruct (N.ltb_spec 4096 (N.of_nat (size seen'))); [lia|]. by rewrite IH.
  - cbn [task_poller task_tick]. change (reported (Err e :: polls)) with (reported polls) in *. by rewrite IH.
Qed.

(** over any run of the poller, polls that fail included, a task is
    announced as started at most once and as finished at most once, and not
    at all again when it was there at the start; as long as no more than 4096
    tasks are remembered and no task that ended is reported as running. *)
Lemma task_announced_once polls seen u :
  (N.of_nat (size (poll_tasks (reported polls) seen).2) <= 4096)%N -> settled (reported polls) seen ->
  announced u true (task_poller polls seen) <= (if bool_decide (is_Some (seen !! u)) then 0 else 1)
  /\ announced u false (task_poller polls seen) <= (if ended u seen then 0 else 1).
Proof.
  intros Hs Hset. rewrite poller_flat by done. split; [apply poll_tasks_started|by apply poll_tasks_finished].
Qed.

Definition demo_task (upid : string) (endtime : option N) : TaskInfo :=
  mkTaskInfo upid "pve1" "root@pam" "100" "qmstart" (const "OK" <$> endtime) 1700000000 endtime.
Definition demo_polls : list (Result AnyErr (list TaskInfo)) :=
  [Ok [demo_task "a" None]; Err (bail "timeout"); Ok [demo_task "a" (Some 1700000009%N); demo_task "b" None]].
Lemma task_announced_once_witness :
  announced "a" true (task_poller demo_polls ∅) <= (if bool_decide (is_Some ((∅ : Seen) !! "a")) then 0 else 1)
  /\ announced "a" false (task_poller demo_polls ∅) <= (if ended "a" ∅ then 0 else 1).
Proof.
  apply (task_announced_once demo_polls ∅ "a"); [vm_compute; discriminate|].
  change (reported demo_polls) with [demo_task "a" None; demo_task "a" (Some 1700000009%N); demo_task "b" None].
  repeat (split; [intros old H [e He]; (discriminate H || (eexists; reflexivity))|]). exact I.
Defined.
Example task_run :
  announced "a" true (task_poller [Ok [demo_task "a" None]; Ok [demo_task "a" (Some 1700000009%N)]] ∅) = 1
  /\ announced "a" false (task_poller [Ok [demo_task "a" None]; Ok [demo_task "a" (Some 1700000009%N)]] ∅) = 1.
Proof. vm_compute. done. Qed.

(** ** The kill-switch is announced by turns *)
Fixpoint by_turns (frozen : bool) (notes : list McpNotification) : Prop :=
  match notes with
  | [] => True
  | IncidentNote event _ :: notes' => event = (if frozen then "thawed" else "frozen") /\ by_turns (negb frozen) notes'
  | _ => False
  end.
Lemma incident_by_turns polls was : by_turns was (incident_watcher polls was).
Proof.
  revert was. induction polls as [|[[st|e] again] polls IH]; intros was; [done| |apply IH].
  cbn [incident_watcher incident_tick]. specialize (IH (bool_decide (is_Some st))).
  destruct (bool_decide (is_Some st)), was; done.
Qed.
