(* ===== verification/TokenBootstrap.v ===== *)
(** * Minting an API token over SSH: cli/token_bootstrap.rs

    [proxxx token bootstrap] runs [pveum] on a node to make a token, grants it a
    role, stores its secret and verifies it; when a step after the creation
    fails it removes the token again.  The store and the verifier are traits of
    the source, and classes here, with the production ones as instances over
    [BootOs] (the files, the keychain, the API client); [BootEnv] is the SSH
    gateway, the JSON readers and the audit log.  The theorems say what reaches
    a shell, where the secret goes, and that a run that fails has tried to take
    the token back. *)

From S2P Require Import Prelude.
From S2P Require Import Json.
From S2P Require Import ApiError.
From S2P Require Import Mac.
From S2P Require Import AuditLog.
From S2P Require Import Utf8.
From S2P Require Import Batch.
From S2P Require Import SshTarget.
From S2P Require Import SshSession.
From S2P Require Import SshExec.
From S2P Require Import SshPool.
From S2P Require Import Config.
From S2P Require Import Secrets.
From S2P Require Import Redact.
From S2P Require Import ApiClient.

Record TokenBootstrapArgs := mkBootArgs {
  ta_userid : option string; ta_tokenid : option string; ta_role : string; ta_acl_path : string;
  ta_ssh_host : option string; ta_secret_file : option string; ta_rotate : bool; ta_yes : bool }.
Inductive SecretStoreTarget := ToFile (path : string) | ToKeychain (profile item : string).
Inductive StoredSecretLocation := InFile (path : string) | InKeychain (service account : string).
Definition store_kind (l : StoredSecretLocation) : string :=
  match l with InFile _ => "file" | InKeychain _ _ => "macos-keychain" end.
Definition target_description (l : StoredSecretLocation) : string :=
  match l with InFile path => path | InKeychain service account => service +:+ ":" +:+ account end.
Record BootstrapVerifyReport := mkVerifyReport {
  vr_ok : bool; vr_version : option string; vr_release : option string; vr_nodes_count : option N; vr_error : option string }.
Definition report_value (r : BootstrapVerifyReport) : Value :=
  let opt {A} (f : A -> Value) (o : option A) := match o with Some a => f a | None => JNull end in
  JObject ([("ok", JBool (vr_ok r)); ("version", opt JString (vr_version r)); ("release", opt JString (vr_release r));
            ("nodes_count", opt (fun n => JNumber (Z.of_N n)) (vr_nodes_count r))]
           ++ match vr_error r with Some e => [("error", JString e)] | None => [] end).

(** ** Arguments *)
(** [char::is_control], for a character by its bytes *)
Definition is_control (ch : string) : bool :=
  match ch with
  | String a "" => byte_in 0 31 a || byte_in 127 127 a
  | String a (String b "") => byte_in 194 194 a && byte_in 128 159 b
  | _ => false
  end.
Definition is_whitespace (ch : string) : bool := bool_decide (ch ∈ white_space).
Fixpoint any_char_fuel (p : string -> bool) (fuel : nat) (s : string) : bool :=
  match fuel with
  | S fuel' => match utf8_head s with Some (_, ch, rest) => p ch || any_char_fuel p fuel' rest | None => false end
  | 0 => false
  end.
Definition any_char (p : string -> bool) (s : string) : bool := any_char_fuel p (String.length s) s.
Definition shell_chars : list string := ["`"; "$"; ";"; "&"; "|"; "'"; String "034" ""; "\"].
Definition forbidden_in_identifier (ch : string) : bool :=
  is_control ch || is_whitespace ch || bool_decide (ch ∈ shell_chars ++ ["!"]).
Definition forbidden_in_path (ch : string) : bool := is_control ch || is_whitespace ch || bool_decide (ch ∈ shell_chars).
Definition validate_identifier (name value : string) (require_realm : bool) : Result AnyErr unit :=
  if is_empty value then Err (bail (name +:+ " must not be empty"))
  else if require_realm && negb (has_char "@" value)
  then Err (bail (name +:+ " " +:+ debug_str value +:+ " must include a realm (e.g. `root@pam` or `ops@pve`)"))
  else if starts_with "-" value then Err (bail (name +:+ " " +:+ debug_str value +:+ " must not start with '-'"))
  else if any_char forbidden_in_identifier value
  then Err (bail (name +:+ " contains forbidden shell or control characters — refusing"))
  else Ok ().
Definition validate_acl_path (path : string) : Result AnyErr unit :=
  if negb (starts_with "/" path)
  then Err (bail ("--acl-path " +:+ debug_str path +:+ " must start with '/' (e.g. `/` or `/vms/100`)"))
  else if any_char forbidden_in_path path
  then Err (bail "--acl-path contains forbidden shell or control characters — refusing")
  else Ok ().

Fixpoint escape_quotes (s : string) : string :=
  match s with
  | "" => ""
  | String a s' => (if Ascii.eqb a "'" then "'\''" else String a "") +:+ escape_quotes s'
  end.
Definition quote_single (s : string) : string := "'" +:+ escape_quotes s +:+ "'".
Definition is_alnum (a : ascii) : bool := byte_in 48 57 a || byte_in 65 90 a || byte_in 97 122 a.
Definition bare_char (a : ascii) : bool := is_alnum a || bool_decide (a ∈ ["@"; "_"; "-"; "."; "/"]%char).
Definition quote_arg (s : string) : string := if negb (is_empty s) && all_bytes bare_char s then s else quote_single s.

Record Commands := mkCommands { list_cmd : string; remove_cmd : string; add_cmd : string; acl_cmd : string }.
Definition commands (userid tokenid role acl_path : string) : Commands :=
  let q_user := quote_arg userid in
  let q_token := quote_arg tokenid in
  mkCommands
    ("pveum user token list " +:+ q_user +:+ " --output-format json")
    ("pveum user token remove " +:+ q_user +:+ " " +:+ q_token)
    ("pveum user token add " +:+ q_user +:+ " " +:+ q_token +:+ " --privsep 1 --output-format json")
    ("pveum acl modify " +:+ quote_arg acl_path +:+ " --tokens " +:+ quote_single (userid +:+ "!" +:+ tokenid)
     +:+ " --roles " +:+ quote_arg role).

(** ** The run *)
Class BootstrapSecretStore (W : Type) := {
  has_compiled_keychain : bool;
  store_secret : SecretStoreTarget -> string -> bool -> W -> Result AnyErr StoredSecretLocation * W;
}.
Class BootstrapVerifier (W : Type) := {
  verify_token : ProfileConfig -> string -> string -> StoredSecretLocation -> W -> BootstrapVerifyReport * W;
}.
Class BootEnv (W : Type) := {
  ssh_exec : string -> string -> W -> Result AnyErr ExecResult * W;
  (** the two readers, with the line and column of an error *)
  token_list_json : string -> Result (N * N) (list string);
  token_add_json : string -> Result (N * N) string;
  boot_home : option string;
  secrets_dir : string;
  boot_operator : string;
  boot_to_string : Value -> string;
  boot_disk : Result AnyErr unit;
  boot_fresh : list ascii;
  boot_secs : N;
}.

Definition or_default {A} (o d : option A) : option A := match o with Some _ => o | None => d end.
Definition select_secret_store_target (home : option string) (dir : string) (cfg : ProfileConfig) (args : TokenBootstrapArgs)
    (has_keychain : bool) : SecretStoreTarget :=
  match ta_secret_file args with
  | Some p => ToFile (expand_tilde_with_home p home)
  | None =>
      let cfg_path := p ← pf_token_secret_file cfg; let t := trim p in if is_empty t then None else Some t in
      match cfg_path with
      | Some p => ToFile (expand_tilde_with_home p home)
      | None =>
          if has_keychain then ToKeychain (profile_label cfg) "token_secret"
          else ToFile (path_join dir (profile_label cfg +:+ ".token"))
      end
  end.

(** [bs_commands] holds each command with whether it exited with 0; [bs_stored] what was handed to the store, with
    whether it took it. *)
Record BS (W : Type) := mkBS {
  bs_world : W; bs_commands : list (string * bool); bs_stored : list (SecretStoreTarget * string * bool); bs_audit : AuditWorld }.
Arguments mkBS {W} _ _ _ _.
Arguments bs_world {W} _.
Arguments bs_commands {W} _.
Arguments bs_stored {W} _.
Arguments bs_audit {W} _.

Section run.
Context {W : Type} `{B : BootEnv W} `{ST : BootstrapSecretStore W} `{VF : BootstrapVerifier W} {MA : Mac}.
Notation M := (SM (BS W) CallError).

Definition exited_0 (r : Result AnyErr ExecResult) : bool := match r with Ok res => exec_ok res | Err _ => false end.
Definition exec_pveum (node cmd : string) : SM (BS W) AnyErr ExecResult := fun s =>
  let '(r, w) := ssh_exec node cmd (bs_world s) in (r, mkBS w (bs_commands s ++ [(cmd, exited_0 r)]) (bs_stored s) (bs_audit s)).
Definition stderr_of (n : nat) (r : ExecResult) : string := take_chars n (trim (stderr r)).
Definition show_code (c : option N) : string := match c with Some n => "Some(" +:+ pretty n +:+ ")" | None => "None" end.

Definition parse_token_list_stdout (text : string) : Result AnyErr (list string) :=
  match token_list_json text with
  | Ok l => Ok l
  | Err (line, column) =>
      Err (bail ("failed to parse JSON from `pveum user token list` (line " +:+ pretty line +:+ ", column " +:+ pretty column
                 +:+ ") — raw stdout suppressed"))
  end.
Definition parse_token_add_stdout (text : string) : Result AnyErr string :=
  match token_add_json text with
  | Err (line, column) =>
      Err (bail ("failed to parse JSON from `pveum user token add` (line " +:+ pretty line +:+ ", column " +:+ pretty column
                 +:+ ") — raw stdout suppressed to protect token secret"))
  | Ok value => if is_empty (trim value) then Err (bail "`pveum user token add` returned an empty token secret value") else Ok value
  end.

Record Ctx := mkCtx {
  cx_cfg : ProfileConfig; cx_args : TokenBootstrapArgs; cx_node : string;
  cx_user : string; cx_token : string; cx_role : string; cx_path : string }.
Definition full_id (c : Ctx) : string := cx_user c +:+ "!" +:+ cx_token c.
Definition cmds (c : Ctx) : Commands := commands (cx_user c) (cx_token c) (cx_role c) (cx_path c).
Definition audit_params (c : Ctx) : list (string * string) :=
  [("user", cx_user c); ("tokenid", cx_token c); ("role", cx_role c); ("path", cx_path c); ("node", cx_node c);
   ("rotate", if ta_rotate (cx_args c) then "true" else "false")].
Definition params_json (c : Ctx) : string := redact_params_json boot_to_string (audit_params c) (profile_label (cx_cfg c)).
Definition AUDIT_ACTION : string := "SSH token bootstrap".
Definition sent_row (c : Ctx) : M unit := fun s =>
  match log_mutation_sent boot_disk boot_fresh boot_secs AUDIT_ACTION boot_operator None (Some (cx_node c)) (params_json c) (bs_audit s) with
  | (Ok _, a) => (Ok (), mkBS (bs_world s) (bs_commands s) (bs_stored s) a)
  | (Err r, a) => (Err (Refused (NotAudited r)), mkBS (bs_world s) (bs_commands s) (bs_stored s) a)
  end.
Definition outcome_row (c : Ctx) (text : string) (s : BS W) : BS W :=
  mkBS (bs_world s) (bs_commands s) (bs_stored s)
    (record_outcome boot_disk boot_fresh boot_secs AUDIT_ACTION boot_operator None (Some (cx_node c)) (params_json c) text (bs_audit s)).
Definition fail_with {A} (c : Ctx) (text : string) (e : AnyErr) : M A := fun s => (Err (Failed e), outcome_row c text s).

Definition rollback_created_token (c : Ctx) (s : BS W) : Result string unit * BS W :=
  match exec_pveum (cx_node c) (remove_cmd (cmds c)) s with
  | (Ok res, s1) =>
      if exec_ok res then (Ok (), s1)
      else (Err ("rollback `pveum user token remove` exited " +:+ show_code (exit_code res) +:+ ": " +:+ stderr_of 200 res), s1)
  | (Err e, s1) => (Err ("rollback `pveum user token remove` failed: " +:+ show_err e), s1)
  end.
(** Roll back, record, and give the error that fits. *)
Definition undo {A} (c : Ctx) (label : string) (e : Result string unit -> AnyErr) : M A := fun s =>
  let '(rb, s1) := rollback_created_token c s in (Err (Failed (e rb)), outcome_row c label s1).

Definition token_listed (c : Ctx) : M bool := fun s =>
  match exec_pveum (cx_node c) (list_cmd (cmds c)) s with
  | (Err e, s1) => (Err (Failed (context ("running `pveum user token list` on " +:+ cx_node c) e)), s1)
  | (Ok res, s1) =>
      if negb (exec_ok res)
      then (Err (Failed (bail ("`pveum user token list` on " +:+ cx_node c +:+ " exited " +:+ show_code (exit_code res) +:+ ": "
                               +:+ stderr_of 300 res))), s1)
      else match parse_token_list_stdout (stdout res) with
           | Err e => (Err (Failed e), s1)
           | Ok l => (Ok (existsb (fun t => bool_decide (t = cx_token c \/ t = full_id c)) l), s1)
           end
  end.
Definition code_or_1 (c : option N) : N := default 1%N c.
Definition remove_existing (c : Ctx) : M unit := fun s =>
  match exec_pveum (cx_node c) (remove_cmd (cmds c)) s with
  | (Err e, s1) =>
      fail_with c "error remove_transport"
        (context ("removing existing token '" +:+ full_id c +:+ "' on " +:+ cx_node c +:+ " (--rotate)") e) s1
  | (Ok res, s1) =>
      if exec_ok res then (Ok (), s1)
      else fail_with c ("error remove_" +:+ pretty (code_or_1 (exit_code res)))
             (bail ("`pveum user token remove` for '" +:+ full_id c +:+ "' on " +:+ cx_node c +:+ " exited "
                    +:+ show_code (exit_code res) +:+ ": " +:+ stderr_of 300 res)) s1
  end.
(** The secret of the new token. *)
Definition add_token (c : Ctx) : M string := fun s =>
  match exec_pveum (cx_node c) (add_cmd (cmds c)) s with
  | (Err e, s1) =>
      fail_with c "error add_transport"
        (context ("running `pveum user token add` for '" +:+ full_id c +:+ "' on " +:+ cx_node c) e) s1
  | (Ok res, s1) =>
      if negb (exec_ok res)
      then fail_with c ("error add_" +:+ pretty (code_or_1 (exit_code res)))
             (bail ("`pveum user token add` for '" +:+ full_id c +:+ "' on " +:+ cx_node c +:+ " exited "
                    +:+ show_code (exit_code res) +:+ ": " +:+ stderr_of 300 res)) s1
      else match parse_token_add_stdout (stdout res) with
           | Ok secret => (Ok secret, s1)
           | Err parse_err => undo c "error add_parse_rolled_back" (fun _ => parse_err) s1
           end
  end.
Definition grant_role (c : Ctx) : M unit := fun s =>
  match exec_pveum (cx_node c) (acl_cmd (cmds c)) s with
  | (Ok res, s1) =>
      if exec_ok res then (Ok (), s1)
      else
        let what := "`pveum acl modify` on " +:+ cx_node c +:+ " exited " +:+ show_code (exit_code res) +:+ ": " +:+ stderr_of 300 res in
        undo c "error acl_rolled_back" (fun rb =>
          match rb with
          | Ok _ => bail (what +:+ " (rolled back newly created token '" +:+ full_id c +:+ "')")
          | Err e => bail (what +:+ "; additionally, rollback failed: " +:+ e)
          end) s1
  | (Err acl_err, s1) =>
      undo c "error acl_rolled_back" (fun rb =>
        match rb with
        | Ok _ => context ("`pveum acl modify` failed on " +:+ cx_node c +:+ " (rolled back newly created token '" +:+ full_id c +:+ "')") acl_err
        | Err e => context ("`pveum acl modify` failed on " +:+ cx_node c +:+ "; additionally, rollback failed: " +:+ e) acl_err
        end) s1
  end.
Definition keep_secret (c : Ctx) (secret : string) : M StoredSecretLocation := fun s =>
  let target := select_secret_store_target boot_home secrets_dir (cx_cfg c) (cx_args c) has_compiled_keychain in
  let '(r, w) := store_secret target secret (ta_rotate (cx_args c)) (bs_world s) in
  let s1 := mkBS w (bs_commands s) (bs_stored s ++ [(target, secret, is_ok r)]) (bs_audit s) in
  match r with
  | Ok loc => (Ok loc, s1)
  | Err store_err =>
      undo c "error store_rolled_back" (fun rb =>
        match rb with
        | Ok _ => context ("failed to store token secret locally; rolled back newly created token '" +:+ full_id c +:+ "' on "
                           +:+ cx_node c +:+ " (secret was discarded and never printed)") store_err
        | Err e => context ("failed to store token secret locally, and rollback of '" +:+ full_id c +:+ "' on " +:+ cx_node c
                            +:+ " also failed (" +:+ e +:+ "); secret was discarded and never printed") store_err
        end) s1
  end.
Definition check_token (c : Ctx) (stored : StoredSecretLocation) : M BootstrapVerifyReport := fun s =>
  let '(r, w) := verify_token (cx_cfg c) (cx_user c) (cx_token c) stored (bs_world s) in
  (Ok r, outcome_row c (if vr_ok r then "ok 0" else "ok 0 (verify_failed)") (mkBS w (bs_commands s) (bs_stored s) (bs_audit s))).

Definition toml_lines (c : Ctx) (stored : StoredSecretLocation) : list string :=
  ("token_id = " +:+ debug_str (cx_token c))
  :: match stored with InFile path => ["token_secret_file = " +:+ debug_str path] | InKeychain _ _ => [] end.
Definition boot_report (c : Ctx) (rotated : bool) (stored : StoredSecretLocation) (r : BootstrapVerifyReport) : Value :=
  JObject ([("profile", JString (profile_label (cx_cfg c))); ("node", JString (cx_node c)); ("userid", JString (cx_user c));
            ("tokenid", JString (cx_token c)); ("full_tokenid", JString (full_id c)); ("role", JString (cx_role c));
            ("acl_path", JString (cx_path c)); ("rotated", JBool rotated); ("secret_store", JString (store_kind stored));
            ("secret_target", JString (target_description stored)); ("verify", report_value r);
            ("toml_lines", JArray (JString <$> toml_lines c stored));
            ("toml_snippet", JString (join (String newline "") (toml_lines c stored)));
            ("status", JString (if vr_ok r then "bootstrapped" else "verify_failed"))]
           ++ (if rotated then [("notice", JString ("existing token '" +:+ full_id c +:+ "' was removed and recreated (--rotate); "
                 +:+ "the previous token secret no longer works"))] else [])
           ++ match stored with InFile path => [("token_secret_file", JString path)] | InKeychain _ _ => [] end).

(** From the creation of the token on. *)
Definition mint (c : Ctx) (rotated : bool) : M (Value * N) :=
  secret ← add_token c;
  grant_role c ;;
  stored ← keep_secret c secret;
  r ← check_token c stored;
  mret (boot_report c rotated stored r, if vr_ok r then 0%N else 1%N).

(** The names, trimmed and checked. *)
Definition resolve_names (cfg : ProfileConfig) (args : TokenBootstrapArgs) (node : string) : Result AnyErr Ctx :=
  let userid := trim (default (pf_user cfg) (ta_userid args)) in
  let named := t ← or_default (ta_tokenid args) (pf_token_id cfg); let t' := trim t in if is_empty t' then None else Some t' in
  tokenid ← ok_or (bail ("no `token_id` configured on profile '" +:+ profile_label cfg +:+ "' — pass `--tokenid <id>` "
                         +:+ "or set `token_id` in config.toml")) named;
  let role := trim (ta_role args) in
  let acl_path := trim (ta_acl_path args) in
  validate_identifier "userid" userid true ;;
  validate_identifier "tokenid" tokenid false ;;
  validate_identifier "role" role false ;;
  validate_acl_path acl_path ;;
  Ok (mkCtx cfg args node userid tokenid role acl_path).
Definition preconditions (cfg : ProfileConfig) (args : TokenBootstrapArgs) : Result CallError unit :=
  if pf_read_only cfg then Err (Refused (IsReadOnly (mkReadOnly (profile_label cfg) AUDIT_ACTION)))
  else is_Failed (require_yes (ta_yes args) "token bootstrap").
Definition bootstrap_token_with (cfg : ProfileConfig) (args : TokenBootstrapArgs) (node : string) : M (Value * N) :=
  lift (preconditions cfg args) ;;
  c ← lift (is_Failed (resolve_names cfg args node));
  exists_already ← token_listed c;
  if exists_already && negb (ta_rotate args)
  then throw (Failed (bail ("token '" +:+ full_id c +:+ "' already exists on node '" +:+ node +:+ "'; pass `--rotate` "
         +:+ "to remove and recreate it (note: rotating invalidates the previous token secret)")))
  else
    sent_row c ;;
    when exists_already (remove_existing c) ;;
    mint c exists_already.
End run.

(** ** The production store and verifier *)
(** What opening and reading an entry of the keychain gives. *)
Inductive KeychainRead := CannotOpen (e : string) | NoEntry | Unreadable (e : string) | Password (pw : string).
(** The system under them: files ([os_write] is [write_private_atomic], of [Durable]), the keychain, and the API
    client made of a profile and a secret. *)
Class BootOs (W : Type) := {
  os_exists : string -> W -> bool;
  os_write : string -> string -> W -> Result AnyErr unit * W;
  os_sources : W -> SecretSources;
  os_keychain : bool;
  os_entry : string -> W -> KeychainRead;
  os_set_password : string -> string -> W -> Result string unit * W;
  px_new : ProfileConfig -> string -> W -> Result AnyErr unit * W;
  px_version : ProfileConfig -> string -> W -> Result AnyErr (string * string) * W;
  px_nodes : ProfileConfig -> string -> W -> Result AnyErr N * W;
}.

Section production.
Context {W : Type} `{O : BootOs W}.
(** [Path::parent] is there unless the path is empty or a root. *)
Definition has_parent (path : string) : bool := negb (all_bytes (fun a => Ascii.eqb a "/") path).
Definition write_secret_file_checked (path secret : string) (allow_overwrite : bool) (w : W) : Result AnyErr string * W :=
  if negb allow_overwrite && os_exists path w
  then (Err (bail ("secret file " +:+ path +:+ " already exists; pass `--rotate` to overwrite it")), w)
  else if negb (has_parent path) then (Err (bail "token-secret path has no parent directory"), w)
  else match os_write path secret w with
       | (Ok _, w1) => (Ok path, w1)
       | (Err e, w1) => (Err (context ("writing secret file " +:+ path) e), w1)
       end.
Definition keychain_entry_name (service account : string) : string := "keychain entry `" +:+ service +:+ "` / `" +:+ account +:+ "`".
Definition NO_KEYCHAIN : string := "no persistent OS keychain store is compiled into this binary".
Definition store_keychain_secret_checked (profile item secret : string) (allow_overwrite : bool) (w : W) :
    Result AnyErr (string * string) * W :=
  let account := if is_empty profile then item else profile +:+ "/" +:+ item in
  let entry := keychain_entry_name "proxxx" account in
  let set_it :=
    match os_set_password account secret w with
    | (Ok _, w1) => (Ok ("proxxx", account), w1)
    | (Err e, w1) => (Err (bail ("failed to store secret in keychain `proxxx` / `" +:+ account +:+ "`: " +:+ e)), w1)
    end in
  if negb os_keychain then (Err (bail NO_KEYCHAIN), w)
  else match os_entry account w with
       | CannotOpen e => (Err (bail ("failed to open " +:+ entry +:+ ": " +:+ e)), w)
       | Password pw =>
           if negb allow_overwrite && negb (is_empty pw)
           then (Err (bail (entry +:+ " already exists; pass `--rotate` to overwrite it")), w) else set_it
       | Unreadable e => if negb allow_overwrite then (Err (bail ("failed to check existing " +:+ entry +:+ ": " +:+ e)), w) else set_it
       | NoEntry => set_it
       end.
Definition real_store (target : SecretStoreTarget) (secret : string) (allow_overwrite : bool) (w : W) :
    Result AnyErr StoredSecretLocation * W :=
  match target with
  | ToFile path =>
      let '(r, w1) := write_secret_file_checked path secret allow_overwrite w in
      (match r with Ok written => Ok (InFile written) | Err e => Err e end, w1)
  | ToKeychain profile item =>
      let '(r, w1) := store_keychain_secret_checked profile item secret allow_overwrite w in
      (match r with Ok (service, account) => Ok (InKeychain service account) | Err e => Err e end, w1)
  end.
#[export] Instance RealBootstrapSecretStore : BootstrapSecretStore W :=
  {| has_compiled_keychain := os_keychain; store_secret := real_store |}.

Definition read_keychain_secret_checked (service account : string) (w : W) : Result AnyErr string :=
  let entry := keychain_entry_name service account in
  if negb os_keychain then Err (bail NO_KEYCHAIN)
  else match os_entry account w with
       | CannotOpen e => Err (bail ("failed to open " +:+ entry +:+ ": " +:+ e))
       | NoEntry => Err (bail ("failed to read " +:+ entry +:+ ": No matching entry found in secure storage"))
       | Unreadable e => Err (bail ("failed to read " +:+ entry +:+ ": " +:+ e))
       | Password pw => if is_empty (trim pw) then Err (bail (entry +:+ " is empty")) else Ok (trim pw)
       end.
Definition read_back (loc : StoredSecretLocation) (w : W) : Result AnyErr string :=
  match loc with
  | InFile path => read_secret_file_checked (os_sources w) path
  | InKeychain service account => read_keychain_secret_checked service account w
  end.
Definition verify_cfg (cfg : ProfileConfig) (userid tokenid : string) : ProfileConfig :=
  mkProfileConfig (pf_url cfg) userid "token" (Some tokenid) None None (pf_password cfg) (pf_verify_tls cfg) (pf_tls_pin_mode cfg)
    (pf_read_only cfg) (pf_rate_limit cfg) (pf_policies cfg) (pf_telegram cfg) (pf_ssh cfg) (pf_pbs cfg) (pf_alerts cfg)
    (pf_mcp_token cfg) (pf_reconcile cfg) (pf_profile_name cfg).
Definition not_verified (version release : option string) (what : string) (e : AnyErr) : BootstrapVerifyReport :=
  mkVerifyReport false version release None (Some (what +:+ " failed: " +:+ show_err e)).
Definition not_blank (s : string) : option string := if is_empty s then None else Some s.
Definition real_verify (cfg : ProfileConfig) (userid tokenid : string) (stored : StoredSecretLocation) (w : W) :
    BootstrapVerifyReport * W :=
  match read_back stored w with
  | Err e => (not_verified None None "reading back stored secret" e, w)
  | Ok secret =>
      let vcfg := verify_cfg cfg userid tokenid in
      match px_new vcfg secret w with
      | (Err e, w1) => (not_verified None None "building API client" e, w1)
      | (Ok _, w1) =>
          match px_version vcfg secret w1 with
          | (Err e, w2) => (not_verified None None "GET /version" e, w2)
          | (Ok (version, release), w2) =>
              match px_nodes vcfg secret w2 with
              | (Err e, w3) => (not_verified (not_blank version) (not_blank release) "GET /nodes" e, w3)
              | (Ok n, w3) => (mkVerifyReport true (not_blank version) (not_blank release) (Some n) None, w3)
              end
          end
      end
  end.
#[export] Instance RealBootstrapVerifier : BootstrapVerifier W := {| verify_token := real_verify |}.
End production.

(** ** Where it connects *)
Definition resolve_bootstrap_ssh_endpoint (url_host : string -> option string) (cfg : ProfileConfig) (ssh_host_override : option string) :
    Result AnyErr (string * N) :=
  match (s ← ssh_host_override; let t := trim s in if is_empty t then None else Some t) with
  | Some spec => Ok (parse_ssh_host_spec spec)
  | None =>
      host ← ok_or (bail ("cannot extract SSH host from profile url " +:+ debug_str (pf_url cfg)
                          +:+ "; pass `--ssh-host <host[:port]>`")) (extract_url_host url_host (pf_url cfg));
      Ok (host, 22%N)
  end.
Definition format_host_port_spec (host : string) (port : N) : string :=
  if has_char ":" host then "[" +:+ host +:+ "]:" +:+ pretty port else host +:+ ":" +:+ pretty port.
(** [execute_token_bootstrap] up to the pool: the SSH configuration of the run and the node it goes to. *)
Definition bootstrap_target (url_host : string -> option string) (cfg : ProfileConfig) (args : TokenBootstrapArgs) :
    Result CallError (SshConfig * string) :=
  preconditions cfg args ;;
  ssh_cfg ← is_Failed (ok_or (bail ("[profiles." +:+ profile_label cfg +:+ ".ssh] (or [defaults.ssh]) is not configured — "
              +:+ "`proxxx token bootstrap` connects over SSH to run `pveum`")) (pf_ssh cfg));
  if (match HostKeyPolicy_from_str (sc_strict_host_key_checking ssh_cfg) with Off => true | _ => false end)
  then Err (Failed (bail ("refusing `token bootstrap` with `ssh.strict_host_key_checking = " +:+ debug_str "off" +:+ "` — "
         +:+ "host key verification (" +:+ debug_str "tofu" +:+ " or " +:+ debug_str "strict" +:+ ") is mandatory when minting API tokens over SSH")))
  else
    '(host, port) ← is_Failed (resolve_bootstrap_ssh_endpoint url_host cfg (ta_ssh_host args));
    match validate_ssh_destination (sc_user ssh_cfg) host with
    | Err e => Err (Failed (bail ("invalid SSH target for `token bootstrap`: " +:+ e)))
    | Ok _ =>
        let spec := format_host_port_spec host port in
        let node := if (port =? 22)%N then host else spec in
        Ok (mkSshConfig (sc_user ssh_cfg) (sc_key_path ssh_cfg) (<[node := spec]> (sc_hosts ssh_cfg)) (sc_known_hosts ssh_cfg)
              (sc_strict_host_key_checking ssh_cfg) (sc_max_concurrent ssh_cfg) (sc_idle_timeout_secs ssh_cfg)
              (sc_exec_timeout_secs ssh_cfg) (sc_guests ssh_cfg), node)
    end.

(** ** What the remote shell reads *)
(** The words of a simple command: blanks separate them, single quotes and the
    backslash quote; any other character a shell may treat specially makes it
    more than a simple command.  The exclamation mark is not one: the shell of
    a command sent over SSH is not interactive. *)
Definition ordinary_char (a : ascii) : bool := bare_char a || bool_decide (a = "!"%char).
Fixpoint sh_lex (quoted : bool) (cur : option string) (s : string) : option (list string) :=
  let push a := Some (default "" cur +:+ String a "") in
  match s with
  | "" => if quoted then None else Some (option_list cur)
  | String a s' =>
      if quoted then
        if Ascii.eqb a "'" then sh_lex false cur s' else sh_lex true (push a) s'
      else if Ascii.eqb a " " then ws ← sh_lex false None s'; Some (option_list cur ++ ws)
      else if Ascii.eqb a "'" then sh_lex true (Some (default "" cur)) s'
      else if Ascii.eqb a "\" then match s' with String b s'' => sh_lex false (push b) s'' | "" => None end
      else if ordinary_char a then sh_lex false (push a) s'
      else None
  end.
Definition sh_words (s : string) : option (list string) := sh_lex false None s.

Lemma bare_ordinary a : bare_char a = true -> ordinary_char a = true.
Proof. unfold ordinary_char. by intros ->. Qed.
Lemma bare_not_special a : ordinary_char a = true ->
  Ascii.eqb a " " = false /\ Ascii.eqb a "'" = false /\ Ascii.eqb a "\" = false.
Proof.
  intros H. split_and!; apply Ascii.eqb_neq; intros ->; by vm_compute in H.
Qed.
Lemma lex_ordinary w cur t :
  all_bytes ordinary_char w = true -> w <> "" -> sh_lex false cur (w +:+ t) = sh_lex false (Some (default "" cur +:+ w)) t.
Proof.
  revert cur. induction w as [|a w IH]; intros cur Hw Hne; [done|]. simpl in Hw. apply andb_true_iff in Hw as [Ha Hw].
  destruct (bare_not_special a Ha) as (H1 & H2 & H3). cbn [String.append sh_lex]. rewrite H1, H2, H3, Ha.
  destruct w as [|b w]; [done|]. rewrite IH by done.
  change (default "" (Some (default "" cur +:+ String a ""))) with (default "" cur +:+ String a ""). by rewrite <-string_app_assoc.
Qed.
Lemma lex_bare w cur t :
  all_bytes bare_char w = true -> w <> "" -> sh_lex false cur (w +:+ t) = sh_lex false (Some (default "" cur +:+ w)) t.
Proof. intros Hw. apply lex_ordinary. eapply all_bytes_impl; [|exact Hw]. exact bare_ordinary. Qed.
Lemma lex_escaped s cur t : sh_lex true (Some cur) (escape_quotes s +:+ String "'" t) = sh_lex false (Some (cur +:+ s)) t.
Proof.
  revert cur. induction s as [|a s IH]; intros cur; [simpl; by rewrite string_app_nil_r|]. cbn [escape_quotes].
  rewrite <-string_app_assoc. destruct (Ascii.eqb_spec a "'") as [->|Ha].
  - change (sh_lex true (Some cur) ("'\''" +:+ escape_quotes s +:+ String "'" t))
      with (sh_lex true (Some (cur +:+ "'")) (escape_quotes s +:+ String "'" t)).
    rewrite IH, <-string_app_assoc. done.
  - cbn [String.append sh_lex]. apply Ascii.eqb_neq in Ha. rewrite Ha, IH.
    change (default "" (Some cur)) with cur. by rewrite <-string_app_assoc.
Qed.
Lemma lex_quote_single s t : sh_lex false None (quote_single s +:+ t) = sh_lex false (Some s) t.
Proof. unfold quote_single. rewrite <-!string_app_assoc. cbn. by rewrite lex_escaped. Qed.
Lemma lex_quote_arg s t : sh_lex false None (quote_arg s +:+ t) = sh_lex false (Some s) t.
Proof.
  unfold quote_arg. destruct (is_empty s) eqn:He; [apply lex_quote_single|]. simpl.
  destruct (all_bytes bare_char s) eqn:Hb; [|apply lex_quote_single]. rewrite lex_bare; [done|done|]. intros ->. done.
Qed.
Lemma lex_word w s : sh_lex false (Some w) (" " +:+ s) = (ws ← sh_lex false None s; Some (w :: ws)).
Proof. done. Qed.
Lemma lex_bare_word w s :
  (negb (is_empty w) && all_bytes bare_char w) = true -> sh_lex false None (w +:+ " " +:+ s) = (ws ← sh_lex false None s; Some (w :: ws)).
Proof. intros [H1 H2]%andb_true_iff. rewrite lex_bare, lex_word; [done|done|]. intros ->. done. Qed.

(** The argument vectors of the four commands. *)
Definition argvs (userid tokenid role acl_path : string) : list (list string) :=
  [["pveum"; "user"; "token"; "list"; userid; "--output-format"; "json"];
   ["pveum"; "user"; "token"; "remove"; userid; tokenid];
   ["pveum"; "user"; "token"; "add"; userid; tokenid; "--privsep"; "1"; "--output-format"; "json"];
   ["pveum"; "acl"; "modify"; acl_path; "--tokens"; userid +:+ "!" +:+ tokenid; "--roles"; role]].
Definition command_list (c : Commands) : list string := [list_cmd c; remove_cmd c; add_cmd c; acl_cmd c].

Lemma lex_last w : (negb (is_empty w) && all_bytes bare_char w) = true -> sh_lex false None w = Some [w].
Proof.
  intros [H1 H2]%andb_true_iff. rewrite <-(string_app_nil_r w) at 1. rewrite lex_bare; [done|done|]. intros ->. done.
Qed.
Ltac lex_words :=
  repeat first [rewrite lex_quote_arg | rewrite lex_quote_single | rewrite lex_word
               | rewrite lex_bare_word by (vm_compute; reflexivity)];
  first [rewrite lex_last by (vm_compute; reflexivity) | idtac]; reflexivity.
Lemma commands_read userid tokenid role acl_path :
  sh_words <$> command_list (commands userid tokenid role acl_path) = Some <$> argvs userid tokenid role acl_path.
Proof.
  unfold command_list, commands, argvs, sh_words. cbn [list_cmd remove_cmd add_cmd acl_cmd fmap list_fmap].
  f_equal; [|f_equal; [|f_equal; [|f_equal]]].
  - change (sh_lex false None ("pveum" +:+ " " +:+ "user" +:+ " " +:+ "token" +:+ " " +:+ "list" +:+ " " +:+ quote_arg userid
      +:+ " " +:+ "--output-format" +:+ " " +:+ "json") = Some ["pveum"; "user"; "token"; "list"; userid; "--output-format"; "json"]).
    lex_words.
  - change (sh_lex false None ("pveum" +:+ " " +:+ "user" +:+ " " +:+ "token" +:+ " " +:+ "remove" +:+ " " +:+ quote_arg userid
      +:+ " " +:+ quote_arg tokenid) = Some ["pveum"; "user"; "token"; "remove"; userid; tokenid]).
    rewrite <-(string_app_nil_r (quote_arg tokenid)). lex_words.
  - change (sh_lex false None ("pveum" +:+ " " +:+ "user" +:+ " " +:+ "token" +:+ " " +:+ "add" +:+ " " +:+ quote_arg userid
      +:+ " " +:+ quote_arg tokenid +:+ " " +:+ "--privsep" +:+ " " +:+ "1" +:+ " " +:+ "--output-format" +:+ " " +:+ "json")
      = Some ["pveum"; "user"; "token"; "add"; userid; tokenid; "--privsep"; "1"; "--output-format"; "json"]).
    lex_words.
  - change (sh_lex false None ("pveum" +:+ " " +:+ "acl" +:+ " " +:+ "modify" +:+ " " +:+ quote_arg acl_path +:+ " " +:+ "--tokens"
      +:+ " " +:+ quote_single (userid +:+ "!" +:+ tokenid) +:+ " " +:+ "--roles" +:+ " " +:+ quote_arg role)
      = Some ["pveum"; "acl"; "modify"; acl_path; "--tokens"; userid +:+ "!" +:+ tokenid; "--roles"; role]).
    rewrite <-(string_app_nil_r (quote_arg role)). lex_words.
Qed.

(** ** The shape of a run *)
Section shape.
Context {W : Type} `{B : BootEnv W} `{ST : BootstrapSecretStore W} `{VF : BootstrapVerifier W} {MA : Mac}.

(** What a run adds to the commands and to what was handed to the store. *)
Definition adds (s s' : BS W) (l : list (string * bool)) (st : list (SecretStoreTarget * string * bool)) : Prop :=
  bs_commands s' = bs_commands s ++ l /\ bs_stored s' = bs_stored s ++ st.
Lemma adds_nil s : adds s s [] [].
Proof. unfold adds. by rewrite !app_nil_r. Qed.
Lemma adds_app s1 s2 s3 l l' st st' : adds s1 s2 l st -> adds s2 s3 l' st' -> adds s1 s3 (l ++ l') (st ++ st').
Proof. intros [H1 H2] [H3 H4]. split; [rewrite H3, H1|rewrite H4, H2]; by rewrite app_assoc. Qed.
Lemma exec_adds node cmd s r s1 : exec_pveum node cmd s = (r, s1) -> adds s s1 [(cmd, exited_0 r)] [].
Proof. unfold exec_pveum. destruct (ssh_exec node cmd (bs_world s)). intros [= <- <-]. split; [done|]. simpl. by rewrite app_nil_r. Qed.
Lemma undo_adds {A} c label e s (r : Result CallError A) s' : undo c label e s = (r, s') ->
  is_ok r = false /\ exists b, adds s s' [(remove_cmd (cmds c), b)] [].
Proof.
  unfold undo, rollback_created_token. destruct (exec_pveum _ _ s) as [[res|err] s1] eqn:E; apply exec_adds in E;
    [destruct (exec_ok res)|]; intros [= <- <-]; (split; [done|]); eexists; exact E.
Qed.

Lemma add_token_shape c s r s1 : add_token c s = (r, s1) ->
  match r with
  | Ok _ => adds s s1 [(add_cmd (cmds c), true)] []
  | Err _ => adds s s1 [(add_cmd (cmds c), false)] []
             \/ exists b, adds s s1 [(add_cmd (cmds c), true); (remove_cmd (cmds c), b)] []
  end.
Proof.
  unfold add_token. destruct (exec_pveum _ _ s) as [[res|e] s0] eqn:E; apply exec_adds in E; cbn [exited_0] in E.
  - destruct (exec_ok res); cbn [negb].
    + destruct (parse_token_add_stdout _) as [secret|pe]; [by intros [= <- <-]|]. intros [Hr [b Hu]]%undo_adds.
      destruct r; [done|]. right. exists b. exact (adds_app _ _ _ _ _ _ _ E Hu).
    + intros [= <- <-]. left. exact E.
  - intros [= <- <-]. left. exact E.
Qed.
Lemma grant_role_shape c s r s1 : grant_role c s = (r, s1) ->
  match r with
  | Ok _ => adds s s1 [(acl_cmd (cmds c), true)] []
  | Err _ => exists b, adds s s1 [(acl_cmd (cmds c), false); (remove_cmd (cmds c), b)] []
  end.
Proof.
  unfold grant_role. destruct (exec_pveum _ _ s) as [[res|e] s0] eqn:E; apply exec_adds in E; cbn [exited_0] in E;
    [destruct (exec_ok res)|].
  - by intros [= <- <-].
  - intros [Hr [b Hu]]%undo_adds. destruct r; [done|]. exists b. exact (adds_app _ _ _ _ _ _ _ E Hu).
  - intros [Hr [b Hu]]%undo_adds. destruct r; [done|]. exists b. exact (adds_app _ _ _ _ _ _ _ E Hu).
Qed.
Lemma keep_secret_shape c secret s r s1 : keep_secret c secret s = (r, s1) ->
  exists target b, match r with
    | Ok _ => adds s s1 [] [(target, secret, true)]
    | Err _ => adds s s1 [(remove_cmd (cmds c), b)] [(target, secret, false)]
    end.
Proof.
  unfold keep_secret. destruct (store_secret _ _ _ _) as [[loc|e] w].
  - intros [= <- <-]. eexists _, true. split; [by rewrite app_nil_r|done].
  - intros [Hr [b Hu]]%undo_adds. destruct r; [done|]. eexists _, b.
    refine (adds_app s _ s1 [] _ [_] [] _ Hu). split; [by rewrite app_nil_r|done].
Qed.
Lemma mint_shape c rotated s r s' : mint c rotated s = (r, s') ->
  match r with
  | Ok _ => exists entry, adds s s' [(add_cmd (cmds c), true); (acl_cmd (cmds c), true)] [(entry, true)]
  | Err _ => adds s s' [(add_cmd (cmds c), false)] []
             \/ exists l b st, l.*1 ⊆ [acl_cmd (cmds c)] /\ Forall (fun x => x.2 = false) st /\ adds s s' ((add_cmd (cmds c), true) :: l ++ [(remove_cmd (cmds c), b)]) st
  end.
Proof.
  unfold mint, mbind, SM_bind. destruct (add_token c s) as [[secret|e] s1] eqn:E1; apply add_token_shape in E1.
  2:{ intros [= <- <-]. destruct E1 as [E1|[b E1]]; [by left|]. right. exists [], b, []. split_and!; [set_solver|done|done]. }
  destruct (grant_role c s1) as [[[]|e] s2] eqn:E2; apply grant_role_shape in E2.
  2:{ intros [= <- <-]. destruct E2 as [b E2]. right. exists [(acl_cmd (cmds c), false)], b, []. split_and!; [set_solver|done|].
      exact (adds_app _ _ _ _ _ _ _ E1 E2). }
  pose proof (adds_app _ _ _ _ _ _ _ E1 E2) as E12.
  destruct (keep_secret c secret s2) as [[loc|e] s3] eqn:E3; apply keep_secret_shape in E3 as (target & b & E3).
  - unfold check_token. destruct (verify_token _ _ _ _ _) as [rep w]. intros [= <- <-]. exists (target, secret).
    exact (adds_app _ _ _ _ _ _ _ E12 E3).
  - intros [= <- <-]. right. exists [(acl_cmd (cmds c), true)], b, [(target, secret, false)]. split_and!; [set_solver|by repeat constructor|].
    exact (adds_app _ _ _ _ _ _ _ E12 E3).
Qed.
Lemma token_listed_shape c s r s1 : token_listed c s = (r, s1) -> exists b, adds s s1 [(list_cmd (cmds c), b)] [].
Proof.
  unfold token_listed. destruct (exec_pveum _ _ s) as [[res|e] s0] eqn:E; apply exec_adds in E; intros H; eexists; revert H.
  - destruct (negb _); [intros [= <- <-]; exact E|]. destruct (parse_token_list_stdout _); intros [= <- <-]; exact E.
  - intros [= <- <-]. exact E.
Qed.
Lemma remove_existing_shape c s r s1 : remove_existing c s = (r, s1) -> adds s s1 [(remove_cmd (cmds c), is_ok r)] [].
Proof.
  unfold remove_existing. destruct (exec_pveum _ _ s) as [[res|e] s0] eqn:E; apply exec_adds in E; cbn [exited_0] in E;
    [destruct (exec_ok res)|]; by intros [= <- <-].
Qed.
Lemma sent_row_shape c s r s1 : sent_row c s = (r, s1) -> adds s s1 [] [].
Proof. unfold sent_row. destruct (log_mutation_sent _ _ _ _ _ _ _ _ _) as [[]]; intros [= <- <-]; unfold adds; simpl; by rewrite !app_nil_r. Qed.

(** How a run ends, by the commands after the listing: nothing was changed; an
    old token could not be removed; the node did not make the token; the token
    was made and its removal was the last thing asked, the store having taken
    no secret; or the token was made, got its role, and the store took its
    secret. *)
Inductive ends (c : Ctx) : bool -> list (string * bool) -> list (SecretStoreTarget * string * bool) -> Prop :=
  | ends_nothing : ends c false [] []
  | ends_not_removed : ends c false [(remove_cmd (cmds c), false)] []
  | ends_not_added pre : pre ⊆ [(remove_cmd (cmds c), true)] -> ends c false (pre ++ [(add_cmd (cmds c), false)]) []
  | ends_undone pre mid b st : pre ⊆ [(remove_cmd (cmds c), true)] -> mid.*1 ⊆ [acl_cmd (cmds c)] -> Forall (fun x => x.2 = false) st ->
      ends c false (pre ++ (add_cmd (cmds c), true) :: mid ++ [(remove_cmd (cmds c), b)]) st
  | ends_done pre entry : pre ⊆ [(remove_cmd (cmds c), true)] ->
      ends c true (pre ++ [(add_cmd (cmds c), true); (acl_cmd (cmds c), true)]) [(entry, true)].
Lemma run_shape cfg args node s r s' :
  bootstrap_token_with cfg args node s = (r, s') ->
  is_ok r = false /\ adds s s' [] []
  \/ exists c b l st, preconditions cfg args = Ok () /\ resolve_names cfg args node = Ok c
       /\ adds s s' ((list_cmd (cmds c), b) :: l) st /\ ends c (is_ok r) l st.
Proof.
  unfold bootstrap_token_with, mbind, SM_bind, lift. destruct (preconditions cfg args) as [[]|e].
  2:{ intros [= <- <-]. left. split; [done|apply adds_nil]. }
  destruct (resolve_names cfg args node) as [c|e]; cbn [is_Failed].
  2:{ intros [= <- <-]. left. split; [done|apply adds_nil]. }
  destruct (token_listed c s) as [rl s1] eqn:El; apply token_listed_shape in El as [b El].
  assert (Hin : forall l st, adds s1 s' l st -> ends c (is_ok r) l st ->
    exists c0 b l st, Ok (E := CallError) () = Ok () /\ Ok (E := AnyErr) c = Ok c0
      /\ adds s s' ((list_cmd (cmds c0), b) :: l) st /\ ends c0 (is_ok r) l st).
  { intros l st Ha He. exists c, b, l, st. split_and!; try done. exact (adds_app _ _ _ _ _ _ _ El Ha). }
  destruct rl as [ex|e]; [|intros [= <- <-]; right; apply (Hin [] []); [apply adds_nil|constructor]].
  destruct (ex && _); [intros [= <- <-]; right; apply (Hin [] []); [apply adds_nil|constructor]|].
  destruct (sent_row c s1) as [[[]|e] s2] eqn:Es; apply sent_row_shape in Es;
    [|intros [= <- <-]; right; apply (Hin [] []); [exact Es|constructor]].
  destruct (when ex (remove_existing c) s2) as [rr s3] eqn:Er.
  assert (exists pre, adds s1 s3 pre [] /\ (if is_ok rr then pre ⊆ [(remove_cmd (cmds c), true)] else pre = [(remove_cmd (cmds c), false)]))
    as (pre & Hpre & Hsub).
  { destruct ex; cbn [when] in Er.
    - apply remove_existing_shape in Er. eexists. split; [exact (adds_app _ _ _ _ _ _ _ Es Er)|]. destruct rr; simpl; [set_solver|done].
    - injection Er as <- <-. exists []. split; [done|]. simpl. set_solver. }
  destruct rr as [[]|e]; cbn [is_ok] in Hsub; [|intros [= <- <-]; right; apply (Hin pre []); [done|rewrite Hsub; constructor]].
  intros Hm%mint_shape. right. destruct r as [v|e].
  - destruct Hm as [entry Hm]. exact (Hin _ _ (adds_app _ _ _ _ _ _ _ Hpre Hm) (ends_done c pre entry Hsub)).
  - destruct Hm as [Hm|(l & b' & st & Hl & Hst & Hm)].
    + exact (Hin _ _ (adds_app _ _ _ _ _ _ _ Hpre Hm) (ends_not_added c pre Hsub)).
    + exact (Hin _ _ (adds_app _ _ _ _ _ _ _ Hpre Hm) (ends_undone c pre l b' st Hsub Hl Hst)).
Qed.
End shape.

(** ** No argument is an option *)
Definition safe_args (c : Ctx) : Prop :=
  (forall x, x ∈ [cx_user c; cx_token c; cx_role c] -> x <> "" /\ starts_with "-" x = false) /\ starts_with "/" (cx_path c) = true.
Lemma validate_identifier_ok name v r : validate_identifier name v r = Ok () -> v <> "" /\ starts_with "-" v = false.
Proof.
  unfold validate_identifier. destruct (is_empty v) eqn:E; [done|]. destruct (_ && _); [done|].
  destruct (starts_with "-" v); [done|]. intros _. split; [|done]. intros ->. done.
Qed.
Lemma resolve_names_safe cfg args node c : resolve_names cfg args node = Ok c -> safe_args c.
Proof.
  unfold resolve_names. intros (tokenid & _ & H)%bind_Ok. apply bind_Ok in H as ([] & H1 & H). apply bind_Ok in H as ([] & H2 & H).
  apply bind_Ok in H as ([] & H3 & H). apply bind_Ok in H as ([] & H4 & [= <-]). split; cbn [cx_user cx_token cx_role cx_path].
  - intros x Hx. rewrite !elem_of_cons in Hx. destruct Hx as [->|[->|[->|Hx%elem_of_nil]]]; [..|done];
      by eapply validate_identifier_ok.
  - unfold validate_acl_path in H4. by destruct (starts_with "/" _).
Qed.
Lemma ends_commands c ok l st : ends c ok l st -> l.*1 ⊆ command_list (cmds c).
Proof.
  intros H x Hx. unfold command_list. destruct H as [| |pre Hp|pre mid b st Hp Hm _|pre entry Hp]; rewrite ?fmap_app, ?fmap_cons in Hx; simpl in Hx.
  - set_solver.
  - set_solver.
  - assert (pre.*1 ⊆ [remove_cmd (cmds c)]) by (intros y (z & -> & Hz%Hp)%list_elem_of_fmap; set_solver). set_solver.
  - assert (pre.*1 ⊆ [remove_cmd (cmds c)]) by (intros y (z & -> & Hz%Hp)%list_elem_of_fmap; set_solver).
    rewrite fmap_app in Hx. set_solver.
  - assert (pre.*1 ⊆ [remove_cmd (cmds c)]) by (intros y (z & -> & Hz%Hp)%list_elem_of_fmap; set_solver). set_solver.
Qed.

Section claims.
Context {W : Type} `{B : BootEnv W} `{ST : BootstrapSecretStore W} `{VF : BootstrapVerifier W} {MA : Mac}.

(** C14: whatever the names are, every command a run sends is read by the remote
    shell as one of the four [pveum] calls with the names as single
    arguments, none of which can be taken for an option; and a run that may
    not start, of a read-only profile or without [--yes], sends none. *)
Theorem bootstrap_sends_only_pveum cfg args node s r s' :
  bootstrap_token_with cfg args node s = (r, s') ->
  exists l, bs_commands s' = bs_commands s ++ l
    /\ (l <> [] -> pf_read_only cfg = false /\ ta_yes args = true)
    /\ forall cmd b, (cmd, b) ∈ l -> exists c argv, resolve_names cfg args node = Ok c /\ safe_args c
         /\ sh_words cmd = Some argv /\ argv ∈ argvs (cx_user c) (cx_token c) (cx_role c) (cx_path c).
Proof.
  intros [[_ [H _]]|(c & b & l & st & Hp & Hc & [H _] & He)]%run_shape.
  - exists []. split_and!; [done|done|set_solver].
  - eexists. split; [exact H|]. split.
    { intros _. unfold preconditions in Hp. destruct (pf_read_only cfg); [done|]. unfold require_yes in Hp. by destruct (ta_yes args). }
    intros cmd b' Hin. assert (cmd ∈ command_list (cmds c)) as Hcmd.
    { apply elem_of_cons in Hin as [Hin|Hin]; [injection Hin as -> _; set_solver|]. apply (ends_commands c _ _ _ He).
      apply list_elem_of_fmap. by exists (cmd, b'). }
    pose proof (commands_read (cx_user c) (cx_token c) (cx_role c) (cx_path c)) as Hr.
    assert (sh_words cmd ∈ sh_words <$> command_list (cmds c)) as Hs by (apply list_elem_of_fmap; by exists cmd).
    unfold cmds in Hs. rewrite Hr in Hs. apply list_elem_of_fmap in Hs as (argv & Hw & Ha).
    exists c, argv. split_and!; try done. by eapply resolve_names_safe.
Qed.

End claims.

(** ** Where the secret goes *)
Section secrecy.
Context {W : Type} `{B : BootEnv W} `{ST : BootstrapSecretStore W} `{VF : BootstrapVerifier W} {MA : Mac}.
(** Worlds that differ in nothing but the secret the node will generate. *)
Context (R : W -> W -> Prop).

(** Two answers of the node to one command: the same, or two answers to a token
    creation whose standard output may be anything: it holds one secret or the
    other, or cannot be read in either (at the same line and column). *)
Definition answers_alike (cmd : string) (r1 r2 : Result AnyErr ExecResult) : Prop :=
  r1 = r2
  \/ exists x y, starts_with "pveum user token add " cmd = true /\ r1 = Ok x /\ r2 = Ok y
       /\ exit_code x = exit_code y /\ stderr x = stderr y
       /\ match token_add_json (stdout x), token_add_json (stdout y) with
          | Ok a, Ok b => is_empty (trim a) = is_empty (trim b)
          | Err p, Err q => p = q
          | _, _ => False
          end.
Definition exec_alike : Prop := forall node cmd w1 w2, R w1 w2 ->
  answers_alike cmd (ssh_exec node cmd w1).1 (ssh_exec node cmd w2).1 /\ R (ssh_exec node cmd w1).2 (ssh_exec node cmd w2).2.
(** What a token creation may answer: a value that is not blank. *)
Definition a_secret (a : string) : Prop := is_empty (trim a) = false.
Definition store_alike : Prop := forall target a b replace w1 w2, a_secret a -> a_secret b -> R w1 w2 ->
  (store_secret target a replace w1).1 = (store_secret target b replace w2).1
  /\ R (store_secret target a replace w1).2 (store_secret target b replace w2).2.
Definition verify_alike : Prop := forall cfg user token loc w1 w2, R w1 w2 ->
  (verify_token cfg user token loc w1).1 = (verify_token cfg user token loc w2).1
  /\ R (verify_token cfg user token loc w1).2 (verify_token cfg user token loc w2).2.

(** What an observer without access to the store sees of a state. *)
Definition visible (s : BS W) : list (string * bool) * list (SecretStoreTarget * bool) * AuditWorld :=
  (bs_commands s, (fun x => (x.1.1, x.2)) <$> bs_stored s, bs_audit s).
Definition agree (s1 s2 : BS W) : Prop := R (bs_world s1) (bs_world s2) /\ visible s1 = visible s2.
Definition alike {E A} (Q : A -> A -> Prop) (r1 r2 : Result E A) : Prop :=
  match r1, r2 with Ok a, Ok b => Q a b | Err e, Err e' => e = e' | _, _ => False end.
Definition related {E A} (Q : A -> A -> Prop) (m1 m2 : SM (BS W) E A) : Prop :=
  forall s1 s2, agree s1 s2 -> alike Q (m1 s1).1 (m2 s2).1 /\ agree (m1 s1).2 (m2 s2).2.

Lemma related_bind {E A C} (Q : A -> A -> Prop) (P : C -> C -> Prop) (m1 m2 : SM (BS W) E A) k1 k2 :
  related Q m1 m2 -> (forall a b, Q a b -> related P (k1 a) (k2 b)) -> related P (m1 ≫= k1) (m2 ≫= k2).
Proof.
  intros Hm Hk s1 s2 [Ha Hs]%Hm. unfold mbind, SM_bind. destruct (m1 s1) as [[a|e] t1], (m2 s2) as [[b|e'] t2]; try done. by apply Hk.
Qed.
Lemma related_ret {E A} (a : A) : related (E := E) eq (mret a) (mret a).
Proof. intros s1 s2 H. done. Qed.
Lemma related_lift {E A} (r : Result E A) : related eq (lift r) (lift r).
Proof. intros s1 s2 H. split; [by destruct r|done]. Qed.
Lemma related_outcome c text s1 s2 : agree s1 s2 -> agree (outcome_row c text s1) (outcome_row c text s2).
Proof. intros [H [= H1 H2 H3]]. split; [done|]. unfold visible, outcome_row. cbn. by rewrite H1, H2, H3. Qed.
Lemma related_fail {A} c text e : related (A := A) eq (fail_with c text e) (fail_with c text e).
Proof. intros s1 s2 H. split; [done|]. by apply related_outcome. Qed.

Context (HX : exec_alike) (HS : store_alike) (HV : verify_alike).

Lemma exec_agree node cmd s1 s2 : agree s1 s2 ->
  answers_alike cmd (exec_pveum node cmd s1).1 (exec_pveum node cmd s2).1
  /\ agree (exec_pveum node cmd s1).2 (exec_pveum node cmd s2).2.
Proof.
  intros [HR [= H1 H2 H3]]. unfold exec_pveum. destruct (HX node cmd _ _ HR) as [Ha Hw].
  destruct (ssh_exec node cmd (bs_world s1)) as [r1 w1], (ssh_exec node cmd (bs_world s2)) as [r2 w2]. simpl in *.
  split; [done|]. split; [done|]. unfold visible. cbn. rewrite H1, H2, H3. do 4 f_equal.
  destruct Ha as [->|(x & y & _ & -> & -> & Hc & _)]; [done|]. simpl. unfold exec_ok. by rewrite Hc.
Qed.
(** For any other command the two answers are equal. *)
Lemma exec_same node cmd s1 s2 : agree s1 s2 -> starts_with "pveum user token add " cmd = false ->
  exists r t1 t2, exec_pveum node cmd s1 = (r, t1) /\ exec_pveum node cmd s2 = (r, t2) /\ agree t1 t2.
Proof.
  intros H Hc. destruct (exec_agree node cmd _ _ H) as [Ha Ht]. destruct (exec_pveum node cmd s1) as [r1 t1], (exec_pveum node cmd s2) as [r2 t2].
  simpl in *. destruct Ha as [->|(x & y & Hs & _)]; [by eexists _, _, _|congruence].
Qed.
Lemma related_undo {A} c label e : related (A := A) eq (undo c label e) (undo c label e).
Proof.
  intros s1 s2 H. unfold undo, rollback_created_token.
  destruct (exec_same (cx_node c) (remove_cmd (cmds c)) _ _ H eq_refl) as (r & t1 & t2 & -> & -> & Ht).
  destruct r as [res|err]; [destruct (exec_ok res)|]; (split; [done|]); by apply related_outcome.
Qed.
Lemma related_listed c : related eq (token_listed c) (token_listed c).
Proof.
  intros s1 s2 H. unfold token_listed. destruct (exec_same (cx_node c) (list_cmd (cmds c)) _ _ H eq_refl) as (r & t1 & t2 & -> & -> & Ht).
  destruct r as [res|err]; [|done]. destruct (negb _); [done|]. by destruct (parse_token_list_stdout _).
Qed.
Lemma related_remove c : related eq (remove_existing c) (remove_existing c).
Proof.
  intros s1 s2 H. unfold remove_existing. destruct (exec_same (cx_node c) (remove_cmd (cmds c)) _ _ H eq_refl) as (r & t1 & t2 & -> & -> & Ht).
  destruct r as [res|err]; [destruct (exec_ok res)|]; [done|by apply related_fail..].
Qed.
Lemma related_grant c : related eq (grant_role c) (grant_role c).
Proof.
  intros s1 s2 H. unfold grant_role. destruct (exec_same (cx_node c) (acl_cmd (cmds c)) _ _ H eq_refl) as (r & t1 & t2 & -> & -> & Ht).
  destruct r as [res|err]; [destruct (exec_ok res)|]; [done|by apply related_undo..].
Qed.
Lemma related_sent c : related eq (sent_row c) (sent_row c).
Proof.
  intros s1 s2 [HR [= H1 H2 H3]]. unfold sent_row. rewrite H3. destruct (log_mutation_sent _ _ _ _ _ _ _ _ (bs_audit s2)) as [[n|e] a];
    (split; [done|]); (split; [done|]); unfold visible; cbn; by rewrite H1, H2.
Qed.
Definition both_secret (a b : string) : Prop := a_secret a /\ a_secret b.
Lemma related_add c : related both_secret (add_token c) (add_token c).
Proof.
  intros s1 s2 H. destruct (exec_agree (cx_node c) (add_cmd (cmds c)) _ _ H) as [Ha Ht]. unfold add_token.
  destruct (exec_pveum _ _ s1) as [r1 t1], (exec_pveum _ _ s2) as [r2 t2]. simpl in Ha, Ht.
  assert (forall e, related (A := string) both_secret (undo c "error add_parse_rolled_back" e) (undo c "error add_parse_rolled_back" e)) as Hu.
  { intros e u1 u2 Hu. destruct (related_undo (A := string) c "error add_parse_rolled_back" e u1 u2 Hu) as [Hr Hg]. split; [|done].
    revert Hr. unfold undo. by destruct (rollback_created_token c u1), (rollback_created_token c u2). }
  assert (forall text e, alike both_secret (fail_with (A := string) c text e t1).1 (fail_with c text e t2).1
    /\ agree (fail_with (A := string) c text e t1).2 (fail_with (A := string) c text e t2).2) as Hf.
  { intros text e. split; [done|]. by apply related_outcome. }
  destruct Ha as [->|(x & y & _ & -> & -> & Hc & He & Hb)].
  - destruct r2 as [res|err]; [|apply Hf]. destruct (negb _); [apply Hf|]. unfold parse_token_add_stdout.
    destruct (token_add_json (stdout res)) as [a|[]]; [|by apply Hu]. destruct (is_empty (trim a)) eqn:Ea; [by apply Hu|done].
  - unfold exec_ok, stderr_of, parse_token_add_stdout. rewrite Hc, He. destruct (negb _); [apply Hf|].
    destruct (token_add_json (stdout x)) as [a|[]], (token_add_json (stdout y)) as [b|[]]; try done; [|injection Hb as <- <-; by apply Hu].
    destruct (is_empty (trim a)) eqn:Ea; rewrite <-Hb; [by apply Hu|]. done.
Qed.
Lemma related_keep c a b : both_secret a b -> related eq (keep_secret c a) (keep_secret c b).
Proof.
  intros [Hsa Hsb] s1 s2 [HR [= H1 H2 H3]]. unfold keep_secret. set (target := select_secret_store_target _ _ _ _ _).
  destruct (HS target a b (ta_rotate (cx_args c)) _ _ Hsa Hsb HR) as [Hr Hw].
  destruct (store_secret target a _ _) as [r1 w1], (store_secret target b _ _) as [r2 w2]. simpl in Hr, Hw. subst r2.
  assert (agree (mkBS w1 (bs_commands s1) (bs_stored s1 ++ [(target, a, is_ok r1)]) (bs_audit s1))
                (mkBS w2 (bs_commands s2) (bs_stored s2 ++ [(target, b, is_ok r1)]) (bs_audit s2))) as Ht.
  { split; [done|]. unfold visible. cbn. by rewrite !fmap_app, H1, H2, H3. }
  destruct r1; [done|by apply related_undo].
Qed.
Lemma related_check c loc : related eq (check_token c loc) (check_token c loc).
Proof.
  intros s1 s2 [HR [= H1 H2 H3]]. unfold check_token. destruct (HV (cx_cfg c) (cx_user c) (cx_token c) loc _ _ HR) as [Hr Hw].
  destruct (verify_token _ _ _ _ (bs_world s1)) as [r1 w1], (verify_token _ _ _ _ (bs_world s2)) as [r2 w2]. simpl in Hr, Hw. subst r2.
  split; [done|]. apply related_outcome. split; [done|]. unfold visible. cbn. by rewrite H1, H2, H3.
Qed.

(** With a store and a verifier whose answers do not depend on the secret, no run's do. *)
Lemma secret_stays_with cfg args node s1 s2 :
  agree s1 s2 ->
  let m := bootstrap_token_with cfg args node in (m s1).1 = (m s2).1 /\ agree (m s1).2 (m s2).2.
Proof.
  intros H m. assert (related eq m m) as Hm.
  { unfold m, bootstrap_token_with. eapply related_bind; [apply related_lift|intros _ _ _].
    eapply related_bind; [apply related_lift|intros c ? <-]. eapply related_bind; [apply related_listed|intros ex ? <-].
    destruct (ex && _); [intros u1 u2 Hu; done|]. eapply related_bind; [apply related_sent|intros _ _ _].
    eapply related_bind; [destruct ex; [apply related_remove|apply related_ret]|intros _ _ _]. unfold mint.
    eapply related_bind; [apply related_add|intros a b Hab]. eapply related_bind; [apply related_grant|intros _ _ _].
    eapply related_bind; [by apply related_keep|intros loc ? <-]. eapply related_bind; [apply related_check|intros r ? <-]. apply related_ret. }
  destruct (Hm s1 s2 H) as [Ha Hs]. split; [|done]. destruct (m s1) as [[v|e] t1], (m s2) as [[v'|e'] t2]; simpl in *; by subst.
Qed.

End secrecy.

(** ** The production store and verifier say nothing of it *)
Section production_secrecy.
Context {W : Type} `{O : BootOs W} (R : W -> W -> Prop).
Definition alike_read (x y : KeychainRead) : Prop :=
  match x, y with
  | Password p, Password q => is_empty p = is_empty q /\ is_empty (trim p) = is_empty (trim q)
  | Password _, _ | _, Password _ => False
  | _, _ => x = y
  end.
(** The system treats worlds with one secret or the other in the same place alike; and so do the three calls of the
    API client, each with the secret its world stored. *)
Record os_alike : Prop := {
  oa_exists path w1 w2 : R w1 w2 -> os_exists path w1 = os_exists path w2;
  oa_write path a b w1 w2 : a_secret a -> a_secret b -> R w1 w2 -> (os_write path a w1).1 = (os_write path b w2).1 /\ R (os_write path a w1).2 (os_write path b w2).2;
  oa_sources w1 w2 : R w1 w2 -> alike_sources (os_sources w1) (os_sources w2);
  oa_entry account w1 w2 : R w1 w2 -> alike_read (os_entry account w1) (os_entry account w2);
  oa_set account a b w1 w2 : a_secret a -> a_secret b -> R w1 w2 ->
    (os_set_password account a w1).1 = (os_set_password account b w2).1 /\ R (os_set_password account a w1).2 (os_set_password account b w2).2;
  oa_client cfg loc a b w1 w2 : R w1 w2 -> read_back loc w1 = Ok a -> read_back loc w2 = Ok b ->
    (px_new cfg a w1).1 = (px_new cfg b w2).1 /\ R (px_new cfg a w1).2 (px_new cfg b w2).2
    /\ let w1' := (px_new cfg a w1).2 in let w2' := (px_new cfg b w2).2 in
       (px_version cfg a w1').1 = (px_version cfg b w2').1 /\ R (px_version cfg a w1').2 (px_version cfg b w2').2
    /\ let w1'' := (px_version cfg a w1').2 in let w2'' := (px_version cfg b w2').2 in
       (px_nodes cfg a w1'').1 = (px_nodes cfg b w2'').1 /\ R (px_nodes cfg a w1'').2 (px_nodes cfg b w2'').2;
}.
Lemma real_store_alike : os_alike -> store_alike R.
Proof.
  intros H target a b replace w1 w2 Ha Hb HR. destruct target as [path|profile item]; cbn [store_secret RealBootstrapSecretStore real_store].
  - unfold write_secret_file_checked. rewrite (oa_exists H path w1 w2 HR). destruct (_ && _); [done|]. destruct (negb _); [done|].
    destruct (oa_write H path a b w1 w2 Ha Hb HR) as [E Hw]. destruct (os_write path a w1) as [r1 u1], (os_write path b w2) as [r2 u2].
    cbn in E, Hw. subst r2. by destruct r1.
  - unfold store_keychain_secret_checked. destruct (negb os_keychain); [done|].
    set (account := if is_empty profile then item else _). destruct (oa_set H account a b w1 w2 Ha Hb HR) as [E Hw].
    pose proof (oa_entry H account w1 w2 HR) as He. unfold alike_read in He.
    destruct (os_set_password account a w1) as [r1 u1], (os_set_password account b w2) as [r2 u2]. cbn in E, Hw. subst r2.
    destruct (os_entry account w1), (os_entry account w2); try done; simplify_eq; try done; try (by destruct (negb replace), r1).
    destruct He as [-> _]. by destruct (_ && _), r1.
Qed.
Lemma read_back_alike loc w1 w2 : os_alike -> R w1 w2 ->
  match read_back loc w1, read_back loc w2 with Ok _, Ok _ => True | Err e, Err e' => e = e' | _, _ => False end.
Proof.
  intros H HR. destruct loc as [path|service account]; cbn [read_back].
  - unfold read_secret_file_checked. pose proof (alike_check _ _ (oa_sources H w1 w2 HR) "token_secret_file" (Some path)) as Hc.
    destruct (check_secret_file (os_sources w1) _ _) as [?|?|? [?|] ?], (check_secret_file (os_sources w2) _ _) as [?|?|? [?|] ?]; try done; by simplify_eq/=.
  - unfold read_keychain_secret_checked. destruct (negb os_keychain); [done|]. pose proof (oa_entry H account w1 w2 HR) as He.
    unfold alike_read in He. destruct (os_entry account w1), (os_entry account w2); try done; simplify_eq; try done.
    destruct He as [_ ->]. by destruct (is_empty _).
Qed.
Lemma real_verify_alike : os_alike -> verify_alike R.
Proof.
  intros H cfg user token loc w1 w2 HR. cbn [verify_token RealBootstrapVerifier]; unfold real_verify. pose proof (read_back_alike loc w1 w2 H HR) as Hb.
  destruct (read_back loc w1) as [a|e] eqn:Ea, (read_back loc w2) as [b|e'] eqn:Eb; try done; [|by subst].
  destruct (oa_client H (verify_cfg cfg user token) loc a b w1 w2 HR Ea Eb) as (E1 & H1 & E2 & H2 & E3 & H3).
  destruct (px_new _ a w1) as [r1 u1], (px_new _ b w2) as [r1' u1']. cbn [fst snd] in *. subst r1'. destruct r1; [|done].
  destruct (px_version _ a u1) as [r2 u2], (px_version _ b u1') as [r2' u2']. cbn [fst snd] in *. subst r2'. destruct r2 as [[v rel]|e]; [|done].
  destruct (px_nodes _ a u2) as [r3 u3], (px_nodes _ b u2') as [r3' u3']. cbn [fst snd] in *. subst r3'. by destruct r3.
Qed.
End production_secrecy.

Section secret_claim.
Context {W : Type} `{B : BootEnv W} `{O : BootOs W} {MA : Mac}.
(** C12: with the production store and verifier, the secret of a new token goes
    to the file or the keychain and to the API client that verifies it, and
    nowhere else: two runs from worlds that differ in the secret alone give
    the same report or the same error, send the same commands and write the
    same audit rows, whatever the node prints on the standard output of the
    creation, readable or not.  Assumed is that what lies outside the run
    does not tell the two apart: the node's other answers and exit codes, the
    file system and keychain, and the API client's reads with the stored
    secret ([exec_alike], [os_alike]). *)
Theorem bootstrap_secret_stays (R : W -> W -> Prop) cfg args node s1 s2 :
  exec_alike R -> os_alike R -> agree R s1 s2 ->
  let m := bootstrap_token_with cfg args node in (m s1).1 = (m s2).1 /\ agree R (m s1).2 (m s2).2.
Proof. intros HX HO. apply secret_stays_with; [done|by apply real_store_alike|by apply real_verify_alike]. Qed.
End secret_claim.

(** ** A node at work *)
(** The first part of the world is the secret the node will generate; [acl] and [remove] are the
    exit codes of those two commands. *)
Section demo.
#[local] Existing Instance demo_mac.
Definition demo_exec (acl remove : N) (cmd secret : string) : ExecResult :=
  if starts_with "pveum acl" cmd then mkExecResult "" "denied" (Some acl)
  else if starts_with "pveum user token remove" cmd then mkExecResult "" "no such token" (Some remove)
  else if starts_with "pveum user token add " cmd then mkExecResult secret "" (Some 0%N)
  else mkExecResult "[]" "" (Some 0%N).
(** The world beside it holds the one file that was written. *)
Definition DemoWorld : Type := string * option (string * string).
Definition demo_boot (acl remove : N) : BootEnv DemoWorld := {|
  ssh_exec _ cmd w := (Ok (demo_exec acl remove cmd w.1), w);
  token_list_json _ := Ok []; token_add_json s := if is_empty s then Err (1, 0)%N else Ok s;
  boot_home := Some "/root"; secrets_dir := "/root/.proxxx"; boot_operator := "alice"; boot_to_string _ := "{}";
  boot_disk := Ok (); boot_fresh := replicate 32 "k"%char; boot_secs := 1700000000 |}.
#[local] Instance demo_os : BootOs DemoWorld := {|
  os_exists path w := match w.2 with Some (p, _) => bool_decide (p = path) | None => false end;
  os_write path secret w := (Ok (), (w.1, Some (path, secret)));
  os_sources w := mkSources (fun _ => NotPresent) (Some "/root")
    (fun p => match w.2 with Some (q, x) => if bool_decide (p = q) then Exists (Some 384%N) (Ok x) else Absent | None => Absent end)
    false (fun _ => EntryNotFound) None;
  os_keychain := false; os_entry _ _ := NoEntry; os_set_password _ _ w := (Ok (), w);
  px_new _ _ w := (Ok (), w); px_version _ _ w := (Ok ("8.1", "8"), w); px_nodes _ _ w := (Ok 3%N, w) |}.
Definition demo_cfg : ProfileConfig :=
  mkProfileConfig "https://lab:8006" "root@pam" "token" None None None None true None false None None None None None None None
    None (Some "lab").
Definition demo_args : TokenBootstrapArgs :=
  mkBootArgs (Some "ops@pve") (Some "it's") "PVEAuditor" "/vms/1 00" None None false true.
Definition demo_fine : TokenBootstrapArgs :=
  mkBootArgs (Some "ops@pve") (Some "t1*") "PVEAuditor" "/vms/100" None None false true.
Definition boot_start (secret : string) : BS DemoWorld := mkBS (secret, None) [] [] {| aw_db := None; aw_keys := ∅; aw_cache := None |}.
Definition demo_run (acl remove : N) (args : TokenBootstrapArgs) (secret : string) : Result CallError (Value * N) * BS DemoWorld :=
  bootstrap_token_with (B := demo_boot acl remove) demo_cfg args "pve1" (boot_start secret).

(** Quotes in a name are refused before anything is sent. *)
Example quoted_name_refused : is_ok (demo_run 0 0 demo_args "s").1 = false /\ bs_commands (demo_run 0 0 demo_args "s").2 = [].
Proof. vm_compute. done. Qed.
(** A glob is not: it arrives quoted. *)
Example done_in_order :
  is_ok (demo_run 0 0 demo_fine "s").1 = true
  /\ (bs_commands (demo_run 0 0 demo_fine "s").2).*1
     = ["pveum user token list ops@pve --output-format json";
        "pveum user token add ops@pve 't1*' --privsep 1 --output-format json";
        "pveum acl modify /vms/100 --tokens 'ops@pve!t1*' --roles PVEAuditor"]
  /\ bs_stored (demo_run 0 0 demo_fine "s").2 = [(ToFile "/root/.proxxx/lab.token", "s", true)]
  /\ (bs_world (demo_run 0 0 demo_fine "s").2).2 = Some ("/root/.proxxx/lab.token", "s").
Proof. vm_compute. done. Qed.
(** The audit row says that the token was rolled back also when it was not. *)
Example rollback_claimed :
  (fun s => (map ar_result (default [] (aw_db (bs_audit s))), last (bs_commands s))) (demo_run 1 2 demo_fine "s").2
  = (["sent"; "error acl_rolled_back"], Some ("pveum user token remove ops@pve 't1*'", false)).
Proof. vm_compute. reflexivity. Qed.

Lemma bootstrap_sends_only_pveum_witness :
  exists l, bs_commands (demo_run 1 0 demo_fine "s").2 = [] ++ l
    /\ (l <> [] -> pf_read_only demo_cfg = false /\ ta_yes demo_fine = true)
    /\ forall cmd b, (cmd, b) ∈ l -> exists c argv, resolve_names demo_cfg demo_fine "pve1" = Ok c /\ safe_args c
         /\ sh_words cmd = Some argv /\ argv ∈ argvs (cx_user c) (cx_token c) (cx_role c) (cx_path c).
Proof.
  apply (bootstrap_sends_only_pveum (B := demo_boot 1 0) demo_cfg demo_fine "pve1" (boot_start "s") (demo_run 1 0 demo_fine "s").1).
  apply surjective_pairing.
Defined.
Definition differ_in_secret (w1 w2 : DemoWorld) : Prop :=
  is_empty w1.1 = is_empty w2.1 /\ is_empty (trim w1.1) = is_empty (trim w2.1)
  /\ match w1.2, w2.2 with
     | Some (p, a), Some (q, b) => p = q /\ is_empty (trim a) = is_empty (trim b) | None, None => True | _, _ => False end.
Lemma demo_os_alike : os_alike differ_in_secret.
Proof.
  split.
  - intros path [x [[p a]|]] [y [[q b]|]] (_ & _ & H); cbn in *; [by destruct H as [-> _]|done..].
  - intros path a b [x f] [y g] Ha Hb (H1 & H2 & H). split; [done|].
    split; [exact H1|]. split; [exact H2|]. split; [done|]. unfold a_secret in Ha, Hb. by rewrite Ha, Hb.
  - intros [x f] [y g] (_ & _ & H). cbn in H. split; try done. cbn. intros p.
    destruct f as [[q a]|], g as [[q' b]|]; try done. destruct H as [<- H]. by case_bool_decide.
  - done.
  - done.
  - done.
Qed.
Lemma bootstrap_secret_stays_witness :
  (demo_run 1 0 demo_fine "first").1 = (demo_run 1 0 demo_fine "second").1
  /\ agree differ_in_secret (demo_run 1 0 demo_fine "first").2 (demo_run 1 0 demo_fine "second").2.
Proof.
  apply (bootstrap_secret_stays (B := demo_boot 1 0) differ_in_secret).
  - intros node cmd w1 w2 H. split; [|exact H]. cbn [ssh_exec demo_boot fst]. unfold demo_exec.
    destruct (starts_with "pveum acl" cmd); [by left|]. destruct (starts_with "pveum user token remove" cmd); [by left|].
    destruct (starts_with "pveum user token add " cmd) eqn:E; [|by left]. right. eexists _, _. split_and!; try done.
    destruct H as (H1 & H2 & _). cbn. rewrite H1. by destruct (is_empty w2.1).
  - apply demo_os_alike.
  - done.
Defined.
End demo.
