(* ===== verification/Cli.v ===== *)
(** * What the commands share: the trait's default methods, cli/common.rs

    A command of the command line is a program over the client ([Http]) that
    gives what is printed and the exit code.  The default methods of
    [ProxmoxGateway] (api/mod.rs), the lookup of a guest and the wait for a
    task (cli/common.rs), as programs; and the parameters of a request, from the
    typed flags and [--raw KEY=VAL].  [Derives] holds the derived serialisers:
    an answer that is only passed on is [Typed]. *)

From S2P Require Import Prelude.
From S2P Require Import Json.
From S2P Require Import ApiError.
From S2P Require Import Guest.
From S2P Require Import Alerts.
From S2P Require Import GuestLookup.
From S2P Require Import Gateway.
From S2P Require Import Batch.
From S2P Require Import StateApply.
From S2P Require Import ApiClient.
From S2P Require Import ApiEndpoints.

(** An answer read as the type of that name, as it is written back. *)
Record Typed (name : string) := mkTyped { written : Value }.
Arguments mkTyped {name} _.
Arguments written {name} _.
Record AclRow := mkAclRow { ac_path : string; ac_rest : Value }.
Record NodeHosts := mkNodeHosts { nh_digest : string; nh_rest : Value }.
Class Derives := {
  reserialise : string -> Value -> Result string Value;
  de_resource :: De ClusterResource; resource_value : ClusterResource -> Value;
  de_task_status :: De TaskStatus; task_status_value : TaskStatus -> Value;
  de_acl :: De AclRow; acl_value : AclRow -> Value;
  de_hosts :: De NodeHosts; hosts_value : NodeHosts -> Value;
  de_node :: De Node; de_guest :: De Guest; de_pool :: De StoragePool;
  (** the key an answer is sorted by *)
  sort_key : Value -> string;
}.
#[export] Instance De_Typed `{Derives} name : De (Typed name) :=
  {| de_value := fun v => w ← reserialise name v; Ok (mkTyped w); de_missing := None |}.
Definition to_value {name} (l : list (Typed name)) : Value := JArray (written <$> l).
Definition typed_key `{Derives} {name} (t : Typed name) : string := sort_key (written t).

(** What is printed, and the exit code. *)
Notation Exit := (Value * Z)%type.
Definition done_with (v : Value) : Http Exit := mret (v, 0%Z).
Definition says (fields : list (string * Value)) : Http Exit := done_with (JObject fields).
Definition or_null (o : option string) : Value := match o with Some s => JString s | None => JNull end.
Definition checked {A} (r : Result AnyErr A) : Http A := Return (is_Failed r).
Definition confirm (yes : bool) (what : string) : Http unit := checked (require_yes yes what).

(** ** Parameters *)
Definition opt_flag (k : string) (o : option bool) : Params := opt_param k (flag <$> o).
Definition opt_num (k : string) (o : option N) : Params := opt_param k (pretty <$> o).
Definition set_flag (k : string) (b : bool) : Params := if b then [(k, "1")] else [].
Fixpoint build_params (typed : Params) (raw : list string) : Result AnyErr Params :=
  match raw with
  | [] => Ok typed
  | spec :: raw' =>
      match split_once "=" spec with
      | None => Err (bail ("--raw expects KEY=VAL, got " +:+ debug_str spec))
      | Some (k, v) => build_params (filter (fun p => p.1 <> k) typed ++ [(k, v)]) raw'
      end
  end.
Definition params (typed : Params) (raw : list string) : Http Params := checked (build_params typed raw).
(** Refuse a call that would change nothing. *)
Definition some_field (what : string) (typed : Params) (raw : list string) : Http Params :=
  match typed, raw with
  | [], [] => failed (bail (what +:+ " needs at least one field"))
  | _, _ => params typed raw
  end.

(** ** api/mod.rs: the default methods *)
Section defaults.
Context `{Derives}.
Definition is_online (n : Node) : bool := match Alerts.status n with Online => true | _ => false end.
Fixpoint guests_of (nodes : list Node) (out : list Guest) : Http (list Guest) :=
  match nodes with
  | [] => mret out
  | n :: rest => if is_online n then gs ← get_guests (node n); guests_of rest (out ++ gs) else guests_of rest out
  end.
Definition get_all_guests : Http (list Guest) := nodes ← get_nodes; guests_of nodes [].
Fixpoint pools_of (nodes : list Node) (out : list StoragePool) (skipped : list string) : Http (list StoragePool * list string) :=
  match nodes with
  | [] => mret (out, skipped)
  | n :: rest =>
      if is_online n then ps ← get_storage_pools (node n); pools_of rest (out ++ ps) skipped
      else pools_of rest out (skipped ++ [node n])
  end.
Definition get_all_storage_pools_and_skipped : Http (list StoragePool * list string) := nodes ← get_nodes; pools_of nodes [] [].
Definition get_all_storage_pools : Http (list StoragePool) := r ← get_all_storage_pools_and_skipped; mret r.1.
Definition not_listed (vmid : N) (offline : list string) : Http (option Guest) :=
  match offline with
  | [] => mret None
  | _ =>
      listed ← get_cluster_resources (A := ClusterResource) (Some "vm");
      match List.find (fun r => (cr_vmid r =? vmid)%N) listed with
      | Some r => failed (bail ("guest " +:+ pretty vmid +:+ " is on node " +:+ cr_node r +:+ ", which is offline or unreachable; "
                                +:+ "it cannot be inspected until the node is back"))
      | None => mret None
      end
  end.
Fixpoint find_in (vmid : N) (nodes : list Node) (offline : list string) : Http (option Guest) :=
  match nodes with
  | [] => not_listed vmid offline
  | n :: rest =>
      if is_online n
      then gs ← get_guests (node n);
           match List.find (has_vmid vmid) gs with Some g => mret (Some g) | None => find_in vmid rest offline end
      else find_in vmid rest (offline ++ [node n])
  end.
Definition gateway_find_guest (vmid : N) : Http (option Guest) := nodes ← get_nodes; find_in vmid nodes [].

(** ** cli/common.rs: a guest by its number *)
Definition any_err {A} (r : Result CallError A) : Result AnyErr A := match r with Ok a => Ok a | Err e => Err (to_any e) end.
(** The answers so far, for the lookup of [GuestLookup], which asks for no other. *)
Definition answers (resources : Result AnyErr (list ClusterResource)) (nodes : Result AnyErr (list Node))
    (listings : list (Result AnyErr (list Guest))) : GuestLookupGateway :=
  mkLookup resources nodes (fun k _ => default (Ok []) (listings !! k)).
Fixpoint list_nodes (vmid : N) (nodes : list Node) : Http (list (Result AnyErr (list Guest))) :=
  match nodes with
  | [] => mret []
  | n :: rest =>
      r ← attempt (get_guests (node n));
      match r with
      | Ok gs => if existsb (has_vmid vmid) gs then mret [Ok gs] else l ← list_nodes vmid rest; mret (Ok gs :: l)
      | Err e => l ← list_nodes vmid rest; mret (Err (to_any e) :: l)
      end
  end.
(** The walk over the nodes, after the listings [first]. *)
Definition walked {A} (look : GuestLookupGateway -> Result AnyErr A) (vmid : N) (resources : Result AnyErr (list ClusterResource))
    (first : list (Result AnyErr (list Guest))) : Http A :=
  nodes ← attempt get_nodes;
  match nodes with
  | Err e => checked (look (answers resources (Err (to_any e)) first))
  | Ok ns => ls ← list_nodes vmid ns; checked (look (answers resources (Ok ns) (first ++ ls)))
  end.
Definition find_guest (vmid : N) : Http (string * GuestType) :=
  let look c := find_guest_with c vmid in
  resources ← attempt (get_cluster_resources (A := ClusterResource) (Some "vm"));
  let resources := any_err resources in
  match find_guest_via_cluster_resources (answers resources (Ok []) []) vmid with
  | Err _ => walked look vmid resources []
  | Ok None => checked (look (answers resources (Ok []) []))
  | Ok (Some loc) =>
      if bool_decide (lg_raw_status loc = "unknown") then
        r ← attempt (get_guests (g_node (lg_guest loc)));
        let first := any_err r in
        match first with
        | Ok gs => if existsb (has_vmid vmid) gs then checked (look (answers resources (Ok []) [first])) else walked look vmid resources [first]
        | Err _ => checked (look (answers resources (Ok []) [first]))
        end
      else checked (look (answers resources (Ok []) []))
  end.

(** ** cli/common.rs: waiting for a task *)
Fixpoint wait_loop (fuel : nat) (node upid : string) (effective deadline : N) : Http TaskStatus :=
  status ← get_task_status (A := TaskStatus) node upid;
  let late := bail ("task " +:+ upid +:+ " did not complete within " +:+ pretty effective
                    +:+ "s (status: " +:+ ts_status status +:+ ")") in
  if is_done status then mret status
  else Now (fun now =>
    if (deadline <=? now)%N then failed late
    else Sleep POLL_INTERVAL_MS (match fuel with 0 => failed late | S fuel' => wait_loop fuel' node upid effective deadline end)).
Definition wait_until_done (node upid : string) (timeout_secs : N) : Http TaskStatus :=
  let effective := if (0 <? timeout_secs)%N then timeout_secs else DEFAULT_TASK_TIMEOUT_SECS in
  Now (fun now => wait_loop (poll_fuel effective) node upid effective (now + effective * 1000)).
Definition wait_and_classify (node upid : string) : Http Exit :=
  status ← wait_until_done node upid 0;
  mret (task_status_value status, if Gateway.is_success status then 0%Z else 1%Z).
(** A request whose task is waited for. *)
Definition with_task (envelope : Value) (node : string) (upid : option string) (wait : bool) : Http Exit :=
  match wait, upid with
  | true, Some upid =>
      '(status, exit) ← wait_and_classify node upid;
      mret (JObject [("request", envelope); ("task_status", status)], exit)
  | _, _ => done_with envelope
  end.
End defaults.
