(* ===== verification/CliFirewall.v ===== *)
(** * Firewall and device mappings: cli/firewall.rs

    The commands of the file with their arguments, and one program per
    command: which request it makes, and what it prints. *)

From S2P Require Import Prelude.
From S2P Require Import Json.
From S2P Require Import ApiError.
From S2P Require Import Guest.
From S2P Require Import StateApply.
From S2P Require Import ApiClient.
From S2P Require Import ApiEndpoints.
From S2P Require Import Cli.

Inductive FirewallScope := ScopeCluster | ScopeNode (node : string) | ScopeGuest (vmid : N).
Inductive FirewallAliasCommand :=
  | AliasList
  | AliasCreate (name cidr : string) (comment : option string) (raw : list string)
  | AliasUpdate (name cidr : string) (comment rename : option string) (raw : list string)
  | AliasDelete (name : string) (yes : bool).
Inductive FirewallGroupCommand :=
  | GroupList
  | GroupCreate (group : string) (comment : option string) (raw : list string)
  | GroupDelete (group : string) (yes : bool)
  | GroupRules (group : string).
Inductive FirewallIpsetCommand :=
  | IpsetList
  | IpsetCreate (name : string) (comment : option string) (raw : list string)
  | IpsetDelete (name : string) (yes : bool)
  | IpsetCidrs (name : string)
  | IpsetAddCidr (name cidr : string) (nomatch : bool) (comment : option string) (raw : list string)
  | IpsetRemoveCidr (name cidr : string) (yes : bool).
Inductive FirewallOptionsCommand :=
  | OptionsGet
  | OptionsSet (enable : option bool) (policy_in policy_out : option string) (ebtables : option bool)
      (log_ratelimit : option string) (raw : list string).
Inductive FirewallClusterCommand :=
  | FwAlias (cmd : FirewallAliasCommand)
  | FwGroup (cmd : FirewallGroupCommand)
  | FwIpset (cmd : FirewallIpsetCommand)
  | FwOptions (cmd : FirewallOptionsCommand).
Inductive GuestFirewallAliasCommand :=
  | GuestAliasList
  | GuestAliasCreate (name cidr : string) (comment : option string) (raw : list string)
  | GuestAliasUpdate (name cidr : string) (comment rename : option string) (raw : list string)
  | GuestAliasDelete (name : string) (yes : bool).
Inductive GuestFirewallOptionsCommand :=
  | GuestOptionsGet
  | GuestOptionsSet (enable : option bool) (policy_in policy_out log_level_in log_level_out : option string)
      (dhcp ndp macfilter ipfilter radv : option bool) (raw : list string).
Inductive FirewallGuestCommand :=
  | FgAlias (cmd : GuestFirewallAliasCommand)
  | FgOptions (cmd : GuestFirewallOptionsCommand).
Inductive ClusterMappingPciCommand :=
  | PciList
  | PciCreate (id : string) (description : option string) (mdev : option bool) (map raw : list string)
  | PciUpdate (id : string) (description : option string) (mdev : option bool) (map raw : list string)
  | PciDelete (id : string) (yes : bool).
Inductive ClusterMappingUsbCommand :=
  | UsbList
  | UsbCreate (id : string) (description : option string) (map raw : list string)
  | UsbUpdate (id : string) (description : option string) (map raw : list string)
  | UsbDelete (id : string) (yes : bool).
Inductive ClusterMappingCommand :=
  | MapPci (cmd : ClusterMappingPciCommand)
  | MapUsb (cmd : ClusterMappingUsbCommand).

Section commands.
Context `{Derives}.

Definition guest_type_label (t : GuestType) : string := match t with Qemu => "qemu" | Lxc => "lxc" end.
Definition rules_report (context : list (string * Value)) (rules : list (Typed "FirewallRule")) : Http Exit :=
  says [("context", JObject context); ("rules", to_value rules); ("count", JNumber (Z.of_nat (length rules)))].
Definition execute_firewall (scope : FirewallScope) : Http Exit :=
  match scope with
  | ScopeCluster => rules ← list_cluster_firewall_rules; rules_report [("scope", JString "cluster")] rules
  | ScopeNode node =>
      rules ← list_node_firewall_rules node; rules_report [("scope", JString "node"); ("node", JString node)] rules
  | ScopeGuest vmid =>
      '(node, gt) ← find_guest vmid;
      rules ← list_guest_firewall_rules node vmid gt;
      rules_report [("scope", JString "guest"); ("node", JString node); ("vmid", JNumber (Z.of_N vmid));
                    ("guest_type", JString (guest_type_label gt))] rules
  end.

Definition firewall_alias (cmd : FirewallAliasCommand) : Http Exit :=
  match cmd with
  | AliasList => aliases ← list_cluster_firewall_aliases (A := Typed "FirewallAlias"); done_with (to_value aliases)
  | AliasCreate name cidr comment raw =>
      owned ← params ([("name", name); ("cidr", cidr)] ++ opt_param "comment" comment) raw;
      create_cluster_firewall_alias owned ;;
      says [("created", JBool true)]
  | AliasUpdate name cidr comment rename raw =>
      owned ← params ([("cidr", cidr)] ++ opt_param "comment" comment ++ opt_param "rename" rename) raw;
      update_cluster_firewall_alias name owned ;;
      says [("updated", JString name)]
  | AliasDelete name yes =>
      confirm yes "firewall alias delete" ;;
      delete_cluster_firewall_alias name ;;
      says [("deleted", JString name)]
  end.
Definition firewall_group (cmd : FirewallGroupCommand) : Http Exit :=
  match cmd with
  | GroupList => groups ← list_cluster_firewall_groups (A := Typed "FirewallGroup"); done_with (to_value groups)
  | GroupCreate group comment raw =>
      owned ← params ([("group", group)] ++ opt_param "comment" comment) raw;
      create_cluster_firewall_group owned ;;
      says [("created", JBool true)]
  | GroupDelete group yes =>
      confirm yes "firewall group delete" ;;
      delete_cluster_firewall_group group ;;
      says [("deleted", JString group)]
  | GroupRules group => rules ← list_cluster_firewall_group_rules (A := Typed "FirewallRule") group; done_with (to_value rules)
  end.
Definition firewall_ipset (cmd : FirewallIpsetCommand) : Http Exit :=
  match cmd with
  | IpsetList => ipsets ← list_cluster_firewall_ipsets (A := Typed "FirewallIpset"); done_with (to_value ipsets)
  | IpsetCreate name comment raw =>
      owned ← params ([("name", name)] ++ opt_param "comment" comment) raw;
      create_cluster_firewall_ipset owned ;;
      says [("created", JBool true)]
  | IpsetDelete name yes =>
      confirm yes "firewall ipset delete" ;;
      delete_cluster_firewall_ipset name ;;
      says [("deleted", JString name)]
  | IpsetCidrs name => cidrs ← list_cluster_firewall_ipset_cidrs (A := Typed "FirewallIpsetCidr") name; done_with (to_value cidrs)
  | IpsetAddCidr name cidr nomatch comment raw =>
      owned ← params ([("cidr", cidr)] ++ set_flag "nomatch" nomatch ++ opt_param "comment" comment) raw;
      add_cluster_firewall_ipset_cidr name owned ;;
      says [("added", JBool true)]
  | IpsetRemoveCidr name cidr yes =>
      confirm yes "firewall ipset CIDR removal" ;;
      remove_cluster_firewall_ipset_cidr name cidr ;;
      says [("removed", JString cidr)]
  end.
Definition firewall_options (cmd : FirewallOptionsCommand) : Http Exit :=
  match cmd with
  | OptionsGet => opts ← get_cluster_firewall_options (A := Typed "FirewallOptions"); done_with (written opts)
  | OptionsSet enable policy_in policy_out ebtables log_ratelimit raw =>
      owned ← some_field "set" (opt_flag "enable" enable ++ opt_param "policy_in" policy_in ++ opt_param "policy_out" policy_out
                ++ opt_flag "ebtables" ebtables ++ opt_param "log_ratelimit" log_ratelimit) raw;
      update_cluster_firewall_options owned ;;
      says [("updated", JBool true)]
  end.
Definition execute_firewall_cluster (action : FirewallClusterCommand) : Http Exit :=
  match action with
  | FwAlias cmd => firewall_alias cmd
  | FwGroup cmd => firewall_group cmd
  | FwIpset cmd => firewall_ipset cmd
  | FwOptions cmd => firewall_options cmd
  end.

Definition guest_alias (node : string) (vmid : N) (gt : GuestType) (cmd : GuestFirewallAliasCommand) : Http Exit :=
  match cmd with
  | GuestAliasList => aliases ← list_guest_firewall_aliases (A := Typed "FirewallAlias") node vmid gt; done_with (to_value aliases)
  | GuestAliasCreate name cidr comment raw =>
      owned ← params ([("name", name); ("cidr", cidr)] ++ opt_param "comment" comment) raw;
      create_guest_firewall_alias node vmid gt owned ;;
      says [("created", JBool true)]
  | GuestAliasUpdate name cidr comment rename raw =>
      owned ← params ([("cidr", cidr)] ++ opt_param "comment" comment ++ opt_param "rename" rename) raw;
      update_guest_firewall_alias node vmid gt name owned ;;
      says [("updated", JString name)]
  | GuestAliasDelete name yes =>
      confirm yes "guest firewall alias delete" ;;
      delete_guest_firewall_alias node vmid gt name ;;
      says [("deleted", JString name)]
  end.
Definition guest_options (node : string) (vmid : N) (gt : GuestType) (cmd : GuestFirewallOptionsCommand) : Http Exit :=
  match cmd with
  | GuestOptionsGet => opts ← get_guest_firewall_options (A := Typed "GuestFirewallOptions") node vmid gt; done_with (written opts)
  | GuestOptionsSet enable policy_in policy_out log_level_in log_level_out dhcp ndp macfilter ipfilter radv raw =>
      owned ← some_field "set" (opt_flag "enable" enable ++ opt_param "policy_in" policy_in ++ opt_param "policy_out" policy_out
                ++ opt_param "log_level_in" log_level_in ++ opt_param "log_level_out" log_level_out ++ opt_flag "dhcp" dhcp
                ++ opt_flag "ndp" ndp ++ opt_flag "macfilter" macfilter ++ opt_flag "ipfilter" ipfilter ++ opt_flag "radv" radv) raw;
      update_guest_firewall_options node vmid gt owned ;;
      says [("updated", JBool true); ("vmid", JNumber (Z.of_N vmid))]
  end.
(** The guest is looked up before the command is looked at. *)
Definition execute_firewall_guest (vmid : N) (action : FirewallGuestCommand) : Http Exit :=
  '(node, gt) ← find_guest vmid;
  match action with
  | FgAlias cmd => guest_alias node vmid gt cmd
  | FgOptions cmd => guest_options node vmid gt cmd
  end.

Definition push_map (items : list string) : Params := (fun m => ("map", m)) <$> items.
Definition mapping_pci (cmd : ClusterMappingPciCommand) : Http Exit :=
  match cmd with
  | PciList => mappings ← list_cluster_mapping_pci (A := Typed "PciMapping"); done_with (to_value mappings)
  | PciCreate id description mdev map raw =>
      owned ← params ([("id", id)] ++ opt_param "description" description ++ opt_flag "mdev" mdev ++ push_map map) raw;
      create_cluster_mapping_pci owned ;;
      says [("created", JBool true)]
  | PciUpdate id description mdev map raw =>
      owned ← some_field "update" (opt_param "description" description ++ opt_flag "mdev" mdev ++ push_map map) raw;
      update_cluster_mapping_pci id owned ;;
      says [("updated", JString id)]
  | PciDelete id yes =>
      confirm yes "PCI mapping delete" ;;
      delete_cluster_mapping_pci id ;;
      says [("deleted", JString id)]
  end.
Definition mapping_usb (cmd : ClusterMappingUsbCommand) : Http Exit :=
  match cmd with
  | UsbList => mappings ← list_cluster_mapping_usb (A := Typed "UsbMapping"); done_with (to_value mappings)
  | UsbCreate id description map raw =>
      owned ← params ([("id", id)] ++ opt_param "description" description ++ push_map map) raw;
      create_cluster_mapping_usb owned ;;
      says [("created", JBool true)]
  | UsbUpdate id description map raw =>
      owned ← params (opt_param "description" description ++ push_map map) raw;
      update_cluster_mapping_usb id owned ;;
      says [("updated", JString id)]
  | UsbDelete id yes =>
      confirm yes "USB mapping delete" ;;
      delete_cluster_mapping_usb id ;;
      says [("deleted", JString id)]
  end.
Definition execute_cluster_mapping (action : ClusterMappingCommand) : Http Exit :=
  match action with MapPci cmd => mapping_pci cmd | MapUsb cmd => mapping_usb cmd end.
End commands.
