(* ===== verification/CliStorage.v ===== *)
(** * Storage, backup jobs, ACME, templates and images: cli/storage.rs

    The commands of the file with their arguments, and one program per
    command.  What an upload reads of the local file, its name and whether it
    opens, is an argument.  The commands of the backup server, which go to
    another client, are not here. *)

From S2P Require Import Prelude.
From S2P Require Import Json.
From S2P Require Import ApiError.
From S2P Require Import StateApply.
From S2P Require Import IsoLibrary.
From S2P Require Import AppUpdate.
From S2P Require Import ApiClient.
From S2P Require Import ApiEndpoints.
From S2P Require Import Cli.

Record LocalFile := mkLocalFile { lf_path : string; lf_name : option string; lf_opened : Result string unit }.
Inductive StorageCommand :=
  | StorageUpload (node storage : string) (local_path : LocalFile) (content : string) (remote_filename : option string) (wait : bool)
  | StorageDelete (node volid : string) (yes wait : bool).
Record NewJob := mkNewJob {
  nj_schedule : string; nj_storage : string; nj_all : bool; nj_vmid : option string; nj_mode : string; nj_compress : option string;
  nj_mailto : option string; nj_mailnotification : option string; nj_prune_backups : option string; nj_comment : option string;
  nj_node : option string; nj_raw : list string }.
Inductive BackupJobsCommand :=
  | JobsList
  | JobsShow (id : string)
  | JobsCreate (job : NewJob)
  | JobsUpdate (id : string) (schedule : option string) (enabled : option bool) (compress prune_backups comment : option string)
      (raw : list string)
  | JobsDelete (id : string) (yes : bool)
  | JobsInfo
  | JobsExtractConfig (node volume : string).
Record NewStorage := mkNewStorage {
  ns_storage : string; ns_type : string; ns_content : option string; ns_nodes : option string; ns_shared : option bool;
  ns_path : option string; ns_server : option string; ns_export : option string; ns_datastore : option string;
  ns_fingerprint : option string; ns_username : option string; ns_pool : option string; ns_vgname : option string;
  ns_thinpool : option string; ns_raw : list string }.
Inductive StorageDefsCommand :=
  | DefsList
  | DefsShow (storage : string)
  | DefsCreate (def : NewStorage)
  | DefsUpdate (storage : string) (content nodes : option string) (disable shared : option bool) (fingerprint delete : option string)
      (raw : list string)
  | DefsDelete (storage : string) (yes : bool).
Inductive AcmeAccountCommand :=
  | AccountList
  | AccountShow (name : string)
  | AccountCreate (name contact : string) (tos_url directory eab_kid eab_hmac_key : option string) (raw : list string)
  | AccountUpdate (name : string) (contact : option string) (raw : list string)
  | AccountDelete (name : string) (yes : bool).
Inductive AcmePluginCommand :=
  | PluginList
  | PluginShow (plugin_id : string)
  | PluginCreate (plugin_id plugin_type : string) (api data : option string) (validation_delay : option N) (raw : list string)
  | PluginUpdate (plugin_id : string) (api data : option string) (validation_delay : option N) (disable : option bool) (raw : list string)
  | PluginDelete (plugin_id : string) (yes : bool).
Inductive AcmeCommand :=
  | AcmeAccount (cmd : AcmeAccountCommand)
  | AcmePlugin (cmd : AcmePluginCommand)
  | AcmeTos (directory : option string)
  | AcmeDirectories
  | AcmeChallengeSchema.
Inductive AplinfoCommand := AplinfoList (node : string) | AplinfoDownload (node storage template : string).
Inductive IsoCommand :=
  | IsoList
  | IsoDownload (id url filename sha256 content : option string) (node storage : string).

Section commands.
Context `{Derives}.

Definition content_buckets : list string := ["iso"; "vztmpl"; "import"].
Definition execute_storage (action : StorageCommand) : Http Exit :=
  match action with
  | StorageUpload node storage file content remote_filename wait =>
      if bool_decide (content ∈ content_buckets) then
        upid ← upload_to_storage node storage (lf_path file) (lf_name file) (lf_opened file) content remote_filename;
        let name := match remote_filename with Some n => Some n | None => lf_name file end in
        let envelope := JObject [("node", JString node); ("storage", JString storage); ("filename", or_null name);
                                 ("content", JString content); ("task", JString upid)] in
        with_task envelope node (Some upid) wait
      else failed (bail ("invalid content type '" +:+ content +:+ "'; valid: " +:+ join ", " content_buckets))
  | StorageDelete node volid yes wait =>
      confirm yes "storage volume delete" ;;
      '(storage, _) ← checked (ok_or (bail ("invalid volid '" +:+ volid +:+ "': expected '<storage>:<type>/<file>'")) (split_once ":" volid));
      task ← delete_storage_content node storage volid;
      with_task (JObject [("node", JString node); ("storage", JString storage); ("volid", JString volid); ("task", or_null task)])
        node task wait
  end.

Definition job_params (j : NewJob) : Params :=
  [("schedule", nj_schedule j); ("storage", nj_storage j); ("mode", nj_mode j)] ++ set_flag "all" (nj_all j)
  ++ opt_param "vmid" (nj_vmid j) ++ opt_param "compress" (nj_compress j) ++ opt_param "mailto" (nj_mailto j)
  ++ opt_param "mailnotification" (nj_mailnotification j) ++ opt_param "prune-backups" (nj_prune_backups j)
  ++ opt_param "comment" (nj_comment j) ++ opt_param "node" (nj_node j).
Definition execute_backup_jobs (action : BackupJobsCommand) : Http Exit :=
  match action with
  | JobsList => jobs ← list_backup_jobs (A := Typed "BackupJob"); done_with (to_value jobs)
  | JobsShow id => job ← get_backup_job (A := Typed "BackupJob") id; done_with (written job)
  | JobsCreate j =>
      if nj_all j && bool_decide (is_Some (nj_vmid j)) then failed (bail "--all and --vmid are mutually exclusive")
      else if negb (nj_all j) && bool_decide (nj_vmid j = None) then failed (bail "either --all or --vmid is required")
      else
        merged ← params (job_params j) (nj_raw j);
        create_backup_job merged ;;
        says [("status", JString "created")]
  | JobsUpdate id schedule enabled compress prune_backups comment raw =>
      merged ← params (opt_param "schedule" schedule ++ opt_flag "enabled" enabled ++ opt_param "compress" compress
                       ++ opt_param "prune-backups" prune_backups ++ opt_param "comment" comment) raw;
      match merged with
      | [] => failed (bail "update needs at least one --field or --raw KEY=VAL — no-op refused (would silently succeed)")
      | _ =>
          update_backup_job id merged ;;
          says [("status", JString "updated"); ("id", JString id)]
      end
  | JobsDelete id yes =>
      confirm yes "backup job delete" ;;
      delete_backup_job id ;;
      says [("status", JString "deleted"); ("id", JString id)]
  | JobsInfo => info ← cluster_backup_info; done_with info
  | JobsExtractConfig node volume =>
      cfg ← extract_backup_config node volume;
      says [("node", JString node); ("volume", JString volume); ("config", JString cfg)]
  end.

Definition storage_params (s : NewStorage) : Params :=
  [("storage", ns_storage s); ("type", ns_type s)] ++ opt_param "content" (ns_content s) ++ opt_param "nodes" (ns_nodes s)
  ++ opt_flag "shared" (ns_shared s) ++ opt_param "path" (ns_path s) ++ opt_param "server" (ns_server s)
  ++ opt_param "export" (ns_export s) ++ opt_param "datastore" (ns_datastore s) ++ opt_param "fingerprint" (ns_fingerprint s)
  ++ opt_param "username" (ns_username s) ++ opt_param "pool" (ns_pool s) ++ opt_param "vgname" (ns_vgname s)
  ++ opt_param "thinpool" (ns_thinpool s).
Definition execute_storage_defs (action : StorageDefsCommand) : Http Exit :=
  match action with
  | DefsList => storages ← list_cluster_storages (A := Typed "ClusterStorage") typed_key; done_with (to_value storages)
  | DefsShow storage => s ← get_cluster_storage (A := Typed "ClusterStorage") storage; done_with (written s)
  | DefsCreate def =>
      owned ← params (storage_params def) (ns_raw def);
      create_cluster_storage owned ;;
      says [("created", JBool true)]
  | DefsUpdate storage content nodes disable shared fingerprint delete raw =>
      owned ← some_field "update" (opt_param "content" content ++ opt_param "nodes" nodes ++ opt_flag "disable" disable
                ++ opt_flag "shared" shared ++ opt_param "fingerprint" fingerprint ++ opt_param "delete" delete) raw;
      update_cluster_storage storage owned ;;
      says [("updated", JString storage)]
  | DefsDelete storage yes =>
      confirm yes "storage definition delete" ;;
      delete_cluster_storage storage ;;
      says [("deleted", JString storage)]
  end.

Definition acme_account (cmd : AcmeAccountCommand) : Http Exit :=
  match cmd with
  | AccountList => accounts ← list_acme_accounts (A := Typed "AcmeAccountEntry"); done_with (to_value accounts)
  | AccountShow name => a ← get_acme_account (A := Typed "AcmeAccount") name; done_with (written a)
  | AccountCreate name contact tos_url directory eab_kid eab_hmac_key raw =>
      owned ← params ([("name", name); ("contact", contact)] ++ opt_param "tos_url" tos_url ++ opt_param "directory" directory
                      ++ opt_param "eab-kid" eab_kid ++ opt_param "eab-hmac-key" eab_hmac_key) raw;
      upid ← create_acme_account owned;
      says [("upid", JString upid)]
  | AccountUpdate name contact raw =>
      owned ← some_field "update" (opt_param "contact" contact) raw;
      upid ← update_acme_account name owned;
      says [("upid", JString upid); ("updated", JString name)]
  | AccountDelete name yes =>
      confirm yes "ACME account delete" ;;
      upid ← delete_acme_account name;
      says [("upid", JString upid); ("deleted", JString name)]
  end.
Definition acme_plugin (cmd : AcmePluginCommand) : Http Exit :=
  match cmd with
  | PluginList => plugins ← list_acme_plugins (A := Typed "AcmePlugin"); done_with (to_value plugins)
  | PluginShow plugin_id => p ← get_acme_plugin (A := Typed "AcmePlugin") plugin_id; done_with (written p)
  | PluginCreate plugin_id plugin_type api data validation_delay raw =>
      owned ← params ([("id", plugin_id); ("type", plugin_type)] ++ opt_param "api" api ++ opt_param "data" data
                      ++ opt_num "validation-delay" validation_delay) raw;
      create_acme_plugin owned ;;
      says [("created", JBool true)]
  | PluginUpdate plugin_id api data validation_delay disable raw =>
      owned ← some_field "update" (opt_param "api" api ++ opt_param "data" data ++ opt_num "validation-delay" validation_delay
                ++ opt_flag "disable" disable) raw;
      update_acme_plugin plugin_id owned ;;
      says [("updated", JString plugin_id)]
  | PluginDelete plugin_id yes =>
      confirm yes "ACME plugin delete" ;;
      delete_acme_plugin plugin_id ;;
      says [("deleted", JString plugin_id)]
  end.
Definition execute_acme (action : AcmeCommand) : Http Exit :=
  match action with
  | AcmeAccount cmd => acme_account cmd
  | AcmePlugin cmd => acme_plugin cmd
  | AcmeTos directory => tos ← get_acme_tos directory; says [("tos_url", JString tos)]
  | AcmeDirectories => dirs ← list_acme_directories (A := Typed "AcmeDirectory"); done_with (to_value dirs)
  | AcmeChallengeSchema => schema ← get_acme_challenge_schema; done_with schema
  end.

Definition execute_aplinfo (action : AplinfoCommand) : Http Exit :=
  match action with
  | AplinfoList node =>
      templates ← list_node_aplinfo (A := Typed "AplTemplate") node;
      says [("node", JString node); ("count", JNumber (Z.of_nat (length templates))); ("templates", to_value templates)]
  | AplinfoDownload node storage template =>
      upid ← download_node_aplinfo node storage template;
      says [("upid", JString upid); ("node", JString node); ("storage", JString storage); ("template", JString template)]
  end.

Definition checksum_value (c : option Checksum) : Value :=
  match c with Some c => JObject [("algo", JString (proxmox_pair c).1); ("digest", JString (proxmox_pair c).2)] | None => JNull end.
Definition iso_value (e : IsoEntry) : Value :=
  JObject [("id", JString (iso_id e)); ("distro", JString (distro e)); ("version", JString (version e)); ("arch", JString (arch e));
           ("url", JString (url e)); ("checksum", checksum_value (checksum e)); ("content", JString (content e));
           ("size_mib", JNumber (Z.of_N (size_mib e))); ("notes", JString (notes e))].
Record IsoSource := mkIsoSource { is_url : string; is_filename : string; is_checksum : option (string * string); is_content : string }.
(** The library entry, or the custom URL with its file name and content; never a mix. *)
Definition iso_source (id url filename sha256 content : option string) : Result AnyErr IsoSource :=
  match id, url with
  | Some _, Some _ => Err (bail "specify either --id or --url, not both")
  | Some entry_id, None =>
      entry ← ok_or (bail ("library id '" +:+ entry_id +:+ "' not found")) (by_id entry_id);
      checksum ← ok_or (bail ("library entry '" +:+ entry_id +:+ "' has no pinned checksum. "
                   +:+ "Use --url <X> --sha256 <Y> to download with caller-supplied checksum.")) (IsoLibrary.checksum entry);
      Ok (mkIsoSource (IsoLibrary.url entry) (last_segment (IsoLibrary.url entry)) (Some (proxmox_pair checksum)) (IsoLibrary.content entry))
  | None, Some custom_url =>
      fname ← ok_or (bail "--url requires --filename") filename;
      cnt ← ok_or (bail "--url requires --content (iso|import|vztmpl)") content;
      Ok (mkIsoSource custom_url fname ((fun h => ("sha256", h)) <$> sha256) cnt)
  | None, None => Err (bail "specify --id <entry> or --url <custom-url>")
  end.
Definition execute_iso (action : IsoCommand) : Http Exit :=
  match action with
  | IsoList => done_with (JArray (iso_value <$> LIBRARY))
  | IsoDownload id url filename sha256 content node storage =>
      src ← checked (iso_source id url filename sha256 content);
      upid ← download_to_storage node storage (is_url src) (is_filename src) (fst <$> is_checksum src) (snd <$> is_checksum src)
               (is_content src);
      says [("node", JString node); ("storage", JString storage); ("url", JString (is_url src)); ("filename", JString (is_filename src));
            ("checksum", match is_checksum src with Some (a, h) => JArray [JString a; JString h] | None => JNull end);
            ("content", JString (is_content src)); ("upid", JString upid); ("status", JString "queued")]
  end.
End commands.
