(* ===== verification/CliCluster.v ===== *)
(** * Cluster, pools and access control: cli/cluster.rs, cli/access.rs, access/pveum.rs

    The commands of the two files with their arguments, and one program per
    command; the effective permissions, read from the output of [pveum]. *)

From S2P Require Import Prelude.
From S2P Require Import Json.
From S2P Require Import ApiError.
From S2P Require Import SortBy.
From S2P Require Import Utf8.
From S2P Require Import GuestLookup.
From S2P Require Import StateApply.
From S2P Require Import SshExec.
From S2P Require Import ApiClient.
From S2P Require Import ApiEndpoints.
From S2P Require Import Cli.
From S2P Require Import TokenBootstrap.

(** ** cli/cluster.rs *)
Inductive PoolCommand :=
  | PoolList
  | PoolShow (poolid : string)
  | PoolCreate (poolid : string) (comment : option string)
  | PoolAddMembers (poolid : string) (vms storage : option string)
  | PoolRemoveMembers (poolid : string) (vms storage : option string)
  | PoolSetComment (poolid comment : string)
  | PoolDelete (poolid : string) (yes : bool).
Inductive ClusterConfigCommand :=
  | ConfigGet
  | ConfigSet (mac_prefix migration description console keyboard : option string) (max_workers : option N)
      (email_from registered_tags : option string) (raw : list string).
Inductive CorosyncNodesCommand :=
  | CorosyncList
  | CorosyncAdd (node : string) (ring0_addr ring1_addr : option string) (nodeid votes : option N) (force : bool) (raw : list string)
  | CorosyncRemove (node : string) (yes : bool).
Inductive ClusterJoinCommand :=
  | JoinInfo (node : option string)
  | Join (hostname password fingerprint : string) (nodeid votes : option N) (force : bool) (raw : list string).
Inductive ClusterQdeviceCommand :=
  | QdeviceGet
  | QdeviceSetup (addr : string) (algorithm tie_breaker net_username : option string) (force : bool) (raw : list string)
  | QdeviceUpdate (algorithm tie_breaker : option string) (force : option bool) (raw : list string)
  | QdeviceDelete (yes : bool).
Inductive ClusterBootstrapCommand :=
  | BootstrapNodes (cmd : CorosyncNodesCommand)
  | BootstrapJoin (cmd : ClusterJoinCommand)
  | BootstrapQdevice (cmd : ClusterQdeviceCommand)
  | BootstrapTotem.
Inductive ResourceKind := KindVm | KindStorage | KindNode | KindSdn | KindPool | KindNetwork.
Definition server_filter (k : ResourceKind) : option string :=
  match k with
  | KindVm => Some "vm" | KindStorage => Some "storage" | KindNode => Some "node" | KindSdn => Some "sdn"
  | KindPool | KindNetwork => None
  end.
Definition kind_matches (k : ResourceKind) (resource_type : string) : bool :=
  match k with
  | KindVm => bool_decide (resource_type = "qemu" \/ resource_type = "lxc")
  | KindStorage => bool_decide (resource_type = "storage")
  | KindNode => bool_decide (resource_type = "node")
  | KindSdn => bool_decide (resource_type = "sdn")
  | KindPool => bool_decide (resource_type = "pool")
  | KindNetwork => bool_decide (resource_type = "network")
  end.

Section cluster.
Context `{Derives}.

Definition member_params (vms storage : option string) : Params := opt_param "vms" vms ++ opt_param "storage" storage.
Definition change_members (poolid what : string) (ps extra : Params) (said : string) : Http Exit :=
  match ps with
  | [] => failed (bail (what +:+ " needs at least one of --vms or --storage"))
  | _ => update_pool poolid (ps ++ extra) ;; says [(said, JBool true)]
  end.
Definition execute_pool (action : PoolCommand) : Http Exit :=
  match action with
  | PoolList => pools ← list_pools (A := Typed "Pool"); done_with (to_value pools)
  | PoolShow poolid => p ← get_pool (A := Typed "PoolDetail") poolid; done_with (written p)
  | PoolCreate poolid comment =>
      create_pool ([("poolid", poolid)] ++ opt_param "comment" comment) ;;
      says [("created", JString poolid)]
  | PoolAddMembers poolid vms storage => change_members poolid "add-members" (member_params vms storage) [] "added"
  | PoolRemoveMembers poolid vms storage =>
      change_members poolid "remove-members" (member_params vms storage) [("delete", "1")] "removed"
  | PoolSetComment poolid comment =>
      update_pool poolid [("comment", comment)] ;;
      says [("updated", JString poolid)]
  | PoolDelete poolid yes =>
      confirm yes "pool delete" ;;
      delete_pool poolid ;;
      says [("deleted", JString poolid)]
  end.
Definition execute_resources (kind : option ResourceKind) : Http Exit :=
  resources ← get_cluster_resources (A := ClusterResource) (k ← kind; server_filter k);
  let kept := match kind with Some k => filter (fun r => kind_matches k (cr_type r) = true) resources | None => resources end in
  says [("count", JNumber (Z.of_nat (length kept))); ("resources", JArray (resource_value <$> kept))].
Definition execute_pve_version : Http Exit := v ← get_api_version (A := Typed "ApiVersion"); done_with (written v).
Definition execute_config (action : ClusterConfigCommand) : Http Exit :=
  match action with
  | ConfigGet => opts ← get_cluster_options (A := Typed "ClusterOptions"); done_with (written opts)
  | ConfigSet mac_prefix migration description console keyboard max_workers email_from registered_tags raw =>
      owned ← some_field "set" (opt_param "mac_prefix" mac_prefix ++ opt_param "migration" migration
                ++ opt_param "description" description ++ opt_param "console" console ++ opt_param "keyboard" keyboard
                ++ opt_num "max_workers" max_workers ++ opt_param "email_from" email_from
                ++ opt_param "registered-tags" registered_tags) raw;
      update_cluster_options owned ;;
      says [("updated", JBool true)]
  end.
Definition execute_log (max : option N) : Http Exit :=
  entries ← get_cluster_log (A := Typed "ClusterLogEntry") max;
  says [("count", JNumber (Z.of_nat (length entries))); ("entries", to_value entries)].
Definition corosync_nodes (cmd : CorosyncNodesCommand) : Http Exit :=
  match cmd with
  | CorosyncList => nodes ← list_cluster_corosync_nodes (A := Typed "CorosyncNode"); done_with (to_value nodes)
  | CorosyncAdd node ring0_addr ring1_addr nodeid votes force raw =>
      owned ← params (opt_param "ring0_addr" ring0_addr ++ opt_param "ring1_addr" ring1_addr ++ opt_num "nodeid" nodeid
                      ++ opt_num "votes" votes ++ set_flag "force" force) raw;
      add_cluster_corosync_node node owned ;;
      says [("added", JString node)]
  | CorosyncRemove node yes =>
      confirm yes "corosync node removal" ;;
      remove_cluster_corosync_node node ;;
      says [("removed", JString node)]
  end.
Definition cluster_join (cmd : ClusterJoinCommand) : Http Exit :=
  match cmd with
  | JoinInfo node => info ← get_cluster_join_info node; done_with info
  | Join hostname password fingerprint nodeid votes force raw =>
      owned ← params ([("hostname", hostname); ("password", password); ("fingerprint", fingerprint)] ++ opt_num "nodeid" nodeid
                      ++ opt_num "votes" votes ++ set_flag "force" force) raw;
      upid ← join_cluster owned;
      says [("upid", JString upid)]
  end.
Definition cluster_qdevice (cmd : ClusterQdeviceCommand) : Http Exit :=
  match cmd with
  | QdeviceGet => q ← get_cluster_qdevice; done_with q
  | QdeviceSetup addr algorithm tie_breaker net_username force raw =>
      owned ← params ([("addr", addr)] ++ opt_param "algorithm" algorithm ++ opt_param "tie_breaker" tie_breaker
                      ++ opt_param "net_username" net_username ++ set_flag "force" force) raw;
      upid ← setup_cluster_qdevice owned;
      says [("upid", JString upid)]
  | QdeviceUpdate algorithm tie_breaker force raw =>
      owned ← some_field "update" (opt_param "algorithm" algorithm ++ opt_param "tie_breaker" tie_breaker ++ opt_flag "force" force) raw;
      upid ← update_cluster_qdevice owned;
      says [("upid", JString upid)]
  | QdeviceDelete yes =>
      confirm yes "QDevice delete" ;;
      upid ← remove_cluster_qdevice;
      says [("upid", JString upid)]
  end.
Definition execute_bootstrap (action : ClusterBootstrapCommand) : Http Exit :=
  match action with
  | BootstrapNodes cmd => corosync_nodes cmd
  | BootstrapJoin cmd => cluster_join cmd
  | BootstrapQdevice cmd => cluster_qdevice cmd
  | BootstrapTotem => totem ← get_cluster_totem; done_with totem
  end.
End cluster.

(** ** cli/access.rs *)
Record NewUser := mkNewUser {
  nu_userid : string; nu_password : option string; nu_comment : option string; nu_email : option string;
  nu_firstname : option string; nu_lastname : option string; nu_groups : option string; nu_disabled : bool; nu_expire : option N }.
Inductive AccessCommand :=
  | AccessAcl (path : option string)
  | AccessUsers
  | AccessGroups
  | AccessRoles
  | AccessRealms
  | AccessTfa (userid : string)
  | AccessUserCreate (user : NewUser)
  | AccessUserUpdate (userid : string) (comment email firstname lastname groups : option string) (enable disable : bool) (expire : option N)
  | AccessUserDelete (userid : string) (yes : bool)
  | AccessGroupCreate (groupid : string) (comment : option string)
  | AccessGroupDelete (groupid : string) (yes : bool)
  | AccessAclSet (path role : string) (user group token : option string) (no_propagate : bool)
  | AccessAclUnset (path role : string) (user group token : option string) (yes : bool)
  | AccessPermissions (userid path : option string)
  | AccessPassword (userid password : string).
Inductive TokenCommand :=
  | TokenList (userid : string)
  | TokenCreate (userid tokenid : string) (privsep : bool) (expire : option N) (comment : option string)
  | TokenRevoke (userid tokenid : string) (yes : bool)
  | TokenBootstrapCmd (args : TokenBootstrapArgs).

Section access.
Context `{Derives} `{DU : De User} `{DT : De TokenCreateResponse}.

Definition nobody (user group token : option string) : bool :=
  bool_decide (user = None) && bool_decide (group = None) && bool_decide (token = None).
Definition acl_set (path role : string) (user group token : option string) (no_propagate : bool) : Http Exit :=
  if nobody user group token then failed (bail "`access acl-set` requires exactly one of --user, --group, or --token")
  else
    modify_acl path role user group token (negb no_propagate) false ;;
    says [("path", JString path); ("role", JString role); ("user", or_null user); ("group", or_null group); ("token", or_null token);
          ("propagate", JBool (negb no_propagate)); ("status", JString "granted")].
Definition acl_unset (path role : string) (user group token : option string) : Http Exit :=
  if nobody user group token then failed (bail "`access acl-unset` requires exactly one of --user, --group, or --token")
  else
    modify_acl path role user group token true true ;;
    says [("path", JString path); ("role", JString role); ("user", or_null user); ("group", or_null group); ("token", or_null token);
          ("status", JString "revoked")].
Definition execute_access (action : AccessCommand) : Http Exit :=
  match action with
  | AccessAcl path =>
      acl ← list_acl (A := AclRow);
      done_with (JArray (acl_value <$> match path with Some p => filter (fun e => contains p (ac_path e) = true) acl | None => acl end))
  | AccessUsers => users ← list_users (A := Typed "User"); done_with (to_value users)
  | AccessGroups => groups ← list_groups (A := Typed "Group"); done_with (to_value groups)
  | AccessRoles => roles ← list_roles (A := Typed "Role") typed_key; done_with (to_value roles)
  | AccessRealms => realms ← list_realms (A := Typed "Realm") typed_key; done_with (to_value realms)
  | AccessTfa userid => tfa ← list_tfa (A := Typed "TfaEntry") userid; done_with (to_value tfa)
  | AccessUserCreate u =>
      create_user (nu_userid u) (nu_password u) (nu_comment u) (nu_email u) (nu_firstname u) (nu_lastname u)
        (if nu_disabled u then Some false else None) (nu_expire u) (nu_groups u) ;;
      says [("userid", JString (nu_userid u)); ("status", JString "created"); ("groups", or_null (nu_groups u));
            ("enabled", JBool (negb (nu_disabled u)))]
  | AccessUserUpdate userid comment email firstname lastname groups enable disable expire =>
      update_user userid comment email firstname lastname (if enable then Some true else if disable then Some false else None)
        expire groups ;;
      says [("userid", JString userid); ("status", JString "updated")]
  | AccessUserDelete userid yes =>
      confirm yes "user delete" ;;
      delete_user userid ;;
      says [("userid", JString userid); ("status", JString "deleted")]
  | AccessGroupCreate groupid comment =>
      create_group groupid comment ;;
      says [("groupid", JString groupid); ("status", JString "created")]
  | AccessGroupDelete groupid yes =>
      confirm yes "group delete" ;;
      delete_group groupid ;;
      says [("groupid", JString groupid); ("status", JString "deleted")]
  | AccessAclSet path role user group token no_propagate =>
      acl_set path role user group token no_propagate
  | AccessAclUnset path role user group token yes =>
      confirm yes "ACL unset" ;;
      acl_unset path role user group token
  | AccessPermissions userid path =>
      perms ← get_access_permissions userid path;
      says [("userid", or_null userid); ("path", or_null path); ("permissions", perms)]
  | AccessPassword userid password =>
      change_user_password userid password ;;
      says [("userid", JString userid); ("changed", JBool true)]
  end.
Definition execute_token (action : TokenCommand) : Http Exit :=
  match action with
  | TokenList userid => tokens ← list_user_tokens (A := Typed "ApiToken") userid; done_with (to_value tokens)
  | TokenCreate userid tokenid privsep expire comment =>
      tok ← create_token userid tokenid privsep expire comment;
      says [("userid", JString userid); ("tokenid", JString tokenid); ("privsep", JBool (at_privsep tok));
            ("expire", JNumber (Z.of_N (at_expire tok))); ("comment", JString (at_comment tok)); ("value", or_null (at_value tok));
            ("warning", JString "the token `value` is the secret and is shown ONCE — capture it now")]
  | TokenRevoke userid tokenid yes =>
      confirm yes "token revoke" ;;
      revoke_token userid tokenid ;;
      says [("userid", JString userid); ("tokenid", JString tokenid); ("status", JString "revoked")]
  | TokenBootstrapCmd _ => failed (bail "internal error: `token bootstrap` is handled before PxClient::new")
  end.

(** ** access/pveum.rs *)
Record PathPerms := mkPathPerms { pp_path : string; pp_privileges : list (string * bool) }.
Definition by_name {A} (a b : string * A) : comparison := String.compare a.1 b.1.
(** The flags of one path, as the [u8]s of a [BTreeMap]. *)
Fixpoint de_flags (m : list (string * Value)) : Result string (list (string * N)) :=
  match m with
  | [] => Ok []
  | (name, JNumber z) :: m' =>
      if bool_decide (0 <= z <= 255)%Z then rest ← de_flags m'; Ok ((name, Z.to_N z) :: rest)
      else Err "invalid value: integer out of range, expected u8"
  | _ :: _ => Err "invalid type, expected u8"
  end.
Fixpoint de_paths (m : list (string * Value)) : Result string (list (string * list (string * N))) :=
  match m with
  | [] => Ok []
  | (path, JObject flags) :: m' =>
      fs ← de_flags flags;
      rest ← de_paths m';
      Ok ((path, sort_by by_name fs) :: rest)
  | _ :: _ => Err "invalid type, expected a map"
  end.
Definition snippet (output : string) : string := " (stdout: " +:+ debug_str (take_chars 200 output) +:+ ")".
Fixpoint privileges_of (output path : string) (flags : list (string * N)) : Result AnyErr (list (string * bool)) :=
  match flags with
  | [] => Ok []
  | (name, f) :: rest =>
      if ((f =? 0) || (f =? 1))%N then ps ← privileges_of output path rest; Ok ((name, (f =? 1)%N) :: ps)
      else Err (bail ("invalid propagate flag " +:+ pretty f +:+ " for privilege " +:+ debug_str name +:+ " on " +:+ debug_str path
                      +:+ " in `pveum user permissions` output" +:+ snippet output))
  end.
Fixpoint paths_of (output : string) (raw : list (string * list (string * N))) : Result AnyErr (list PathPerms) :=
  match raw with
  | [] => Ok []
  | (path, flags) :: rest =>
      ps ← privileges_of output path flags;
      l ← paths_of output rest;
      Ok (mkPathPerms path (sort_by by_name ps) :: l)
  end.
Definition parse_user_permissions (from_str : string -> Result string Value) (userid output : string) : Result AnyErr (list PathPerms) :=
  let read := match from_str output with
              | Ok (JObject m) => de_paths m
              | Ok _ => Err "invalid type, expected a map"
              | Err e => Err e
              end in
  match read with
  | Err e => Err (bail ("failed to parse `pveum user permissions` JSON output for " +:+ userid +:+ ": " +:+ e +:+ snippet output))
  | Ok raw =>
      paths ← paths_of output (sort_by by_name raw);
      Ok (sort_by (fun a b => String.compare (pp_path a) (pp_path b)) paths)
  end.

(** ** cli/access.rs: [proxxx perms] *)
Definition shell_word_char (a : ascii) : bool := is_alnum a || bool_decide (a ∈ ["@"; "!"; "_"; "-"; "."]%char).
Definition shell_quote (s : string) : string :=
  if is_empty s then "''"
  else if all_bytes shell_word_char s then s
  else "'" +:+ escape_quotes s +:+ "'".
Definition perms_metachars : list ascii := ["`"; "$"; ";"; "&"; "|"; "010"; "013"]%char.
Definition perms_command (userid : string) : Result AnyErr string :=
  if existsb (fun a => has_char a userid) perms_metachars then Err (bail "userid contains shell metacharacters — refusing")
  else Ok ("pveum user permissions --output-format json -- " +:+ shell_quote userid).
Definition ensure_user_exists (userid : string) : Http unit :=
  r ← attempt (get_user userid);
  match r with
  | Ok _ => mret ()
  | Err e =>
      if is_missing_user e
      then failed (of_api (ApiError.NotFound ("/access/users/" +:+ userid +:+ ": user '" +:+ userid +:+ "' does not exist")))
      else Return (Err e)
  end.
Definition perms_value (userid : string) (paths : list PathPerms) : Value :=
  JObject [("userid", JString userid);
           ("paths", JArray ((fun pp => JObject [("path", JString (pp_path pp));
              ("privileges", JArray ((fun p : string * bool => JObject [("name", JString p.1); ("propagate", JBool p.2)]) <$> pp_privileges pp))])
              <$> paths))].
Definition resolve_perms_output (from_str : string -> Result string Value) (userid pveum_stdout : string) (path_filter : option string) : Http Exit :=
  perms ← checked (parse_user_permissions from_str userid pveum_stdout);
  ensure_user_exists userid ;;
  done_with (perms_value userid (match path_filter with Some p => filter (fun x => contains p (pp_path x) = true) perms | None => perms end)).
(** [exec] is what the pool answers to the command. *)
Definition execute_perms (from_str : string -> Result string Value) (exec : string -> Result AnyErr ExecResult) (userid : string)
    (path_filter : option string) : Http Exit :=
  cmd ← checked (perms_command userid);
  res ← checked (exec cmd);
  if negb (exec_ok res)
  then failed (bail ("pveum exited " +:+ show_code (exit_code res) +:+ ": " +:+ take_chars 500 (trim (stderr res))))
  else resolve_perms_output from_str userid (stdout res) path_filter.
End access.
