(* ===== verification/CliNode.v ===== *)
(** * Nodes, hardware and monitoring: cli/node.rs and cli/monitoring.rs

    The commands of the two files (of the second those that talk to the cluster
    only: not the alert daemon, which is in [Alerts], and not the metric series)
    with their arguments, and one program per command; of cli/vm.rs the
    snapshots and the files of the guest agent; and, of cli/mod.rs, the deletion
    of guests and the search. *)

From S2P Require Import Prelude.
From S2P Require Import Json.
From S2P Require Import ApiError.
From S2P Require Import Guest.
From S2P Require Import Alerts.
From S2P Require Import GuestPreflight.
From S2P Require Import Batch.
From S2P Require Import Hw.
From S2P Require Import Ha.
From S2P Require Import StateApply.
From S2P Require Import ApiClient.
From S2P Require Import ApiEndpoints.
From S2P Require Import Cli.

Inductive NodeShellKind := ShellTerm | ShellVnc | ShellSpice.
Inductive NodeCommand :=
  | NodeStartall (node : string)
  | NodeStopall (node : string) (yes : bool)
  | NodeSuspendall (node : string) (yes : bool)
  | NodeShell (node : string) (kind : NodeShellKind).
Inductive NodeDnsCommand := DnsGet | DnsSet (search : string) (dns1 dns2 dns3 : option string).
Inductive NodeHostsCommand := HostsGet | HostsSet (data : string) (digest : option string) (no_check : bool).
Inductive NodeTimeCommand := TimeGet | TimeSet (timezone : string).
Inductive NodeSubscriptionCommand := SubscriptionGet | SubscriptionSet (key : string) | SubscriptionRefresh | SubscriptionDelete (yes : bool).
Inductive NodeCertCommand :=
  | CertInfo
  | CertUpload (certificate key : string) (restart : bool)
  | CertDelete (restart yes : bool)
  | CertAcmeOrder (force : bool).
Inductive NodeSystemCommand :=
  | SysDns (cmd : NodeDnsCommand)
  | SysHosts (cmd : NodeHostsCommand)
  | SysJournal (since until lastentries : option N)
  | SysSyslog (start limit : option N) (since until service : option string)
  | SysTime (cmd : NodeTimeCommand)
  | SysWol
  | SysSubscription (cmd : NodeSubscriptionCommand)
  | SysCert (cmd : NodeCertCommand)
  | SysReport.
Inductive HwCommand := HwPci (node : string) | HwUsb (node : string) | HwConflicts (node : string).

Inductive MetricServersCommand :=
  | ServersList
  | ServersShow (id : string)
  | ServersCreate (id server_type server : string) (port : N) (influxdbproto proto organization bucket path token : option string)
      (raw : list string)
  | ServersUpdate (id server : string) (port : N) (disable : option bool) (raw : list string)
  | ServersDelete (id : string) (yes : bool).
Inductive NotificationEndpointCommand :=
  | EndpointList
  | EndpointCreate (endpoint_type name : string) (comment : option string) (raw : list string)
  | EndpointUpdate (endpoint_type name : string) (comment : option string) (disable : option bool) (raw : list string)
  | EndpointDelete (endpoint_type name : string) (yes : bool).
Inductive NotificationMatcherCommand :=
  | MatcherList
  | MatcherCreate (name : string) (target match_field match_severity : list string) (mode : option string)
      (invert_match : option bool) (comment : option string) (raw : list string)
  | MatcherUpdate (name : string) (target match_field match_severity : list string) (mode : option string)
      (invert_match disable : option bool) (comment : option string) (raw : list string)
  | MatcherDelete (name : string) (yes : bool).
Inductive NotificationsCommand :=
  | NotifyEndpoint (cmd : NotificationEndpointCommand)
  | NotifyMatcher (cmd : NotificationMatcherCommand)
  | NotifyTargets.
Inductive DisksCommand :=
  | DisksList (node : string)
  | DisksSmart (node disk : string)
  | DisksLvm (node : string)
  | DisksLvmthin (node : string)
  | DisksZfs (node : string).
Inductive HaCommand :=
  | HaGroups
  | HaGroupsLegacy
  | HaGroupCreate (group nodes : string) (restricted nofailback : bool) (comment : option string)
  | HaGroupUpdate (group : string) (nodes : option string) (restricted nofailback : option bool) (comment : option string)
  | HaGroupDelete (group : string) (yes : bool)
  | HaResources
  | HaStatus
  | HaStatusCurrent
  | HaPreview (node : string).
Inductive ReplicationCommand := ReplicationJobs | ReplicationStatusOf (node : string).
Inductive SnapshotCommand := SnapshotCreate (vmid : N) (name : string) | SnapshotDelete (vmid : N) (name : string).
Inductive QgaCommand := QgaRead (file : string) | QgaWrite (file content : string) | QgaNet.

Record GuestAgentFileContent := mkFileContent { fc_content : string; fc_truncated : bool }.
(** The derived deserialisers the monitoring commands use, and the order in
    which the set of online nodes yields its members. *)
Class MonitoringTypes := {
  de_ha_group :: De HaGroup; de_ha_resource :: De HaResource; de_cluster_entry :: De ClusterStatusEntry;
  de_file_content :: De GuestAgentFileContent;
  online_order : gset string -> list string;
}.

Section commands.
Context `{Derives} {K : Codecs} `{DP : De PciDevice} {DM : MonitoringTypes}.

Definition submitted (action upid : string) : Http Exit :=
  says [("action", JString action); ("status", JString "submitted"); ("upid", JString upid)].
Definition execute_node (action : NodeCommand) : Http Exit :=
  match action with
  | NodeStartall node => upid ← startall_node node; submitted "startall" upid
  | NodeStopall node yes =>
      confirm yes "node stopall" ;;
      upid ← stopall_node node;
      submitted "stopall" upid
  | NodeSuspendall node yes =>
      confirm yes "node suspendall" ;;
      upid ← suspendall_node node;
      submitted "suspendall" upid
  | NodeShell node ShellTerm => t ← get_node_termproxy (A := Typed "TermProxyTicket") node; done_with (written t)
  | NodeShell node ShellVnc => t ← get_node_vncshell (A := Typed "VncProxyTicket") node; done_with (written t)
  | NodeShell node ShellSpice => t ← get_node_spiceshell (A := Typed "SpiceTicket") node; done_with (written t)
  end.

Definition node_dns (node : string) (cmd : NodeDnsCommand) : Http Exit :=
  match cmd with
  | DnsGet => dns ← get_node_dns (A := Typed "NodeDns") node; done_with (written dns)
  | DnsSet search dns1 dns2 dns3 =>
      update_node_dns node ([("search", search)] ++ opt_param "dns1" dns1 ++ opt_param "dns2" dns2 ++ opt_param "dns3" dns3) ;;
      says [("updated", JBool true)]
  end.
Definition resolve_digest (node : string) (digest : option string) (no_check : bool) : Http (option string) :=
  if no_check then mret None
  else match digest with
       | Some d => mret (Some d)
       | None => h ← get_node_hosts (A := NodeHosts) node; mret (Some (nh_digest h))
       end.
Definition node_hosts (node : string) (cmd : NodeHostsCommand) : Http Exit :=
  match cmd with
  | HostsGet => h ← get_node_hosts (A := NodeHosts) node; done_with (hosts_value h)
  | HostsSet data digest no_check =>
      resolved_digest ← resolve_digest node digest no_check;
      update_node_hosts node data resolved_digest ;;
      says [("updated", JBool true)]
  end.
Definition node_time (node : string) (cmd : NodeTimeCommand) : Http Exit :=
  match cmd with
  | TimeGet => t ← get_node_time (A := Typed "NodeTime") node; done_with (written t)
  | TimeSet timezone =>
      update_node_timezone node timezone ;;
      says [("timezone", JString timezone)]
  end.
Definition node_subscription (node : string) (cmd : NodeSubscriptionCommand) : Http Exit :=
  match cmd with
  | SubscriptionGet => s ← get_node_subscription (A := Typed "NodeSubscription") node; done_with (written s)
  | SubscriptionSet key => set_node_subscription_key node key ;; says [("set", JBool true)]
  | SubscriptionRefresh => refresh_node_subscription node ;; says [("refreshed", JBool true)]
  | SubscriptionDelete yes =>
      confirm yes "node subscription delete" ;;
      delete_node_subscription node ;;
      says [("deleted", JBool true)]
  end.
Definition node_cert (node : string) (cmd : NodeCertCommand) : Http Exit :=
  match cmd with
  | CertInfo => info ← get_node_certificates_info (A := Typed "NodeCertificate") node; done_with (to_value info)
  | CertUpload certificate key restart =>
      upload_node_custom_certificate node [("certificates", certificate); ("key", key); ("restart", flag restart)] ;;
      says [("uploaded", JBool true); ("restarted", JBool restart)]
  | CertDelete restart yes =>
      confirm yes "node certificate delete" ;;
      delete_node_custom_certificate node restart ;;
      says [("deleted", JBool true); ("restarted", JBool restart)]
  | CertAcmeOrder force =>
      upid ← order_node_acme_certificate node force;
      says [("upid", JString upid); ("force", JBool force)]
  end.
Definition execute_system (node : string) (action : NodeSystemCommand) : Http Exit :=
  match action with
  | SysDns cmd => node_dns node cmd
  | SysHosts cmd => node_hosts node cmd
  | SysJournal since until lastentries =>
      lines ← get_node_journal node (opt_num "since" since ++ opt_num "until" until ++ opt_num "lastentries" lastentries);
      says [("node", JString node); ("count", JNumber (Z.of_nat (length lines))); ("lines", JArray (JString <$> lines))]
  | SysSyslog start limit since until service =>
      lines ← get_node_syslog (A := Typed "SyslogEntry") node (opt_num "start" start ++ opt_num "limit" limit ++ opt_param "since" since
                ++ opt_param "until" until ++ opt_param "service" service);
      done_with (to_value lines)
  | SysTime cmd => node_time node cmd
  | SysWol => mac ← wakeonlan_node node; says [("node", JString node); ("mac", JString mac)]
  | SysSubscription cmd => node_subscription node cmd
  | SysCert cmd => node_cert node cmd
  | SysReport =>
      txt ← get_node_report node;
      says [("node", JString node); ("bytes", JNumber (Z.of_nat (String.length txt))); ("report", JString txt)]
  end.

(** The configuration of every guest of the cluster, by its number. *)
Fixpoint guest_configs (guests : list Guest) (configs : gmap N (list (string * string))) : Http (gmap N (list (string * string))) :=
  match guests with
  | [] => mret configs
  | g :: rest =>
      cfg ← get_guest_config (g_node g) (g_vmid g) (g_guest_type g);
      guest_configs rest (<[g_vmid g := cfg]> configs)
  end.
Definition conflict_value (c : PciConflict) : Value :=
  match c with
  | DirectShared address vmids =>
      JObject [("kind", JString "direct_shared"); ("address", JString address);
               ("vmids", JArray ((fun v => JNumber (Z.of_N v)) <$> vmids))]
  | IommuGroupSplit group members =>
      JObject [("kind", JString "iommu_group_split"); ("group", JNumber group);
               ("members", JArray ((fun m : string * N => JObject [("address", JString m.1); ("vmid", JNumber (Z.of_N m.2))]) <$> members))]
  end.
Definition execute_hw (action : HwCommand) : Http Exit :=
  match action with
  | HwPci node => pci ← list_pci (A := Typed "PciDevice") node; done_with (to_value pci)
  | HwUsb node => usb ← list_usb (A := Typed "UsbDevice") node; done_with (to_value usb)
  | HwConflicts node =>
      pci ← list_pci (A := PciDevice) node;
      guests ← get_all_guests;
      configs ← guest_configs guests ∅;
      let conflicts := detect_pci_conflicts (scan_assignments (map_to_list configs)).1 pci in
      mret (JObject [("node", JString node); ("conflicts", JArray (conflict_value <$> conflicts));
                     ("count", JNumber (Z.of_nat (length conflicts)))],
            if bool_decide (conflicts = []) then 0%Z else 1%Z)
  end.

(** ** cli/monitoring.rs *)
Definition execute_metric_servers (action : MetricServersCommand) : Http Exit :=
  match action with
  | ServersList => servers ← list_metric_servers (A := Typed "MetricServer"); done_with (to_value servers)
  | ServersShow id => s ← get_metric_server (A := Typed "MetricServer") id; done_with (written s)
  | ServersCreate id server_type server port influxdbproto proto organization bucket path token raw =>
      owned ← params ([("type", server_type); ("server", server); ("port", pretty port)]
                      ++ opt_param "influxdbproto" influxdbproto ++ opt_param "proto" proto ++ opt_param "organization" organization
                      ++ opt_param "bucket" bucket ++ opt_param "path" path ++ opt_param "token" token) raw;
      create_metric_server id owned ;;
      says [("created", JString id)]
  | ServersUpdate id server port disable raw =>
      owned ← params ([("server", server); ("port", pretty port)] ++ opt_flag "disable" disable) raw;
      update_metric_server id owned ;;
      says [("updated", JString id)]
  | ServersDelete id yes =>
      confirm yes "metric-server delete" ;;
      delete_metric_server id ;;
      says [("deleted", JString id)]
  end.
(** The type of an endpoint that has none is that of the path it was listed under. *)
Definition with_endpoint_type (t : string) (e : Typed "NotificationEndpoint") : Typed "NotificationEndpoint" :=
  match written e with
  | JObject fs => mkTyped (JObject ((fun kv => if bool_decide (kv = ("type", JString "")) then ("type", JString t) else kv) <$> fs))
  | v => mkTyped v
  end.
Definition notification_endpoint (cmd : NotificationEndpointCommand) : Http Exit :=
  match cmd with
  | EndpointList => endpoints ← list_notification_endpoints with_endpoint_type; done_with (to_value endpoints)
  | EndpointCreate endpoint_type name comment raw =>
      owned ← params ([("name", name)] ++ opt_param "comment" comment) raw;
      create_notification_endpoint endpoint_type owned ;;
      says [("created", JBool true)]
  | EndpointUpdate endpoint_type name comment disable raw =>
      owned ← some_field "update" (opt_param "comment" comment ++ opt_flag "disable" disable) raw;
      update_notification_endpoint endpoint_type name owned ;;
      says [("updated", JString name)]
  | EndpointDelete endpoint_type name yes =>
      confirm yes "notification endpoint delete" ;;
      delete_notification_endpoint endpoint_type name ;;
      says [("deleted", JString name)]
  end.
Definition push_repeated (key : string) (items : list string) : Params := (fun v => (key, v)) <$> items.
Definition notification_matcher (cmd : NotificationMatcherCommand) : Http Exit :=
  match cmd with
  | MatcherList => matchers ← list_notification_matchers (A := Typed "NotificationMatcher"); done_with (to_value matchers)
  | MatcherCreate name target match_field match_severity mode invert_match comment raw =>
      owned ← params ([("name", name)] ++ push_repeated "target" target ++ push_repeated "match-field" match_field
                      ++ push_repeated "match-severity" match_severity ++ opt_param "mode" mode
                      ++ opt_flag "invert-match" invert_match ++ opt_param "comment" comment) raw;
      create_notification_matcher owned ;;
      says [("created", JBool true)]
  | MatcherUpdate name target match_field match_severity mode invert_match disable comment raw =>
      owned ← some_field "update" (push_repeated "target" target ++ push_repeated "match-field" match_field
                      ++ push_repeated "match-severity" match_severity ++ opt_param "mode" mode
                      ++ opt_flag "invert-match" invert_match ++ opt_flag "disable" disable ++ opt_param "comment" comment) raw;
      update_notification_matcher name owned ;;
      says [("updated", JString name)]
  | MatcherDelete name yes =>
      confirm yes "notification matcher delete" ;;
      delete_notification_matcher name ;;
      says [("deleted", JString name)]
  end.
Definition execute_notifications (action : NotificationsCommand) : Http Exit :=
  match action with
  | NotifyEndpoint cmd => notification_endpoint cmd
  | NotifyMatcher cmd => notification_matcher cmd
  | NotifyTargets => targets ← list_notification_targets (A := Typed "NotificationTarget"); done_with (to_value targets)
  end.
Definition execute_disks (action : DisksCommand) : Http Exit :=
  match action with
  | DisksList node => disks ← list_node_disks (A := Typed "Disk") node; done_with (to_value disks)
  | DisksSmart node disk => smart ← get_disk_smart (A := Typed "DiskSmart") node disk; done_with (written smart)
  | DisksLvm node => vgs ← list_node_lvm (A := Typed "LvmVolumeGroup") node; done_with (to_value vgs)
  | DisksLvmthin node => pools ← list_node_lvmthin (A := Typed "LvmThinPool") node; done_with (to_value pools)
  | DisksZfs node => pools ← list_node_zfs (A := Typed "ZfsPool") node; done_with (to_value pools)
  end.
Definition preview_value (p : FailoverPreview) : Value :=
  match p with
  | Relocate target priority => JObject [("kind", JString "relocate"); ("target", JString target); ("priority", JNumber priority)]
  | Stuck restricted chosen => JObject [("kind", JString "stuck"); ("restricted", JBool restricted); ("chosen", or_null chosen)]
  | NotAffected => JObject [("kind", JString "not_affected")]
  end.
(** What [ha preview] says of one resource; [nodes] is where each guest is. *)
Definition preview_row (groups : list HaGroup) (online : gset string) (nodes : gmap N string) (failed_node : string)
    (r : HaResource) : Value :=
  let cur := default "" (v ← HaResource_vmid r; nodes !! v) in
  let outcome := if is_empty cur then JObject [("kind", JString "unknown_current_node")]
                 else preview_value (preview_failover online_order r groups online cur failed_node) in
  JObject [("sid", JString (hr_sid r)); ("group", JString (hr_group r)); ("current_node", JString cur); ("outcome", outcome)].
Definition execute_ha (action : HaCommand) : Http Exit :=
  match action with
  | HaGroups => groups ← list_ha_groups (A := Typed "HaGroup"); done_with (to_value groups)
  | HaGroupsLegacy => groups ← list_ha_groups_legacy (A := Typed "HaGroup"); done_with (to_value groups)
  | HaGroupCreate group nodes restricted nofailback comment =>
      create_ha_group ([("group", group); ("nodes", nodes); ("restricted", flag restricted); ("nofailback", flag nofailback)]
                       ++ opt_param "comment" comment) ;;
      says [("created", JString group)]
  | HaGroupUpdate group nodes restricted nofailback comment =>
      let owned := opt_param "nodes" nodes ++ opt_flag "restricted" restricted ++ opt_flag "nofailback" nofailback
                   ++ opt_param "comment" comment in
      match owned with
      | [] => failed (bail "update needs at least one field")
      | _ => update_ha_group group owned ;; says [("updated", JString group)]
      end
  | HaGroupDelete group yes =>
      confirm yes "HA group delete" ;;
      delete_ha_group group ;;
      says [("deleted", JString group)]
  | HaResources => resources ← list_ha_resources (A := Typed "HaResource"); done_with (to_value resources)
  | HaStatus => status ← ha_manager_status (A := Typed "HaManagerStatus"); done_with (written status)
  | HaStatusCurrent =>
      entries ← get_ha_status_current (A := Typed "HaStatusEntry");
      says [("count", JNumber (Z.of_nat (length entries))); ("entries", to_value entries)]
  | HaPreview node =>
      groups ← list_ha_groups (A := HaGroup);
      resources ← list_ha_resources (A := HaResource);
      cluster ← cluster_status (A := ClusterStatusEntry);
      checked (require_cluster_member cluster node) ;;
      let online := online_nodes cluster in
      all_guests ← get_all_guests;
      let nodes := foldl (fun m g => <[g_vmid g := g_node g]> m) (∅ : gmap N string) all_guests in
      says [("failed_node", JString node); ("previews", JArray (preview_row groups online nodes node <$> resources))]
  end.
Definition execute_replication (action : ReplicationCommand) : Http Exit :=
  match action with
  | ReplicationJobs => jobs ← list_replication_jobs (A := Typed "ReplicationJob"); done_with (to_value jobs)
  | ReplicationStatusOf node => status ← list_replication_status (A := Typed "ReplicationStatus") node; done_with (to_value status)
  end.

(** ** cli/vm.rs: snapshots and the guest agent *)
Definition execute_snapshot (action : SnapshotCommand) : Http Exit :=
  let '(vmid, name, is_create) :=
    match action with SnapshotCreate vmid name => (vmid, name, true) | SnapshotDelete vmid name => (vmid, name, false) end in
  '(node, gt) ← find_guest vmid;
  upid ← if is_create then create_snapshot node vmid gt name else delete_snapshot node vmid gt name;
  says [("vmid", JNumber (Z.of_N vmid)); ("snapshot", JString name);
        ("action", JString (if is_create then "create" else "delete")); ("node", JString node); ("upid", JString upid);
        ("status", JString "success")].
Definition qga_on_lxc_message (vmid : N) (node : string) : string :=
  "qga commands require QEMU — vmid " +:+ pretty vmid +:+ " is an LXC, which has no guest agent. "
  +:+ "`proxxx ct interfaces " +:+ pretty vmid +:+ "` lists its network interfaces; "
  +:+ "`proxxx serial " +:+ pretty vmid +:+ " --node " +:+ node +:+ "` or `proxxx ssh " +:+ pretty vmid +:+ "` opens a shell in it".
Definition execute_qga (vmid : N) (action : QgaCommand) : Http Exit :=
  '(node, gt) ← find_guest vmid;
  match gt with
  | Lxc => failed (bail (qga_on_lxc_message vmid node))
  | Qemu =>
      match action with
      | QgaRead file =>
          res ← qemu_agent_file_read (A := GuestAgentFileContent) node vmid file;
          says [("file", JString file); ("content", JString (fc_content res)); ("truncated", JBool (fc_truncated res))]
      | QgaWrite file content =>
          qemu_agent_file_write node vmid file content ;;
          says [("file", JString file); ("bytes", JNumber (Z.of_nat (String.length content))); ("written", JBool true)]
      | QgaNet =>
          ifaces ← qemu_agent_network_get_interfaces (A := Typed "GuestAgentNetworkInterface") node vmid;
          says [("vmid", JNumber (Z.of_N vmid)); ("interfaces", to_value ifaces)]
      end
  end.

(** ** cli/mod.rs: deletion *)
Definition guest_map_of (guests : list Guest) : gmap N (string * GuestType) :=
  foldl (fun m g => <[g_vmid g := (g_node g, g_guest_type g)]> m) ∅ guests.
Definition vmid_value (v : N) : Value := JNumber (Z.of_N v).
Definition error_row (vmid : N) (message : string) : Value :=
  JObject [("vmid", vmid_value vmid); ("status", JString "error"); ("message", JString message)].
Fixpoint delete_each (guests : gmap N (string * GuestType)) (strict : bool) (vmids : list N) (rows : list Value) (has_failure : bool) : Http Exit :=
  match vmids with
  | [] => mret (JArray rows, if has_failure then 1%Z else 0%Z)
  | vmid :: rest =>
      match guests !! vmid with
      | None => delete_each guests strict rest (rows ++ [error_row vmid "guest not found"]) true
      | Some (node, gt) =>
          r ← attempt (delete_guest node vmid gt);
          match r with
          | Ok upid =>
              delete_each guests strict rest
                (rows ++ [JObject [("vmid", vmid_value vmid); ("status", JString "success"); ("node", JString node); ("upid", JString upid)]])
                has_failure
          | Err e =>
              let message := show_outer (to_any e) in
              if strict then failed (bail ("Strict mode: delete failed for " +:+ pretty vmid +:+ ": " +:+ message))
              else delete_each guests strict rest (rows ++ [error_row vmid message]) true
          end
      end
  end.
Definition execute_delete (vmids : list N) (strict : bool) : Http Exit :=
  guests ← get_all_guests;
  let guest_map := guest_map_of guests in
  let missing := filter (fun v => guest_map !! v = None) vmids in
  if strict && negb (bool_decide (missing = []))
  then failed (bail ("Strict mode: guests not found: " +:+ debug_vmids missing))
  else delete_each guest_map strict vmids [] false.

(** ** cli/mod.rs: search *)
Definition node_status_label (s : NodeStatus) : string := match s with Online => "online" | Offline => "offline" | Alerts.Unknown => "unknown" end.
Definition guest_status_label (s : GuestStatus) : string :=
  match s with Running => "running" | Stopped => "stopped" | Paused => "paused" | Suspended => "suspended" | Guest.Unknown => "unknown" end.
(** [lower] is [str::to_lowercase]. *)
Definition search_rows (lower : string -> string) (nodes : list Node) (guests : list Guest) (storage : list StoragePool) (query : string)
    (limit : nat) : list Value :=
  let hit hay := contains (lower query) (lower hay) in
  let gs := omap (fun g =>
    let status := guest_status_label (g_status g) in
    let kind := type_path (g_guest_type g) in
    if hit (join " " [pretty (g_vmid g); g_name g; g_tags g; status; g_node g; kind])
    then Some (JObject [("kind", JString "guest"); ("vmid", vmid_value (g_vmid g)); ("name", JString (g_name g)); ("node", JString (g_node g));
                        ("status", JString status); ("type", JString kind); ("tags", JString (g_tags g))])
    else None) guests in
  let ns := omap (fun n =>
    let status := node_status_label (Alerts.status n) in
    if hit (join " " [node n; status])
    then Some (JObject [("kind", JString "node"); ("name", JString (node n)); ("status", JString status)]) else None) nodes in
  let ss := omap (fun s =>
    if hit (join " " [sp_storage s; sp_type s; sp_content s])
    then Some (JObject [("kind", JString "storage"); ("name", JString (sp_storage s)); ("type", JString (sp_type s))]) else None) storage in
  take limit (gs ++ ns ++ ss).
Definition execute_search (lower : string -> string) (query : string) (limit : nat) : Http Exit :=
  nodes ← get_nodes;
  all_guests ← get_all_guests;
  all_storage ← get_all_storage_pools;
  done_with (JArray (search_rows lower nodes all_guests all_storage query limit)).
End commands.
