(* ===== verification/CliSpec.v ===== *)
(** * What a command may do

    [CliCommand] is the commands whose requests are modelled, as one type with
    the dispatch of cli/mod.rs: those of cli/firewall.rs, storage.rs (without
    PBS), cluster.rs, access.rs and node.rs, of monitoring.rs the HA groups,
    replication, disks, metric servers and notifications, and of vm.rs the
    snapshots and the files of the guest agent.  What holds of all of them,
    whatever the cluster answers: nothing is destroyed without [--yes] (but for
    the deletion of a snapshot, which has no such flag) or under [--secure], a
    command makes at most one change, and [--raw] overrides the typed flags.

    [Command] adds every other command, with the arguments its classification
    reads: [cli_hitl_action] and the refusals of [--secure] are complete.  Not
    modelled as requests, and not in those statements: the calls on several
    guests (in [Batch]; the deletion of guests has its own lemma here), the
    settings of guests and containers, migration, PBS, patching, schedules,
    incidents, [state] and [reconcile] (in [StateApply] and [Reconcile]), and
    the commands that only read or run locally. *)

From S2P Require Import Prelude.
From S2P Require Import Json.
From S2P Require Import ApiError.
From S2P Require Import Utf8.
From S2P Require Import Mac.
From S2P Require Import Guest.
From S2P Require Import Alerts.
From S2P Require Import Hw.
From S2P Require Import GuestLookup.
From S2P Require Import Gateway.
From S2P Require Import StateApply.
From S2P Require Import SshExec.
From S2P Require Import ApiClient.
From S2P Require Import ApiEndpoints.
From S2P Require Import ApiRoutes.
From S2P Require Import ApiClientSpec.
From S2P Require Import TuiHitl.
From S2P Require Import TokenBootstrap.
From S2P Require Import Cli.
From S2P Require Import CliFirewall.
From S2P Require Import CliStorage.
From S2P Require Import CliCluster.
From S2P Require Import CliNode.

Inductive CliCommand :=
  | Firewall (scope : FirewallScope)
  | FirewallCluster (action : FirewallClusterCommand)
  | FirewallGuest (vmid : N) (action : FirewallGuestCommand)
  | ClusterMapping (action : ClusterMappingCommand)
  | Storage (action : StorageCommand)
  | BackupJobs (action : BackupJobsCommand)
  | StorageDefs (action : StorageDefsCommand)
  | Acme (action : AcmeCommand)
  | Aplinfo (action : AplinfoCommand)
  | Iso (action : IsoCommand)
  | Pool (action : PoolCommand)
  | ClusterResources (kind : option ResourceKind)
  | PveVersion
  | ClusterConfig (action : ClusterConfigCommand)
  | ClusterLog (max : option N)
  | ClusterBootstrap (action : ClusterBootstrapCommand)
  | Access (action : AccessCommand)
  | Token (action : TokenCommand)
  | NodePower (action : NodeCommand)
  | NodeSystem (node : string) (action : NodeSystemCommand)
  | Hw (action : HwCommand)
  | MetricServers (action : MetricServersCommand)
  | Notifications (action : NotificationsCommand)
  | Disks (action : DisksCommand)
  | Ha (action : HaCommand)
  | Replication (action : ReplicationCommand)
  | Snapshot (action : SnapshotCommand)
  | Qga (vmid : N) (action : QgaCommand).

(** The other commands; of their arguments, those the classification reads. *)
Inductive VmCommand :=
  | VmSet | VmRawSet | VmCloudinitSet | VmCloudinitRegen | VmCloudinitDump | VmSendkey | VmUnlink | VmCreate.
Inductive CtCommand := CtSet | CtInterfaces | CtCreate | CtRawSet.
Inductive DiskCommand := DiskMove | DiskResize.
Inductive PatchCommand := PatchPlanCmd | PatchRepositories | PatchChangelog | PatchVersions | PatchApply.
Inductive PbsCommand := PbsPing | PbsDatastores | PbsSnapshots | PbsFiles | PbsRestore.
Inductive CloudImgCommand := CloudImgList | CloudImgDownload | CloudImgProvision.
Inductive AlertsCommand := AlertsEval | AlertsWatch | AlertsTest.
Inductive ScheduleCommand := ScheduleAdd | ScheduleList | SchedulePause | ScheduleResume | ScheduleRunDue | ScheduleRemove.
Inductive IncidentCommand := IncidentFreeze | IncidentThaw | IncidentStatus.
Inductive AuditAction := AuditLogCmd | AuditExport | AuditVerify | AuditRotateKey.
Inductive StateCommand := StateExportCmd | StateDiffCmd | StateApplyCmd.
Inductive ReconcileCommand := ReconcileRun | ReconcileConverge.
Inductive Command :=
  | Cli (cmd : CliCommand)
  | CmdStart | CmdResume | CmdClone | CmdStop | CmdRestart | CmdDelete | CmdSuspend | CmdMigrate | CmdExec | CmdTemplate
  | CmdTaskStop
  | CmdBackup (mode : string)
  | CmdSsh (cmd : option string)
  | CmdDisk (action : DiskCommand) | CmdVm (action : VmCommand) | CmdCt (action : CtCommand)
  | CmdPatch (action : PatchCommand) | CmdPbs (action : PbsCommand) | CmdCloudImg (action : CloudImgCommand)
  | CmdAlerts (action : AlertsCommand) | CmdSchedule (action : ScheduleCommand) | CmdIncident (action : IncidentCommand)
  | CmdAudit (action : AuditAction) | CmdState (action : StateCommand) | CmdReconcile (action : ReconcileCommand)
  | CmdLs | CmdFind | CmdConfig | CmdTasks | CmdEvents | CmdLogs | CmdExplain | CmdDescribe | CmdDaemon | CmdUpgradeCheck
  | CmdAccounting | CmdHeatmap | CmdAnomaly | CmdBackupVerify | CmdImport | CmdGpuInspect | CmdFeature | CmdUrlInfo | CmdWatch
  | CmdReplay | CmdSearch | CmdHitl | CmdMcp | CmdMetrics | CmdVnc | CmdSpice | CmdNovnc | CmdSerial | CmdPlayCast | CmdPerms
  | CmdDevPanic | CmdVersion | CmdProfiles | CmdInit | CmdCompletions | CmdFleet | CmdDoctor | CmdNetwork.

Section execute.
Context `{D : Derives} {K : Codecs} `{DU : De User} `{DT : De TokenCreateResponse} `{DP : De PciDevice} {DM : MonitoringTypes}.
Definition execute (cmd : CliCommand) : Http Exit :=
  match cmd with
  | Firewall scope => execute_firewall scope
  | FirewallCluster action => execute_firewall_cluster action
  | FirewallGuest vmid action => execute_firewall_guest vmid action
  | ClusterMapping action => execute_cluster_mapping action
  | Storage action => execute_storage action
  | BackupJobs action => execute_backup_jobs action
  | StorageDefs action => execute_storage_defs action
  | Acme action => execute_acme action
  | Aplinfo action => execute_aplinfo action
  | Iso action => execute_iso action
  | Pool action => execute_pool action
  | ClusterResources kind => execute_resources kind
  | PveVersion => execute_pve_version
  | ClusterConfig action => execute_config action
  | ClusterLog max => execute_log max
  | ClusterBootstrap action => execute_bootstrap action
  | Access action => execute_access action
  | Token action => execute_token action
  | NodePower action => execute_node action
  | NodeSystem node action => execute_system node action
  | Hw action => execute_hw action
  | MetricServers action => execute_metric_servers action
  | Notifications action => execute_notifications action
  | Disks action => execute_disks action
  | Ha action => execute_ha action
  | Replication action => execute_replication action
  | Snapshot action => execute_snapshot action
  | Qga vmid action => execute_qga vmid action
  end.
(** The program of a command, where it is modelled.  [token bootstrap] runs
    before there is a client and is in [TokenBootstrap]. *)
Definition program_of (cmd : Command) : option (Http Exit) :=
  match cmd with
  | Cli (Token (TokenBootstrapCmd _)) => None
  | Cli cmd => Some (execute cmd)
  | _ => None
  end.
End execute.

(** The action a command is listed under: the arms of [cli_hitl_action] for the
    commands of [CliCommand], then all of them. *)
Definition modelled_hitl_action (cmd : CliCommand) : option string :=
  match cmd with
  | NodePower (NodeStartall _) | NodePower (NodeShell _ _) => None
  | NodePower (NodeStopall _ _) => Some "node_stopall"
  | NodePower (NodeSuspendall _ _) => Some "node_suspendall"
  | NodeSystem _ (SysSubscription (SubscriptionDelete _)) => Some "node_subscription_delete"
  | NodeSystem _ (SysCert (CertDelete _ _)) => Some "node_cert_delete"
  | NodeSystem _ _ => None
  | Hw _ => None
  | ClusterMapping (MapPci (PciDelete _ _)) => Some "cluster_mapping_pci_delete"
  | ClusterMapping (MapUsb (UsbDelete _ _)) => Some "cluster_mapping_usb_delete"
  | ClusterMapping _ => None
  | ClusterConfig _ => None
  | ClusterBootstrap BootstrapTotem | ClusterBootstrap (BootstrapNodes CorosyncList)
  | ClusterBootstrap (BootstrapJoin (JoinInfo _)) | ClusterBootstrap (BootstrapQdevice QdeviceGet) => None
  | ClusterBootstrap (BootstrapNodes (CorosyncAdd _ _ _ _ _ _ _)) => Some "corosync_node_add"
  | ClusterBootstrap (BootstrapNodes (CorosyncRemove _ _)) => Some "corosync_node_remove"
  | ClusterBootstrap (BootstrapJoin (Join _ _ _ _ _ _ _)) => Some "cluster_join"
  | ClusterBootstrap (BootstrapQdevice (QdeviceSetup _ _ _ _ _ _)) => Some "qdevice_setup"
  | ClusterBootstrap (BootstrapQdevice (QdeviceUpdate _ _ _ _)) => Some "qdevice_update"
  | ClusterBootstrap (BootstrapQdevice (QdeviceDelete _)) => Some "qdevice_delete"
  | FirewallCluster (FwAlias (AliasUpdate _ _ _ _ _)) => Some "firewall_alias_update"
  | FirewallCluster (FwAlias (AliasDelete _ _)) => Some "firewall_alias_delete"
  | FirewallCluster (FwGroup (GroupDelete _ _)) => Some "firewall_group_delete"
  | FirewallCluster (FwIpset (IpsetAddCidr _ _ _ _ _)) => Some "firewall_ipset_add_cidr"
  | FirewallCluster (FwIpset (IpsetDelete _ _)) => Some "firewall_ipset_delete"
  | FirewallCluster (FwIpset (IpsetRemoveCidr _ _ _)) => Some "firewall_ipset_remove_cidr"
  | FirewallCluster (FwOptions (OptionsSet _ _ _ _ _ _)) => Some "firewall_options_set"
  | FirewallCluster _ => None
  | FirewallGuest _ (FgAlias (GuestAliasUpdate _ _ _ _ _)) => Some "guest_firewall_alias_update"
  | FirewallGuest _ (FgAlias (GuestAliasDelete _ _)) => Some "guest_firewall_alias_delete"
  | FirewallGuest _ (FgOptions (GuestOptionsSet _ _ _ _ _ _ _ _ _ _ _)) => Some "guest_firewall_options_set"
  | FirewallGuest _ _ => None
  | Firewall _ => None
  | Pool (PoolRemoveMembers _ _ _) => Some "pool_remove_members"
  | Pool (PoolDelete _ _) => Some "pool_delete"
  | Pool _ => None
  | Access (AccessUserUpdate _ _ _ _ _ _ _ _ _) => Some "user_update"
  | Access (AccessUserDelete _ _) => Some "user_delete"
  | Access (AccessGroupDelete _ _) => Some "group_delete"
  | Access (AccessAclUnset _ _ _ _ _ _) => Some "acl_unset"
  | Access (AccessPassword _ _) => Some "access_password"
  | Access _ => None
  | Token (TokenList _) | Token (TokenCreate _ _ _ _ _) => None
  | Token (TokenRevoke _ _ _) => Some "token_revoke"
  | Token (TokenBootstrapCmd args) => if ta_rotate args then Some "token_bootstrap_rotate" else None
  | Storage (StorageUpload _ _ _ _ _ _) => None
  | Storage (StorageDelete _ _ _ _) => Some "storage_delete"
  | StorageDefs (DefsUpdate _ _ _ _ _ _ _ _) => Some "storage_def_update"
  | StorageDefs (DefsDelete _ _) => Some "storage_def_delete"
  | StorageDefs _ => None
  | BackupJobs (JobsDelete _ _) => Some "backup_job_delete"
  | BackupJobs _ => None
  | Iso _ => None
  | Aplinfo _ => None
  | Acme (AcmeAccount (AccountDelete _ _)) => Some "acme_account_delete"
  | Acme (AcmePlugin (PluginDelete _ _)) => Some "acme_plugin_delete"
  | Acme _ => None
  | MetricServers (ServersDelete _ _) => Some "metric_server_delete"
  | MetricServers _ => None
  | Notifications (NotifyEndpoint (EndpointDelete _ _ _)) => Some "notification_endpoint_delete"
  | Notifications (NotifyMatcher (MatcherDelete _ _)) => Some "notification_matcher_delete"
  | Notifications _ => None
  | Ha (HaGroupDelete _ _) => Some "ha_group_delete"
  | Ha _ => None
  | Snapshot (SnapshotCreate _ _) => Some "snapshot"
  | Snapshot (SnapshotDelete _ _) => Some "snapshot_delete"
  | Qga _ (QgaWrite _ _) => Some "qga_write"
  | Qga _ _ => None
  | ClusterResources _ | PveVersion | ClusterLog _ | Disks _ | Replication _ => None
  end.
Definition cli_hitl_action (cmd : Command) : option string :=
  match cmd with
  | Cli cmd => modelled_hitl_action cmd
  | CmdStart => Some "start"
  | CmdResume | CmdClone => None
  | CmdStop => Some "stop"
  | CmdRestart => Some "restart"
  | CmdDelete => Some "delete"
  | CmdSuspend => Some "suspend"
  | CmdMigrate => Some "migrate"
  | CmdExec => Some "exec"
  | CmdTemplate => Some "template"
  | CmdTaskStop => Some "task_stop"
  | CmdBackup mode => if bool_decide (mode ∈ ["stop"; "suspend"]) then Some "backup_stop" else None
  | CmdDisk DiskMove => Some "move_disk"
  | CmdDisk DiskResize => Some "resize_disk"
  | CmdSsh cmd => match cmd with Some _ => Some "ssh_cmd" | None => None end
  | CmdVm (VmSet | VmCloudinitSet | VmCloudinitRegen | VmCloudinitDump | VmCreate) => None
  | CmdVm VmRawSet => Some "vm_raw_set"
  | CmdVm VmSendkey => Some "vm_sendkey"
  | CmdVm VmUnlink => Some "vm_unlink"
  | CmdCt (CtSet | CtInterfaces | CtCreate) => None
  | CmdCt CtRawSet => Some "ct_raw_set"
  | CmdPatch (PatchPlanCmd | PatchRepositories | PatchChangelog | PatchVersions) => None
  | CmdPatch PatchApply => Some "patch_apply"
  | CmdPbs (PbsPing | PbsDatastores | PbsSnapshots | PbsFiles) => None
  | CmdPbs PbsRestore => Some "pbs_restore"
  | CmdCloudImg _ | CmdAlerts _ => None
  | CmdSchedule ScheduleRemove => Some "schedule_remove"
  | CmdSchedule _ => None
  | CmdIncident _ | CmdAudit _ => None
  | CmdState StateApplyCmd => Some "state_apply"
  | CmdState _ => None
  | CmdReconcile ReconcileConverge => Some "reconcile_converge"
  | CmdReconcile ReconcileRun => None
  | CmdLs | CmdFind | CmdConfig | CmdTasks | CmdEvents | CmdLogs | CmdExplain | CmdDescribe | CmdDaemon | CmdUpgradeCheck
  | CmdAccounting | CmdHeatmap | CmdAnomaly | CmdBackupVerify | CmdImport | CmdGpuInspect | CmdFeature | CmdUrlInfo | CmdWatch
  | CmdReplay | CmdSearch | CmdHitl | CmdMcp | CmdMetrics | CmdVnc | CmdSpice | CmdNovnc | CmdSerial | CmdPlayCast | CmdPerms
  | CmdDevPanic | CmdVersion | CmdProfiles | CmdInit | CmdCompletions | CmdFleet | CmdDoctor | CmdNetwork => None
  end.
(** The refusal, by its text. *)
Definition enforce_cli_secure_mode (cmd : Command) (secure : bool) : Result AnyErr unit :=
  match cli_hitl_action cmd with
  | Some action =>
      if secure && is_destructive_action action
      then Err (bail ("--secure: " +:+ action +:+ " requires human approval, which the CLI does not implement yet; "
                      +:+ "run it from the TUI with --secure, or drop --secure"))
      else Ok ()
  | None => Ok ()
  end.

(** Whether [--yes] was given. *)
Definition confirmed (cmd : CliCommand) : bool :=
  match cmd with
  | FirewallCluster (FwAlias (AliasDelete _ yes)) | FirewallCluster (FwGroup (GroupDelete _ yes))
  | FirewallCluster (FwIpset (IpsetDelete _ yes)) | FirewallCluster (FwIpset (IpsetRemoveCidr _ _ yes))
  | FirewallGuest _ (FgAlias (GuestAliasDelete _ yes)) | ClusterMapping (MapPci (PciDelete _ yes))
  | ClusterMapping (MapUsb (UsbDelete _ yes)) | Storage (StorageDelete _ _ yes _) | BackupJobs (JobsDelete _ yes)
  | StorageDefs (DefsDelete _ yes) | Acme (AcmeAccount (AccountDelete _ yes)) | Acme (AcmePlugin (PluginDelete _ yes))
  | Pool (PoolDelete _ yes) | ClusterBootstrap (BootstrapNodes (CorosyncRemove _ yes))
  | ClusterBootstrap (BootstrapQdevice (QdeviceDelete yes)) | Access (AccessUserDelete _ yes) | Access (AccessGroupDelete _ yes)
  | Access (AccessAclUnset _ _ _ _ _ yes) | Token (TokenRevoke _ _ yes) | NodePower (NodeStopall _ yes)
  | NodePower (NodeSuspendall _ yes) | NodeSystem _ (SysSubscription (SubscriptionDelete yes))
  | NodeSystem _ (SysCert (CertDelete _ yes)) | MetricServers (ServersDelete _ yes)
  | Notifications (NotifyEndpoint (EndpointDelete _ _ yes)) | Notifications (NotifyMatcher (MatcherDelete _ yes))
  | Ha (HaGroupDelete _ yes) => yes
  | _ => false
  end.
(** The one command that deletes and has no [--yes]. *)
Definition has_no_yes (cmd : CliCommand) : bool := match cmd with Snapshot (SnapshotDelete _ _) => true | _ => false end.
(** The commands that change nothing. *)
Definition only_looks (cmd : CliCommand) : bool :=
  match cmd with
  | Firewall _ | ClusterResources _ | PveVersion | ClusterLog _ | Hw _ | Disks _ | Replication _ => true
  | MetricServers ServersList | MetricServers (ServersShow _) | Notifications (NotifyEndpoint EndpointList)
  | Notifications (NotifyMatcher MatcherList) | Notifications NotifyTargets | Ha HaGroups | Ha HaGroupsLegacy | Ha HaResources
  | Ha HaStatus | Ha HaStatusCurrent | Ha (HaPreview _) | Qga _ (QgaRead _) | Qga _ QgaNet => true
  | FirewallCluster (FwAlias AliasList) | FirewallCluster (FwGroup GroupList) | FirewallCluster (FwGroup (GroupRules _))
  | FirewallCluster (FwIpset IpsetList) | FirewallCluster (FwIpset (IpsetCidrs _)) | FirewallCluster (FwOptions OptionsGet)
  | FirewallGuest _ (FgAlias GuestAliasList) | FirewallGuest _ (FgOptions GuestOptionsGet)
  | ClusterMapping (MapPci PciList) | ClusterMapping (MapUsb UsbList)
  | BackupJobs JobsList | BackupJobs (JobsShow _) | BackupJobs JobsInfo | BackupJobs (JobsExtractConfig _ _)
  | StorageDefs DefsList | StorageDefs (DefsShow _)
  | Acme (AcmeAccount AccountList) | Acme (AcmeAccount (AccountShow _)) | Acme (AcmePlugin PluginList)
  | Acme (AcmePlugin (PluginShow _)) | Acme (AcmeTos _) | Acme AcmeDirectories | Acme AcmeChallengeSchema
  | Aplinfo (AplinfoList _) | Iso IsoList | Pool PoolList | Pool (PoolShow _) | ClusterConfig ConfigGet
  | ClusterBootstrap (BootstrapNodes CorosyncList) | ClusterBootstrap (BootstrapJoin (JoinInfo _))
  | ClusterBootstrap (BootstrapQdevice QdeviceGet) | ClusterBootstrap BootstrapTotem
  | Access (AccessAcl _) | Access AccessUsers | Access AccessGroups | Access AccessRoles | Access AccessRealms
  | Access (AccessTfa _) | Access (AccessPermissions _ _) | Token (TokenList _)
  | NodeSystem _ (SysDns DnsGet) | NodeSystem _ (SysHosts HostsGet) | NodeSystem _ (SysJournal _ _ _)
  | NodeSystem _ (SysSyslog _ _ _ _ _) | NodeSystem _ (SysTime TimeGet) | NodeSystem _ (SysSubscription SubscriptionGet)
  | NodeSystem _ (SysCert CertInfo) | NodeSystem _ SysReport => true
  | _ => false
  end.

(** ** Programs that read, and programs that change once *)
Definition a_read (m : Method) (path : Path) (params : Params) : Prop := m = GET.
(** On every run at most [n] requests that are no reads. *)
Fixpoint changes_at_most {A} (n : nat) (p : Http A) : Prop :=
  match p with
  | Return _ => True
  | Request GET _ _ k => forall r, changes_at_most n (k r)
  | Request _ _ _ k => match n with 0 => False | S n' => forall r, changes_at_most n' (k r) end
  | PostWithin _ _ k => match n with 0 => False | S n' => forall r, changes_at_most n' (k r) end
  | UploadFile _ _ _ k => match n with 0 => False | S n' => forall r, changes_at_most n' (k r) end
  | Now k => forall t, changes_at_most n (k t)
  | Sleep _ k => changes_at_most n k
  end.
Lemma reads_change_nothing {A} (p : Http A) n : sends a_read p -> changes_at_most n p.
Proof.
  unfold a_read. induction p as [r|m path ps k IH|path ps k IH|path ct fn k IH|k IH|ms k IH]; simpl; [done|..]; intros H.
  - destruct H as [-> H]. intros r. by apply IH.
  - by destruct H.
  - by destruct H.
  - intros t. by apply IH.
  - by apply IH.
Qed.
Lemma changes_http_bind {A B} n m (p : Http A) (f : Result CallError A -> Http B) :
  changes_at_most n p -> (forall r, changes_at_most m (f r)) -> changes_at_most (n + m) (http_bind p f).
Proof.
  intros Hp Hf. revert n Hp. induction p as [r|v path ps k IH|path ps k IH|path ct fn k IH|k IH|ms k IH]; intros n; simpl.
  - intros _. specialize (Hf r). clear -Hf. revert n m Hf. generalize (f r) as p.
    induction p as [r'|v path ps k IH|path ps k IH|path ct fn k IH|k IH|ms k IH]; intros n m; simpl; [done|..].
    + destruct v; [intros H r'; by apply IH|..]; (destruct m as [|m]; [done|]; rewrite <-plus_n_Sm; intros H r'; by apply IH).
    + destruct m as [|m]; [done|]; rewrite <-plus_n_Sm; intros H r'; by apply IH.
    + destruct m as [|m]; [done|]; rewrite <-plus_n_Sm; intros H r'; by apply IH.
    + intros H t. by apply IH.
    + intros H. by apply IH.
  - destruct v; [intros H r; by apply IH|..]; (destruct n as [|n]; [done|]; simpl; intros H r; by apply IH).
  - destruct n as [|n]; [done|]; simpl; intros H r; by apply IH.
  - destruct n as [|n]; [done|]; simpl; intros H r; by apply IH.
  - intros H t. by apply IH.
  - intros H. by apply IH.
Qed.
Lemma changes_mbind {A B} n m (p : Http A) (f : A -> Http B) :
  changes_at_most n p -> (forall a, changes_at_most m (f a)) -> changes_at_most (n + m) (p ≫= f).
Proof. intros Hp Hf. apply changes_http_bind; [done|]. intros []; [apply Hf|done]. Qed.

(** ** What the commands share *)
Section shared.
Context `{D : Derives} {K : Codecs}.
Lemma confirm_sends {A} (P : Method -> Path -> Params -> Prop) yes what (k : Http A) :
  (yes = true -> sends P k) -> sends P (confirm yes what ;; k).
Proof. destruct yes; simpl; [auto|done]. Qed.
Lemma confirm_changes {A} n yes what (k : Http A) : changes_at_most n k -> changes_at_most n (confirm yes what ;; k).
Proof. by destruct yes. Qed.
Lemma checked_sends {A B} (P : Method -> Path -> Params -> Prop) (r : Result AnyErr A) (k : A -> Http B) :
  (forall a, sends P (k a)) -> sends P (checked r ≫= k).
Proof. intros H. destruct r; [apply H|done]. Qed.
Lemma checked_changes {A B} n (r : Result AnyErr A) (k : A -> Http B) :
  (forall a, changes_at_most n (k a)) -> changes_at_most n (checked r ≫= k).
Proof. intros H. destruct r; [apply H|done]. Qed.

Ltac reads := repeat first [progress sends_step | exact eq_refl].
Lemma get_nodes_reads : sends a_read get_nodes.
Proof. reads. Qed.
Lemma get_guests_reads node : sends a_read (get_guests node).
Proof. reads. Qed.
Lemma get_all_guests_reads : sends a_read get_all_guests.
Proof.
  apply sends_mbind; [apply get_nodes_reads|]. intros nodes. generalize (@nil Guest).
  induction nodes as [|n nodes IH]; intros out; [done|]. cbn [guests_of]. destruct (is_online n); [|apply IH].
  apply sends_mbind; [apply get_guests_reads|]. intros gs. apply IH.
Qed.
Lemma list_nodes_reads vmid nodes : sends a_read (list_nodes vmid nodes).
Proof.
  induction nodes as [|n nodes IH]; [done|]. cbn [list_nodes]. apply sends_mbind; [apply sends_attempt, get_guests_reads|].
  intros [gs|e]; [destruct (existsb _ gs); [done|]|]; (apply sends_mbind; [exact IH|done]).
Qed.
Lemma walked_reads {A} (look : GuestLookupGateway -> Result AnyErr A) vmid resources first :
  sends a_read (walked look vmid resources first).
Proof.
  apply sends_mbind; [apply sends_attempt, get_nodes_reads|]. intros [ns|e]; [|done].
  apply sends_mbind; [apply list_nodes_reads|done].
Qed.
Lemma find_guest_reads vmid : sends a_read (Cli.find_guest vmid).
Proof.
  apply sends_mbind; [apply sends_attempt; reads|]. intros r. cbv zeta.
  destruct (find_guest_via_cluster_resources _ vmid) as [[loc|]|e]; [|done|apply walked_reads].
  destruct (bool_decide _); [|done]. apply sends_mbind; [apply sends_attempt, get_guests_reads|]. intros [gs|e]; [|done].
  cbn [any_err]. destruct (existsb _ gs); [done|apply walked_reads].
Qed.
Lemma wait_reads node upid : sends a_read (wait_and_classify node upid).
Proof.
  apply sends_mbind; [|done]. intros now. set (fuel := poll_fuel _). set (deadline := (now + _)%N). clearbody fuel deadline.
  induction fuel as [|fuel IH]; cbn [wait_loop]; (apply sends_mbind; [by apply sends_request|]); intros st;
    (destruct (is_done st); [done|]); intros t; (destruct (deadline <=? t)%N; [done|]); [done|exact IH].
Qed.
Lemma with_task_reads envelope node upid wait : sends a_read (with_task envelope node upid wait).
Proof. destruct wait; [|done]. destruct upid; [|done]. apply sends_mbind; [apply wait_reads|]. by intros []. Qed.
Lemma guest_configs_reads guests configs : sends a_read (guest_configs guests configs).
Proof.
  revert configs. induction guests as [|g guests IH]; intros configs; [done|]. cbn [guest_configs].
  apply sends_mbind; [reads|]. intros cfg. apply IH.
Qed.
Lemma endpoints_read {A} `{De A} (with_type : string -> A -> A) : sends a_read (list_notification_endpoints with_type).
Proof.
  unfold list_notification_endpoints. generalize (@nil A). induction NOTIFICATION_TYPES as [|t ts IH]; intros all; [done|].
  cbn [list_endpoints_of]. apply sends_mbind; [reads|]. intros l. apply IH.
Qed.
Lemma some_field_sends {B} P what typed raw (k : Params -> Http B) :
  (forall a, sends P (k a)) -> sends P (some_field what typed raw ≫= k).
Proof. intros H. destruct typed, raw; try done; by apply checked_sends. Qed.
Lemma some_field_changes {B} n what typed raw (k : Params -> Http B) :
  (forall a, changes_at_most n (k a)) -> changes_at_most n (some_field what typed raw ≫= k).
Proof. intros H. destruct typed, raw; try done; by apply checked_changes. Qed.
Lemma params_sends {B} P typed raw (k : Params -> Http B) : (forall a, sends P (k a)) -> sends P (params typed raw ≫= k).
Proof. apply checked_sends. Qed.
Lemma params_changes {B} n typed raw (k : Params -> Http B) :
  (forall a, changes_at_most n (k a)) -> changes_at_most n (params typed raw ≫= k).
Proof. apply checked_changes. Qed.
Lemma digest_reads node digest no_check : sends a_read (resolve_digest node digest no_check).
Proof. unfold resolve_digest. reads. Qed.
Lemma reads_send {A} (P : Method -> Path -> Params -> Prop) (p : Http A) :
  (forall path ps, P GET path ps) -> sends a_read p -> sends P p.
Proof. intros HP. apply sends_impl. intros m path ps _ ->. apply HP. Qed.
End shared.

(** ** Nothing is destroyed unasked *)
(** A deletion, the stop or suspension of every guest of a node, and the
    revocation of a role. *)
Inductive destructive : Method -> Path -> Params -> Prop :=
  | deletes path ps : destructive DELETE path ps
  | stops node q ps : destructive POST (mkPath [Lit "/nodes/"; Seg node; Lit "/stopall"] q) ps
  | suspends node q ps : destructive POST (mkPath [Lit "/nodes/"; Seg node; Lit "/suspendall"] q) ps
  | revokes q ps : ("delete", "1") ∈ ps -> destructive PUT (mkPath [Lit "/access/acl"] q) ps.
Definition only_if (c : bool) (m : Method) (path : Path) (ps : Params) : Prop := destructive m path ps -> c = true.
Lemma read_only_if c path ps : only_if c GET path ps.
Proof. intros H. inversion H. Qed.
Lemma grant_only_if c q path roles users groups tokens propagate :
  only_if c PUT (mkPath [Lit "/access/acl"] q)
    ([("path", path); ("roles", roles); ("propagate", flag propagate)] ++ opt_param "users" users ++ opt_param "groups" groups
     ++ opt_param "tokens" tokens ++ []).
Proof.
  intros H. inversion H as [| | |q' ps Hin]. exfalso. clear -Hin. revert Hin.
  destruct users, groups, tokens; simpl; rewrite ?elem_of_cons, ?elem_of_nil; intuition discriminate.
Qed.

Ltac reads_by H := eapply reads_send; [intros; apply read_only_if|apply H].
Ltac asks_step :=
  lazymatch goal with
  | |- sends _ (confirm _ _ ≫= _) => apply confirm_sends; intros ->
  | |- sends _ (params _ _ ≫= _) => apply params_sends; intros ?
  | |- sends _ (some_field _ _ _ ≫= _) => apply some_field_sends; intros ?
  | |- sends _ (checked _ ≫= _) => apply checked_sends; intros ?
  | |- sends _ (Cli.find_guest _) => reads_by find_guest_reads
  | |- sends _ get_all_guests => reads_by get_all_guests_reads
  | |- sends _ (guest_configs _ _) => reads_by guest_configs_reads
  | |- sends _ (with_task _ _ _ _) => reads_by with_task_reads
  | |- sends _ (resolve_digest _ _ _) => reads_by digest_reads
  | |- sends _ (list_notification_endpoints _) => reads_by @endpoints_read
  | |- sends _ (says _) => exact I
  | |- sends _ (done_with _) => exact I
  | |- only_if true _ _ _ => intros _; reflexivity
  | |- only_if _ GET _ _ => apply read_only_if
  | |- only_if _ PUT (mkPath [Lit "/access/acl"] _) _ => apply grant_only_if
  | |- only_if _ _ _ _ => let H := fresh in intros H; solve [inversion H]
  | |- sends _ _ => sends_step
  end.

Section commands.
Context `{D : Derives} {K : Codecs} `{DU : De User} `{DT : De TokenCreateResponse} `{DP : De PciDevice} {DM : MonitoringTypes}.

Ltac by_command cmd :=
  destruct cmd as [a|[a|a|a|a]|vmid [a|a]|[a|a]|a|a|a|[a|a|d| |]|a|a|a|k| |a|m|[a|a|a|]|a|a|a|node [a|a|s u l|s l i u v|a| |a|a|]|a
                  |a|[a|a|]|a|a|a|a|vmid a];
  try destruct a.
Ltac open_command :=
  cbn [confirmed has_no_yes orb only_looks execute execute_firewall_cluster execute_acme execute_bootstrap execute_system
       execute_cluster_mapping execute_notifications].
Lemma execute_asks cmd : sends (only_if (confirmed cmd || has_no_yes cmd)) (execute cmd).
Proof. by_command cmd; open_command; rewrite ?orb_false_r; repeat asks_step. Qed.

(** A command that passes [--secure] makes none of these requests. *)
Lemma secure_confirmed cmd : enforce_cli_secure_mode (Cli cmd) true = Ok () -> confirmed cmd || has_no_yes cmd = false.
Proof. by_command cmd; try destruct a; done. Qed.
Lemma secure_asks cmd : enforce_cli_secure_mode (Cli cmd) true = Ok () -> sends (only_if false) (execute cmd).
Proof. intros H%secure_confirmed. rewrite <-H. apply execute_asks. Qed.
Lemma dispatch_execute cmd p : program_of cmd = Some p -> exists c, cmd = Cli c /\ p = execute c.
Proof.
  destruct cmd; try done. destruct cmd; try (intros [= <-]; by eauto).
  destruct action; try done; intros [= <-]; eauto.
Qed.

(** Every name a command is listed under is one [--secure] refuses, but for the
    start of a guest and the creation of a snapshot. *)
Lemma listed_is_destructive cmd name :
  cli_hitl_action cmd = Some name -> name ∈ ["start"; "snapshot"] \/ enforce_cli_secure_mode cmd true <> Ok ().
Proof.
  intros H. destruct (is_destructive_action name) eqn:Ed.
  { right. unfold enforce_cli_secure_mode. by rewrite H, Ed. }
  left. revert H Ed. destruct cmd; cbn [cli_hitl_action].
  { by_command cmd; try destruct a; cbn [modelled_hitl_action]; repeat case_match; intros [= <-]; vm_compute; try done; set_solver. }
  all: repeat case_match; intros [= <-]; vm_compute; try done; set_solver.
Qed.

(** ** One change *)
Ltac read_done :=
  apply reads_change_nothing;
  first [apply find_guest_reads|apply wait_reads|apply get_all_guests_reads|apply guest_configs_reads|apply with_task_reads|apply digest_reads|apply endpoints_read
        |repeat first [progress sends_step|exact eq_refl]].
Ltac one_change :=
  repeat first
    [exact I
    |intros ?; exact I
    |lazymatch goal with
     | |- changes_at_most _ (match ?x with _ => _ end) => destruct x
     | |- changes_at_most 1 (ignore _) => apply (changes_mbind 1 0)
     | |- changes_at_most 1 (_ ≫= _) => apply (changes_mbind 1 0)
     | |- changes_at_most 1 ?p => let h := head_of p in unfold h; cbv zeta beta
     end].
Ltac changes_step :=
  lazymatch goal with
  | |- changes_at_most _ (confirm _ _ ≫= _) => apply confirm_changes
  | |- changes_at_most _ (params _ _ ≫= _) => apply params_changes; intros ?
  | |- changes_at_most _ (some_field _ _ _ ≫= _) => apply some_field_changes; intros ?
  | |- changes_at_most _ (checked _ ≫= _) => apply checked_changes; intros ?
  | |- changes_at_most _ (says _) => exact I
  | |- changes_at_most _ (done_with _) => exact I
  | |- changes_at_most _ (failed _) => exact I
  | |- changes_at_most _ (mret _) => exact I
  | |- changes_at_most _ (match ?x with _ => _ end) => destruct x
  | |- changes_at_most 0 (_ ≫= _) => apply (changes_mbind 0 0); [solve [read_done]|intros ?]
  | |- changes_at_most 1 (?p ≫= _) =>
      first [apply (changes_mbind 0 1); [solve [read_done]|intros ?]
            |apply (changes_mbind 1 0); [solve [one_change]|intros ?]]
  | |- changes_at_most _ ?p => let h := head_of p in unfold h; cbv zeta beta
  end.
Lemma execute_changes cmd : changes_at_most (if only_looks cmd then 0 else 1) (execute cmd).
Proof. by_command cmd; open_command; repeat changes_step. Qed.
(** C19: a command of [CliCommand] (see there for the commands this is about;
    the ones that act on several guests or send a plan of changes are not among
    them, and neither is [token bootstrap]) makes at most one request that is
    not a read, whatever the cluster answers, and one that lists, shows or
    checks makes none. *)
Theorem cli_changes_once cmd p :
  program_of (Cli cmd) = Some p -> changes_at_most (if only_looks cmd then 0 else 1) p.
Proof. intros (? & [= <-] & ->)%dispatch_execute. apply execute_changes. Qed.
End commands.

(** The deletion of guests: the only changes are deletions of guests that were named. *)
Definition deletes_one_of (vmids : list N) (m : Method) (path : Path) (ps : Params) : Prop :=
  m = GET \/ m = DELETE /\ exists node vmid gt, vmid ∈ vmids
    /\ path = mkPath [Lit "/nodes/"; Seg node; Lit "/"; Lit (type_path gt); Lit "/"; Num vmid] [].
Lemma delete_asks `{D : Derives} vmids strict : sends (deletes_one_of vmids) (execute_delete vmids strict).
Proof.
  assert (forall guests l rows failure, (forall v, v ∈ l -> v ∈ vmids) -> sends (deletes_one_of vmids) (delete_each guests strict l rows failure)) as Hd.
  { intros guests l. induction l as [|v l IH]; intros rows failure Hl; [done|]. cbn [delete_each].
    assert (forall x, x ∈ l -> x ∈ vmids) as Hl' by (intros x Hx; apply Hl; by right).
    destruct (guests !! v) as [[node gt]|]; [|by apply IH]. apply sends_mbind.
    - apply sends_attempt. unfold delete_guest. cbv zeta. apply sends_mbind; [apply sends_attempt, sends_request; by left|]. intros r.
      apply sends_mbind; [done|]. intros pre. case_bool_decide; [done|]. apply sends_request. right. split; [done|].
      exists node, v, gt. split; [apply Hl; by left|done].
    - intros [upid|e]; [by apply IH|]. destruct strict; [done|by apply IH]. }
  apply sends_mbind; [eapply reads_send; [|apply get_all_guests_reads]; by left|]. intros guests. cbv zeta.
  destruct (strict && _); [done|]. by apply Hd.
Qed.

(** ** Parameters *)
Definition values (k : string) (ps : list (string * string)) : list string := snd <$> filter (fun p => p.1 = k) ps.
Definition raw_value (k spec : string) : option string :=
  '(k', v) ← split_once "=" spec; if bool_decide (k' = k) then Some v else None.
Lemma param_values_app k a b : values k (a ++ b) = values k a ++ values k b.
Proof. unfold values. by rewrite filter_app, fmap_app. Qed.
Lemma values_dropped k k' ps :
  values k (filter (fun p => p.1 <> k') ps) = if bool_decide (k' = k) then [] else values k ps.
Proof.
  unfold values. induction ps as [|[x v] ps IH]; [by case_bool_decide|]. rewrite !filter_cons. cbn [fst].
  destruct (decide (x = k')) as [->|Hx].
  - rewrite decide_False by tauto. rewrite IH. case_bool_decide as Hk; [done|]. by rewrite decide_False by done.
  - rewrite decide_True by done. rewrite filter_cons. cbn [fst]. destruct (decide (x = k)) as [->|Hxk].
    + rewrite bool_decide_eq_false_2 by done. rewrite fmap_cons, IH, bool_decide_eq_false_2 by done. done.
    + exact IH.
Qed.
(** C30: of the parameters of a request, a key given with [--raw] has the last
    value given for it and no other, and any other key the values of the
    typed flags; it fails exactly on a [--raw] without an equals sign. *)
Theorem raw_overrides_typed raw typed :
  match build_params typed raw with
  | Ok ps => Forall (fun spec => is_Some (split_once "=" spec)) raw
      /\ forall k, values k ps = match last (omap (raw_value k) raw) with Some v => [v] | None => values k typed end
  | Err _ => Exists (fun spec => split_once "=" spec = None) raw
  end.
Proof.
  revert typed. induction raw as [|spec raw IH]; intros typed; cbn [build_params]; [done|].
  destruct (split_once "=" spec) as [[k v]|] eqn:E; [|by constructor].
  specialize (IH (filter (fun p => p.1 <> k) typed ++ [(k, v)])). destruct (build_params _ raw) as [ps|e]; [|by apply Exists_cons_tl].
  destruct IH as [IH1 IH2]. split; [constructor; [by rewrite E|done]|]. intros k'. rewrite IH2, param_values_app, values_dropped.
  change (omap (raw_value k') (spec :: raw))
    with (match raw_value k' spec with Some x => x :: omap (raw_value k') raw | None => omap (raw_value k') raw end).
  unfold raw_value at 2. rewrite E. cbn [mbind option_bind].
  assert (Hv : values k' [(k, v)] = if bool_decide (k = k') then [v] else []).
  { unfold values. rewrite filter_cons, filter_nil. cbn [fst]. destruct (decide (k = k')); [by rewrite bool_decide_eq_true_2|by rewrite bool_decide_eq_false_2]. }
  rewrite Hv. case_bool_decide as Hk.
  - rewrite last_cons. by destruct (last _).
  - rewrite app_nil_r. done.
Qed.

(** ** What leaves *)
Section claims.
Context {W : Type} `{E : Env W} `{D : Derives} {K : Codecs} {M : Mac} `{DU : De User} `{DT : De TokenCreateResponse} `{DP : De PciDevice}.
Context {DM : MonitoringTypes} (c : PxClient).

(** C8: whatever the cluster answers, a command of [CliCommand] (see there for
    the commands this is about) destroys something (deletes, stops or suspends
    every guest of a node, revokes a role) only when [--yes] was given, or when
    it is the deletion of a snapshot, which has no such flag; and never under
    [--secure].  Every request that leaves is a login, a read, or one the command
    makes, after its record, that is not such a request or was confirmed. *)
Theorem cli_destroys_only_confirmed secure cmd p s :
  program_of (Cli cmd) = Some p ->
  exists l, cw_sent (run c (checked (enforce_cli_secure_mode (Cli cmd) secure) ;; p) s).2 = cw_sent s ++ l
    /\ Forall (fun x => is_login c x.1 \/ rq_method x.1 = GET
         \/ exists m path ps, rq_method x.1 = m /\ rq_url x.1 = url_of c (show_path path)
              /\ recorded c m (show_path path) ps x.2
              /\ (destructive m path ps -> (confirmed cmd = true \/ has_no_yes cmd = true) /\ secure = false)) l.
Proof.
  intros (? & [= <-] & ->)%dispatch_execute. set (asked := confirmed cmd || has_no_yes cmd).
  assert (Hs : sends (only_if (asked && negb secure)) (checked (enforce_cli_secure_mode (Cli cmd) secure) ;; execute cmd)).
  { destruct (enforce_cli_secure_mode (Cli cmd) secure) as [[]|e] eqn:Es; [|done].
    change (sends (only_if (asked && negb secure)) (execute cmd)).
    destruct secure; [|rewrite andb_true_r; apply execute_asks]. rewrite andb_false_r. by apply secure_asks. }
  destruct (run_leaves c _ _ s Hs) as (l & Hl & F). exists l. split; [done|].
  eapply Forall_impl; [exact F|].
  assert (Hd : forall m path ps, only_if (asked && negb secure) m path ps ->
    destructive m path ps -> (confirmed cmd = true \/ has_no_yes cmd = true) /\ secure = false).
  { intros m path ps Ho Hd. apply Ho, andb_prop in Hd as [Ha%orb_prop Hd]. by destruct secure. }
  intros x [H|[H _]|path ps _ [H _] _|m path ps _ Ha (H1 & H2 & _) Hr _|path ct fn Ha (H1 & H2 & _) Hr]; auto;
    right; right; eexists _, _, _; eauto.
Qed.
End claims.

(** ** The permissions of a user *)
Lemma word_ordinary a : shell_word_char a = true -> ordinary_char a = true.
Proof.
  unfold shell_word_char, ordinary_char, bare_char. destruct (is_alnum a); [done|]. simpl. rewrite !bool_decide_eq_true.
  rewrite orb_true_iff, !bool_decide_eq_true, !elem_of_cons. tauto.
Qed.
Lemma lex_shell_quote s : sh_lex false None (shell_quote s) = Some [s].
Proof.
  unfold shell_quote. destruct (is_empty s) eqn:He; [by destruct s|]. destruct (all_bytes shell_word_char s) eqn:Hw.
  - rewrite <-(string_app_nil_r s) at 1. rewrite lex_ordinary; [done| |by intros ->].
    eapply all_bytes_impl; [|exact Hw]. exact word_ordinary.
  - change ("'" +:+ escape_quotes s +:+ "'") with (quote_single s). rewrite <-(string_app_nil_r (quote_single s)).
    by rewrite lex_quote_single.
Qed.
(** the command of [proxxx perms] is read by the remote shell as the call
    of [pveum] that asks for that user and for nothing else, whatever the name
    holds; only a name with one of seven characters is refused. *)
Lemma perms_asks_for_the_user userid :
  match perms_command userid with
  | Ok cmd => sh_words cmd = Some ["pveum"; "user"; "permissions"; "--output-format"; "json"; "--"; userid]
  | Err _ => exists a, a ∈ perms_metachars /\ has_char a userid = true
  end.
Proof.
  unfold perms_command. destruct (existsb _ _) eqn:Hm.
  - apply existsb_exists in Hm as (a & Ha & Hc). exists a. split; [by apply list_elem_of_In|done].
  - change (sh_lex false None ("pveum" +:+ " " +:+ "user" +:+ " " +:+ "permissions" +:+ " " +:+ "--output-format" +:+ " " +:+ "json"
      +:+ " " +:+ "--" +:+ " " +:+ shell_quote userid) = Some ["pveum"; "user"; "permissions"; "--output-format"; "json"; "--"; userid]).
    repeat rewrite lex_bare_word by (vm_compute; reflexivity). by rewrite lex_shell_quote.
Qed.

(** ** Commands at work *)
(** What a program gives and asks for when the cluster answers a request by its verb and path. *)
Fixpoint answered {A} (ans : Method -> string -> Value) (p : Http A) : Result CallError A * list (Method * string * Params) :=
  let reply m path ps k :=
    let '(r, l) := k (Ok (JObject [("data", ans m (show_path path))])) in (r, (m, show_path path, ps) :: l) in
  match p with
  | Return r => (r, [])
  | Request m path ps k => reply m path ps (fun r => answered ans (k r))
  | PostWithin path ps k => reply POST path ps (fun r => answered ans (k (Some r)))
  | UploadFile path ct fn k => reply POST path [("content", ct); ("filename", fn)] (fun r => answered ans (k r))
  | Now k => answered ans (k 0%N)
  | Sleep _ k => answered ans k
  end.
Section demo.
#[local] Instance demo_codecs : Codecs := {|
  json_from_str _ := Err "not read"; json_to_string _ := "{}"; lock_from_toml _ := Err "not a lock"; gunzip := Ok; show_status := pretty |}.
Definition guest_at (node : string) (vmid : N) : Guest :=
  Build_Guest vmid "g" Running Qemu node 1 0 0 0 0 0 "" "" "" false 0 0.
#[local] Instance demo_derives : Derives := {|
  reserialise _ v := Ok v;
  de_resource := {| de_value _ := Err "no resource"; de_missing := None |}; resource_value _ := JNull;
  de_task_status := {| de_value _ := Err "no task"; de_missing := None |}; task_status_value _ := JNull;
  de_acl := {| de_value _ := Err "no entry"; de_missing := None |}; acl_value _ := JNull;
  de_hosts := {| de_value v := match v with JString d => Ok (mkNodeHosts d v) | _ => Err "no hosts" end; de_missing := None |};
  hosts_value h := nh_rest h;
  de_node := {| de_value v := match v with JString n => Ok (mkNode n Online (F64.f64_of_N 0) 0 0 0 0 0 0) | _ => Err "no node" end; de_missing := None |};
  de_guest := {| de_value v := match v with JNumber z => Ok (guest_at "" (Z.to_N z)) | _ => Err "no guest" end; de_missing := None |};
  de_pool := {| de_value _ := Err "no pool"; de_missing := None |};
  sort_key _ := "" |}.
#[local] Instance demo_user : De User := {| de_value _ := Err "no user"; de_missing := None |}.
#[local] Instance demo_token : De TokenCreateResponse := {| de_value _ := Err "no token"; de_missing := None |}.
#[local] Instance demo_pci : De PciDevice := {| de_value _ := Err "no device"; de_missing := None |}.
#[local] Instance demo_monitoring : MonitoringTypes := {|
  de_ha_group := {| de_value _ := Err "no group"; de_missing := None |};
  de_ha_resource := {| de_value _ := Err "no resource"; de_missing := None |};
  de_cluster_entry := {| de_value _ := Err "no entry"; de_missing := None |};
  de_file_content := {| de_value _ := Err "no file"; de_missing := None |}; online_order := elements |}.
#[local] Existing Instance demo_mac.
Definition two_nodes (m : Method) (path : string) : Value :=
  if bool_decide (path = "/nodes") then JArray [JString "pve1"; JString "pve2"]
  else if bool_decide (path = "/nodes/pve1/qemu") then JArray [JNumber 100]
  else if bool_decide (path = "/nodes/pve2/qemu") then JArray [JNumber 200]
  else if contains "/config" path then JObject [("hostpci0", JString "0000:01:00.0")]
  else if contains "/hosts" path then match m with GET => JString "d1g357" | _ => JNull end
  else if contains "/acme" path then JNull
  else JArray [].

(** A device that guests of two nodes have at the same address is reported as shared on the first. *)
Example conflict_across_nodes :
  snd <$> result_ok (answered two_nodes (execute (Hw (HwConflicts "pve1")))).1 = Some 1%Z.
Proof. vm_compute. reflexivity. Qed.
(** Without a digest the one that is there is fetched and sent back. *)
Example digest_fetched :
  (answered two_nodes (execute (NodeSystem "pve1" (SysHosts (HostsSet "h" None false))))).2
  = [(GET, "/nodes/pve1/hosts", []); (POST, "/nodes/pve1/hosts", [("data", "h"); ("digest", "d1g357")])].
Proof. vm_compute. reflexivity. Qed.
(** The credentials of a DNS plugin are recorded as they are. *)
Example plugin_credentials_recorded :
  match (answered two_nodes (execute (Acme (AcmePlugin (PluginCreate "cf" "dns" (Some "cf") (Some "CF_Token=s3cret") None []))))).2 with
  | [(POST, _, ps)] => (fun p => Redact.redact_param_value p.1 p.2) <$> ps
  | _ => []
  end = ["cf"; "dns"; "cf"; "CF_Token=s3cret"].
Proof. vm_compute. reflexivity. Qed.
(** Without [--yes] nothing is asked for. *)
Example unconfirmed_delete :
  (answered two_nodes (execute (Pool (PoolDelete "dev" false)))).2 = []
  /\ (answered two_nodes (execute (NodePower (NodeStopall "pve1" false)))).2 = [].
Proof. vm_compute. done. Qed.
(** The members of a pool are removed without it. *)
Example members_removed_unconfirmed :
  (answered (fun _ _ => JNull) (execute (Pool (PoolRemoveMembers "dev" (Some "100") None)))).2
  = [(PUT, "/pools/dev", [("vms", "100"); ("delete", "1")])].
Proof. vm_compute. reflexivity. Qed.
(** A snapshot is deleted without it. *)
Example snapshot_deleted_unconfirmed :
  let ans m path := if bool_decide (path = "/nodes") then JArray [JString "pve1"]
                    else if bool_decide (path = "/nodes/pve1/qemu") then JArray [JNumber 100]
                    else match m with DELETE => JString "UPID:1" | _ => if contains "/cluster/" path then JNull else JArray [] end in
  last (answered ans (execute (Snapshot (SnapshotDelete 100 "s1")))).2
  = Some (DELETE, "/nodes/pve1/qemu/100/snapshot/s1", []).
Proof. vm_compute. reflexivity. Qed.

Lemma cli_changes_once_witness :
  changes_at_most 1 (execute (Pool (PoolDelete "dev" true))) /\ changes_at_most 0 (execute (Ha HaGroups)).
Proof.
  split; [apply (cli_changes_once (Pool (PoolDelete "dev" true)))|apply (cli_changes_once (Ha HaGroups))]; reflexivity.
Defined.
Lemma cli_destroys_only_confirmed_witness :
  let p := execute (Pool (PoolDelete "dev" true)) in
  map (rq_method ∘ fst) (cw_sent (run (E := demo_env ∅) demo_client p demo_start).2) = [DELETE] /\
  exists l, cw_sent (run (E := demo_env ∅) demo_client
                      (checked (enforce_cli_secure_mode (Cli (Pool (PoolDelete "dev" true))) true) ;; p) demo_start).2
            = cw_sent demo_start ++ l
    /\ Forall (fun x => is_login demo_client x.1 \/ rq_method x.1 = GET
         \/ exists m path ps, rq_method x.1 = m /\ rq_url x.1 = url_of demo_client (show_path path)
              /\ recorded demo_client m (show_path path) ps x.2
              /\ (destructive m path ps -> (true = true \/ false = true) /\ true = false)) l.
Proof.
  split; [vm_compute; reflexivity|].
  apply (cli_destroys_only_confirmed (E := demo_env ∅) demo_client true (Pool (PoolDelete "dev" true))
           (execute (Pool (PoolDelete "dev" true))) demo_start). reflexivity.
Defined.
End demo.
